(* ===== verification/_CoqProject ===== *)
-Q . S2P
Prelude.v
Text.v
Unicode.v
Errors.v
ErrorText.v
Sid.v
Acl.v
Sddl.v
Backends.v
Editor.v
EtwEvents.v
EtwDecode.v
EtwMap.v
EtwSchema.v
EtwSession.v
EtwControl.v
EtwBuilder.v
EtwPipeline.v
Pe.v
ProcTree.v
NtPath.v
Effects.v
Resources.v
EvtTypes.v
EvtRender.v
EvtLog.v
Registry.v
ProcSpawn.v
Rundown.v
Wait.v
ImagePath.v
Peb.v
ProcOps.v
IoError.v
Pipes.v
PipeServer.v
PipeList.v
RawFile.v
SafeFile.v
Services.v
Mitigation.v
Proxy.v
Inject.v
Token.v
SysParse.v
SystemInfo.v
Provider.v
Crypto.v
Console.v
Window.v
Shell.v
Tray.v
Controls.v
DeskList.v
Canvas.v
Metrics.v
Permissions.v
