(* ===== verification/Prelude.v ===== *)
(** * windows-erg: verification development

    windows-erg is a Rust library of ergonomic wrappers over Windows APIs.
    This development models the parts that carry logic of their own: security
    descriptors and their editing, the ETW consumer with its payload decoders,
    event log queries and rendering, registry values, named pipes, process
    listing, spawning and inspection, process tokens, injection and
    mitigations, services, proxy settings, system information, raw and
    link-safe file access, wait objects, PE file analysis, NT path
    conversion, ETW providers, cryptography, console signals and the desktop
    (windows, tray icons, controls, menus, clipboard, canvas).  Paths below are relative to src/src/.

    ** Layout

    - [Prelude] (this file): outcomes of Rust code, machine integers, byte
      order, slices, stable sorting, the tactics [inv_binds] and
      [solve_bytes] and the hint databases [rust] and [rust_rw].
    - [Text], [Unicode]: the string functions of the standard library that
      the sources use (number formatting and parsing, searching, splitting,
      trimming, ASCII case, UTF-8 and UTF-16).  A [String] is the list of its
      UTF-8 bytes.
    - [Errors]: the error types of error.rs; [ErrorText]: their [Display]
      texts.
    - [Sid]: security/sid.rs.
    - [Acl]: security/acl.rs, rights.rs and descriptor.rs.
    - [Sddl]: the SDDL printers and parsers of security/backends/file.rs and
      registry.rs, one text parameterised by the record [sddl_backend] of what
      differs (right tokens, errors, target), with both instances.
    - [Backends]: the operating-system half of the same files, of
      backends/mod.rs and of security/target.rs.  The Windows calls are the
      class [security_api] over an abstract machine state; the state monad
      [io] also counts the [LocalAlloc] blocks and registry keys held.
    - [Editor]: security/editor.rs.  The editor sees a target through the
      class [TargetBackend]; [windows_backend] is its instance.
    - [EtwEvents], [EtwDecode], [EtwMap]: etw/decode/ (event types; process and
      image payloads; field mapping and dispatch by provider).
    - [EtwSchema]: etw/schema.rs, with the answers of the two TDH calls as
      parameters.
    - [EtwSession]: the callback, the channels and the batch readers of
      etw/session.rs and etw/types.rs.  The callback thread and the consumer
      interleave as the step relation [step].
    - [EtwControl]: start, stop, drop and rundown of a session, with the
      sessions, threads and callback contexts the process owns; the calls are
      the class [etw_api].  [EtwBuilder]: the setters of the builder, a
      configuration as a list of them, the loss counters and
      [run_until_stopped].  [EtwPipeline]: a session from its settings to the
      events it delivers, as labelled runs of the two threads against the
      specification [lossy] of a stream; decoding of captured events.
    - [Pe]: file/pe.rs; [ProcTree]: process/list.rs and tree.rs;
      [NtPath]: path/mod.rs.
    - [Effects]: the state and error monad [eff] of the later files, with
      destructors ([eff_scoped]).
    - [Resources]: utils/handles.rs, and the account of what a process holds
      (handles, security descriptors, attribute lists, environment blocks,
      pending I/O).  [owns m own] says that a successful call gains exactly
      what [own] lists and a failed one nothing.
    - [EvtTypes], [EvtRender], [EvtLog]: evt/ (levels, string interning, query
      building and timestamps; rendering from values and XML, messages; the
      query object and its batch readers).  The events of the XML reader and
      the variants of the rendering call are parameters.
    - [Registry]: registry/.  The registry is the class [registry_api] with
      the laws [registry_laws] and a concrete instance; the value types are
      instances of [RegistryValue].
    - [ProcSpawn]: process/spawn.rs; [Rundown]: process/rundown.rs; [Wait]:
      wait/mod.rs, with the kernel's events as the class [wait_api] and its
      laws; [ImagePath]: the path cache of process/types.rs; [Peb]:
      process/peb.rs, with field offsets computed from the C layout rules;
      [ProcOps]: process/processes.rs, modules.rs, threads.rs, memory.rs and
      metrics.rs, with the length and capacity of the module buffer.
    - [IoError]: utils/io.rs; [Pipes]: pipes/types.rs, error_map.rs,
      security_attrs.rs, client.rs and anonymous.rs; [PipeServer]:
      pipes/server.rs; [PipeList]: pipes/enumerate.rs.
    - [RawFile]: file/raw.rs, win.rs and builder.rs (volume handles, retrieval
      pointers, cluster reads, the copy); [SafeFile]: file/safe.rs, with the
      file system as a class with laws and a concrete tree.
    - [Services]: service/, on a service control manager with a clock;
      [Mitigation]: mitigation/mod.rs; [Proxy]: proxy/, on the registry of
      [Registry]; [Inject]: process/inject.rs; [Token]:
      security/process_token.rs.
    - [SysParse], [SystemInfo]: system/mod.rs and types.rs (the parsers of
      firmware tables, drive lists and time zones; the snapshot and its
      sections, users, known folders, power actions).
    - [Provider]: etw/provider.rs; [Crypto]: crypto/mod.rs and dpapi.rs, with
      CNG and DPAPI as classes with laws; [Console]: console/mod.rs, on the
      waits of [Wait].
    - [Window]: desktop/window.rs, types.rs, msg.rs and dpi.rs.  The window
      procedure is the transition system [wreach]: a call is entered, runs its
      handler (which may enter further calls) and is left; the state holds the
      boxed handlers, the user data of the windows and the calls in progress.
    - [Shell]: desktop/instance.rs, menu.rs and clipboard.rs; [Tray]:
      desktop/tray.rs; [Controls]: desktop/controls.rs, with a notification as
      the structure behind its pointer; [DeskList]: desktop/windows.rs, mod.rs
      and theme.rs; [Canvas]: desktop/canvas.rs, with [f32] as the IEEE
      single-precision numbers of [SpecFloat].
    - [Metrics]: the CPU percentages (in double precision) and host metrics of
      process/metrics.rs, and the elevation checks of lib.rs.
    - [Permissions]: the functions of file/mod.rs, registry/key.rs and
      registry/mod.rs that hand their targets to [Editor], over the registry
      of [Registry] and any [TargetBackend].

    The editor calls the backends, which call the SDDL text functions on the
    data of [Acl] and [Sid]; registry keys give the editor its targets; the
    session calls the schema and the decoders; pipes print their security
    descriptors with their own SDDL printer, wait on [Wait] objects and ask
    [ProcOps] for the path of a client, which [NtPath] converts.

    A Rust function keeps its name; a method or a nested piece of a function
    has a name of its own and the comment above it says what it stands for.
    Struct fields carry a prefix where two structs share a field name.

    ** How Rust is modelled

    A call returns [Ok], [Err] or [Panic] ([res]); [Option] with possible
    panics is [res none].  Unsigned integers are [Z] in range; a sum that can
    overflow is [add_w], which panics in the [Debug] profile and wraps in
    [Release].  [usize] has 64 bits.  Slicing out of range and slicing off a
    character boundary are panics; unsafe code that breaks its contract is the
    outcome [UndefinedBehaviour].  A [HashMap] or [HashSet] is a [gmap] or
    [gset]; where the iteration order could matter it is a parameter
    constrained to be a permutation.

    Loops over data are structural.  Fuel is used in [Sddl.parse_aces] (the
    length of the text), [Text.strip_all] and [Unicode.utf8_chunks] (the
    length), [EtwSession.read_frames] (the length), [Pe.walk_thunks_loop] and
    [Pe.imports_loop] (the 4096 rounds are the source's own bound),
    [ProcTree.collect_descendants], [tree_depth] and [walk_up] (one more than
    the number of processes), [Rundown.parse_loop] and
    [PipeList.entries_loop] (the length of the buffer), [Peb.env_loop] and
    [ProcSpawn.userprofile_loop] (the length of the block),
    [RawFile.read_loop] (one more than the number of extents),
    [SysParse.skip_strings] and [structures_loop] (the length of the table);
    each is proved
    enough where the source terminates, and [tree_depth] is proved to exhaust
    any fuel on a cycle.  The loops that end when the operating system says so
    ([EvtLog.query_loop] and [channel_loop], [EvtRender.format_loop],
    [Registry.enum_loop], [Rundown.query_loop], [PipeList.list_loop],
    [RawFile.copy_loop], [SafeFile.write_loop], [Services.wait_loop],
    [Window.run_message_loop]) take the fuel as an argument, and running out
    of it is the outcome [OutOfFuel]; [query_spec],
    [snapshot_query_terminates], [raw_copy_exact], [wait_for_state_ends] and
    [message_loop_ends] give the number of rounds that is enough.

    ** What the theorems show

    - Security: SIDs and descriptors survive printing and parsing, SDDL text
      is parsed without panic, canonical order is the unique stable order,
      every operation of the editor has its documented effect and keeps
      inherited entries when asked, plans compose, target edits read once and
      write at most once, reads and protected writes release every block and
      key on every path, and the paths on which writes do not are exactly
      listed.
    - ETW: binary payloads and schema-described payloads decode to the values
      that were encoded; each field is decided by its own piece of the
      payload; the schema cache returns, for every session, the answer TDH
      first gave for a record's key and a map's name, which changes nothing as
      long as TDH gives one answer to each key and each name; field mapping
      ignores case, no event is duplicated, reordered or lost uncounted between
      callback and consumer, a session and its thread are released exactly
      once, and a failed start owns nothing, except in the one case that
      [start_ownership] isolates; a started session filters, and passes to
      StartTraceW, exactly what the calls on its builder asked for; [run_until_stopped] ends at the
      stop signal.  Put together, each stream of a started session delivers
      the conversions of the records its settings select, in order, except
      for as many as were counted as dropped; and without drops the raw
      stream decodes to the decoded stream.
    - Event log: a query delivers the events of its batches up to the first
      batch without a readable event, counts the corrupted ones, closes each
      handle once; rendered XML is read back; every timestamp of the
      proleptic calendar up to the year 9999 is converted exactly.
    - Registry: what is written is read back for every value type when it fits
      the read buffer (a list of strings is cut at every NUL and ends at an
      empty string), and every function closes the keys it
      opens; the permission functions act on the key at the path they are
      given, with slashes read as backslashes and without the WOW64 view.
    - Processes: descendants are reachability, the root walk terminates, kills
      reach exactly the tree, in parent-first order; a spawn keeps only the
      process and thread handles; the snapshot query ends after two rounds and
      the walk visits exactly the linked records; the parameters of a process
      are read back from its memory; module lists of up to 768 modules are
      complete, beyond that the buffer is misused; the image path cache is
      invisible; processor usage is a number between 0 and 100, exact at both
      ends.
    - Waits: a wait on several objects reports the first that is signaled.
    - Pipes: names are valid by construction, a server with an allow-list only
      accepts clients on it, reads and writes leave nothing pending, a
      directory answer is read back, and a poll reports exactly the
      differences between two listings and keeps the information of the last.
    - PE: the checksum equals its closed form and is independent of the stored
      field, thunk arrays read back, panics are confined to two u32 sums in
      debug builds, and each reported signal means what it says.
    - Paths: every form of input, and idempotence.
    - Files: a raw copy writes exactly the bytes the extents of the file hold
      on the volume; creation and deletion without following links act on the
      named entry of the real directory or not at all, and close every handle.
    - Services: a wait for a state ends within its time-out and reports the
      state when it is reached in time; a restart starts a stopped service;
      no function keeps a manager or service handle.
    - Mitigations, tokens, injection: after an applied plan the status query
      reports what the plan asked for, where payload restriction stands for
      the first candidate mask, from strong to weak, that Windows did not
      refuse; the integrity level is that of the label's SID; injection
      leaves no handle and no memory behind on any path but the one that
      [unfinished_thread_loses_path] shows.
    - Proxy and system: the effective settings are those of the hive the policy
      chooses; the firmware UUID is found behind any well-formed structures and
      the parser never leaves the table; a snapshot fails only with the error
      of the section that failed; power actions are asked for only after the
      privilege was enabled.
    - Errors: the text of every error names all of its fields.
    - ETW provider: an event that is written and delivered is read back by the
      schema parser with the names and values that were given.
    - Cryptography: sealing and opening are inverse and nothing else opens;
      signatures verify; DPAPI data comes back; every key handle is destroyed
      and every DPAPI block freed on every path.
    - Console: a control signal sets every registered wait.
    - Desktop: a window handler lives exactly as long as its window, unless it
      destroys its window itself; the message loop ends with the code of the
      quit message; one instance holds a name at a time; text survives the
      clipboard, up to its first NUL, without a write outside the block; a
      tray icon leaves behind only what Windows refused to delete; notifications decode to what they say;
      an enumeration lists each top-level window followed by its descendants,
      and filtering during it is filtering afterwards; 24-bit colours
      survive single precision; a frame draws with a brush of its own target.

    ** Not modelled

    Windows itself (parameters and classes above), a channel of capacity 0
    while a receiver is blocked on it, the counter of running sessions when a
    stale session is stopped by its name, what GDI and Direct2D draw,
    COM reference counts, the bytes an overlapped pipe read stores, [Debug]
    texts and getters that return a field, [Path::file_name] behind
    [Process::name], threads other than the ETW callback, the modules that
    only declare, re-export or define newtypes, tests and examples. *)

From Stdlib Require Import ZArith Lia String Ascii.
From stdpp Require Import base list strings gmap numbers sorting.

(** ** Outcomes of Rust code

    A call either returns a success value, returns an error value, or
    panics.  [res E A] is the type of a function whose Rust type is
    [Result<A, E>] and in which a panic is possible; a function of type
    [Option<A>] in which a panic is possible is [res none A], where
    [Err NoneV] is Rust's [None].  [OutOfFuel] is not a panic of the program:
    it is the outcome of a loop of the model whose fuel is used up, so a
    theorem that excludes panics also says that the fuel is enough.
    [UndefinedBehaviour] is the outcome of unsafe code that breaks the
    contract of an operation (a length past the capacity, a read of a freed
    or never written buffer), and [ProcessAbort] is [std::process::abort]. *)

Inductive panic :=
  | IndexOutOfBounds
  | NotCharBoundary
  | ArithmeticOverflow
  | DivideByZero
  | TimeOverflow
  | UndefinedBehaviour
  | ProcessAbort
  | OutOfFuel.

Inductive none := NoneV.

Inductive res (E A : Type) :=
  | Ok (a : A)
  | Err (e : E)
  | Panic (p : panic).
Arguments Ok {E A} a.
Arguments Err {E A} e.
Arguments Panic {E A} p.

#[export] Instance panic_eq_dec : EqDecision panic.
Proof. solve_decision. Defined.
#[export] Instance none_eq_dec : EqDecision none.
Proof. solve_decision. Defined.
#[export] Instance res_eq_dec `{EqDecision E} `{EqDecision A} : EqDecision (res E A).
Proof. solve_decision. Defined.

Definition res_bind {E A B} (m : res E A) (k : A -> res E B) : res E B :=
  match m with
  | Ok a => k a
  | Err e => Err e
  | Panic p => Panic p
  end.

(** [map_err] and [ok_or_else] of the standard library. *)
Definition map_err {E F A} (f : E -> F) (m : res E A) : res F A :=
  match m with
  | Ok a => Ok a
  | Err e => Err (f e)
  | Panic p => Panic p
  end.

Definition ok_or {E A} (o : option A) (e : E) : res E A :=
  match o with Some a => Ok a | None => Err e end.

(** [Result::ok]: forget the error, keep a panic a panic. *)
Definition res_ok {E A} (m : res E A) : res E (option A) :=
  match m with
  | Ok a => Ok (Some a)
  | Err _ => Ok None
  | Panic p => Panic p
  end.

Definition no_panic {E A} (m : res E A) : Prop := forall p, m <> Panic p.

Declare Scope res_scope.
Delimit Scope res_scope with res.
Notation "'let!' x ':=' m 'in' k" := (res_bind m (fun x => k))
  (at level 10, x pattern, m at level 100, k at level 200,
   format "'[v' 'let!'  x  ':='  m  'in' '/' k ']'") : res_scope.
Open Scope res_scope.

Create HintDb rust.
Create Rewrite HintDb rust_rw.

Lemma res_bind_ok {E A B} (m : res E A) (k : A -> res E B) b :
  res_bind m k = Ok b <-> exists a, m = Ok a /\ k a = Ok b.
Proof. destruct m; naive_solver. Qed.

Lemma res_bind_err {E A B} (m : res E A) (k : A -> res E B) e :
  res_bind m k = Err e <-> m = Err e \/ exists a, m = Ok a /\ k a = Err e.
Proof. destruct m; naive_solver. Qed.

Lemma no_panic_ok {E A} (a : A) : no_panic (@Ok E A a).
Proof. by intros p. Qed.

Lemma no_panic_err {E A} (e : E) : no_panic (@Err E A e).
Proof. by intros p. Qed.

Lemma no_panic_bind {E A B} (m : res E A) (k : A -> res E B) :
  no_panic m -> (forall a, m = Ok a -> no_panic (k a)) -> no_panic (res_bind m k).
Proof. intros Hm Hk p. destruct m; simpl; [by apply Hk | done | by destruct (Hm p0)]. Qed.

Lemma no_panic_ok_or {E A} (o : option A) (e : E) : no_panic (ok_or o e).
Proof. by destruct o; intros p. Qed.

#[export] Hint Resolve no_panic_ok no_panic_err no_panic_ok_or : rust.
#[export] Hint Rewrite @res_bind_ok @res_bind_err : rust_rw.

(** Split a hypothesis that a chain of binds returned [Ok]. *)
Ltac inv_binds :=
  repeat match goal with
  | H : res_bind _ _ = Ok _ |- _ =>
      apply res_bind_ok in H; let a := fresh "v" in destruct H as (a & ? & H)
  | H : context [ok_or ?o _ = Ok _] |- _ =>
      let E := fresh "E" in destruct o eqn:E; simpl in H; [|discriminate H]
  | H : Ok _ = Ok _ |- _ => injection H as H; subst
  | H : Err _ = Ok _ |- _ => discriminate H
  | H : Panic _ = Ok _ |- _ => discriminate H
  | H : (if ?b then _ else _) = Ok _ |- _ =>
      let E := fresh "E" in destruct b eqn:E; try discriminate H
  end.

(** ** Machine integers

    An unsigned [w]-bit integer is a [Z] in [[0, 2^w)].  [usize] is the
    64-bit one of both supported targets. *)

Open Scope Z_scope.

Abbreviation u8_max := 255 (only parsing).
Abbreviation u16_max := 65535 (only parsing).
Abbreviation u32_max := 4294967295 (only parsing).
Abbreviation u64_max := 18446744073709551615 (only parsing).

Definition wrap (w z : Z) : Z := z mod 2 ^ w.
(** The [i32] and the [i64] with the bits of [z]. *)
Definition as_i32 (z : Z) : Z := if z <? 2 ^ 31 then z else z - 2 ^ 32.
Definition as_i64 (z : Z) : Z := if z <? 2 ^ 63 then z else z - 2 ^ 64.
Definition is_byte (b : Z) : Prop := 0 <= b < 256.
Definition bytes_ok (bs : list Z) : Prop := Forall is_byte bs.

(** Prove that a list with known elements holds bytes. *)
Ltac solve_bytes :=
  unfold bytes_ok in *;
  repeat (apply Forall_cons_2; [solve [assumption | unfold is_byte in *; lia]|]);
  first [apply Forall_nil_2 | assumption].

(** Cargo profiles: [overflow-checks] is on in dev builds, off in release
    builds (Cargo.toml sets neither, so the defaults apply). *)
Inductive profile := Debug | Release.

Definition add_w {E} (p : profile) (w a b : Z) : res E Z :=
  if a + b <? 2 ^ w then Ok (a + b)
  else match p with
       | Debug => Panic ArithmeticOverflow
       | Release => Ok (wrap w (a + b))
       end.

(** [saturating_add] on [w] bits. *)
Definition sat_add (w a b : Z) : Z := Z.min (a + b) (2 ^ w - 1).

(** ** Byte order *)

Lemma reverse_rev {A} (l : list A) : reverse l = List.rev l.
Proof. unfold reverse. by rewrite List.rev_alt. Qed.

Fixpoint le_decode (bs : list Z) : Z :=
  match bs with
  | [] => 0
  | b :: bs => b + 256 * le_decode bs
  end.

Fixpoint le_encode (n : nat) (z : Z) : list Z :=
  match n with
  | O => []
  | S n => z mod 256 :: le_encode n (z / 256)
  end.

Definition be_decode (bs : list Z) : Z := le_decode (reverse bs).
Definition be_encode (n : nat) (z : Z) : list Z := reverse (le_encode n z).

Lemma length_le_encode n z : length (le_encode n z) = n.
Proof. revert z; induction n; intros; simpl; auto. Qed.

Lemma length_be_encode n z : length (be_encode n z) = n.
Proof. unfold be_encode. by rewrite length_reverse, length_le_encode. Qed.

Lemma bytes_ok_le_encode n z : bytes_ok (le_encode n z).
Proof.
  revert z; induction n; intros; constructor; [|apply IHn].
  unfold is_byte. pose proof (Z.mod_pos_bound z 256); lia.
Qed.

Lemma bytes_ok_be_encode n z : bytes_ok (be_encode n z).
Proof. unfold be_encode, bytes_ok. rewrite Forall_reverse. apply bytes_ok_le_encode. Qed.

Lemma pow256_S n : 256 ^ Z.of_nat (S n) = 256 * 256 ^ Z.of_nat n.
Proof. rewrite Nat2Z.inj_succ, Z.pow_succ_r; lia. Qed.

Lemma le_decode_encode n z :
  0 <= z < 256 ^ Z.of_nat n -> le_decode (le_encode n z) = z.
Proof.
  revert z; induction n as [|n IH]; intros z Hz; [simpl in *; lia|].
  cbn [le_encode le_decode]. rewrite pow256_S in Hz.
  rewrite IH; [pose proof (Z.div_mod z 256); lia|].
  split; [apply Z.div_pos; lia|apply Z.div_lt_upper_bound; lia].
Qed.

Lemma le_decode_bound bs :
  bytes_ok bs -> 0 <= le_decode bs < 256 ^ Z.of_nat (length bs).
Proof.
  induction 1 as [|b bs Hb _ IH]; [simpl; lia|].
  cbn [le_decode length]. rewrite pow256_S. unfold is_byte in Hb. lia.
Qed.

Lemma le_encode_decode bs :
  bytes_ok bs -> le_encode (length bs) (le_decode bs) = bs.
Proof.
  induction 1 as [|b bs Hb _ IH]; [done|]. cbn [le_decode length le_encode].
  unfold is_byte in Hb. f_equal.
  - rewrite Z.mul_comm, Z_mod_plus_full. apply Z.mod_small; lia.
  - rewrite Z.mul_comm, Z.div_add by lia. rewrite Z.div_small by lia. done.
Qed.

Lemma be_decode_encode n z :
  0 <= z < 256 ^ Z.of_nat n -> be_decode (be_encode n z) = z.
Proof. unfold be_decode, be_encode. rewrite reverse_involutive. apply le_decode_encode. Qed.

Lemma be_decode_bound bs :
  bytes_ok bs -> 0 <= be_decode bs < 256 ^ Z.of_nat (length bs).
Proof.
  intros H. unfold be_decode. rewrite <- (length_reverse bs).
  apply le_decode_bound. by apply Forall_reverse.
Qed.

Lemma be_encode_decode bs :
  bytes_ok bs -> be_encode (length bs) (be_decode bs) = bs.
Proof.
  intros H. unfold be_encode, be_decode. rewrite <- (length_reverse bs).
  rewrite le_encode_decode by (by apply Forall_reverse). apply reverse_involutive.
Qed.

#[export] Hint Rewrite length_le_encode length_be_encode : rust_rw.
#[export] Hint Resolve bytes_ok_le_encode bytes_ok_be_encode : rust.

(** Setting the bits above [w] of a [w]-bit value adds. *)
Lemma lor_shift_add w hi lo :
  0 <= w -> 0 <= lo < 2 ^ w -> Z.lor (Z.shiftl hi w) lo = hi * 2 ^ w + lo.
Proof.
  intros Hw Hlo. rewrite Z.shiftl_mul_pow2 by done.
  assert (Z.land (hi * 2 ^ w) lo = 0) as Hd.
  { apply Z.bits_inj'. intros n Hn. rewrite Z.land_spec, Z.bits_0.
    destruct (Z.lt_ge_cases n w); [by rewrite Z.mul_pow2_bits_low by lia|].
    destruct (decide (lo = 0)) as [->|]; [by rewrite Z.bits_0, andb_false_r|].
    rewrite (Z.bits_above_log2 lo); [apply andb_false_r|lia|].
    apply Z.log2_lt_pow2; [lia|]. eapply Z.lt_le_trans; [apply Hlo|].
    apply Z.pow_le_mono_r; lia. }
  rewrite <- Z.lxor_lor by done. by rewrite Z.add_nocarry_lxor.
Qed.

(** ** Slices

    [slice_get bs off n] is [bs.get(off..off + n)]. *)

Definition zlen {A} (l : list A) : Z := Z.of_nat (length l).

Definition slice_get {A} (l : list A) (off n : Z) : option (list A) :=
  if off + n <=? zlen l
  then Some (take (Z.to_nat n) (drop (Z.to_nat off) l))
  else None.

Lemma slice_get_length {A} (l : list A) off n s :
  0 <= off -> 0 <= n -> slice_get l off n = Some s -> zlen s = n.
Proof.
  unfold slice_get, zlen. intros Ho Hn H. case_match eqn:E; [|done].
  injection H as <-. apply Z.leb_le in E. rewrite length_take, length_drop. lia.
Qed.

Lemma slice_get_app {A} (l1 l2 l3 : list A) :
  slice_get (l1 ++ l2 ++ l3) (zlen l1) (zlen l2) = Some l2.
Proof.
  unfold slice_get, zlen. rewrite !length_app.
  replace (_ <=? _) with true by (symmetry; apply Z.leb_le; lia).
  rewrite !Nat2Z.id, drop_app_length, take_app_length. done.
Qed.

Lemma slice_get_bytes_ok bs off n s :
  bytes_ok bs -> slice_get bs off n = Some s -> bytes_ok s.
Proof.
  unfold slice_get. intros Hb H. case_match; [|done]. injection H as <-.
  by apply Forall_take, Forall_drop.
Qed.

(** [iter().position(f)]. *)
Fixpoint position {A} (f : A -> bool) (l : list A) : option nat :=
  match l with
  | [] => None
  | x :: l => if f x then Some O else S <$> position f l
  end.

Lemma position_app_hit {A} (f : A -> bool) l1 x l2 :
  Forall (fun y => f y = false) l1 -> f x = true ->
  position f (l1 ++ x :: l2) = Some (length l1).
Proof.
  induction 1 as [|y l1 Hy _ IH]; intros Hx; simpl; [by rewrite Hx|].
  rewrite Hy, IH; done.
Qed.

Lemma position_none {A} (f : A -> bool) l :
  position f l = None <-> Forall (fun y => f y = false) l.
Proof.
  induction l as [|x l IH]; simpl; [split; done|].
  rewrite Forall_cons. destruct (f x) eqn:E; [naive_solver|].
  rewrite fmap_None. naive_solver.
Qed.

Lemma position_lt {A} (f : A -> bool) l n :
  position f l = Some n -> (n < length l)%nat.
Proof.
  revert n; induction l as [|x l IH]; simpl; [done|]. intros n.
  destruct (f x); [intros [= <-]; lia|].
  intros (m & Hm & ->)%fmap_Some. specialize (IH m Hm). lia.
Qed.

Lemma filter_true {A} (l : list A) : List.filter (fun _ => true) l = l.
Proof. induction l as [|x l IH]; [done|]. cbn. by rewrite IH. Qed.

(** ** Stable sort by a key

    [slice::sort_by_key] is stable.  The result of a stable sort is
    determined by the input, so insertion sort gives the same result as
    the merge sort of the standard library; [stable_sort_unique] is that
    fact. *)

Section SortByKey.
Context {A : Type} (key : A -> Z).

Fixpoint insert_by (x : A) (l : list A) : list A :=
  match l with
  | [] => [x]
  | y :: l' => if key x <=? key y then x :: l else y :: insert_by x l'
  end.

Fixpoint sort_by_key (l : list A) : list A :=
  match l with
  | [] => []
  | x :: l => insert_by x (sort_by_key l)
  end.

Definition key_le (x y : A) : Prop := key x <= key y.
Definition with_key (k : Z) : list A -> list A :=
  List.filter (fun x => key x =? k).

Lemma insert_by_perm x l : insert_by x l ≡ₚ x :: l.
Proof.
  induction l as [|y l IH]; simpl; [done|]. case_match; [done|].
  rewrite IH. constructor.
Qed.

Lemma sort_by_key_perm l : sort_by_key l ≡ₚ l.
Proof. induction l as [|x l IH]; simpl; [done|]. by rewrite insert_by_perm, IH. Qed.

Lemma insert_by_sorted x l :
  StronglySorted key_le l -> StronglySorted key_le (insert_by x l).
Proof.
  induction 1 as [|y l Hl IH Hy]; simpl; [by repeat constructor|].
  destruct (key x <=? key y) eqn:E.
  - apply Z.leb_le in E. constructor; [by constructor|]. constructor; [done|].
    eapply Forall_impl; [exact Hy|]. unfold key_le. intros; lia.
  - apply Z.leb_gt in E. constructor; [done|].
    rewrite insert_by_perm. constructor; [unfold key_le; lia|done].
Qed.

Lemma sort_by_key_sorted l : StronglySorted key_le (sort_by_key l).
Proof. induction l; simpl; [constructor|by apply insert_by_sorted]. Qed.

Lemma insert_by_with_key k x l :
  with_key k (insert_by x l) = with_key k (x :: l).
Proof.
  unfold with_key. induction l as [|y l IH]; [done|]. simpl.
  destruct (key x <=? key y) eqn:E; [done|]. apply Z.leb_gt in E.
  simpl. rewrite IH. simpl.
  destruct (key x =? k) eqn:Ex, (key y =? k) eqn:Ey; try done.
  apply Z.eqb_eq in Ex, Ey. lia.
Qed.

Lemma sort_by_key_stable k l : with_key k (sort_by_key l) = with_key k l.
Proof.
  induction l as [|x l IH]; [done|]. cbn [sort_by_key].
  rewrite insert_by_with_key. unfold with_key in *. simpl. by rewrite IH.
Qed.

Lemma elem_of_with_key k x l : x ∈ with_key k l -> x ∈ l.
Proof. rewrite !list_elem_of_In. unfold with_key. by intros [? _]%List.filter_In. Qed.

(** A sorted list is determined by its per-key sublists. *)
Lemma sorted_with_key_inj l1 l2 :
  StronglySorted key_le l1 -> StronglySorted key_le l2 ->
  (forall k, with_key k l1 = with_key k l2) -> l1 = l2.
Proof.
  intros H1. revert l2. induction H1 as [|x l1 Hl1 IH Hx]; intros l2 H2 Hk.
  - destruct l2 as [|y l2]; [done|]. specialize (Hk (key y)).
    unfold with_key in Hk. simpl in Hk. by rewrite Z.eqb_refl in Hk.
  - destruct l2 as [|y l2].
    { specialize (Hk (key x)). unfold with_key in Hk. simpl in Hk.
      by rewrite Z.eqb_refl in Hk. }
    inversion H2 as [|? ? Hl2 Hy]; subst.
    assert (key x = key y) as Exy.
    { assert (forall z l, with_key (key z) (z :: l) = z :: with_key (key z) l) as W.
      { intros z l. unfold with_key. simpl. by rewrite Z.eqb_refl. }
      assert (x ∈ y :: l2) as Hin1.
      { apply (elem_of_with_key (key x)). rewrite <- Hk, W. by left. }
      assert (y ∈ x :: l1) as Hin2.
      { apply (elem_of_with_key (key y)). rewrite Hk, W. by left. }
      rewrite Forall_forall in Hx, Hy. unfold key_le in *.
      apply elem_of_cons in Hin1 as [->|Hin1]; [done|].
      apply elem_of_cons in Hin2 as [->|Hin2]; [done|].
      specialize (Hy _ Hin1). specialize (Hx _ Hin2). lia. }
    pose proof (Hk (key x)) as Hh. unfold with_key in Hh. simpl in Hh.
    rewrite Z.eqb_refl, (proj2 (Z.eqb_eq (key y) (key x))) in Hh by done.
    injection Hh as -> _. f_equal. apply IH; [done|]. intros k.
    specialize (Hk k). unfold with_key in *. simpl in Hk.
    destruct (key y =? k); congruence.
Qed.

(** Any stable sort agrees with [sort_by_key]. *)
Lemma stable_sort_unique l l' :
  StronglySorted key_le l' -> (forall k, with_key k l' = with_key k l) ->
  l' = sort_by_key l.
Proof.
  intros Hs Hk. apply sorted_with_key_inj; [done|apply sort_by_key_sorted|].
  intros k. by rewrite Hk, sort_by_key_stable.
Qed.

Lemma sort_by_key_idemp l : sort_by_key (sort_by_key l) = sort_by_key l.
Proof.
  symmetry. apply stable_sort_unique; [apply sort_by_key_sorted|done].
Qed.

Lemma filter_filter_comm (f g : A -> bool) l :
  List.filter f (List.filter g l) = List.filter g (List.filter f l).
Proof.
  induction l as [|x l IH]; [done|]. simpl.
  destruct (f x) eqn:F, (g x) eqn:G; simpl; rewrite ?F, ?G, IH; done.
Qed.

Lemma filter_sorted (f : A -> bool) l :
  StronglySorted key_le l -> StronglySorted key_le (List.filter f l).
Proof.
  induction 1 as [|x l Hl IH Hx]; simpl; [constructor|].
  case_match; [|done]. constructor; [done|].
  rewrite Forall_forall in *. intros y Hy. apply Hx.
  apply list_elem_of_In. apply list_elem_of_In in Hy.
  by apply List.filter_In in Hy as [? _].
Qed.

(** Sorting commutes with selecting elements. *)
Lemma sort_by_key_filter (f : A -> bool) l :
  List.filter f (sort_by_key l) = sort_by_key (List.filter f l).
Proof.
  apply stable_sort_unique; [apply filter_sorted, sort_by_key_sorted|].
  intros k. unfold with_key. rewrite filter_filter_comm.
  fold (with_key k (sort_by_key l)). rewrite sort_by_key_stable.
  apply filter_filter_comm.
Qed.
End SortByKey.

Lemma sort_by_key_length {A} (key : A -> Z) l :
  length (sort_by_key key l) = length l.
Proof. by rewrite sort_by_key_perm. Qed.
