(* ===== verification/Text.v ===== *)
(** * Text: the parts of Rust's [str], [String] and [char] the crate uses

    A [str] is the list of its UTF-8 bytes, each byte a [Z].  Indices into a
    [str] are byte indices, as in Rust.  The file models formatting and
    parsing of unsigned integers in base 10 and 16, searching and splitting,
    ASCII case folding, [trim], and UTF-8 and UTF-16 decoding, with the
    round trips the components rely on. *)

From Stdlib Require Import ZArith Lia String Ascii.
From stdpp Require Import base list strings gmap numbers sorting.
From S2P Require Import Prelude.

Open Scope Z_scope.

Abbreviation str := (list Z).

(** A string literal of the source, as its bytes. *)
Fixpoint lit (s : string) : str :=
  match s with
  | EmptyString => []
  | String c s => Z.of_N (N_of_ascii c) :: lit s
  end.
Arguments lit _%_string_scope.

(** ** Digits *)

Section Digits.
Context (base : Z).

(** Least significant digit first. *)
Fixpoint digits_rev (fuel : nat) (n : Z) : list Z :=
  match fuel with
  | O => []
  | S fuel => if n <? base then [n] else n mod base :: digits_rev fuel (n / base)
  end.

(** The number of binary digits of [n] bounds its number of digits. *)
Definition digits (n : Z) : list Z := reverse (digits_rev (S (Z.to_nat (Z.log2 n))) n).

Definition value (ds : list Z) : Z := fold_left (fun acc d => acc * base + d) ds 0.

Fixpoint value_rev (ds : list Z) : Z :=
  match ds with [] => 0 | d :: ds => d + base * value_rev ds end.

Lemma value_reverse ds : value (reverse ds) = value_rev ds.
Proof.
  unfold value. rewrite <- fold_left_rev_right, reverse_rev, List.rev_involutive.
  induction ds as [|d ds IH]; simpl; [done|]. rewrite IH. lia.
Qed.

Hypothesis base_ge2 : 2 <= base.

Lemma digits_rev_value fuel n :
  0 <= n < 2 ^ Z.of_nat fuel -> value_rev (digits_rev fuel n) = n.
Proof using base_ge2.
  revert n; induction fuel as [|fuel IH]; intros n Hn; [simpl in *; lia|].
  cbn [digits_rev]. destruct (n <? base) eqn:E; [simpl; lia|].
  apply Z.ltb_ge in E. cbn [value_rev]. rewrite IH; [pose proof (Z.div_mod n base); lia|].
  split; [apply Z.div_pos; lia|]. apply Z.div_lt_upper_bound; [lia|].
  rewrite Nat2Z.inj_succ, Z.pow_succ_r in Hn by lia. nia.
Qed.

Lemma digits_value n : 0 <= n -> value (digits n) = n.
Proof using base_ge2.
  intros Hn. unfold digits. rewrite value_reverse. apply digits_rev_value.
  split; [done|]. destruct (decide (n = 0)) as [->|]; [simpl; lia|].
  pose proof (Z.log2_spec n) as Hl. pose proof (Z.log2_nonneg n).
  replace (Z.of_nat (S (Z.to_nat (Z.log2 n)))) with (Z.succ (Z.log2 n)) by lia. lia.
Qed.

Lemma digits_rev_range fuel n : 0 <= n -> Forall (fun d => 0 <= d < base) (digits_rev fuel n).
Proof using base_ge2.
  revert n; induction fuel as [|fuel IH]; intros n Hn; [constructor|].
  cbn [digits_rev]. destruct (n <? base) eqn:E.
  - apply Z.ltb_lt in E. repeat constructor; lia.
  - constructor; [apply Z.mod_pos_bound; lia|]. apply IH, Z.div_pos; lia.
Qed.

Lemma digits_range n : 0 <= n -> Forall (fun d => 0 <= d < base) (digits n).
Proof using base_ge2. intros. unfold digits. apply Forall_reverse. by apply digits_rev_range. Qed.

Lemma digits_nonempty n : digits n <> [].
Proof.
  unfold digits. intros H%(f_equal reverse). rewrite reverse_involutive in H.
  cbn [digits_rev] in H. by destruct (n <? base).
Qed.
End Digits.

Definition digit_char (d : Z) : Z := if d <? 10 then 48 + d else 55 + d.

Definition char_digit (base c : Z) : option Z :=
  let d := if (48 <=? c) && (c <=? 57) then c - 48
           else if (65 <=? c) && (c <=? 90) then c - 55
           else if (97 <=? c) && (c <=? 122) then c - 87
           else 36 in
  if d <? base then Some d else None.

(** [{}] of an unsigned integer, and [{:X}]. *)
Definition fmt_dec (n : Z) : str := digit_char <$> digits 10 n.
Definition fmt_hex (n : Z) : str := digit_char <$> digits 16 n.
(** [{:0wX}]: upper-case hexadecimal, zero-padded to [w] digits. *)
Definition fmt_hex_pad (w : nat) (n : Z) : str :=
  replicate (w - length (fmt_hex n)) 48 ++ fmt_hex n.

(** [uN::from_str_radix], with [max] the largest value of the type: an
    optional plus sign, then at least one digit, no overflow. *)
Definition parse_uint (base max : Z) (s : str) : option Z :=
  let s := match s with 43 :: s' => s' | _ => s end in
  match s with
  | [] => None
  | _ =>
      match mapM (char_digit base) s with
      | Some ds => if value base ds <=? max then Some (value base ds) else None
      | None => None
      end
  end.

(** [str::parse::<uN>]. *)
Definition parse_u8 : str -> option Z := parse_uint 10 u8_max.
Definition parse_u32 : str -> option Z := parse_uint 10 u32_max.
Definition parse_u64 : str -> option Z := parse_uint 10 u64_max.

Lemma char_digit_char base d :
  2 <= base <= 16 -> 0 <= d < base -> char_digit base (digit_char d) = Some d.
Proof.
  intros Hb Hd. unfold char_digit, digit_char.
  destruct (d <? 10) eqn:E; [apply Z.ltb_lt in E|apply Z.ltb_ge in E].
  - replace ((48 <=? 48 + d) && (48 + d <=? 57)) with true by lia.
    replace (48 + d - 48) with d by lia. replace (d <? base) with true by lia. done.
  - replace ((48 <=? 55 + d) && (55 + d <=? 57)) with false by lia.
    replace ((65 <=? 55 + d) && (55 + d <=? 90)) with true by lia.
    replace (55 + d - 55) with d by lia. replace (d <? base) with true by lia. done.
Qed.

Lemma digit_chars_graphic base n :
  2 <= base <= 16 -> 0 <= n ->
  Forall (fun c => 48 <= c <= 57 \/ 65 <= c <= 70) (digit_char <$> digits base n).
Proof.
  intros Hb Hn. apply Forall_fmap. eapply Forall_impl; [apply digits_range; lia|].
  intros d Hd. cbn in Hd |- *. unfold digit_char.
  destruct (d <? 10) eqn:E; [apply Z.ltb_lt in E|apply Z.ltb_ge in E]; lia.
Qed.

Lemma parse_digits base max ds :
  2 <= base <= 16 -> ds <> [] -> Forall (fun d => 0 <= d < base) ds -> value base ds <= max ->
  parse_uint base max (digit_char <$> ds) = Some (value base ds).
Proof.
  intros Hb Hne Hds Hv. unfold parse_uint.
  assert (mapM (char_digit base) (digit_char <$> ds) = Some ds) as Hm.
  { apply mapM_Some, Forall2_fmap_l, Forall_Forall2_diag.
    eapply Forall_impl; [exact Hds|]. intros d Hd. by apply char_digit_char. }
  destruct Hds as [|d ds Hd _]; [done|]. cbn [fmap list_fmap] in *.
  assert (48 <= digit_char d) as Hc by (unfold digit_char; destruct (Z.ltb_spec d 10); lia).
  assert (match digit_char d :: (digit_char <$> ds) with 43 :: s' => s' | _ => digit_char d :: (digit_char <$> ds) end
          = digit_char d :: (digit_char <$> ds)) as -> by (repeat case_match; try done; lia).
  rewrite Hm. by replace (_ <=? max) with true by lia.
Qed.

Lemma parse_fmt base max n :
  2 <= base <= 16 -> 0 <= n <= max ->
  parse_uint base max (digit_char <$> digits base n) = Some n.
Proof.
  intros Hb Hn. assert (Hv : value base (digits base n) = n) by (apply digits_value; lia).
  rewrite parse_digits; [by rewrite Hv|done|apply digits_nonempty|apply digits_range; lia|lia].
Qed.

Lemma parse_fmt_dec max n : 0 <= n <= max -> parse_uint 10 max (fmt_dec n) = Some n.
Proof. intros. by apply parse_fmt. Qed.

Lemma parse_fmt_hex max n : 0 <= n <= max -> parse_uint 16 max (fmt_hex n) = Some n.
Proof. intros. by apply parse_fmt. Qed.

Lemma parse_uint_range base max s n :
  2 <= base -> 0 <= max -> parse_uint base max s = Some n -> 0 <= n <= max.
Proof.
  intros Hb Hm. unfold parse_uint. intros H. case_match; [done|].
  destruct (mapM (char_digit base) _) as [ds|] eqn:E; [|done].
  destruct (value base ds <=? max) eqn:Hv; [|done]. injection H as <-.
  apply Z.leb_le in Hv. split; [|done].
  apply mapM_Some in E. clear -E Hb.
  assert (Forall (fun d => 0 <= d) ds) as Hd.
  { eapply Forall2_Forall_r; [exact E|]. apply Forall_true. intros c d Hc.
    unfold char_digit in Hc. repeat case_match; simplify_eq; lia. }
  unfold value. clear E. rewrite <- fold_left_rev_right.
  apply Forall_reverse in Hd. rewrite reverse_rev in Hd.
  induction Hd; simpl; nia.
Qed.

(** ** Searching, splitting, joining *)

Fixpoint strip_prefix (p s : str) : option str :=
  match p, s with
  | [], _ => Some s
  | a :: p, b :: s => if a =? b then strip_prefix p s else None
  | _ :: _, [] => None
  end.

Definition starts_with (p s : str) : bool :=
  match strip_prefix p s with Some _ => true | None => false end.

(** [s.find(pat)], as a byte index. *)
Fixpoint find_sub (pat s : str) : option nat :=
  if starts_with pat s then Some O
  else match s with [] => None | _ :: s => S <$> find_sub pat s end.

Definition contains (pat s : str) : bool :=
  match find_sub pat s with Some _ => true | None => false end.

(** [s.find(c)] for an ASCII character. *)
Definition find_char (c : Z) (s : str) : option nat := position (Z.eqb c) s.

(** [s.split(c)] for an ASCII character. *)
Fixpoint split_on (c : Z) (s : str) : list str :=
  match s with
  | [] => [[]]
  | x :: s =>
      if x =? c then [] :: split_on c s
      else match split_on c s with
           | h :: t => (x :: h) :: t
           | [] => [[x]]
           end
  end.

Fixpoint join (sep : str) (ps : list str) : str :=
  match ps with
  | [] => []
  | [p] => p
  | p :: ps => p ++ sep ++ join sep ps
  end.

(** [s.rsplit_once(c)] for an ASCII character. *)
Definition rsplit_once (c : Z) (s : str) : option (str * str) :=
  match position (Z.eqb c) (reverse s) with
  | Some i => Some (take (length s - S i) s, drop (length s - i) s)
  | None => None
  end.

Definition lacks (c : Z) (s : str) : Prop := Forall (fun x => x <> c) s.

Lemma strip_prefix_app p s : strip_prefix p (p ++ s) = Some s.
Proof. induction p; simpl; [done|]. by rewrite Z.eqb_refl. Qed.

Lemma strip_prefix_Some p s r : strip_prefix p s = Some r <-> s = p ++ r.
Proof.
  split; [|intros ->; apply strip_prefix_app].
  revert s. induction p as [|a p IH]; intros s; simpl; [by intros [= ->]|].
  destruct s as [|b s]; [done|]. destruct (a =? b) eqn:E; [|done].
  apply Z.eqb_eq in E as ->. by intros ->%IH.
Qed.

Lemma starts_with_app p s : starts_with p (p ++ s) = true.
Proof. unfold starts_with. by rewrite strip_prefix_app. Qed.

(** A match of [pat] needs its last byte to occur, so a text without that
    byte is skipped. *)
Lemma find_sub_skip pat c s r :
  lacks c s -> c ∈ pat ->
  (forall k, (0 < k <= length s)%nat -> starts_with pat (drop (length s - k) s ++ r) = false) ->
  find_sub pat (s ++ r) = (Nat.add (length s)) <$> find_sub pat r.
Proof.
  intros Hl Hc. induction Hl as [|x s Hx Hl IH]; intros Hk.
  - simpl. by destruct (find_sub pat r).
  - cbn [app]. pose proof (Hk (S (length s))) as H0. cbn [length] in H0.
    rewrite Nat.sub_diag in H0. cbn [drop app] in H0.
    cbn [find_sub]. rewrite H0 by lia. rewrite IH.
    + destruct (find_sub pat r); done.
    + intros k Hlt. specialize (Hk k). cbn [length] in Hk.
      replace (S (length s) - k)%nat with (S (length s - k)) in Hk by lia.
      apply Hk. lia.
Qed.

Lemma position_none_lacks c s : position (Z.eqb c) s = None <-> lacks c s.
Proof. rewrite position_none. apply Forall_iff. intros x. rewrite Z.eqb_neq. naive_solver. Qed.

Lemma find_sub_none_lacks pat c s : lacks c s -> c ∈ pat -> find_sub pat s = None.
Proof.
  intros Hl Hc.
  assert (forall s, lacks c s -> starts_with pat s = false) as Hs.
  { clear s Hl. intros s Hl. unfold starts_with.
    destruct (strip_prefix pat s) as [r|] eqn:E; [|done].
    apply strip_prefix_Some in E as ->. unfold lacks in Hl.
    rewrite Forall_forall in Hl. destruct (Hl c); [|done].
    apply elem_of_app. by left. }
  induction Hl as [|x s Hx Hl IH]; simpl.
  - by rewrite Hs by constructor.
  - rewrite Hs by (by constructor). by rewrite IH.
Qed.

Lemma split_on_lacks c s : lacks c s -> split_on c s = [s].
Proof.
  induction 1 as [|x s Hx _ IH]; simpl; [done|].
  destruct (x =? c) eqn:E; [apply Z.eqb_eq in E; done|]. by rewrite IH.
Qed.

Lemma split_on_nonempty c s : split_on c s <> [].
Proof. destruct s; simpl; [done|]. repeat case_match; done. Qed.

Lemma split_on_cons c p s : lacks c p -> split_on c (p ++ c :: s) = p :: split_on c s.
Proof.
  induction 1 as [|x p Hx _ IH]; simpl; [by rewrite Z.eqb_refl|].
  destruct (x =? c) eqn:E; [apply Z.eqb_eq in E; done|]. by rewrite IH.
Qed.

Lemma split_on_join c ps :
  ps <> [] -> Forall (lacks c) ps -> split_on c (join [c] ps) = ps.
Proof.
  intros Hne Hf. induction Hf as [|p ps Hp Hps IH]; [done|].
  destruct ps as [|q ps]; [by apply split_on_lacks|].
  change (join [c] (p :: q :: ps)) with (p ++ c :: join [c] (q :: ps)).
  rewrite split_on_cons by done. by rewrite IH.
Qed.

Lemma split_on_pieces c s : Forall (lacks c) (split_on c s).
Proof.
  induction s as [|x s IH]; cbn [split_on]; [by repeat constructor|].
  destruct (x =? c) eqn:E; [by constructor; [constructor|]|]. apply Z.eqb_neq in E.
  destruct (split_on c s) as [|h t]; inversion_clear IH; repeat constructor; done.
Qed.

(** ** ASCII case *)

Definition to_lower (c : Z) : Z := if (65 <=? c) && (c <=? 90) then c + 32 else c.
Definition to_ascii_lowercase (s : str) : str := to_lower <$> s.
Definition eq_ignore_ascii_case (a b : str) : bool :=
  bool_decide (to_ascii_lowercase a = to_ascii_lowercase b).

Lemma eq_ignore_case_iff a b :
  eq_ignore_ascii_case a b = true <-> to_ascii_lowercase a = to_ascii_lowercase b.
Proof. apply bool_decide_eq_true. Qed.

Lemma to_lower_idemp c : to_lower (to_lower c) = to_lower c.
Proof. unfold to_lower. repeat case_match; lia. Qed.

Lemma to_ascii_lowercase_idemp s :
  to_ascii_lowercase (to_ascii_lowercase s) = to_ascii_lowercase s.
Proof.
  unfold to_ascii_lowercase. rewrite <- list_fmap_compose.
  apply list_fmap_ext. intros i c _. apply to_lower_idemp.
Qed.

(** ** [str::trim]

    The UTF-8 encodings of the characters with the White_Space property. *)

Definition whitespace : list str :=
  [[9]; [10]; [11]; [12]; [13]; [32]; [194; 133]; [194; 160]; [225; 154; 128];
   [226; 128; 128]; [226; 128; 129]; [226; 128; 130]; [226; 128; 131];
   [226; 128; 132]; [226; 128; 133]; [226; 128; 134]; [226; 128; 135];
   [226; 128; 136]; [226; 128; 137]; [226; 128; 138]; [226; 128; 168];
   [226; 128; 169]; [226; 128; 175]; [226; 129; 159]; [227; 128; 128]].

Fixpoint strip_any (ps : list str) (s : str) : option str :=
  match ps with
  | [] => None
  | p :: ps => match strip_prefix p s with Some r => Some r | None => strip_any ps s end
  end.

Fixpoint strip_all (fuel : nat) (ps : list str) (s : str) : str :=
  match fuel with
  | O => s
  | S fuel => match strip_any ps s with Some r => strip_all fuel ps r | None => s end
  end.

Lemma strip_any_shorter ps s r :
  Forall (fun p => p <> []) ps -> strip_any ps s = Some r -> (length r < length s)%nat.
Proof.
  induction 1 as [|p ps Hp _ IH]; cbn [strip_any]; [done|].
  destruct (strip_prefix p s) as [r'|] eqn:E; [|done]. intros [= ->].
  apply strip_prefix_Some in E as ->. rewrite length_app. destruct p; [done|]. cbn. lia.
Qed.

(** [length s] rounds strip all there is to strip. *)
Lemma strip_all_enough fuel ps s :
  Forall (fun p => p <> []) ps -> (length s <= fuel)%nat ->
  strip_any ps (strip_all fuel ps s) = None.
Proof.
  intros Hps. revert s; induction fuel as [|fuel IH]; intros s Hf; cbn [strip_all].
  - destruct s; [|cbn in Hf; lia]. destruct (strip_any ps []) as [r|] eqn:E; [|done].
    apply strip_any_shorter in E; [cbn in E; lia|done].
  - destruct (strip_any ps s) as [r|] eqn:E; [|done]. apply IH.
    apply strip_any_shorter in E; [lia|done].
Qed.

Definition trim_start (s : str) : str := strip_all (length s) whitespace s.
Definition trim_end (s : str) : str :=
  reverse (strip_all (length s) (reverse <$> whitespace) (reverse s)).
Definition trim (s : str) : str := trim_end (trim_start s).

(** [trim_end_matches('\0')]. *)
Definition trim_end_nul (s : str) : str :=
  reverse (strip_all (length s) [[0]] (reverse s)).

(** Printable ASCII without the space. *)
Definition graphic (c : Z) : Prop := 33 <= c <= 126.

Lemma strip_any_graphic ps c s :
  graphic c -> Forall (fun p => exists a p', p = a :: p' /\ ~ graphic a) ps ->
  strip_any ps (c :: s) = None.
Proof.
  intros Hc. induction 1 as [|p ps (a & p' & -> & Ha) _ IH]; [done|]. simpl.
  destruct (a =? c) eqn:E; [|done]. apply Z.eqb_eq in E as ->. done.
Qed.

Lemma strip_all_graphic fuel ps s :
  Forall graphic s -> Forall (fun p => exists a p', p = a :: p' /\ ~ graphic a) ps ->
  strip_all fuel ps s = s.
Proof.
  intros Hs Hp. destruct fuel as [|fuel]; [done|]. simpl.
  destruct Hs as [|c s Hc _].
  - assert (strip_any ps [] = None) as ->; [|done].
    clear fuel. induction Hp as [|p ps (a & p' & -> & _) _ IH]; [done|exact IH].
  - rewrite strip_any_graphic by done. done.
Qed.

Lemma whitespace_heads ps :
  ps = whitespace \/ ps = reverse <$> whitespace ->
  Forall (fun p => exists a p', p = a :: p' /\ ~ graphic a) ps.
Proof.
  intros [-> | ->]; vm_compute;
    repeat (constructor; [do 2 eexists; split; [reflexivity|by intros []]|]); constructor.
Qed.

Lemma trim_graphic s : Forall graphic s -> trim s = s.
Proof.
  intros Hs. unfold trim, trim_start, trim_end.
  rewrite (strip_all_graphic _ whitespace) by auto using whitespace_heads.
  rewrite strip_all_graphic by (by auto using whitespace_heads || by apply Forall_reverse).
  apply reverse_involutive.
Qed.

(** Trimming never removes a graphic character. *)
Lemma strip_all_keeps fuel ps c s :
  Forall (Forall (fun b => ~ graphic b)) ps -> graphic c -> c ∈ s -> c ∈ strip_all fuel ps s.
Proof.
  intros Hps Hc. revert s. induction fuel as [|fuel IH]; intros s Hs; cbn; [done|].
  destruct (strip_any ps s) as [r|] eqn:E; [|done]. apply IH. clear IH.
  induction Hps as [|p ps Hp _ IHp]; cbn in E; [done|].
  destruct (strip_prefix p s) as [r'|] eqn:Ep; [|auto]. injection E as ->.
  apply strip_prefix_Some in Ep as ->. apply elem_of_app in Hs as [Hs|Hs]; [|done].
  rewrite Forall_forall in Hp. by destruct (Hp _ Hs).
Qed.

Lemma trim_keeps c s : graphic c -> c ∈ s -> c ∈ trim s.
Proof.
  intros Hc Hs.
  assert (Forall (Forall (fun b => ~ graphic b)) whitespace /\
          Forall (Forall (fun b => ~ graphic b)) (reverse <$> whitespace)) as [H1 H2].
  { unfold graphic. split; vm_compute; repeat (apply Forall_cons; split);
      try apply Forall_nil_2; intros [H H']; by (apply H || apply H'). }
  unfold trim, trim_end, trim_start. apply elem_of_reverse, strip_all_keeps; [done..|].
  apply elem_of_reverse. by apply strip_all_keeps.
Qed.
