(* ===== verification/Unicode.v ===== *)
(** * Unicode: UTF-8 validation and UTF-16 decoding

    [String::from_utf8], [from_utf8_lossy], [from_utf16], [from_utf16_lossy]
    and [str::encode_utf16], as the standard library defines them.  A
    character is its scalar value, a UTF-16 code unit a 16-bit [Z], and a
    [str] the list of its UTF-8 bytes. *)

From Stdlib Require Import ZArith Lia String Ascii.
From stdpp Require Import base list strings gmap numbers sorting.
From S2P Require Import Prelude Text.

Open Scope Z_scope.

Definition is_scalar (c : Z) : Prop := 0 <= c < 0xD800 \/ 0xE000 <= c < 0x110000.

(** ** UTF-8 *)

Definition utf8_char (c : Z) : str :=
  if c <? 0x80 then [c]
  else if c <? 0x800 then [0xC0 + c / 64; 0x80 + c mod 64]
  else if c <? 0x10000 then [0xE0 + c / 4096; 0x80 + c / 64 mod 64; 0x80 + c mod 64]
  else [0xF0 + c / 262144; 0x80 + c / 4096 mod 64; 0x80 + c / 64 mod 64; 0x80 + c mod 64].

Definition utf8_encode (cs : list Z) : str := mjoin (utf8_char <$> cs).

Definition cont (b : Z) : bool := (0x80 <=? b) && (b <=? 0xBF).
Definition within (lo hi b : Z) : bool := (lo <=? b) && (b <=? hi).

(** One step of [Utf8Chunks]: whether the text starts with a valid
    sequence, and the length of that sequence or of the maximal invalid
    prefix.  A byte past the end reads as [0]. *)
Definition utf8_step (b : Z) (rest : str) : bool * nat :=
  let b1 := nth 0 rest 0 in
  let b2 := nth 1 rest 0 in
  let b3 := nth 2 rest 0 in
  if b <? 0x80 then (true, 1%nat)
  else if within 0xC2 0xDF b then
    if cont b1 then (true, 2%nat) else (false, 1%nat)
  else if within 0xE0 0xEF b then
    if (if b =? 0xE0 then within 0xA0 0xBF b1
        else if b =? 0xED then within 0x80 0x9F b1 else cont b1)
    then if cont b2 then (true, 3%nat) else (false, 2%nat)
    else (false, 1%nat)
  else if within 0xF0 0xF4 b then
    if (if b =? 0xF0 then within 0x90 0xBF b1
        else if b =? 0xF4 then within 0x80 0x8F b1 else cont b1)
    then if cont b2
         then if cont b3 then (true, 4%nat) else (false, 3%nat)
         else (false, 2%nat)
    else (false, 1%nat)
  else (false, 1%nat).

(** The text cut into valid sequences and invalid pieces. *)
Fixpoint utf8_chunks (fuel : nat) (bs : str) : list (bool * str) :=
  match fuel, bs with
  | S fuel, b :: rest =>
      let '(ok, n) := utf8_step b rest in
      (ok, take n bs) :: utf8_chunks fuel (drop n bs)
  | _, _ => []
  end.

Definition chunks (bs : str) : list (bool * str) := utf8_chunks (length bs) bs.

Definition utf8_valid (bs : str) : bool := forallb fst (chunks bs).

(** [String::from_utf8(bs).ok()]. *)
Definition from_utf8 (bs : str) : option str := if utf8_valid bs then Some bs else None.

(** [String::from_utf8_lossy]: each invalid piece becomes U+FFFD. *)
Definition from_utf8_lossy (bs : str) : str :=
  mjoin ((fun c : bool * str => if fst c then snd c else [0xEF; 0xBF; 0xBD]) <$> chunks bs).

(** The scalar value of a valid sequence. *)
Definition char_value (p : str) : Z :=
  match p with
  | [a] => a
  | [a; b] => (a - 0xC0) * 64 + (b - 0x80)
  | [a; b; c] => (a - 0xE0) * 4096 + (b - 0x80) * 64 + (c - 0x80)
  | [a; b; c; d] => (a - 0xF0) * 262144 + (b - 0x80) * 4096 + (c - 0x80) * 64 + (d - 0x80)
  | _ => 0xFFFD
  end.

(** [s.chars()]. *)
Definition chars (s : str) : list Z := (fun c => char_value (snd c)) <$> chunks s.

Lemma utf8_step_pos b rest : (1 <= snd (utf8_step b rest))%nat.
Proof. unfold utf8_step. repeat case_match; simpl; lia. Qed.

Lemma utf8_chunks_ascii fuel bs :
  (length bs <= fuel)%nat -> Forall (fun b => b < 0x80) bs ->
  utf8_chunks fuel bs = (fun b => (true, [b])) <$> bs.
Proof.
  intros Hf Hb. revert fuel Hf.
  induction Hb as [|b bs Hb _ IH]; intros fuel Hf; [by destruct fuel|].
  destruct fuel as [|fuel]; [simpl in Hf; lia|]. cbn [utf8_chunks utf8_step].
  apply Z.ltb_lt in Hb. unfold utf8_step. rewrite Hb. cbn [take drop fmap list_fmap].
  f_equal. rewrite drop_0. apply IH. simpl in Hf. lia.
Qed.

(** ASCII text is valid UTF-8. *)
Lemma utf8_valid_ascii bs : Forall (fun b => b < 0x80) bs -> utf8_valid bs = true.
Proof.
  intros Hb. unfold utf8_valid, chunks. rewrite utf8_chunks_ascii by done.
  clear Hb. induction bs; done.
Qed.

Lemma from_utf8_ascii bs : Forall (fun b => b < 0x80) bs -> from_utf8 bs = Some bs.
Proof. intros. unfold from_utf8. by rewrite utf8_valid_ascii. Qed.

Lemma utf8_chunks_join fuel bs :
  (length bs <= fuel)%nat -> mjoin (snd <$> utf8_chunks fuel bs) = bs.
Proof.
  revert bs; induction fuel as [|fuel IH]; intros [|b rest] Hf; try done;
    [simpl in Hf; lia|].
  cbn [utf8_chunks]. pose proof (utf8_step_pos b rest) as Hp.
  destruct (utf8_step b rest) as [ok n]. cbn [snd] in Hp.
  cbn [fmap list_fmap snd mjoin list_join].
  change (take n (b :: rest) ++ mjoin (snd <$> utf8_chunks fuel (drop n (b :: rest))) = b :: rest).
  rewrite IH; [apply take_drop|]. rewrite length_drop. simpl in *. lia.
Qed.

(** On valid text the lossy conversion is the identity. *)
Lemma from_utf8_lossy_valid bs : utf8_valid bs = true -> from_utf8_lossy bs = bs.
Proof.
  unfold utf8_valid, from_utf8_lossy, chunks. intros Hv.
  transitivity (mjoin (snd <$> utf8_chunks (length bs) bs)); [|by apply utf8_chunks_join].
  f_equal. apply list_fmap_ext. intros i [ok p] Hi.
  rewrite forallb_forall in Hv. specialize (Hv (ok, p)). simpl in Hv.
  rewrite Hv; [done|]. eapply list_elem_of_In, list_elem_of_lookup_2, Hi.
Qed.

Lemma utf8_char_step c rest :
  is_scalar c ->
  exists b tl, utf8_char c = b :: tl /\
    utf8_step b (tl ++ rest) = (true, length (utf8_char c)).
Proof.
  intros Hc. unfold utf8_char, is_scalar in *.
  assert (forall a, 0 <= a mod 64 < 64) as Hm by (intros; apply Z.mod_pos_bound; lia).
  pose proof (Hm c). pose proof (Hm (c / 64)). pose proof (Hm (c / 4096)).
  pose proof (Z.div_mod c 64). pose proof (Z.div_mod (c / 64) 64).
  pose proof (Z.div_mod (c / 4096) 64).
  assert (c / 64 / 64 = c / 4096) as E1 by (rewrite Z.div_div; f_equal; lia).
  assert (c / 4096 / 64 = c / 262144) as E2 by (rewrite Z.div_div; f_equal; lia).
  destruct (c <? 0x80) eqn:E; [|destruct (c <? 0x800) eqn:F; [|destruct (c <? 0x10000) eqn:G]];
    rewrite ?Z.ltb_lt, ?Z.ltb_ge in *;
    (do 2 eexists; split; [reflexivity|]); unfold utf8_step; cbn [nth app].
  - by replace (c <? 128) with true by lia.
  - unfold within, cont.
    replace (0xC0 + c / 64 <? 0x80) with false by lia.
    replace ((0xC2 <=? 0xC0 + c / 64) && (0xC0 + c / 64 <=? 0xDF)) with true by lia.
    by replace ((0x80 <=? 0x80 + c mod 64) && (0x80 + c mod 64 <=? 0xBF)) with true by lia.
  - unfold within, cont.
    replace (0xE0 + c / 4096 <? 0x80) with false by lia.
    replace ((0xC2 <=? 0xE0 + c / 4096) && (0xE0 + c / 4096 <=? 0xDF)) with false by lia.
    replace ((0xE0 <=? 0xE0 + c / 4096) && (0xE0 + c / 4096 <=? 0xEF)) with true by lia.
    replace ((0x80 <=? 0x80 + c mod 64) && (0x80 + c mod 64 <=? 0xBF)) with true by lia.
    destruct (0xE0 + c / 4096 =? 0xE0) eqn:A;
      [apply Z.eqb_eq in A|apply Z.eqb_neq in A;
       destruct (0xE0 + c / 4096 =? 0xED) eqn:B; [apply Z.eqb_eq in B|]].
    + by replace ((0xA0 <=? 0x80 + c / 64 mod 64) && (0x80 + c / 64 mod 64 <=? 0xBF)) with true by lia.
    + by replace ((0x80 <=? 0x80 + c / 64 mod 64) && (0x80 + c / 64 mod 64 <=? 0x9F)) with true by lia.
    + by replace ((0x80 <=? 0x80 + c / 64 mod 64) && (0x80 + c / 64 mod 64 <=? 0xBF)) with true by lia.
  - unfold within, cont.
    replace (0xF0 + c / 262144 <? 0x80) with false by lia.
    replace ((0xC2 <=? 0xF0 + c / 262144) && (0xF0 + c / 262144 <=? 0xDF)) with false by lia.
    replace ((0xE0 <=? 0xF0 + c / 262144) && (0xF0 + c / 262144 <=? 0xEF)) with false by lia.
    replace ((0xF0 <=? 0xF0 + c / 262144) && (0xF0 + c / 262144 <=? 0xF4)) with true by lia.
    replace ((0x80 <=? 0x80 + c / 64 mod 64) && (0x80 + c / 64 mod 64 <=? 0xBF)) with true by lia.
    replace ((0x80 <=? 0x80 + c mod 64) && (0x80 + c mod 64 <=? 0xBF)) with true by lia.
    destruct (0xF0 + c / 262144 =? 0xF0) eqn:A;
      [apply Z.eqb_eq in A|apply Z.eqb_neq in A;
       destruct (0xF0 + c / 262144 =? 0xF4) eqn:B; [apply Z.eqb_eq in B|]].
    + by replace ((0x90 <=? 0x80 + c / 4096 mod 64) && (0x80 + c / 4096 mod 64 <=? 0xBF)) with true by lia.
    + by replace ((0x80 <=? 0x80 + c / 4096 mod 64) && (0x80 + c / 4096 mod 64 <=? 0x8F)) with true by lia.
    + by replace ((0x80 <=? 0x80 + c / 4096 mod 64) && (0x80 + c / 4096 mod 64 <=? 0xBF)) with true by lia.
Qed.

Lemma char_value_utf8 c : is_scalar c -> char_value (utf8_char c) = c.
Proof.
  intros Hc. unfold utf8_char, is_scalar in *.
  pose proof (Z.div_mod c 64). pose proof (Z.div_mod (c / 64) 64).
  pose proof (Z.div_mod (c / 4096) 64).
  assert (c / 64 / 64 = c / 4096) as E1 by (rewrite Z.div_div; f_equal; lia).
  assert (c / 4096 / 64 = c / 262144) as E2 by (rewrite Z.div_div; f_equal; lia).
  repeat case_match; cbn [char_value]; lia.
Qed.

Lemma utf8_chunks_encode fuel cs :
  (length (utf8_encode cs) <= fuel)%nat -> Forall is_scalar cs ->
  utf8_chunks fuel (utf8_encode cs) = (fun c => (true, utf8_char c)) <$> cs.
Proof.
  intros Hf Hcs. revert fuel Hf.
  induction Hcs as [|c cs Hc _ IH]; intros fuel Hf; [by destruct fuel|].
  destruct (utf8_char_step c (utf8_encode cs) Hc) as (b & tl & E & Hs).
  change (utf8_encode (c :: cs)) with (utf8_char c ++ utf8_encode cs) in *.
  rewrite length_app in Hf. rewrite E in *. cbn [length app] in *.
  destruct fuel as [|fuel]; [lia|]. cbn [utf8_chunks]. rewrite Hs. cbn [fmap list_fmap].
  rewrite E. change (b :: tl ++ utf8_encode cs) with ((b :: tl) ++ utf8_encode cs).
  change (S (length tl)) with (length (b :: tl)).
  rewrite take_app_length, drop_app_length. f_equal. apply IH. lia.
Qed.

(** Every scalar sequence survives UTF-8 encoding and decoding. *)
Lemma chars_utf8_encode cs :
  Forall is_scalar cs -> utf8_valid (utf8_encode cs) = true /\ chars (utf8_encode cs) = cs.
Proof.
  intros H. unfold utf8_valid, chars, chunks. rewrite utf8_chunks_encode by done.
  split.
  - clear H. induction cs; done.
  - rewrite <- list_fmap_compose. rewrite <- (list_fmap_id cs) at 2.
    apply list_fmap_ext. intros i c Hi. simpl. apply char_value_utf8.
    rewrite Forall_lookup in H. by eapply H.
Qed.

(** ** UTF-16 *)

Definition utf16_char (c : Z) : list Z :=
  if c <? 0x10000 then [c]
  else [0xD800 + (c - 0x10000) / 1024; 0xDC00 + (c - 0x10000) mod 1024].

(** [s.encode_utf16()]. *)
Definition encode_utf16 (s : str) : list Z := mjoin (utf16_char <$> chars s).

(** [char::decode_utf16]: [None] is an unpaired surrogate. *)
Fixpoint decode_utf16 (us : list Z) : list (option Z) :=
  match us with
  | [] => []
  | u :: rest =>
      if negb (within 0xD800 0xDFFF u) then Some u :: decode_utf16 rest
      else if 0xDC00 <=? u then None :: decode_utf16 rest
      else match rest with
           | [] => [None]
           | u2 :: rest' =>
               if within 0xDC00 0xDFFF u2
               then Some (0x10000 + (u - 0xD800) * 1024 + (u2 - 0xDC00)) :: decode_utf16 rest'
               else None :: decode_utf16 rest
           end
  end.

(** [String::from_utf16(us).ok()] and [String::from_utf16_lossy]. *)
Definition from_utf16 (us : list Z) : option str := utf8_encode <$> mapM id (decode_utf16 us).
Definition from_utf16_lossy (us : list Z) : str :=
  utf8_encode (default 0xFFFD <$> decode_utf16 us).

Lemma decode_utf16_char c rest :
  is_scalar c -> decode_utf16 (utf16_char c ++ rest) = Some c :: decode_utf16 rest.
Proof.
  intros Hc. unfold utf16_char, is_scalar in *.
  destruct (c <? 0x10000) eqn:E; [apply Z.ltb_lt in E|apply Z.ltb_ge in E].
  - cbn [app decode_utf16]. unfold within.
    by replace (negb ((0xD800 <=? c) && (c <=? 0xDFFF))) with true by lia.
  - set (d := c - 0x10000) in *. assert (0 <= d < 0x100000) as Hd by lia.
    pose proof (Z.div_mod d 1024). pose proof (Z.mod_pos_bound d 1024).
    cbn [app decode_utf16]. unfold within.
    replace (negb ((0xD800 <=? 0xD800 + d / 1024) && (0xD800 + d / 1024 <=? 0xDFFF)))
      with false by lia.
    replace (0xDC00 <=? 0xD800 + d / 1024) with false by lia.
    replace ((0xDC00 <=? 0xDC00 + d mod 1024) && (0xDC00 + d mod 1024 <=? 0xDFFF))
      with true by lia.
    do 2 f_equal. lia.
Qed.

Lemma decode_utf16_encode cs :
  Forall is_scalar cs -> decode_utf16 (mjoin (utf16_char <$> cs)) = Some <$> cs.
Proof.
  induction 1 as [|c cs Hc _ IH]; [done|].
  change (mjoin (utf16_char <$> c :: cs)) with (utf16_char c ++ mjoin (utf16_char <$> cs)).
  rewrite decode_utf16_char by done. rewrite IH. done.
Qed.

Lemma mapM_id_Some {A} (l : list A) : mapM id (Some <$> l) = Some l.
Proof. apply mapM_Some, Forall2_fmap_l, Forall_Forall2_diag. by apply Forall_true. Qed.

(** Text survives the trip through UTF-16, strictly and lossily. *)
Lemma from_utf16_encode cs :
  Forall is_scalar cs ->
  from_utf16 (encode_utf16 (utf8_encode cs)) = Some (utf8_encode cs) /\
  from_utf16_lossy (encode_utf16 (utf8_encode cs)) = utf8_encode cs.
Proof.
  intros H. unfold from_utf16, from_utf16_lossy, encode_utf16.
  rewrite (proj2 (chars_utf8_encode cs H)), decode_utf16_encode by done.
  rewrite mapM_id_Some. split; [done|]. by rewrite <- list_fmap_compose, list_fmap_id.
Qed.

(** A scalar other than NUL has no zero code unit. *)
Lemma utf16_char_nonzero c : is_scalar c -> c <> 0 -> Forall (fun u => u <> 0) (utf16_char c).
Proof.
  intros Hc H0. unfold utf16_char, is_scalar in *.
  destruct (c <? 0x10000) eqn:E; [repeat constructor; lia|apply Z.ltb_ge in E].
  pose proof (Z.mod_pos_bound (c - 0x10000) 1024).
  pose proof (Z.div_pos (c - 0x10000) 1024). repeat constructor; lia.
Qed.

Lemma encode_utf16_range cs :
  Forall is_scalar cs -> Forall (fun u => 0 <= u < 0x10000) (encode_utf16 (utf8_encode cs)).
Proof.
  intros H. unfold encode_utf16. rewrite (proj2 (chars_utf8_encode cs H)).
  induction H as [|c cs Hc _ IH]; [constructor|].
  change (mjoin (utf16_char <$> c :: cs)) with (utf16_char c ++ mjoin (utf16_char <$> cs)).
  apply Forall_app. split; [|done]. unfold utf16_char, is_scalar in *.
  destruct (c <? 0x10000) eqn:E; [apply Z.ltb_lt in E|apply Z.ltb_ge in E].
  - repeat constructor; lia.
  - pose proof (Z.mod_pos_bound (c - 0x10000) 1024).
    pose proof (Z.div_pos (c - 0x10000) 1024).
    assert ((c - 0x10000) / 1024 < 1024) by (apply Z.div_lt_upper_bound; lia).
    repeat constructor; lia.
Qed.

Lemma encode_utf16_nonzero cs :
  Forall (fun c => is_scalar c /\ c <> 0) cs ->
  Forall (fun u => u <> 0) (encode_utf16 (utf8_encode cs)).
Proof.
  intros H. assert (Forall is_scalar cs) as Hs by (eapply Forall_impl; [exact H|naive_solver]).
  unfold encode_utf16. rewrite (proj2 (chars_utf8_encode cs Hs)).
  induction H as [|c cs [Hc H0] _ IH]; [constructor|].
  change (mjoin (utf16_char <$> c :: cs)) with (utf16_char c ++ mjoin (utf16_char <$> cs)).
  apply Forall_app. split; [by apply utf16_char_nonzero|]. apply IH. by inversion Hs.
Qed.

(** ** Text: the strings of Rust *)

Definition is_unit (u : Z) : Prop := 0 <= u < 0x10000.

Definition is_text (s : str) : Prop := exists cs, s = utf8_encode cs /\ Forall is_scalar cs.
Definition nul_free (s : str) : Prop :=
  exists cs, s = utf8_encode cs /\ Forall (fun c => is_scalar c /\ c <> 0) cs.

Lemma nul_free_text s : nul_free s -> is_text s.
Proof. intros (cs & -> & H). exists cs. split; [done|]. eapply Forall_impl; [exact H|naive_solver]. Qed.

Lemma text_units s : is_text s -> Forall is_unit (encode_utf16 s) /\ from_utf16_lossy (encode_utf16 s) = s.
Proof.
  intros (cs & -> & H). split; [by apply encode_utf16_range|]. by apply from_utf16_encode.
Qed.

Lemma nul_free_units s : nul_free s -> Forall (fun u => u <> 0) (encode_utf16 s).
Proof. intros (cs & -> & H). by apply encode_utf16_nonzero. Qed.

Lemma encode_utf16_empty s : nul_free s -> encode_utf16 s = [] -> s = [].
Proof. intros H E. rewrite <- (proj2 (text_units s (nul_free_text s H))), E. done. Qed.

(** The ASCII bytes at the front of a text are characters of it. *)
Lemma utf8_encode_ascii_prefix p x cs :
  Forall (fun b => 0 <= b < 0x80) p -> Forall is_scalar cs -> utf8_encode cs = p ++ x ->
  exists cs', cs = p ++ cs' /\ x = utf8_encode cs'.
Proof.
  intros Hp. revert cs. induction Hp as [|b p Hb _ IH]; intros cs Hcs E; [by exists cs|].
  destruct cs as [|c cs]; [discriminate E|]. inversion_clear Hcs as [|? ? Hc Hcs'].
  change (utf8_encode (c :: cs)) with (utf8_char c ++ utf8_encode cs) in E.
  assert (utf8_char c = [b] /\ c = b) as [Hc1 ->].
  { unfold utf8_char, is_scalar in *.
    destruct (c <? 0x80) eqn:E1.
    - injection E as -> _. done.
    - exfalso. destruct (c <? 0x800); [|destruct (c <? 0x10000)]; injection E as E _ || (injection E as E _ _ _);
        Z.to_euclidean_division_equations; lia. }
  rewrite Hc1 in E. injection E as E. destruct (IH cs Hcs' E) as (cs' & -> & ->). by exists cs'.
Qed.

Lemma encode_utf16_ascii_app p x :
  Forall (fun b => 0 <= b < 0x80) p -> is_text (p ++ x) ->
  is_text x /\ encode_utf16 (p ++ x) = p ++ encode_utf16 x.
Proof.
  intros Hp (cs & E & Hcs). symmetry in E.
  destruct (utf8_encode_ascii_prefix p x cs Hp Hcs E) as (cs' & -> & ->).
  apply Forall_app in Hcs as [_ Hcs']. split; [by exists cs'|].
  rewrite <- E. unfold encode_utf16. rewrite (proj2 (chars_utf8_encode cs' Hcs')).
  rewrite (proj2 (chars_utf8_encode (p ++ cs') ltac:(apply Forall_app_2; [|done];
    eapply Forall_impl; [exact Hp|intros b Hb; unfold is_scalar; cbn in Hb; lia]))).
  rewrite fmap_app, join_app. f_equal. clear -Hp. induction Hp as [|b p Hb _ IH]; [done|].
  change (mjoin (utf16_char <$> b :: p)) with (utf16_char b ++ mjoin (utf16_char <$> p)). rewrite IH.
  unfold utf16_char. by replace (b <? 0x10000) with true by lia.
Qed.

Lemma ascii_is_text s : Forall (fun b => 0 <= b < 0x80) s -> is_text s.
Proof.
  intros Hs. exists s. split.
  - induction Hs as [|b s Hb _ IH]; [done|].
    change (utf8_encode (b :: s)) with (utf8_char b ++ utf8_encode s). rewrite <- IH.
    unfold utf8_char. by replace (b <? 0x80) with true by lia.
  - eapply Forall_impl; [exact Hs|]. intros b Hb. left. cbn in Hb. lia.
Qed.

Lemma nul_free_lacks s : nul_free s -> lacks 0 s.
Proof.
  intros (cs & -> & H). unfold lacks. induction H as [|c cs [Hc H0] _ IH]; [constructor|].
  change (utf8_encode (c :: cs)) with (utf8_char c ++ utf8_encode cs). apply Forall_app_2; [|exact IH].
  unfold utf8_char, is_scalar in *. repeat case_match; repeat constructor; Z.to_euclidean_division_equations; lia.
Qed.

(** A text is NUL-free, or a NUL-free text, a NUL and a text. *)
Lemma text_at_nul s : is_text s ->
  nul_free s \/
  exists a b, s = a ++ 0 :: b /\ nul_free a /\ is_text b /\
              encode_utf16 s = encode_utf16 a ++ 0 :: encode_utf16 b.
Proof.
  intros (cs & -> & Hcs). destruct (decide (0 ∈ cs)) as [Hin|Hin].
  - right. apply list_elem_of_split_l in Hin as (l1 & l2 & -> & Hl1).
    apply Forall_app in Hcs as [H1 H2]. inversion_clear H2 as [|? ? Hz H2'].
    assert (forall l, Forall is_scalar l -> encode_utf16 (utf8_encode l) = mjoin (utf16_char <$> l)) as He.
    { intros l Hl. unfold encode_utf16. by rewrite (proj2 (chars_utf8_encode l Hl)). }
    exists (utf8_encode l1), (utf8_encode l2). split_and!.
    + unfold utf8_encode. by rewrite fmap_app, join_app.
    + exists l1. split; [done|]. apply Forall_forall. intros c Hc. split; [by eapply Forall_forall in H1|].
      by intros ->.
    + by exists l2.
    + rewrite !He; [|done..|by apply Forall_app_2; [|constructor]]. by rewrite fmap_app, join_app.
  - left. exists cs. split; [done|]. apply Forall_forall. intros c Hc. split; [by eapply Forall_forall in Hcs|].
    by intros ->.
Qed.

(** The NUL-free pieces of a text. *)
Lemma text_split_nul (P : str -> list str -> Prop) :
  (forall a, nul_free a -> P a [a]) ->
  (forall a b, nul_free a -> is_text b -> encode_utf16 (a ++ 0 :: b) = encode_utf16 a ++ 0 :: encode_utf16 b ->
     P b (split_on 0 b) -> P (a ++ 0 :: b) (a :: split_on 0 b)) ->
  forall s, is_text s -> P s (split_on 0 s).
Proof.
  intros H1 H2 s. induction s as [s IH] using (induction_ltof1 _ (@length Z)). intros Hs.
  destruct (text_at_nul s Hs) as [Hf|(a & b & -> & Ha & Hb & He)].
  - rewrite split_on_lacks by (by apply nul_free_lacks). by apply H1.
  - rewrite split_on_cons by (by apply nul_free_lacks). apply H2; [done..|]. apply IH; [|done].
    unfold ltof. rewrite length_app. cbn. lia.
Qed.

Lemma split_nul_free s : is_text s -> Forall nul_free (split_on 0 s).
Proof. revert s. apply (text_split_nul (fun _ ps => Forall nul_free ps)); by constructor. Qed.

(** A literal of ASCII characters is NUL-free text. *)
Ltac ascii_text cs :=
  let l := eval vm_compute in cs in exists l; split; [reflexivity|];
  repeat (apply Forall_cons_2; [split; [left; lia|lia]|]); apply Forall_nil_2.

(** A terminated wide string is read back up to its terminator. *)
Lemma wide_reads s rest : nul_free s ->
  position (Z.eqb 0) (encode_utf16 s ++ 0 :: rest) = Some (length (encode_utf16 s)) /\
  from_utf16_lossy (take (length (encode_utf16 s)) (encode_utf16 s ++ 0 :: rest)) = s.
Proof.
  intros H. split.
  - apply position_app_hit; [|done]. eapply Forall_impl; [by apply nul_free_units|]. intros u Hu. apply Z.eqb_neq. by apply not_eq_sym.
  - rewrite take_app_length. by destruct (text_units s (nul_free_text s H)).
Qed.

(** ** Bytes of UTF-16 text *)

Definition bytes_of_units (us : list Z) : list Z := mjoin (le_encode 2 <$> us).

Fixpoint units_of_bytes (bs : list Z) : list Z :=
  match bs with
  | lo :: hi :: bs => lo + 256 * hi :: units_of_bytes bs
  | [lo] => [lo]
  | [] => []
  end.

Lemma units_of_bytes_of_units us : Forall is_unit us -> units_of_bytes (bytes_of_units us) = us.
Proof.
  induction 1 as [|u us Hu _ IH]; [done|].
  change (bytes_of_units (u :: us)) with (u mod 256 :: u / 256 mod 256 :: bytes_of_units us).
  cbn [units_of_bytes]. rewrite IH. f_equal. unfold is_unit in Hu.
  rewrite (Z.mod_small (u / 256)) by (Z.to_euclidean_division_equations; lia).
  pose proof (Z.div_mod u 256). lia.
Qed.

Lemma length_bytes_of_units us : length (bytes_of_units us) = (2 * length us)%nat.
Proof.
  induction us as [|u us IH]; [done|].
  change (bytes_of_units (u :: us)) with (u mod 256 :: u / 256 mod 256 :: bytes_of_units us).
  cbn [length]. lia.
Qed.

Lemma half_bytes us : (length (bytes_of_units us) / 2)%nat = length us.
Proof. rewrite length_bytes_of_units, Nat.mul_comm. by apply Nat.div_mul. Qed.
