(* ===== verification/Errors.v ===== *)
(** * Errors: the structured error types of src/error.rs

    Every enum and struct of [src/error.rs], with the source's variants and
    fields; a variant [Error::Etw] is the constructor [Error_Etw], a field
    [reason] of [SidParseError] is [SidParseError_reason].  The [new],
    [with_code] and [with_reason] constructors of the source fill the fields
    in order, so the record constructors stand for them.  A
    [windows::core::Error] is known here by its [HRESULT] only. *)

From Stdlib Require Import ZArith Lia String Ascii.
From stdpp Require Import base list strings gmap numbers sorting.
From S2P Require Import Prelude Text.

Open Scope Z_scope.

(** [windows::core::Error], by its [code().0]: a signed 32-bit [HRESULT]. *)
Record win_error := mk_win_error { win_error_code : Z }.

#[export] Instance win_error_eq_dec : EqDecision win_error.
Proof. solve_decision. Defined.

Record WindowsApiError := mkWindowsApiError {
  WindowsApiError_inner : win_error;
  WindowsApiError_context : option str }.
#[export] Instance WindowsApiError_eq_dec : EqDecision WindowsApiError.
Proof. solve_decision. Defined.

Record AccessDeniedError := mkAccessDeniedError {
  AccessDeniedError_resource : str;
  AccessDeniedError_operation : str;
  AccessDeniedError_reason : option str }.
#[export] Instance AccessDeniedError_eq_dec : EqDecision AccessDeniedError.
Proof. solve_decision. Defined.

Record NotFoundError := mkNotFoundError {
  NotFoundError_resource_type : str;
  NotFoundError_identifier : str }.
#[export] Instance NotFoundError_eq_dec : EqDecision NotFoundError.
Proof. solve_decision. Defined.

Record InvalidParameterError := mkInvalidParameterError {
  InvalidParameterError_parameter : str;
  InvalidParameterError_reason : str }.
#[export] Instance InvalidParameterError_eq_dec : EqDecision InvalidParameterError.
Proof. solve_decision. Defined.

Record RegistryKeyNotFoundError := mkRegistryKeyNotFoundError {
  RegistryKeyNotFoundError_key_path : str;
  RegistryKeyNotFoundError_error_code : option Z }.
#[export] Instance RegistryKeyNotFoundError_eq_dec : EqDecision RegistryKeyNotFoundError.
Proof. solve_decision. Defined.

Record RegistryValueNotFoundError := mkRegistryValueNotFoundError {
  RegistryValueNotFoundError_value_name : str;
  RegistryValueNotFoundError_key_path : option str }.
#[export] Instance RegistryValueNotFoundError_eq_dec : EqDecision RegistryValueNotFoundError.
Proof. solve_decision. Defined.

Record RegistryInvalidTypeError := mkRegistryInvalidTypeError {
  RegistryInvalidTypeError_expected : str;
  RegistryInvalidTypeError_found : str;
  RegistryInvalidTypeError_value_name : option str }.
#[export] Instance RegistryInvalidTypeError_eq_dec : EqDecision RegistryInvalidTypeError.
Proof. solve_decision. Defined.

Record RegistryConversionError := mkRegistryConversionError {
  RegistryConversionError_conversion : str;
  RegistryConversionError_reason : str }.
#[export] Instance RegistryConversionError_eq_dec : EqDecision RegistryConversionError.
Proof. solve_decision. Defined.

Inductive RegistryError :=
  | RegistryError_KeyNotFound (e : RegistryKeyNotFoundError)
  | RegistryError_ValueNotFound (e : RegistryValueNotFoundError)
  | RegistryError_InvalidType (e : RegistryInvalidTypeError)
  | RegistryError_ConversionError (e : RegistryConversionError).
#[export] Instance RegistryError_eq_dec : EqDecision RegistryError.
Proof. solve_decision. Defined.

Record ProcessNotFoundError := mkProcessNotFoundError {
  ProcessNotFoundError_pid : Z }.
#[export] Instance ProcessNotFoundError_eq_dec : EqDecision ProcessNotFoundError.
Proof. solve_decision. Defined.

Record ProcessTerminatedError := mkProcessTerminatedError {
  ProcessTerminatedError_pid : Z;
  ProcessTerminatedError_exit_code : option Z }.
#[export] Instance ProcessTerminatedError_eq_dec : EqDecision ProcessTerminatedError.
Proof. solve_decision. Defined.

Record ProcessOpenError := mkProcessOpenError {
  ProcessOpenError_pid : Z;
  ProcessOpenError_reason : str;
  ProcessOpenError_error_code : option Z }.
#[export] Instance ProcessOpenError_eq_dec : EqDecision ProcessOpenError.
Proof. solve_decision. Defined.

Record ProcessSpawnError := mkProcessSpawnError {
  ProcessSpawnError_command : str;
  ProcessSpawnError_reason : str;
  ProcessSpawnError_error_code : option Z }.
#[export] Instance ProcessSpawnError_eq_dec : EqDecision ProcessSpawnError.
Proof. solve_decision. Defined.

Record InjectionFailedError := mkInjectionFailedError {
  InjectionFailedError_pid : Z;
  InjectionFailedError_reason : str;
  InjectionFailedError_error_code : option Z }.
#[export] Instance InjectionFailedError_eq_dec : EqDecision InjectionFailedError.
Proof. solve_decision. Defined.

Record AlreadyInjectedError := mkAlreadyInjectedError {
  AlreadyInjectedError_pid : Z;
  AlreadyInjectedError_dll_name : str }.
#[export] Instance AlreadyInjectedError_eq_dec : EqDecision AlreadyInjectedError.
Proof. solve_decision. Defined.

Inductive ProcessError :=
  | ProcessError_NotFound (e : ProcessNotFoundError)
  | ProcessError_AlreadyTerminated (e : ProcessTerminatedError)
  | ProcessError_OpenFailed (e : ProcessOpenError)
  | ProcessError_SpawnFailed (e : ProcessSpawnError)
  | ProcessError_InvalidProcessId
  | ProcessError_InjectionFailed (e : InjectionFailedError)
  | ProcessError_AlreadyInjected (e : AlreadyInjectedError).
#[export] Instance ProcessError_eq_dec : EqDecision ProcessError.
Proof. solve_decision. Defined.

Record ServiceManagerError := mkServiceManagerError {
  ServiceManagerError_operation : str;
  ServiceManagerError_reason : str;
  ServiceManagerError_error_code : option Z }.
#[export] Instance ServiceManagerError_eq_dec : EqDecision ServiceManagerError.
Proof. solve_decision. Defined.

Record ServiceNotFoundError := mkServiceNotFoundError {
  ServiceNotFoundError_name : str;
  ServiceNotFoundError_error_code : option Z }.
#[export] Instance ServiceNotFoundError_eq_dec : EqDecision ServiceNotFoundError.
Proof. solve_decision. Defined.

Record ServiceOperationError := mkServiceOperationError {
  ServiceOperationError_name : str;
  ServiceOperationError_operation : str;
  ServiceOperationError_reason : str;
  ServiceOperationError_error_code : option Z }.
#[export] Instance ServiceOperationError_eq_dec : EqDecision ServiceOperationError.
Proof. solve_decision. Defined.

Record ServiceInvalidStateError := mkServiceInvalidStateError {
  ServiceInvalidStateError_name : str;
  ServiceInvalidStateError_expected : str;
  ServiceInvalidStateError_reason : str }.
#[export] Instance ServiceInvalidStateError_eq_dec : EqDecision ServiceInvalidStateError.
Proof. solve_decision. Defined.

Inductive ServiceError :=
  | ServiceError_ManagerError (e : ServiceManagerError)
  | ServiceError_NotFound (e : ServiceNotFoundError)
  | ServiceError_OperationFailed (e : ServiceOperationError)
  | ServiceError_InvalidState (e : ServiceInvalidStateError).
#[export] Instance ServiceError_eq_dec : EqDecision ServiceError.
Proof. solve_decision. Defined.

Record ThreadNotFoundError := mkThreadNotFoundError {
  ThreadNotFoundError_tid : Z }.
#[export] Instance ThreadNotFoundError_eq_dec : EqDecision ThreadNotFoundError.
Proof. solve_decision. Defined.

Record ThreadOpenError := mkThreadOpenError {
  ThreadOpenError_tid : Z;
  ThreadOpenError_reason : str;
  ThreadOpenError_error_code : option Z }.
#[export] Instance ThreadOpenError_eq_dec : EqDecision ThreadOpenError.
Proof. solve_decision. Defined.

Inductive ThreadError :=
  | ThreadError_NotFound (e : ThreadNotFoundError)
  | ThreadError_OpenFailed (e : ThreadOpenError).
#[export] Instance ThreadError_eq_dec : EqDecision ThreadError.
Proof. solve_decision. Defined.

Record EventLogNotFoundError := mkEventLogNotFoundError {
  EventLogNotFoundError_log_name : str }.
#[export] Instance EventLogNotFoundError_eq_dec : EqDecision EventLogNotFoundError.
Proof. solve_decision. Defined.

Record EventLogQueryError := mkEventLogQueryError {
  EventLogQueryError_log_name : str;
  EventLogQueryError_reason : str;
  EventLogQueryError_error_code : option Z }.
#[export] Instance EventLogQueryError_eq_dec : EqDecision EventLogQueryError.
Proof. solve_decision. Defined.

Record EventLogParseError := mkEventLogParseError {
  EventLogParseError_component : str;
  EventLogParseError_reason : str }.
#[export] Instance EventLogParseError_eq_dec : EqDecision EventLogParseError.
Proof. solve_decision. Defined.

Inductive EventLogError :=
  | EventLogError_LogNotFound (e : EventLogNotFoundError)
  | EventLogError_QueryFailed (e : EventLogQueryError)
  | EventLogError_ParseFailed (e : EventLogParseError).
#[export] Instance EventLogError_eq_dec : EqDecision EventLogError.
Proof. solve_decision. Defined.

Record EtwSessionError := mkEtwSessionError {
  EtwSessionError_session_name : str;
  EtwSessionError_reason : str;
  EtwSessionError_error_code : option Z }.
#[export] Instance EtwSessionError_eq_dec : EqDecision EtwSessionError.
Proof. solve_decision. Defined.

Record EtwProviderError := mkEtwProviderError {
  EtwProviderError_provider : str;
  EtwProviderError_reason : str;
  EtwProviderError_error_code : option Z }.
#[export] Instance EtwProviderError_eq_dec : EqDecision EtwProviderError.
Proof. solve_decision. Defined.

Record EtwConsumeError := mkEtwConsumeError {
  EtwConsumeError_reason : str;
  EtwConsumeError_error_code : option Z }.
#[export] Instance EtwConsumeError_eq_dec : EqDecision EtwConsumeError.
Proof. solve_decision. Defined.

Inductive EtwError :=
  | EtwError_SessionStartFailed (e : EtwSessionError)
  | EtwError_ProviderEnableFailed (e : EtwProviderError)
  | EtwError_ConsumeFailed (e : EtwConsumeError).
#[export] Instance EtwError_eq_dec : EqDecision EtwError.
Proof. solve_decision. Defined.

Record MitigationOperationError := mkMitigationOperationError {
  MitigationOperationError_operation : str;
  MitigationOperationError_policy : str;
  MitigationOperationError_process_id : option Z;
  MitigationOperationError_reason : option str;
  MitigationOperationError_error_code : option Z }.
#[export] Instance MitigationOperationError_eq_dec : EqDecision MitigationOperationError.
Proof. solve_decision. Defined.

Inductive MitigationError :=
  | MitigationError_ApplyFailed (e : MitigationOperationError)
  | MitigationError_QueryFailed (e : MitigationOperationError).
#[export] Instance MitigationError_eq_dec : EqDecision MitigationError.
Proof. solve_decision. Defined.

Record ProxyConfigError := mkProxyConfigError {
  ProxyConfigError_setting : str;
  ProxyConfigError_reason : str }.
#[export] Instance ProxyConfigError_eq_dec : EqDecision ProxyConfigError.
Proof. solve_decision. Defined.

Record ProxyResolutionError := mkProxyResolutionError {
  ProxyResolutionError_url : str;
  ProxyResolutionError_reason : str }.
#[export] Instance ProxyResolutionError_eq_dec : EqDecision ProxyResolutionError.
Proof. solve_decision. Defined.

Inductive ProxyError :=
  | ProxyError_InvalidConfig (e : ProxyConfigError)
  | ProxyError_DiscoveryFailed (e : ProxyConfigError)
  | ProxyError_ResolutionFailed (e : ProxyResolutionError).
#[export] Instance ProxyError_eq_dec : EqDecision ProxyError.
Proof. solve_decision. Defined.

Record SidParseError := mkSidParseError {
  SidParseError_input : str;
  SidParseError_reason : str }.
#[export] Instance SidParseError_eq_dec : EqDecision SidParseError.
Proof. solve_decision. Defined.

Record PermissionEditError := mkPermissionEditError {
  PermissionEditError_operation : str;
  PermissionEditError_reason : str }.
#[export] Instance PermissionEditError_eq_dec : EqDecision PermissionEditError.
Proof. solve_decision. Defined.

Record SecurityUnsupportedError := mkSecurityUnsupportedError {
  SecurityUnsupportedError_target : str;
  SecurityUnsupportedError_operation : str;
  SecurityUnsupportedError_reason : option str }.
#[export] Instance SecurityUnsupportedError_eq_dec : EqDecision SecurityUnsupportedError.
Proof. solve_decision. Defined.

Inductive SecurityError :=
  | SecurityError_SidParse (e : SidParseError)
  | SecurityError_PermissionEdit (e : PermissionEditError)
  | SecurityError_Unsupported (e : SecurityUnsupportedError).
#[export] Instance SecurityError_eq_dec : EqDecision SecurityError.
Proof. solve_decision. Defined.

Record FileOperationError := mkFileOperationError {
  FileOperationError_path : str;
  FileOperationError_operation : str;
  FileOperationError_error_code : option Z }.
#[export] Instance FileOperationError_eq_dec : EqDecision FileOperationError.
Proof. solve_decision. Defined.

Record PipeCreateError := mkPipeCreateError {
  PipeCreateError_pipe_name : str;
  PipeCreateError_operation : str;
  PipeCreateError_error_code : option Z }.
#[export] Instance PipeCreateError_eq_dec : EqDecision PipeCreateError.
Proof. solve_decision. Defined.

Record PipeConnectError := mkPipeConnectError {
  PipeConnectError_pipe_name : str;
  PipeConnectError_context : option str;
  PipeConnectError_error_code : option Z }.
#[export] Instance PipeConnectError_eq_dec : EqDecision PipeConnectError.
Proof. solve_decision. Defined.

Record PipeIoError := mkPipeIoError {
  PipeIoError_pipe_name : str;
  PipeIoError_operation : str;
  PipeIoError_error_code : option Z }.
#[export] Instance PipeIoError_eq_dec : EqDecision PipeIoError.
Proof. solve_decision. Defined.

Record PipeTimeoutError := mkPipeTimeoutError {
  PipeTimeoutError_pipe_name : str;
  PipeTimeoutError_operation : str }.
#[export] Instance PipeTimeoutError_eq_dec : EqDecision PipeTimeoutError.
Proof. solve_decision. Defined.

Record PipeInvalidStateError := mkPipeInvalidStateError {
  PipeInvalidStateError_operation : str;
  PipeInvalidStateError_reason : str }.
#[export] Instance PipeInvalidStateError_eq_dec : EqDecision PipeInvalidStateError.
Proof. solve_decision. Defined.

Inductive PipeError :=
  | PipeError_Create (e : PipeCreateError)
  | PipeError_Connect (e : PipeConnectError)
  | PipeError_Io (e : PipeIoError)
  | PipeError_Timeout (e : PipeTimeoutError)
  | PipeError_InvalidState (e : PipeInvalidStateError).
#[export] Instance PipeError_eq_dec : EqDecision PipeError.
Proof. solve_decision. Defined.

Record DesktopOperationError := mkDesktopOperationError {
  DesktopOperationError_operation : str;
  DesktopOperationError_target : str;
  DesktopOperationError_error_code : option Z }.
#[export] Instance DesktopOperationError_eq_dec : EqDecision DesktopOperationError.
Proof. solve_decision. Defined.

Record WindowNotFoundError := mkWindowNotFoundError {
  WindowNotFoundError_identifier : str }.
#[export] Instance WindowNotFoundError_eq_dec : EqDecision WindowNotFoundError.
Proof. solve_decision. Defined.

Inductive DesktopError :=
  | DesktopError_OperationFailed (e : DesktopOperationError)
  | DesktopError_WindowNotFound (e : WindowNotFoundError).
#[export] Instance DesktopError_eq_dec : EqDecision DesktopError.
Proof. solve_decision. Defined.

Record OtherError := mkOtherError {
  OtherError_message : str }.
#[export] Instance OtherError_eq_dec : EqDecision OtherError.
Proof. solve_decision. Defined.

Inductive Error :=
  | Error_WindowsApi (e : WindowsApiError)
  | Error_AccessDenied (e : AccessDeniedError)
  | Error_NotFound (e : NotFoundError)
  | Error_InvalidParameter (e : InvalidParameterError)
  | Error_Registry (e : RegistryError)
  | Error_Process (e : ProcessError)
  | Error_Service (e : ServiceError)
  | Error_Thread (e : ThreadError)
  | Error_EventLog (e : EventLogError)
  | Error_Etw (e : EtwError)
  | Error_Mitigation (e : MitigationError)
  | Error_Proxy (e : ProxyError)
  | Error_Security (e : SecurityError)
  | Error_FileOperation (e : FileOperationError)
  | Error_Pipe (e : PipeError)
  | Error_Desktop (e : DesktopError)
  | Error_Other (e : OtherError).
#[export] Instance Error_eq_dec : EqDecision Error.
Proof. solve_decision. Defined.
