(* ===== verification/ErrorText.v ===== *)
(** * ErrorText: constructors and texts of the errors

    The constructors ([new], [with_code], ...) and the [Display]
    implementations of src/error.rs.  [format] interprets the format strings
    of the source, so each definition carries the source's own string.  The
    text of a [windows::core::Error] is a parameter. *)

From Stdlib Require Import ZArith Lia String Ascii.
From stdpp Require Import base list strings gmap numbers sorting.
From S2P Require Import Prelude Text Errors.

Open Scope Z_scope.

(** ** [format!] and [write!]

    The placeholders the source uses are [{}] and [{:08X}]; an [i32] in
    hexadecimal is printed as its two's complement, and the integers printed
    in decimal are [u32]. *)
Inductive arg := Text (s : str) | Num (n : Z).

Definition fmt_arg (hex : bool) (a : arg) : str :=
  match a with
  | Text s => s
  | Num n => if hex then fmt_hex_pad 8 (wrap 32 n) else fmt_dec n
  end.

(** The placeholder at the start of [f], whether it is hexadecimal, and the rest. *)
Definition placeholder (f : str) : option (bool * str) :=
  match strip_prefix (lit "{}") f with
  | Some r => Some (false, r)
  | None => match strip_prefix (lit "{:08X}") f with Some r => Some (true, r) | None => None end
  end.

Fixpoint format_list (fuel : nat) (f : str) (args : list arg) : str :=
  match fuel with
  | O => []
  | S fuel =>
      match placeholder f, args with
      | Some (hex, f), a :: args => fmt_arg hex a ++ format_list fuel f args
      | Some _, [] => []
      | None, _ => match f with c :: f => c :: format_list fuel f args | [] => [] end
      end
  end.
Definition format (f : string) (args : list arg) : str := format_list (length (lit f)) (lit f) args.
Arguments format _%_string_scope _.

(** ** Constructors *)

Definition WindowsApiError_new (inner : win_error) : WindowsApiError :=
  mkWindowsApiError inner None.
Definition WindowsApiError_with_context (inner : win_error) (context : str) : WindowsApiError :=
  mkWindowsApiError inner (Some context).
Definition WindowsApiError_code (e : WindowsApiError) : Z := win_error_code (WindowsApiError_inner e).
Definition AccessDeniedError_new (resource : str) (operation : str) : AccessDeniedError :=
  mkAccessDeniedError resource operation None.
Definition AccessDeniedError_with_reason (resource : str) (operation : str) (reason : str) : AccessDeniedError :=
  mkAccessDeniedError resource operation (Some reason).
Definition NotFoundError_new (resource_type : str) (identifier : str) : NotFoundError :=
  mkNotFoundError resource_type identifier.
Definition InvalidParameterError_new (parameter : str) (reason : str) : InvalidParameterError :=
  mkInvalidParameterError parameter reason.
Definition FileOperationError_new (path : str) (operation : str) : FileOperationError :=
  mkFileOperationError path operation None.
Definition FileOperationError_with_code (path : str) (operation : str) (error_code : Z) : FileOperationError :=
  mkFileOperationError path operation (Some error_code).
Definition PipeCreateError_new (pipe_name : str) (operation : str) : PipeCreateError :=
  mkPipeCreateError pipe_name operation None.
Definition PipeCreateError_with_code (pipe_name : str) (operation : str) (error_code : Z) : PipeCreateError :=
  mkPipeCreateError pipe_name operation (Some error_code).
Definition PipeConnectError_new (pipe_name : str) : PipeConnectError :=
  mkPipeConnectError pipe_name None None.
Definition PipeConnectError_with_context (e : PipeConnectError) (context : str) : PipeConnectError :=
  mkPipeConnectError (PipeConnectError_pipe_name e) (Some context) (PipeConnectError_error_code e).
Definition PipeConnectError_with_code (e : PipeConnectError) (error_code : Z) : PipeConnectError :=
  mkPipeConnectError (PipeConnectError_pipe_name e) (PipeConnectError_context e) (Some error_code).
Definition PipeIoError_new (pipe_name : str) (operation : str) : PipeIoError :=
  mkPipeIoError pipe_name operation None.
Definition PipeIoError_with_code (pipe_name : str) (operation : str) (error_code : Z) : PipeIoError :=
  mkPipeIoError pipe_name operation (Some error_code).
Definition PipeTimeoutError_new (pipe_name : str) (operation : str) : PipeTimeoutError :=
  mkPipeTimeoutError pipe_name operation.
Definition PipeInvalidStateError_new (operation : str) (reason : str) : PipeInvalidStateError :=
  mkPipeInvalidStateError operation reason.
Definition OtherError_new (message : str) : OtherError :=
  mkOtherError message.
Definition DesktopOperationError_new (operation : str) (target : str) : DesktopOperationError :=
  mkDesktopOperationError operation target None.
Definition DesktopOperationError_with_code (operation : str) (target : str) (error_code : Z) : DesktopOperationError :=
  mkDesktopOperationError operation target (Some error_code).
Definition WindowNotFoundError_new (identifier : str) : WindowNotFoundError :=
  mkWindowNotFoundError identifier.
Definition SidParseError_new (input : str) (reason : str) : SidParseError :=
  mkSidParseError input reason.
Definition PermissionEditError_new (operation : str) (reason : str) : PermissionEditError :=
  mkPermissionEditError operation reason.
Definition SecurityUnsupportedError_new (target : str) (operation : str) : SecurityUnsupportedError :=
  mkSecurityUnsupportedError target operation None.
Definition SecurityUnsupportedError_with_reason (target : str) (operation : str) (reason : str) : SecurityUnsupportedError :=
  mkSecurityUnsupportedError target operation (Some reason).
Definition ProxyConfigError_new (setting : str) (reason : str) : ProxyConfigError :=
  mkProxyConfigError setting reason.
Definition ProxyResolutionError_new (url : str) (reason : str) : ProxyResolutionError :=
  mkProxyResolutionError url reason.
Definition RegistryKeyNotFoundError_new (key_path : str) : RegistryKeyNotFoundError :=
  mkRegistryKeyNotFoundError key_path None.
Definition RegistryKeyNotFoundError_with_code (key_path : str) (error_code : Z) : RegistryKeyNotFoundError :=
  mkRegistryKeyNotFoundError key_path (Some error_code).
Definition RegistryValueNotFoundError_new (value_name : str) : RegistryValueNotFoundError :=
  mkRegistryValueNotFoundError value_name None.
Definition RegistryValueNotFoundError_with_key (value_name : str) (key_path : str) : RegistryValueNotFoundError :=
  mkRegistryValueNotFoundError value_name (Some key_path).
Definition RegistryInvalidTypeError_new (expected : str) (found : str) : RegistryInvalidTypeError :=
  mkRegistryInvalidTypeError expected found None.
Definition RegistryInvalidTypeError_with_name (expected : str) (found : str) (value_name : str) : RegistryInvalidTypeError :=
  mkRegistryInvalidTypeError expected found (Some value_name).
Definition RegistryConversionError_new (conversion : str) (reason : str) : RegistryConversionError :=
  mkRegistryConversionError conversion reason.
Definition ServiceManagerError_new (operation : str) (reason : str) : ServiceManagerError :=
  mkServiceManagerError operation reason None.
Definition ServiceManagerError_with_code (operation : str) (reason : str) (error_code : Z) : ServiceManagerError :=
  mkServiceManagerError operation reason (Some error_code).
Definition ServiceNotFoundError_new (name : str) : ServiceNotFoundError :=
  mkServiceNotFoundError name None.
Definition ServiceNotFoundError_with_code (name : str) (error_code : Z) : ServiceNotFoundError :=
  mkServiceNotFoundError name (Some error_code).
Definition ServiceOperationError_new (name : str) (operation : str) (reason : str) : ServiceOperationError :=
  mkServiceOperationError name operation reason None.
Definition ServiceOperationError_with_code (name : str) (operation : str) (reason : str) (error_code : Z) : ServiceOperationError :=
  mkServiceOperationError name operation reason (Some error_code).
Definition ServiceInvalidStateError_new (name : str) (expected : str) (reason : str) : ServiceInvalidStateError :=
  mkServiceInvalidStateError name expected reason.
Definition ProcessNotFoundError_new (pid : Z) : ProcessNotFoundError :=
  mkProcessNotFoundError pid.
Definition ProcessTerminatedError_new (pid : Z) : ProcessTerminatedError :=
  mkProcessTerminatedError pid None.
Definition ProcessTerminatedError_with_exit_code (pid : Z) (exit_code : Z) : ProcessTerminatedError :=
  mkProcessTerminatedError pid (Some exit_code).
Definition ProcessOpenError_new (pid : Z) (reason : str) : ProcessOpenError :=
  mkProcessOpenError pid reason None.
Definition ProcessOpenError_with_code (pid : Z) (reason : str) (error_code : Z) : ProcessOpenError :=
  mkProcessOpenError pid reason (Some error_code).
Definition ProcessSpawnError_new (command : str) (reason : str) : ProcessSpawnError :=
  mkProcessSpawnError command reason None.
Definition ProcessSpawnError_with_code (command : str) (reason : str) (error_code : Z) : ProcessSpawnError :=
  mkProcessSpawnError command reason (Some error_code).
Definition InjectionFailedError_new (pid : Z) (reason : str) : InjectionFailedError :=
  mkInjectionFailedError pid reason None.
Definition InjectionFailedError_with_code (pid : Z) (reason : str) (error_code : Z) : InjectionFailedError :=
  mkInjectionFailedError pid reason (Some error_code).
Definition AlreadyInjectedError_new (pid : Z) (dll_name : str) : AlreadyInjectedError :=
  mkAlreadyInjectedError pid dll_name.
Definition ThreadNotFoundError_new (tid : Z) : ThreadNotFoundError :=
  mkThreadNotFoundError tid.
Definition ThreadOpenError_new (tid : Z) (reason : str) : ThreadOpenError :=
  mkThreadOpenError tid reason None.
Definition ThreadOpenError_with_code (tid : Z) (reason : str) (error_code : Z) : ThreadOpenError :=
  mkThreadOpenError tid reason (Some error_code).
Definition EventLogNotFoundError_new (log_name : str) : EventLogNotFoundError :=
  mkEventLogNotFoundError log_name.
Definition EventLogQueryError_new (log_name : str) (reason : str) : EventLogQueryError :=
  mkEventLogQueryError log_name reason None.
Definition EventLogQueryError_with_code (log_name : str) (reason : str) (error_code : Z) : EventLogQueryError :=
  mkEventLogQueryError log_name reason (Some error_code).
Definition EventLogParseError_new (component : str) (reason : str) : EventLogParseError :=
  mkEventLogParseError component reason.
Definition EtwSessionError_new (session_name : str) (reason : str) : EtwSessionError :=
  mkEtwSessionError session_name reason None.
Definition EtwSessionError_with_code (session_name : str) (reason : str) (error_code : Z) : EtwSessionError :=
  mkEtwSessionError session_name reason (Some error_code).
Definition EtwSessionError_already_exists (session_name : str) : EtwSessionError :=
  mkEtwSessionError session_name (lit "Session already exists") (Some (-2147024713)).
Definition EtwSessionError_invalid_config (session_name : str) (field : str) (issue : str) : EtwSessionError :=
  mkEtwSessionError session_name (format "Invalid {}: {}" [Text field; Text issue]) None.
Definition EtwProviderError_new (provider : str) (reason : str) : EtwProviderError :=
  mkEtwProviderError provider reason None.
Definition EtwProviderError_with_code (provider : str) (reason : str) (error_code : Z) : EtwProviderError :=
  mkEtwProviderError provider reason (Some error_code).
Definition EtwProviderError_not_found (provider : str) : EtwProviderError :=
  mkEtwProviderError provider (lit "Provider not registered") (Some (1168)).
Definition EtwConsumeError_new (reason : str) : EtwConsumeError :=
  mkEtwConsumeError reason None.
Definition EtwConsumeError_with_code (reason : str) (error_code : Z) : EtwConsumeError :=
  mkEtwConsumeError reason (Some error_code).
Definition MitigationOperationError_new (operation : str) (policy : str) : MitigationOperationError :=
  mkMitigationOperationError operation policy None None None.
Definition MitigationOperationError_with_process_id (e : MitigationOperationError) (process_id : Z) : MitigationOperationError :=
  mkMitigationOperationError (MitigationOperationError_operation e) (MitigationOperationError_policy e) (Some process_id) (MitigationOperationError_reason e) (MitigationOperationError_error_code e).
Definition MitigationOperationError_with_reason (e : MitigationOperationError) (reason : str) : MitigationOperationError :=
  mkMitigationOperationError (MitigationOperationError_operation e) (MitigationOperationError_policy e) (MitigationOperationError_process_id e) (Some reason) (MitigationOperationError_error_code e).
Definition MitigationOperationError_with_code (e : MitigationOperationError) (error_code : Z) : MitigationOperationError :=
  mkMitigationOperationError (MitigationOperationError_operation e) (MitigationOperationError_policy e) (MitigationOperationError_process_id e) (MitigationOperationError_reason e) (Some error_code).

(** ** Texts *)

Class win_text := { win_display : win_error -> str }.

Section Texts.
Context `{!win_text}.

Definition display_WindowsApiError (e : WindowsApiError) : str :=
  match WindowsApiError_context e with
  | Some context => format "Windows API error in {}: {}" [Text context; Text (win_display (WindowsApiError_inner e))]
  | None => format "Windows API error: {}" [Text (win_display (WindowsApiError_inner e))]
  end.
Definition display_AccessDeniedError (e : AccessDeniedError) : str :=
  match AccessDeniedError_reason e with
  | Some reason => format "Access denied: cannot {} '{}' ({})" [Text (AccessDeniedError_operation e); Text (AccessDeniedError_resource e); Text reason]
  | None => format "Access denied: cannot {} '{}'" [Text (AccessDeniedError_operation e); Text (AccessDeniedError_resource e)]
  end.
Definition display_NotFoundError (e : NotFoundError) : str :=
  format "{} not found: {}" [Text (NotFoundError_resource_type e); Text (NotFoundError_identifier e)].
Definition display_InvalidParameterError (e : InvalidParameterError) : str :=
  format "Invalid parameter '{}': {}" [Text (InvalidParameterError_parameter e); Text (InvalidParameterError_reason e)].
Definition display_FileOperationError (e : FileOperationError) : str :=
  match FileOperationError_error_code e with
  | Some code => format "File operation '{}' failed on '{}' (error code: 0x{:08X})" [Text (FileOperationError_operation e); Text (FileOperationError_path e); Num code]
  | None => format "File operation '{}' failed on '{}'" [Text (FileOperationError_operation e); Text (FileOperationError_path e)]
  end.
Definition display_PipeCreateError (e : PipeCreateError) : str :=
  match PipeCreateError_error_code e with
  | Some code => format "Pipe creation '{}' failed for '{}' (error code: 0x{:08X})" [Text (PipeCreateError_operation e); Text (PipeCreateError_pipe_name e); Num code]
  | None => format "Pipe creation '{}' failed for '{}'" [Text (PipeCreateError_operation e); Text (PipeCreateError_pipe_name e)]
  end.
Definition display_PipeConnectError (e : PipeConnectError) : str :=
  match PipeConnectError_context e, PipeConnectError_error_code e with
  | Some context, Some code => format "Pipe connect failed for '{}' ({}, error code: 0x{:08X})" [Text (PipeConnectError_pipe_name e); Text context; Num code]
  | Some context, None => format "Pipe connect failed for '{}' ({})" [Text (PipeConnectError_pipe_name e); Text context]
  | None, Some code => format "Pipe connect failed for '{}' (error code: 0x{:08X})" [Text (PipeConnectError_pipe_name e); Num code]
  | None, None => format "Pipe connect failed for '{}'" [Text (PipeConnectError_pipe_name e)]
  end.
Definition display_PipeIoError (e : PipeIoError) : str :=
  match PipeIoError_error_code e with
  | Some code => format "Pipe I/O '{}' failed for '{}' (error code: 0x{:08X})" [Text (PipeIoError_operation e); Text (PipeIoError_pipe_name e); Num code]
  | None => format "Pipe I/O '{}' failed for '{}'" [Text (PipeIoError_operation e); Text (PipeIoError_pipe_name e)]
  end.
Definition display_PipeTimeoutError (e : PipeTimeoutError) : str :=
  format "Pipe operation '{}' timed out for '{}'" [Text (PipeTimeoutError_operation e); Text (PipeTimeoutError_pipe_name e)].
Definition display_PipeInvalidStateError (e : PipeInvalidStateError) : str :=
  format "Pipe operation '{}' is invalid in current state: {}" [Text (PipeInvalidStateError_operation e); Text (PipeInvalidStateError_reason e)].
Definition display_OtherError (e : OtherError) : str :=
  format "{}" [Text (OtherError_message e)].
Definition display_DesktopOperationError (e : DesktopOperationError) : str :=
  match DesktopOperationError_error_code e with
  | Some code => format "Desktop operation '{}' failed for '{}' (error code: 0x{:08X})" [Text (DesktopOperationError_operation e); Text (DesktopOperationError_target e); Num code]
  | None => format "Desktop operation '{}' failed for '{}'" [Text (DesktopOperationError_operation e); Text (DesktopOperationError_target e)]
  end.
Definition display_WindowNotFoundError (e : WindowNotFoundError) : str :=
  format "Window not found: {}" [Text (WindowNotFoundError_identifier e)].
Definition display_SidParseError (e : SidParseError) : str :=
  format "SID parse error for '{}': {}" [Text (SidParseError_input e); Text (SidParseError_reason e)].
Definition display_PermissionEditError (e : PermissionEditError) : str :=
  format "Permission edit '{}' failed: {}" [Text (PermissionEditError_operation e); Text (PermissionEditError_reason e)].
Definition display_SecurityUnsupportedError (e : SecurityUnsupportedError) : str :=
  match SecurityUnsupportedError_reason e with
  | Some reason => format "Security operation '{}' is not supported for '{}': {}" [Text (SecurityUnsupportedError_operation e); Text (SecurityUnsupportedError_target e); Text reason]
  | None => format "Security operation '{}' is not supported for '{}'" [Text (SecurityUnsupportedError_operation e); Text (SecurityUnsupportedError_target e)]
  end.
Definition display_ProxyConfigError (e : ProxyConfigError) : str :=
  format "Proxy configuration error for '{}': {}" [Text (ProxyConfigError_setting e); Text (ProxyConfigError_reason e)].
Definition display_ProxyResolutionError (e : ProxyResolutionError) : str :=
  format "Proxy resolution failed for '{}': {}" [Text (ProxyResolutionError_url e); Text (ProxyResolutionError_reason e)].
Definition display_RegistryKeyNotFoundError (e : RegistryKeyNotFoundError) : str :=
  match RegistryKeyNotFoundError_error_code e with
  | Some code => format "Registry key not found: {} (error code: 0x{:08X})" [Text (RegistryKeyNotFoundError_key_path e); Num code]
  | None => format "Registry key not found: {}" [Text (RegistryKeyNotFoundError_key_path e)]
  end.
Definition display_RegistryValueNotFoundError (e : RegistryValueNotFoundError) : str :=
  match RegistryValueNotFoundError_key_path e with
  | Some key => format "Registry value '{}' not found in key '{}'" [Text (RegistryValueNotFoundError_value_name e); Text key]
  | None => format "Registry value not found: {}" [Text (RegistryValueNotFoundError_value_name e)]
  end.
Definition display_RegistryInvalidTypeError (e : RegistryInvalidTypeError) : str :=
  match RegistryInvalidTypeError_value_name e with
  | Some name => format "Invalid registry type for '{}': expected {}, found {}" [Text name; Text (RegistryInvalidTypeError_expected e); Text (RegistryInvalidTypeError_found e)]
  | None => format "Invalid registry type: expected {}, found {}" [Text (RegistryInvalidTypeError_expected e); Text (RegistryInvalidTypeError_found e)]
  end.
Definition display_RegistryConversionError (e : RegistryConversionError) : str :=
  format "Registry conversion error ({}): {}" [Text (RegistryConversionError_conversion e); Text (RegistryConversionError_reason e)].
Definition display_ServiceManagerError (e : ServiceManagerError) : str :=
  match ServiceManagerError_error_code e with
  | Some code => format "Service manager operation '{}' failed: {} (error code: 0x{:08X})" [Text (ServiceManagerError_operation e); Text (ServiceManagerError_reason e); Num code]
  | None => format "Service manager operation '{}' failed: {}" [Text (ServiceManagerError_operation e); Text (ServiceManagerError_reason e)]
  end.
Definition display_ServiceNotFoundError (e : ServiceNotFoundError) : str :=
  match ServiceNotFoundError_error_code e with
  | Some code => format "Service '{}' not found (error code: 0x{:08X})" [Text (ServiceNotFoundError_name e); Num code]
  | None => format "Service '{}' not found" [Text (ServiceNotFoundError_name e)]
  end.
Definition display_ServiceOperationError (e : ServiceOperationError) : str :=
  match ServiceOperationError_error_code e with
  | Some code => format "Service '{}' operation '{}' failed: {} (error code: 0x{:08X})" [Text (ServiceOperationError_name e); Text (ServiceOperationError_operation e); Text (ServiceOperationError_reason e); Num code]
  | None => format "Service '{}' operation '{}' failed: {}" [Text (ServiceOperationError_name e); Text (ServiceOperationError_operation e); Text (ServiceOperationError_reason e)]
  end.
Definition display_ServiceInvalidStateError (e : ServiceInvalidStateError) : str :=
  format "Service '{}' is not in expected state '{}': {}" [Text (ServiceInvalidStateError_name e); Text (ServiceInvalidStateError_expected e); Text (ServiceInvalidStateError_reason e)].
Definition display_ProcessNotFoundError (e : ProcessNotFoundError) : str :=
  format "Process {} not found" [Num (ProcessNotFoundError_pid e)].
Definition display_ProcessTerminatedError (e : ProcessTerminatedError) : str :=
  match ProcessTerminatedError_exit_code e with
  | Some code => format "Process {} already terminated (exit code: {})" [Num (ProcessTerminatedError_pid e); Num code]
  | None => format "Process {} already terminated" [Num (ProcessTerminatedError_pid e)]
  end.
Definition display_ProcessOpenError (e : ProcessOpenError) : str :=
  match ProcessOpenError_error_code e with
  | Some code => format "Failed to open process {}: {} (error code: 0x{:08X})" [Num (ProcessOpenError_pid e); Text (ProcessOpenError_reason e); Num code]
  | None => format "Failed to open process {}: {}" [Num (ProcessOpenError_pid e); Text (ProcessOpenError_reason e)]
  end.
Definition display_ProcessSpawnError (e : ProcessSpawnError) : str :=
  match ProcessSpawnError_error_code e with
  | Some code => format "Failed to spawn process '{}': {} (error code: 0x{:08X})" [Text (ProcessSpawnError_command e); Text (ProcessSpawnError_reason e); Num code]
  | None => format "Failed to spawn process '{}': {}" [Text (ProcessSpawnError_command e); Text (ProcessSpawnError_reason e)]
  end.
Definition display_InjectionFailedError (e : InjectionFailedError) : str :=
  match InjectionFailedError_error_code e with
  | Some code => format "DLL injection into process {} failed: {} (error code: 0x{:08X})" [Num (InjectionFailedError_pid e); Text (InjectionFailedError_reason e); Num code]
  | None => format "DLL injection into process {} failed: {}" [Num (InjectionFailedError_pid e); Text (InjectionFailedError_reason e)]
  end.
Definition display_AlreadyInjectedError (e : AlreadyInjectedError) : str :=
  format "DLL '{}' is already loaded in process {}" [Text (AlreadyInjectedError_dll_name e); Num (AlreadyInjectedError_pid e)].
Definition display_ThreadNotFoundError (e : ThreadNotFoundError) : str :=
  format "Thread {} not found" [Num (ThreadNotFoundError_tid e)].
Definition display_ThreadOpenError (e : ThreadOpenError) : str :=
  match ThreadOpenError_error_code e with
  | Some code => format "Failed to open thread {}: {} (error code: 0x{:08X})" [Num (ThreadOpenError_tid e); Text (ThreadOpenError_reason e); Num code]
  | None => format "Failed to open thread {}: {}" [Num (ThreadOpenError_tid e); Text (ThreadOpenError_reason e)]
  end.
Definition display_EventLogNotFoundError (e : EventLogNotFoundError) : str :=
  format "Event log not found: {}" [Text (EventLogNotFoundError_log_name e)].
Definition display_EventLogQueryError (e : EventLogQueryError) : str :=
  match EventLogQueryError_error_code e with
  | Some code => format "Failed to query event log '{}': {} (error code: 0x{:08X})" [Text (EventLogQueryError_log_name e); Text (EventLogQueryError_reason e); Num code]
  | None => format "Failed to query event log '{}': {}" [Text (EventLogQueryError_log_name e); Text (EventLogQueryError_reason e)]
  end.
Definition display_EventLogParseError (e : EventLogParseError) : str :=
  format "Failed to parse {}: {}" [Text (EventLogParseError_component e); Text (EventLogParseError_reason e)].
Definition display_EtwSessionError (e : EtwSessionError) : str :=
  match EtwSessionError_error_code e with
  | Some code => format "Failed to start ETW session '{}': {} (error code: 0x{:08X})" [Text (EtwSessionError_session_name e); Text (EtwSessionError_reason e); Num code]
  | None => format "Failed to start ETW session '{}': {}" [Text (EtwSessionError_session_name e); Text (EtwSessionError_reason e)]
  end.
Definition display_EtwProviderError (e : EtwProviderError) : str :=
  match EtwProviderError_error_code e with
  | Some code => format "Failed to enable ETW provider '{}': {} (error code: 0x{:08X})" [Text (EtwProviderError_provider e); Text (EtwProviderError_reason e); Num code]
  | None => format "Failed to enable ETW provider '{}': {}" [Text (EtwProviderError_provider e); Text (EtwProviderError_reason e)]
  end.
Definition display_EtwConsumeError (e : EtwConsumeError) : str :=
  match EtwConsumeError_error_code e with
  | Some code => format "Failed to consume ETW events: {} (error code: 0x{:08X})" [Text (EtwConsumeError_reason e); Num code]
  | None => format "Failed to consume ETW events: {}" [Text (EtwConsumeError_reason e)]
  end.
Definition display_MitigationOperationError (e : MitigationOperationError) : str :=
  match MitigationOperationError_process_id e, MitigationOperationError_reason e, MitigationOperationError_error_code e with
  | Some pid, Some reason, Some code => format "Mitigation {} failed for policy '{}' on process {}: {} (error code: 0x{:08X})" [Text (MitigationOperationError_operation e); Text (MitigationOperationError_policy e); Num pid; Text reason; Num code]
  | Some pid, Some reason, None => format "Mitigation {} failed for policy '{}' on process {}: {}" [Text (MitigationOperationError_operation e); Text (MitigationOperationError_policy e); Num pid; Text reason]
  | Some pid, None, Some code => format "Mitigation {} failed for policy '{}' on process {} (error code: 0x{:08X})" [Text (MitigationOperationError_operation e); Text (MitigationOperationError_policy e); Num pid; Num code]
  | Some pid, None, None => format "Mitigation {} failed for policy '{}' on process {}" [Text (MitigationOperationError_operation e); Text (MitigationOperationError_policy e); Num pid]
  | None, Some reason, Some code => format "Mitigation {} failed for policy '{}': {} (error code: 0x{:08X})" [Text (MitigationOperationError_operation e); Text (MitigationOperationError_policy e); Text reason; Num code]
  | None, Some reason, None => format "Mitigation {} failed for policy '{}': {}" [Text (MitigationOperationError_operation e); Text (MitigationOperationError_policy e); Text reason]
  | None, None, Some code => format "Mitigation {} failed for policy '{}' (error code: 0x{:08X})" [Text (MitigationOperationError_operation e); Text (MitigationOperationError_policy e); Num code]
  | None, None, None => format "Mitigation {} failed for policy '{}'" [Text (MitigationOperationError_operation e); Text (MitigationOperationError_policy e)]
  end.
Definition display_PipeError (e : PipeError) : str :=
  match e with
  | PipeError_Create e => format "{}" [Text (display_PipeCreateError e)]
  | PipeError_Connect e => format "{}" [Text (display_PipeConnectError e)]
  | PipeError_Io e => format "{}" [Text (display_PipeIoError e)]
  | PipeError_Timeout e => format "{}" [Text (display_PipeTimeoutError e)]
  | PipeError_InvalidState e => format "{}" [Text (display_PipeInvalidStateError e)]
  end.
Definition display_DesktopError (e : DesktopError) : str :=
  match e with
  | DesktopError_OperationFailed e => format "{}" [Text (display_DesktopOperationError e)]
  | DesktopError_WindowNotFound e => format "{}" [Text (display_WindowNotFoundError e)]
  end.
Definition display_SecurityError (e : SecurityError) : str :=
  match e with
  | SecurityError_SidParse e => format "{}" [Text (display_SidParseError e)]
  | SecurityError_PermissionEdit e => format "{}" [Text (display_PermissionEditError e)]
  | SecurityError_Unsupported e => format "{}" [Text (display_SecurityUnsupportedError e)]
  end.
Definition display_ProxyError (e : ProxyError) : str :=
  match e with
  | ProxyError_InvalidConfig e => format "{}" [Text (display_ProxyConfigError e)]
  | ProxyError_DiscoveryFailed e => format "{}" [Text (display_ProxyConfigError e)]
  | ProxyError_ResolutionFailed e => format "{}" [Text (display_ProxyResolutionError e)]
  end.
Definition display_RegistryError (e : RegistryError) : str :=
  match e with
  | RegistryError_KeyNotFound e => format "{}" [Text (display_RegistryKeyNotFoundError e)]
  | RegistryError_ValueNotFound e => format "{}" [Text (display_RegistryValueNotFoundError e)]
  | RegistryError_InvalidType e => format "{}" [Text (display_RegistryInvalidTypeError e)]
  | RegistryError_ConversionError e => format "{}" [Text (display_RegistryConversionError e)]
  end.
Definition display_ServiceError (e : ServiceError) : str :=
  match e with
  | ServiceError_ManagerError e => format "{}" [Text (display_ServiceManagerError e)]
  | ServiceError_NotFound e => format "{}" [Text (display_ServiceNotFoundError e)]
  | ServiceError_OperationFailed e => format "{}" [Text (display_ServiceOperationError e)]
  | ServiceError_InvalidState e => format "{}" [Text (display_ServiceInvalidStateError e)]
  end.
Definition display_ProcessError (e : ProcessError) : str :=
  match e with
  | ProcessError_NotFound e => format "{}" [Text (display_ProcessNotFoundError e)]
  | ProcessError_AlreadyTerminated e => format "{}" [Text (display_ProcessTerminatedError e)]
  | ProcessError_OpenFailed e => format "{}" [Text (display_ProcessOpenError e)]
  | ProcessError_SpawnFailed e => format "{}" [Text (display_ProcessSpawnError e)]
  | ProcessError_InvalidProcessId => format "Invalid process ID" []
  | ProcessError_InjectionFailed e => format "{}" [Text (display_InjectionFailedError e)]
  | ProcessError_AlreadyInjected e => format "{}" [Text (display_AlreadyInjectedError e)]
  end.
Definition display_ThreadError (e : ThreadError) : str :=
  match e with
  | ThreadError_NotFound e => format "{}" [Text (display_ThreadNotFoundError e)]
  | ThreadError_OpenFailed e => format "{}" [Text (display_ThreadOpenError e)]
  end.
Definition display_EventLogError (e : EventLogError) : str :=
  match e with
  | EventLogError_LogNotFound e => format "{}" [Text (display_EventLogNotFoundError e)]
  | EventLogError_QueryFailed e => format "{}" [Text (display_EventLogQueryError e)]
  | EventLogError_ParseFailed e => format "{}" [Text (display_EventLogParseError e)]
  end.
Definition display_EtwError (e : EtwError) : str :=
  match e with
  | EtwError_SessionStartFailed e => format "{}" [Text (display_EtwSessionError e)]
  | EtwError_ProviderEnableFailed e => format "{}" [Text (display_EtwProviderError e)]
  | EtwError_ConsumeFailed e => format "{}" [Text (display_EtwConsumeError e)]
  end.
Definition display_MitigationError (e : MitigationError) : str :=
  match e with
  | MitigationError_ApplyFailed e => format "{}" [Text (display_MitigationOperationError e)]
  | MitigationError_QueryFailed e => format "{}" [Text (display_MitigationOperationError e)]
  end.
Definition display_Error (e : Error) : str :=
  match e with
  | Error_WindowsApi e => format "{}" [Text (display_WindowsApiError e)]
  | Error_AccessDenied e => format "{}" [Text (display_AccessDeniedError e)]
  | Error_NotFound e => format "{}" [Text (display_NotFoundError e)]
  | Error_InvalidParameter e => format "{}" [Text (display_InvalidParameterError e)]
  | Error_Registry e => format "{}" [Text (display_RegistryError e)]
  | Error_Process e => format "{}" [Text (display_ProcessError e)]
  | Error_Service e => format "{}" [Text (display_ServiceError e)]
  | Error_Thread e => format "{}" [Text (display_ThreadError e)]
  | Error_EventLog e => format "{}" [Text (display_EventLogError e)]
  | Error_Etw e => format "{}" [Text (display_EtwError e)]
  | Error_Mitigation e => format "{}" [Text (display_MitigationError e)]
  | Error_Proxy e => format "{}" [Text (display_ProxyError e)]
  | Error_Security e => format "{}" [Text (display_SecurityError e)]
  | Error_FileOperation e => format "{}" [Text (display_FileOperationError e)]
  | Error_Pipe e => format "{}" [Text (display_PipeError e)]
  | Error_Desktop e => format "{}" [Text (display_DesktopError e)]
  | Error_Other e => format "{}" [Text (display_OtherError e)]
  end.

(** ** The parts of an error

    Every field: texts as they are, identifiers in decimal, codes as eight
    hexadecimal digits. *)

Definition parts_WindowsApiError (e : WindowsApiError) : list str := [win_display (WindowsApiError_inner e)] ++ option_list (WindowsApiError_context e).
Definition parts_AccessDeniedError (e : AccessDeniedError) : list str := [AccessDeniedError_resource e] ++ [AccessDeniedError_operation e] ++ option_list (AccessDeniedError_reason e).
Definition parts_NotFoundError (e : NotFoundError) : list str := [NotFoundError_resource_type e] ++ [NotFoundError_identifier e].
Definition parts_InvalidParameterError (e : InvalidParameterError) : list str := [InvalidParameterError_parameter e] ++ [InvalidParameterError_reason e].
Definition parts_FileOperationError (e : FileOperationError) : list str := [FileOperationError_path e] ++ [FileOperationError_operation e] ++ from_option (fun c => [fmt_hex_pad 8 (wrap 32 c)]) [] (FileOperationError_error_code e).
Definition parts_PipeCreateError (e : PipeCreateError) : list str := [PipeCreateError_pipe_name e] ++ [PipeCreateError_operation e] ++ from_option (fun c => [fmt_hex_pad 8 (wrap 32 c)]) [] (PipeCreateError_error_code e).
Definition parts_PipeConnectError (e : PipeConnectError) : list str := [PipeConnectError_pipe_name e] ++ option_list (PipeConnectError_context e) ++ from_option (fun c => [fmt_hex_pad 8 (wrap 32 c)]) [] (PipeConnectError_error_code e).
Definition parts_PipeIoError (e : PipeIoError) : list str := [PipeIoError_pipe_name e] ++ [PipeIoError_operation e] ++ from_option (fun c => [fmt_hex_pad 8 (wrap 32 c)]) [] (PipeIoError_error_code e).
Definition parts_PipeTimeoutError (e : PipeTimeoutError) : list str := [PipeTimeoutError_pipe_name e] ++ [PipeTimeoutError_operation e].
Definition parts_PipeInvalidStateError (e : PipeInvalidStateError) : list str := [PipeInvalidStateError_operation e] ++ [PipeInvalidStateError_reason e].
Definition parts_OtherError (e : OtherError) : list str := [OtherError_message e].
Definition parts_DesktopOperationError (e : DesktopOperationError) : list str := [DesktopOperationError_operation e] ++ [DesktopOperationError_target e] ++ from_option (fun c => [fmt_hex_pad 8 (wrap 32 c)]) [] (DesktopOperationError_error_code e).
Definition parts_WindowNotFoundError (e : WindowNotFoundError) : list str := [WindowNotFoundError_identifier e].
Definition parts_SidParseError (e : SidParseError) : list str := [SidParseError_input e] ++ [SidParseError_reason e].
Definition parts_PermissionEditError (e : PermissionEditError) : list str := [PermissionEditError_operation e] ++ [PermissionEditError_reason e].
Definition parts_SecurityUnsupportedError (e : SecurityUnsupportedError) : list str := [SecurityUnsupportedError_target e] ++ [SecurityUnsupportedError_operation e] ++ option_list (SecurityUnsupportedError_reason e).
Definition parts_ProxyConfigError (e : ProxyConfigError) : list str := [ProxyConfigError_setting e] ++ [ProxyConfigError_reason e].
Definition parts_ProxyResolutionError (e : ProxyResolutionError) : list str := [ProxyResolutionError_url e] ++ [ProxyResolutionError_reason e].
Definition parts_RegistryKeyNotFoundError (e : RegistryKeyNotFoundError) : list str := [RegistryKeyNotFoundError_key_path e] ++ from_option (fun c => [fmt_hex_pad 8 (wrap 32 c)]) [] (RegistryKeyNotFoundError_error_code e).
Definition parts_RegistryValueNotFoundError (e : RegistryValueNotFoundError) : list str := [RegistryValueNotFoundError_value_name e] ++ option_list (RegistryValueNotFoundError_key_path e).
Definition parts_RegistryInvalidTypeError (e : RegistryInvalidTypeError) : list str := [RegistryInvalidTypeError_expected e] ++ [RegistryInvalidTypeError_found e] ++ option_list (RegistryInvalidTypeError_value_name e).
Definition parts_RegistryConversionError (e : RegistryConversionError) : list str := [RegistryConversionError_conversion e] ++ [RegistryConversionError_reason e].
Definition parts_ServiceManagerError (e : ServiceManagerError) : list str := [ServiceManagerError_operation e] ++ [ServiceManagerError_reason e] ++ from_option (fun c => [fmt_hex_pad 8 (wrap 32 c)]) [] (ServiceManagerError_error_code e).
Definition parts_ServiceNotFoundError (e : ServiceNotFoundError) : list str := [ServiceNotFoundError_name e] ++ from_option (fun c => [fmt_hex_pad 8 (wrap 32 c)]) [] (ServiceNotFoundError_error_code e).
Definition parts_ServiceOperationError (e : ServiceOperationError) : list str := [ServiceOperationError_name e] ++ [ServiceOperationError_operation e] ++ [ServiceOperationError_reason e] ++ from_option (fun c => [fmt_hex_pad 8 (wrap 32 c)]) [] (ServiceOperationError_error_code e).
Definition parts_ServiceInvalidStateError (e : ServiceInvalidStateError) : list str := [ServiceInvalidStateError_name e] ++ [ServiceInvalidStateError_expected e] ++ [ServiceInvalidStateError_reason e].
Definition parts_ProcessNotFoundError (e : ProcessNotFoundError) : list str := [fmt_dec (ProcessNotFoundError_pid e)].
Definition parts_ProcessTerminatedError (e : ProcessTerminatedError) : list str := [fmt_dec (ProcessTerminatedError_pid e)] ++ option_list (fmt_dec <$> ProcessTerminatedError_exit_code e).
Definition parts_ProcessOpenError (e : ProcessOpenError) : list str := [fmt_dec (ProcessOpenError_pid e)] ++ [ProcessOpenError_reason e] ++ from_option (fun c => [fmt_hex_pad 8 (wrap 32 c)]) [] (ProcessOpenError_error_code e).
Definition parts_ProcessSpawnError (e : ProcessSpawnError) : list str := [ProcessSpawnError_command e] ++ [ProcessSpawnError_reason e] ++ from_option (fun c => [fmt_hex_pad 8 (wrap 32 c)]) [] (ProcessSpawnError_error_code e).
Definition parts_InjectionFailedError (e : InjectionFailedError) : list str := [fmt_dec (InjectionFailedError_pid e)] ++ [InjectionFailedError_reason e] ++ from_option (fun c => [fmt_hex_pad 8 (wrap 32 c)]) [] (InjectionFailedError_error_code e).
Definition parts_AlreadyInjectedError (e : AlreadyInjectedError) : list str := [fmt_dec (AlreadyInjectedError_pid e)] ++ [AlreadyInjectedError_dll_name e].
Definition parts_ThreadNotFoundError (e : ThreadNotFoundError) : list str := [fmt_dec (ThreadNotFoundError_tid e)].
Definition parts_ThreadOpenError (e : ThreadOpenError) : list str := [fmt_dec (ThreadOpenError_tid e)] ++ [ThreadOpenError_reason e] ++ from_option (fun c => [fmt_hex_pad 8 (wrap 32 c)]) [] (ThreadOpenError_error_code e).
Definition parts_EventLogNotFoundError (e : EventLogNotFoundError) : list str := [EventLogNotFoundError_log_name e].
Definition parts_EventLogQueryError (e : EventLogQueryError) : list str := [EventLogQueryError_log_name e] ++ [EventLogQueryError_reason e] ++ from_option (fun c => [fmt_hex_pad 8 (wrap 32 c)]) [] (EventLogQueryError_error_code e).
Definition parts_EventLogParseError (e : EventLogParseError) : list str := [EventLogParseError_component e] ++ [EventLogParseError_reason e].
Definition parts_EtwSessionError (e : EtwSessionError) : list str := [EtwSessionError_session_name e] ++ [EtwSessionError_reason e] ++ from_option (fun c => [fmt_hex_pad 8 (wrap 32 c)]) [] (EtwSessionError_error_code e).
Definition parts_EtwProviderError (e : EtwProviderError) : list str := [EtwProviderError_provider e] ++ [EtwProviderError_reason e] ++ from_option (fun c => [fmt_hex_pad 8 (wrap 32 c)]) [] (EtwProviderError_error_code e).
Definition parts_EtwConsumeError (e : EtwConsumeError) : list str := [EtwConsumeError_reason e] ++ from_option (fun c => [fmt_hex_pad 8 (wrap 32 c)]) [] (EtwConsumeError_error_code e).
Definition parts_MitigationOperationError (e : MitigationOperationError) : list str := [MitigationOperationError_operation e] ++ [MitigationOperationError_policy e] ++ option_list (fmt_dec <$> MitigationOperationError_process_id e) ++ option_list (MitigationOperationError_reason e) ++ from_option (fun c => [fmt_hex_pad 8 (wrap 32 c)]) [] (MitigationOperationError_error_code e).
Definition parts_PipeError (e : PipeError) : list str :=
  match e with
  | PipeError_Create e => parts_PipeCreateError e
  | PipeError_Connect e => parts_PipeConnectError e
  | PipeError_Io e => parts_PipeIoError e
  | PipeError_Timeout e => parts_PipeTimeoutError e
  | PipeError_InvalidState e => parts_PipeInvalidStateError e
  end.
Definition parts_DesktopError (e : DesktopError) : list str :=
  match e with
  | DesktopError_OperationFailed e => parts_DesktopOperationError e
  | DesktopError_WindowNotFound e => parts_WindowNotFoundError e
  end.
Definition parts_SecurityError (e : SecurityError) : list str :=
  match e with
  | SecurityError_SidParse e => parts_SidParseError e
  | SecurityError_PermissionEdit e => parts_PermissionEditError e
  | SecurityError_Unsupported e => parts_SecurityUnsupportedError e
  end.
Definition parts_ProxyError (e : ProxyError) : list str :=
  match e with
  | ProxyError_InvalidConfig e => parts_ProxyConfigError e
  | ProxyError_DiscoveryFailed e => parts_ProxyConfigError e
  | ProxyError_ResolutionFailed e => parts_ProxyResolutionError e
  end.
Definition parts_RegistryError (e : RegistryError) : list str :=
  match e with
  | RegistryError_KeyNotFound e => parts_RegistryKeyNotFoundError e
  | RegistryError_ValueNotFound e => parts_RegistryValueNotFoundError e
  | RegistryError_InvalidType e => parts_RegistryInvalidTypeError e
  | RegistryError_ConversionError e => parts_RegistryConversionError e
  end.
Definition parts_ServiceError (e : ServiceError) : list str :=
  match e with
  | ServiceError_ManagerError e => parts_ServiceManagerError e
  | ServiceError_NotFound e => parts_ServiceNotFoundError e
  | ServiceError_OperationFailed e => parts_ServiceOperationError e
  | ServiceError_InvalidState e => parts_ServiceInvalidStateError e
  end.
Definition parts_ProcessError (e : ProcessError) : list str :=
  match e with
  | ProcessError_NotFound e => parts_ProcessNotFoundError e
  | ProcessError_AlreadyTerminated e => parts_ProcessTerminatedError e
  | ProcessError_OpenFailed e => parts_ProcessOpenError e
  | ProcessError_SpawnFailed e => parts_ProcessSpawnError e
  | ProcessError_InvalidProcessId => []
  | ProcessError_InjectionFailed e => parts_InjectionFailedError e
  | ProcessError_AlreadyInjected e => parts_AlreadyInjectedError e
  end.
Definition parts_ThreadError (e : ThreadError) : list str :=
  match e with
  | ThreadError_NotFound e => parts_ThreadNotFoundError e
  | ThreadError_OpenFailed e => parts_ThreadOpenError e
  end.
Definition parts_EventLogError (e : EventLogError) : list str :=
  match e with
  | EventLogError_LogNotFound e => parts_EventLogNotFoundError e
  | EventLogError_QueryFailed e => parts_EventLogQueryError e
  | EventLogError_ParseFailed e => parts_EventLogParseError e
  end.
Definition parts_EtwError (e : EtwError) : list str :=
  match e with
  | EtwError_SessionStartFailed e => parts_EtwSessionError e
  | EtwError_ProviderEnableFailed e => parts_EtwProviderError e
  | EtwError_ConsumeFailed e => parts_EtwConsumeError e
  end.
Definition parts_MitigationError (e : MitigationError) : list str :=
  match e with
  | MitigationError_ApplyFailed e => parts_MitigationOperationError e
  | MitigationError_QueryFailed e => parts_MitigationOperationError e
  end.
Definition parts_Error (e : Error) : list str :=
  match e with
  | Error_WindowsApi e => parts_WindowsApiError e
  | Error_AccessDenied e => parts_AccessDeniedError e
  | Error_NotFound e => parts_NotFoundError e
  | Error_InvalidParameter e => parts_InvalidParameterError e
  | Error_Registry e => parts_RegistryError e
  | Error_Process e => parts_ProcessError e
  | Error_Service e => parts_ServiceError e
  | Error_Thread e => parts_ThreadError e
  | Error_EventLog e => parts_EventLogError e
  | Error_Etw e => parts_EtwError e
  | Error_Mitigation e => parts_MitigationError e
  | Error_Proxy e => parts_ProxyError e
  | Error_Security e => parts_SecurityError e
  | Error_FileOperation e => parts_FileOperationError e
  | Error_Pipe e => parts_PipeError e
  | Error_Desktop e => parts_DesktopError e
  | Error_Other e => parts_OtherError e
  end.
End Texts.

(** ** What a text contains *)

Definition infix (p s : str) : Prop := exists a b, s = a ++ p ++ b.

Lemma infix_app_l (p a s : str) : infix p s -> infix p (a ++ s).
Proof. intros (x & y & ->). exists (a ++ x), y. by rewrite <- app_assoc. Qed.

Lemma infix_here (p s : str) : infix p (p ++ s).
Proof. by exists [], s. Qed.

(** The placeholders of a format string, in order. *)
Fixpoint holes (fuel : nat) (f : str) : list bool :=
  match fuel with
  | O => []
  | S fuel =>
      match placeholder f with
      | Some (hex, f) => hex :: holes fuel f
      | None => match f with _ :: f => holes fuel f | [] => [] end
      end
  end.

Lemma format_infix_list (fuel : nat) (f : str) (args : list arg) :
  Forall (fun t => infix t (format_list fuel f args)) (zip_with fmt_arg (holes fuel f) args).
Proof.
  revert f args. induction fuel as [|fuel IH]; intros f args; [constructor|]. cbn [format_list holes].
  destruct (placeholder f) as [[hex r]|].
  - destruct args as [|a args]; [constructor|]. cbn [zip_with]. constructor; [apply infix_here|].
    eapply Forall_impl; [apply IH|]. intros t Ht. by apply infix_app_l.
  - destruct f as [|c f]; [constructor|]. eapply Forall_impl; [apply IH|]. intros t Ht. by apply (infix_app_l t [c]).
Qed.

Lemma format_infix (f : string) (args : list arg) (parts : list str) :
  parts ⊆ zip_with fmt_arg (holes (length (lit f)) (lit f)) args -> Forall (fun t => infix t (format f args)) parts.
Proof.
  intros H. apply Forall_forall. intros t Ht.
  by apply (proj1 (Forall_forall _ _) (format_infix_list (length (lit f)) (lit f) args)), H.
Qed.

(** A delegating arm prints the text of the inner error. *)
Lemma format_delegate (s : str) : format "{}" [Text s] = s.
Proof. apply app_nil_r. Qed.

(** One [Display] implementation: every branch prints every field. *)
Ltac every_field :=
  repeat match goal with |- context [match ?x with Some _ => _ | None => _ end] => destruct x eqn:? end;
  apply format_infix;
  match goal with |- context [holes ?n ?f] => let h := eval vm_compute in (holes n f) in change (holes n f) with h end;
  cbn [zip_with fmt_arg from_option option_list app fmap option_fmap option_map];
  intros ? ?; set_solver.

Class Complete {A} (display : A -> str) (parts : A -> list str) : Prop :=
  complete : forall e, Forall (fun t => infix t (display e)) (parts e).

Section Complete.
Context `{!win_text}.

#[export] Instance complete_WindowsApiError : Complete display_WindowsApiError parts_WindowsApiError.
Proof. intros e. unfold display_WindowsApiError, parts_WindowsApiError. every_field. Qed.
#[export] Instance complete_AccessDeniedError : Complete display_AccessDeniedError parts_AccessDeniedError.
Proof. intros e. unfold display_AccessDeniedError, parts_AccessDeniedError. every_field. Qed.
#[export] Instance complete_NotFoundError : Complete display_NotFoundError parts_NotFoundError.
Proof. intros e. unfold display_NotFoundError, parts_NotFoundError. every_field. Qed.
#[export] Instance complete_InvalidParameterError : Complete display_InvalidParameterError parts_InvalidParameterError.
Proof. intros e. unfold display_InvalidParameterError, parts_InvalidParameterError. every_field. Qed.
#[export] Instance complete_FileOperationError : Complete display_FileOperationError parts_FileOperationError.
Proof. intros e. unfold display_FileOperationError, parts_FileOperationError. every_field. Qed.
#[export] Instance complete_PipeCreateError : Complete display_PipeCreateError parts_PipeCreateError.
Proof. intros e. unfold display_PipeCreateError, parts_PipeCreateError. every_field. Qed.
#[export] Instance complete_PipeConnectError : Complete display_PipeConnectError parts_PipeConnectError.
Proof. intros e. unfold display_PipeConnectError, parts_PipeConnectError. every_field. Qed.
#[export] Instance complete_PipeIoError : Complete display_PipeIoError parts_PipeIoError.
Proof. intros e. unfold display_PipeIoError, parts_PipeIoError. every_field. Qed.
#[export] Instance complete_PipeTimeoutError : Complete display_PipeTimeoutError parts_PipeTimeoutError.
Proof. intros e. unfold display_PipeTimeoutError, parts_PipeTimeoutError. every_field. Qed.
#[export] Instance complete_PipeInvalidStateError : Complete display_PipeInvalidStateError parts_PipeInvalidStateError.
Proof. intros e. unfold display_PipeInvalidStateError, parts_PipeInvalidStateError. every_field. Qed.
#[export] Instance complete_OtherError : Complete display_OtherError parts_OtherError.
Proof. intros e. unfold display_OtherError, parts_OtherError. every_field. Qed.
#[export] Instance complete_DesktopOperationError : Complete display_DesktopOperationError parts_DesktopOperationError.
Proof. intros e. unfold display_DesktopOperationError, parts_DesktopOperationError. every_field. Qed.
#[export] Instance complete_WindowNotFoundError : Complete display_WindowNotFoundError parts_WindowNotFoundError.
Proof. intros e. unfold display_WindowNotFoundError, parts_WindowNotFoundError. every_field. Qed.
#[export] Instance complete_SidParseError : Complete display_SidParseError parts_SidParseError.
Proof. intros e. unfold display_SidParseError, parts_SidParseError. every_field. Qed.
#[export] Instance complete_PermissionEditError : Complete display_PermissionEditError parts_PermissionEditError.
Proof. intros e. unfold display_PermissionEditError, parts_PermissionEditError. every_field. Qed.
#[export] Instance complete_SecurityUnsupportedError : Complete display_SecurityUnsupportedError parts_SecurityUnsupportedError.
Proof. intros e. unfold display_SecurityUnsupportedError, parts_SecurityUnsupportedError. every_field. Qed.
#[export] Instance complete_ProxyConfigError : Complete display_ProxyConfigError parts_ProxyConfigError.
Proof. intros e. unfold display_ProxyConfigError, parts_ProxyConfigError. every_field. Qed.
#[export] Instance complete_ProxyResolutionError : Complete display_ProxyResolutionError parts_ProxyResolutionError.
Proof. intros e. unfold display_ProxyResolutionError, parts_ProxyResolutionError. every_field. Qed.
#[export] Instance complete_RegistryKeyNotFoundError : Complete display_RegistryKeyNotFoundError parts_RegistryKeyNotFoundError.
Proof. intros e. unfold display_RegistryKeyNotFoundError, parts_RegistryKeyNotFoundError. every_field. Qed.
#[export] Instance complete_RegistryValueNotFoundError : Complete display_RegistryValueNotFoundError parts_RegistryValueNotFoundError.
Proof. intros e. unfold display_RegistryValueNotFoundError, parts_RegistryValueNotFoundError. every_field. Qed.
#[export] Instance complete_RegistryInvalidTypeError : Complete display_RegistryInvalidTypeError parts_RegistryInvalidTypeError.
Proof. intros e. unfold display_RegistryInvalidTypeError, parts_RegistryInvalidTypeError. every_field. Qed.
#[export] Instance complete_RegistryConversionError : Complete display_RegistryConversionError parts_RegistryConversionError.
Proof. intros e. unfold display_RegistryConversionError, parts_RegistryConversionError. every_field. Qed.
#[export] Instance complete_ServiceManagerError : Complete display_ServiceManagerError parts_ServiceManagerError.
Proof. intros e. unfold display_ServiceManagerError, parts_ServiceManagerError. every_field. Qed.
#[export] Instance complete_ServiceNotFoundError : Complete display_ServiceNotFoundError parts_ServiceNotFoundError.
Proof. intros e. unfold display_ServiceNotFoundError, parts_ServiceNotFoundError. every_field. Qed.
#[export] Instance complete_ServiceOperationError : Complete display_ServiceOperationError parts_ServiceOperationError.
Proof. intros e. unfold display_ServiceOperationError, parts_ServiceOperationError. every_field. Qed.
#[export] Instance complete_ServiceInvalidStateError : Complete display_ServiceInvalidStateError parts_ServiceInvalidStateError.
Proof. intros e. unfold display_ServiceInvalidStateError, parts_ServiceInvalidStateError. every_field. Qed.
#[export] Instance complete_ProcessNotFoundError : Complete display_ProcessNotFoundError parts_ProcessNotFoundError.
Proof. intros e. unfold display_ProcessNotFoundError, parts_ProcessNotFoundError. every_field. Qed.
#[export] Instance complete_ProcessTerminatedError : Complete display_ProcessTerminatedError parts_ProcessTerminatedError.
Proof. intros e. unfold display_ProcessTerminatedError, parts_ProcessTerminatedError. every_field. Qed.
#[export] Instance complete_ProcessOpenError : Complete display_ProcessOpenError parts_ProcessOpenError.
Proof. intros e. unfold display_ProcessOpenError, parts_ProcessOpenError. every_field. Qed.
#[export] Instance complete_ProcessSpawnError : Complete display_ProcessSpawnError parts_ProcessSpawnError.
Proof. intros e. unfold display_ProcessSpawnError, parts_ProcessSpawnError. every_field. Qed.
#[export] Instance complete_InjectionFailedError : Complete display_InjectionFailedError parts_InjectionFailedError.
Proof. intros e. unfold display_InjectionFailedError, parts_InjectionFailedError. every_field. Qed.
#[export] Instance complete_AlreadyInjectedError : Complete display_AlreadyInjectedError parts_AlreadyInjectedError.
Proof. intros e. unfold display_AlreadyInjectedError, parts_AlreadyInjectedError. every_field. Qed.
#[export] Instance complete_ThreadNotFoundError : Complete display_ThreadNotFoundError parts_ThreadNotFoundError.
Proof. intros e. unfold display_ThreadNotFoundError, parts_ThreadNotFoundError. every_field. Qed.
#[export] Instance complete_ThreadOpenError : Complete display_ThreadOpenError parts_ThreadOpenError.
Proof. intros e. unfold display_ThreadOpenError, parts_ThreadOpenError. every_field. Qed.
#[export] Instance complete_EventLogNotFoundError : Complete display_EventLogNotFoundError parts_EventLogNotFoundError.
Proof. intros e. unfold display_EventLogNotFoundError, parts_EventLogNotFoundError. every_field. Qed.
#[export] Instance complete_EventLogQueryError : Complete display_EventLogQueryError parts_EventLogQueryError.
Proof. intros e. unfold display_EventLogQueryError, parts_EventLogQueryError. every_field. Qed.
#[export] Instance complete_EventLogParseError : Complete display_EventLogParseError parts_EventLogParseError.
Proof. intros e. unfold display_EventLogParseError, parts_EventLogParseError. every_field. Qed.
#[export] Instance complete_EtwSessionError : Complete display_EtwSessionError parts_EtwSessionError.
Proof. intros e. unfold display_EtwSessionError, parts_EtwSessionError. every_field. Qed.
#[export] Instance complete_EtwProviderError : Complete display_EtwProviderError parts_EtwProviderError.
Proof. intros e. unfold display_EtwProviderError, parts_EtwProviderError. every_field. Qed.
#[export] Instance complete_EtwConsumeError : Complete display_EtwConsumeError parts_EtwConsumeError.
Proof. intros e. unfold display_EtwConsumeError, parts_EtwConsumeError. every_field. Qed.
#[export] Instance complete_MitigationOperationError : Complete display_MitigationOperationError parts_MitigationOperationError.
Proof. intros e. unfold display_MitigationOperationError, parts_MitigationOperationError. every_field. Qed.
#[export] Instance complete_PipeError : Complete display_PipeError parts_PipeError.
Proof. intros []; cbn [display_PipeError parts_PipeError]; rewrite ?format_delegate; (apply complete || constructor). Qed.
#[export] Instance complete_DesktopError : Complete display_DesktopError parts_DesktopError.
Proof. intros []; cbn [display_DesktopError parts_DesktopError]; rewrite ?format_delegate; (apply complete || constructor). Qed.
#[export] Instance complete_SecurityError : Complete display_SecurityError parts_SecurityError.
Proof. intros []; cbn [display_SecurityError parts_SecurityError]; rewrite ?format_delegate; (apply complete || constructor). Qed.
#[export] Instance complete_ProxyError : Complete display_ProxyError parts_ProxyError.
Proof. intros []; cbn [display_ProxyError parts_ProxyError]; rewrite ?format_delegate; (apply complete || constructor). Qed.
#[export] Instance complete_RegistryError : Complete display_RegistryError parts_RegistryError.
Proof. intros []; cbn [display_RegistryError parts_RegistryError]; rewrite ?format_delegate; (apply complete || constructor). Qed.
#[export] Instance complete_ServiceError : Complete display_ServiceError parts_ServiceError.
Proof. intros []; cbn [display_ServiceError parts_ServiceError]; rewrite ?format_delegate; (apply complete || constructor). Qed.
#[export] Instance complete_ProcessError : Complete display_ProcessError parts_ProcessError.
Proof. intros []; cbn [display_ProcessError parts_ProcessError]; rewrite ?format_delegate; (apply complete || constructor). Qed.
#[export] Instance complete_ThreadError : Complete display_ThreadError parts_ThreadError.
Proof. intros []; cbn [display_ThreadError parts_ThreadError]; rewrite ?format_delegate; (apply complete || constructor). Qed.
#[export] Instance complete_EventLogError : Complete display_EventLogError parts_EventLogError.
Proof. intros []; cbn [display_EventLogError parts_EventLogError]; rewrite ?format_delegate; (apply complete || constructor). Qed.
#[export] Instance complete_EtwError : Complete display_EtwError parts_EtwError.
Proof. intros []; cbn [display_EtwError parts_EtwError]; rewrite ?format_delegate; (apply complete || constructor). Qed.
#[export] Instance complete_MitigationError : Complete display_MitigationError parts_MitigationError.
Proof. intros []; cbn [display_MitigationError parts_MitigationError]; rewrite ?format_delegate; (apply complete || constructor). Qed.
#[export] Instance complete_Error : Complete display_Error parts_Error.
Proof. intros []; cbn [display_Error parts_Error]; rewrite ?format_delegate; (apply complete || constructor). Qed.
End Complete.

(** ** Codes are read back *)

Lemma value_leading_zeros (n : nat) (ds : list Z) : value 16 (replicate n 0 ++ ds) = value 16 ds.
Proof. unfold value. rewrite fold_left_app. f_equal. induction n as [|n IH]; [done|]. exact IH. Qed.

Lemma digits_rev_length (k : nat) (fuel : nat) (n : Z) :
  0 <= n < 16 ^ Z.of_nat k -> (0 < k)%nat -> (length (digits_rev 16 fuel n) <= k)%nat.
Proof.
  revert k n. induction fuel as [|fuel IH]; intros k n Hn Hk; [cbn; lia|]. cbn [digits_rev].
  destruct (Z.ltb_spec n 16); [cbn; lia|]. destruct k as [|[|k]]; [lia|cbn in Hn; lia|].
  cbn [length]. specialize (IH (S k) (n / 16)). rewrite Nat2Z.inj_succ, Z.pow_succ_r in Hn by lia.
  enough (length (digits_rev 16 fuel (n / 16)) <= S k)%nat by lia.
  apply IH; [|lia]. split; [apply Z.div_pos; lia|apply Z.div_lt_upper_bound; lia].
Qed.

Lemma hex_pad_length (n : Z) : 0 <= n < 2 ^ 32 -> length (fmt_hex_pad 8 n) = 8%nat.
Proof.
  intros Hn. unfold fmt_hex_pad, fmt_hex, digits. rewrite length_app, length_replicate, length_fmap, length_reverse.
  pose proof (digits_rev_length 8 (S (Z.to_nat (Z.log2 n))) n ltac:(cbn in *; lia) ltac:(lia)). lia.
Qed.

Lemma hex_pad_read (n : Z) : 0 <= n < 2 ^ 32 -> parse_uint 16 u32_max (fmt_hex_pad 8 n) = Some n.
Proof.
  intros Hn. unfold fmt_hex_pad.
  replace (replicate _ 48 ++ fmt_hex n) with (digit_char <$> (replicate (8 - length (fmt_hex n)) 0 ++ digits 16 n))
    by (by rewrite fmap_app, fmap_replicate).
  assert (Hv : value 16 (replicate (8 - length (fmt_hex n)) 0 ++ digits 16 n) = n)
    by (rewrite value_leading_zeros; apply digits_value; lia).
  rewrite parse_digits; [by rewrite Hv|lia| |apply Forall_app; split|lia].
  - intros H. apply app_nil in H as [_ H]. by apply (digits_nonempty 16 n).
  - apply Forall_replicate. lia.
  - apply digits_range; lia.
Qed.

(** Nothing an error records is lost in its text: the text of every
    error of the crate contains every field of the error, the optional ones
    when they are present (reasons, contexts and names as they are, process
    and thread identifiers in decimal, codes as eight hexadecimal digits), and
    from those digits the signed 32-bit code is read back. *)
Theorem error_text_complete `{!win_text} (e : Error) :
  Forall (fun t => infix t (display_Error e)) (parts_Error e) /\
  (forall c, -2 ^ 31 <= c < 2 ^ 31 ->
     length (fmt_hex_pad 8 (wrap 32 c)) = 8%nat /\
     exists u, parse_uint 16 u32_max (fmt_hex_pad 8 (wrap 32 c)) = Some u /\
               c = (if u <? 2 ^ 31 then u else u - 2 ^ 32)).
Proof.
  split; [apply complete|]. intros c Hc.
  assert (Hw : 0 <= wrap 32 c < 2 ^ 32) by (unfold wrap; apply Z.mod_pos_bound; lia).
  split; [by apply hex_pad_length|]. exists (wrap 32 c). split; [by apply hex_pad_read|]. unfold wrap in *.
  destruct (Z.leb_spec 0 c); [rewrite Z.mod_small by lia|rewrite <- (Z_mod_plus_full c 1), Z.mod_small by lia];
    match goal with |- context [?u <? 2 ^ 31] => destruct (Z.ltb_spec u (2 ^ 31)) end; lia.
Qed.

Definition demo_mitigation : Error := Error_Mitigation (MitigationError_ApplyFailed
  (MitigationOperationError_with_code (MitigationOperationError_with_reason (MitigationOperationError_with_process_id
    (MitigationOperationError_new (lit "apply") (lit "dynamic_code")) 1234) (lit "Access denied")) (-2147024891))).

Lemma error_text_complete_witness (t := {| win_display := fun _ => [] |}) :
  display_Error demo_mitigation = lit
    "Mitigation apply failed for policy 'dynamic_code' on process 1234: Access denied (error code: 0x80070005)" /\
  infix (lit "80070005") (display_Error demo_mitigation) /\
  exists u, parse_uint 16 u32_max (lit "80070005") = Some u /\ -2147024891 = (if u <? 2 ^ 31 then u else u - 2 ^ 32).
Proof.
  destruct (error_text_complete demo_mitigation) as [Hp Hc]. split; [reflexivity|]. split.
  - apply (proj1 (Forall_forall _ _) Hp). vm_compute. repeat constructor.
  - exact (proj2 (Hc (-2147024891) ltac:(lia))).
Defined.
