(* ===== verification/Sid.v ===== *)
(** * Sid: security identifiers (src/security/sid.rs)

    The [Sid] type keeps a binary form and a string form side by side.  The
    file models both parsers, the SDDL alias tables and the account lookup,
    and proves that the two forms determine each other. *)

From Stdlib Require Import ZArith Lia String Ascii.
From stdpp Require Import base list strings gmap numbers sorting.
From S2P Require Import Prelude Text Unicode Errors.

Open Scope Z_scope.

(** ** Data *)

Record Sid := mkSid { sid_raw : list Z; sid_string : str }.

#[export] Instance Sid_eq_dec : EqDecision Sid.
Proof. solve_decision. Defined.

(** [Error::Security(SecurityError::SidParse(SidParseError::new(..)))]. *)
Definition sid_error (input : str) (reason : string) : Error :=
  Error_Security (SecurityError_SidParse (mkSidParseError input (lit reason))).

(** ** String to binary *)

Fixpoint push_sub_authorities (value : str) (parts : list str) (out : list Z)
    : res Error (list Z) :=
  match parts with
  | [] => Ok out
  | part :: parts =>
      let! sub := ok_or (parse_u32 part) (sid_error value "invalid sub-authority value") in
      push_sub_authorities value parts (out ++ le_encode 4 sub)
  end.

Definition sid_string_to_bytes (value : str) : res Error (list Z) :=
  match split_on 45 value with
  | p0 :: p1 :: p2 :: rest =>
      if negb (eq_ignore_ascii_case p0 (lit "S"))
      then Err (sid_error value "expected SID format S-Revision-IdentifierAuthority-SubAuthority...")
      else
        let! revision := ok_or (parse_u8 p1) (sid_error value "invalid SID revision") in
        let! identifier_authority :=
          ok_or (parse_u64 p2) (sid_error value "invalid identifier authority") in
        if 0x0000FFFFFFFF <? identifier_authority
        then Err (sid_error value "identifier authority must fit in 48 bits")
        else if u8_max <? zlen rest
        then Err (sid_error value "too many sub-authorities")
        else push_sub_authorities value rest
               ([revision; zlen rest] ++ drop 2 (be_encode 8 identifier_authority))
  | _ => Err (sid_error value "expected SID format S-Revision-IdentifierAuthority-SubAuthority...")
  end.

(** ** Binary to string *)

Fixpoint write_sub_authorities (count : nat) (sid : list Z) (start : nat) (id : str)
    : option (str * nat) :=
  match count with
  | O => Some (id, start)
  | S count =>
      if (length sid <? start + 4)%nat then None
      else let authority := le_decode (take 4 (drop start sid)) in
           write_sub_authorities count sid (start + 4) (id ++ lit "-" ++ fmt_dec authority)
  end.

Definition sid_to_string_with_size (sid : list Z) : option (str * nat) :=
  match sid with
  | s0 :: s1 :: s2 :: s3 :: s4 :: s5 :: s6 :: s7 :: _ =>
      let subauthority_count := Z.to_nat s1 in
      let identifier_authority :=
        Z.lor (Z.shiftl (be_decode [s2; s3]) 32) (be_decode [s4; s5; s6; s7]) in
      write_sub_authorities subauthority_count sid 8
        (lit "S-" ++ fmt_dec s0 ++ lit "-" ++ fmt_dec identifier_authority)
  | _ => None
  end.

(** ** [impl Sid] *)

Definition from_bytes (data : list Z) : res Error Sid :=
  let! r := ok_or (sid_to_string_with_size data)
              (sid_error (lit "binary_sid") "SID data is malformed or truncated") in
  let '(sid_text, consumed) := r in
  if negb (consumed =? length data)%nat
  then Err (sid_error (lit "binary_sid") "SID buffer contains trailing bytes")
  else Ok (mkSid data sid_text).

Definition parse (value : str) : res Error Sid :=
  let! raw := sid_string_to_bytes value in
  Ok (mkSid raw value).

Fixpoint assoc (k : str) (t : list (str * str)) : option str :=
  match t with
  | [] => None
  | (a, b) :: t => if decide (k = a) then Some b else assoc k t
  end.

Definition lit2 (p : string * string) : str * str := (lit (fst p), lit (snd p)).

Definition alias_to_sid_table : list (str * str) := lit2 <$>
  [("SY", "S-1-5-18"); ("BA", "S-1-5-32-544"); ("BU", "S-1-5-32-545");
   ("BG", "S-1-5-32-546"); ("PU", "S-1-5-32-547"); ("AO", "S-1-5-32-548");
   ("SO", "S-1-5-32-549"); ("PO", "S-1-5-32-550"); ("BO", "S-1-5-32-551");
   ("RE", "S-1-5-32-552"); ("WD", "S-1-1-0"); ("AU", "S-1-5-11");
   ("AN", "S-1-5-7"); ("NU", "S-1-5-2"); ("IU", "S-1-5-4"); ("SU", "S-1-5-6");
   ("LS", "S-1-5-19"); ("NS", "S-1-5-20"); ("CO", "S-1-3-0"); ("CG", "S-1-3-1");
   ("OW", "S-1-3-4"); ("AC", "S-1-15-2-1"); ("S-1-5-80-0", "S-1-5-80-0")]%string.

Definition sid_to_alias_table : list (str * str) := lit2 <$>
  [("S-1-5-18", "SY"); ("S-1-5-32-544", "BA"); ("S-1-5-32-545", "BU");
   ("S-1-5-32-546", "BG"); ("S-1-5-32-547", "PU"); ("S-1-5-32-548", "AO");
   ("S-1-5-32-549", "SO"); ("S-1-5-32-550", "PO"); ("S-1-5-32-551", "BO");
   ("S-1-5-32-552", "RE"); ("S-1-1-0", "WD"); ("S-1-5-11", "AU");
   ("S-1-5-7", "AN"); ("S-1-5-2", "NU"); ("S-1-5-4", "IU"); ("S-1-5-6", "SU");
   ("S-1-5-19", "LS"); ("S-1-5-20", "NS"); ("S-1-3-0", "CO"); ("S-1-3-1", "CG");
   ("S-1-3-4", "OW"); ("S-1-15-2-1", "AC")]%string.

Definition sddl_alias_to_sid (value : str) : option str := assoc value alias_to_sid_table.
Definition sid_to_sddl_alias (value : str) : option str := assoc value sid_to_alias_table.

Definition from_sddl_trustee (value : str) : res Error Sid :=
  if starts_with (lit "S-") value then parse value
  else
    let! sid_text := ok_or (sddl_alias_to_sid value)
                       (sid_error value "unrecognized SDDL trustee alias") in
    parse sid_text.

Definition as_str (s : Sid) : str := sid_string s.
Definition as_bytes (s : Sid) : list Z := sid_raw s.
Definition to_sddl_alias (s : Sid) : option str := sid_to_sddl_alias (as_str s).
Definition eq_case_insensitive (s : Sid) (other : str) : bool :=
  eq_ignore_ascii_case (sid_string s) other.

(** ** Accounts *)

Inductive AccountKind :=
  | User | Group | Domain | Alias | WellKnownGroup | DeletedAccount | Invalid
  | Unknown | Computer | Label | LogonSession.

Definition account_kind_from_raw (value : Z) : AccountKind :=
  match value with
  | 1 => User | 2 => Group | 3 => Domain | 4 => Alias | 5 => WellKnownGroup
  | 6 => DeletedAccount | 7 => Invalid | 9 => Computer | 10 => Label
  | 11 => LogonSession | _ => Unknown
  end.

Record Account := mkAccount { domain : str; name : str; kind : AccountKind }.

Definition account_display (a : Account) : str :=
  if decide (domain a = []) then name a else domain a ++ lit "\" ++ name a.

Section LookupAccount.
(** [LookupAccountSidW]: the SID, the capacities of the two buffers (in
    code units; [0] with a null buffer), and what the call leaves behind:
    its error if it failed, the two lengths, the kind, and the buffers. *)
Record lookup_reply := mk_lookup_reply {
  lr_error : option win_error;
  lr_name_len : Z;
  lr_domain_len : Z;
  lr_kind : Z;
  lr_name : list Z;
  lr_domain : list Z }.
Context (LookupAccountSidW : list Z -> Z -> Z -> lookup_reply).

(** [HRESULT_FROM_WIN32] of codes 1332 and 122. *)
Definition none_mapped_hresult : Z := 0x80070534 - 2 ^ 32.
Definition insufficient_buffer_hresult : Z := 0x8007007A - 2 ^ 32.

Definition lookup_error (e : win_error) : Error :=
  Error_WindowsApi (mkWindowsApiError e (Some (lit "LookupAccountSidW"))).

(** [&buffer[..(len as usize).min(buffer.len())]] as text. *)
Definition lookup_text (buffer : list Z) (len : Z) : str :=
  from_utf16_lossy (take (Nat.min (Z.to_nat len) (length buffer)) buffer).

Definition lookup_account_fetch (s : Sid) (sizing : lookup_reply) : res Error (option Account) :=
  let lookup := LookupAccountSidW (sid_raw s) (lr_name_len sizing) (lr_domain_len sizing) in
  match lr_error lookup with
  | Some e =>
      if win_error_code e =? none_mapped_hresult then Ok None else Err (lookup_error e)
  | None =>
      Ok (Some (mkAccount (lookup_text (lr_domain lookup) (lr_domain_len lookup))
                          (lookup_text (lr_name lookup) (lr_name_len lookup))
                          (account_kind_from_raw (lr_kind lookup))))
  end.

Definition lookup_account (s : Sid) : res Error (option Account) :=
  let sizing := LookupAccountSidW (sid_raw s) 0 0 in
  match lr_error sizing with
  | Some e =>
      if win_error_code e =? none_mapped_hresult then Ok None
      else if negb (win_error_code e =? insufficient_buffer_hresult) then Err (lookup_error e)
      else lookup_account_fetch s sizing
  | None => lookup_account_fetch s sizing
  end.
End LookupAccount.

(** ** The two forms of a SID

    A SID is a revision, a 48-bit authority and at most 255 32-bit
    sub-authorities.  [sid_text] and [sid_bytes] are its canonical string
    and its binary form. *)

Record sid_parts := mk_sid_parts { sp_rev : Z; sp_auth : Z; sp_subs : list Z }.

Definition sid_parts_ok (p : sid_parts) : Prop :=
  0 <= sp_rev p <= u8_max /\ 0 <= sp_auth p <= 0xFFFFFFFF /\
  zlen (sp_subs p) <= u8_max /\ Forall (fun x => 0 <= x <= u32_max) (sp_subs p).

(** The binary form allows the full 48 bits of the authority. *)
Definition sid_parts_ok48 (p : sid_parts) : Prop :=
  0 <= sp_rev p <= u8_max /\ 0 <= sp_auth p < 2 ^ 48 /\
  zlen (sp_subs p) <= u8_max /\ Forall (fun x => 0 <= x <= u32_max) (sp_subs p).

Definition sid_fields (p : sid_parts) : list str :=
  lit "S" :: fmt_dec (sp_rev p) :: fmt_dec (sp_auth p) :: (fmt_dec <$> sp_subs p).
Definition sid_text (p : sid_parts) : str := join (lit "-") (sid_fields p).
Definition sid_bytes (p : sid_parts) : list Z :=
  sp_rev p :: zlen (sp_subs p) :: be_encode 6 (sp_auth p) ++ mjoin (le_encode 4 <$> sp_subs p).

Lemma fmt_dec_chars n : 0 <= n -> Forall (fun c => 48 <= c <= 57) (fmt_dec n).
Proof.
  intros Hn. unfold fmt_dec. apply Forall_fmap. eapply Forall_impl; [apply digits_range; lia|].
  intros d Hd. cbn in Hd |- *. unfold digit_char. replace (d <? 10) with true by lia. lia.
Qed.

Lemma fmt_dec_lacks c n : 0 <= n -> c < 48 \/ 57 < c -> lacks c (fmt_dec n).
Proof.
  intros Hn Hc. eapply Forall_impl; [by apply fmt_dec_chars|]. intros x Hx. simpl in *. lia.
Qed.

Lemma sid_fields_lack p :
  sid_parts_ok48 p -> Forall (lacks 45) (sid_fields p).
Proof.
  intros (Hr & Ha & _ & Hs). repeat constructor; try (by apply fmt_dec_lacks; lia).
  - done.
  - apply Forall_fmap. eapply Forall_impl; [exact Hs|].
    intros x Hx. cbn in *. apply fmt_dec_lacks; lia.
Qed.

Lemma sid_parts_ok_48 p : sid_parts_ok p -> sid_parts_ok48 p.
Proof. intros (? & ? & ? & ?). repeat split; try done; lia. Qed.

Lemma drop_be_encode a : drop 2 (be_encode 8 a) = be_encode 6 a.
Proof. done. Qed.

Lemma push_subs_fmt value subs out :
  Forall (fun x => 0 <= x <= u32_max) subs ->
  push_sub_authorities value (fmt_dec <$> subs) out = Ok (out ++ mjoin (le_encode 4 <$> subs)).
Proof.
  intros H. revert out. induction H as [|x subs Hx _ IH]; intros out; cbn [fmap list_fmap push_sub_authorities].
  - by rewrite app_nil_r.
  - unfold parse_u32. rewrite parse_fmt_dec by done. cbn [ok_or res_bind]. rewrite IH.
    rewrite <- app_assoc. done.
Qed.

(** The string parser inverts [sid_text], except that it rejects an
    authority above 32 bits. *)
Lemma sid_string_to_bytes_text p :
  sid_parts_ok48 p ->
  sid_string_to_bytes (sid_text p) =
    if sp_auth p <=? 0xFFFFFFFF then Ok (sid_bytes p)
    else Err (sid_error (sid_text p) "identifier authority must fit in 48 bits").
Proof.
  intros Hp. pose proof Hp as (Hr & Ha & Hl & Hs). unfold sid_string_to_bytes.
  unfold sid_text at 1. change (lit "-") with [45].
  rewrite split_on_join by (done || by apply sid_fields_lack). unfold sid_fields.
  change (eq_ignore_ascii_case (lit "S") (lit "S")) with true. cbn [negb].
  unfold parse_u8, parse_u64. rewrite !parse_fmt_dec by lia. cbn [ok_or res_bind].
  change 0x0000FFFFFFFF with 0xFFFFFFFF. unfold zlen. rewrite length_fmap. fold (zlen (sp_subs p)).
  destruct (sp_auth p <=? 0xFFFFFFFF) eqn:E.
  - replace (0xFFFFFFFF <? sp_auth p) with false by lia.
    replace (255 <? zlen (sp_subs p)) with false by lia.
    rewrite push_subs_fmt by done. by rewrite drop_be_encode.
  - by replace (0xFFFFFFFF <? sp_auth p) with true by lia.
Qed.

Lemma push_subs_inv value parts out bs :
  push_sub_authorities value parts out = Ok bs ->
  exists subs, Forall (fun x => 0 <= x <= u32_max) subs /\ length subs = length parts /\
    bs = out ++ mjoin (le_encode 4 <$> subs).
Proof.
  revert out; induction parts as [|part parts IH]; intros out H; cbn [push_sub_authorities] in H.
  - injection H as <-. exists []. repeat split; [constructor|by rewrite app_nil_r].
  - apply res_bind_ok in H as (sub & Hsub & H).
    destruct (parse_u32 part) as [x|] eqn:E; [|done]. injection Hsub as <-.
    apply IH in H as (subs & Hs & Hl & ->). exists (x :: subs). repeat split.
    + constructor; [|done]. by eapply parse_uint_range in E.
    + simpl. by rewrite Hl.
    + rewrite <- app_assoc. done.
Qed.

(** Whatever the string parser accepts is the binary form of a SID. *)
Lemma sid_string_to_bytes_inv value bs :
  sid_string_to_bytes value = Ok bs -> exists p, sid_parts_ok p /\ bs = sid_bytes p.
Proof.
  unfold sid_string_to_bytes. intros H.
  destruct (split_on 45 value) as [|p0 [|p1 [|p2 rest]]]; try done.
  destruct (negb _); [done|].
  apply res_bind_ok in H as (r & Hr & H). destruct (parse_u8 p1) as [r'|] eqn:Er; [|done].
  injection Hr as ->. apply res_bind_ok in H as (a & Ha & H).
  destruct (parse_u64 p2) as [a'|] eqn:Ea; [|done]. injection Ha as ->.
  destruct (_ <? a) eqn:Ea2; [done|]. destruct (_ <? zlen rest) eqn:El; [done|].
  apply push_subs_inv in H as (subs & Hs & Hl & ->).
  exists (mk_sid_parts r a subs).
  apply parse_uint_range in Er; [|lia..]. apply parse_uint_range in Ea; [|lia..].
  split; [|unfold sid_bytes, zlen; cbn [sp_rev sp_auth sp_subs]; by rewrite Hl, drop_be_encode].
  repeat split; cbn [sp_rev sp_auth sp_subs]; try done; unfold zlen in *; lia.
Qed.

Lemma authority_lor s2 s3 s4 s5 s6 s7 :
  bytes_ok [s2; s3; s4; s5; s6; s7] ->
  Z.lor (Z.shiftl (be_decode [s2; s3]) 32) (be_decode [s4; s5; s6; s7]) =
  be_decode [s2; s3; s4; s5; s6; s7].
Proof.
  intros H. repeat (apply Forall_cons in H as [? H]). unfold is_byte in *.
  rewrite lor_shift_add; unfold be_decode; cbn; lia.
Qed.

Definition sub_suffix (subs : list Z) : str := mjoin ((fun x => lit "-" ++ fmt_dec x) <$> subs).

Lemma join_suffix sep a ps : join sep (a :: ps) = a ++ mjoin ((fun x => sep ++ x) <$> ps).
Proof.
  revert a; induction ps as [|b ps IH]; intros a; [by rewrite app_nil_r|].
  change (join sep (a :: b :: ps)) with (a ++ sep ++ join sep (b :: ps)). rewrite IH.
  cbn. by rewrite <- app_assoc.
Qed.

Lemma sid_text_suffix p :
  sid_text p =
  (lit "S-" ++ fmt_dec (sp_rev p) ++ lit "-" ++ fmt_dec (sp_auth p)) ++ sub_suffix (sp_subs p).
Proof.
  unfold sid_text, sid_fields, sub_suffix. rewrite join_suffix. cbn [fmap list_fmap].
  rewrite <- list_fmap_compose. cbn. rewrite <- !app_assoc. done.
Qed.

(** One pass over the sub-authorities: it reads [count] little-endian
    words and needs them all to be there. *)
Lemma write_subs_spec count sid start id :
  bytes_ok sid -> (start <= length sid)%nat ->
  match write_sub_authorities count sid start id with
  | Some (t, stop) =>
      exists subs, length subs = count /\ Forall (fun x => 0 <= x <= u32_max) subs /\
        stop = (start + 4 * count)%nat /\ (stop <= length sid)%nat /\
        take stop sid = take start sid ++ mjoin (le_encode 4 <$> subs) /\
        t = id ++ sub_suffix subs
  | None => (length sid < start + 4 * count)%nat
  end.
Proof.
  intros Hb. revert start id.
  induction count as [|count IH]; intros start id Hle; cbn [write_sub_authorities].
  { exists []. cbn. rewrite !app_nil_r. repeat split; auto; lia. }
  destruct (length sid <? start + 4)%nat eqn:E; [apply Nat.ltb_lt in E; lia|].
  apply Nat.ltb_ge in E. set (w := take 4 (drop start sid)).
  assert (length w = 4%nat) as Hw by (unfold w; rewrite length_take, length_drop; lia).
  assert (bytes_ok w) as Hwb by (unfold w; by apply Forall_take, Forall_drop).
  specialize (IH (start + 4)%nat (id ++ lit "-" ++ fmt_dec (le_decode w)) ltac:(lia)).
  destruct (write_sub_authorities _ _ _ _) as [[t stop]|]; [|lia].
  destruct IH as (subs & Hl & Hs & Hst & Hle' & Htk & ->).
  exists (le_decode w :: subs). repeat split; try lia.
  - cbn. by rewrite Hl.
  - constructor; [|done]. pose proof (le_decode_bound w Hwb). rewrite Hw in *. cbn in *. lia.
  - rewrite Htk. cbn [fmap list_fmap].
    change (mjoin (le_encode 4 (le_decode w) :: (le_encode 4 <$> subs)))
      with (le_encode 4 (le_decode w) ++ mjoin (le_encode 4 <$> subs)).
    pose proof (le_encode_decode w Hwb) as Hr. rewrite Hw in Hr. rewrite Hr.
    rewrite app_assoc. f_equal.
    unfold w. by rewrite take_take_drop.
  - unfold sub_suffix. cbn. by rewrite <- !app_assoc.
Qed.

Lemma bytes_ok_mjoin (bss : list (list Z)) : Forall bytes_ok bss -> bytes_ok (mjoin bss).
Proof. induction 1; [constructor|]. apply Forall_app. done. Qed.

Lemma sid_bytes_ok p : sid_parts_ok48 p -> bytes_ok (sid_bytes p).
Proof.
  intros (Hr & Ha & Hl & Hs). unfold sid_bytes.
  constructor; [unfold is_byte; lia|]. constructor; [unfold is_byte, zlen in *; lia|].
  apply Forall_app. split; [apply bytes_ok_be_encode|]. apply bytes_ok_mjoin.
  apply Forall_fmap, Forall_true. intros. apply bytes_ok_le_encode.
Qed.

Lemma length_sid_subs subs : length (mjoin (le_encode 4 <$> subs)) = (4 * length subs)%nat.
Proof.
  induction subs as [|x subs IH]; [done|].
  change (length (le_encode 4 x ++ mjoin (le_encode 4 <$> subs)) = 4 * S (length subs))%nat.
  rewrite length_app, IH, length_le_encode. lia.
Qed.

Lemma le_encode4_inj_list xs ys :
  Forall (fun x => 0 <= x <= u32_max) xs -> Forall (fun x => 0 <= x <= u32_max) ys ->
  length xs = length ys ->
  mjoin (le_encode 4 <$> xs) = mjoin (le_encode 4 <$> ys) -> xs = ys.
Proof.
  intros Hx. revert ys. induction Hx as [|x xs Hx _ IH]; intros ys Hy Hl H.
  - by destruct ys.
  - destruct ys as [|y ys]; [done|]. apply Forall_cons in Hy as [Hy Hys].
    change (le_encode 4 x ++ mjoin (le_encode 4 <$> xs) =
            le_encode 4 y ++ mjoin (le_encode 4 <$> ys)) in H.
    apply app_inj_1 in H as [H1 H2]; [|by rewrite !length_le_encode].
    f_equal; [|apply IH; auto].
    apply (f_equal le_decode) in H1. rewrite !le_decode_encode in H1; cbn; lia.
Qed.

(** The binary parser on the binary form of a SID. *)
Lemma sid_to_string_bytes p :
  sid_parts_ok48 p ->
  sid_to_string_with_size (sid_bytes p) = Some (sid_text p, length (sid_bytes p)).
Proof.
  intros Hp. pose proof (sid_bytes_ok p Hp) as Hb. pose proof Hp as (Hr & Ha & Hl & Hs).
  pose proof (length_be_encode 6 (sp_auth p)) as H6.
  pose proof (bytes_ok_be_encode 6 (sp_auth p)) as Hb6.
  pose proof (be_decode_encode 6 (sp_auth p) ltac:(cbn in *; lia)) as Hd6.
  unfold sid_bytes in Hb |- *.
  destruct (be_encode 6 (sp_auth p)) as [|s2 [|s3 [|s4 [|s5 [|s6 [|s7 [|]]]]]]]; try done.
  cbn [app] in *. unfold sid_to_string_with_size. rewrite authority_lor, Hd6 by done.
  set (sid := sp_rev p :: _) in *.
  pose proof (write_subs_spec (Z.to_nat (zlen (sp_subs p))) sid 8
    (lit "S-" ++ fmt_dec (sp_rev p) ++ lit "-" ++ fmt_dec (sp_auth p)) Hb) as Hw.
  assert (length sid = 8 + 4 * length (sp_subs p))%nat as Hlen.
  { unfold sid. cbn [length]. rewrite length_sid_subs. lia. }
  unfold zlen in *. rewrite Nat2Z.id in *. specialize (Hw ltac:(lia)).
  destruct (write_sub_authorities _ _ _ _) as [[t stop]|]; [|lia].
  destruct Hw as (subs & Hls & Hss & Hst & Hle & Htk & ->).
  rewrite firstn_all2 in Htk by lia. unfold sid in Htk. cbn [take app] in Htk.
  injection Htk as Htk. apply le_encode4_inj_list in Htk; [|done..].
  subst subs. rewrite <- sid_text_suffix. do 2 f_equal. lia.
Qed.

(** Whatever the binary parser accepts in full is such a form. *)
Lemma sid_to_string_inv data t :
  bytes_ok data -> sid_to_string_with_size data = Some (t, length data) ->
  exists p, sid_parts_ok48 p /\ data = sid_bytes p /\ t = sid_text p.
Proof.
  intros Hb H. destruct data as [|s0 [|s1 [|s2 [|s3 [|s4 [|s5 [|s6 [|s7 rest]]]]]]]]; try done.
  unfold sid_to_string_with_size in H.
  assert (bytes_ok [s2; s3; s4; s5; s6; s7] /\ is_byte s0 /\ is_byte s1) as (Hb6 & H0 & H1).
  { repeat (apply Forall_cons in Hb as [? Hb]). split; [solve_bytes|done]. }
  unfold is_byte in *. rewrite authority_lor in H by done.
  set (auth := be_decode [s2; s3; s4; s5; s6; s7]) in *.
  set (sid := s0 :: _) in *.
  pose proof (write_subs_spec (Z.to_nat s1) sid 8
    (lit "S-" ++ fmt_dec s0 ++ lit "-" ++ fmt_dec auth) Hb ltac:(cbn; lia)) as Hw.
  rewrite H in Hw. destruct Hw as (subs & Hls & Hss & Hst & _ & Htk & ->).
  rewrite firstn_all in Htk. exists (mk_sid_parts s0 auth subs).
  assert (zlen subs = s1) as Hz by (unfold zlen; lia).
  pose proof (be_decode_bound _ Hb6) as Hba. cbn in Hba.
  split; [|split].
  - repeat split; cbn [sp_rev sp_auth sp_subs]; try lia; try done.
    + apply Hba.
    + apply Hba.
  - rewrite Htk. unfold sid_bytes. cbn [sp_rev sp_auth sp_subs]. rewrite Hz.
    pose proof (be_encode_decode _ Hb6) as He. fold auth in He. cbn [length] in He.
    rewrite He. done.
  - by rewrite sid_text_suffix.
Qed.

(** [C8] Binary to text and back: whatever [Sid::from_bytes] accepts,
    [Sid::parse] reads back from its string to the very same SID exactly
    when the authority fits in 32 bits; a larger (still 48-bit) authority is
    rejected with the message "must fit in 48 bits". *)
Theorem from_bytes_parse_round_trip (data : list Z) (sid : Sid)
    (Hbytes : bytes_ok data) (Hok : from_bytes data = Ok sid) :
  sid_raw sid = data /\
  parse (sid_string sid) =
    if be_decode (take 6 (drop 2 data)) <=? 0xFFFFFFFF then Ok sid
    else Err (sid_error (sid_string sid) "identifier authority must fit in 48 bits").
Proof.
  unfold from_bytes in Hok. apply res_bind_ok in Hok as ([t n] & Ht & H).
  destruct (sid_to_string_with_size data) as [r|] eqn:E; [|done]. injection Ht as ->.
  destruct (n =? length data)%nat eqn:En; [|done]. apply Nat.eqb_eq in En as ->.
  injection H as <-. split; [done|]. cbn [sid_string].
  apply sid_to_string_inv in E as (p & Hp & -> & ->); [|done].
  unfold parse. rewrite sid_string_to_bytes_text by done.
  assert (take 6 (drop 2 (sid_bytes p)) = be_encode 6 (sp_auth p)) as ->.
  { change (take 6 (be_encode 6 (sp_auth p) ++ mjoin (le_encode 4 <$> sp_subs p))
            = be_encode 6 (sp_auth p)).
    by rewrite take_app_length' by (by rewrite length_be_encode). }
  rewrite be_decode_encode by (destruct Hp as (_ & Ha & _); cbn in *; lia).
  destruct (sp_auth p <=? 0xFFFFFFFF); done.
Qed.

Lemma from_bytes_parse_round_trip_witness :
  parse (sid_string (mkSid [1; 2; 0; 0; 0; 0; 0; 5; 32; 0; 0; 0; 32; 2; 0; 0] (lit "S-1-5-32-544")))
    = Ok (mkSid [1; 2; 0; 0; 0; 0; 0; 5; 32; 0; 0; 0; 32; 2; 0; 0] (lit "S-1-5-32-544")) /\
  parse (lit "S-1-4294967296") =
    Err (sid_error (lit "S-1-4294967296") "identifier authority must fit in 48 bits").
Proof.
  split.
  - refine (eq_trans (proj2 (from_bytes_parse_round_trip
      [1; 2; 0; 0; 0; 0; 0; 5; 32; 0; 0; 0; 32; 2; 0; 0] _ _ _)) _);
      [solve_bytes|by vm_compute|by vm_compute].
  - refine (eq_trans (proj2 (from_bytes_parse_round_trip
      [1; 0; 0; 1; 0; 0; 0; 0] (mkSid _ (lit "S-1-4294967296")) _ _)) _);
      [solve_bytes|by vm_compute|by vm_compute].
Defined.

Definition sid_of (p : sid_parts) : Sid := mkSid (sid_bytes p) (sid_text p).

Lemma parse_sid_text p : sid_parts_ok p -> parse (sid_text p) = Ok (sid_of p).
Proof.
  intros Hp. unfold parse. rewrite sid_string_to_bytes_text by (by apply sid_parts_ok_48).
  destruct Hp as (_ & Ha & _). by replace (sp_auth p <=? 0xFFFFFFFF) with true by lia.
Qed.

Lemma from_bytes_sid_bytes p :
  sid_parts_ok48 p -> from_bytes (sid_bytes p) = Ok (sid_of p).
Proof.
  intros Hp. unfold from_bytes. rewrite sid_to_string_bytes by done. cbn [ok_or res_bind].
  by rewrite Nat.eqb_refl.
Qed.

Lemma sid_text_starts p : starts_with (lit "S-") (sid_text p) = true.
Proof. rewrite sid_text_suffix, <- app_assoc. apply starts_with_app. Qed.

Lemma from_sddl_trustee_text p : sid_parts_ok p -> from_sddl_trustee (sid_text p) = Ok (sid_of p).
Proof. intros. unfold from_sddl_trustee. rewrite sid_text_starts. by apply parse_sid_text. Qed.

(** The characters of a canonical SID string. *)
Lemma sid_text_chars p :
  sid_parts_ok48 p -> Forall (fun c => c = 83 \/ c = 45 \/ 48 <= c <= 57) (sid_text p).
Proof.
  intros (Hr & Ha & _ & Hs). rewrite sid_text_suffix, !Forall_app.
  assert (forall n, 0 <= n -> Forall (fun c => c = 83 \/ c = 45 \/ 48 <= c <= 57) (fmt_dec n)) as Hf.
  { intros n Hn. eapply Forall_impl; [by apply fmt_dec_chars|]. intros; simpl in *; lia. }
  repeat split; try (by apply Hf; lia); try (repeat constructor; lia).
  unfold sub_suffix. clear -Hs Hf. induction Hs as [|x subs Hx _ IH]; [constructor|].
  change (mjoin ((fun x => lit "-" ++ fmt_dec x) <$> x :: subs))
    with ((lit "-" ++ fmt_dec x) ++ mjoin ((fun x => lit "-" ++ fmt_dec x) <$> subs)).
  rewrite !Forall_app. repeat split; [repeat constructor; lia|apply Hf; lia|done].
Qed.

(** Text to binary and back: a SID parsed from text has a well-formed
    binary form (8 bytes and 4 per declared sub-authority, at most 255 of
    them), [Sid::from_bytes] accepts that form, and the string it prints
    parses to the same bytes again. *)
Theorem parse_from_bytes_round_trip (value : str) (sid : Sid) (Hok : parse value = Ok sid) :
  sid_string sid = value /\ bytes_ok (sid_raw sid) /\
  (exists count, nth_error (sid_raw sid) 1 = Some (Z.of_nat count) /\
     length (sid_raw sid) = (8 + 4 * count)%nat /\ (count <= 255)%nat) /\
  exists text, from_bytes (sid_raw sid) = Ok (mkSid (sid_raw sid) text) /\
    parse text = Ok (mkSid (sid_raw sid) text).
Proof.
  unfold parse in Hok. apply res_bind_ok in Hok as (raw & Hraw & H). injection H as <-.
  apply sid_string_to_bytes_inv in Hraw as (p & Hp & ->). cbn [sid_raw sid_string].
  pose proof (sid_parts_ok_48 p Hp) as Hp48.
  split; [done|]. split; [by apply sid_bytes_ok|]. split.
  - exists (length (sp_subs p)). destruct Hp as (_ & _ & Hl & _). unfold zlen in Hl.
    split; [done|]. split; [|lia]. unfold sid_bytes. cbn [length].
    rewrite length_app, length_be_encode, length_sid_subs. lia.
  - exists (sid_text p). split; [by apply from_bytes_sid_bytes|by apply parse_sid_text].
Qed.

Lemma parse_from_bytes_round_trip_witness :
  from_bytes [1; 2; 0; 0; 0; 0; 0; 5; 32; 0; 0; 0; 32; 2; 0; 0]
    = Ok (mkSid [1; 2; 0; 0; 0; 0; 0; 5; 32; 0; 0; 0; 32; 2; 0; 0] (lit "S-1-5-32-544")).
Proof.
  destruct (parse_from_bytes_round_trip (lit "S-1-5-32-544")
    (mkSid [1; 2; 0; 0; 0; 0; 0; 5; 32; 0; 0; 0; 32; 2; 0; 0] (lit "S-1-5-32-544"))
    ltac:(by vm_compute)) as (_ & _ & _ & text & H & _).
  vm_compute in H. by vm_compute.
Defined.

(** The two SDDL alias tables agree: an alias printed for a SID is
    accepted by [Sid::from_sddl_trustee], which returns that very SID. *)
Theorem sddl_alias_round_trip (s : Sid) (alias : str)
    (Halias : to_sddl_alias s = Some alias) (Hs : parse (as_str s) = Ok s) :
  sddl_alias_to_sid alias = Some (as_str s) /\ from_sddl_trustee alias = Ok s.
Proof.
  unfold to_sddl_alias, sid_to_sddl_alias in Halias.
  remember (as_str s) as v eqn:Ev. clear Ev.
  unfold sid_to_alias_table in Halias. cbn [fmap list_fmap lit2 fst snd assoc] in Halias.
  repeat match type of Halias with
  | (if decide (?v = ?w) then _ else _) = _ =>
      destruct (decide (v = w)) as [->|_];
        [injection Halias as <-; split; [by vm_compute|]; rewrite <- Hs; by vm_compute|]
  end.
  done.
Qed.

Lemma sddl_alias_round_trip_witness :
  from_sddl_trustee (lit "BU") =
    Ok (mkSid [1; 2; 0; 0; 0; 0; 0; 5; 32; 0; 0; 0; 33; 2; 0; 0] (lit "S-1-5-32-545")).
Proof.
  apply (sddl_alias_round_trip
    (mkSid [1; 2; 0; 0; 0; 0; 0; 5; 32; 0; 0; 0; 33; 2; 0; 0] (lit "S-1-5-32-545")) (lit "BU"));
    by vm_compute.
Defined.

(** The string kept by [Sid::parse] is the caller's spelling, not the
    canonical one: the same SID spelt with a lower-case letter, a plus sign
    and leading zeros has the same bytes, differs under the derived
    equality, and loses its SDDL alias. *)
Theorem parse_keeps_spelling :
  exists a b, parse (lit "S-1-5-18") = Ok a /\ parse (lit "s-01-+5-018") = Ok b /\
    sid_raw a = sid_raw b /\ a <> b /\
    to_sddl_alias a = Some (lit "SY") /\ to_sddl_alias b = None.
Proof. eexists _, _. by vm_compute. Qed.
