(* ===== verification/Acl.v ===== *)
(** * Acl: access masks, ACEs, DACLs and descriptors

    src/security/acl.rs, src/security/rights.rs and
    src/security/descriptor.rs. *)

From Stdlib Require Import ZArith Lia String Ascii.
From stdpp Require Import base list strings gmap numbers sorting.
From S2P Require Import Prelude Text Errors Sid.

Open Scope Z_scope.

(** ** Access masks *)

Record AccessMask := from_bits { bits : Z }.

#[export] Instance AccessMask_eq_dec : EqDecision AccessMask.
Proof. solve_decision. Defined.

Definition mask_NONE : AccessMask := from_bits 0.
Definition mask_contains (self other : AccessMask) : bool :=
  Z.land (bits self) (bits other) =? bits other.
Definition bitor (self rhs : AccessMask) : AccessMask := from_bits (Z.lor (bits self) (bits rhs)).
Definition bitand (self rhs : AccessMask) : AccessMask := from_bits (Z.land (bits self) (bits rhs)).
(** [!] on a [u32]. *)
Definition mask_not (self : AccessMask) : AccessMask := from_bits (u32_max - bits self).

Definition mask_ok (m : AccessMask) : Prop := 0 <= bits m <= u32_max.

(** ** Rights *)

Inductive FileAccess :=
  | FileRead | FileWrite | FileExecute | FileFullControl | FileCustom (m : AccessMask).

Definition file_access_to_mask (a : FileAccess) : AccessMask :=
  match a with
  | FileRead => from_bits 0x120089
  | FileWrite => from_bits 0x120116
  | FileExecute => from_bits 0x1200A0
  | FileFullControl => from_bits 0x1F01FF
  | FileCustom m => m
  end.

Inductive RegistryAccess :=
  | RegRead | RegWrite | RegReadWrite | RegFullControl | RegCustom (m : AccessMask).

Definition registry_access_to_mask (a : RegistryAccess) : AccessMask :=
  match a with
  | RegRead => from_bits 0x20019
  | RegWrite => from_bits 0x20006
  | RegReadWrite => from_bits 0x2001F
  | RegFullControl => from_bits 0xF003F
  | RegCustom m => m
  end.

(** ** ACEs *)

Inductive AceType := Allow | Deny.

#[export] Instance AceType_eq_dec : EqDecision AceType.
Proof. solve_decision. Defined.

Record InheritanceFlags := mkInheritanceFlags {
  object_inherit : bool;
  container_inherit : bool;
  inherit_only : bool;
  no_propagate_inherit : bool }.

#[export] Instance InheritanceFlags_eq_dec : EqDecision InheritanceFlags.
Proof. solve_decision. Defined.

Definition default_flags : InheritanceFlags := mkInheritanceFlags false false false false.

Record Ace := mkAce {
  trustee : Sid;
  ace_type : AceType;
  access_mask : AccessMask;
  inheritance : InheritanceFlags;
  inherited : bool }.

#[export] Instance Ace_eq_dec : EqDecision Ace.
Proof. solve_decision. Defined.

Definition ace_new (t : Sid) (ty : AceType) (m : AccessMask) : Ace :=
  mkAce t ty m default_flags false.
Definition ace_inherited (a : Ace) (b : bool) : Ace :=
  mkAce (trustee a) (ace_type a) (access_mask a) (inheritance a) b.
Definition ace_with_inheritance (a : Ace) (f : InheritanceFlags) : Ace :=
  mkAce (trustee a) (ace_type a) (access_mask a) f (inherited a).

(** ** DACLs: a [Dacl] is its vector of entries *)

Record Dacl := from_entries { entries : list Ace }.

#[export] Instance Dacl_eq_dec : EqDecision Dacl.
Proof. solve_decision. Defined.

Definition dacl_new : Dacl := from_entries [].

(** The sort key [(inherited_rank, type_rank)], compared lexicographically:
    both ranks are 0 or 1, so the pair is ordered as the number
    [2 * inherited_rank + type_rank]. *)
Definition ace_rank (a : Ace) : Z :=
  let inherited_rank := if inherited a then 1 else 0 in
  let type_rank := match ace_type a with Deny => 0 | Allow => 1 end in
  2 * inherited_rank + type_rank.

Definition canonicalize (d : Dacl) : Dacl := from_entries (sort_by_key ace_rank (entries d)).

(** ** Descriptors *)

Inductive SecurityTarget :=
  | FilePath (p : str)
  | RegistryPath (p : str)
  | Detached.

#[export] Instance SecurityTarget_eq_dec : EqDecision SecurityTarget.
Proof. solve_decision. Defined.

Record SecurityDescriptor := mkSecurityDescriptor {
  target : SecurityTarget;
  owner : option Sid;
  group : option Sid;
  dacl : Dacl }.

#[export] Instance SecurityDescriptor_eq_dec : EqDecision SecurityDescriptor.
Proof. solve_decision. Defined.

Definition descriptor_new : SecurityDescriptor := mkSecurityDescriptor Detached None None dacl_new.
Definition for_file_path (p : str) : SecurityDescriptor :=
  mkSecurityDescriptor (FilePath p) None None dacl_new.
Definition for_registry_path (p : str) : SecurityDescriptor :=
  mkSecurityDescriptor (RegistryPath p) None None dacl_new.
Definition with_owner (d : SecurityDescriptor) (o : Sid) : SecurityDescriptor :=
  mkSecurityDescriptor (target d) (Some o) (group d) (dacl d).
Definition with_group (d : SecurityDescriptor) (g : Sid) : SecurityDescriptor :=
  mkSecurityDescriptor (target d) (owner d) (Some g) (dacl d).
Definition with_dacl (d : SecurityDescriptor) (l : Dacl) : SecurityDescriptor :=
  mkSecurityDescriptor (target d) (owner d) (group d) l.

(** ** Properties *)

(** The documented order: explicit deny, explicit allow, inherited deny,
    inherited allow. *)
Definition precedes (a b : Ace) : Prop :=
  match inherited a, inherited b with
  | false, true => True
  | true, false => False
  | _, _ => match ace_type a, ace_type b with Allow, Deny => False | _, _ => True end
  end.

Lemma precedes_rank a b : precedes a b <-> key_le ace_rank a b.
Proof.
  unfold precedes, key_le, ace_rank.
  destruct (inherited a), (inherited b), (ace_type a), (ace_type b); simpl; split; try done; lia.
Qed.

Definition canonical (d : Dacl) : Prop := StronglySorted precedes (entries d).

Lemma StronglySorted_iff {A} (R S : A -> A -> Prop) l :
  (forall x y, R x y <-> S x y) -> StronglySorted R l -> StronglySorted S l.
Proof.
  intros HRS. induction 1 as [|x l _ IH Hx]; constructor; [done|].
  eapply Forall_impl; [exact Hx|]. intros y. apply HRS.
Qed.

Lemma canonicalize_canonical d : canonical (canonicalize d).
Proof.
  unfold canonical. eapply StronglySorted_iff; [|apply sort_by_key_sorted].
  intros x y. symmetry. apply precedes_rank.
Qed.

Lemma canonicalize_filter f d :
  List.filter f (entries (canonicalize d)) =
  entries (canonicalize (from_entries (List.filter f (entries d)))).
Proof. apply sort_by_key_filter. Qed.

Lemma canonicalize_perm d : entries (canonicalize d) ≡ₚ entries d.
Proof. apply sort_by_key_perm. Qed.

(** [C7] [Dacl::canonicalize] yields the documented order, keeps exactly the
    same entries, keeps the relative order of entries of one class (so it
    agrees with any stable sort), and is idempotent. *)
Theorem canonicalize_correct (d : Dacl) :
  canonical (canonicalize d) /\
  entries (canonicalize d) ≡ₚ entries d /\
  (forall i t, List.filter (fun a => bool_decide (inherited a = i /\ ace_type a = t))
                 (entries (canonicalize d)) =
               List.filter (fun a => bool_decide (inherited a = i /\ ace_type a = t)) (entries d)) /\
  canonicalize (canonicalize d) = canonicalize d.
Proof.
  split; [apply canonicalize_canonical|]. split; [apply canonicalize_perm|]. split.
  - intros i t.
    assert (forall l, List.filter (fun a => bool_decide (inherited a = i /\ ace_type a = t)) l =
      with_key ace_rank (ace_rank (mkAce (mkSid [] []) t mask_NONE default_flags i)) l) as H.
    { intros l. unfold with_key. apply List.filter_ext. intros a. apply Bool.eq_true_iff_eq.
      rewrite bool_decide_eq_true, Z.eqb_eq. unfold ace_rank. simpl.
      destruct (inherited a), i, (ace_type a), t; naive_solver lia. }
    rewrite !H. apply sort_by_key_stable.
  - unfold canonicalize. cbn [entries]. by rewrite sort_by_key_idemp.
Qed.

(** [contains] is inclusion of bit sets, and grows with [|]. *)
Lemma mask_contains_spec a b :
  mask_contains a b = true <-> forall i, 0 <= i -> Z.testbit (bits b) i = true -> Z.testbit (bits a) i = true.
Proof.
  unfold mask_contains. rewrite Z.eqb_eq. split.
  - intros H i Hi Hb. rewrite <- H, Z.land_spec in Hb. by apply andb_true_iff in Hb as [].
  - intros H. apply Z.bits_inj'. intros i Hi. rewrite Z.land_spec.
    destruct (Z.testbit (bits b) i) eqn:E; [by rewrite H|apply andb_false_r].
Qed.

Lemma bitor_contains a b : mask_contains (bitor a b) a = true /\ mask_contains (bitor a b) b = true.
Proof.
  split; apply mask_contains_spec; intros i _ H; cbn [bitor bits]; rewrite Z.lor_spec, H;
    [done|apply orb_true_r].
Qed.
