(* ===== verification/Sddl.v ===== *)
(** * Sddl: the SDDL printer and parser of the two permission backends

    src/security/backends/file.rs and src/security/backends/registry.rs hold
    the same code twice; they differ in the table of right tokens, in two
    error values and in the kind of descriptor they build.  The definitions
    are written once over a record of those differences and instantiated in
    the definitions with the prefixes [file_] and [registry_]. *)

From Stdlib Require Import ZArith Lia String Ascii.
From stdpp Require Import base list strings gmap numbers sorting.
From S2P Require Import Prelude Text Unicode Errors Sid Acl.

Open Scope Z_scope.

(** ** What the backends differ in *)

Record sddl_backend := mk_sddl_backend {
  rights_tokens : list (str * Z);
  mask_error : Error;
  sid_alias_error : Error;
  descriptor_for : str -> SecurityDescriptor }.

(** ** Printing *)

Definition ace_type_text (t : AceType) : str :=
  match t with Allow => lit "A" | Deny => lit "D" end.

Definition flags_to_sddl (f : InheritanceFlags) : str :=
  (if object_inherit f then lit "OI" else []) ++
  (if container_inherit f then lit "CI" else []) ++
  (if inherit_only f then lit "IO" else []) ++
  (if no_propagate_inherit f then lit "NP" else []).

Definition ace_to_sddl (ace : Ace) : str :=
  lit "(" ++ ace_type_text (ace_type ace) ++ lit ";" ++ flags_to_sddl (inheritance ace) ++ lit ";" ++
  (lit "0x" ++ fmt_hex (bits (access_mask ace))) ++ lit ";;;" ++ as_str (trustee ace) ++ lit ")".

Definition dacl_to_sddl (d : Dacl) : str :=
  fold_left (fun sddl ace => sddl ++ ace_to_sddl ace) (entries d) (lit "D:").

Definition descriptor_to_sddl (descriptor : SecurityDescriptor) : str :=
  (match owner descriptor with Some o => lit "O:" ++ as_str o | None => [] end) ++
  (match group descriptor with Some g => lit "G:" ++ as_str g | None => [] end) ++
  dacl_to_sddl (dacl descriptor).

(** ** Parsing *)

(** [format!("{}:", section)] for an ASCII letter. *)
Definition marker (section : Z) : str := [section; 58].

Definition extract_sddl_section (sddl : str) (section : Z) : option str :=
  start ← find_sub (marker section) sddl;
  let start := (start + 2)%nat in
  let narrow (stop : nat) (candidate : Z) : nat :=
    if candidate =? section then stop
    else match find_sub (marker candidate) (drop start sddl) with
         | Some pos => Nat.min stop (start + pos)
         | None => stop
         end in
  let stop := fold_left narrow [79; 71; 68; 83] (length sddl) in
  Some (trim (take (stop - start) (drop start sddl))).

Definition parse_inheritance_flags (value : str) : InheritanceFlags :=
  mkInheritanceFlags (contains (lit "OI") value) (contains (lit "CI") value)
    (contains (lit "IO") value) (contains (lit "NP") value).

Definition is_continuation (s : str) : bool :=
  match s with b :: _ => (128 <=? b) && (b <? 192) | [] => false end.

Section Parser.
Context (backend : sddl_backend).

Fixpoint token_mask_in (t : list (str * Z)) (token : str) : AccessMask :=
  match t with
  | [] => from_bits 0
  | (name, m) :: t => if decide (token = name) then from_bits m else token_mask_in t token
  end.

(** The loop over two-byte tokens.  [&value[i..i + 2]] panics when the end
    of the token is inside a character; its start is the end of the
    previous token. *)
Fixpoint rights_loop (value : str) (mask : AccessMask) : res none AccessMask :=
  match value with
  | c1 :: c2 :: rest =>
      if is_continuation rest then Panic NotCharBoundary
      else
        let token_mask := token_mask_in (rights_tokens backend) [c1; c2] in
        rights_loop rest (if negb (bits token_mask =? 0) then bitor mask token_mask else mask)
  | _ => if bits mask =? 0 then Err NoneV else Ok mask
  end.

Definition parse_sddl_rights (value : str) : res none AccessMask :=
  match strip_prefix (lit "0x") value with
  | Some hex =>
      let! b := ok_or (parse_uint 16 u32_max hex) NoneV in
      Ok (from_bits b)
  | None => rights_loop value (from_bits 0)
  end.

Definition sid_or_alias_to_sid (value : str) : res Error Sid :=
  map_err (fun _ => sid_alias_error backend) (from_sddl_trustee value).

Definition parse_ace (ace_body : str) : res Error (option Ace) :=
  match split_on 59 ace_body with
  | f0 :: f1 :: f2 :: _ :: _ :: f5 :: _ =>
      match (if decide (f0 = lit "A") then Some Allow
             else if decide (f0 = lit "D") then Some Deny else None) with
      | None => Ok None
      | Some ty =>
          let inheritance := parse_inheritance_flags f1 in
          let inherited := contains (lit "ID") f1 in
          let! access_mask := map_err (fun _ => mask_error backend) (parse_sddl_rights f2) in
          let! trustee := res_ok (sid_or_alias_to_sid f5) in
          match trustee with
          | None => Ok None
          | Some trustee =>
              Ok (Some (ace_inherited
                (ace_with_inheritance (ace_new trustee ty access_mask) inheritance) inherited))
          end
      end
  | _ => Ok None
  end.

(** The loop over parenthesised groups, on the part of the section that is
    still to be read.  Every round consumes at least the two parentheses,
    so [length rest] rounds are enough ([parse_aces_enough]). *)
Fixpoint parse_aces (fuel : nat) (rest : str) (entries : list Ace) : res Error (list Ace) :=
  match fuel with
  | O => Ok entries
  | S fuel =>
      match find_char 40 rest with
      | None => Ok entries
      | Some start =>
          match find_char 41 (drop start rest) with
          | None => Ok entries
          | Some end_rel =>
              let stop := (start + end_rel)%nat in
              let ace_body := take (stop - S start) (drop (S start) rest) in
              let! ace := parse_ace ace_body in
              parse_aces fuel (drop (S stop) rest)
                (match ace with Some ace => entries ++ [ace] | None => entries end)
          end
      end
  end.

Definition parse_dacl_from_sddl (sddl : str) : res Error Dacl :=
  match extract_sddl_section sddl 68 with
  | None => Ok dacl_new
  | Some dacl_section =>
      let! entries := parse_aces (length dacl_section) dacl_section [] in
      Ok (canonicalize (from_entries entries))
  end.

Definition section_sid (sddl : str) (section : Z) : res Error (option Sid) :=
  match extract_sddl_section sddl section with
  | None => Ok None
  | Some v => res_ok (sid_or_alias_to_sid v)
  end.

Definition sddl_to_descriptor (path sddl : str) : res Error SecurityDescriptor :=
  let! owner := section_sid sddl 79 in
  let! group := section_sid sddl 71 in
  let! dacl := parse_dacl_from_sddl sddl in
  let descriptor := with_dacl (descriptor_for backend path) dacl in
  let descriptor := match owner with Some o => with_owner descriptor o | None => descriptor end in
  Ok (match group with Some g => with_group descriptor g | None => descriptor end).
End Parser.

(** ** The two instances *)

Definition standard_tokens : list (str * Z) :=
  [(lit "SD", 0x00010000); (lit "RC", 0x00020000); (lit "WD", 0x00040000); (lit "WO", 0x00080000)].

Definition file_operation_error (path operation : string) : Error :=
  Error_FileOperation (mkFileOperationError (lit path) (lit operation) None).
Definition other_error (message : string) : Error := Error_Other (mkOtherError (lit message)).

Definition file_backend : sddl_backend := mk_sddl_backend
  ([(lit "FA", 0x1F01FF); (lit "FR", 0x120089); (lit "FW", 0x120116); (lit "FX", 0x1200A0)]
    ++ standard_tokens)
  (file_operation_error "sddl_dacl" "parse ACE access mask")
  (file_operation_error "sddl_sid" "map SID alias")
  for_file_path.

Definition registry_backend : sddl_backend := mk_sddl_backend
  ([(lit "KA", 0xF003F); (lit "KR", 0x20019); (lit "KW", 0x20006); (lit "KX", 0x20019)]
    ++ standard_tokens)
  (other_error "failed to parse registry ACE access mask")
  (other_error "unrecognized SID alias")
  for_registry_path.

Definition file_parse_sddl_rights := parse_sddl_rights file_backend.
Definition file_sid_or_alias_to_sid := sid_or_alias_to_sid file_backend.
Definition file_parse_ace := parse_ace file_backend.
Definition file_parse_dacl_from_sddl := parse_dacl_from_sddl file_backend.
Definition file_sddl_to_descriptor := sddl_to_descriptor file_backend.

(** The registry copies of the parts that do not depend on the backend are
    the same text. *)
Definition registry_dacl_to_sddl := dacl_to_sddl.
Definition registry_descriptor_to_sddl := descriptor_to_sddl.
Definition registry_parse_inheritance_flags := parse_inheritance_flags.
Definition registry_extract_sddl_section := extract_sddl_section.
Definition registry_parse_sddl_rights := parse_sddl_rights registry_backend.
Definition registry_sid_or_alias_to_sid := sid_or_alias_to_sid registry_backend.
Definition registry_parse_ace := parse_ace registry_backend.
Definition registry_parse_dacl_from_sddl := parse_dacl_from_sddl registry_backend.
Definition registry_sddl_to_descriptor := sddl_to_descriptor registry_backend.

(** ** Sections of a descriptor text

    A colon occurs only in the markers, so the sections can be found. *)

Lemma starts_marker m a b rest : starts_with (marker m) (a :: b :: rest) = (m =? a) && (58 =? b).
Proof. unfold starts_with, marker. cbn [strip_prefix]. by destruct (m =? a), (58 =? b). Qed.

Lemma find_marker m y pre rest :
  m <> 58 -> y <> 58 -> lacks 58 pre ->
  find_sub (marker m) (pre ++ y :: 58 :: rest) =
    if m =? y then Some (length pre)
    else (fun n => length pre + 2 + n)%nat <$> find_sub (marker m) rest.
Proof.
  intros Hm Hy Hpre. induction Hpre as [|a pre Ha Hpre IH]; cbn [app length find_sub].
  - rewrite starts_marker. cbn [andb Z.eqb]. rewrite andb_true_r. destruct (m =? y); [done|].
    assert (starts_with (marker m) (58 :: rest) = false) as ->.
    { unfold starts_with, marker. cbn [strip_prefix]. by replace (m =? 58) with false by lia. }
    by destruct (find_sub (marker m) rest).
  - assert (starts_with (marker m) (a :: pre ++ y :: 58 :: rest) = false) as ->.
    { destruct Hpre as [|b pre Hb _]; cbn [app]; rewrite starts_marker;
        [replace (58 =? y) with false by lia|replace (58 =? b) with false by (cbn in Hb; lia)];
        apply andb_false_r. }
    rewrite IH. destruct (m =? y); [done|]. by destruct (find_sub (marker m) rest).
Qed.

Lemma find_marker_head m y rest :
  m <> 58 -> y <> 58 ->
  find_sub (marker m) (y :: 58 :: rest) =
    if m =? y then Some O else (fun n => 2 + n)%nat <$> find_sub (marker m) rest.
Proof. intros. apply (find_marker m y []); try done. constructor. Qed.

Lemma find_marker_none m s : lacks 58 s -> find_sub (marker m) s = None.
Proof. intros H. eapply find_sub_none_lacks; [exact H|]. right; left. Qed.

(** The characters that can follow a marker in printed SDDL. *)
Definition sddl_char (c : Z) : Prop := graphic c /\ c <> 58.

Lemma sddl_chars_lack s : Forall sddl_char s -> lacks 58 s.
Proof. intros H. eapply Forall_impl; [exact H|]. by intros ? [_ ?]. Qed.

Lemma trim_sddl s : Forall sddl_char s -> trim s = s.
Proof.
  intros H. apply trim_graphic. eapply Forall_impl; [exact H|]. by intros ? [? _].
Qed.

Lemma sid_text_sddl_chars p : sid_parts_ok48 p -> Forall sddl_char (sid_text p).
Proof.
  intros H. eapply Forall_impl; [by apply sid_text_chars|].
  unfold sddl_char, graphic. intros; simpl in *; lia.
Qed.

(** The text of a descriptor, with its sections given. *)
Definition sections (o g : option str) (body : str) : str :=
  (match o with Some o => lit "O:" ++ o | None => [] end) ++
  (match g with Some g => lit "G:" ++ g | None => [] end) ++ lit "D:" ++ body.

Definition opt_chars (o : option str) : Prop :=
  match o with Some o => Forall sddl_char o | None => True end.

(** A section ends at the next marker. *)
Lemma extract_between pre m text tail :
  m <> 58 -> lacks 58 text -> Forall sddl_char text ->
  tail = [] \/ (exists y t, tail = y :: 58 :: t /\ y <> m /\ y ∈ [79; 71; 68; 83]) ->
  find_sub (marker m) (pre ++ marker m ++ text ++ tail) = Some (length pre) ->
  extract_sddl_section (pre ++ marker m ++ text ++ tail) m = Some text.
Proof.
  intros Hm Hl Ht Htail Hf. unfold extract_sddl_section. rewrite Hf. cbn [mbind option_bind].
  assert (drop (length pre + 2) (pre ++ marker m ++ text ++ tail) = text ++ tail) as ->.
  { rewrite <- (drop_drop _ 2 (length pre)), drop_app_length. done. }
  match goal with |- context [fold_left ?f ?l ?a] => assert (fold_left f l a = length pre + 2 + length text)%nat as -> end.
  - rewrite !length_app. cbn [length marker fold_left].
    destruct Htail as [->|(y & t & -> & Hy & Hin)].
    + rewrite app_nil_r, !find_marker_none by done. cbn [length]. repeat case_match; lia.
    + assert (y <> 58) by (intros ->; set_solver).
      rewrite !find_marker by done. cbn [length].
      repeat (apply elem_of_cons in Hin as [->|Hin]); [..|by apply elem_of_nil in Hin];
        destruct (79 =? m) eqn:?, (71 =? m) eqn:?, (68 =? m) eqn:?, (83 =? m) eqn:?;
        try lia; repeat case_match; simplify_option_eq; lia.
  - rewrite Nat.add_comm, Nat.add_sub, take_app_length. by rewrite trim_sddl.
Qed.

Lemma extract_absent s m : find_sub (marker m) s = None -> extract_sddl_section s m = None.
Proof. unfold extract_sddl_section. by intros ->. Qed.

Definition opt_section (m : Z) (o : option str) : str :=
  match o with Some o => marker m ++ o | None => [] end.

Lemma sections_eq o g body :
  sections o g body = opt_section 79 o ++ opt_section 71 g ++ marker 68 ++ body.
Proof. done. Qed.

(** Looking for a marker steps over an optional section of another kind. *)
Lemma find_over m y o t :
  m <> 58 -> y <> 58 -> m <> y -> opt_chars o ->
  (exists z t', t = z :: 58 :: t' /\ z <> 58) ->
  find_sub (marker m) (opt_section y o ++ t) =
    Nat.add (length (opt_section y o)) <$> find_sub (marker m) t.
Proof.
  intros Hm Hy Hmy Ho (z & t' & -> & Hz). destruct o as [o|]; cbn [opt_section length app marker].
  - apply sddl_chars_lack in Ho. rewrite (find_marker_head m y) by done.
    rewrite (find_marker m z o), (find_marker_head m z) by done.
    replace (m =? y) with false by lia. destruct (m =? z); [cbn; f_equal; lia|].
    destruct (find_sub (marker m) t'); cbn; [f_equal; lia|done].
  - by destruct (find_sub _ _).
Qed.

Lemma find_here m t : m <> 58 -> find_sub (marker m) (marker m ++ t) = Some O.
Proof. intros. change (marker m ++ t) with (m :: 58 :: t). rewrite find_marker_head by done. by rewrite Z.eqb_refl. Qed.

Lemma extract_sections o g body :
  opt_chars o -> opt_chars g -> Forall sddl_char body ->
  extract_sddl_section (sections o g body) 79 = o /\
  extract_sddl_section (sections o g body) 71 = g /\
  extract_sddl_section (sections o g body) 68 = Some body.
Proof.
  intros Ho Hg Hb. pose proof (sddl_chars_lack _ Hb) as Hlb. rewrite sections_eq.
  assert (forall m, m <> 58 -> m <> 68 -> find_sub (marker m) (marker 68 ++ body) = None) as Hd.
  { intros m Hm Hm'. change (marker 68 ++ body) with (68 :: 58 :: body). rewrite find_marker_head by done. replace (m =? 68) with false by lia.
    by rewrite find_marker_none. }
  assert (exists z t', opt_section 71 g ++ marker 68 ++ body = z :: 58 :: t' /\ z <> 58 /\
            z <> 79 /\ z ∈ [79; 71; 68; 83]) as (z & t' & Ez & Hz).
  { destruct g; [exists 71|exists 68]; eexists; (split; [done|]); (split; [done|]); (split; [done|]); set_solver. }
  assert (exists z t', marker 68 ++ body = z :: 58 :: t' /\ z <> 58) by (by eexists 68, _).
  split_and!.
  - destruct o as [o|].
    + cbn [opt_section]. rewrite <- (app_assoc (marker 79)).
      apply (extract_between []); [done|by apply sddl_chars_lack|done| |by apply find_here].
      right. rewrite Ez. exists z, t'. naive_solver.
    + apply extract_absent. cbn [opt_section app].
      rewrite find_over by (done || by eexists 68, _). by rewrite Hd.
  - destruct g as [g|].
    + cbn [opt_section]. rewrite <- (app_assoc (marker 71)).
      apply extract_between; [done|by apply sddl_chars_lack|done| |].
      { right. eexists 68, _. split_and!; [done|lia|set_solver]. }
      rewrite find_over by (done || by eexists 71, _). rewrite find_here by done. cbn.
      f_equal. lia.
    + cbn [opt_section app]. apply extract_absent. rewrite find_over by done. by rewrite Hd.
  - rewrite app_assoc. rewrite <- (app_nil_r body) at 1. apply extract_between; auto.
    rewrite app_nil_r, <- app_assoc, !find_over by (done || (eexists _, _; naive_solver)).
    rewrite find_here by done. cbn. f_equal. rewrite length_app. lia.
Qed.

(** ** One ACE *)

(** What the printer is given: a trustee in canonical spelling and a 32-bit
    mask. *)
Definition printable_sid (s : Sid) : Prop := exists p, sid_parts_ok p /\ s = sid_of p.
Definition printable_ace (a : Ace) : Prop :=
  printable_sid (trustee a) /\ mask_ok (access_mask a).

Definition ace_body_text (a : Ace) : str :=
  ace_type_text (ace_type a) ++ 59 :: flags_to_sddl (inheritance a) ++
  59 :: (lit "0x" ++ fmt_hex (bits (access_mask a))) ++ 59 :: 59 :: 59 :: as_str (trustee a).

Lemma ace_to_sddl_body a : ace_to_sddl a = 40 :: ace_body_text a ++ [41].
Proof.
  unfold ace_to_sddl, ace_body_text. cbn [lit app]. rewrite <- !app_assoc. cbn [app].
  rewrite <- !app_assoc. cbn [app]. by rewrite <- !app_assoc.
Qed.

(** Neither a colon, a semicolon nor a parenthesis, and printable. *)
Definition field_char (c : Z) : Prop := graphic c /\ c <> 58 /\ c <> 59 /\ c <> 40 /\ c <> 41.

Lemma field_lacks c s : Forall field_char s -> c = 59 \/ c = 41 \/ c = 40 -> lacks c s.
Proof. intros H Hc. eapply Forall_impl; [exact H|]. intros x Hx. unfold field_char in Hx. cbn in *. lia. Qed.

Ltac solve_chars :=
  vm_compute; repeat (apply Forall_cons; split; [split_and!; done|]); apply Forall_nil_2.

Lemma ace_type_chars t : Forall field_char (ace_type_text t).
Proof. destruct t; solve_chars. Qed.

Lemma flags_chars f : Forall field_char (flags_to_sddl f).
Proof. destruct f as [[] [] [] []]; solve_chars. Qed.

Lemma rights_chars n : 0 <= n -> Forall field_char (lit "0x" ++ fmt_hex n).
Proof.
  intros Hn. apply Forall_app. split; [solve_chars|].
  eapply Forall_impl; [apply (digit_chars_graphic 16); lia|].
  unfold field_char, graphic. intros; simpl in *; lia.
Qed.

Lemma printable_sid_chars s : printable_sid s -> Forall field_char (as_str s).
Proof.
  intros (p & Hp & ->). eapply Forall_impl; [by apply sid_text_chars, sid_parts_ok_48|].
  unfold field_char, graphic. intros; simpl in *; lia.
Qed.

#[export] Hint Resolve ace_type_chars flags_chars rights_chars printable_sid_chars : rust.

Definition body_char (c : Z) : Prop := graphic c /\ c <> 58 /\ c <> 40 /\ c <> 41.

Lemma field_body s : Forall field_char s -> Forall body_char s.
Proof. intros H. eapply Forall_impl; [exact H|]. unfold field_char, body_char. naive_solver. Qed.

Lemma ace_body_chars a : printable_ace a -> Forall body_char (ace_body_text a).
Proof.
  intros [Hs Hm]. unfold ace_body_text. destruct Hm as [Hm _].
  assert (body_char 59) by (unfold body_char, graphic; lia).
  apply Forall_app; split; [by apply field_body, ace_type_chars|].
  apply Forall_cons; split; [done|]. apply Forall_app; split; [by apply field_body, flags_chars|].
  apply Forall_cons; split; [done|]. apply Forall_app; split; [by apply field_body, rights_chars|].
  repeat (apply Forall_cons; split; [done|]). by apply field_body, printable_sid_chars.
Qed.

Lemma ace_body_fields a :
  printable_ace a ->
  split_on 59 (ace_body_text a) =
    [ace_type_text (ace_type a); flags_to_sddl (inheritance a);
     lit "0x" ++ fmt_hex (bits (access_mask a)); []; []; as_str (trustee a)].
Proof.
  intros [Hs [Hm _]]. unfold ace_body_text.
  rewrite !split_on_cons by (apply field_lacks; auto with rust).
  change (59 :: 59 :: as_str (trustee a)) with ([] ++ 59 :: ([] ++ 59 :: as_str (trustee a))).
  rewrite !split_on_cons by constructor.
  by rewrite split_on_lacks by (apply field_lacks; auto with rust).
Qed.

(** The printed flags contain exactly the tokens that were printed. *)
Lemma parse_printed_flags f :
  parse_inheritance_flags (flags_to_sddl f) = f /\ contains (lit "ID") (flags_to_sddl f) = false.
Proof. by destruct f as [[] [] [] []]. Qed.

Lemma parse_printed_ace b a :
  printable_ace a -> parse_ace b (ace_body_text a) = Ok (Some (ace_inherited a false)).
Proof.
  intros Ha. unfold parse_ace. rewrite ace_body_fields by done.
  destruct Ha as [(p & Hp & Ht) Hm], (parse_printed_flags (inheritance a)) as [-> ->].
  assert (parse_sddl_rights b (lit "0x" ++ fmt_hex (bits (access_mask a))) = Ok (access_mask a)) as ->.
  { unfold parse_sddl_rights. rewrite strip_prefix_app, parse_fmt_hex by done.
    by destruct (access_mask a). }
  unfold sid_or_alias_to_sid. rewrite Ht. change (as_str (sid_of p)) with (sid_text p).
  rewrite from_sddl_trustee_text by done. destruct a as [? [] ? ? ?]; cbn in *; by subst.
Qed.

(** ** The loop over ACEs *)

Lemma find_char_app c p s : lacks c p -> find_char c (p ++ c :: s) = Some (length p).
Proof.
  intros H. apply position_app_hit; [|apply Z.eqb_refl].
  eapply Forall_impl; [exact H|]. intros x Hx. cbn in *. lia.
Qed.

Lemma parse_aces_step b fuel body rest acc :
  Forall body_char body ->
  parse_aces b (S fuel) (40 :: body ++ 41 :: rest) acc =
    let! ace := parse_ace b body in
    parse_aces b fuel rest (match ace with Some ace => acc ++ [ace] | None => acc end).
Proof.
  intros Hb. cbn [parse_aces].
  change (find_char 40 (40 :: body ++ 41 :: rest)) with (Some O). cbn [drop].
  change (40 :: body ++ 41 :: rest) with ((40 :: body) ++ 41 :: rest).
  rewrite find_char_app.
  2:{ constructor; [done|]. eapply Forall_impl; [exact Hb|]. unfold body_char. cbn. naive_solver. }
  cbn [length Nat.add drop app Nat.sub]. rewrite Nat.sub_0_r, drop_0, take_app_length.
  assert (drop (S (length body)) (body ++ 41 :: rest) = rest) as ->; [|done].
  rewrite <- (Nat.add_1_r (length body)), <- (drop_drop _ 1 (length body)), drop_app_length. done.
Qed.

Lemma parse_printed_aces b l acc :
  Forall printable_ace l ->
  forall fuel, (length l <= fuel)%nat ->
  parse_aces b fuel (mjoin (ace_to_sddl <$> l)) acc = Ok (acc ++ ((fun a => ace_inherited a false) <$> l)).
Proof.
  intros H. revert acc. induction H as [|a l Ha Hl IH]; intros acc fuel Hf.
  - rewrite app_nil_r. by destruct fuel.
  - destruct fuel as [|fuel]; [cbn in Hf; lia|].
    cbn [fmap list_fmap mjoin list_join]. rewrite ace_to_sddl_body.
    change ((40 :: ace_body_text a ++ [41]) ++ ?r) with (40 :: (ace_body_text a ++ [41]) ++ r).
    rewrite <- app_assoc. cbn [app].
    rewrite parse_aces_step by (by apply ace_body_chars).
    rewrite parse_printed_ace by done. cbn [res_bind].
    rewrite IH by (cbn in Hf; lia). by rewrite <- app_assoc.
Qed.

(** Every round of the loop shortens the text, so its length is enough fuel. *)
Lemma parse_aces_enough b rest acc f1 f2 :
  (length rest <= f1)%nat -> (length rest <= f2)%nat ->
  parse_aces b f1 rest acc = parse_aces b f2 rest acc.
Proof.
  revert f2 rest acc. induction f1 as [|f1 IH]; intros f2 rest acc H1 H2.
  - destruct rest; [by destruct f2|cbn in H1; lia].
  - destruct f2 as [|f2]; [destruct rest; [done|cbn in H2; lia]|]. cbn [parse_aces].
    destruct (find_char 40 rest) as [start|] eqn:Es; [|done].
    destruct (find_char 41 (drop start rest)) as [e|]; [|done].
    apply position_lt in Es.
    destruct (parse_ace b _) as [o|e'|p']; [|done..]. cbn [res_bind].
    apply IH; rewrite length_drop; lia.
Qed.

(** ** Panics and errors of the parser *)

Definition ascii_text (s : str) : Prop := Forall (fun c => 0 <= c < 128) s.

Lemma split_on_forall (P : Z -> Prop) c s : Forall P s -> Forall (Forall P) (split_on c s).
Proof.
  induction 1 as [|x s Hx Hs IH]; cbn [split_on]; [by repeat constructor|].
  destruct (x =? c); [by constructor|]. destruct (split_on c s); [by repeat constructor|].
  inversion IH; subst. constructor; [by constructor|done].
Qed.

Lemma strip_all_forall (P : Z -> Prop) fuel ps s : Forall P s -> Forall P (strip_all fuel ps s).
Proof.
  assert (forall ps s r, Forall P s -> strip_any ps s = Some r -> Forall P r) as Hany.
  { clear. intros ps s r Hs. induction ps as [|p ps IH]; cbn; [done|].
    destruct (strip_prefix p s) as [r'|] eqn:E; [|done]. intros [= ->].
    apply strip_prefix_Some in E as ->. by apply Forall_app in Hs as [_ ?]. }
  revert s. induction fuel as [|fuel IH]; intros s Hs; cbn; [done|].
  destruct (strip_any ps s) eqn:E; [eauto|done].
Qed.

Lemma trim_forall (P : Z -> Prop) s : Forall P s -> Forall P (trim s).
Proof.
  intros Hs. unfold trim, trim_end, trim_start. rewrite Forall_reverse.
  apply strip_all_forall. rewrite Forall_reverse. by apply strip_all_forall.
Qed.

Lemma extract_forall (P : Z -> Prop) s m t :
  Forall P s -> extract_sddl_section s m = Some t -> Forall P t.
Proof.
  intros Hs H. unfold extract_sddl_section in H. apply bind_Some in H as (n & _ & H).
  injection H as <-. by apply trim_forall, Forall_take, Forall_drop.
Qed.

Lemma push_subs_no_panic value parts out : no_panic (push_sub_authorities value parts out).
Proof.
  revert out. induction parts as [|p parts IH]; intros out; cbn [push_sub_authorities]; [auto with rust|].
  apply no_panic_bind; auto with rust.
Qed.

Lemma sid_parse_no_panic value : no_panic (parse value).
Proof.
  unfold parse, sid_string_to_bytes. apply no_panic_bind; [|auto with rust].
  destruct (split_on 45 value) as [|p0 [|p1 [|p2 rest]]]; auto with rust.
  case_match; [auto with rust|].
  do 2 (apply no_panic_bind; [auto with rust|intros; cbn beta]).
  repeat case_match; auto using push_subs_no_panic with rust.
Qed.

Lemma from_sddl_trustee_no_panic value : no_panic (from_sddl_trustee value).
Proof.
  unfold from_sddl_trustee. case_match; [apply sid_parse_no_panic|].
  apply no_panic_bind; auto using sid_parse_no_panic with rust.
Qed.

Lemma res_ok_total {E F A} (f : E -> F) (m : res E A) :
  no_panic m -> exists o, res_ok (map_err f m) = Ok o.
Proof. intros H. destruct m as [a|e|p]; cbn; eauto. by destruct (H p). Qed.

Lemma rights_loop_ascii b n s m : (length s <= n)%nat -> ascii_text s -> no_panic (rights_loop b s m).
Proof.
  revert s m. induction n as [|n IH]; intros s m Hn Hs.
  - destruct s; [|cbn in Hn; lia]. cbn. case_match; auto with rust.
  - destruct s as [|c1 [|c2 rest]]; cbn [rights_loop]; try (case_match; by auto with rust).
    apply Forall_cons in Hs as [_ Hs]. apply Forall_cons in Hs as [_ Hs].
    assert (is_continuation rest = false) as ->.
    { destruct Hs as [|c rest Hc _]; [done|]. cbn in *. lia. }
    apply IH; [cbn in Hn; lia|done].
Qed.

(** An ACE group of ASCII text either yields an optional ACE or the one error
    of the parser. *)
Lemma parse_ace_ascii b body :
  ascii_text body -> (exists o, parse_ace b body = Ok o) \/ parse_ace b body = Err (mask_error b).
Proof.
  intros Hb. apply (split_on_forall _ 59) in Hb. unfold parse_ace.
  destruct (split_on 59 body) as [|f0 [|f1 [|f2 [|f3 [|f4 [|f5 l]]]]]]; eauto.
  destruct (if decide (f0 = lit "A") then _ else _) as [ty|]; [|eauto].
  assert (no_panic (parse_sddl_rights b f2)) as Hr.
  { unfold parse_sddl_rights. destruct (strip_prefix _ f2).
    - apply no_panic_bind; auto with rust.
    - eapply rights_loop_ascii; [done|]. by inversion Hb as [|? ? _ Hb']; subst;
        inversion Hb' as [|? ? _ Hb'']; subst; inversion Hb''. }
  destruct (parse_sddl_rights b f2) as [m|e|p]; cbn; [|by eauto|by destruct (Hr p)].
  destruct (res_ok_total (fun _ => sid_alias_error b) _ (from_sddl_trustee_no_panic f5)) as [o Ho].
  unfold sid_or_alias_to_sid. rewrite Ho. cbn. case_match; eauto.
Qed.

Lemma parse_aces_ascii b fuel rest acc :
  ascii_text rest ->
  (exists l, parse_aces b fuel rest acc = Ok l) \/ parse_aces b fuel rest acc = Err (mask_error b).
Proof.
  revert rest acc. induction fuel as [|fuel IH]; intros rest acc Hr; cbn [parse_aces]; [eauto|].
  destruct (find_char 40 rest) as [start|]; [|eauto].
  destruct (find_char 41 (drop start rest)) as [e|]; [|eauto].
  destruct (parse_ace_ascii b (take (start + e - S start) (drop (S start) rest))) as [[o ->]| ->].
  - by apply Forall_take, Forall_drop.
  - apply IH. by apply Forall_drop.
  - by right.
Qed.

(** ** Round trip *)

Definition opt_printable (o : option Sid) : Prop :=
  match o with Some s => printable_sid s | None => True end.
Definition printable (d : SecurityDescriptor) : Prop :=
  opt_printable (owner d) /\ opt_printable (group d) /\ Forall printable_ace (entries (dacl d)).

(** The ACE as the printer can express it: the printer has no token for
    [inherited]. *)
Definition as_explicit (a : Ace) : Ace := ace_inherited a false.

Lemma dacl_to_sddl_eq d : dacl_to_sddl d = lit "D:" ++ mjoin (ace_to_sddl <$> entries d).
Proof.
  unfold dacl_to_sddl. generalize (lit "D:"). induction (entries d) as [|a l IH]; intros acc.
  - by rewrite app_nil_r.
  - cbn [fold_left fmap list_fmap mjoin list_join]. rewrite IH. by rewrite <- app_assoc.
Qed.

Lemma descriptor_sections d :
  descriptor_to_sddl d =
  sections (as_str <$> owner d) (as_str <$> group d) (mjoin (ace_to_sddl <$> entries (dacl d))).
Proof. unfold descriptor_to_sddl, sections. rewrite dacl_to_sddl_eq. by destruct (owner d), (group d). Qed.

Lemma dacl_body_chars l : Forall printable_ace l -> Forall sddl_char (mjoin (ace_to_sddl <$> l)).
Proof.
  induction 1 as [|a l Ha _ IH]; [constructor|]. cbn [fmap list_fmap mjoin list_join].
  rewrite ace_to_sddl_body. apply Forall_app. split; [|done].
  apply Forall_cons. split; [unfold sddl_char, graphic; lia|]. apply Forall_app. split.
  - eapply Forall_impl; [by apply ace_body_chars|]. unfold body_char, sddl_char. naive_solver.
  - apply Forall_cons. split; [unfold sddl_char, graphic; lia|constructor].
Qed.

Lemma opt_printable_chars o : opt_printable o -> opt_chars (as_str <$> o).
Proof.
  destruct o as [s|]; [|done]. cbn. intros (p & Hp & ->).
  by apply sid_text_sddl_chars, sid_parts_ok_48.
Qed.

Lemma section_sid_printed b s o m :
  extract_sddl_section s m = as_str <$> o -> opt_printable o -> section_sid b s m = Ok o.
Proof.
  intros He Ho. unfold section_sid. rewrite He. destruct o as [sid|]; [|done].
  destruct Ho as (p & Hp & ->). cbn [fmap option_fmap option_map]. unfold sid_or_alias_to_sid.
  change (as_str (sid_of p)) with (sid_text p). by rewrite from_sddl_trustee_text.
Qed.

Lemma length_ace_list l : (length l <= length (mjoin (ace_to_sddl <$> l)))%nat.
Proof.
  induction l as [|a l IH]; [done|].
  change (mjoin (ace_to_sddl <$> a :: l)) with (ace_to_sddl a ++ mjoin (ace_to_sddl <$> l)).
  rewrite ace_to_sddl_body, length_app. cbn [length]. lia.
Qed.

Lemma sddl_round_trip_with b path d :
  printable d ->
  sddl_to_descriptor b path (descriptor_to_sddl d) =
    let e := with_dacl (descriptor_for b path)
               (canonicalize (from_entries (as_explicit <$> entries (dacl d)))) in
    let e := match owner d with Some o => with_owner e o | None => e end in
    Ok (match group d with Some g => with_group e g | None => e end).
Proof.
  intros (Ho & Hg & Hl). rewrite descriptor_sections. unfold sddl_to_descriptor.
  edestruct (extract_sections (as_str <$> owner d) (as_str <$> group d)
    (mjoin (ace_to_sddl <$> entries (dacl d)))) as (Eo & Eg & Ed);
    auto using opt_printable_chars, dacl_body_chars.
  rewrite (section_sid_printed b _ (owner d)), (section_sid_printed b _ (group d)) by done.
  cbn [res_bind]. unfold parse_dacl_from_sddl. rewrite Ed.
  rewrite parse_printed_aces by (done || apply length_ace_list). done.
Qed.

(** [C1] Writing a descriptor as SDDL and reading it back.  For both
    backends, a descriptor whose SIDs are in canonical spelling and whose
    masks fit 32 bits is read back with the same owner, the same group and
    the same ACEs, put in canonical order, except that every ACE is marked
    explicit: the printer drops the [inherited] flag. *)
Theorem sddl_descriptor_round_trip (path : str) (d : SecurityDescriptor) (Hd : printable d) :
  let read_back := canonicalize (from_entries (as_explicit <$> entries (dacl d))) in
  file_sddl_to_descriptor path (descriptor_to_sddl d) =
    Ok (mkSecurityDescriptor (FilePath path) (owner d) (group d) read_back) /\
  registry_sddl_to_descriptor path (registry_descriptor_to_sddl d) =
    Ok (mkSecurityDescriptor (RegistryPath path) (owner d) (group d) read_back).
Proof.
  unfold file_sddl_to_descriptor, registry_sddl_to_descriptor, registry_descriptor_to_sddl.
  rewrite !sddl_round_trip_with by done. by destruct (owner d), (group d).
Qed.

Definition sample_sid : Sid := sid_of (mk_sid_parts 1 5 [32; 544]).
Definition sample_descriptor : SecurityDescriptor :=
  mkSecurityDescriptor Detached (Some sample_sid) None
    (from_entries
      [mkAce sample_sid Allow (from_bits 0x1F01FF) (mkInheritanceFlags true true false false) true;
       mkAce sample_sid Deny (from_bits 0x10000) default_flags false]).

Lemma sample_printable : printable sample_descriptor.
Proof.
  assert (printable_sid sample_sid) as Hs.
  { exists (mk_sid_parts 1 5 [32; 544]). split; [|done].
    split; [cbn; lia|]. split; [cbn; lia|]. split; [by vm_compute|].
    repeat (apply Forall_cons; split; [lia|]). constructor. }
  split; [done|]. split; [done|].
  repeat (apply Forall_cons; split; [split; [done|cbn; split; cbn; lia]|]). constructor.
Qed.

Lemma sddl_descriptor_round_trip_witness :
  file_sddl_to_descriptor (lit "C:\x") (descriptor_to_sddl sample_descriptor) =
    Ok (mkSecurityDescriptor (FilePath (lit "C:\x")) (Some sample_sid) None
      (from_entries
        [mkAce sample_sid Deny (from_bits 0x10000) default_flags false;
         mkAce sample_sid Allow (from_bits 0x1F01FF) (mkInheritanceFlags true true false false) false])).
Proof.
  exact (proj1 (sddl_descriptor_round_trip (lit "C:\x") sample_descriptor sample_printable)).
Defined.

(** On ASCII text (which is what Windows produces) neither parser
    panics, and its only failure is an access mask it cannot read; every
    descriptor it returns has a DACL in canonical order and the requested
    target. *)
Theorem sddl_to_descriptor_total (path sddl : str) (Hs : ascii_text sddl) :
  ((exists d, file_sddl_to_descriptor path sddl = Ok d /\ canonical (dacl d) /\
      target d = FilePath path) \/
   file_sddl_to_descriptor path sddl =
     Err (file_operation_error "sddl_dacl" "parse ACE access mask")) /\
  ((exists d, registry_sddl_to_descriptor path sddl = Ok d /\ canonical (dacl d) /\
      target d = RegistryPath path) \/
   registry_sddl_to_descriptor path sddl =
     Err (other_error "failed to parse registry ACE access mask")).
Proof.
  assert (forall b, (exists d, sddl_to_descriptor b path sddl = Ok d /\ canonical (dacl d) /\
      target d = target (descriptor_for b path)) \/
      sddl_to_descriptor b path sddl = Err (mask_error b)) as H.
  { intros b. unfold sddl_to_descriptor.
    assert (forall m, exists o, section_sid b sddl m = Ok o) as Hsec.
    { intros m. unfold section_sid. case_match; [|eauto].
      apply res_ok_total, from_sddl_trustee_no_panic. }
    destruct (Hsec 79) as [o ->], (Hsec 71) as [g ->]. cbn [res_bind]. unfold parse_dacl_from_sddl.
    destruct (extract_sddl_section sddl 68) as [t|] eqn:Et.
    - destruct (parse_aces_ascii b (length t) t []) as [[l ->]| ->];
        [by eapply extract_forall|left|by right].
      cbn [res_bind]. eexists. split; [done|].
      destruct o, g; (split; [apply canonicalize_canonical|done]).
    - left. cbn [res_bind]. eexists. split; [done|]. destruct o, g; (split; [constructor|done]). }
  split; [apply (H file_backend)|apply (H registry_backend)].
Qed.

Lemma sddl_to_descriptor_total_witness :
  registry_sddl_to_descriptor (lit "HKLM\a") (lit "D:(A;;ZZ;;;SY)") =
     Err (other_error "failed to parse registry ACE access mask").
Proof.
  destruct (sddl_to_descriptor_total (lit "HKLM\a") (lit "D:(A;;ZZ;;;SY)")) as [_ [(d & H & _)|H]].
  - vm_compute. repeat (apply Forall_cons; split; [split; done|]). constructor.
  - vm_compute in H. discriminate H.
  - exact H.
Defined.

(** The flag field as Windows prints it. *)
Definition windows_flags (oi ci np io id : bool) : str :=
  (if oi then lit "OI" else []) ++ (if ci then lit "CI" else []) ++ (if np then lit "NP" else []) ++
  (if io then lit "IO" else []) ++ (if id then lit "ID" else []).

(** Reading the flag field of an ACE that Windows printed.  Every flag
    is read exactly, with one exception: the tokens are looked for as
    substrings, and an inherit-only inherited ACE, printed as [..IOID],
    contains the letters [OI], so it is read as object-inherit whether or
    not it is. *)
Theorem parse_windows_flags (oi ci np io id : bool) :
  parse_inheritance_flags (windows_flags oi ci np io id) =
    mkInheritanceFlags (oi || (io && id)) ci io np /\
  contains (lit "ID") (windows_flags oi ci np io id) = id.
Proof. by destruct oi, ci, np, io, id. Qed.
