(* ===== verification/Backends.v ===== *)
(** * Backends: reading and writing security descriptors

    The effectful part of src/security/backends/ (mod.rs, file.rs,
    registry.rs) and src/security/target.rs.  The Windows calls are fields of
    a record ([security_api]) over an abstract state of the machine; the
    model counts the blocks that are allocated with [LocalAlloc] and the
    registry handles that are open, so that the theorems can speak about
    what an operation leaves behind. *)

From Stdlib Require Import ZArith Lia String Ascii.
From stdpp Require Import base list strings gmap numbers sorting.
From S2P Require Import Prelude Text Unicode Errors Sid Acl Sddl.

Open Scope Z_scope.

(** ** Helpers of src/utils/strings.rs *)

Definition to_utf16 (value : str) : list Z := encode_utf16 value.
Definition to_utf16_nul (value : str) : list Z := encode_utf16 value ++ [0].
(** The buffer afterwards, whatever it held before. *)
Definition to_utf16_nul_in (value : str) (out_buffer : list Z) : list Z :=
  let out_buffer := [] in (out_buffer ++ encode_utf16 value) ++ [0].

Definition pwstr_to_string_len (value : list Z) : str :=
  if decide (value = []) then [] else from_utf16_lossy value.

(** ** Errors *)

Definition access_denied (resource operation reason : str) : Error :=
  Error_AccessDenied (mkAccessDeniedError resource operation (Some reason)).

Definition privilege_reason : str :=
  lit "required privilege is not held (likely SeRestorePrivilege or SeTakeOwnershipPrivilege)".

Definition map_file_security_status (resource operation : str) (code : Z) : Error :=
  if code =? 5 then access_denied resource operation (lit "access denied")
  else if code =? 1314 then access_denied resource operation privilege_reason
  else Error_FileOperation (mkFileOperationError resource operation (Some code)).

(** [{:08X}] of an [i32] prints its two's complement. *)
Definition map_registry_security_status (resource operation : str) (code : Z) : Error :=
  if code =? 5 then access_denied resource operation (lit "access denied")
  else if code =? 1314 then access_denied resource operation privilege_reason
  else Error_Other (mkOtherError
    (lit "Registry security operation '" ++ operation ++ lit "' failed on '" ++ resource ++
     lit "' (error code: 0x" ++ fmt_hex_pad 8 (wrap 32 code) ++ lit ")")).

Definition windows_api_error (e : win_error) (context : string) : Error :=
  Error_WindowsApi (mkWindowsApiError e (Some (lit context))).

Definition unsupported (path : str) (operation reason : string) : Error :=
  Error_Security (SecurityError_Unsupported
    (mkSecurityUnsupportedError path (lit operation) (Some (lit reason)))).

(** ** Registry paths *)

Inductive hive := HKEY_LOCAL_MACHINE | HKEY_CURRENT_USER | HKEY_CLASSES_ROOT | HKEY_USERS
  | HKEY_CURRENT_CONFIG.

#[export] Instance hive_eq_dec : EqDecision hive.
Proof. solve_decision. Defined.

Definition to_upper (c : Z) : Z := if (97 <=? c) && (c <=? 122) then c - 32 else c.
Definition to_ascii_uppercase (s : str) : str := to_upper <$> s.
Definition normalize_slashes (s : str) : str := (fun c => if c =? 47 then 92 else c) <$> s.

Definition hive_mappings : list (str * hive) :=
  [(lit "HKEY_LOCAL_MACHINE", HKEY_LOCAL_MACHINE); (lit "HKLM", HKEY_LOCAL_MACHINE);
   (lit "HKEY_CURRENT_USER", HKEY_CURRENT_USER); (lit "HKCU", HKEY_CURRENT_USER);
   (lit "HKEY_CLASSES_ROOT", HKEY_CLASSES_ROOT); (lit "HKCR", HKEY_CLASSES_ROOT);
   (lit "HKEY_USERS", HKEY_USERS); (lit "HKU", HKEY_USERS);
   (lit "HKEY_CURRENT_CONFIG", HKEY_CURRENT_CONFIG); (lit "HKCC", HKEY_CURRENT_CONFIG)].

Definition path_error (reason : string) : Error :=
  Error_InvalidParameter (mkInvalidParameterError (lit "path") (lit reason)).

Fixpoint match_hive (mappings : list (str * hive)) (normalized upper : str)
    : res Error (hive * str) :=
  match mappings with
  | [] => Err (path_error "registry path must start with HKLM/HKCU/HKCR/HKU/HKCC")
  | (prefix, h) :: mappings =>
      if decide (upper = prefix) then Ok (h, [])
      else if starts_with (prefix ++ [92]) upper
      then Ok (h, drop (length prefix + 1) normalized)
      else match_hive mappings normalized upper
  end.

Definition parse_registry_path (path : str) : res Error (hive * str) :=
  if decide (trim path = []) then Err (path_error "registry path cannot be empty")
  else
    let normalized := normalize_slashes path in
    match_hive hive_mappings normalized (to_ascii_uppercase normalized).

(** ** The Windows calls *)

Definition OWNER_SECURITY_INFORMATION : Z := 1.
Definition GROUP_SECURITY_INFORMATION : Z := 2.
Definition DACL_SECURITY_INFORMATION : Z := 4.
Definition PROTECTED_DACL_SECURITY_INFORMATION : Z := 0x80000000.

Definition READ_CONTROL_RIGHT : Z := 0x00020000.
Definition WRITE_DAC_RIGHT : Z := 0x00040000.
Definition WRITE_OWNER_RIGHT : Z := 0x00080000.

(** The machine is an abstract state.  A status of [0] is success; a null
    pointer is [None]. *)
Class security_api (W psd psid acl key : Type) := {
  ConvertStringToSD : list Z -> win_error + psd;
  ConvertSDToString : psd -> Z -> win_error + list Z;
  GetSecurityDescriptorDacl : psd -> win_error + (bool * option acl);
  GetSecurityDescriptorOwner : psd -> win_error + option psid;
  GetSecurityDescriptorGroup : psd -> win_error + option psid;
  GetNamedSecurityInfoW : W -> list Z -> Z -> Z * psd;
  SetNamedSecurityInfoW : W -> list Z -> Z -> option psid -> option psid -> acl -> Z * W;
  RegOpenKeyExW : W -> hive -> list Z -> Z -> Z * key;
  GetSecurityInfo : W -> key -> Z -> Z * psd;
  SetSecurityInfo : W -> key -> Z -> option psid -> option psid -> acl -> Z * W }.

Section Io.
Context {W psd psid acl key : Type} `{api : !security_api W psd psid acl key}.

(** The state an operation runs in: the machine, the number of blocks this
    process holds from [LocalAlloc], and its open registry keys. *)
Record st := mk_st { machine : W; live_blocks : Z; open_keys : Z }.

Definition io (A : Type) : Type := st -> res Error A * st.

Definition io_ret {A} (m : res Error A) : io A := fun s => (m, s).
Definition io_bind {A B} (m : io A) (k : A -> io B) : io B := fun s =>
  match m s with
  | (Ok a, s) => k a s
  | (Err e, s) => (Err e, s)
  | (Panic p, s) => (Panic p, s)
  end.

Definition alloc : io unit := fun s => (Ok tt, mk_st (machine s) (live_blocks s + 1) (open_keys s)).
Definition LocalFree : io unit := fun s => (Ok tt, mk_st (machine s) (live_blocks s - 1) (open_keys s)).

(** A value with a destructor: [dtor] runs after [m] whatever its outcome. *)
Definition scoped {A} (dtor : st -> st) (m : io A) : io A := fun s =>
  let '(r, s) := m s in (r, dtor s).

Definition drop_descriptor (s : st) : st := snd (LocalFree s).
Definition RegCloseKey (s : st) : st := mk_st (machine s) (live_blocks s) (open_keys s - 1).
End Io.
Arguments st : clear implicits.

Declare Scope io_scope.
Delimit Scope io_scope with io.
Notation "'do!' x ':=' m 'in' k" := (io_bind m (fun x => k))
  (at level 10, x pattern, m at level 100, k at level 200,
   format "'[v' 'do!'  x  ':='  m  'in' '/' k ']'") : io_scope.
Open Scope io_scope.

Section Operations.
Context {W psd psid acl key : Type} `{api : !security_api W psd psid acl key}.
Abbreviation IO := (@io W).

(** A call that returns a [windows::core::Result]. *)
Definition call {A} (context : string) (r : win_error + A) : IO A :=
  match r with
  | inl e => io_ret (Err (windows_api_error e context))
  | inr a => io_ret (Ok a)
  end.

(** ** Building the pieces of a descriptor to write *)

Definition all_information : Z :=
  Z.lor (Z.lor OWNER_SECURITY_INFORMATION GROUP_SECURITY_INFORMATION) DACL_SECURITY_INFORMATION.

(** Free the descriptor and return an error. *)
Definition free_and_fail {A} (e : Error) : IO A :=
  do! _ := LocalFree in io_ret (Err e).

(** A SID to set: only when the descriptor has one, and then it has to be
    there. *)
Definition sid_for_set (wanted : bool) (found : option psid) (missing : Error) : IO (option psid) :=
  if wanted then
    match found with
    | None => free_and_fail missing
    | Some s => io_ret (Ok (Some s))
    end
  else io_ret (Ok None).

(** From the SDDL text to the call that sets it, in the order of the code;
    [missing] builds the error for a missing part, [set] is the call. *)
Definition write_sddl (missing : string -> Error)
    (set : W -> Z -> option psid -> option psid -> acl -> Z * W)
    (failed : Z -> Error) (has_owner has_group : bool) (sddl : str) : IO unit :=
  do! descriptor := call "ConvertStringSecurityDescriptorToSecurityDescriptorW"
                      (ConvertStringToSD (to_utf16_nul sddl)) in
  do! _ := alloc in
  do! (dacl_present, dacl) := call "GetSecurityDescriptorDacl" (GetSecurityDescriptorDacl descriptor) in
  match (if dacl_present then dacl else None) with
  | None => free_and_fail (missing "generated security descriptor has no DACL")
  | Some dacl =>
      do! owner_sid := call "GetSecurityDescriptorOwner" (GetSecurityDescriptorOwner descriptor) in
      do! group_sid := call "GetSecurityDescriptorGroup" (GetSecurityDescriptorGroup descriptor) in
      do! owner_for_set := sid_for_set has_owner owner_sid
                             (missing "generated security descriptor has no owner SID") in
      do! group_for_set := sid_for_set has_group group_sid
                             (missing "generated security descriptor has no group SID") in
      let security_information :=
        let info := DACL_SECURITY_INFORMATION in
        let info := if has_owner then Z.lor info OWNER_SECURITY_INFORMATION else info in
        if has_group then Z.lor info GROUP_SECURITY_INFORMATION else info in
      do! status := (fun s =>
        let '(status, w) := set (machine s) security_information owner_for_set group_for_set dacl in
        (Ok status, mk_st w (live_blocks s) (open_keys s))) in
      do! _ := LocalFree in
      io_ret (if status =? 0 then Ok tt else Err (failed (as_i32 status)))
  end.

Definition is_some {A} (o : option A) : bool := match o with Some _ => true | None => false end.

Definition file_write_descriptor (path : str) (descriptor : SecurityDescriptor) : IO unit :=
  write_sddl (unsupported path "write_descriptor")
    (fun w => SetNamedSecurityInfoW w (to_utf16_nul path))
    (map_file_security_status path (lit "SetNamedSecurityInfoW"))
    (is_some (owner descriptor)) (is_some (group descriptor)) (descriptor_to_sddl descriptor).

(** ** Reading *)

(** From the descriptor Windows returned to the parsed one. *)
Definition read_text (descriptor : psd) (information : Z) (fail_frees : bool) : IO str :=
  match ConvertSDToString descriptor information with
  | inl e =>
      do! _ := (if fail_frees then LocalFree else io_ret (Ok tt)) in
      io_ret (Err (windows_api_error e "ConvertSecurityDescriptorToStringSecurityDescriptorW"))
  | inr text =>
      do! _ := alloc in
      let sddl_str := pwstr_to_string_len text in
      do! _ := LocalFree in
      io_ret (Ok sddl_str)
  end.

Definition file_read_descriptor (path : str) : IO SecurityDescriptor := fun s =>
  let '(status, descriptor) :=
    GetNamedSecurityInfoW (machine s) (to_utf16_nul path) all_information in
  (if negb (status =? 0)
   then io_ret (Err (Error_FileOperation
          (mkFileOperationError path (lit "GetNamedSecurityInfoW") (Some (as_i32 status)))))
   else
     do! _ := alloc in
     do! sddl_str := read_text descriptor all_information true in
     do! _ := LocalFree in
     io_ret (file_sddl_to_descriptor path sddl_str)) s.

(** ** Registry keys *)

(** [open_registry_key], and the rest of the function under its guard: the
    [Drop] of [OpenRegistryKey] closes the key on every exit. *)
Definition with_registry_key {A} (h : hive) (subkey : str) (sam_desired : Z) (k : key -> IO A) : IO A :=
  fun s =>
    let '(status, handle) := RegOpenKeyExW (machine s) h (to_utf16_nul subkey) sam_desired in
    if negb (status =? 0)
    then (Err (map_registry_security_status subkey (lit "RegOpenKeyExW") (as_i32 status)), s)
    else scoped RegCloseKey (k handle) (mk_st (machine s) (live_blocks s) (open_keys s + 1)).

Definition registry_write_descriptor (path : str) (descriptor : SecurityDescriptor) : IO unit :=
  do! (h, subkey) := io_ret (parse_registry_path path) in
  let desired_access :=
    let access := Z.lor READ_CONTROL_RIGHT WRITE_DAC_RIGHT in
    if is_some (owner descriptor) || is_some (group descriptor)
    then Z.lor access WRITE_OWNER_RIGHT else access in
  with_registry_key h subkey desired_access (fun handle =>
    write_sddl other_error (fun w => SetSecurityInfo w handle)
      (map_registry_security_status path (lit "SetSecurityInfo"))
      (is_some (owner descriptor)) (is_some (group descriptor))
      (registry_descriptor_to_sddl descriptor)).

Definition registry_read_descriptor (path : str) : IO SecurityDescriptor :=
  do! (h, subkey) := io_ret (parse_registry_path path) in
  with_registry_key h subkey READ_CONTROL_RIGHT (fun handle s =>
    let '(status, descriptor) := GetSecurityInfo (machine s) handle all_information in
    (if negb (status =? 0)
     then io_ret (Err (map_registry_security_status path (lit "GetSecurityInfo") (as_i32 status)))
     else
       do! _ := alloc in
       do! sddl_str := read_text descriptor all_information true in
       do! _ := LocalFree in
       io_ret (registry_sddl_to_descriptor path sddl_str)) s).

(** ** Protected DACLs *)

(** [dacl_from_sddl], and the rest of the function under the guard of the
    [LocalDescriptor] it returns. *)
Definition with_dacl_from_sddl {A} (path : str) (operation : string) (sddl : str)
    (k : acl -> IO A) : IO A :=
  do! descriptor := call "ConvertStringSecurityDescriptorToSecurityDescriptorW"
                      (ConvertStringToSD (to_utf16_nul sddl)) in
  do! _ := alloc in
  scoped drop_descriptor (
    do! (dacl_present, dacl) := call "GetSecurityDescriptorDacl" (GetSecurityDescriptorDacl descriptor) in
    match (if dacl_present then dacl else None) with
    | None => io_ret (Err (unsupported path operation "SDDL has no DACL"))
    | Some dacl => k dacl
    end).

Definition protected_information : Z :=
  Z.lor DACL_SECURITY_INFORMATION PROTECTED_DACL_SECURITY_INFORMATION.

Definition set_dacl (set : W -> Z -> option psid -> option psid -> acl -> Z * W)
    (failed : Z -> Error) (dacl : acl) : IO unit := fun s =>
  let '(status, w) := set (machine s) protected_information None None dacl in
  (if status =? 0 then Ok tt else Err (failed (as_i32 status)),
   mk_st w (live_blocks s) (open_keys s)).

Definition file_set_protected_dacl (path sddl : str) : IO unit :=
  with_dacl_from_sddl path "set_protected_dacl" sddl
    (set_dacl (fun w => SetNamedSecurityInfoW w (to_utf16_nul path))
       (map_file_security_status path (lit "SetNamedSecurityInfoW"))).

Definition registry_set_protected_dacl (path sddl : str) : IO unit :=
  with_dacl_from_sddl path "set_protected_dacl" sddl (fun dacl =>
    do! (h, subkey) := io_ret (parse_registry_path path) in
    with_registry_key h subkey (Z.lor READ_CONTROL_RIGHT WRITE_DAC_RIGHT) (fun handle =>
      set_dacl (fun w => SetSecurityInfo w handle)
        (map_registry_security_status path (lit "SetSecurityInfo")) dacl)).

Definition dacl_to_sddl_string (descriptor : psd) : IO str :=
  do! text := read_text descriptor DACL_SECURITY_INFORMATION false in
  io_ret (Ok (trim_end_nul text)).

Definition file_dacl_sddl (path : str) : IO str := fun s =>
  let '(status, descriptor) :=
    GetNamedSecurityInfoW (machine s) (to_utf16_nul path) DACL_SECURITY_INFORMATION in
  (if negb (status =? 0)
   then io_ret (Err (map_file_security_status path (lit "GetNamedSecurityInfoW") (as_i32 status)))
   else do! _ := alloc in scoped drop_descriptor (dacl_to_sddl_string descriptor)) s.

Definition registry_dacl_sddl (path : str) : IO str :=
  do! (h, subkey) := io_ret (parse_registry_path path) in
  with_registry_key h subkey READ_CONTROL_RIGHT (fun handle s =>
    let '(status, descriptor) := GetSecurityInfo (machine s) handle DACL_SECURITY_INFORMATION in
    (if negb (status =? 0)
     then io_ret (Err (map_registry_security_status path (lit "GetSecurityInfo") (as_i32 status)))
     else do! _ := alloc in scoped drop_descriptor (dacl_to_sddl_string descriptor)) s).

(** ** src/security/target.rs *)

Inductive PermissionTarget :=
  | TargetFilePath (path : str)
  | TargetRegistryPath (path : str).

Definition target_read_descriptor (t : PermissionTarget) : IO SecurityDescriptor :=
  match t with
  | TargetFilePath path => file_read_descriptor path
  | TargetRegistryPath path => registry_read_descriptor path
  end.

Definition target_write_descriptor (t : PermissionTarget) (d : SecurityDescriptor) : IO unit :=
  match t with
  | TargetFilePath path => file_write_descriptor path d
  | TargetRegistryPath path => registry_write_descriptor path d
  end.

Definition set_protected_dacl_sddl (t : PermissionTarget) (sddl : str) : IO unit :=
  match t with
  | TargetFilePath path => file_set_protected_dacl path sddl
  | TargetRegistryPath path => registry_set_protected_dacl path sddl
  end.

Definition target_dacl_sddl (t : PermissionTarget) : IO str :=
  match t with
  | TargetFilePath path => file_dacl_sddl path
  | TargetRegistryPath path => registry_dacl_sddl path
  end.
End Operations.

(** ** Registry paths: properties *)

Lemma length_upper s : length (to_ascii_uppercase s) = length s.
Proof. apply length_fmap. Qed.

Lemma starts_component q p rest :
  lacks 92 q -> lacks 92 p ->
  starts_with (q ++ [92]) (p ++ 92 :: rest) = bool_decide (q = p).
Proof.
  intros Hq. revert p. induction Hq as [|a q Ha Hq IH]; intros p Hp.
  - destruct Hp as [|b p Hb Hp]; [done|]. cbn [app]. unfold starts_with. cbn [strip_prefix].
    by replace (92 =? b) with false by (cbn in Hb; lia).
  - destruct Hp as [|b p Hb Hp]; unfold starts_with; cbn [app strip_prefix].
    + by replace (a =? 92) with false by (cbn in Ha; lia).
    + destruct (a =? b) eqn:E.
      * apply Z.eqb_eq in E as ->. fold (starts_with (q ++ [92]) (p ++ 92 :: rest)).
        rewrite IH by done. apply bool_decide_ext. naive_solver.
      * rewrite bool_decide_eq_false_2; [done|]. intros [= -> _]. lia.
Qed.

Lemma match_hive_prefix mappings p h rest norm :
  (p, h) ∈ mappings -> NoDup mappings.*1 -> Forall (lacks 92) mappings.*1 ->
  match_hive mappings norm (p ++ 92 :: rest) = Ok (h, drop (length p + 1) norm).
Proof.
  intros Hin Hnd Hl.
  assert (lacks 92 p) as Hp.
  { rewrite Forall_forall in Hl. apply Hl. by apply (list_elem_of_fmap_2 fst) in Hin. }
  induction mappings as [|[q hq] mappings IH]; [by apply elem_of_nil in Hin|].
  cbn in Hnd, Hl. apply NoDup_cons in Hnd as [Hq Hnd]. apply Forall_cons in Hl as [Hlq Hl].
  cbn [match_hive]. rewrite decide_False.
  2:{ intros <-. apply Forall_app in Hlq as [_ Hlq]. by apply Forall_cons in Hlq as [? _]. }
  rewrite starts_component by done. apply elem_of_cons in Hin as [[= -> ->]|Hin].
  - by rewrite bool_decide_eq_true_2.
  - rewrite bool_decide_eq_false_2; [by apply IH|]. intros ->. apply Hq.
    by apply (list_elem_of_fmap_2 fst) in Hin.
Qed.

Lemma hive_mappings_ok : NoDup hive_mappings.*1 /\ Forall (lacks 92) hive_mappings.*1.
Proof.
  split; [apply (bool_decide_unpack _); by vm_compute|]. vm_compute.
  repeat (apply Forall_cons; split; [repeat (apply Forall_cons; split; [done|]); constructor|]).
  constructor.
Qed.

(** Every spelling of a hive name (long or short, any case) followed by
    a slash of either kind selects that hive, and the sub-key is the rest of
    the path with its slashes normalised; the hive name alone selects the
    hive itself. *)
Theorem parse_registry_path_spec (p prefix sub : str) (h : hive) (sep : Z)
    (Hin : (prefix, h) ∈ hive_mappings) (Hp : to_ascii_uppercase p = prefix)
    (Hsep : sep = 92 \/ sep = 47) :
  parse_registry_path p = Ok (h, []) /\
  parse_registry_path (p ++ sep :: sub) = Ok (h, normalize_slashes sub).
Proof.
  assert (exists c p', p = c :: p' /\ graphic c) as (c & p' & Ec & Hc).
  { assert (exists c l, prefix = c :: l /\ c = 72) as (c & l & E & E').
    { repeat (apply elem_of_cons in Hin as [[= -> ->]|Hin]); [..|by apply elem_of_nil in Hin]; by eexists _, _. }
    destruct p as [|d p']; [by rewrite <- Hp in E|]. exists d, p'. split; [done|].
    rewrite <- Hp in E. injection E as E _. unfold to_upper, graphic in *. case_match; lia. }
  assert (normalize_slashes p = p) as En.
  { assert (lacks 47 prefix) as Hl.
    { repeat (apply elem_of_cons in Hin as [[= -> ->]|Hin]); [..|by apply elem_of_nil in Hin];
        vm_compute; repeat (apply Forall_cons; split; [done|]); constructor. }
    rewrite <- Hp in Hl. unfold to_ascii_uppercase, lacks in Hl. rewrite Forall_fmap in Hl.
    clear -Hl. induction Hl as [|x l Hx _ IH]; [done|].
    change (normalize_slashes (x :: l)) with ((if x =? 47 then 92 else x) :: normalize_slashes l).
    rewrite IH. f_equal.
    unfold to_upper in Hx. cbn in Hx. repeat case_match; lia. }
  assert (forall r, c ∈ p ++ r) as Hcp by (intros; rewrite Ec; left).
  assert (forall r, trim (p ++ r) <> []) as Hne.
  { intros r E. pose proof (trim_keeps c (p ++ r) Hc (Hcp r)) as Hk. rewrite E in Hk. by apply elem_of_nil in Hk. }
  unfold parse_registry_path. split.
  - specialize (Hne []). rewrite app_nil_r in Hne. rewrite decide_False, En, Hp by done.
    repeat (apply elem_of_cons in Hin as [[= -> ->]|Hin]); [..|by apply elem_of_nil in Hin]; by vm_compute.
  - rewrite decide_False by done. unfold normalize_slashes. rewrite fmap_app.
    fold (normalize_slashes p). rewrite En. cbn [fmap list_fmap].
    replace (if sep =? 47 then 92 else sep) with 92 by (destruct Hsep as [-> | ->]; done).
    fold (normalize_slashes sub). unfold to_ascii_uppercase. rewrite fmap_app.
    fold (to_ascii_uppercase p). rewrite Hp. cbn [fmap list_fmap].
    change (to_upper 92) with 92. rewrite (match_hive_prefix _ prefix h) by (done || apply hive_mappings_ok).
    rewrite <- Hp, length_upper, <- (drop_drop _ 1 (length p)), drop_app_length. done.
Qed.

Lemma parse_registry_path_spec_witness :
  parse_registry_path (lit "hklm/Software/x") = Ok (HKEY_LOCAL_MACHINE, lit "Software\x").
Proof.
  refine (proj2 (parse_registry_path_spec (lit "hklm") (lit "HKLM") (lit "Software/x")
    HKEY_LOCAL_MACHINE 47 _ _ _)); [right; left|by vm_compute|by right].
Defined.

(** ** What an operation leaves behind *)

Section Accounting.
Context {W psd psid acl key : Type} `{api : !security_api W psd psid acl key}.

(** An action that gives back every block and every key on all outcomes. *)
Definition balanced {A} (m : @io W A) : Prop :=
  forall s, live_blocks (snd (m s)) = live_blocks s /\ open_keys (snd (m s)) = open_keys s.

(** An action that gives back everything and does not change the machine. *)
Definition read_only {A} (m : @io W A) : Prop := forall s, snd (m s) = s.

Lemma read_only_ret {A} (r : res Error A) : read_only (io_ret r).
Proof. by intros s. Qed.

Lemma read_only_bind {A B} (m : @io W A) (k : A -> @io W B) :
  read_only m -> (forall a, read_only (k a)) -> read_only (io_bind m k).
Proof.
  intros Hm Hk s. unfold io_bind. specialize (Hm s). destruct (m s) as [[a|e|p] s'];
    cbn in Hm; subst; [apply Hk|done..].
Qed.

Lemma balanced_bind {A B} (m : @io W A) (k : A -> @io W B) :
  balanced m -> (forall a, balanced (k a)) -> balanced (io_bind m k).
Proof.
  intros Hm Hk s. unfold io_bind. specialize (Hm s). destruct (m s) as [[a|e|p] s'];
    cbn in Hm; [|done..]. specialize (Hk a s'). cbn in Hm. destruct Hm as [<- <-]. apply Hk.
Qed.

Lemma read_only_balanced {A} (m : @io W A) : read_only m -> balanced m.
Proof. intros H s. by rewrite H. Qed.

Lemma alloc_free_state (s : st W) :
  mk_st (machine s) (live_blocks s + 1 - 1) (open_keys s) = s.
Proof. destruct s as [m l o]. cbn. f_equal. lia. Qed.

(** A block that a guard frees. *)
Lemma scoped_block_read_only {A} (m : @io W A) :
  read_only m -> read_only (do! _ := alloc in scoped drop_descriptor m).
Proof.
  intros Hm s. unfold io_bind, scoped, drop_descriptor, alloc. cbn.
  specialize (Hm (mk_st (machine s) (live_blocks s + 1) (open_keys s))).
  destruct (m _) as [r s']. cbn in *. subst. exact (alloc_free_state s).
Qed.

Lemma scoped_block_balanced {A} (m : @io W A) :
  balanced m -> balanced (do! _ := alloc in scoped drop_descriptor m).
Proof.
  intros Hm s. unfold io_bind, scoped, drop_descriptor, alloc. cbn.
  specialize (Hm (mk_st (machine s) (live_blocks s + 1) (open_keys s))).
  destruct (m _) as [r s']. cbn in *. lia.
Qed.

Lemma with_key_read_only {A} h subkey sam (k : key -> @io W A) :
  (forall handle, read_only (k handle)) -> read_only (with_registry_key h subkey sam k).
Proof.
  intros Hk s. unfold with_registry_key, scoped, RegCloseKey.
  destruct (RegOpenKeyExW _ _ _ _) as [status handle]. case_match; [done|].
  specialize (Hk handle (mk_st (machine s) (live_blocks s) (open_keys s + 1))).
  destruct (k handle _) as [r s']. cbn in *. subst. cbn. destruct s. cbn. f_equal. lia.
Qed.

Lemma with_key_balanced {A} h subkey sam (k : key -> @io W A) :
  (forall handle, balanced (k handle)) -> balanced (with_registry_key h subkey sam k).
Proof.
  intros Hk s. unfold with_registry_key, scoped, RegCloseKey.
  destruct (RegOpenKeyExW _ _ _ _) as [status handle]. case_match; [done|].
  specialize (Hk handle (mk_st (machine s) (live_blocks s) (open_keys s + 1))).
  destruct (k handle _) as [r s']. cbn in *. lia.
Qed.

Lemma call_read_only {A} c (r : win_error + A) : read_only (call c r).
Proof. by destruct r; intros s. Qed.

Lemma read_text_read_only d info : read_only (read_text d info false).
Proof.
  intros s. unfold read_text. destruct (ConvertSDToString d info); [done|].
  exact (alloc_free_state s).
Qed.

Lemma read_and_parse_read_only d info (parser : str -> res Error SecurityDescriptor) :
  read_only (do! _ := alloc in
             do! sddl_str := read_text d info true in
             do! _ := LocalFree in io_ret (parser sddl_str)).
Proof.
  intros [m l o]. unfold read_text, io_bind, alloc, LocalFree, io_ret.
  destruct (ConvertSDToString d info); cbn; f_equal; lia.
Qed.

Lemma dacl_to_sddl_string_read_only d : read_only (dacl_to_sddl_string d).
Proof. apply read_only_bind; [apply read_text_read_only|intros; apply read_only_ret]. Qed.

Lemma set_dacl_balanced (set : W -> Z -> option psid -> option psid -> acl -> Z * W) failed dacl :
  balanced (set_dacl set failed dacl).
Proof. intros s. unfold set_dacl. by destruct (set _ _ _ _ _). Qed.

Lemma with_dacl_balanced {A} path op sddl (k : acl -> @io W A) :
  (forall dacl, balanced (k dacl)) -> balanced (with_dacl_from_sddl path op sddl k).
Proof.
  intros Hk. unfold with_dacl_from_sddl.
  apply balanced_bind; [apply read_only_balanced, call_read_only|]. intros d.
  apply scoped_block_balanced.
  apply balanced_bind; [apply read_only_balanced, call_read_only|].
  intros [present dacl]. case_match; [apply Hk|apply read_only_balanced, read_only_ret].
Qed.

Lemma target_read_only (t : PermissionTarget) :
  read_only (target_read_descriptor t) /\ read_only (target_dacl_sddl t).
Proof.
  destruct t as [path|path]; split.
  - intros s. cbn. unfold file_read_descriptor.
    destruct (GetNamedSecurityInfoW _ _ _) as [status d]. case_match; [done|].
    apply read_and_parse_read_only.
  - intros s. cbn. unfold file_dacl_sddl.
    destruct (GetNamedSecurityInfoW _ _ _) as [status d]. case_match; [done|].
    apply scoped_block_read_only, dacl_to_sddl_string_read_only.
  - apply read_only_bind; [apply read_only_ret|]. intros [h subkey].
    apply with_key_read_only. intros handle s.
    destruct (GetSecurityInfo _ _ _) as [status d]. case_match; [done|].
    apply read_and_parse_read_only.
  - apply read_only_bind; [apply read_only_ret|]. intros [h subkey].
    apply with_key_read_only. intros handle s.
    destruct (GetSecurityInfo _ _ _) as [status d]. case_match; [done|].
    apply scoped_block_read_only, dacl_to_sddl_string_read_only.
Qed.

(** Reading a descriptor or its SDDL text, from a file or a registry
    key, leaves the process as it was on every path, errors and panics
    included: the machine is unchanged, every [LocalAlloc] block is freed
    once and the registry key is closed. *)
Theorem target_reads_leave_nothing (t : PermissionTarget) (s : st W) :
  snd (target_read_descriptor t s) = s /\ snd (target_dacl_sddl t s) = s.
Proof. destruct (target_read_only t) as [H1 H2]. split; [apply H1|apply H2]. Qed.

(** The errors after which a write keeps its block: the three calls whose
    [map_err] does not free it. *)
Definition leaking_error (e : Error) : Prop :=
  exists err c, e = windows_api_error err c /\
    (c = "GetSecurityDescriptorDacl" \/ c = "GetSecurityDescriptorOwner" \/
     c = "GetSecurityDescriptorGroup")%string.

Lemma write_sddl_spec missing (set : W -> Z -> option psid -> option psid -> acl -> Z * W)
    failed o g sddl (s : st W) :
  let '(r, s') := write_sddl missing set failed o g sddl s in
  open_keys s' = open_keys s /\
  (live_blocks s' = live_blocks s \/
   (live_blocks s' = live_blocks s + 1 /\ machine s' = machine s /\ exists e, r = Err e /\ leaking_error e)) /\
  (machine s' = machine s /\ r <> Ok tt \/
   exists dacl osid gsid status,
     set (machine s) (4 + (if o then 1 else 0) + (if g then 2 else 0)) osid gsid dacl =
       (status, machine s') /\
     is_some osid = o /\ is_some gsid = g /\
     r = (if status =? 0 then Ok tt else Err (failed (as_i32 status)))).
Proof.
  unfold write_sddl, call, io_bind, alloc, LocalFree, io_ret, free_and_fail, leaking_error.
  destruct (ConvertStringToSD _) as [e|d]; [split_and!; try done; auto; by left|]. cbn.
  destruct (GetSecurityDescriptorDacl d) as [e|[present dacl]]; cbn.
  { split_and!; [done|right; split_and!; [lia|done|naive_solver]|by left]. }
  destruct (if present then dacl else None) as [a|]; cbn; [|split_and!; [done|left; lia|by left]].
  destruct (GetSecurityDescriptorOwner d) as [e|osid]; cbn.
  { split_and!; [done|right; split_and!; [lia|done|naive_solver]|by left]. }
  destruct (GetSecurityDescriptorGroup d) as [e|gsid]; cbn.
  { split_and!; [done|right; split_and!; [lia|done|naive_solver]|by left]. }
  unfold sid_for_set, free_and_fail, LocalFree, io_ret, io_bind.
  destruct o, g, osid as [os|], gsid as [gs|]; cbn;
    try (split_and!; [done|left; lia|by left]);
    (destruct (set _ _ _ _ _) as [status w] eqn:Es; cbn;
     split_and!; [done|left; lia|right; eexists _, _, _, status; split_and!; [exact Es|done..]]).
Qed.

Lemma with_key_result {A} h subkey sam (k : key -> @io W A) s :
  (exists e, with_registry_key h subkey sam k s = (Err e, s)) \/
  exists handle r s', k handle (mk_st (machine s) (live_blocks s) (open_keys s + 1)) = (r, s') /\
    with_registry_key h subkey sam k s = (r, RegCloseKey s').
Proof.
  unfold with_registry_key, scoped. destruct (RegOpenKeyExW _ _ _ _) as [status handle].
  case_match; [left; by eexists|right]. exists handle.
  destruct (k handle _) as [r s']. by eexists _, _.
Qed.

(** Writing a descriptor.  On every path the registry key is closed and
    the security-descriptor block is freed, except when one of the three
    [GetSecurityDescriptor*] calls fails: then the block is leaked, and only
    then.  Protected-DACL writes free and close on every path. *)
Theorem target_writes_leave_nothing (t : PermissionTarget) (d : SecurityDescriptor) (sddl : str)
    (s : st W) :
  (let '(r, s') := target_write_descriptor t d s in
   open_keys s' = open_keys s /\
   (live_blocks s' = live_blocks s \/
    (live_blocks s' = live_blocks s + 1 /\ machine s' = machine s /\
     exists e, r = Err e /\ leaking_error e))) /\
  (let '(r, s') := set_protected_dacl_sddl t sddl s in
   open_keys s' = open_keys s /\ live_blocks s' = live_blocks s).
Proof.
  split.
  - destruct t as [path|path]; cbn [target_write_descriptor].
    + unfold file_write_descriptor. pose proof (write_sddl_spec (unsupported path "write_descriptor")
        (fun w => SetNamedSecurityInfoW w (to_utf16_nul path))
        (map_file_security_status path (lit "SetNamedSecurityInfoW"))
        (is_some (owner d)) (is_some (group d)) (descriptor_to_sddl d) s) as H.
      destruct (write_sddl _ _ _ _ _ _ _) as [r s']. naive_solver.
    + unfold registry_write_descriptor, io_bind at 1, io_ret at 1.
      destruct (parse_registry_path path) as [[h subkey]|e|p]; [|auto..].
      match goal with |- context [with_registry_key ?h ?sk ?sam ?k ?s] =>
        destruct (with_key_result h sk sam k s) as [(e & ->)|(handle & r & s' & Hk & ->)] end; [auto|].
      match type of Hk with write_sddl ?a ?b ?c ?d ?e ?f ?s = _ =>
        pose proof (write_sddl_spec a b c d e f s) as H end.
      rewrite Hk in H. cbn in H |- *. destruct H as (H1 & H2 & _). split; [lia|exact H2].
  - assert (balanced (set_protected_dacl_sddl t sddl)) as H.
    { destruct t as [path|path]; cbn [set_protected_dacl_sddl]; apply with_dacl_balanced; intros dacl.
      - apply set_dacl_balanced.
      - apply balanced_bind; [apply read_only_balanced, read_only_ret|]. intros [h subkey].
        apply with_key_balanced. intros handle. apply set_dacl_balanced. }
    specialize (H s). destruct (set_protected_dacl_sddl t sddl s). cbn in H. naive_solver.
Qed.

(** The effect of a write on a file: either nothing was changed and an
    error is returned, or the new DACL was handed to Windows in exactly one
    call, together with the owner and the group precisely when the descriptor
    has them, with the matching information bits, and the result reports that
    call's status. *)
Theorem file_write_sets_once (path : str) (d : SecurityDescriptor) (s : st W) :
  let '(r, s') := file_write_descriptor path d s in
  machine s' = machine s /\ r <> Ok tt \/
  exists dacl osid gsid status,
    SetNamedSecurityInfoW (machine s) (to_utf16_nul path)
      (4 + (if is_some (owner d) then 1 else 0) + (if is_some (group d) then 2 else 0))
      osid gsid dacl = (status, machine s') /\
    is_some osid = is_some (owner d) /\ is_some gsid = is_some (group d) /\
    r = (if status =? 0 then Ok tt
         else Err (map_file_security_status path (lit "SetNamedSecurityInfoW") (as_i32 status))).
Proof.
  unfold file_write_descriptor. match goal with |- context [write_sddl ?a ?b ?c ?d ?e ?f s] =>
    pose proof (write_sddl_spec a b c d e f s) as H end.
  destruct (write_sddl _ _ _ _ _ _ _) as [r s']. naive_solver.
Qed.
End Accounting.
