(* ===== verification/Editor.v ===== *)
(** * Editor: permission edit plans (src/security/editor.rs)

    The planner and its in-memory application, and its use of a target
    through the interface [TargetBackend], which the backends of
    src/security/target.rs implement. *)

From Stdlib Require Import ZArith Lia String Ascii.
From stdpp Require Import base list strings gmap numbers sorting.
From S2P Require Import Prelude Text Errors Sid Acl Sddl Backends.

Open Scope Z_scope.

(** ** Data *)

Inductive ApplyMode := ValidateOnly | Apply | DryRunDiff.

#[export] Instance ApplyMode_eq_dec : EqDecision ApplyMode.
Proof. solve_decision. Defined.

Record PermissionEditPolicy := mkPolicy {
  preserve_inherited : bool;
  reject_conflicting_changes : bool }.

Definition default_policy : PermissionEditPolicy := mkPolicy true true.

Inductive PermissionOperation :=
  | OpGrant (trustee : Sid) (access : AccessMask)
  | OpDeny (trustee : Sid) (access : AccessMask)
  | OpRevoke (trustee : Sid) (access : option AccessMask)
  | OpReplaceTrustee (old_trustee new_trustee : Sid).

Record PermissionEditor := mkEditor {
  editor_policy : PermissionEditPolicy;
  editor_operations : list PermissionOperation }.

Record PermissionEditPlan := mkPlan {
  plan_policy : PermissionEditPolicy;
  plan_operations : list PermissionOperation }.

Record PermissionDiff := mkDiff { added : list Ace; removed : list Ace }.

Record PermissionEditResult := mkEditResult {
  result_mode : ApplyMode;
  updated_dacl : option Dacl;
  result_diff : PermissionDiff }.

Record DescriptorEditResult := mkDescriptorEditResult {
  descriptor_mode : ApplyMode;
  updated_descriptor : option SecurityDescriptor;
  descriptor_diff : PermissionDiff }.

(** ** [impl PermissionEditor] *)

Definition editor_new : PermissionEditor := mkEditor default_policy [].
Definition set_policy (e : PermissionEditor) (p : PermissionEditPolicy) : PermissionEditor :=
  mkEditor p (editor_operations e).
Definition push_op (e : PermissionEditor) (op : PermissionOperation) : PermissionEditor :=
  mkEditor (editor_policy e) (editor_operations e ++ [op]).
Definition grant (e : PermissionEditor) (t : Sid) (m : AccessMask) := push_op e (OpGrant t m).
Definition deny (e : PermissionEditor) (t : Sid) (m : AccessMask) := push_op e (OpDeny t m).
Definition revoke (e : PermissionEditor) (t : Sid) (m : option AccessMask) := push_op e (OpRevoke t m).
Definition replace_trustee (e : PermissionEditor) (o n : Sid) := push_op e (OpReplaceTrustee o n).

Definition conflict_error : Error :=
  Error_Security (SecurityError_PermissionEdit (mkPermissionEditError (lit "grant/deny")
    (lit "conflicting allow and deny operation for same trustee and mask"))).

Definition is_deny_of (t : Sid) (m : AccessMask) (other : PermissionOperation) : bool :=
  match other with
  | OpDeny t' m' => bool_decide (t' = t) && bool_decide (m' = m)
  | _ => false
  end.

Definition conflicting (ops : list PermissionOperation) (op : PermissionOperation) : bool :=
  match op with
  | OpGrant t m => existsb (is_deny_of t m) ops
  | _ => false
  end.

Definition build (e : PermissionEditor) : res Error PermissionEditPlan :=
  if reject_conflicting_changes (editor_policy e) &&
     existsb (conflicting (editor_operations e)) (editor_operations e)
  then Err conflict_error
  else Ok (mkPlan (editor_policy e) (editor_operations e)).

(** ** [impl PermissionDiff] *)

Definition list_contains (l : list Ace) (a : Ace) : bool := bool_decide (a ∈ l).

Definition between (before after : Dacl) : PermissionDiff :=
  mkDiff (List.filter (fun a => negb (list_contains (entries before) a)) (entries after))
         (List.filter (fun a => negb (list_contains (entries after) a)) (entries before)).

(** ** [impl PermissionEditPlan] *)

(** The closure of [retain] in the [Revoke] arm. *)
Definition retained (policy : PermissionEditPolicy) (t : Sid) (access : option AccessMask) (a : Ace) : bool :=
  if preserve_inherited policy && inherited a then true
  else if negb (bool_decide (trustee a = t)) then true
  else match access with
       | Some mask => negb (bool_decide (access_mask a = mask))
       | None => false
       end.

Definition replaced (policy : PermissionEditPolicy) (o n : Sid) (a : Ace) : Ace :=
  if preserve_inherited policy && inherited a then a
  else if bool_decide (trustee a = o)
  then mkAce n (ace_type a) (access_mask a) (inheritance a) (inherited a)
  else a.

Definition apply_op (policy : PermissionEditPolicy) (next : list Ace) (op : PermissionOperation) : list Ace :=
  match op with
  | OpGrant t m => next ++ [ace_new t Allow m]
  | OpDeny t m => next ++ [ace_new t Deny m]
  | OpRevoke t access => List.filter (retained policy t access) next
  | OpReplaceTrustee o n => replaced policy o n <$> next
  end.

Definition apply_ops (plan : PermissionEditPlan) (current : Dacl) : Dacl :=
  canonicalize (from_entries
    (fold_left (apply_op (plan_policy plan)) (plan_operations plan) (entries current))).

Definition execute (plan : PermissionEditPlan) (current : Dacl) (mode : ApplyMode) : PermissionEditResult :=
  if decide (mode = ValidateOnly) then mkEditResult mode None (between current current)
  else
    let next := apply_ops plan current in
    mkEditResult mode (if decide (mode = Apply) then Some next else None) (between current next).

Definition execute_on_descriptor (plan : PermissionEditPlan) (current : SecurityDescriptor)
    (mode : ApplyMode) : DescriptorEditResult :=
  let dacl_result := execute plan (dacl current) mode in
  mkDescriptorEditResult (result_mode dacl_result)
    (match updated_dacl dacl_result with
     | Some next => Some (with_dacl current next)
     | None => None
     end)
    (result_diff dacl_result).

(** ** Targets *)

(** What the editor relies on: a target can be read and written, and reading
    has no effect. *)
Class TargetBackend (S : Type) := {
  backend_read : PermissionTarget -> S -> res Error SecurityDescriptor * S;
  backend_write : PermissionTarget -> SecurityDescriptor -> S -> res Error unit * S;
  backend_read_pure : forall t s, snd (backend_read t s) = s }.

(** The file and registry backends provide it. *)
#[export] Instance windows_backend {W psd psid acl key} `{!security_api W psd psid acl key} :
  TargetBackend (st W) := {
  backend_read := target_read_descriptor;
  backend_write := target_write_descriptor;
  backend_read_pure := fun t => proj1 (target_read_only t) }.

Section Targets.
Context {S : Type} `{!TargetBackend S}.

Definition apply_without_descriptor : Error :=
  Error_Security (SecurityError_Unsupported (mkSecurityUnsupportedError
    (lit "permission_target") (lit "apply_without_updated_descriptor") None)).

Definition execute_for_target (plan : PermissionEditPlan) (t : PermissionTarget)
    (current : SecurityDescriptor) (mode : ApplyMode) (s : S) : res Error DescriptorEditResult * S :=
  let result := execute_on_descriptor plan current mode in
  if decide (mode = Apply) then
    match updated_descriptor result with
    | Some updated =>
        match backend_write t updated s with
        | (Ok _, s) => (Ok result, s)
        | (Err e, s) => (Err e, s)
        | (Panic p, s) => (Panic p, s)
        end
    | None => (Err apply_without_descriptor, s)
    end
  else (Ok result, s).

Definition execute_against_target (plan : PermissionEditPlan) (t : PermissionTarget)
    (mode : ApplyMode) (s : S) : res Error DescriptorEditResult * S :=
  match backend_read t s with
  | (Ok current, s) => execute_for_target plan t current mode s
  | (Err e, s) => (Err e, s)
  | (Panic p, s) => (Panic p, s)
  end.
End Targets.

(** ** Properties *)

(** [C22] [build] fails exactly when the policy asks for the check and some
    grant and some deny name the same trustee and mask (in either order);
    otherwise the plan holds the editor's policy and operations unchanged. *)
Theorem build_rejects_conflicts (e : PermissionEditor) :
  (build e = Err conflict_error /\ reject_conflicting_changes (editor_policy e) = true /\
   exists t m, OpGrant t m ∈ editor_operations e /\ OpDeny t m ∈ editor_operations e) \/
  (build e = Ok (mkPlan (editor_policy e) (editor_operations e)) /\
   (reject_conflicting_changes (editor_policy e) = false \/
    forall t m, OpGrant t m ∈ editor_operations e -> OpDeny t m ∉ editor_operations e)).
Proof.
  assert (forall ops, existsb (conflicting ops) ops = true <->
    exists t m, OpGrant t m ∈ ops /\ OpDeny t m ∈ ops) as H.
  { intros ops. rewrite existsb_exists. split.
    - intros (op & Hin & Hc). destruct op as [t m| | |]; try done. cbn in Hc.
      apply existsb_exists in Hc as (op' & Hin' & Hd). destruct op' as [|t' m'| |]; try done.
      cbn in Hd. apply andb_true_iff in Hd as [Ht%bool_decide_eq_true Hm%bool_decide_eq_true].
      subst. exists t, m. by rewrite !list_elem_of_In.
    - intros (t & m & Hg & Hd). exists (OpGrant t m). rewrite list_elem_of_In in Hg. split; [done|].
      cbn. apply existsb_exists. exists (OpDeny t m). rewrite <- list_elem_of_In. split; [done|].
      cbn. by rewrite !bool_decide_eq_true_2. }
  unfold build. destruct (reject_conflicting_changes _); cbn [andb]; [|right; auto].
  destruct (existsb _ _) eqn:E; [left|right].
  - apply H in E. auto.
  - split; [done|]. right. intros t m Hg Hd. apply not_true_iff_false in E. apply E, H. eauto.
Qed.

Lemma elem_of_filter_bool {A} (f : A -> bool) x l : x ∈ List.filter f l <-> x ∈ l /\ f x = true.
Proof. by rewrite !list_elem_of_In, filter_In. Qed.

Lemma between_added before after a :
  a ∈ added (between before after) <-> a ∈ entries after /\ a ∉ entries before.
Proof.
  cbn. rewrite elem_of_filter_bool. unfold list_contains.
  by rewrite negb_true_iff, bool_decide_eq_false.
Qed.

Lemma between_removed before after a :
  a ∈ removed (between before after) <-> a ∈ entries before /\ a ∉ entries after.
Proof.
  cbn. rewrite elem_of_filter_bool. unfold list_contains.
  by rewrite negb_true_iff, bool_decide_eq_false.
Qed.

Lemma between_empty before after :
  between before after = mkDiff [] [] <-> (forall a, a ∈ entries before <-> a ∈ entries after).
Proof.
  split.
  - intros H a.
    pose proof (between_added before after a) as Ha. pose proof (between_removed before after a) as Hr.
    rewrite H in Ha, Hr. cbn in Ha, Hr. rewrite elem_of_nil in Ha, Hr.
    destruct (decide (a ∈ entries before)), (decide (a ∈ entries after)); tauto.
  - intros H. assert (forall d, (forall a, a ∉ added d) -> (forall a, a ∉ removed d) -> d = mkDiff [] []) as Hd.
    { intros [x y] Hx Hy. cbn in *. f_equal; by apply elem_of_nil_inv. }
    apply Hd; intros a; rewrite ?between_added, ?between_removed, H; tauto.
Qed.

(** The three modes.  [ValidateOnly] returns no DACL and an empty
    diff; [DryRunDiff] returns no DACL and the diff of [Apply]; [Apply]
    returns a DACL in canonical order, and the diff lists exactly the ACEs
    that it has and the current DACL has not, and conversely. *)
Theorem execute_modes (plan : PermissionEditPlan) (current : Dacl) :
  execute plan current ValidateOnly = mkEditResult ValidateOnly None (mkDiff [] []) /\
  execute plan current DryRunDiff =
    mkEditResult DryRunDiff None (result_diff (execute plan current Apply)) /\
  exists next, updated_dacl (execute plan current Apply) = Some next /\ canonical next /\
    forall a, (a ∈ added (result_diff (execute plan current Apply)) <->
                 a ∈ entries next /\ a ∉ entries current) /\
              (a ∈ removed (result_diff (execute plan current Apply)) <->
                 a ∈ entries current /\ a ∉ entries next).
Proof.
  split; [|split].
  - unfold execute. cbn. by rewrite (proj2 (between_empty current current)).
  - done.
  - exists (apply_ops plan current). split; [done|]. split; [apply canonicalize_canonical|].
    intros a. split; [apply between_added|apply between_removed].
Qed.

Lemma apply_op_inherited policy next op :
  preserve_inherited policy = true ->
  List.filter inherited (apply_op policy next op) = List.filter inherited next.
Proof.
  intros Hp. destruct op as [t m|t m|t access|o n]; cbn [apply_op].
  - rewrite List.filter_app. cbn. by rewrite app_nil_r.
  - rewrite List.filter_app. cbn. by rewrite app_nil_r.
  - induction next as [|a next IH]; [done|]. cbn [List.filter]. destruct (inherited a) eqn:E.
    + assert (retained policy t access a = true) as -> by (unfold retained; by rewrite Hp, E).
      cbn. rewrite E. by f_equal.
    + destruct (retained policy t access a); cbn; by rewrite ?E.
  - induction next as [|a next IH]; [done|]. cbn [fmap list_fmap List.filter].
    assert (inherited (replaced policy o n a) = inherited a) as Ei by (unfold replaced; by repeat case_match).
    rewrite Ei. destruct (inherited a) eqn:E; [|done].
    f_equal; [|done]. unfold replaced. by rewrite Hp, E.
Qed.

(** With [preserve_inherited], no plan changes the inherited ACEs: the
    result's inherited ACEs are those of the current DACL, in canonical
    order. *)
Theorem execute_preserves_inherited (plan : PermissionEditPlan) (current next : Dacl)
    (Hp : preserve_inherited (plan_policy plan) = true)
    (Hnext : updated_dacl (execute plan current Apply) = Some next) :
  List.filter inherited (entries next) =
  entries (canonicalize (from_entries (List.filter inherited (entries current)))).
Proof.
  cbn in Hnext. injection Hnext as <-. unfold apply_ops. rewrite canonicalize_filter. do 3 f_equal.
  cbn [entries]. generalize (entries current). induction (plan_operations plan) as [|op ops IH]; [done|].
  intros l. cbn. rewrite IH. by apply apply_op_inherited.
Qed.

Definition demo_sid : Sid := mkSid [1; 1; 0; 0; 0; 0; 0; 5; 18; 0; 0; 0] (lit "S-1-5-18").
Definition demo_dacl : Dacl := from_entries
  [mkAce demo_sid Allow (from_bits 1) default_flags true;
   mkAce demo_sid Deny (from_bits 2) default_flags true;
   mkAce demo_sid Allow (from_bits 4) default_flags false].

Lemma execute_preserves_inherited_witness :
  List.filter inherited (entries (apply_ops (mkPlan default_policy [OpRevoke demo_sid None]) demo_dacl)) =
  [mkAce demo_sid Deny (from_bits 2) default_flags true;
   mkAce demo_sid Allow (from_bits 1) default_flags true].
Proof.
  exact (execute_preserves_inherited (mkPlan default_policy [OpRevoke demo_sid None]) demo_dacl _
    eq_refl eq_refl).
Defined.

(** ** Plans compose

    Two entry lists are the same to the editor when every class of ACEs is
    the same sublist in both; [canonicalize] picks one representative. *)

Definition same_classes (l1 l2 : list Ace) : Prop :=
  forall k, with_key ace_rank k l1 = with_key ace_rank k l2.

#[export] Instance same_classes_equiv : Equivalence same_classes.
Proof.
  split; [by intros l k|by intros l1 l2 H k|].
  intros l1 l2 l3 H12 H23 k. by rewrite H12.
Qed.

Lemma canonicalize_classes l : same_classes (entries (canonicalize (from_entries l))) l.
Proof. intros k. apply sort_by_key_stable. Qed.

#[export] Instance canonicalize_proper :
  Proper (same_classes ==> eq) (fun l => canonicalize (from_entries l)).
Proof.
  intros l1 l2 H. unfold canonicalize. f_equal. cbn [entries].
  apply (sorted_with_key_inj ace_rank); [apply sort_by_key_sorted..|].
  intros k. rewrite !sort_by_key_stable. apply H.
Qed.

Lemma with_key_map (f : Ace -> Ace) k l :
  (forall a, ace_rank (f a) = ace_rank a) ->
  with_key ace_rank k (f <$> l) = f <$> with_key ace_rank k l.
Proof.
  intros Hf. unfold with_key. induction l as [|a l IH]; [done|]. cbn. rewrite Hf.
  destruct (ace_rank a =? k); cbn; by rewrite <- IH.
Qed.

Lemma replaced_rank policy o n a : ace_rank (replaced policy o n a) = ace_rank a.
Proof. unfold replaced. by repeat case_match. Qed.

#[export] Instance apply_op_proper policy :
  Proper (same_classes ==> eq ==> same_classes) (apply_op policy).
Proof.
  intros l1 l2 H op ? <- k. destruct op as [t m|t m|t access|o n]; cbn [apply_op].
  - unfold with_key. rewrite !List.filter_app. by setoid_rewrite (H k).
  - unfold with_key. rewrite !List.filter_app. by setoid_rewrite (H k).
  - unfold with_key. rewrite !(filter_filter_comm _ (retained policy t access)).
    by setoid_rewrite (H k).
  - rewrite !with_key_map by (intros; apply replaced_rank). by rewrite (H k).
Qed.

#[export] Instance apply_all_proper policy ops :
  Proper (same_classes ==> same_classes) (fold_left (apply_op policy) ops).
Proof.
  induction ops as [|op ops IH]; intros l1 l2 H; [done|]. cbn. apply IH. by rewrite H.
Qed.

(** A plan is the sequence of its operations: running the operations
    [ops1] and then, on the DACL that resulted, the operations [ops2] gives
    exactly the DACL that running all of them at once gives; sorting in
    between does not matter. *)
Theorem execute_composes (policy : PermissionEditPolicy) (ops1 ops2 : list PermissionOperation)
    (current mid : Dacl)
    (Hmid : updated_dacl (execute (mkPlan policy ops1) current Apply) = Some mid) :
  updated_dacl (execute (mkPlan policy (ops1 ++ ops2)) current Apply) =
  updated_dacl (execute (mkPlan policy ops2) mid Apply).
Proof.
  injection Hmid as <-. change (Some (apply_ops (mkPlan policy (ops1 ++ ops2)) current) =
    Some (apply_ops (mkPlan policy ops2) (apply_ops (mkPlan policy ops1) current))). f_equal.
  unfold apply_ops. cbn [plan_policy plan_operations].
  rewrite fold_left_app. apply canonicalize_proper, apply_all_proper.
  symmetry. apply canonicalize_classes.
Qed.

Lemma execute_composes_witness :
  updated_dacl (execute (mkPlan default_policy [OpGrant demo_sid (from_bits 8); OpRevoke demo_sid (Some (from_bits 4))])
    demo_dacl Apply) =
  Some (from_entries
    [mkAce demo_sid Allow (from_bits 8) default_flags false;
     mkAce demo_sid Deny (from_bits 2) default_flags true;
     mkAce demo_sid Allow (from_bits 1) default_flags true]).
Proof.
  exact (execute_composes default_policy [OpGrant demo_sid (from_bits 8)]
    [OpRevoke demo_sid (Some (from_bits 4))] demo_dacl _ eq_refl).
Defined.

(** An ACE the policy protects from a revoke or a replacement. *)
Definition protected (policy : PermissionEditPolicy) (a : Ace) : bool :=
  preserve_inherited policy && inherited a.

(** The ACEs that outlive a revoke of a trustee: the protected ones, those of
    the other trustees and, when a mask is named, those with another mask. *)
Definition survives_revoke (policy : PermissionEditPolicy) (t : Sid) (access : option AccessMask) (a : Ace) : Prop :=
  protected policy a = true \/ trustee a <> t \/
  match access with Some m => access_mask a <> m | None => False end.

#[export] Instance survives_revoke_dec policy t access a : Decision (survives_revoke policy t access a).
Proof. unfold survives_revoke. destruct access; apply _. Defined.

Lemma retained_spec policy t access a :
  retained policy t access a = true <-> survives_revoke policy t access a.
Proof.
  unfold retained, survives_revoke, protected. destruct (_ && _); [naive_solver|].
  destruct (decide (trustee a = t)) as [->|Ht].
  - rewrite bool_decide_eq_true_2 by done. cbn. destruct access as [m|]; [|naive_solver].
    rewrite negb_true_iff, bool_decide_eq_false. naive_solver.
  - rewrite bool_decide_eq_false_2 by done. naive_solver.
Qed.

Lemma filter_retained policy t access l :
  List.filter (retained policy t access) l = filter (survives_revoke policy t access) l.
Proof.
  induction l as [|a l IH]; [done|]. cbn [List.filter]. rewrite filter_cons, IH.
  destruct (retained policy t access a) eqn:E; case_decide as D; try done.
  - by apply retained_spec in E.
  - apply retained_spec in D. congruence.
Qed.

(** [C6] What each operation does to the entries, as a multiset: a grant or
    a deny adds one explicit ACE without inheritance flags; a revoke removes
    every copy of the unprotected ACEs of the trustee (with that very mask, if
    one is given) and keeps every other ACE as many times as it was there; a
    replacement renames exactly the unprotected ACEs of the old trustee.
    Unprotected are the explicit ACEs and, unless the policy preserves
    them, the inherited ones. *)
Theorem execute_operation (policy : PermissionEditPolicy) (current : Dacl) (t n : Sid)
    (m : AccessMask) (access : option AccessMask) :
  let run op := entries (apply_ops (mkPlan policy [op]) current) in
  run (OpGrant t m) ≡ₚ mkAce t Allow m default_flags false :: entries current /\
  run (OpDeny t m) ≡ₚ mkAce t Deny m default_flags false :: entries current /\
  run (OpRevoke t access) ≡ₚ
    filter (fun a => protected policy a = true \/ trustee a <> t \/
                     match access with Some m' => access_mask a <> m' | None => False end) (entries current) /\
  run (OpReplaceTrustee t n) ≡ₚ
    ((fun a => if bool_decide (protected policy a = false /\ trustee a = t)
               then mkAce n (ace_type a) (access_mask a) (inheritance a) (inherited a) else a)
     <$> entries current).
Proof.
  cbn zeta. unfold apply_ops. cbn [plan_policy plan_operations fold_left apply_op].
  split_and!.
  - rewrite canonicalize_perm. cbn [entries]. symmetry. apply Permutation_cons_append.
  - rewrite canonicalize_perm. cbn [entries]. symmetry. apply Permutation_cons_append.
  - rewrite canonicalize_perm. cbn [entries]. rewrite filter_retained. done.
  - rewrite canonicalize_perm. cbn [entries]. apply Permutation_refl', list_fmap_ext. intros _ a _.
    unfold replaced. fold (protected policy a). destruct (protected policy a) eqn:E.
    + rewrite bool_decide_eq_false_2; naive_solver.
    + case_bool_decide; case_bool_decide; naive_solver.
Qed.

(** The diff of a plan does not count copies: granting an ACE that the
    DACL already has yields an empty diff although [Apply] returns a DACL
    with one more entry. *)
Theorem duplicate_grant_hides (policy : PermissionEditPolicy) (current : Dacl) (t : Sid) (m : AccessMask)
    (Hin : ace_new t Allow m ∈ entries current) :
  result_diff (execute (mkPlan policy [OpGrant t m]) current Apply) = mkDiff [] [] /\
  exists next, updated_dacl (execute (mkPlan policy [OpGrant t m]) current Apply) = Some next /\
    length (entries next) = S (length (entries current)).
Proof.
  split.
  - cbn. apply between_empty. intros a. unfold apply_ops. rewrite canonicalize_perm. cbn.
    rewrite elem_of_app, list_elem_of_singleton. naive_solver.
  - eexists. split; [done|]. unfold apply_ops. rewrite canonicalize_perm. cbn.
    rewrite length_app. cbn. lia.
Qed.

Lemma duplicate_grant_hides_witness :
  result_diff (execute (mkPlan default_policy [OpGrant demo_sid (from_bits 4)]) demo_dacl Apply) =
  mkDiff [] [].
Proof.
  refine (proj1 (duplicate_grant_hides default_policy demo_dacl demo_sid (from_bits 4) _)).
  right; right; left.
Defined.

(** [C2] A plan against a target.  A failed read is returned as it is.  In
    [ValidateOnly] and [DryRunDiff] mode nothing is written: the state is
    untouched.  In [Apply] mode there is exactly one write, of the current
    descriptor with its DACL replaced by the plan's (same owner, group and
    target), and its failure is returned. *)
Theorem execute_against_target_spec {S} `{!TargetBackend S} (plan : PermissionEditPlan)
    (t : PermissionTarget) (mode : ApplyMode) (s : S) :
  match fst (backend_read t s) with
  | Ok current =>
      let result := execute_on_descriptor plan current mode in
      let next := with_dacl current (apply_ops plan (dacl current)) in
      if decide (mode = Apply) then
        updated_descriptor result = Some next /\
        execute_against_target plan t mode s =
          (let! _ := fst (backend_write t next s) in Ok result, snd (backend_write t next s))
      else execute_against_target plan t mode s = (Ok result, s)
  | Err e => execute_against_target plan t mode s = (Err e, s)
  | Panic p => execute_against_target plan t mode s = (Panic p, s)
  end.
Proof.
  unfold execute_against_target. pose proof (backend_read_pure t s) as Hr.
  destruct (backend_read t s) as [[current|e|p] s']; cbn in *; subst s'; [|done..].
  unfold execute_for_target. destruct (decide (mode = Apply)) as [->|]; [|done].
  split; [done|].
  change (updated_descriptor (execute_on_descriptor plan current Apply))
    with (Some (with_dacl current (apply_ops plan (dacl current)))). cbn iota beta.
  by destruct (backend_write t _ s) as [[[]|e|p] s'].
Qed.
