(* ===== verification/EtwEvents.v ===== *)
(** * EtwEvents: decoded ETW events (src/etw/decode/events.rs)

    The data types of the decoder, field for field.  A [ProcessId] is its
    [u32]; a GUID is its four components; an [IpAddr] is its bytes. *)

From Stdlib Require Import ZArith Lia String Ascii.
From stdpp Require Import base list strings gmap numbers sorting.
From S2P Require Import Prelude Text.

Open Scope Z_scope.

Record GUID := mkGUID { guid_data1 : Z; guid_data2 : Z; guid_data3 : Z; guid_data4 : list Z }.
#[export] Instance GUID_eq_dec : EqDecision GUID.
Proof. solve_decision. Defined.

Inductive IpAddr := V4 (octets : list Z) | V6 (octets : list Z).
#[export] Instance IpAddr_eq_dec : EqDecision IpAddr.
Proof. solve_decision. Defined.

Inductive EventFieldValue :=
  | Val_String (v : str)
  | Val_IpAddr (v : IpAddr)
  | Val_U8 (v : Z)
  | Val_U16 (v : Z)
  | Val_U32 (v : Z)
  | Val_U64 (v : Z)
  | Val_I32 (v : Z)
  | Val_I64 (v : Z)
  | Val_Bool (v : bool)
  | Val_Guid (v : GUID)
  | Val_Binary (v : list Z)
  | Val_Pointer (v : Z).
#[export] Instance EventFieldValue_eq_dec : EqDecision EventFieldValue.
Proof. solve_decision. Defined.

Record EventField := mkEventField {
  field_name : str;
  field_value : EventFieldValue }.
#[export] Instance EventField_eq_dec : EqDecision EventField.
Proof. solve_decision. Defined.

Inductive TcpOperation :=
  | Tcp_Send
  | Tcp_Receive
  | Tcp_Connect
  | Tcp_Disconnect
  | Tcp_Retransmit
  | Tcp_Accept
  | Tcp_Reconnect
  | Tcp_Copy
  | Tcp_Unknown.
#[export] Instance TcpOperation_eq_dec : EqDecision TcpOperation.
Proof. solve_decision. Defined.

Record TcpEvent := mkTcpEvent {
  tcp_operation : TcpOperation;
  tcp_process_id : option Z;
  tcp_source_ip : option IpAddr;
  tcp_source_port : option Z;
  tcp_destination_ip : option IpAddr;
  tcp_destination_port : option Z;
  tcp_size : option Z;
  tcp_sequence_number : option Z }.
#[export] Instance TcpEvent_eq_dec : EqDecision TcpEvent.
Proof. solve_decision. Defined.

Inductive RegistryOperation :=
  | RegOp_Create
  | RegOp_Open
  | RegOp_DeleteKey
  | RegOp_QueryKey
  | RegOp_SetValue
  | RegOp_DeleteValue
  | RegOp_QueryValue
  | RegOp_EnumerateKey
  | RegOp_EnumerateValue
  | RegOp_SetInformation
  | RegOp_Flush
  | RegOp_KcbCreate
  | RegOp_KcbDelete
  | RegOp_KcbRundownBegin
  | RegOp_KcbRundownEnd
  | RegOp_Virtualize
  | RegOp_Close
  | RegOp_SetSecurity
  | RegOp_QuerySecurity
  | RegOp_Unknown.
#[export] Instance RegistryOperation_eq_dec : EqDecision RegistryOperation.
Proof. solve_decision. Defined.

Record RegistryEvent := mkRegistryEvent {
  reg_operation : RegistryOperation;
  reg_process_id : option Z;
  reg_key_name : option str;
  reg_relative_name : option str;
  reg_value_name : option str;
  reg_status : option Z;
  reg_key_handle : option Z }.
#[export] Instance RegistryEvent_eq_dec : EqDecision RegistryEvent.
Proof. solve_decision. Defined.

Inductive FileIoOperation :=
  | FileOp_Name
  | FileOp_Create
  | FileOp_NameCreate
  | FileOp_NameDelete
  | FileOp_Rundown
  | FileOp_Cleanup
  | FileOp_Close
  | FileOp_SetInformation
  | FileOp_DirectoryEnumeration
  | FileOp_Flush
  | FileOp_QueryInformation
  | FileOp_FileSystemControl
  | FileOp_OperationEnd
  | FileOp_DirectoryNotification
  | FileOp_Read
  | FileOp_Write
  | FileOp_Delete
  | FileOp_Rename
  | FileOp_DeletePath
  | FileOp_RenamePath
  | FileOp_SetLinkPath
  | FileOp_Unknown.
#[export] Instance FileIoOperation_eq_dec : EqDecision FileIoOperation.
Proof. solve_decision. Defined.

Record FileIoEvent := mkFileIoEvent {
  fio_operation : FileIoOperation;
  fio_process_id : option Z;
  fio_thread_id : option Z;
  fio_file_object : option Z;
  fio_irp_ptr : option Z;
  fio_file_key : option Z;
  fio_open_path : option str;
  fio_file_name : option str;
  fio_create_options : option Z;
  fio_file_attributes : option Z;
  fio_share_access : option Z;
  fio_info_class : option Z;
  fio_extra_info : option Z;
  fio_io_size : option Z;
  fio_offset : option Z }.
#[export] Instance FileIoEvent_eq_dec : EqDecision FileIoEvent.
Proof. solve_decision. Defined.

Record ProcessStartEvent := mkProcessStartEvent {
  ps_process_id : Z;
  ps_parent_process_id : Z;
  ps_session_id : option Z;
  ps_exit_status : option Z;
  ps_unique_process_key : option Z;
  ps_directory_table_base : option Z;
  ps_image_file_name : str;
  ps_command_line : option str;
  ps_user_sid : option str;
  ps_version : Z }.
#[export] Instance ProcessStartEvent_eq_dec : EqDecision ProcessStartEvent.
Proof. solve_decision. Defined.

Record ProcessEndEvent := mkProcessEndEvent {
  pe_process_id : Z;
  pe_parent_process_id : Z;
  pe_session_id : option Z;
  pe_exit_status : option Z;
  pe_unique_process_key : option Z;
  pe_directory_table_base : option Z;
  pe_image_file_name : str;
  pe_command_line : option str;
  pe_user_sid : option str;
  pe_version : Z }.
#[export] Instance ProcessEndEvent_eq_dec : EqDecision ProcessEndEvent.
Proof. solve_decision. Defined.

Record ImageLoadEvent := mkImageLoadEvent {
  il_process_id : Z;
  il_image_base : Z;
  il_image_size : Z;
  il_checksum : Z;
  il_timestamp : Z;
  il_default_base : Z;
  il_file_name : str;
  il_version : Z }.
#[export] Instance ImageLoadEvent_eq_dec : EqDecision ImageLoadEvent.
Proof. solve_decision. Defined.

Record ImageUnloadEvent := mkImageUnloadEvent {
  iu_process_id : Z;
  iu_image_base : Z;
  iu_image_size : Z;
  iu_checksum : Z;
  iu_timestamp : Z;
  iu_default_base : Z;
  iu_file_name : str;
  iu_version : Z }.
#[export] Instance ImageUnloadEvent_eq_dec : EqDecision ImageUnloadEvent.
Proof. solve_decision. Defined.

Inductive DecodedEvent :=
  | Decoded_ProcessStart (v : ProcessStartEvent)
  | Decoded_ProcessEnd (v : ProcessEndEvent)
  | Decoded_ImageLoad (v : ImageLoadEvent)
  | Decoded_ImageUnload (v : ImageUnloadEvent)
  | Decoded_Tcp (v : TcpEvent)
  | Decoded_Registry (v : RegistryEvent)
  | Decoded_FileIo (v : FileIoEvent)
  | Decoded_Generic (v : list EventField)
  | Decoded_Unknown.
#[export] Instance DecodedEvent_eq_dec : EqDecision DecodedEvent.
Proof. solve_decision. Defined.
