(* ===== verification/EtwDecode.v ===== *)
(** * EtwDecode: binary payload decoders

    src/etw/decode/helpers.rs, process.rs and image.rs.  A payload is a list
    of bytes; a slice index that is out of range is a panic, [None] is an
    error value. *)

From Stdlib Require Import ZArith Lia String Ascii.
From stdpp Require Import base list strings gmap numbers sorting.
From S2P Require Import Prelude Text Unicode Errors Sid EtwEvents.

Open Scope Z_scope.

(** ** helpers.rs *)

(** [extract_value_from_buffer::<T>] with [size_of::<T>() = n]. *)
Definition extract_value_from_buffer (n : nat) (data : list Z) : res none (Z * list Z) :=
  if (length data <? n)%nat then Err NoneV
  else Ok (le_decode (take n data), drop n data).

Abbreviation extract_u32 := (extract_value_from_buffer 4).

Definition extract_pointer_from_buffer (data : list Z) (pointer_size : Z) : res none (Z * list Z) :=
  if pointer_size =? 4 then extract_value_from_buffer 4 data
  else if pointer_size =? 8 then extract_value_from_buffer 8 data
  else Err NoneV.

Definition ascii_string_until_null (data : list Z) : res none (str * nat) :=
  let end_pos := default (length data) (position (Z.eqb 0) data) in
  let! value := ok_or (from_utf8 (take end_pos data)) NoneV in
  Ok (value, S end_pos).

(** The loop: the code units before the terminator, and the bytes read. *)
Fixpoint utf16_units (data : list Z) : list Z * nat :=
  match data with
  | b0 :: b1 :: rest =>
      let unit := le_decode [b0; b1] in
      if unit =? 0 then ([], 2%nat)
      else let '(us, n) := utf16_units rest in (unit :: us, S (S n))
  | _ => ([], O)
  end.

Definition utf16_until_null (data : list Z) : res none (str * nat) :=
  let '(units, offset) := utf16_units data in
  let! value := ok_or (from_utf16 units) NoneV in
  Ok (value, offset).

(** The decoder's own SID printer: it stops at the end of the data instead
    of failing. *)
Fixpoint write_available (count : nat) (sid : list Z) (start : nat) (id : str) : str * nat :=
  match count with
  | O => (id, start)
  | S count =>
      if (length sid <? start + 4)%nat then (id, start)
      else write_available count sid (start + 4)
             (id ++ lit "-" ++ fmt_dec (le_decode (take 4 (drop start sid))))
  end.

Definition etw_sid_to_string_with_size (sid : list Z) : res none (str * nat) :=
  match sid with
  | s0 :: s1 :: s2 :: s3 :: s4 :: s5 :: s6 :: s7 :: _ =>
      let identifier_authority :=
        Z.lor (Z.shiftl (be_decode [s2; s3]) 32) (be_decode [s4; s5; s6; s7]) in
      Ok (write_available (Z.to_nat s1) sid 8
            (lit "S-" ++ fmt_dec s0 ++ lit "-" ++ fmt_dec identifier_authority))
  | _ => Err NoneV
  end.

(** [&data[n..]]. *)
Definition slice_from (data : list Z) (n : nat) : res none (list Z) :=
  if (length data <? n)%nat then Panic IndexOutOfBounds else Ok (drop n data).

(** ** process.rs *)

Definition PROCESS_START : Z := 1.
Definition PROCESS_END : Z := 2.

Definition required_size_v0 (pointer_size : Z) : Z := 10 + 2 * pointer_size.
Definition required_size_v1_to_v4 (pointer_size : Z) : Z := 11 * 4 + 4 * pointer_size.

Record ProcessCommon := mkProcessCommon {
  pc_process_id : Z;
  pc_parent_process_id : Z;
  pc_session_id : option Z;
  pc_exit_status : option Z;
  pc_unique_process_key : option Z;
  pc_directory_table_base : option Z;
  pc_image_file_name : str;
  pc_command_line : option str;
  pc_user_sid : option str }.

Definition parse_v0 (data : list Z) (pointer_size : Z) : res none ProcessCommon :=
  if zlen data <? required_size_v0 pointer_size then Err NoneV else
  let! (process_id, data) := extract_u32 data in
  let! (parent_process_id, data) := extract_u32 data in
  let! (_, data) := extract_pointer_from_buffer data pointer_size in
  let! (_, data) := extract_pointer_from_buffer data pointer_size in
  let! (_, data) := extract_u32 data in
  let! (user_sid, sid_size) := etw_sid_to_string_with_size data in
  let! data := slice_from data sid_size in
  let! (image_file_name, _) := ascii_string_until_null data in
  Ok (mkProcessCommon process_id parent_process_id None None None None
        image_file_name None (Some user_sid)).

(** The end of every layout from version 1 on: SID, image name, command
    line. *)
Definition parse_names (data : list Z) : res none (str * str * str) :=
  let! (user_sid, sid_size) := etw_sid_to_string_with_size data in
  let! data := slice_from data sid_size in
  let! (image_file_name, name_size) := ascii_string_until_null data in
  let! data := slice_from data name_size in
  let! (command_line, _) := utf16_until_null data in
  Ok (user_sid, image_file_name, command_line).

Definition parse_v1 (data : list Z) (pointer_size : Z) : res none ProcessCommon :=
  if zlen data <? required_size_v1_to_v4 pointer_size then Err NoneV else
  let! (directory_table_base, data) := extract_pointer_from_buffer data pointer_size in
  let! (process_id, data) := extract_u32 data in
  let! (parent_process_id, data) := extract_u32 data in
  let! (session_id, data) := extract_u32 data in
  let! (exit_status, data) := extract_u32 data in
  let! (_, data) := extract_pointer_from_buffer data pointer_size in
  let! (_, data) := extract_pointer_from_buffer data pointer_size in
  let! (_, data) := extract_u32 data in
  let! (user_sid, image_file_name, command_line) := parse_names data in
  Ok (mkProcessCommon process_id parent_process_id (Some session_id) (Some exit_status)
        None (Some directory_table_base) image_file_name (Some command_line) (Some user_sid)).

Definition parse_v2 (data : list Z) (pointer_size : Z) : res none ProcessCommon :=
  if zlen data <? required_size_v1_to_v4 pointer_size then Err NoneV else
  let! (unique_process_key, data) := extract_pointer_from_buffer data pointer_size in
  let! (process_id, data) := extract_u32 data in
  let! (parent_process_id, data) := extract_u32 data in
  let! (session_id, data) := extract_u32 data in
  let! (exit_status, data) := extract_u32 data in
  let! (_, data) := extract_pointer_from_buffer data pointer_size in
  let! (_, data) := extract_pointer_from_buffer data pointer_size in
  let! (_, data) := extract_u32 data in
  let! (user_sid, image_file_name, command_line) := parse_names data in
  Ok (mkProcessCommon process_id parent_process_id (Some session_id) (Some exit_status)
        (Some unique_process_key) None image_file_name (Some command_line) (Some user_sid)).

Definition parse_v3_v4 (data : list Z) (pointer_size : Z) : res none ProcessCommon :=
  if zlen data <? required_size_v1_to_v4 pointer_size then Err NoneV else
  let! (unique_process_key, data) := extract_pointer_from_buffer data pointer_size in
  let! (process_id, data) := extract_u32 data in
  let! (parent_process_id, data) := extract_u32 data in
  let! (session_id, data) := extract_u32 data in
  let! (exit_status, data) := extract_u32 data in
  let! (directory_table_base, data) := extract_pointer_from_buffer data pointer_size in
  let! (_, data) := extract_pointer_from_buffer data pointer_size in
  let! (_, data) := extract_pointer_from_buffer data pointer_size in
  let! (_, data) := extract_u32 data in
  let! (user_sid, image_file_name, command_line) := parse_names data in
  Ok (mkProcessCommon process_id parent_process_id (Some session_id) (Some exit_status)
        (Some unique_process_key) (Some directory_table_base) image_file_name
        (Some command_line) (Some user_sid)).

Definition process_start_event (p : ProcessCommon) (version : Z) : ProcessStartEvent :=
  mkProcessStartEvent (pc_process_id p) (pc_parent_process_id p) (pc_session_id p) (pc_exit_status p)
    (pc_unique_process_key p) (pc_directory_table_base p) (pc_image_file_name p) (pc_command_line p)
    (pc_user_sid p) version.

Definition process_end_event (p : ProcessCommon) (version : Z) : ProcessEndEvent :=
  mkProcessEndEvent (pc_process_id p) (pc_parent_process_id p) (pc_session_id p) (pc_exit_status p)
    (pc_unique_process_key p) (pc_directory_table_base p) (pc_image_file_name p) (pc_command_line p)
    (pc_user_sid p) version.

Definition parse_process_version (version : Z) (data : list Z) (pointer_size : Z) : res none ProcessCommon :=
  match version with
  | 0 => parse_v0 data pointer_size
  | 1 => parse_v1 data pointer_size
  | 2 => parse_v2 data pointer_size
  | 3 | 4 => parse_v3_v4 data pointer_size
  | _ => Err NoneV
  end.

Definition decode_process_parts (version opcode pointer_size : Z) (data : list Z) : res none DecodedEvent :=
  if negb (opcode =? PROCESS_START) && negb (opcode =? PROCESS_END) then Err NoneV
  else
    let! parsed := parse_process_version version data pointer_size in
    if opcode =? PROCESS_START then Ok (Decoded_ProcessStart (process_start_event parsed version))
    else if opcode =? PROCESS_END then Ok (Decoded_ProcessEnd (process_end_event parsed version))
    else Err NoneV.

(** ** image.rs *)

Definition IMAGE_LOAD : Z := 10.
Definition IMAGE_UNLOAD : Z := 2.

Definition required_size_v3 (pointer_size : Z) : Z := 12 * 4 + 4 * pointer_size.

Record ImageCommon := mkImageCommon {
  ic_process_id : Z;
  ic_image_base : Z;
  ic_image_size : Z;
  ic_checksum : Z;
  ic_timestamp : Z;
  ic_default_base : Z;
  ic_file_name : str }.

Definition parse_v3 (data : list Z) (pointer_size : Z) : res none ImageCommon :=
  if zlen data <? required_size_v3 pointer_size then Err NoneV else
  let! (image_base, data) := extract_pointer_from_buffer data pointer_size in
  let! (image_size, data) := extract_pointer_from_buffer data pointer_size in
  let! (process_id, data) := extract_u32 data in
  let! (checksum, data) := extract_u32 data in
  let! (timestamp, data) := extract_u32 data in
  let! (_, data) := extract_u32 data in
  let! (default_base, data) := extract_pointer_from_buffer data pointer_size in
  let! (_, data) := extract_u32 data in
  let! (_, data) := extract_u32 data in
  let! (_, data) := extract_u32 data in
  let! (_, data) := extract_u32 data in
  let! (file_name, _) := utf16_until_null data in
  Ok (mkImageCommon process_id image_base image_size checksum timestamp default_base file_name).

Definition decode_image_parts (version opcode pointer_size : Z) (data : list Z) : res none DecodedEvent :=
  let! parsed := (if (2 <=? version) && (version <=? 4) then parse_v3 data pointer_size else Err NoneV) in
  if opcode =? IMAGE_LOAD then
    Ok (Decoded_ImageLoad (mkImageLoadEvent (ic_process_id parsed) (ic_image_base parsed)
      (ic_image_size parsed) (ic_checksum parsed) (ic_timestamp parsed) (ic_default_base parsed)
      (ic_file_name parsed) version))
  else if opcode =? IMAGE_UNLOAD then
    Ok (Decoded_ImageUnload (mkImageUnloadEvent (ic_process_id parsed) (ic_image_base parsed)
      (ic_image_size parsed) (ic_checksum parsed) (ic_timestamp parsed) (ic_default_base parsed)
      (ic_file_name parsed) version))
  else Err NoneV.

(** ** Lemmas on the readers *)

Lemma extract_app n z rest :
  0 <= z < 256 ^ Z.of_nat n -> extract_value_from_buffer n (le_encode n z ++ rest) = Ok (z, rest).
Proof.
  intros Hz. unfold extract_value_from_buffer. rewrite length_app, length_le_encode.
  replace (n + length rest <? n)%nat with false by (symmetry; apply Nat.ltb_ge; lia).
  rewrite take_app_length' by (by rewrite length_le_encode).
  rewrite drop_app_length' by (by rewrite length_le_encode). by rewrite le_decode_encode.
Qed.

(** A pointer field of the given width. *)
Definition pointer_bytes (pointer_size z : Z) : list Z := le_encode (Z.to_nat pointer_size) z.
Definition pointer_ok (pointer_size z : Z) : Prop := 0 <= z < 256 ^ pointer_size.

Lemma extract_pointer_app ps z rest :
  ps = 4 \/ ps = 8 -> pointer_ok ps z ->
  extract_pointer_from_buffer (pointer_bytes ps z ++ rest) ps = Ok (z, rest).
Proof. intros [-> | ->] Hz; apply extract_app; exact Hz. Qed.

Lemma extract_u32_app z rest : 0 <= z <= u32_max -> extract_u32 (le_encode 4 z ++ rest) = Ok (z, rest).
Proof. intros. apply extract_app. cbn. lia. Qed.

Lemma write_available_app subs pre rest id :
  Forall (fun x => 0 <= x <= u32_max) subs ->
  write_available (length subs) (pre ++ mjoin (le_encode 4 <$> subs) ++ rest) (length pre) id =
    (id ++ sub_suffix subs, length pre + 4 * length subs)%nat.
Proof.
  intros Hs. revert pre id. induction Hs as [|x subs Hx _ IH]; intros pre id.
  - cbn. rewrite app_nil_r. f_equal. lia.
  - change (mjoin (le_encode 4 <$> x :: subs)) with (le_encode 4 x ++ mjoin (le_encode 4 <$> subs)).
    cbn [length write_available].
    assert (take 4 (drop (length pre) (pre ++ (le_encode 4 x ++ mjoin (le_encode 4 <$> subs)) ++ rest))
            = le_encode 4 x) as ->.
    { rewrite drop_app_length, <- app_assoc. by rewrite take_app_length' by (by rewrite length_le_encode). }
    rewrite le_decode_encode by (cbn; lia).
    replace (_ <? _)%nat with false
      by (symmetry; apply Nat.ltb_ge; rewrite !length_app, length_le_encode; lia).
    specialize (IH (pre ++ le_encode 4 x) (id ++ lit "-" ++ fmt_dec x)).
    rewrite length_app, length_le_encode in IH.
    rewrite <- !app_assoc in IH |- *. rewrite IH. f_equal; [|lia].
    unfold sub_suffix. cbn [fmap list_fmap mjoin list_join]. by rewrite <- !app_assoc.
Qed.

Lemma etw_sid_app p rest :
  sid_parts_ok48 p ->
  etw_sid_to_string_with_size (sid_bytes p ++ rest) = Ok (sid_text p, length (sid_bytes p)).
Proof.
  intros (Hr & Ha & Hl & Hs).
  pose proof (length_be_encode 6 (sp_auth p)) as H6.
  pose proof (bytes_ok_be_encode 6 (sp_auth p)) as Hb6.
  pose proof (be_decode_encode 6 (sp_auth p) ltac:(cbn in *; lia)) as Hd6.
  unfold sid_bytes. cbn [length]. rewrite length_app, H6, length_sid_subs.
  destruct (be_encode 6 (sp_auth p)) as [|s2 [|s3 [|s4 [|s5 [|s6 [|s7 [|]]]]]]]; try done.
  cbn [app]. unfold etw_sid_to_string_with_size. rewrite authority_lor, Hd6 by done.
  unfold zlen. rewrite Nat2Z.id.
  pose proof (write_available_app (sp_subs p)
    [sp_rev p; Z.of_nat (length (sp_subs p)); s2; s3; s4; s5; s6; s7] rest
    (lit "S-" ++ fmt_dec (sp_rev p) ++ lit "-" ++ fmt_dec (sp_auth p)) Hs) as Hw.
  cbn [app length] in Hw |- *. rewrite Hw, <- sid_text_suffix. done.
Qed.

Lemma slice_from_app l1 l2 : slice_from (l1 ++ l2) (length l1) = Ok l2.
Proof.
  unfold slice_from. rewrite length_app, drop_app_length.
  by replace (_ <? _)%nat with false by (symmetry; apply Nat.ltb_ge; lia).
Qed.

(** A NUL-terminated string of valid UTF-8. *)
Definition c_string_ok (s : str) : Prop := lacks 0 s /\ utf8_valid s = true.

Lemma ascii_string_app s rest :
  c_string_ok s -> ascii_string_until_null (s ++ 0 :: rest) = Ok (s, S (length s)).
Proof.
  intros [Hl Hv]. unfold ascii_string_until_null.
  rewrite position_app_hit; [|eapply Forall_impl; [exact Hl|]; intros x Hx; apply Z.eqb_neq; by apply not_eq_sym|done].
  cbn [default from_option id]. rewrite take_app_length. unfold from_utf8. by rewrite Hv.
Qed.

(** The wire form of UTF-16LE code units. *)
Definition utf16le (us : list Z) : list Z := mjoin (le_encode 2 <$> us).

Lemma utf16_units_app us rest :
  Forall (fun u => 0 <= u < 0x10000) us -> Forall (fun u => u <> 0) us ->
  utf16_units (utf16le us ++ 0 :: 0 :: rest) = (us, (2 * length us + 2)%nat).
Proof.
  intros Hr. induction Hr as [|u us Hu _ IH]; intros Hz; [done|].
  apply Forall_cons in Hz as [Hu0 Hz].
  assert (le_decode (le_encode 2 u) = u) as Hd by (apply le_decode_encode; cbn; lia).
  change (utf16le (u :: us)) with (le_encode 2 u ++ utf16le us).
  destruct (le_encode 2 u) as [|b0 [|b1 [|]]] eqn:E; try by (apply (f_equal length) in E).
  cbn [app utf16_units]. rewrite Hd. replace (u =? 0) with false by (cbn in Hu0; lia).
  rewrite IH by done. f_equal. cbn [length]. lia.
Qed.

(** Text without NUL. *)
Definition text_ok (cs : list Z) : Prop := Forall (fun c => is_scalar c /\ c <> 0) cs.

Definition utf16z (cs : list Z) : list Z := utf16le (encode_utf16 (utf8_encode cs)) ++ [0; 0].

Lemma utf16_until_null_app cs rest :
  text_ok cs -> exists n, utf16_until_null (utf16z cs ++ rest) = Ok (utf8_encode cs, n).
Proof.
  intros H. assert (Forall is_scalar cs) as Hs by (eapply Forall_impl; [exact H|naive_solver]).
  unfold utf16_until_null, utf16z. rewrite <- app_assoc. cbn [app].
  rewrite utf16_units_app by (by apply encode_utf16_range || by apply encode_utf16_nonzero).
  destruct (from_utf16_encode cs Hs) as [-> _]. cbn. eauto.
Qed.

(** ** Layouts: the payloads the process decoder is meant to read *)

Record process_payload := mk_process_payload {
  pp_key : Z; pp_dtb : Z; pp_pid : Z; pp_parent : Z; pp_session : Z; pp_exit : Z;
  pp_skip1 : Z; pp_skip2 : Z; pp_skip3 : Z;
  pp_sid : sid_parts; pp_image : str; pp_command : list Z }.

Definition u32_ok (z : Z) : Prop := 0 <= z <= u32_max.

Definition process_payload_ok (ps : Z) (p : process_payload) : Prop :=
  pointer_ok ps (pp_key p) /\ pointer_ok ps (pp_dtb p) /\ pointer_ok ps (pp_skip1 p) /\
  pointer_ok ps (pp_skip2 p) /\ u32_ok (pp_pid p) /\ u32_ok (pp_parent p) /\
  u32_ok (pp_session p) /\ u32_ok (pp_exit p) /\ u32_ok (pp_skip3 p) /\
  sid_parts_ok48 (pp_sid p) /\ c_string_ok (pp_image p) /\ text_ok (pp_command p).

(** The fields in the order of each version of the event. *)
Definition encode_process (version ps : Z) (p : process_payload) (rest : list Z) : list Z :=
  let ptr := pointer_bytes ps in
  let ids := le_encode 4 (pp_pid p) ++ le_encode 4 (pp_parent p) in
  let more_ids := ids ++ le_encode 4 (pp_session p) ++ le_encode 4 (pp_exit p) in
  let skipped := ptr (pp_skip1 p) ++ ptr (pp_skip2 p) ++ le_encode 4 (pp_skip3 p) in
  let names := sid_bytes (pp_sid p) ++ pp_image p ++ [0] ++ utf16z (pp_command p) ++ rest in
  match version with
  | 0 => ids ++ skipped ++ sid_bytes (pp_sid p) ++ pp_image p ++ [0] ++ rest
  | 1 => ptr (pp_dtb p) ++ more_ids ++ skipped ++ names
  | 2 => ptr (pp_key p) ++ more_ids ++ skipped ++ names
  | _ => ptr (pp_key p) ++ more_ids ++ ptr (pp_dtb p) ++ skipped ++ names
  end.

(** What each version carries. *)
Definition process_fields (version : Z) (p : process_payload) : ProcessCommon :=
  let from n (x : Z) := if n <=? version then Some x else None in
  mkProcessCommon (pp_pid p) (pp_parent p) (from 1 (pp_session p)) (from 1 (pp_exit p))
    (from 2 (pp_key p))
    (if (version =? 1) || (3 <=? version) then Some (pp_dtb p) else None)
    (pp_image p)
    (if 1 <=? version then Some (utf8_encode (pp_command p)) else None)
    (Some (sid_text (pp_sid p))).

Definition required_size (version ps : Z) : Z :=
  if version =? 0 then required_size_v0 ps else required_size_v1_to_v4 ps.

Lemma parse_names_app p image cs rest :
  sid_parts_ok48 p -> c_string_ok image -> text_ok cs ->
  parse_names (sid_bytes p ++ image ++ [0] ++ utf16z cs ++ rest) =
    Ok (sid_text p, image, utf8_encode cs).
Proof.
  intros Hp Hi Hc. unfold parse_names. rewrite etw_sid_app by done. cbn [res_bind].
  rewrite slice_from_app. cbn [res_bind app].
  rewrite ascii_string_app by done. cbn [res_bind].
  assert (slice_from (image ++ 0 :: utf16z cs ++ rest) (S (length image)) = Ok (utf16z cs ++ rest)) as ->.
  { rewrite <- (slice_from_app (image ++ [0])). rewrite length_app, <- app_assoc. f_equal. cbn. lia. }
  cbn [res_bind]. destruct (utf16_until_null_app cs rest Hc) as [n Hn]. rewrite Hn. done.
Qed.

Ltac read_fields :=
  repeat first
    [ rewrite extract_u32_app by assumption; cbn [res_bind]
    | rewrite extract_pointer_app by assumption; cbn [res_bind]
    | rewrite <- app_assoc ].

Lemma parse_encoded_process version ps p rest :
  0 <= version <= 4 -> ps = 4 \/ ps = 8 -> process_payload_ok ps p ->
  parse_process_version version (encode_process version ps p rest) ps =
    if zlen (encode_process version ps p rest) <? required_size version ps then Err NoneV
    else Ok (process_fields version p).
Proof.
  intros Hv Hps (Hk & Hd & H1 & H2 & Hpid & Hpar & Hses & Hex & H3 & Hsid & Him & Hcmd).
  unfold u32_ok in *.
  assert (version = 0 \/ version = 1 \/ version = 2 \/ version = 3 \/ version = 4)
    as [-> | [-> | [-> | [-> | ->]]]] by lia;
    cbn [parse_process_version]; unfold parse_v0, parse_v1, parse_v2, parse_v3_v4;
    change (required_size _ ps) with (required_size_v1_to_v4 ps) ||
    change (required_size 0 ps) with (required_size_v0 ps);
    (match goal with |- context [zlen ?l <? _] => destruct (zlen l <? _); [done|] end);
    unfold encode_process; rewrite <- ?app_assoc; read_fields;
    rewrite ?parse_names_app by done; [|done..].
  rewrite etw_sid_app by done. cbn [res_bind]. rewrite slice_from_app. cbn [res_bind].
  rewrite <- ?app_assoc. cbn [app]. rewrite ascii_string_app by done. done.
Qed.

(** [C9] Decoding a process start or end event, for every payload version
    and both pointer widths: the event carries exactly the fields of the
    layout of that version, whatever follows the payload; the only payloads
    of that layout that are dropped are those below the size the decoder
    asks for. *)
Theorem decode_process_round_trip (version ps opcode : Z) (p : process_payload) (rest : list Z)
    (Hv : 0 <= version <= 4) (Hps : ps = 4 \/ ps = 8) (Hop : opcode = 1 \/ opcode = 2)
    (Hp : process_payload_ok ps p) :
  decode_process_parts version opcode ps (encode_process version ps p rest) =
    if zlen (encode_process version ps p rest) <? required_size version ps then Err NoneV
    else Ok (if opcode =? 1
             then Decoded_ProcessStart (process_start_event (process_fields version p) version)
             else Decoded_ProcessEnd (process_end_event (process_fields version p) version)).
Proof.
  unfold decode_process_parts, PROCESS_START, PROCESS_END.
  destruct Hop as [-> | ->]; cbn [Z.eqb Pos.eqb negb andb];
    rewrite parse_encoded_process by done; by destruct (_ <? _).
Qed.

Lemma text_ok_check cs :
  forallb (fun c => (0 <? c) && (c <? 0xD800)) cs = true -> text_ok cs.
Proof.
  intros H. apply Forall_forall. intros c Hc. rewrite forallb_forall in H.
  apply list_elem_of_In, H in Hc. unfold is_scalar. lia.
Qed.

Lemma c_string_check s :
  forallb (fun c => negb (0 =? c)) s && utf8_valid s = true -> c_string_ok s.
Proof.
  intros [H Hv]%andb_true_iff. split; [|done]. apply Forall_forall. intros c Hc.
  rewrite forallb_forall in H. apply list_elem_of_In, H in Hc. lia.
Qed.

Definition sample_payload (image command : str) : process_payload :=
  mk_process_payload 0xAA 0xBB 4321 4 1 259 7 8 9 (mk_sid_parts 1 5 [18]) image command.

Lemma sample_payload_ok ps :
  ps = 4 \/ ps = 8 ->
  process_payload_ok ps (sample_payload (lit "svchost.exe") (lit "svchost.exe -k netsvcs")).
Proof.
  intros Hps. unfold process_payload_ok, pointer_ok, u32_ok.
  assert (256 ^ 4 <= 256 ^ ps) by (apply Z.pow_le_mono_r; lia).
  change (256 ^ 4) with 4294967296 in *.
  split_and!; cbn [pp_key pp_dtb pp_pid pp_parent pp_session pp_exit pp_skip1 pp_skip2 pp_skip3 sample_payload];
    try lia.
  - split; [cbn; lia|]. split; [cbn; lia|]. split; [by vm_compute|].
    apply Forall_cons. split; [lia|constructor].
  - apply c_string_check. by vm_compute.
  - apply text_ok_check. by vm_compute.
Qed.

Lemma decode_process_round_trip_witness :
  decode_process_parts 3 1 8
    (encode_process 3 8 (sample_payload (lit "svchost.exe") (lit "svchost.exe -k netsvcs")) []) =
  Ok (Decoded_ProcessStart (mkProcessStartEvent 4321 4 (Some 1) (Some 259) (Some 0xAA) (Some 0xBB)
        (lit "svchost.exe") (Some (lit "svchost.exe -k netsvcs")) (Some (lit "S-1-5-18")) 3)).
Proof.
  refine (eq_trans (decode_process_round_trip 3 8 1 _ [] _ _ _ _) _);
    [lia|by right|by left|apply sample_payload_ok; by right|by vm_compute].
Defined.

(** ** Panics of the process decoder *)

Lemma extract_length n data z rest :
  extract_value_from_buffer n data = Ok (z, rest) -> length data = (n + length rest)%nat /\ rest = drop n data.
Proof.
  unfold extract_value_from_buffer. destruct (_ <? _)%nat eqn:E; [done|]. intros [= _ <-].
  apply Nat.ltb_ge in E. rewrite length_drop. split; [lia|done].
Qed.

Lemma extract_value_enough n data :
  (n <= length data)%nat -> exists z, extract_value_from_buffer n data = Ok (z, drop n data).
Proof.
  intros H. unfold extract_value_from_buffer.
  replace (_ <? _)%nat with false by (symmetry; by apply Nat.ltb_ge). eauto.
Qed.

Lemma extract_pointer_enough ps data :
  ps = 4 \/ ps = 8 -> (Z.to_nat ps <= length data)%nat ->
  exists z, extract_pointer_from_buffer data ps = Ok (z, drop (Z.to_nat ps) data).
Proof. intros [-> | ->] H; by apply extract_value_enough. Qed.

Lemma write_available_bound count sid start id :
  (start <= length sid)%nat -> (snd (write_available count sid start id) <= length sid)%nat.
Proof.
  revert start id. induction count as [|count IH]; intros start id H; cbn [write_available]; [done|].
  destruct (length sid <? start + 4)%nat eqn:E; [done|]. apply Nat.ltb_ge in E. apply IH. lia.
Qed.

(** The part of the data after the SID. *)
Definition after_sid (data : list Z) : list Z :=
  match etw_sid_to_string_with_size data with Ok (_, n) => drop n data | _ => [] end.

Lemma etw_sid_enough data :
  (8 <= length data)%nat ->
  exists t n, etw_sid_to_string_with_size data = Ok (t, n) /\ slice_from data n = Ok (after_sid data).
Proof.
  intros H. unfold after_sid.
  destruct data as [|s0 [|s1 [|s2 [|s3 [|s4 [|s5 [|s6 [|s7 rest]]]]]]]]; cbn in H; try lia.
  unfold etw_sid_to_string_with_size.
  set (data := s0 :: _). set (id := lit "S-" ++ _).
  pose proof (write_available_bound (Z.to_nat s1) data 8 id ltac:(cbn; lia)) as Hb.
  destruct (write_available _ _ _ _) as [t n]. exists t, n. split; [done|].
  unfold slice_from. by replace (_ <? _)%nat with false by (symmetry; apply Nat.ltb_ge; exact Hb).
Qed.

Lemma utf16_until_null_no_panic data : no_panic (utf16_until_null data).
Proof. unfold utf16_until_null. destruct (utf16_units data). apply no_panic_bind; auto with rust. Qed.

(** The names panic exactly when the image name runs to the end of the
    data: the terminator that is skipped is not there. *)
Lemma parse_names_panic data p :
  (8 <= length data)%nat ->
  parse_names data = Panic p <->
  p = IndexOutOfBounds /\ lacks 0 (after_sid data) /\ utf8_valid (after_sid data) = true.
Proof.
  intros H. destruct (etw_sid_enough data H) as (t & n & Ht & Hs).
  unfold parse_names. rewrite Ht. cbn [res_bind]. rewrite Hs. cbn [res_bind].
  generalize (after_sid data). intros l. unfold ascii_string_until_null.
  destruct (position (Z.eqb 0) l) as [k|] eqn:Ep.
  - assert (~ lacks 0 l) as Hl by (intros Hl; apply position_none_lacks in Hl; congruence).
    cbn [default from_option id]. apply position_lt in Ep.
    destruct (from_utf8 (take k l)) as [v|]; cbn [ok_or res_bind]; [|naive_solver].
    unfold slice_from. replace (_ <? _)%nat with false by (symmetry; apply Nat.ltb_ge; lia).
    cbn [res_bind]. split; [|naive_solver]. intros Hp. exfalso. revert Hp.
    apply no_panic_bind; [apply utf16_until_null_no_panic|]. intros [? ?] _. auto with rust.
  - apply position_none_lacks in Ep. cbn [default from_option id].
    rewrite take_ge by lia. unfold from_utf8. destruct (utf8_valid l); cbn [ok_or res_bind]; [|naive_solver].
    unfold slice_from. replace (_ <? _)%nat with true by (symmetry; apply Nat.ltb_lt; lia).
    cbn. naive_solver.
Qed.

(** Bytes before the SID. *)
Definition header_size (version ps : Z) : Z :=
  if version <=? 2 then 20 + 3 * ps else 20 + 4 * ps.

Ltac skip_fields :=
  repeat match goal with
  | |- context [extract_pointer_from_buffer ?d ?ps] =>
      let z := fresh "z" in let E := fresh "E" in
      destruct (extract_pointer_enough ps d) as [z E];
        [assumption|rewrite ?length_drop; lia|rewrite E; cbn [res_bind]; clear E]
  | |- context [extract_u32 ?d] =>
      let z := fresh "z" in let E := fresh "E" in
      destruct (extract_value_enough 4 d) as [z E];
        [rewrite ?length_drop; lia|rewrite E; cbn [res_bind]; clear E]
  end; rewrite ?drop_drop.

Lemma bind_ok_panic {E A B} (m : res E A) (k : A -> B) p :
  res_bind m (fun a => Ok (k a)) = Panic p <-> m = Panic p.
Proof. destruct m; cbn; naive_solver. Qed.

Lemma parse_version_names version ps data :
  1 <= version <= 4 -> ps = 4 \/ ps = 8 -> required_size_v1_to_v4 ps <= zlen data ->
  forall p, parse_process_version version data ps = Panic p <->
    parse_names (drop (Z.to_nat (header_size version ps)) data) = Panic p.
Proof.
  intros Hv Hps Hlen p. unfold zlen, required_size_v1_to_v4 in Hlen.
  assert (version = 1 \/ version = 2 \/ version = 3 \/ version = 4)
    as [-> | [-> | [-> | ->]]] by lia;
    cbn [parse_process_version]; unfold parse_v1, parse_v2, parse_v3_v4, header_size, zlen, required_size_v1_to_v4;
    (replace (_ <? _) with false by lia); skip_fields; cbn [Z.leb Z.compare Pos.compare Pos.compare_cont];
    (match goal with |- context [drop ?n data] =>
       match goal with |- context [drop (Z.to_nat ?m) data] =>
         replace (Z.to_nat m) with n by lia end end);
    destruct (parse_names _) as [[[a b] c]|e|q]; cbn; naive_solver.
Qed.

Lemma extract_value_no_panic n data : no_panic (extract_value_from_buffer n data).
Proof. unfold extract_value_from_buffer. case_match; auto with rust. Qed.

Lemma extract_pointer_no_panic data ps : no_panic (extract_pointer_from_buffer data ps).
Proof.
  unfold extract_pointer_from_buffer. repeat case_match; auto using extract_value_no_panic with rust.
Qed.

#[export] Hint Resolve extract_value_no_panic extract_pointer_no_panic utf16_until_null_no_panic : rust.

Ltac no_panic_chain :=
  repeat (apply no_panic_bind; [auto with rust|]; intros [? ?] _).

Lemma parse_v0_no_panic data ps : no_panic (parse_v0 data ps).
Proof.
  unfold parse_v0. case_match; [auto with rust|]. no_panic_chain.
  match goal with |- no_panic (res_bind (etw_sid_to_string_with_size ?x) _) => generalize x end.
  intros d.
  destruct (decide (8 <= length d)%nat) as [H8|H8].
  - destruct (etw_sid_enough d H8) as (t & n & -> & Hs). cbn [res_bind]. rewrite Hs. cbn [res_bind].
    apply no_panic_bind; [|intros [? ?] _; auto with rust].
    unfold ascii_string_until_null. apply no_panic_bind; auto with rust.
  - destruct d as [|? [|? [|? [|? [|? [|? [|? [|? ?]]]]]]]]; cbn in H8; try lia; by intros p.
Qed.

(** With another pointer width nothing is read. *)
Lemma parse_version_other_width version ps data :
  1 <= version <= 4 -> ps <> 4 -> ps <> 8 -> no_panic (parse_process_version version data ps).
Proof.
  intros Hv H4 H8.
  assert (forall d, extract_pointer_from_buffer d ps = Err NoneV) as He.
  { intros d. unfold extract_pointer_from_buffer. by repeat case_match; try lia. }
  assert (version = 1 \/ version = 2 \/ version = 3 \/ version = 4)
    as [-> | [-> | [-> | ->]]] by lia; cbn [parse_process_version];
    unfold parse_v1, parse_v2, parse_v3_v4; case_match; rewrite ?He; by intros p.
Qed.

(** When the process decoder panics.  It does so exactly on a payload
    of version 1 to 4 with a process opcode and a supported pointer width
    that is long enough, in which everything after the SID is valid UTF-8
    without a NUL byte: the decoder then skips a terminator that is not
    there.  Version 0 never panics. *)
Theorem decode_process_panics (version opcode ps : Z) (data : list Z) (p : panic) :
  decode_process_parts version opcode ps data = Panic p <->
  p = IndexOutOfBounds /\ (opcode = 1 \/ opcode = 2) /\ 1 <= version <= 4 /\ (ps = 4 \/ ps = 8) /\
  required_size_v1_to_v4 ps <= zlen data /\
  (let tail := after_sid (drop (Z.to_nat (header_size version ps)) data) in
   lacks 0 tail /\ utf8_valid tail = true).
Proof.
  unfold decode_process_parts, PROCESS_START, PROCESS_END.
  destruct (negb (opcode =? 1) && negb (opcode =? 2)) eqn:Eop; [naive_solver lia|].
  assert (opcode = 1 \/ opcode = 2) as Hop by lia.
  assert (forall m, res_bind m (fun parsed =>
      if opcode =? 1 then Ok (Decoded_ProcessStart (process_start_event parsed version))
      else if opcode =? 2 then Ok (Decoded_ProcessEnd (process_end_event parsed version))
      else Err NoneV) = Panic p <-> m = Panic p) as ->.
  { intros [a|e|q]; cbn; destruct Hop as [-> | ->]; naive_solver. }
  assert (1 <= version <= 4 \/ ~ (1 <= version <= 4)) as [Hv|Hv] by lia.
  2:{ split; [|naive_solver lia]. intros Hp. exfalso. revert Hp. unfold parse_process_version.
      repeat case_match; try lia; try done. apply parse_v0_no_panic. }
  destruct (decide (ps = 4 \/ ps = 8)) as [Hps|Hps].
  2:{ split; [|naive_solver]. intros Hp. exfalso. revert Hp.
      apply parse_version_other_width; [done|naive_solver..]. }
  destruct (decide (required_size_v1_to_v4 ps <= zlen data)) as [Hlen|Hlen].
  - rewrite parse_version_names, parse_names_panic by
      (done || unfold zlen, required_size_v1_to_v4, header_size in *; rewrite length_drop; case_match; lia).
    naive_solver.
  - split; [|naive_solver]. intros Hp. exfalso. revert Hp.
    assert (version = 1 \/ version = 2 \/ version = 3 \/ version = 4)
      as [-> | [-> | [-> | ->]]] by lia; cbn [parse_process_version];
      unfold parse_v1, parse_v2, parse_v3_v4; (replace (_ <? _) with true by lia); done.
Qed.

(** ** Images *)

Record image_payload := mk_image_payload {
  ip_base : Z; ip_size : Z; ip_pid : Z; ip_checksum : Z; ip_timestamp : Z; ip_skip0 : Z;
  ip_default_base : Z; ip_skip1 : Z; ip_skip2 : Z; ip_skip3 : Z; ip_skip4 : Z;
  ip_name : list Z }.

Definition image_payload_ok (ps : Z) (p : image_payload) : Prop :=
  pointer_ok ps (ip_base p) /\ pointer_ok ps (ip_size p) /\ pointer_ok ps (ip_default_base p) /\
  u32_ok (ip_pid p) /\ u32_ok (ip_checksum p) /\ u32_ok (ip_timestamp p) /\ u32_ok (ip_skip0 p) /\
  u32_ok (ip_skip1 p) /\ u32_ok (ip_skip2 p) /\ u32_ok (ip_skip3 p) /\ u32_ok (ip_skip4 p) /\
  text_ok (ip_name p).

Definition encode_image (ps : Z) (p : image_payload) (rest : list Z) : list Z :=
  pointer_bytes ps (ip_base p) ++ pointer_bytes ps (ip_size p) ++ le_encode 4 (ip_pid p) ++
  le_encode 4 (ip_checksum p) ++ le_encode 4 (ip_timestamp p) ++ le_encode 4 (ip_skip0 p) ++
  pointer_bytes ps (ip_default_base p) ++ le_encode 4 (ip_skip1 p) ++ le_encode 4 (ip_skip2 p) ++
  le_encode 4 (ip_skip3 p) ++ le_encode 4 (ip_skip4 p) ++ utf16z (ip_name p) ++ rest.

(** Image load and unload events: the decoder never panics on any
    bytes, and a payload of the documented layout (versions 2 to 4, both
    pointer widths) that reaches the required size decodes to its fields. *)
Theorem decode_image_correct (version ps opcode : Z) (data rest : list Z) (p : image_payload)
    (Hv : 2 <= version <= 4) (Hps : ps = 4 \/ ps = 8) (Hp : image_payload_ok ps p) :
  no_panic (decode_image_parts version opcode ps data) /\
  (opcode = 10 \/ opcode = 2 ->
   decode_image_parts version opcode ps (encode_image ps p rest) =
     if zlen (encode_image ps p rest) <? required_size_v3 ps then Err NoneV
     else Ok (let name := utf8_encode (ip_name p) in
              if opcode =? 10
              then Decoded_ImageLoad (mkImageLoadEvent (ip_pid p) (ip_base p) (ip_size p)
                     (ip_checksum p) (ip_timestamp p) (ip_default_base p) name version)
              else Decoded_ImageUnload (mkImageUnloadEvent (ip_pid p) (ip_base p) (ip_size p)
                     (ip_checksum p) (ip_timestamp p) (ip_default_base p) name version))).
Proof.
  unfold decode_image_parts, IMAGE_LOAD, IMAGE_UNLOAD.
  replace ((2 <=? version) && (version <=? 4)) with true by lia. split.
  - apply no_panic_bind; [|intros; repeat case_match; auto with rust].
    unfold parse_v3. case_match; [auto with rust|]. no_panic_chain. auto with rust.
  - intros Hop. unfold parse_v3. destruct (zlen _ <? _); [by destruct Hop as [-> | ->]|].
    destruct Hp as (? & ? & ? & ? & ? & ? & ? & ? & ? & ? & ? & Hn). unfold u32_ok in *.
    unfold encode_image. read_fields.
    destruct (utf16_until_null_app (ip_name p) rest Hn) as [n Hu]. rewrite Hu.
    by destruct Hop as [-> | ->].
Qed.

Lemma decode_image_correct_witness :
  decode_image_parts 3 10 4 (encode_image 4
    (mk_image_payload 0x400000 0x1000 77 5 6 0 0x10000 0 0 0 0 (lit "\Device\a.dll")) []) =
  Ok (Decoded_ImageLoad (mkImageLoadEvent 77 0x400000 0x1000 5 6 0x10000 (lit "\Device\a.dll") 3)).
Proof.
  refine (eq_trans (proj2 (decode_image_correct 3 4 10 [] []
    (mk_image_payload 0x400000 0x1000 77 5 6 0 0x10000 0 0 0 0 (lit "\Device\a.dll")) _ _ _) _) _).
  - lia.
  - by left.
  - unfold image_payload_ok, pointer_ok, u32_ok. cbn -[text_ok lit].
    split_and!; try lia. apply text_ok_check. by vm_compute.
  - by left.
  - by vm_compute.
Defined.

Example decode_process_panic_example :
  decode_process_parts 3 1 8 (replicate 52 0 ++ [1; 1; 0; 0; 0; 0; 0; 5; 18; 0; 0; 0] ++ replicate 12 65)
  = Panic IndexOutOfBounds.
Proof. by vm_compute. Qed.
