(* ===== verification/EtwMap.v ===== *)
(** * EtwMap: events decoded from schema fields, and the dispatch

    src/etw/decode/generic_map.rs and src/etw/decode/mod.rs, with the part of
    the standard library's IP address parser they use. *)

From Stdlib Require Import ZArith Lia String Ascii.
From stdpp Require Import base list strings gmap numbers sorting.
From S2P Require Import Prelude Text Unicode Errors Sid EtwEvents EtwDecode.

Open Scope Z_scope.

(** ** [IpAddr::from_str]

    The recursive-descent parser of [core::net::parser]: a reader takes the
    rest of the text and returns a value and the new rest. *)

Definition reader (A : Type) : Type := str -> option (A * str).

(** The digits at the front of the text. *)
Fixpoint take_digits (base : Z) (s : str) : list Z * str :=
  match s with
  | [] => ([], [])
  | c :: s' =>
      match char_digit base c with
      | Some d => let '(ds, r) := take_digits base s' in (d :: ds, r)
      | None => ([], s)
      end
  end.

(** [read_number]: at most [max_digits] digits and at most [max]. *)
Definition read_number (base max : Z) (max_digits : nat) (allow_zero_prefix : bool) : reader Z := fun s =>
  let '(ds, r) := take_digits base s in
  let n := fold_left (fun acc d => acc * base + d) ds 0 in
  let zero_prefix := match ds with 0 :: _ :: _ => true | _ => false end in
  if bool_decide (ds = []) || (max_digits <? length ds)%nat || (max <? n) ||
     (negb allow_zero_prefix && zero_prefix)
  then None else Some (n, r).

Definition read_given_char (c : Z) : reader unit := fun s =>
  match s with x :: s => if x =? c then Some (tt, s) else None | [] => None end.

(** [read_separator]: the separator is not expected before the first
    element. *)
Definition read_separator {A} (sep : Z) (index : nat) (f : reader A) : reader A := fun s =>
  match index with
  | O => f s
  | S _ => r ← read_given_char sep s; f (snd r)
  end.

Definition octet : reader Z := read_number 10 255 3 false.

Definition read_ipv4_addr : reader (list Z) := fun s =>
  '(a, s) ← octet s;
  '(b, s) ← read_separator 46 1 octet s;
  '(c, s) ← read_separator 46 1 octet s;
  '(d, s) ← read_separator 46 1 octet s;
  Some ([a; b; c; d], s).

(** [read_groups]: 16-bit groups, an IPv4 address filling the last two; the
    loop index is [i], [todo] groups are left. *)
Fixpoint read_groups (todo i : nat) (s : str) : list Z * bool * str :=
  match todo with
  | O => ([], false, s)
  | S todo' =>
      match (if (0 <? todo')%nat then read_separator 58 i read_ipv4_addr s else None) with
      | Some ([a; b; c; d], r) => ([a * 256 + b; c * 256 + d], true, r)
      | _ =>
          match read_separator 58 i (read_number 16 65535 4 true) s with
          | Some (g, r) => let '(gs, v4, r) := read_groups todo' (S i) r in (g :: gs, v4, r)
          | None => ([], false, s)
          end
      end
  end.

Definition group_bytes (gs : list Z) : list Z := mjoin ((fun g => [g / 256; g mod 256]) <$> gs).

Definition read_ipv6_addr : reader (list Z) := fun s =>
  let '(head, head_ipv4, s) := read_groups 8 0 s in
  if (length head =? 8)%nat then Some (group_bytes head, s)
  else if head_ipv4 then None
  else
    '(_, s) ← read_given_char 58 s;
    '(_, s) ← read_given_char 58 s;
    let '(tail, _, s) := read_groups (8 - (length head + 1)) 0 s in
    Some (group_bytes (head ++ replicate (8 - length head - length tail) 0 ++ tail), s).

(** The whole text has to be read. *)
Definition parse_ip_text (s : str) : option IpAddr :=
  match read_ipv4_addr s with
  | Some (o, r) => if bool_decide (r = []) then Some (V4 o) else None
  | None =>
      match read_ipv6_addr s with
      | Some (o, []) => Some (V6 o)
      | _ => None
      end
  end.

(** ** generic_map.rs: fields by name *)

Fixpoint find_field (name : str) (fields : list EventField) : option EventFieldValue :=
  match fields with
  | [] => None
  | f :: fields =>
      if eq_ignore_ascii_case (field_name f) name then Some (field_value f) else find_field name fields
  end.

Fixpoint field_by_name (fields : list EventField) (names : list str) : option EventFieldValue :=
  match names with
  | [] => None
  | name :: names =>
      match find_field name fields with
      | Some v => Some v
      | None => field_by_name fields names
      end
  end.

(** A list of names, as the source writes it. *)
Definition names_of (l : list string) : list str := lit <$> l.

Definition field_string (fields : list EventField) (names : list str) : option str :=
  match field_by_name fields names with Some (Val_String v) => Some v | _ => None end.

Definition parse_ip_value (value : EventFieldValue) : option IpAddr :=
  match value with
  | Val_IpAddr v => Some v
  | Val_String v => parse_ip_text v
  | Val_U32 v => Some (V4 (le_encode 4 v))
  | Val_U64 v => Some (V4 (take 4 (le_encode 8 v)))
  | Val_Binary v =>
      if (length v =? 4)%nat then Some (V4 v)
      else if (length v =? 16)%nat then Some (V6 v) else None
  | _ => None
  end.

Definition field_ip (fields : list EventField) (names : list str) : option IpAddr :=
  value ← field_by_name fields names; parse_ip_value value.

Definition looks_like_address (lower : str) : bool :=
  contains (lit "ip") lower || contains (lit "addr") lower || contains (lit "address") lower.
Definition is_source_name (lower : str) : bool :=
  contains (lit "src") lower || starts_with (lit "s") lower || contains (lit "local") lower.
Definition is_destination_name (lower : str) : bool :=
  contains (lit "dst") lower || starts_with (lit "d") lower || contains (lit "remote") lower.

Fixpoint field_ip_by_pattern (fields : list EventField) (source : bool) : option IpAddr :=
  match fields with
  | [] => None
  | f :: fields =>
      let lower := to_ascii_lowercase (field_name f) in
      if negb (looks_like_address lower) then field_ip_by_pattern fields source
      else if (source && is_source_name lower) || (negb source && is_destination_name lower)
      then match parse_ip_value (field_value f) with
           | Some ip => Some ip
           | None => field_ip_by_pattern fields source
           end
      else field_ip_by_pattern fields source
  end.

(** [uN::try_from]. *)
Definition try_from (max v : Z) : option Z := if (0 <=? v) && (v <=? max) then Some v else None.

Definition field_u16 (fields : list EventField) (names : list str) : option Z :=
  match field_by_name fields names with
  | Some (Val_U16 v) => Some v
  | Some (Val_U32 v) | Some (Val_U64 v) => try_from u16_max v
  | _ => None
  end.

Definition field_u32 (fields : list EventField) (names : list str) : option Z :=
  match field_by_name fields names with
  | Some (Val_U8 v) | Some (Val_U16 v) | Some (Val_U32 v) => Some v
  | Some (Val_U64 v) | Some (Val_I32 v) | Some (Val_I64 v) => try_from u32_max v
  | _ => None
  end.

Definition field_u64 (fields : list EventField) (names : list str) : option Z :=
  match field_by_name fields names with
  | Some (Val_U8 v) | Some (Val_U16 v) | Some (Val_U32 v) | Some (Val_U64 v) | Some (Val_Pointer v) => Some v
  | Some (Val_I32 v) | Some (Val_I64 v) => try_from u64_max v
  | _ => None
  end.

Definition field_process_id : list EventField -> list str -> option Z := field_u32.

(** ** generic_map.rs: the three providers *)

Definition pid_names : list str := names_of ["PID"; "ProcessId"]%string.

Definition or_else {A} (o : option A) (p : option A) : option A :=
  match o with Some _ => o | None => p end.

Definition source_names : list str :=
  names_of ["saddr"; "saddrv4"; "saddrv6"; "SourceIp"; "SourceAddress"; "LocalAddress"; "srcaddr"; "srcip"]%string.
Definition destination_names : list str :=
  names_of ["daddr"; "daddrv4"; "daddrv6"; "DestinationIp"; "DestinationAddress"; "RemoteAddress"; "dstaddr"; "dstip"]%string.

Definition tcp_operation_of (opcode : Z) : TcpOperation :=
  match opcode with
  | 10 | 26 => Tcp_Send
  | 11 | 27 => Tcp_Receive
  | 12 | 28 => Tcp_Connect
  | 13 | 29 => Tcp_Disconnect
  | 14 | 30 => Tcp_Retransmit
  | 15 | 31 => Tcp_Accept
  | 16 | 32 => Tcp_Reconnect
  | 18 | 34 => Tcp_Copy
  | _ => Tcp_Unknown
  end.

Definition map_tcp (opcode : Z) (fields : list EventField) : TcpEvent :=
  let source_ip := or_else (field_ip fields source_names) (field_ip_by_pattern fields true) in
  let destination_ip := or_else (field_ip fields destination_names) (field_ip_by_pattern fields false) in
  mkTcpEvent (tcp_operation_of opcode) (field_process_id fields pid_names) source_ip
    (field_u16 fields (names_of ["sport"; "SourcePort"]%string)) destination_ip
    (field_u16 fields (names_of ["dport"; "DestinationPort"]%string))
    (field_u32 fields (names_of ["size"]%string)) (field_u32 fields (names_of ["seqnum"]%string)).

Definition registry_operation_of (opcode : Z) : RegistryOperation :=
  match opcode with
  | 10 => RegOp_Create | 11 => RegOp_Open | 12 => RegOp_DeleteKey | 13 => RegOp_QueryKey
  | 14 => RegOp_SetValue | 15 => RegOp_DeleteValue | 16 | 19 => RegOp_QueryValue
  | 17 => RegOp_EnumerateKey | 18 => RegOp_EnumerateValue | 20 => RegOp_SetInformation
  | 21 => RegOp_Flush | 22 => RegOp_KcbCreate | 23 => RegOp_KcbDelete
  | 24 => RegOp_KcbRundownBegin | 25 => RegOp_KcbRundownEnd | 26 => RegOp_Virtualize
  | 27 => RegOp_Close | 28 => RegOp_SetSecurity | 29 => RegOp_QuerySecurity
  | _ => RegOp_Unknown
  end.

Definition names_a_value (operation : RegistryOperation) : bool :=
  match operation with RegOp_SetValue | RegOp_DeleteValue | RegOp_QueryValue => true | _ => false end.

Definition map_registry (opcode : Z) (fields : list EventField) : RegistryEvent :=
  let operation := registry_operation_of opcode in
  let name := field_string fields (names_of ["KeyName"; "registry_key_name"]%string) in
  let value_name := field_string fields (names_of ["ValueName"; "registry_value_name"]%string) in
  let '(key_name, value_name) :=
    match names_a_value operation, value_name with
    | true, None => (None, name)
    | _, value_name => (name, value_name)
    end in
  mkRegistryEvent operation (field_process_id fields pid_names) key_name
    (field_string fields (names_of ["RelativeName"; "registry_relative_name"]%string)) value_name
    (field_u32 fields (names_of ["Status"; "status"]%string))
    (field_u64 fields (names_of ["KeyHandle"; "registry_key_handle"]%string)).

Definition file_operation_of (opcode : Z) : FileIoOperation :=
  match opcode with
  | 0 => FileOp_Name | 32 => FileOp_NameCreate | 35 => FileOp_NameDelete | 64 => FileOp_Create
  | 36 => FileOp_Rundown | 65 => FileOp_Cleanup | 66 => FileOp_Close | 69 => FileOp_SetInformation
  | 72 => FileOp_DirectoryEnumeration | 73 => FileOp_Flush | 74 => FileOp_QueryInformation
  | 75 => FileOp_FileSystemControl | 76 => FileOp_OperationEnd | 77 => FileOp_DirectoryNotification
  | 67 => FileOp_Read | 68 => FileOp_Write | 70 => FileOp_Delete | 71 => FileOp_Rename
  | 79 => FileOp_DeletePath | 80 => FileOp_RenamePath | 81 => FileOp_SetLinkPath
  | _ => FileOp_Unknown
  end.

Definition map_file (opcode : Z) (fields : list EventField) : FileIoEvent :=
  let u32 names := field_u32 fields (names_of names) in
  let u64 names := field_u64 fields (names_of names) in
  let text names := field_string fields (names_of names) in
  mkFileIoEvent (file_operation_of opcode) (field_process_id fields pid_names)
    (u32 ["TTID"; "ThreadId"]%string) (u64 ["FileObject"]%string) (u64 ["IrpPtr"]%string)
    (u64 ["FileKey"]%string) (text ["OpenPath"; "file.path"]%string) (text ["FileName"]%string)
    (u32 ["CreateOptions"]%string) (u32 ["FileAttributes"]%string) (u32 ["ShareAccess"]%string)
    (u32 ["InfoClass"]%string) (u64 ["ExtraInfo"]%string) (u32 ["IoSize"]%string) (u64 ["Offset"]%string).

(** ** Dispatch by provider

    The provider GUIDs are constants of the [windows] crate. *)

Class provider_guids := {
  ProcessGuid : GUID;
  ImageLoadGuid : GUID;
  TcpIpGuid : GUID;
  RegistryGuid : GUID;
  FileIoGuid : GUID }.

Section Dispatch.
Context `{provider_guids}.

Definition decode_from_generic (provider_guid : GUID) (opcode : Z) (fields : list EventField)
    : option DecodedEvent :=
  if decide (provider_guid = TcpIpGuid) then Some (Decoded_Tcp (map_tcp opcode fields))
  else if decide (provider_guid = RegistryGuid) then Some (Decoded_Registry (map_registry opcode fields))
  else if decide (provider_guid = FileIoGuid) then Some (Decoded_FileIo (map_file opcode fields))
  else None.

Definition decode_fields (provider_guid : GUID) (opcode : Z) (fields : option (list EventField))
    : DecodedEvent :=
  match fields with
  | Some fields =>
      match decode_from_generic provider_guid opcode fields with
      | Some decoded => decoded
      | None => Decoded_Generic fields
      end
  | None => Decoded_Unknown
  end.

(** [if guid == .. && let Some(decoded) = decoder { return decoded; } rest]. *)
Definition try_decoder (applies : bool) (decoder : res none DecodedEvent) (rest : res none DecodedEvent)
    : res none DecodedEvent :=
  if applies then match decoder with Err _ => rest | r => r end else rest.

Definition decode_from_record_parts (provider_guid : GUID) (version opcode pointer_size : Z)
    (data : list Z) (fields : option (list EventField)) : res none DecodedEvent :=
  try_decoder (bool_decide (provider_guid = ProcessGuid))
    (decode_process_parts version opcode pointer_size data)
    (try_decoder (bool_decide (provider_guid = ImageLoadGuid))
      (decode_image_parts version opcode pointer_size data)
      (Ok (decode_fields provider_guid opcode fields))).
End Dispatch.

(** [EVENT_HEADER_FLAG_64_BIT_HEADER] and [.._32_BIT_HEADER]; [native] is
    the consumer's own pointer width. *)
Definition pointer_size_from_header_flags (native flags : Z) : Z :=
  if negb (Z.land flags 0x40 =? 0) then 8
  else if negb (Z.land flags 0x20 =? 0) then 4
  else native.

(** ** Field names are matched without regard to case *)

(** The same fields with names that differ in the case of ASCII letters. *)
Definition same_fields : list EventField -> list EventField -> Prop :=
  Forall2 (fun f g => to_ascii_lowercase (field_name f) = to_ascii_lowercase (field_name g) /\
                      field_value f = field_value g).

#[export] Instance find_field_proper : Proper (eq ==> same_fields ==> eq) find_field.
Proof.
  intros name ? <- l1 l2 H. induction H as [|f g l1 l2 [Hn Hv] _ IH]; [done|]. cbn.
  unfold eq_ignore_ascii_case. by rewrite Hn, Hv, IH.
Qed.

#[export] Instance field_by_name_proper : Proper (same_fields ==> eq ==> eq) field_by_name.
Proof.
  intros l1 l2 H names ? <-. induction names as [|n names IH]; [done|]. cbn. by rewrite H, IH.
Qed.

#[export] Instance field_ip_by_pattern_proper : Proper (same_fields ==> eq ==> eq) field_ip_by_pattern.
Proof.
  intros l1 l2 H source ? <-. induction H as [|f g l1 l2 [Hn Hv] _ IH]; [done|]. cbn.
  by rewrite Hn, Hv, IH.
Qed.

Section FieldReaders.
Context (l1 l2 : list EventField) (Hl : same_fields l1 l2).

Lemma field_string_same names : field_string l1 names = field_string l2 names.
Proof. unfold field_string. by rewrite Hl. Qed.
Lemma field_ip_same names : field_ip l1 names = field_ip l2 names.
Proof. unfold field_ip. by rewrite Hl. Qed.
Lemma field_u16_same names : field_u16 l1 names = field_u16 l2 names.
Proof. unfold field_u16. by rewrite Hl. Qed.
Lemma field_u32_same names : field_u32 l1 names = field_u32 l2 names.
Proof. unfold field_u32. by rewrite Hl. Qed.
Lemma field_u64_same names : field_u64 l1 names = field_u64 l2 names.
Proof. unfold field_u64. by rewrite Hl. Qed.
End FieldReaders.

(** Events decoded from schema fields do not depend on the case of the
    field names: two field lists with the same values under names that agree
    up to ASCII case give the same TCP, registry or file event. *)
Theorem decode_from_generic_ignores_case `{provider_guids} (g : GUID) (opcode : Z)
    (l1 l2 : list EventField) (Hl : same_fields l1 l2) :
  decode_from_generic g opcode l1 = decode_from_generic g opcode l2.
Proof.
  assert (map_tcp opcode l1 = map_tcp opcode l2) as Ht.
  { unfold map_tcp, field_process_id. by rewrite !(field_ip_same _ _ Hl), !(field_u16_same _ _ Hl),
      !(field_u32_same _ _ Hl), Hl. }
  assert (map_registry opcode l1 = map_registry opcode l2) as Hr.
  { unfold map_registry, field_process_id. by rewrite !(field_string_same _ _ Hl), !(field_u32_same _ _ Hl),
      !(field_u64_same _ _ Hl). }
  assert (map_file opcode l1 = map_file opcode l2) as Hf.
  { unfold map_file, field_process_id. by rewrite !(field_string_same _ _ Hl), !(field_u32_same _ _ Hl),
      !(field_u64_same _ _ Hl). }
  unfold decode_from_generic. by rewrite Ht, Hr, Hf.
Qed.

(** Concrete GUIDs, for the witnesses. *)
Definition sample_guids : provider_guids := {|
  ProcessGuid := mkGUID 0x3d6fa8d0 0xfe05 0x11d0 [0x9d; 0xda; 0x00; 0xc0; 0x4f; 0xd7; 0xba; 0x7c];
  ImageLoadGuid := mkGUID 0x2cb15d1d 0x5fc1 0x11d2 [0xab; 0xe1; 0x00; 0xa0; 0xc9; 0x11; 0xf5; 0x18];
  TcpIpGuid := mkGUID 0x9a280ac0 0xc8e0 0x11d1 [0x84; 0xe2; 0x00; 0xc0; 0x4f; 0xb9; 0x98; 0xa2];
  RegistryGuid := mkGUID 0xae53722e 0xc863 0x11d2 [0x86; 0x59; 0x00; 0xc0; 0x4f; 0xa3; 0x21; 0xa1];
  FileIoGuid := mkGUID 0x90cbdc39 0x4a3e 0x11d1 [0x84; 0xf4; 0x00; 0x00; 0xf8; 0x04; 0x64; 0xe3] |}.

Lemma decode_from_generic_ignores_case_witness :
  @decode_from_generic sample_guids (@RegistryGuid sample_guids) 11
    [mkEventField (lit "keyname") (Val_String (lit "Software")); mkEventField (lit "STATUS") (Val_U32 5)] =
  Some (Decoded_Registry (mkRegistryEvent RegOp_Open None (Some (lit "Software")) None None (Some 5) None)).
Proof.
  refine (eq_trans (@decode_from_generic_ignores_case sample_guids _ _ _
    [mkEventField (lit "KeyName") (Val_String (lit "Software")); mkEventField (lit "Status") (Val_U32 5)] _) _).
  - repeat (apply Forall2_cons; split; [split; by vm_compute|]). constructor.
  - by vm_compute.
Defined.

(** ** IP addresses *)

Lemma take_digits_app base ds r :
  2 <= base <= 16 -> Forall (fun d => 0 <= d < base) ds ->
  match r with [] => True | c :: _ => char_digit base c = None end ->
  take_digits base ((digit_char <$> ds) ++ r) = (ds, r).
Proof.
  intros Hb Hd Hr. induction Hd as [|d ds Hd _ IH]; cbn [fmap list_fmap app take_digits].
  - destruct r as [|c r]; [done|]. cbn. by rewrite Hr.
  - rewrite char_digit_char by done. fold (digit_char <$> ds). by rewrite IH.
Qed.

(** The decimal form of an octet: what the parser checks about it. *)
Lemma octet_digits n :
  0 <= n <= 255 ->
  (length (digits 10 n) <=? 3)%nat && match digits 10 n with 0 :: _ :: _ => false | _ => true end = true.
Proof.
  intros Hn.
  assert (forallb (fun n => (length (digits 10 n) <=? 3)%nat &&
    match digits 10 n with 0 :: _ :: _ => false | _ => true end) (seqZ 0 256) = true) as H by by vm_compute.
  rewrite forallb_forall in H. apply H. apply list_elem_of_In. apply elem_of_seqZ. lia.
Qed.

Lemma octet_app n r :
  0 <= n <= 255 -> match r with [] => True | c :: _ => char_digit 10 c = None end ->
  octet (fmt_dec n ++ r) = Some (n, r).
Proof.
  intros Hn Hr. unfold octet, read_number, fmt_dec.
  rewrite take_digits_app by (done || apply digits_range; lia).
  change (fold_left (fun acc d => acc * 10 + d) (digits 10 n) 0) with (value 10 (digits 10 n)).
  rewrite digits_value by lia. destruct (andb_prop _ _ (octet_digits n Hn)) as [Hl Hz].
  rewrite bool_decide_eq_false_2 by apply digits_nonempty.
  apply Nat.leb_le in Hl. replace (3 <? length (digits 10 n))%nat with false
    by (symmetry; apply Nat.ltb_ge; lia).
  replace (255 <? n) with false by lia. cbn [orb negb andb].
  destruct (digits 10 n) as [|[] [|]]; done.
Qed.

(** Dotted-decimal text. *)
Definition ipv4_text (a b c d : Z) : str :=
  fmt_dec a ++ lit "." ++ fmt_dec b ++ lit "." ++ fmt_dec c ++ lit "." ++ fmt_dec d.

Lemma parse_ipv4_text a b c d :
  0 <= a <= 255 -> 0 <= b <= 255 -> 0 <= c <= 255 -> 0 <= d <= 255 ->
  parse_ip_text (ipv4_text a b c d) = Some (V4 [a; b; c; d]).
Proof.
  intros Ha Hb Hc Hd. unfold parse_ip_text, read_ipv4_addr, ipv4_text. change (lit ".") with [46].
  cbn [app]. rewrite octet_app by done. cbn [mbind option_bind]. unfold read_separator.
  cbn [read_given_char Z.eqb Pos.eqb mbind option_bind snd]. rewrite octet_app by done.
  cbn [read_given_char Z.eqb Pos.eqb mbind option_bind snd]. rewrite octet_app by done.
  cbn [read_given_char Z.eqb Pos.eqb mbind option_bind snd].
  rewrite <- (app_nil_r (fmt_dec d)), octet_app by done. done.
Qed.

(** One IPv4 address, four encodings.  The four bytes read from the
    wire as a little-endian integer (32 or 64 bits wide), as a binary blob,
    or printed in dotted decimal all decode to the same address, in the
    order in which they stand on the wire. *)
Theorem parse_ip_value_agrees (a b c d : Z) (high : Z)
    (Ha : 0 <= a <= 255) (Hb : 0 <= b <= 255) (Hc : 0 <= c <= 255) (Hd : 0 <= d <= 255)
    (Hh : 0 <= high <= u32_max) :
  let addr := Some (V4 [a; b; c; d]) in
  let word := le_decode [a; b; c; d] in
  parse_ip_value (Val_U32 word) = addr /\
  parse_ip_value (Val_U64 (word + 2 ^ 32 * high)) = addr /\
  parse_ip_value (Val_Binary [a; b; c; d]) = addr /\
  parse_ip_value (Val_String (ipv4_text a b c d)) = addr.
Proof.
  assert (bytes_ok [a; b; c; d]) as Hok by solve_bytes.
  cbn zeta. split_and!; cbn [parse_ip_value].
  - do 2 f_equal. apply (le_encode_decode [a; b; c; d] Hok).
  - do 2 f_equal.
    assert (le_decode [a; b; c; d] + 2 ^ 32 * high = le_decode ([a; b; c; d] ++ le_encode 4 high)) as ->.
    { rewrite <- (le_decode_encode 4 high) at 1 by (cbn; lia). cbn [app le_decode].
      change (2 ^ 32) with 4294967296. lia. }
    assert (bytes_ok ([a; b; c; d] ++ le_encode 4 high)) as Hok8
      by (apply Forall_app; split; [done|apply bytes_ok_le_encode]).
    pose proof (le_encode_decode _ Hok8) as E. rewrite length_app, length_le_encode in E.
    cbn [length Nat.add] in E. rewrite E. done.
  - done.
  - by apply parse_ipv4_text.
Qed.

Lemma parse_ip_value_agrees_witness :
  parse_ip_value (Val_U32 0x6301A8C0) = Some (V4 [192; 168; 1; 99]) /\
  parse_ip_value (Val_String (lit "192.168.1.99")) = Some (V4 [192; 168; 1; 99]).
Proof.
  destruct (parse_ip_value_agrees 192 168 1 99 0) as (H1 & _ & _ & H4); [lia..|]. split.
  - exact H1.
  - exact H4.
Defined.

Example parse_ip_text_v6 :
  parse_ip_text (lit "2001:db8::1") = Some (V6 [0x20; 1; 0x0d; 0xb8; 0; 0; 0; 0; 0; 0; 0; 0; 0; 0; 0; 1]) /\
  parse_ip_text (lit "::ffff:10.0.0.5") = Some (V6 [0; 0; 0; 0; 0; 0; 0; 0; 0; 0; 255; 255; 10; 0; 0; 5]) /\
  parse_ip_text (lit "01.2.3.4") = None.
Proof. by vm_compute. Qed.

(** Dispatch is total: every record decodes to some event, except that
    a panic of the process decoder passes through, and only for the process
    provider; without schema fields a record that no direct decoder
    recognises is [Unknown], and with them it is never [Unknown]. *)
Theorem decode_from_record_parts_total `{provider_guids} (g : GUID) (version opcode ps : Z)
    (data : list Z) (fields : option (list EventField)) :
  (exists e, decode_from_record_parts g version opcode ps data fields = Ok e /\
     (e = Decoded_Unknown -> fields = None)) \/
  (exists p, decode_from_record_parts g version opcode ps data fields = Panic p /\
     g = ProcessGuid /\ decode_process_parts version opcode ps data = Panic p).
Proof.
  assert (forall e, e = decode_fields g opcode fields -> e = Decoded_Unknown -> fields = None) as Hf.
  { intros e -> He. unfold decode_fields, decode_from_generic in He.
    destruct fields; [|done]. repeat case_match; simplify_eq. }
  assert (no_panic (decode_image_parts version opcode ps data)) as Hi.
  { unfold decode_image_parts. apply no_panic_bind.
    - case_match; [|auto with rust]. unfold parse_v3. case_match; [auto with rust|].
      no_panic_chain. auto with rust.
    - intros; repeat case_match; auto with rust. }
  assert (forall e, decode_image_parts version opcode ps data = Ok e -> e <> Decoded_Unknown) as Hi2.
  { intros e He. unfold decode_image_parts in He.
    destruct (if (_ : bool) then parse_v3 data ps else _) as [v|?|?]; cbn in He; [|done..].
    by repeat case_match; simplify_eq. }
  assert (forall e, decode_process_parts version opcode ps data = Ok e -> e <> Decoded_Unknown) as Hp2.
  { intros e He. unfold decode_process_parts in He.
    destruct (negb _ && negb _); [done|].
    destruct (parse_process_version version data ps) as [v|?|?]; cbn in He; [|done..].
    by repeat case_match; simplify_eq. }
  unfold decode_from_record_parts, try_decoder.
  destruct (bool_decide (g = ProcessGuid)) eqn:Eg.
  - apply bool_decide_eq_true in Eg.
    destruct (decode_process_parts version opcode ps data) as [e|[]|p] eqn:Ed.
    + left. exists e. split; [done|]. intros ->. by destruct (Hp2 _ eq_refl).
    + left. destruct (bool_decide (g = ImageLoadGuid)); [|naive_solver].
      destruct (decode_image_parts version opcode ps data) as [e|[]|p] eqn:Ei; [|naive_solver|by destruct (Hi p)].
      exists e. split; [done|]. intros ->. by destruct (Hi2 _ eq_refl).
    + right. naive_solver.
  - left. destruct (bool_decide (g = ImageLoadGuid)); [|naive_solver].
    destruct (decode_image_parts version opcode ps data) as [e|[]|p] eqn:Ei; [|naive_solver|by destruct (Hi p)].
    exists e. split; [done|]. intros ->. by destruct (Hi2 _ eq_refl).
Qed.
