(* ===== verification/EtwSchema.v ===== *)
(** * EtwSchema: payloads decoded with TDH schemas (src/etw/schema.rs)

    The property-by-property parser, the value maps and the per-session
    cache.  TDH itself (the Windows call that describes an event) is a
    parameter. *)

From Stdlib Require Import ZArith Lia String Ascii.
From stdpp Require Import base list strings gmap numbers sorting.
From S2P Require Import Prelude Text Unicode Errors Sid EtwEvents EtwDecode EtwMap.

Open Scope Z_scope.

(** ** Constants of the Windows SDK (tdh.h) *)

Definition TDH_INTYPE_UNICODESTRING : Z := 1.
Definition TDH_INTYPE_ANSISTRING : Z := 2.
Definition TDH_INTYPE_INT8 : Z := 3.
Definition TDH_INTYPE_UINT8 : Z := 4.
Definition TDH_INTYPE_INT16 : Z := 5.
Definition TDH_INTYPE_UINT16 : Z := 6.
Definition TDH_INTYPE_INT32 : Z := 7.
Definition TDH_INTYPE_UINT32 : Z := 8.
Definition TDH_INTYPE_INT64 : Z := 9.
Definition TDH_INTYPE_UINT64 : Z := 10.
Definition TDH_INTYPE_BOOLEAN : Z := 13.
Definition TDH_INTYPE_GUID : Z := 15.
Definition TDH_INTYPE_POINTER : Z := 16.
Definition TDH_INTYPE_FILETIME : Z := 17.
Definition TDH_INTYPE_SID : Z := 19.
Definition TDH_INTYPE_HEXINT32 : Z := 20.
Definition TDH_INTYPE_HEXINT64 : Z := 21.

Definition TDH_OUTTYPE_STRING : Z := 1.
Definition TDH_OUTTYPE_BOOLEAN : Z := 13.
Definition TDH_OUTTYPE_HEXINT8 : Z := 16.
Definition TDH_OUTTYPE_HEXINT16 : Z := 17.
Definition TDH_OUTTYPE_HEXINT32 : Z := 18.
Definition TDH_OUTTYPE_HEXINT64 : Z := 19.
Definition TDH_OUTTYPE_PID : Z := 20.
Definition TDH_OUTTYPE_TID : Z := 21.
Definition TDH_OUTTYPE_PORT : Z := 22.
Definition TDH_OUTTYPE_IPV4 : Z := 23.
Definition TDH_OUTTYPE_IPV6 : Z := 24.
Definition TDH_OUTTYPE_SOCKETADDRESS : Z := 25.
Definition TDH_OUTTYPE_XML : Z := 28.
Definition TDH_OUTTYPE_WIN32ERROR : Z := 30.
Definition TDH_OUTTYPE_NTSTATUS : Z := 31.
Definition TDH_OUTTYPE_HRESULT : Z := 32.
Definition TDH_OUTTYPE_JSON : Z := 34.
Definition TDH_OUTTYPE_UTF8 : Z := 35.
Definition TDH_OUTTYPE_REDUCEDSTRING : Z := 300.

(** ** Data *)

Record SchemaKey := mkSchemaKey {
  sk_provider : GUID; sk_id : Z; sk_opcode : Z; sk_version : Z; sk_level : Z }.

Record PropertyMeta := mkPropertyMeta {
  pm_name : str;
  pm_in_type : Z;
  pm_out_type : Z;
  pm_length : Z;
  pm_count : Z;
  pm_count_property_index : option nat;
  pm_length_property_index : option nat;
  pm_map_name : option str }.

Record CachedSchema := mkCachedSchema { props : list PropertyMeta }.

Inductive MapKind := MapValue | MapBitmap.

Inductive MapKey := MapNumeric (k : Z) | MapText (k : str).

Record MapEntry := mkMapEntry { me_key : MapKey; me_label : str }.

Record MapDefinition := mkMapDefinition { md_kind : MapKind; md_entries : list MapEntry }.

(** ** Reading bytes *)

(** [uN::from_le_bytes(data.get(0..n)?.try_into().ok()?)]. *)
Definition get_le (n : nat) (data : list Z) : option Z :=
  if (n <=? length data)%nat then Some (le_decode (take n data)) else None.

Definition get_bytes (from n : nat) (data : list Z) : option (list Z) :=
  if (from + n <=? length data)%nat then Some (take n (drop from data)) else None.

(** A [w]-bit word as a signed integer. *)
Definition to_signed (w z : Z) : Z := if z <? 2 ^ (w - 1) then z else z - 2 ^ w.

Definition hex_text (digits : nat) (v : Z) : EventFieldValue :=
  Val_String (lit "0x" ++ fmt_hex_pad digits v).

(** ** Strings *)

Definition parse_utf16_cstr (data : list Z) : option (str * nat) :=
  if (length data <? 2)%nat then None
  else let '(units, consumed) := utf16_units data in Some (from_utf16_lossy units, consumed).

Definition parse_utf16_sized (data : list Z) (byte_len : Z) : option (str * nat) :=
  if (byte_len =? 0) || (zlen data <? byte_len) || negb (byte_len mod 2 =? 0) then None
  else Some (from_utf16_lossy (fst (utf16_units (take (Z.to_nat byte_len) data))), Z.to_nat byte_len).

(** The bytes before the first NUL. *)
Definition until_nul (raw : list Z) : list Z :=
  take (default (length raw) (position (Z.eqb 0) raw)) raw.

Definition parse_ascii_sized (data : list Z) (byte_len : Z) : option (str * nat) :=
  if (byte_len =? 0) || (zlen data <? byte_len) then None
  else
    text ← from_utf8 (until_nul (take (Z.to_nat byte_len) data));
    Some (text, Z.to_nat byte_len).

Definition parse_utf8_sized (data : list Z) (byte_len : Z) : option (str * nat) :=
  if (byte_len =? 0) || (zlen data <? byte_len) then None
  else
    text ← from_utf8 (until_nul (take (Z.to_nat byte_len) data));
    Some (text, Z.to_nat byte_len).

Definition parse_ascii_cstr (data : list Z) : option (str * nat) :=
  let stop := default (length data) (position (Z.eqb 0) data) in
  text ← from_utf8 (take stop data);
  Some (text, if (stop <? length data)%nat then S stop else stop).

Definition read_utf16_cstr_at (buffer : list Z) (offset : Z) : option str :=
  if zlen buffer <=? offset then None
  else fst <$> parse_utf16_cstr (drop (Z.to_nat offset) buffer).

(** ** SIDs, GUIDs, socket addresses *)

(** [as_chunks::<4>]: a short last chunk is left out. *)
Fixpoint write_chunks (subs : list Z) (text : str) : str :=
  match subs with
  | a :: b :: c :: d :: subs => write_chunks subs (text ++ lit "-" ++ fmt_dec (le_decode [a; b; c; d]))
  | _ => text
  end.

Definition parse_sid (data : list Z) : option (str * nat) :=
  header ← get_bytes 0 8 data;
  match header with
  | rev :: count :: auth =>
      let len := (8 + 4 * Z.to_nat count)%nat in
      subs ← get_bytes 8 (len - 8) data;
      let authority := fold_left (fun acc b => Z.lor (Z.shiftl acc 8) b) auth 0 in
      Some (write_chunks subs (lit "S-" ++ fmt_dec rev ++ lit "-" ++ fmt_dec authority), len)
  | _ => None
  end.

Definition parse_guid (data : list Z) : option GUID :=
  d1 ← get_bytes 0 4 data;
  d2 ← get_bytes 4 2 data;
  d3 ← get_bytes 6 2 data;
  d4 ← get_bytes 8 8 data;
  Some (mkGUID (le_decode d1) (le_decode d2) (le_decode d3) d4).

Definition parse_socket_address (data : list Z) : option (EventFieldValue * nat) :=
  if (length data <? 8)%nat then None
  else
    let family := le_decode (take 2 data) in
    if family =? 2 then bytes ← get_bytes 4 4 data; Some (Val_IpAddr (V4 bytes), 8%nat)
    else if family =? 23 then bytes ← get_bytes 8 16 data; Some (Val_IpAddr (V6 bytes), 24%nat)
    else None.

(** ** One value *)

Definition is_text_out_type (out_type : Z) : bool :=
  (out_type =? TDH_OUTTYPE_UTF8) || (out_type =? TDH_OUTTYPE_STRING) || (out_type =? TDH_OUTTYPE_JSON) ||
  (out_type =? TDH_OUTTYPE_XML) || (out_type =? TDH_OUTTYPE_REDUCEDSTRING).

Definition parse_out_type_override (prop : PropertyMeta) (data : list Z) : option (EventFieldValue * nat) :=
  let size_hint := pm_length prop in
  let out_type := pm_out_type prop in
  if out_type =? TDH_OUTTYPE_HEXINT8 then v ← get_le 1 data; Some (hex_text 2 v, 1%nat)
  else if out_type =? TDH_OUTTYPE_HEXINT16 then v ← get_le 2 data; Some (hex_text 4 v, 2%nat)
  else if out_type =? TDH_OUTTYPE_HEXINT32 then v ← get_le 4 data; Some (hex_text 8 v, 4%nat)
  else if out_type =? TDH_OUTTYPE_HEXINT64 then v ← get_le 8 data; Some (hex_text 16 v, 8%nat)
  else if (out_type =? TDH_OUTTYPE_HRESULT) || (out_type =? TDH_OUTTYPE_NTSTATUS) ||
          (out_type =? TDH_OUTTYPE_WIN32ERROR)
  then v ← get_le 4 data; Some (hex_text 8 v, 4%nat)
  else if out_type =? TDH_OUTTYPE_PORT
  then bytes ← get_bytes 0 2 data; Some (Val_U16 (be_decode bytes), 2%nat)
  else if (out_type =? TDH_OUTTYPE_PID) || (out_type =? TDH_OUTTYPE_TID)
  then v ← get_le 4 data; Some (Val_U32 v, 4%nat)
  else if out_type =? TDH_OUTTYPE_IPV4 then bytes ← get_bytes 0 4 data; Some (Val_IpAddr (V4 bytes), 4%nat)
  else if out_type =? TDH_OUTTYPE_IPV6 then bytes ← get_bytes 0 16 data; Some (Val_IpAddr (V6 bytes), 16%nat)
  else if out_type =? TDH_OUTTYPE_SOCKETADDRESS then parse_socket_address data
  else if out_type =? TDH_OUTTYPE_BOOLEAN then
    if (4 <=? size_hint) && (size_hint <=? zlen data)
    then v ← get_le 4 data; Some (Val_Bool (negb (v =? 0)), 4%nat)
    else v ← get_le 1 data; Some (Val_Bool (negb (v =? 0)), 1%nat)
  else if is_text_out_type out_type && (0 <? size_hint) && (size_hint <=? zlen data)
  then '(s, consumed) ← parse_utf8_sized data size_hint; Some (Val_String s, consumed)
  else None.

(** A scalar of [n] bytes, or a blob when the declared length is larger and
    fits. *)
Definition scalar_or_blob (n : nat) (mk : Z -> EventFieldValue) (size_hint : Z) (data : list Z)
    : option (EventFieldValue * nat) :=
  if (Z.of_nat n <? size_hint) && (size_hint <=? zlen data)
  then Some (Val_Binary (take (Z.to_nat size_hint) data), Z.to_nat size_hint)
  else v ← get_le n data; Some (mk v, n).

Definition parse_in_type (prop : PropertyMeta) (data : list Z) : option (EventFieldValue * nat) :=
  let size_hint := pm_length prop in
  let t := pm_in_type prop in
  if t =? TDH_INTYPE_UINT8 then scalar_or_blob 1 Val_U8 size_hint data
  else if t =? TDH_INTYPE_UINT16 then scalar_or_blob 2 Val_U16 size_hint data
  else if t =? TDH_INTYPE_UINT32 then scalar_or_blob 4 Val_U32 size_hint data
  else if t =? TDH_INTYPE_UINT64 then scalar_or_blob 8 Val_U64 size_hint data
  else if t =? TDH_INTYPE_INT32 then scalar_or_blob 4 (fun v => Val_I32 (to_signed 32 v)) size_hint data
  else if t =? TDH_INTYPE_INT64 then scalar_or_blob 8 (fun v => Val_I64 (to_signed 64 v)) size_hint data
  else if t =? TDH_INTYPE_BOOLEAN then v ← get_le 4 data; Some (Val_Bool (negb (v =? 0)), 4%nat)
  else if t =? TDH_INTYPE_GUID then g ← parse_guid data; Some (Val_Guid g, 16%nat)
  else if t =? TDH_INTYPE_POINTER then
    if size_hint =? 4 then v ← get_le 4 data; Some (Val_Pointer v, 4%nat)
    else v ← get_le 8 data; Some (Val_Pointer v, 8%nat)
  else if t =? TDH_INTYPE_FILETIME then v ← get_le 8 data; Some (Val_U64 v, 8%nat)
  else if t =? TDH_INTYPE_SID then '(sid, consumed) ← parse_sid data; Some (Val_String sid, consumed)
  else if t =? TDH_INTYPE_HEXINT32 then v ← get_le 4 data; Some (hex_text 8 v, 4%nat)
  else if t =? TDH_INTYPE_HEXINT64 then v ← get_le 8 data; Some (hex_text 16 v, 8%nat)
  else if t =? TDH_INTYPE_UNICODESTRING then
    '(s, consumed) ← (if (2 <=? size_hint) && (size_hint <=? zlen data)
                      then parse_utf16_sized data size_hint else parse_utf16_cstr data);
    Some (Val_String s, consumed)
  else if t =? TDH_INTYPE_ANSISTRING then
    '(s, consumed) ← (if (0 <? size_hint) && (size_hint <=? zlen data)
                      then parse_ascii_sized data size_hint else parse_ascii_cstr data);
    Some (Val_String s, consumed)
  else
    let n := if 0 <? size_hint then Nat.min (Z.to_nat size_hint) (length data) else length data in
    Some (Val_Binary (take n data), n).

Definition parse_one_value (prop : PropertyMeta) (data : list Z) : option (EventFieldValue * nat) :=
  match parse_out_type_override prop data with
  | Some r => Some r
  | None => parse_in_type prop data
  end.

(** ** Arrays *)

Definition element_size_hint (prop : PropertyMeta) : option nat :=
  if pm_out_type prop =? TDH_OUTTYPE_IPV4 then Some 4%nat
  else if pm_out_type prop =? TDH_OUTTYPE_IPV6 then Some 16%nat
  else
    let t := pm_in_type prop in
    if t =? TDH_INTYPE_UINT8 then Some 1%nat
    else if t =? TDH_INTYPE_UINT16 then Some 2%nat
    else if t =? TDH_INTYPE_UINT32 then Some 4%nat
    else if t =? TDH_INTYPE_UINT64 then Some 8%nat
    else if t =? TDH_INTYPE_INT32 then Some 4%nat
    else if t =? TDH_INTYPE_INT64 then Some 8%nat
    else if t =? TDH_INTYPE_BOOLEAN then Some 4%nat
    else if t =? TDH_INTYPE_GUID then Some 16%nat
    else if t =? TDH_INTYPE_POINTER then Some 8%nat
    else if t =? TDH_INTYPE_FILETIME then Some 8%nat
    else if t =? TDH_INTYPE_HEXINT32 then Some 4%nat
    else if t =? TDH_INTYPE_HEXINT64 then Some 8%nat
    else None.

Definition counted_by_element (prop : PropertyMeta) (count : Z) (data : list Z)
    : option (EventFieldValue * nat) :=
  element_size ← element_size_hint prop;
  let bytes_to_take := Z.of_nat element_size * count in
  if zlen data <? bytes_to_take then None
  else Some (Val_Binary (take (Z.to_nat bytes_to_take) data), Z.to_nat bytes_to_take).

Definition parse_counted_value (prop : PropertyMeta) (count : Z) (data : list Z)
    : option (EventFieldValue * nat) :=
  if count =? 0 then Some (Val_Binary [], O)
  else if 0 <? pm_length prop then
    let declared_len := pm_length prop in
    let bytes_to_take := if count <=? declared_len then declared_len else declared_len * count in
    if (0 <? bytes_to_take) && (bytes_to_take <=? zlen data)
    then Some (Val_Binary (take (Z.to_nat bytes_to_take) data), Z.to_nat bytes_to_take)
    else counted_by_element prop count data
  else counted_by_element prop count data.

(** ** A whole payload *)

Definition extract_numeric_value (value : EventFieldValue) : option Z :=
  match value with
  | Val_U8 v | Val_U16 v | Val_U32 v | Val_U64 v | Val_Pointer v => Some v
  | Val_I32 v | Val_I64 v => try_from u64_max v
  | Val_Bool v => Some (if v then 1 else 0)
  | _ => None
  end.

Definition extract_text_value (value : EventFieldValue) : option str :=
  match value with Val_String v => Some v | _ => None end.

(** [parsed_numeric.get(idx)] and the conversion to [u16].  The vector holds
    [None] for the properties that are still to come, which is the same as
    having only the entries so far. *)
Definition numeric_at (parsed_numeric : list (option Z)) (idx : nat) : option Z :=
  o ← parsed_numeric !! idx; v ← o; try_from u16_max v.

Definition resolve_count (prop : PropertyMeta) (parsed_numeric : list (option Z)) : Z :=
  match pm_count_property_index prop with
  | Some idx => Z.max (default 1 (numeric_at parsed_numeric idx)) 1
  | None => Z.max (pm_count prop) 1
  end.

Definition resolve_length (prop : PropertyMeta) (parsed_numeric : list (option Z)) : Z :=
  match pm_length_property_index prop with
  | Some idx => default (pm_length prop) (numeric_at parsed_numeric idx)
  | None => pm_length prop
  end.

Definition with_length (prop : PropertyMeta) (length : Z) : PropertyMeta :=
  mkPropertyMeta (pm_name prop) (pm_in_type prop) (pm_out_type prop) length (pm_count prop)
    (pm_count_property_index prop) (pm_length_property_index prop) (pm_map_name prop).

Definition parse_property (prop : PropertyMeta) (parsed_numeric : list (option Z)) (data : list Z)
    : option (EventFieldValue * nat) :=
  let resolved_count := resolve_count prop parsed_numeric in
  let runtime_prop := with_length prop (resolve_length prop parsed_numeric) in
  if 1 <? resolved_count then parse_counted_value runtime_prop resolved_count data
  else parse_one_value runtime_prop data.

(** The loop, on the data that is left. *)
Fixpoint parse_props (ps : list PropertyMeta) (parsed_numeric : list (option Z)) (data : list Z)
    : list EventField :=
  match ps with
  | [] => []
  | prop :: ps =>
      match data with
      | [] => []
      | _ =>
          match parse_property prop parsed_numeric data with
          | Some (value, consumed) =>
              mkEventField (pm_name prop) value ::
              parse_props ps (parsed_numeric ++ [extract_numeric_value value]) (drop consumed data)
          | None => []
          end
      end
  end.

Definition parse_values (schema : CachedSchema) (data : list Z) : list EventField :=
  parse_props (props schema) [] data.

(** ** Value maps *)

Fixpoint find_numeric (entries : list MapEntry) (value : Z) : option str :=
  match entries with
  | [] => None
  | e :: entries =>
      match me_key e with
      | MapNumeric k => if k =? value then Some (me_label e) else find_numeric entries value
      | MapText _ => find_numeric entries value
      end
  end.

Definition bit_label (value : Z) (e : MapEntry) : list str :=
  match me_key e with
  | MapNumeric bit => if negb (bit =? 0) && (Z.land value bit =? bit) then [me_label e] else []
  | MapText _ => []
  end.

Definition render_numeric (m : MapDefinition) (value : Z) : option str :=
  match md_kind m with
  | MapValue => find_numeric (md_entries m) value
  | MapBitmap =>
      match mjoin (bit_label value <$> md_entries m) with
      | [] => find_numeric (md_entries m) value
      | labels => Some (join (lit "|") labels)
      end
  end.

Fixpoint find_text (entries : list MapEntry) (value : str) : option str :=
  match entries with
  | [] => None
  | e :: entries =>
      match me_key e with
      | MapText k => if eq_ignore_ascii_case k value then Some (me_label e) else find_text entries value
      | MapNumeric _ => find_text entries value
      end
  end.

Definition render_text (m : MapDefinition) (value : str) : option str := find_text (md_entries m) value.

(** ** What TDH returns

    The two calls fill a buffer with C structures followed by text; the
    structures are given as records, the offsets in them point into the
    buffer.  [None] stands for a call that fails. *)

Record event_record := mk_event_record { er_key : SchemaKey; er_data : list Z }.

Record raw_property := mk_raw_property {
  rp_flags : Z; rp_name_offset : Z; rp_in_type : Z; rp_out_type : Z; rp_map_name_offset : Z;
  rp_count : Z; rp_length : Z }.

Record raw_event_info := mk_raw_event_info { ri_buffer : list Z; ri_properties : list raw_property }.

(** An entry: its value or the offset of its input text, and the offset of
    its label. *)
Record raw_map_entry := mk_raw_map_entry { re_value : Z; re_output_offset : Z }.

Record raw_map_info := mk_raw_map_info {
  rm_buffer : list Z; rm_value_type : Z; rm_flag : Z; rm_entries : list raw_map_entry }.

Definition has_flag (flags mask : Z) : bool := negb (Z.land flags mask =? 0).

(** [PropertyStruct], [PropertyParamLength], [PropertyParamCount],
    [PropertyParamFixedLength] and [PropertyParamFixedCount]. *)
Definition property_meta_of (buffer : list Z) (prop : raw_property) : PropertyMeta :=
  let flags := rp_flags prop in
  let has_struct := has_flag flags 1 in
  let has_param_length := has_flag flags 2 in
  let has_param_count := has_flag flags 4 in
  let has_fixed_length := has_flag flags 16 in
  let has_fixed_count := has_flag flags 32 in
  mkPropertyMeta
    (default [] (read_utf16_cstr_at buffer (rp_name_offset prop)))
    (rp_in_type prop) (rp_out_type prop) (rp_length prop)
    (if has_param_count && has_fixed_count then Z.max (rp_count prop) 1 else 1)
    (if has_param_count && negb has_fixed_count then Some (Z.to_nat (rp_count prop)) else None)
    (if has_param_length && negb has_fixed_length then Some (Z.to_nat (rp_length prop)) else None)
    (if negb has_struct && (0 <? rp_map_name_offset prop)
     then read_utf16_cstr_at buffer (rp_map_name_offset prop) else None).

(** [EVENTMAP_INFO_FLAG_*]: manifest value map 1, bitmap 2, pattern map 4;
    WBEM value map 8, bitmap 16, flag 32. *)
Definition map_kind_of (flag : Z) : option MapKind :=
  if (flag =? 2) || (flag =? 16) || (flag =? 32) then Some MapBitmap
  else if (flag =? 1) || (flag =? 8) || (flag =? 4) then Some MapValue
  else None.

Definition map_entry_of (buffer : list Z) (numeric : bool) (e : raw_map_entry) : option MapEntry :=
  key ← (if numeric then Some (MapNumeric (re_value e))
         else MapText <$> read_utf16_cstr_at buffer (re_value e));
  label ← read_utf16_cstr_at buffer (re_output_offset e);
  Some (mkMapEntry key label).

Section Tdh.
Context (TdhGetEventInformation : event_record -> option raw_event_info).
Context (TdhGetEventMapInformation : event_record -> list Z -> option raw_map_info).

Definition build_schema (record : event_record) : option CachedSchema :=
  info ← TdhGetEventInformation record;
  Some (mkCachedSchema (property_meta_of (ri_buffer info) <$> ri_properties info)).

Definition load_event_map (record : event_record) (map_name : str) : option MapDefinition :=
  info ← TdhGetEventMapInformation record (encode_utf16 map_name ++ [0]);
  let numeric := rm_value_type info =? 0 in
  if negb numeric && negb (rm_value_type info =? 1) then None
  else
    kind ← map_kind_of (rm_flag info);
    entries ← mapM (map_entry_of (rm_buffer info) numeric) (rm_entries info);
    Some (mkMapDefinition kind entries).
End Tdh.

(** ** The cache *)

#[export] Instance GUID_countable : Countable GUID.
Proof.
  refine (inj_countable' (fun g => (guid_data1 g, guid_data2 g, guid_data3 g, guid_data4 g))
    (fun '(a, b, c, d) => mkGUID a b c d) _). by intros [].
Defined.

#[export] Instance SchemaKey_eq_dec : EqDecision SchemaKey.
Proof. solve_decision. Defined.

#[export] Instance SchemaKey_countable : Countable SchemaKey.
Proof.
  refine (inj_countable' (fun k => (sk_provider k, sk_id k, sk_opcode k, sk_version k, sk_level k))
    (fun '(a, b, c, d, e) => mkSchemaKey a b c d e) _). by intros [].
Defined.

Record SchemaCache := mkSchemaCache {
  cache : gmap SchemaKey CachedSchema;
  map_cache : gmap str MapDefinition }.

Definition schema_cache_new : SchemaCache := mkSchemaCache ∅ ∅.

Section Cache.
Context (TdhGetEventInformation : event_record -> option raw_event_info).
Context (TdhGetEventMapInformation : event_record -> list Z -> option raw_map_info).

Definition get_or_load_map (c : SchemaCache) (record : event_record) (map_name : str)
    : option MapDefinition * SchemaCache :=
  match map_cache c !! map_name with
  | Some existing => (Some existing, c)
  | None =>
      match load_event_map TdhGetEventMapInformation record map_name with
      | Some map => (Some map, mkSchemaCache (cache c) (<[map_name := map]> (map_cache c)))
      | None => (None, c)
      end
  end.

(** What a map makes of a value. *)
Definition render_value (map : MapDefinition) (value : EventFieldValue) : option str :=
  match (v ← extract_numeric_value value; render_numeric map v) with
  | Some s => Some s
  | None => v ← extract_text_value value; render_text map v
  end.

Definition apply_map (map : option MapDefinition) (field : EventField) : EventField :=
  match (m ← map; render_value m (field_value field)) with
  | Some mapped => mkEventField (field_name field) (Val_String mapped)
  | None => field
  end.

Fixpoint apply_map_values (c : SchemaCache) (record : event_record) (ps : list PropertyMeta)
    (fields : list EventField) : list EventField * SchemaCache :=
  match fields, ps with
  | field :: fields, prop :: ps =>
      let '(field, c) :=
        match pm_map_name prop with
        | None => (field, c)
        | Some map_name =>
            let '(map, c) := get_or_load_map c record map_name in (apply_map map field, c)
        end in
      let '(fields, c) := apply_map_values c record ps fields in
      (field :: fields, c)
  | fields, _ => (fields, c)
  end.

Definition parse_event_fields (c : SchemaCache) (record : event_record)
    : option (list EventField) * SchemaCache :=
  let key := er_key record in
  let found :=
    match cache c !! key with
    | Some schema => Some (schema, c)
    | None =>
        match build_schema TdhGetEventInformation record with
        | Some schema => Some (schema, mkSchemaCache (<[key := schema]> (cache c)) (map_cache c))
        | None => None
        end
    end in
  match found with
  | None => (None, c)
  | Some (schema, c) =>
      let '(fields, c) := apply_map_values c record (props schema) (parse_values schema (er_data record)) in
      (Some fields, c)
  end.
End Cache.

(** ** Progress and bounds *)

Lemma get_le_bound n data v : get_le n data = Some v -> (n <= length data)%nat.
Proof. unfold get_le. case_match eqn:E; [|done]. apply Nat.leb_le in E. auto. Qed.

Lemma get_bytes_bound from n data v :
  get_bytes from n data = Some v -> (from + n <= length data)%nat /\ length v = n.
Proof.
  unfold get_bytes. case_match eqn:E; [|done]. apply Nat.leb_le in E. intros [= <-].
  split; [done|]. rewrite length_take, length_drop. lia.
Qed.

Lemma utf16_units_bound data : (snd (utf16_units data) <= length data)%nat.
Proof.
  assert (forall n data, length data <= n -> snd (utf16_units data) <= length data)%nat as H; [|by eapply H].
  clear. induction n as [|n IH]; intros data Hn.
  - destruct data; [done|cbn in Hn; lia].
  - destruct data as [|b0 [|b1 rest]]; [done|cbn; lia|]. cbn [utf16_units].
    case_match; [cbn; lia|]. specialize (IH rest). destruct (utf16_units rest). cbn in *. lia.
Qed.

Lemma utf16_units_progress data : (2 <= length data)%nat -> (2 <= snd (utf16_units data))%nat.
Proof.
  destruct data as [|b0 [|b1 rest]]; cbn; intros; try lia.
  case_match; [cbn; lia|]. destruct (utf16_units rest). cbn. lia.
Qed.

(** A read that makes progress and stays inside the data. *)
Definition in_bounds (data : list Z) (r : option (EventFieldValue * nat)) : Prop :=
  forall v n, r = Some (v, n) -> (0 < n <= length data)%nat.

Lemma in_bounds_none data : in_bounds data None.
Proof. done. Qed.

Lemma in_bounds_le data n (mk : Z -> EventFieldValue) :
  (0 < n)%nat -> in_bounds data (v ← get_le n data; Some (mk v, n)).
Proof.
  intros Hn v m H. apply bind_Some in H as (x & Hx & [= <- <-]). apply get_le_bound in Hx. lia.
Qed.

Lemma in_bounds_bytes data from n k (mk : list Z -> EventFieldValue) :
  (0 < k <= from + n)%nat -> in_bounds data (v ← get_bytes from n data; Some (mk v, k)).
Proof.
  intros Hn v m H. apply bind_Some in H as (x & Hx & [= <- <-]). apply get_bytes_bound in Hx. lia.
Qed.

Lemma in_bounds_blob data n mk size :
  (0 < n)%nat -> in_bounds data (scalar_or_blob n mk size data).
Proof.
  intros Hn. unfold scalar_or_blob. destruct (_ && _) eqn:E; [|by apply in_bounds_le].
  intros v m [= <- <-]. unfold zlen in E. lia.
Qed.

Lemma in_bounds_text data (r : option (str * nat)) :
  (forall s n, r = Some (s, n) -> (0 < n <= length data)%nat) ->
  in_bounds data ('(s, consumed) ← r; Some (Val_String s, consumed)).
Proof. intros H v n Hv. apply bind_Some in Hv as ([s m] & Hr & [= <- <-]). eauto. Qed.

Lemma sized_bound data byte_len s n :
  0 <= byte_len ->
  (if (byte_len =? 0) || (zlen data <? byte_len) then None
   else text ← from_utf8 (until_nul (take (Z.to_nat byte_len) data)); Some (text, Z.to_nat byte_len)) =
    Some (s, n) -> (0 < n <= length data)%nat.
Proof.
  intros Hb. case_match eqn:E; [done|]. intros H. apply bind_Some in H as (t & _ & [= <- <-]).
  unfold zlen in E. lia.
Qed.

#[export] Hint Resolve in_bounds_none : rust.
#[export] Hint Extern 1 (in_bounds _ (_ ← get_le _ _; _)) => (apply in_bounds_le; lia) : rust.
#[export] Hint Extern 1 (in_bounds _ (_ ← get_bytes _ _ _; _)) => (apply in_bounds_bytes; lia) : rust.
#[export] Hint Extern 1 (in_bounds _ (scalar_or_blob _ _ _ _)) => (apply in_bounds_blob; lia) : rust.

Lemma out_type_in_bounds prop data :
  0 <= pm_length prop -> in_bounds data (parse_out_type_override prop data).
Proof.
  intros Hl. unfold parse_out_type_override.
  repeat match goal with |- in_bounds _ (if ?b then _ else _) => destruct b end; auto with rust.
  - unfold parse_socket_address. repeat case_match; auto with rust.
  - apply in_bounds_text. intros s n. by apply sized_bound.
Qed.

Lemma in_type_in_bounds prop data :
  0 <= pm_length prop -> data <> [] -> in_bounds data (parse_in_type prop data).
Proof.
  intros Hl Hd. assert (0 < length data)%nat as Hd' by (destruct data; [done|cbn; lia]).
  unfold parse_in_type.
  repeat match goal with |- in_bounds _ (if ?b then _ else _) => destruct b end; auto with rust.
  - intros v n H. apply bind_Some in H as (g & Hg & [= <- <-]). unfold parse_guid in Hg.
    repeat (apply bind_Some in Hg as (? & ?%get_bytes_bound & Hg)). lia.
  - apply in_bounds_text. intros s n Hs. unfold parse_sid in Hs.
    apply bind_Some in Hs as (h & Hh%get_bytes_bound & Hs).
    destruct h as [|rev [|count auth]]; try done. apply bind_Some in Hs as (subs & Hs & [= <- <-]).
    apply get_bytes_bound in Hs. lia.
  - apply in_bounds_text. intros s n Hs. destruct (_ && _) eqn:E.
    + unfold parse_utf16_sized in Hs. case_match; [done|]. injection Hs as <- <-. unfold zlen in *. lia.
    + unfold parse_utf16_cstr in Hs. destruct (length data <? 2)%nat eqn:E2; [done|].
      apply Nat.ltb_ge in E2. pose proof (utf16_units_bound data). pose proof (utf16_units_progress data E2).
      destruct (utf16_units data). cbn in *. injection Hs as <- <-. lia.
  - apply in_bounds_text. intros s n Hs. destruct (_ && _) eqn:E.
    + revert Hs. by apply sized_bound.
    + unfold parse_ascii_cstr in Hs. apply bind_Some in Hs as (t & _ & [= <- <-]).
      case_match eqn:E3; [apply Nat.ltb_lt in E3; lia|apply Nat.ltb_ge in E3].
      destruct (position (Z.eqb 0) data) as [k|] eqn:Ep; cbn in *; [apply position_lt in Ep; lia|lia].
  - intros v n [= <- <-]. case_match; lia.
Qed.

Lemma one_value_in_bounds prop data :
  0 <= pm_length prop -> data <> [] -> in_bounds data (parse_one_value prop data).
Proof.
  intros Hl Hd. unfold parse_one_value. destruct (parse_out_type_override prop data) as [r|] eqn:E.
  - rewrite <- E. by apply out_type_in_bounds.
  - by apply in_type_in_bounds.
Qed.

Lemma counted_value_in_bounds prop count data :
  1 <= count -> in_bounds data (parse_counted_value prop count data).
Proof.
  intros Hc.
  assert (in_bounds data (counted_by_element prop count data)) as He.
  { unfold counted_by_element. intros v n H. apply bind_Some in H as (e & He & H).
    assert (0 < e)%nat by (unfold element_size_hint in He; repeat case_match; simplify_eq; lia).
    case_match eqn:E; [done|]. injection H as <- <-. unfold zlen in E. nia. }
  unfold parse_counted_value. replace (count =? 0) with false by lia.
  destruct (0 <? pm_length prop); [|done]. destruct (_ && _) eqn:E; [|done].
  intros v n [= <- <-]. unfold zlen in E. lia.
Qed.

(** A schema as TDH describes it: lengths and counts are [u16]. *)
Definition prop_ok (p : PropertyMeta) : Prop := 0 <= pm_length p <= u16_max /\ 0 <= pm_count p <= u16_max.

Lemma try_from_range max v n : try_from max v = Some n -> 0 <= n <= max /\ n = v.
Proof. unfold try_from. case_match eqn:E; [|done]. intros [= <-]. lia. Qed.

Lemma resolve_count_pos prop nums : 1 <= resolve_count prop nums.
Proof. unfold resolve_count. case_match; lia. Qed.

Lemma resolve_length_nonneg prop nums : prop_ok prop -> 0 <= resolve_length prop nums.
Proof.
  intros [Hl _]. unfold resolve_length. destruct (pm_length_property_index prop); [|lia].
  destruct (numeric_at nums n) as [v|] eqn:E; cbn; [|lia]. unfold numeric_at in E.
  apply bind_Some in E as (o & _ & E). apply bind_Some in E as (w & _ & E).
  apply try_from_range in E. lia.
Qed.

Lemma property_in_bounds prop nums data :
  prop_ok prop -> data <> [] -> in_bounds data (parse_property prop nums data).
Proof.
  intros Hp Hd. unfold parse_property. pose proof (resolve_count_pos prop nums).
  case_match; [by apply counted_value_in_bounds|].
  apply one_value_in_bounds; [|done]. by apply resolve_length_nonneg.
Qed.

(** ** What a value depends on *)

(** Two payloads of one length that agree on their first [n] bytes. *)
Definition same (n : nat) (d d' : list Z) : Prop := take n d' = take n d /\ length d' = length d.

(** A reader whose result depends on the bytes it consumes and on how many
    follow, not on what follows. *)
Definition local_reader {A} (f : list Z -> option (A * nat)) : Prop :=
  forall d d' v n, f d = Some (v, n) -> same n d d' -> f d' = Some (v, n).

Lemma same_bytes n d d' from k : same n d d' -> (from + k <= n)%nat -> get_bytes from k d' = get_bytes from k d.
Proof.
  intros [Ht Hl] Hk. unfold get_bytes. rewrite Hl. case_match; [|done]. f_equal.
  apply (f_equal (fun l => take k (drop from l))) in Ht.
  rewrite !take_drop_commute, !take_take, !Nat.min_l in Ht by lia.
  by rewrite !take_drop_commute.
Qed.

Lemma same_le n d d' k : same n d d' -> (k <= n)%nat -> get_le k d' = get_le k d.
Proof.
  intros [Ht Hl] Hk. unfold get_le. rewrite Hl. case_match; [|done]. do 2 f_equal.
  apply (f_equal (take k)) in Ht. by rewrite !take_take, !Nat.min_l in Ht by lia.
Qed.

Lemma same_zlen n d d' : same n d d' -> zlen d' = zlen d.
Proof. intros [_ Hl]. unfold zlen. by rewrite Hl. Qed.

Lemma local_le n (mk : Z -> EventFieldValue) : local_reader (fun d => v ← get_le n d; Some (mk v, n)).
Proof.
  intros d d' v m H Hs. apply bind_Some in H as (x & Hx & [= <- <-]). cbn beta.
  by rewrite (same_le _ _ _ _ Hs), Hx.
Qed.

Lemma local_bytes from n k (mk : list Z -> EventFieldValue) :
  (from + n <= k)%nat -> local_reader (fun d => v ← get_bytes from n d; Some (mk v, k)).
Proof.
  intros Hk d d' v m H Hs. apply bind_Some in H as (x & Hx & [= <- <-]). cbn beta.
  by rewrite (same_bytes _ _ _ _ _ Hs), Hx.
Qed.

Lemma local_if (b : Z -> bool) {A} (f g : list Z -> option (A * nat)) :
  local_reader f -> local_reader g -> local_reader (fun d => if b (zlen d) then f d else g d).
Proof.
  intros Hf Hg d d' v n H Hs. cbn beta. rewrite (same_zlen _ _ _ Hs). destruct (b (zlen d)); eauto.
Qed.

Lemma local_none {A} : local_reader (fun _ => @None (A * nat)).
Proof. done. Qed.

(** A text reader, its result as a field value. *)
Lemma local_text (f : list Z -> option (str * nat)) :
  local_reader f -> local_reader (fun d => '(s, consumed) ← f d; Some (Val_String s, consumed)).
Proof.
  intros Hf d d' v n H Hs. apply bind_Some in H as ([s m] & Hr & [= <- <-]). cbn beta.
  by rewrite (Hf _ _ _ _ Hr Hs).
Qed.

(** A declared number of bytes, taken whole. *)
Lemma local_take (n : Z) (mk : list Z -> EventFieldValue) :
  local_reader (fun d => Some (mk (take (Z.to_nat n) d), Z.to_nat n)).
Proof. intros d d' v m [= <- <-] [Ht _]. by rewrite Ht. Qed.

Lemma local_blob n mk size : local_reader (scalar_or_blob n mk size).
Proof.
  apply (local_if (fun l => (Z.of_nat n <? size) && (size <=? l)));
    [apply (local_take size Val_Binary)|apply local_le].
Qed.

Lemma local_sized byte_len :
  local_reader (fun d => if (byte_len =? 0) || (zlen d <? byte_len) then None
    else text ← from_utf8 (until_nul (take (Z.to_nat byte_len) d)); Some (text, Z.to_nat byte_len)).
Proof.
  apply (local_if (fun l => (byte_len =? 0) || (l <? byte_len))); [apply local_none|].
  intros d d' s n H [Ht _]. apply bind_Some in H as (t & Ht' & [= <- <-]). cbn beta. by rewrite Ht, Ht'.
Qed.

Lemma local_utf16_sized byte_len : local_reader (fun d => parse_utf16_sized d byte_len).
Proof.
  apply (local_if (fun l => (byte_len =? 0) || (l <? byte_len) || negb (byte_len mod 2 =? 0)));
    [apply local_none|].
  intros d d' s n [= <- <-] [Ht _]. by rewrite Ht.
Qed.

(** The code units up to the terminator, whatever follows it. *)
Lemma utf16_units_same d d' : same (snd (utf16_units d)) d d' -> utf16_units d' = utf16_units d.
Proof.
  assert (forall n d d', length d <= n -> same (snd (utf16_units d)) d d' -> utf16_units d' = utf16_units d)%nat
    as H; [|by eapply H].
  clear. induction n as [|n IH]; intros d d' Hn [Ht Hl].
  { destruct d; [|cbn in Hn; lia]. by destruct d'. }
  destruct d as [|b0 [|b1 rest]]; [by destruct d'|by destruct d' as [|? [|]]|].
  destruct d' as [|b0' [|b1' rest']]; try done. cbn [utf16_units length] in *.
  destruct (le_decode [b0; b1] =? 0) eqn:E.
  { cbn in Ht. injection Ht as -> ->. by rewrite E. }
  specialize (IH rest rest' ltac:(lia)). destruct (utf16_units rest) as [us m] eqn:Eu.
  cbn in Ht. injection Ht as -> -> Ht. rewrite E, IH; [done|]. split; [exact Ht|lia].
Qed.

Lemma local_utf16_cstr : local_reader parse_utf16_cstr.
Proof.
  intros d d' s n H Hs. unfold parse_utf16_cstr in *. rewrite (proj2 Hs). case_match; [done|].
  pose proof (utf16_units_same d d') as Hu. destruct (utf16_units d) as [us m]. injection H as <- <-.
  by rewrite (Hu Hs).
Qed.

Lemma position_same {A} (f : A -> bool) l l' k :
  position f l = Some k -> take (S k) l' = take (S k) l -> position f l' = Some k.
Proof.
  revert l' k. induction l as [|x l IH]; intros l' k H Ht; [done|]. destruct l' as [|y l']; [done|].
  cbn [take] in Ht. injection Ht as -> Ht. cbn [position] in *. destruct (f x); [done|].
  apply fmap_Some in H as (j & Hj & ->). by rewrite (IH l' j Hj Ht).
Qed.

Lemma local_ascii_cstr : local_reader parse_ascii_cstr.
Proof.
  intros d d' s n H [Ht Hl]. unfold parse_ascii_cstr in *. rewrite Hl.
  apply bind_Some in H as (t & Hf & [= <- <-]). destruct (position (Z.eqb 0) d) as [k|] eqn:E.
  - cbn [default from_option id] in *. pose proof (position_lt _ _ _ E) as Hk.
    replace (k <? length d)%nat with true in * by (symmetry; by apply Nat.ltb_lt).
    rewrite (position_same _ _ _ _ E Ht). cbn [default from_option id].
    apply (f_equal (take k)) in Ht. rewrite !take_take, !Nat.min_l in Ht by lia. rewrite Ht, Hf. cbn [mbind option_bind].
    by replace (k <? length d)%nat with true by (symmetry; by apply Nat.ltb_lt).
  - cbn [default from_option id] in *. rewrite Nat.ltb_irrefl in *.
    rewrite <- Hl in Ht at 1. rewrite !take_ge in Ht by lia. subst d'. rewrite E.
    cbn [default from_option id]. rewrite Hf. cbn [mbind option_bind]. by rewrite Nat.ltb_irrefl.
Qed.

Lemma local_guid : local_reader (fun d => g ← parse_guid d; Some (Val_Guid g, 16%nat)).
Proof.
  intros d d' v n H Hs. apply bind_Some in H as (g & Hg & [= <- <-]). cbn beta. unfold parse_guid in *.
  rewrite !(same_bytes _ _ _ _ _ Hs) by lia. by rewrite Hg.
Qed.

Lemma local_sid : local_reader parse_sid.
Proof.
  intros d d' s n H Hs. unfold parse_sid in *. apply bind_Some in H as (h & Hh & H).
  destruct h as [|rev [|count auth]]; try done. apply bind_Some in H as (subs & Hsub & [= <- <-]).
  rewrite (same_bytes _ _ _ _ _ Hs), Hh by lia. cbn [mbind option_bind].
  by rewrite (same_bytes _ _ _ _ _ Hs), Hsub by lia.
Qed.

(** Compare the two runs of a reader branch by branch. *)
Ltac local_branches :=
  repeat match goal with
         | H : (if ?b then _ else _) = Some _ |- (if ?b then _ else _) = Some _ => destruct b eqn:?
         end; try done.

Lemma local_socket_address : local_reader parse_socket_address.
Proof.
  intros d d' v n H Hs. unfold parse_socket_address in *. rewrite (proj2 Hs). case_match; [done|].
  assert (2 <= n)%nat as Hn.
  { cbv zeta in H. destruct (_ =? 2); [|destruct (_ =? 23); [|done]];
      apply bind_Some in H as (x & _ & [= _ <-]); lia. }
  replace (take 2 d') with (take 2 d).
  - cbv zeta in *. local_branches; by refine (local_bytes _ _ _ _ _ _ _ _ _ H Hs); lia.
  - destruct Hs as [Ht _]. apply (f_equal (take 2)) in Ht. by rewrite !take_take, !Nat.min_l in Ht by lia.
Qed.

Lemma override_local prop : local_reader (parse_out_type_override prop).
Proof.
  intros d d' v n H Hs. unfold parse_out_type_override in *. cbv zeta in *. rewrite (same_zlen _ _ _ Hs).
  local_branches;
    first [by apply (local_le _ _ _ _ _ _ H)|by refine (local_bytes _ _ _ _ _ _ _ _ _ H Hs); lia|idtac].
  - by apply (local_socket_address _ _ _ _ H).
  - by apply (local_text _ (local_sized _) _ _ _ _ H).
Qed.

Lemma in_type_local prop : local_reader (parse_in_type prop).
Proof.
  intros d d' v n H Hs. unfold parse_in_type in *. cbv zeta in *. rewrite (same_zlen _ _ _ Hs).
  local_branches;
    first [by apply (local_le _ _ _ _ _ _ H)|by apply (local_blob _ _ _ _ _ _ _ H)|idtac].
  - by apply (local_guid _ _ _ _ H).
  - by apply (local_text _ local_sid _ _ _ _ H).
  - destruct (_ && _); [by apply (local_text _ (local_utf16_sized _) _ _ _ _ H)|].
    by apply (local_text _ local_utf16_cstr _ _ _ _ H).
  - destruct (_ && _); [by apply (local_text _ (local_sized _) _ _ _ _ H)|].
    by apply (local_text _ local_ascii_cstr _ _ _ _ H).
  - rewrite (proj2 Hs). injection H as <- <-. by rewrite (proj1 Hs).
Qed.

Lemma counted_local prop count : local_reader (parse_counted_value prop count).
Proof.
  assert (local_reader (counted_by_element prop count)) as He.
  { unfold counted_by_element. destruct (element_size_hint prop) as [e|]; [|apply local_none].
    apply (local_if (fun l => l <? Z.of_nat e * count)); [apply local_none|].
    apply (local_take (Z.of_nat e * count) Val_Binary). }
  intros d d' v n H Hs. unfold parse_counted_value in *. cbv zeta in *. rewrite (same_zlen _ _ _ Hs).
  local_branches; try by apply (He _ _ _ _ H). by apply (local_take _ _ _ _ _ _ H).
Qed.

(** The reader that decides a property's value, chosen on the bytes [data]:
    the array reader where more than one element is asked for, otherwise the
    reader of the out-type, or that of the in-type where the out-type reader
    declines [data]. *)
Definition reader (prop : PropertyMeta) (nums : list (option Z)) (data : list Z)
    : list Z -> option (EventFieldValue * nat) :=
  let runtime := with_length prop (resolve_length prop nums) in
  if 1 <? resolve_count prop nums then parse_counted_value runtime (resolve_count prop nums)
  else match parse_out_type_override runtime data with
       | Some _ => parse_out_type_override runtime
       | None => parse_in_type runtime
       end.

Lemma parse_property_reader prop nums data : parse_property prop nums data = reader prop nums data data.
Proof.
  unfold parse_property, parse_one_value, reader. case_match; [done|].
  by destruct (parse_out_type_override _ data) eqn:E.
Qed.

Lemma reader_local prop nums data : local_reader (reader prop nums data).
Proof.
  unfold reader. case_match; [apply counted_local|]. case_match; [apply override_local|apply in_type_local].
Qed.

(** [reads ps nums data fields pieces rest]: from [data], with the values
    [nums] read so far, the properties [ps] yield [fields], each from the piece
    at the front of what is left.  A piece decides its value: the reader
    returns the value and the length of the piece whatever bytes stand after
    it. *)
Inductive reads : list PropertyMeta -> list (option Z) -> list Z -> list EventField -> list (list Z) ->
    list Z -> Prop :=
  | reads_end nums data : reads [] nums data [] [] data
  | reads_exhausted ps nums : reads ps nums [] [] [] []
  | reads_refused p ps nums data :
      data <> [] -> reader p nums data data = None -> reads (p :: ps) nums data [] [] data
  | reads_field p ps nums piece tail v fields pieces rest :
      piece <> [] ->
      (forall tail', length tail' = length tail ->
         reader p nums (piece ++ tail) (piece ++ tail') = Some (v, length piece)) ->
      reads ps (nums ++ [extract_numeric_value v]) tail fields pieces rest ->
      reads (p :: ps) nums (piece ++ tail) (mkEventField (pm_name p) v :: fields) (piece :: pieces) rest.

Lemma reads_pieces ps nums data fields pieces rest :
  reads ps nums data fields pieces rest -> data = mjoin pieces ++ rest.
Proof.
  induction 1 as [| | |p ps nums piece tail v fields pieces rest _ _ _ IH]; try done.
  change (mjoin (piece :: pieces)) with (piece ++ mjoin pieces). by rewrite <- app_assoc, <- IH.
Qed.

(** A value read from the front of [data] is read from its own piece. *)
Lemma property_piece prop nums data v n :
  prop_ok prop -> data <> [] -> parse_property prop nums data = Some (v, n) ->
  take n data <> [] /\
  forall tail', length tail' = length (drop n data) ->
    reader prop nums (take n data ++ drop n data) (take n data ++ tail') = Some (v, length (take n data)).
Proof.
  intros Hp Hd H. pose proof (property_in_bounds prop nums data Hp Hd v n H) as Hn. split.
  { intros E. apply (f_equal length) in E. rewrite length_take in E. cbn in E. lia. }
  intros tail' Ht. rewrite take_drop, length_take, Nat.min_l by lia.
  rewrite parse_property_reader in H. apply (reader_local _ _ _ _ _ _ _ H). split.
  - by rewrite take_app_length' by (rewrite length_take; lia).
  - rewrite length_app, Ht, length_take, length_drop. lia.
Qed.

(** [C11] The payload parser never reads outside the payload or twice.  The
    payload is cut from its start into non-empty pieces that follow one
    another, one for each field, and each field is decided by its own piece:
    the reader of its property (for counted arrays, the out-type or the
    in-type) returns that value, and consumes exactly that piece, whatever
    bytes stand after the piece, as long as their number is the same.  Only
    the choice between the out-type and the in-type reader may look further,
    at a declared text length that is then not taken.  The fields carry the
    names of the first properties in order, and parsing stops at the first
    property whose reader refuses or at the end of the payload. *)
Theorem parse_values_in_bounds (schema : CachedSchema) (data : list Z)
    (Hok : Forall prop_ok (props schema)) :
  exists pieces rest,
    reads (props schema) [] data (parse_values schema data) pieces rest /\ data = mjoin pieces ++ rest.
Proof.
  assert (forall data nums, exists pieces rest,
    reads (props schema) nums data (parse_props (props schema) nums data) pieces rest) as H.
  { clear data. induction Hok as [|p ps Hp _ IH]; intros data nums; cbn [parse_props].
    { exists [], data. constructor. }
    destruct data as [|b data']; [exists [], []; constructor|]. set (data := b :: data') in *.
    destruct (parse_property p nums data) as [[v n]|] eqn:E.
    - destruct (property_piece p nums data v n Hp ltac:(done) E) as [Hne Hr].
      destruct (IH (drop n data) (nums ++ [extract_numeric_value v])) as (pieces & rest & IH').
      exists (take n data :: pieces), rest. rewrite <- (take_drop n data) at 1. by constructor.
    - exists [], data. constructor; [done|]. by rewrite <- parse_property_reader. }
  destruct (H data []) as (pieces & rest & Hr). exists pieces, rest. split; [exact Hr|].
  by apply reads_pieces in Hr.
Qed.

Lemma parse_values_in_bounds_witness :
  exists pieces rest, [4; 84; 101; 115; 116; 7] = mjoin pieces ++ rest /\
    reads [mkPropertyMeta (lit "Len") TDH_INTYPE_UINT8 0 1 1 None None None;
           mkPropertyMeta (lit "Name") TDH_INTYPE_ANSISTRING TDH_OUTTYPE_UTF8 0 1 None (Some 0%nat) None;
           mkPropertyMeta (lit "Tail") TDH_INTYPE_UINT8 0 1 1 None None None]
      [] [4; 84; 101; 115; 116; 7]
      [mkEventField (lit "Len") (Val_U8 4); mkEventField (lit "Name") (Val_String (lit "Test"));
       mkEventField (lit "Tail") (Val_U8 7)] pieces rest.
Proof.
  set (schema := mkCachedSchema
    [mkPropertyMeta (lit "Len") TDH_INTYPE_UINT8 0 1 1 None None None;
     mkPropertyMeta (lit "Name") TDH_INTYPE_ANSISTRING TDH_OUTTYPE_UTF8 0 1 None (Some 0%nat) None;
     mkPropertyMeta (lit "Tail") TDH_INTYPE_UINT8 0 1 1 None None None]).
  destruct (parse_values_in_bounds schema [4; 84; 101; 115; 116; 7]) as (pieces & rest & H1 & H2).
  - repeat (apply Forall_cons; split; [split; cbn; lia|]). constructor.
  - exists pieces, rest. split; [exact H2|]. exact H1.
Defined.

(** ** Round trip of a payload *)

Inductive scalar :=
  | SU8 (v : Z) | SU16 (v : Z) | SU32 (v : Z) | SU64 (v : Z)
  | SI8 (v : Z) | SI16 (v : Z) | SI32 (v : Z) | SI64 (v : Z)
  | SBool (b : bool) | SGuid (g : GUID) | SPointer (v : Z) | SFiletime (v : Z)
  | SSid (p : sid_parts) | SUnicode (cs : list Z) | SAnsi (s : str).

Definition guid_ok (g : GUID) : Prop :=
  0 <= guid_data1 g < 2 ^ 32 /\ 0 <= guid_data2 g < 2 ^ 16 /\ 0 <= guid_data3 g < 2 ^ 16 /\
  length (guid_data4 g) = 8%nat.

Definition scalar_ok (x : scalar) : Prop :=
  match x with
  | SU8 v => 0 <= v < 2 ^ 8
  | SU16 v => 0 <= v < 2 ^ 16
  | SU32 v => 0 <= v < 2 ^ 32
  | SU64 v | SPointer v | SFiletime v => 0 <= v < 2 ^ 64
  | SI8 v => - 2 ^ 7 <= v < 2 ^ 7
  | SI16 v => - 2 ^ 15 <= v < 2 ^ 15
  | SI32 v => - 2 ^ 31 <= v < 2 ^ 31
  | SI64 v => - 2 ^ 63 <= v < 2 ^ 63
  | SBool _ => True
  | SGuid g => guid_ok g
  | SSid p => sid_parts_ok48 p
  | SUnicode cs => text_ok cs
  | SAnsi s => c_string_ok s
  end.

Definition encode_scalar (x : scalar) : list Z :=
  match x with
  | SU8 v => le_encode 1 v
  | SU16 v => le_encode 2 v
  | SU32 v => le_encode 4 v
  | SU64 v | SPointer v | SFiletime v => le_encode 8 v
  | SI8 v => le_encode 1 (v mod 2 ^ 8)
  | SI16 v => le_encode 2 (v mod 2 ^ 16)
  | SI32 v => le_encode 4 (v mod 2 ^ 32)
  | SI64 v => le_encode 8 (v mod 2 ^ 64)
  | SBool b => le_encode 4 (if b then 1 else 0)
  | SGuid g => le_encode 4 (guid_data1 g) ++ le_encode 2 (guid_data2 g) ++ le_encode 2 (guid_data3 g) ++
               guid_data4 g
  | SSid p => sid_bytes p
  | SUnicode cs => utf16z cs
  | SAnsi s => s ++ [0]
  end.

(** The parser has no case for the in-types INT8 and INT16: such a value comes
    back as the bytes of its declared length. *)
Definition scalar_value (x : scalar) : EventFieldValue :=
  match x with
  | SI8 v => Val_Binary (le_encode 1 (v mod 2 ^ 8))
  | SI16 v => Val_Binary (le_encode 2 (v mod 2 ^ 16))
  | SU8 v => Val_U8 v | SU16 v => Val_U16 v | SU32 v => Val_U32 v
  | SU64 v | SFiletime v => Val_U64 v
  | SI32 v => Val_I32 v | SI64 v => Val_I64 v
  | SBool b => Val_Bool b | SGuid g => Val_Guid g | SPointer v => Val_Pointer v
  | SSid p => Val_String (sid_text p)
  | SUnicode cs => Val_String (utf8_encode cs)
  | SAnsi s => Val_String s
  end.

(** In-type and declared length of the property. *)
Definition scalar_type (x : scalar) : Z * Z :=
  match x with
  | SU8 _ => (TDH_INTYPE_UINT8, 1) | SU16 _ => (TDH_INTYPE_UINT16, 2)
  | SU32 _ => (TDH_INTYPE_UINT32, 4) | SU64 _ => (TDH_INTYPE_UINT64, 8)
  | SI8 _ => (TDH_INTYPE_INT8, 1) | SI16 _ => (TDH_INTYPE_INT16, 2)
  | SI32 _ => (TDH_INTYPE_INT32, 4) | SI64 _ => (TDH_INTYPE_INT64, 8)
  | SBool _ => (TDH_INTYPE_BOOLEAN, 4) | SGuid _ => (TDH_INTYPE_GUID, 16)
  | SPointer _ => (TDH_INTYPE_POINTER, 8) | SFiletime _ => (TDH_INTYPE_FILETIME, 8)
  | SSid _ => (TDH_INTYPE_SID, 0) | SUnicode _ => (TDH_INTYPE_UNICODESTRING, 0)
  | SAnsi _ => (TDH_INTYPE_ANSISTRING, 0)
  end.

Definition scalar_prop (f : str * scalar) : PropertyMeta :=
  mkPropertyMeta (fst f) (fst (scalar_type (snd f))) 0 (snd (scalar_type (snd f))) 1 None None None.

Lemma get_le_app n v rest :
  0 <= v < 256 ^ Z.of_nat n -> get_le n (le_encode n v ++ rest) = Some v.
Proof.
  intros Hv. unfold get_le. rewrite length_app, length_le_encode.
  replace (_ <=? _)%nat with true by (symmetry; apply Nat.leb_le; lia).
  rewrite take_app_length' by (by rewrite length_le_encode). by rewrite le_decode_encode.
Qed.

Lemma scalar_or_blob_app n mk v rest :
  0 <= v < 256 ^ Z.of_nat n ->
  scalar_or_blob n mk (Z.of_nat n) (le_encode n v ++ rest) = Some (mk v, n).
Proof.
  intros Hv. unfold scalar_or_blob. replace (Z.of_nat n <? Z.of_nat n) with false by lia.
  cbn [andb]. by rewrite get_le_app.
Qed.

(** A value of a type the parser does not know is the declared bytes. *)
Lemma blob_app n l rest : length l = n -> (0 < n)%nat ->
  (let k := if 0 <? Z.of_nat n then Nat.min (Z.to_nat (Z.of_nat n)) (length (l ++ rest)) else length (l ++ rest) in
   Some (Val_Binary (take k (l ++ rest)), k)) = Some (Val_Binary l, n).
Proof.
  intros Hl Hn. replace (0 <? Z.of_nat n) with true by lia. rewrite Nat2Z.id, length_app, Nat.min_l by lia.
  cbv zeta. by rewrite take_app_length'.
Qed.

Lemma get_bytes_app from n pre l rest :
  length pre = from -> length l = n -> get_bytes from n (pre ++ l ++ rest) = Some l.
Proof.
  intros <- <-. unfold get_bytes. rewrite !length_app.
  replace (_ <=? _)%nat with true by (symmetry; apply Nat.leb_le; lia).
  by rewrite drop_app_length, take_app_length.
Qed.

Lemma get_bytes_head n l rest : length l = n -> get_bytes 0 n (l ++ rest) = Some l.
Proof. intros. by apply (get_bytes_app 0 n []). Qed.

Lemma to_signed_mod w v : 0 < w -> - 2 ^ (w - 1) <= v < 2 ^ (w - 1) -> to_signed w (v mod 2 ^ w) = v.
Proof.
  intros Hw Hv. unfold to_signed. assert (2 ^ w = 2 * 2 ^ (w - 1)) as E.
  { rewrite <- Z.pow_succ_r by lia. f_equal. lia. }
  destruct (Z.lt_ge_cases v 0).
  - replace (v mod 2 ^ w) with (v + 2 ^ w).
    + replace (_ <? _) with false by lia. lia.
    + rewrite <- (Z.mod_add v 1) by lia. rewrite Z.mod_small; lia.
  - rewrite Z.mod_small by lia. by replace (_ <? _) with true by lia.
Qed.

Lemma parse_guid_app g rest : guid_ok g -> parse_guid (encode_scalar (SGuid g) ++ rest) = Some g.
Proof.
  intros (H1 & H2 & H3 & H4). unfold parse_guid. cbn [encode_scalar]. rewrite <- !app_assoc.
  rewrite (get_bytes_head 4) by apply length_le_encode. cbn [mbind option_bind].
  rewrite (get_bytes_app 4 2) by apply length_le_encode. cbn [mbind option_bind].
  rewrite (app_assoc (le_encode 4 _)).
  rewrite (get_bytes_app 6 2) by (rewrite ?length_app, ?length_le_encode; done). cbn [mbind option_bind].
  rewrite (app_assoc (_ ++ _)).
  rewrite (get_bytes_app 8 8) by (rewrite ?length_app, ?length_le_encode; done). cbn [mbind option_bind].
  rewrite !le_decode_encode by (cbn in *; lia). by destruct g.
Qed.

(** ** The SID readers agree *)

Lemma write_chunks_spec count sid start id :
  (start + 4 * count <= length sid)%nat ->
  write_sub_authorities count sid start id =
    Some (write_chunks (take (4 * count) (drop start sid)) id, start + 4 * count)%nat.
Proof.
  revert start id. induction count as [|count IH]; intros start id H; cbn [write_sub_authorities].
  - rewrite Nat.mul_0_r, take_0. do 2 f_equal. lia.
  - replace (length sid <? start + 4)%nat with false by (symmetry; apply Nat.ltb_ge; lia).
    rewrite IH by lia.
    replace (4 * S count)%nat with (4 + 4 * count)%nat by lia.
    replace (drop (start + 4) sid) with (drop 4 (drop start sid)) by (by rewrite drop_drop).
    assert (4 <= length (drop start sid))%nat as Hl by (rewrite length_drop; lia).
    destruct (drop start sid) as [|a [|b [|c [|d l]]]]; cbn in Hl; try lia.
    cbn [take drop Nat.add]. cbn [write_chunks]. do 2 f_equal. lia.
Qed.

Lemma write_sub_authorities_short count sid start id :
  (start <= length sid)%nat -> (length sid < start + 4 * count)%nat ->
  write_sub_authorities count sid start id = None.
Proof.
  revert start id. induction count as [|count IH]; intros start id Hs H; cbn [write_sub_authorities]; [lia|].
  destruct (length sid <? start + 4)%nat eqn:E; [done|]. apply Nat.ltb_ge in E. apply IH; lia.
Qed.

Lemma authority_fold s2 s3 s4 s5 s6 s7 :
  bytes_ok [s2; s3; s4; s5; s6; s7] ->
  fold_left (fun acc b => Z.lor (Z.shiftl acc 8) b) [s2; s3; s4; s5; s6; s7] 0 =
  be_decode [s2; s3; s4; s5; s6; s7].
Proof.
  intros H. repeat (apply Forall_cons in H as [? H]). unfold is_byte in *.
  cbn [fold_left]. rewrite !lor_shift_add by (cbn; lia). unfold be_decode. cbn. lia.
Qed.

Lemma parse_sid_agrees data : bytes_ok data -> parse_sid data = sid_to_string_with_size data.
Proof.
  intros Hb. unfold parse_sid.
  destruct data as [|s0 [|s1 [|s2 [|s3 [|s4 [|s5 [|s6 [|s7 rest]]]]]]]]; try done.
  assert (bytes_ok [s2; s3; s4; s5; s6; s7]) as Hb6.
  { repeat (apply Forall_cons in Hb as [? Hb]). solve_bytes. }
  set (sid := s0 :: _). change (get_bytes 0 8 sid) with (Some [s0; s1; s2; s3; s4; s5; s6; s7]).
  cbn [mbind option_bind]. rewrite authority_fold by done.
  unfold sid_to_string_with_size, sid. fold sid. rewrite authority_lor by done.
  replace (8 + 4 * Z.to_nat s1 - 8)%nat with (4 * Z.to_nat s1)%nat by lia.
  set (id := lit "S-" ++ _). unfold get_bytes.
  destruct (8 + 4 * Z.to_nat s1 <=? length sid)%nat eqn:E.
  - apply Nat.leb_le in E. by rewrite write_chunks_spec.
  - apply Nat.leb_gt in E. rewrite write_sub_authorities_short; [done|cbn; lia|done].
Qed.

(** Three readers of a binary SID, one result.  On any bytes the
    schema parser's [parse_sid] and the decoder behind [Sid::from_bytes]
    return the same text and length, or both reject; whenever they accept,
    the lenient reader of the process decoder returns the same. *)
Theorem sid_readers_agree (data : list Z) (Hb : bytes_ok data) :
  parse_sid data = sid_to_string_with_size data /\
  (forall r, parse_sid data = Some r -> etw_sid_to_string_with_size data = Ok r).
Proof.
  assert (forall count sid start id r, write_sub_authorities count sid start id = Some r ->
    write_available count sid start id = r) as Hw.
  { clear. induction count as [|count IH]; intros sid start id r; cbn; [by intros [= ->]|].
    case_match; [done|]. apply IH. }
  rewrite parse_sid_agrees by done. split; [done|]. intros r Hr.
  destruct data as [|s0 [|s1 [|s2 [|s3 [|s4 [|s5 [|s6 [|s7 rest]]]]]]]]; try done.
  unfold sid_to_string_with_size in Hr. unfold etw_sid_to_string_with_size. f_equal. by apply Hw.
Qed.

Lemma sid_readers_agree_witness :
  parse_sid [1; 1; 0; 0; 0; 0; 0; 16; 0; 48; 0; 0; 170] = Some (lit "S-1-16-12288", 12%nat).
Proof.
  refine (eq_trans (proj1 (sid_readers_agree _ _)) _); [solve_bytes|by vm_compute].
Defined.

Lemma sid_with_rest p rest :
  sid_parts_ok48 p -> parse_sid (sid_bytes p ++ rest) = Some (sid_text p, length (sid_bytes p)).
Proof.
  intros Hp. pose proof (parse_sid_agrees (sid_bytes p) (sid_bytes_ok p Hp)) as H.
  rewrite sid_to_string_bytes in H by done. revert H. unfold parse_sid, get_bytes.
  rewrite length_app. destruct (0 + 8 <=? length (sid_bytes p))%nat eqn:E; [|done].
  replace (0 + 8 <=? length (sid_bytes p) + length rest)%nat with true
    by (symmetry; apply Nat.leb_le in E; apply Nat.leb_le; lia).
  apply Nat.leb_le in E. rewrite !drop_0, take_app_le by lia. cbn [mbind option_bind].
  destruct (take 8 (sid_bytes p)) as [|rev [|count auth]]; try done.
  destruct (8 + _ <=? length (sid_bytes p))%nat eqn:E2; [|done]. apply Nat.leb_le in E2.
  replace (8 + _ <=? length (sid_bytes p) + length rest)%nat with true by (symmetry; apply Nat.leb_le; lia).
  cbn [mbind option_bind]. rewrite drop_app_le, take_app_le by (rewrite ?length_drop; lia). done.
Qed.

Lemma length_utf16le us : length (utf16le us) = (2 * length us)%nat.
Proof.
  induction us as [|u us IH]; [done|]. change (utf16le (u :: us)) with (le_encode 2 u ++ utf16le us).
  rewrite length_app, length_le_encode, IH. cbn. lia.
Qed.

Lemma parse_scalar name x rest :
  scalar_ok x ->
  parse_in_type (scalar_prop (name, x)) (encode_scalar x ++ rest) =
    Some (scalar_value x, length (encode_scalar x)).
Proof.
  intros Hx. unfold parse_in_type, scalar_prop. cbn [pm_length pm_in_type fst snd].
  destruct x as [v|v|v|v|v|v|v|v|b|g|v|v|p|cs|s]; cbn [scalar_type fst snd scalar_value encode_scalar] in *;
    try rewrite length_le_encode; cbn -[scalar_or_blob get_le le_encode Z.pow app parse_guid parse_sid].
  - apply (scalar_or_blob_app 1). done.
  - apply (scalar_or_blob_app 2). done.
  - apply (scalar_or_blob_app 4). done.
  - apply (scalar_or_blob_app 8). done.
  - apply (blob_app 1); [apply length_le_encode|lia].
  - apply (blob_app 2); [apply length_le_encode|lia].
  - change 4 with (Z.of_nat 4). rewrite scalar_or_blob_app by (cbn; apply Z.mod_pos_bound; lia).
    rewrite to_signed_mod by (cbn in *; lia). done.
  - change 8 with (Z.of_nat 8). rewrite scalar_or_blob_app by (cbn; apply Z.mod_pos_bound; lia).
    rewrite to_signed_mod by (cbn in *; lia). done.
  - rewrite get_le_app by (destruct b; cbn; lia). by destruct b.
  - pose proof (parse_guid_app g rest Hx) as Hg. cbn [encode_scalar] in Hg. rewrite Hg.
    destruct Hx as (_ & _ & _ & H4). rewrite !length_app, !length_le_encode, H4. done.
  - by rewrite get_le_app.
  - by rewrite get_le_app.
  - by rewrite sid_with_rest.
  - assert (Forall is_scalar cs) as Hs by (eapply Forall_impl; [exact Hx|naive_solver]).
    unfold parse_utf16_cstr, utf16z. rewrite !length_app, length_utf16le.
    replace (_ <? 2)%nat with false by (symmetry; apply Nat.ltb_ge; cbn; lia).
    rewrite <- app_assoc. cbn [app].
    rewrite utf16_units_app by (by apply encode_utf16_range || by apply encode_utf16_nonzero).
    destruct (from_utf16_encode cs Hs) as [_ ->]. done.
  - unfold parse_ascii_cstr. destruct Hx as [Hl Hv]. rewrite <- app_assoc. cbn [app].
    rewrite position_app_hit; [|eapply Forall_impl; [exact Hl|]; intros x Hx; apply Z.eqb_neq; by apply not_eq_sym|done].
    cbn [default from_option id]. rewrite take_app_length. unfold from_utf8. rewrite Hv.
    cbn [mbind option_bind]. rewrite !length_app. cbn [length].
    replace (_ <? _)%nat with true by (symmetry; apply Nat.ltb_lt; lia). do 2 f_equal. lia.
Qed.

Lemma encode_scalar_nonempty x : scalar_ok x -> encode_scalar x <> [].
Proof.
  intros Hx H. apply (f_equal length) in H.
  destruct x as [v|v|v|v|v|v|v|v|b|g|v|v|p|cs|s]; cbn [encode_scalar] in H;
    rewrite ?length_app, ?length_le_encode in H; cbn in H; try lia.
  unfold utf16z in H. rewrite length_app in H. cbn in H. lia.
Qed.

(** Properties without count, length or map references, laid out one after
    another. *)
Definition plain_prop (name : str) (in_type len : Z) : PropertyMeta :=
  mkPropertyMeta name in_type 0 len 1 None None None.

Lemma parse_props_plain {A} (name : A -> str) (typ len : A -> Z) (enc : A -> list Z) (val : A -> EventFieldValue)
    (fs : list A) (rest : list Z) nums :
  Forall (fun x => enc x <> [] /\ forall tail,
    parse_in_type (plain_prop (name x) (typ x) (len x)) (enc x ++ tail) = Some (val x, length (enc x))) fs ->
  parse_props ((fun x => plain_prop (name x) (typ x) (len x)) <$> fs) nums (mjoin (enc <$> fs) ++ rest) =
  (fun x => mkEventField (name x) (val x)) <$> fs.
Proof.
  intros H. revert nums. induction H as [|x fs [Hne Hp] _ IH]; intros nums; [done|].
  change (mjoin (enc <$> x :: fs)) with (enc x ++ mjoin (enc <$> fs)).
  rewrite <- app_assoc. set (tail := mjoin _ ++ rest) in *. set (prop := plain_prop (name x) (typ x) (len x)) in *.
  cbn [fmap list_fmap parse_props]. fold prop. specialize (Hp tail).
  destruct (enc x ++ tail) as [|b bs] eqn:E; [by apply app_eq_nil in E as [E _]|].
  rewrite <- E in *. unfold parse_property, parse_one_value.
  change (1 <? resolve_count prop nums) with false. cbn iota.
  change (with_length prop _) with prop.
  change (parse_out_type_override prop (enc x ++ tail)) with (@None (EventFieldValue * nat)).
  cbn iota. rewrite Hp. rewrite drop_app_length. cbn [fst snd]. f_equal. apply IH.
Qed.

(** [C10] A payload is decoded to the values it was built from.  For any
    sequence of named values laid out one after another, whatever bytes
    follow, parsing with the matching schema returns exactly those names and
    values: unsigned integers of 8 to 64 bits, signed integers of 32 and 64
    bits, booleans, GUIDs, pointers, file times (each in the range of its
    width), SIDs with at most 15 sub-authorities and a 48-bit authority,
    UTF-16 strings of valid text without NUL, and byte strings that are valid
    UTF-8 without NUL.  Signed integers of 8 and 16 bits, for which the parser
    has no case, come back as their one or two bytes. *)
Theorem parse_values_round_trip (fs : list (str * scalar)) (rest : list Z)
    (Hok : Forall (fun f => scalar_ok (snd f)) fs) :
  parse_values (mkCachedSchema (scalar_prop <$> fs)) (mjoin ((fun f => encode_scalar (snd f)) <$> fs) ++ rest) =
  (fun f => mkEventField (fst f) (scalar_value (snd f))) <$> fs.
Proof.
  unfold parse_values. cbn [props].
  apply (parse_props_plain fst (fun f => fst (scalar_type (snd f))) (fun f => snd (scalar_type (snd f)))
           (fun f => encode_scalar (snd f)) (fun f => scalar_value (snd f))).
  eapply Forall_impl; [exact Hok|]. intros [name x] Hx. cbn [snd fst] in *.
  split; [by apply encode_scalar_nonempty|]. intros tail. by apply (parse_scalar name x).
Qed.

Lemma parse_values_round_trip_witness :
  parse_values (mkCachedSchema (scalar_prop <$>
      [(lit "Pid", SU32 4242); (lit "Delta", SI64 (-5)); (lit "Label", SSid (mk_sid_parts 1 16 [12288]));
       (lit "Path", SUnicode (lit "C:\x")); (lit "Tail", SU8 7); (lit "Small", SI16 (-2))]))
    ([146; 16; 0; 0; 251; 255; 255; 255; 255; 255; 255; 255;
      1; 1; 0; 0; 0; 0; 0; 16; 0; 48; 0; 0; 67; 0; 58; 0; 92; 0; 120; 0; 0; 0; 7; 254; 255] ++ [9; 9]) =
  [mkEventField (lit "Pid") (Val_U32 4242); mkEventField (lit "Delta") (Val_I64 (-5));
   mkEventField (lit "Label") (Val_String (lit "S-1-16-12288"));
   mkEventField (lit "Path") (Val_String (lit "C:\x")); mkEventField (lit "Tail") (Val_U8 7);
   mkEventField (lit "Small") (Val_Binary [254; 255])].
Proof.
  refine (eq_trans _ (eq_trans (parse_values_round_trip
    [(lit "Pid", SU32 4242); (lit "Delta", SI64 (-5)); (lit "Label", SSid (mk_sid_parts 1 16 [12288]));
     (lit "Path", SUnicode (lit "C:\x")); (lit "Tail", SU8 7); (lit "Small", SI16 (-2))] [9; 9] _) _)).
  - by vm_compute.
  - apply Forall_cons; split; [cbn; lia|]. apply Forall_cons; split; [cbn; lia|].
    apply Forall_cons; split.
    { split; [cbn; lia|]. split; [cbn; lia|]. split; [by vm_compute|].
      apply Forall_cons; split; [lia|constructor]. }
    apply Forall_cons; split; [apply text_ok_check; by vm_compute|].
    do 2 (apply Forall_cons; split; [cbn; lia|]). constructor.
  - by vm_compute.
Defined.

(** ** What the cache returns *)

(** A session: records parsed one after another with one cache. *)
Fixpoint parse_session (info : event_record -> option raw_event_info)
    (maps : event_record -> list Z -> option raw_map_info) (c : SchemaCache) (rs : list event_record)
    : list (option (list EventField)) :=
  match rs with
  | [] => []
  | r :: rs => let '(fields, c) := parse_event_fields info maps c r in fields :: parse_session info maps c rs
  end.

(** The cache after a session. *)
Definition session_cache (info : event_record -> option raw_event_info)
    (maps : event_record -> list Z -> option raw_map_info) (c : SchemaCache) (rs : list event_record) : SchemaCache :=
  fold_left (fun c r => snd (parse_event_fields info maps c r)) rs c.

Lemma parse_session_snoc info maps c rs r :
  parse_session info maps c (rs ++ [r]) =
  parse_session info maps c rs ++ [fst (parse_event_fields info maps (session_cache info maps c rs) r)].
Proof.
  revert c. induction rs as [|q rs IH]; intros c; cbn [app parse_session].
  - unfold session_cache. cbn. by destruct (parse_event_fields info maps c r).
  - unfold session_cache. cbn [fold_left]. destruct (parse_event_fields info maps c q) as [f c'] eqn:E.
    cbn [snd app]. f_equal. apply IH.
Qed.

Lemma parse_session_length info maps c rs : length (parse_session info maps c rs) = length rs.
Proof.
  revert c. induction rs as [|q rs IH]; intros c; cbn [parse_session]; [done|].
  destruct (parse_event_fields info maps c q). cbn [length]. by rewrite IH.
Qed.

(** The first result of [f] on the list, and on the list with one more. *)
Definition first_of {A B} (f : A -> option B) (l : list A) : option B := head (omap f l).

Lemma first_of_snoc {A B} (f : A -> option B) l x :
  first_of f (l ++ [x]) = match first_of f l with Some y => Some y | None => f x end.
Proof.
  unfold first_of. rewrite omap_app. cbn [omap list_omap]. destruct (omap f l); cbn; [|done].
  by destruct (f x).
Qed.

Lemma first_of_agreed {A B} (f : A -> option B) l v :
  l <> [] -> Forall (fun x => f x = v) l -> first_of f l = v.
Proof.
  unfold first_of. destruct v as [v|].
  - destruct l as [|x l]; [done|]. intros _ [H _]%Forall_cons. cbn. by rewrite H.
  - intros _ H. induction H as [|x l Hx _ IH]; [done|]. cbn. by rewrite Hx.
Qed.

Section CacheProofs.
Context (info : event_record -> option raw_event_info).
Context (maps : event_record -> list Z -> option raw_map_info).

(** A record decoded with a schema and the maps found by name. *)
Definition decode_with (map_of : str -> option MapDefinition) (schema : CachedSchema) (record : event_record)
    : list EventField :=
  zip_with (fun prop field =>
    match pm_map_name prop with
    | None => field
    | Some name => apply_map (map_of name) field
    end) (props schema) (parse_values schema (er_data record)).

(** The decoding without a cache. *)
Definition decode_uncached (record : event_record) : option (list EventField) :=
  schema ← build_schema info record;
  Some (decode_with (load_event_map maps record) schema record).

(** Which of TDH's answers a record is decoded with, after the records
    [before]: the schema that TDH first returned for a record of the same key,
    and for each map name the map it first returned for a record that needed a
    map of this name, whatever its provider. *)
Definition schema_used (before : list event_record) (record : event_record) : option CachedSchema :=
  first_of (build_schema info) (filter (fun q => er_key q = er_key record) (before ++ [record])).

Definition names_asked (before : list event_record) (record : event_record) : list str :=
  match schema_used before record with
  | Some schema => omap pm_map_name (take (length (parse_values schema (er_data record))) (props schema))
  | None => []
  end.

Fixpoint askers (name : str) (before rs : list event_record) : list event_record :=
  match rs with
  | [] => []
  | r :: rs => (if decide (name ∈ names_asked before r) then [r] else []) ++ askers name (before ++ [r]) rs
  end.

Definition map_used (before : list event_record) (record : event_record) (name : str) : option MapDefinition :=
  first_of (fun q => load_event_map maps q name) (askers name [] before ++ [record]).

Definition decode_first (before : list event_record) (record : event_record) : option (list EventField) :=
  schema ← schema_used before record;
  Some (decode_with (map_used before record) schema record).

Lemma askers_snoc name before rs r :
  askers name before (rs ++ [r]) =
  askers name before rs ++ (if decide (name ∈ names_asked (before ++ rs) r) then [r] else []).
Proof.
  revert before. induction rs as [|q rs IH]; intros before; cbn [app askers].
  - by rewrite !app_nil_r.
  - by rewrite IH, <- !app_assoc.
Qed.

Lemma askers_in name before rs r : r ∈ askers name before rs -> r ∈ rs.
Proof.
  revert before. induction rs as [|q rs IH]; intros before H; cbn [askers] in H; [done|].
  apply elem_of_app in H as [H|H]; [|right; by eapply IH].
  case_decide; [|by apply not_elem_of_nil in H]. apply list_elem_of_singleton in H as ->. left.
Qed.

(** What the cache holds after the records [before]. *)
Definition cache_holds (before : list event_record) (c : SchemaCache) : Prop :=
  (forall key, cache c !! key = first_of (build_schema info) (filter (fun q => er_key q = key) before)) /\
  (forall name, map_cache c !! name = first_of (fun q => load_event_map maps q name) (askers name [] before)).

Lemma cache_holds_new : cache_holds [] schema_cache_new.
Proof. split; intros ?; apply lookup_empty. Qed.

(** A map from the cache, or else from TDH. *)
Definition map_for (c : SchemaCache) (record : event_record) (name : str) : option MapDefinition :=
  match map_cache c !! name with Some map => Some map | None => load_event_map maps record name end.

Lemma get_or_load_map_spec c record name :
  fst (get_or_load_map maps c record name) = map_for c record name /\
  cache (snd (get_or_load_map maps c record name)) = cache c /\
  forall n, map_cache (snd (get_or_load_map maps c record name)) !! n =
    if decide (n = name) then map_for c record name else map_cache c !! n.
Proof.
  unfold get_or_load_map, map_for. destruct (map_cache c !! name) as [m|] eqn:E.
  - split_and!; [done..|]. intros n. case_decide; by subst.
  - destruct (load_event_map maps record name) as [m|]; (split_and!; [done..|]); intros n; cbn.
    + case_decide; [subst; by rewrite lookup_insert_eq|by rewrite lookup_insert_ne].
    + case_decide; by subst.
Qed.

Lemma parse_props_length ps nums data : (length (parse_props ps nums data) <= length ps)%nat.
Proof.
  revert nums data. induction ps as [|p ps IH]; intros nums data; cbn [parse_props]; [done|].
  repeat case_match; cbn [length]; try lia. apply le_n_S, IH.
Qed.

Lemma apply_map_values_spec c record ps fields :
  (length fields <= length ps)%nat ->
  fst (apply_map_values maps c record ps fields) =
    zip_with (fun prop field =>
      match pm_map_name prop with
      | None => field
      | Some name => apply_map (map_for c record name) field
      end) ps fields /\
  cache (snd (apply_map_values maps c record ps fields)) = cache c /\
  forall n, map_cache (snd (apply_map_values maps c record ps fields)) !! n =
    if decide (n ∈ omap pm_map_name (take (length fields) ps)) then map_for c record n else map_cache c !! n.
Proof.
  revert c ps. induction fields as [|f fields IH]; intros c ps Hl.
  { destruct ps; done. }
  destruct ps as [|p ps]; [cbn in Hl; lia|]. apply le_S_n in Hl. cbn [apply_map_values zip_with length take].
  destruct (pm_map_name p) as [name|] eqn:Ep; cbn [omap list_omap]; rewrite Ep.
  - destruct (get_or_load_map_spec c record name) as (Hm & Hc & Hn).
    destruct (get_or_load_map maps c record name) as [m c']. cbn [fst snd] in *. subst m.
    assert (forall n, map_for c' record n = map_for c record n) as Hsame.
    { intros n. unfold map_for. rewrite Hn. case_decide; [subst|done]. unfold map_for.
      by destruct (map_cache c !! name), (load_event_map maps record name). }
    destruct (IH c' ps Hl) as (Hf & Hc' & Hn').
    destruct (apply_map_values maps c' record ps fields) as [fs c'']. cbn [fst snd] in *. split_and!.
    + rewrite Hf. f_equal. apply zip_with_ext; [|done..]. intros q g. by destruct (pm_map_name q); rewrite ?Hsame.
    + by rewrite Hc'.
    + intros n. rewrite Hn', Hsame, Hn. repeat case_decide; set_solver.
  - destruct (IH c ps Hl) as (Hf & Hc' & Hn').
    destruct (apply_map_values maps c record ps fields) as [fs c'']. cbn [fst snd] in *. by rewrite Hf.
Qed.

(** One record: the answer, and what the cache holds after it. *)
Lemma schema_found before c record :
  cache_holds before c ->
  match cache c !! er_key record with Some s => Some s | None => build_schema info record end =
  schema_used before record.
Proof.
  intros [H _]. unfold schema_used. rewrite H, filter_app, filter_cons_True, filter_nil by done.
  by rewrite first_of_snoc.
Qed.

Lemma cached_schemas before record key :
  first_of (build_schema info) (filter (fun q => er_key q = key) (before ++ [record])) =
  if decide (er_key record = key) then schema_used before record
  else first_of (build_schema info) (filter (fun q => er_key q = key) before).
Proof.
  case_decide as E; [by subst key|]. by rewrite filter_app, filter_cons_False, app_nil_r.
Qed.

Lemma cached_maps before c record name :
  cache_holds before c ->
  first_of (fun q => load_event_map maps q name) (askers name [] (before ++ [record])) =
  if decide (name ∈ names_asked before record) then map_for c record name else map_cache c !! name.
Proof.
  intros [_ H]. rewrite askers_snoc, H. cbn [app]. case_decide; [|by rewrite app_nil_r].
  unfold map_for. by rewrite first_of_snoc, H.
Qed.

Lemma parse_event_fields_first before c record :
  cache_holds before c ->
  fst (parse_event_fields info maps c record) = decode_first before record /\
  cache_holds (before ++ [record]) (snd (parse_event_fields info maps c record)).
Proof.
  intros Hc. pose proof (schema_found before c record Hc) as Hs. unfold parse_event_fields, decode_first.
  assert (exists c', map_cache c' = map_cache c /\
      (forall key, cache c' !! key = if decide (er_key record = key) then schema_used before record else cache c !! key) /\
      match cache c !! er_key record with
      | Some schema => Some (schema, c)
      | None => match build_schema info record with
                | Some schema => Some (schema, mkSchemaCache (<[er_key record := schema]> (cache c)) (map_cache c))
                | None => None
                end
      end = (s ← schema_used before record; Some (s, c')) /\
      (schema_used before record = None -> c' = c)) as (c' & Hm & Hk & -> & Hnone).
  { rewrite <- Hs. destruct (cache c !! er_key record) as [s|] eqn:E.
    { exists c. split_and!; try done. intros key. case_decide; by subst. }
    destruct (build_schema info record) as [s|]; [|exists c; split_and!; try done; intros key; case_decide; by subst].
    eexists. split_and!; [| |reflexivity|done]; [done|]. intros key. cbn. case_decide as Ek.
    - subst. by rewrite lookup_insert_eq.
    - by rewrite lookup_insert_ne. }
  destruct (schema_used before record) as [s|] eqn:Es; cbn [mbind option_bind].
  - destruct (apply_map_values_spec c' record (props s) (parse_values s (er_data record))) as (Hf & Hc' & Hn).
    { apply parse_props_length. }
    assert (forall n, map_for c' record n = map_used before record n) as Hu.
    { intros n. unfold map_for, map_used. by rewrite Hm, (proj2 Hc), first_of_snoc. }
    destruct (apply_map_values maps c' record _ _) as [fs c'']. cbn [fst snd] in *. split.
    + rewrite Hf. f_equal. apply zip_with_ext; [|done..]. intros q g. by destruct (pm_map_name q); rewrite ?Hu.
    + split; intros k; [by rewrite Hc', Hk, cached_schemas, Es, (proj1 Hc)|].
      rewrite Hn, (cached_maps _ c) by done. unfold names_asked, map_for. by rewrite Es, Hm.
  - split; [done|]. split; intros k; [by rewrite cached_schemas, Es, <- (proj1 Hc), <- Hk, (Hnone eq_refl)|].
    rewrite (cached_maps _ c) by done. unfold names_asked. rewrite Es. case_decide; [set_solver|done].
Qed.

Lemma parse_session_first before c rs i :
  cache_holds before c ->
  parse_session info maps c rs !! i = decode_first (before ++ take i rs) <$> rs !! i.
Proof.
  revert before c i. induction rs as [|r rs IH]; intros before c i Hc; [done|]. cbn [parse_session].
  destruct (parse_event_fields_first before c r Hc) as [Hf Hc'].
  destruct (parse_event_fields info maps c r) as [fields c']. cbn [fst snd] in *.
  destruct i as [|i]; cbn [lookup list_lookup take]; [by rewrite app_nil_r, Hf|].
  rewrite (IH (before ++ [r])) by done. by rewrite <- app_assoc.
Qed.

Lemma decode_first_agreed before r :
  (forall q, q ∈ before -> er_key q = er_key r -> build_schema info q = build_schema info r) ->
  (forall q name, q ∈ before -> load_event_map maps q name = load_event_map maps r name) ->
  decode_first before r = decode_uncached r.
Proof.
  intros Hs Hm. unfold decode_first, decode_uncached.
  replace (schema_used before r) with (build_schema info r).
  - destruct (build_schema info r) as [s|]; [|done]. cbn [mbind option_bind]. unfold decode_with. f_equal.
    apply zip_with_ext; [|done..]. intros q g. destruct (pm_map_name q) as [name|]; [|done]. f_equal.
    apply first_of_agreed; [by destruct (askers name [] before)|]. apply Forall_app. split; [|by constructor].
    apply Forall_forall. intros x Hx. apply Hm. by apply askers_in in Hx.
  - symmetry. apply first_of_agreed.
    + rewrite filter_app, filter_cons_True by done. by destruct (filter _ before).
    + apply Forall_forall. intros x Hx. apply list_elem_of_filter in Hx as [Hk Hx].
      apply elem_of_app in Hx as [Hx| ->%list_elem_of_singleton]; [by apply Hs|done].
Qed.
End CacheProofs.

(** [C25] What the schema cache returns, and when it changes nothing.  Over
    any sequence of records, whatever TDH answers for each of them, the record
    at position [i] is decoded with the schema TDH first returned for a record
    of the same key (provider, id, opcode, version, level) among the records up
    to it, and, for each map name, with the map TDH first returned for a record
    up to it that needed a map of this name, whatever that record's provider; a
    failed answer is not kept.  So the session returns exactly what parsing
    each record alone would return whenever TDH gives one schema to the records
    of a key and one map to each name over the records of this session. *)
Theorem schema_cache_transparent (info : event_record -> option raw_event_info)
    (maps : event_record -> list Z -> option raw_map_info) (rs : list event_record) :
  (forall i, parse_session info maps schema_cache_new rs !! i =
     decode_first info maps (take i rs) <$> rs !! i) /\
  ((forall q r, q ∈ rs -> r ∈ rs -> er_key q = er_key r -> build_schema info q = build_schema info r) ->
   (forall q r name, q ∈ rs -> r ∈ rs -> load_event_map maps q name = load_event_map maps r name) ->
   parse_session info maps schema_cache_new rs = decode_uncached info maps <$> rs).
Proof.
  assert (forall i, parse_session info maps schema_cache_new rs !! i =
    decode_first info maps (take i rs) <$> rs !! i) as H.
  { intros i. by apply (parse_session_first info maps []), cache_holds_new. }
  split; [exact H|]. intros Hs Hm. apply list_eq. intros i. rewrite H, list_lookup_fmap.
  destruct (rs !! i) as [r|] eqn:E; [|done]. cbn. f_equal. apply list_elem_of_lookup_2 in E.
  apply decode_first_agreed.
  - intros q Hq. apply Hs; [by apply elem_of_take in Hq as (j & ? & ?); eapply list_elem_of_lookup_2|done].
  - intros q name Hq. apply Hm; [by apply elem_of_take in Hq as (j & ? & ?); eapply list_elem_of_lookup_2|done].
Qed.

(** A provider whose one property has a map named "M". *)
Definition demo_mapped_info : raw_event_info :=
  mk_raw_event_info [0; 0; 77; 0; 0; 0] [mk_raw_property 0 0 TDH_INTYPE_UINT8 0 2 1 1].
Definition demo_key (n : Z) : SchemaKey := mkSchemaKey (mkGUID n 0 0 []) 1 0 0 0.
Definition demo_map (label : Z) : raw_map_info :=
  mk_raw_map_info [label; 0; 0; 0] 0 1 [mk_raw_map_entry 5 0].

Lemma schema_cache_transparent_witness :
  parse_session (fun _ => Some demo_mapped_info) (fun _ _ => Some (demo_map 65)) schema_cache_new
    [mk_event_record (demo_key 1) [5]; mk_event_record (demo_key 1) [6]] =
  [Some [mkEventField [] (Val_String [65])]; Some [mkEventField [] (Val_U8 6)]].
Proof.
  refine (eq_trans (proj2 (schema_cache_transparent (fun _ => Some demo_mapped_info)
    (fun _ _ => Some (demo_map 65)) _) _ _) _); [done|done|by vm_compute].
Defined.

(** The map cache is keyed by the map's name alone.  When two providers
    use one name for different maps, the second provider's values are
    rendered with the first provider's labels: here both map the value 5,
    one to "A" and one to "B", and the second record comes out as "A". *)
Theorem map_cache_ignores_provider :
  exists (info : event_record -> option raw_event_info)
         (maps : event_record -> list Z -> option raw_map_info) (r1 r2 : event_record),
    (forall a b, er_key a = er_key b -> info a = info b /\ forall name, maps a name = maps b name) /\
    sk_provider (er_key r1) <> sk_provider (er_key r2) /\
    decode_uncached info maps r2 = Some [mkEventField [] (Val_String (lit "B"))] /\
    parse_session info maps schema_cache_new [r1; r2] =
      [Some [mkEventField [] (Val_String (lit "A"))]; Some [mkEventField [] (Val_String (lit "A"))]].
Proof.
  exists (fun _ => Some demo_mapped_info),
    (fun r _ => Some (demo_map (if decide (er_key r = demo_key 1) then 65 else 66))),
    (mk_event_record (demo_key 1) [5]), (mk_event_record (demo_key 2) [5]).
  split; [intros a b H; by rewrite H|]. split; [done|]. split; by vm_compute.
Qed.

(** The bytes taken for an array of 32-bit integers whose property
    declares the element length.  An array of more than four elements is
    taken whole, but one of two to four elements is cut to the first element
    only, because a declared length that is not below the count is taken as
    the length of the whole array. *)
Theorem counted_u32_array (prop : PropertyMeta) (count : Z) (data : list Z)
    (Hin : pm_in_type prop = TDH_INTYPE_UINT32) (Hlen : pm_length prop = 4)
    (Hout : pm_out_type prop = 0) (Hc : 2 <= count <= u16_max) (Hd : 4 * count <= zlen data) :
  let taken := if count <=? 4 then 4 else 4 * count in
  parse_counted_value prop count data = Some (Val_Binary (take (Z.to_nat taken) data), Z.to_nat taken).
Proof.
  unfold parse_counted_value. rewrite Hlen. replace (count =? 0) with false by lia. cbn zeta.
  change (0 <? 4) with true. cbn iota.
  destruct (count <=? 4) eqn:E; by replace (_ && _) with true by lia.
Qed.

Lemma counted_u32_array_witness :
  parse_counted_value (mkPropertyMeta [] TDH_INTYPE_UINT32 0 4 1 None None None) 3
    [1; 0; 0; 0; 2; 0; 0; 0; 3; 0; 0; 0] = Some (Val_Binary [1; 0; 0; 0], 4%nat).
Proof.
  exact (counted_u32_array (mkPropertyMeta [] TDH_INTYPE_UINT32 0 4 1 None None None) 3
    [1; 0; 0; 0; 2; 0; 0; 0; 3; 0; 0; 0] eq_refl eq_refl eq_refl ltac:(lia) ltac:(by vm_compute)).
Defined.
