(* ===== verification/EtwSession.v ===== *)
(** * EtwSession: trace sessions (src/etw/session.rs, src/etw/types.rs)

    The builder and the start of a session, the callback that Windows runs
    for each event, the bounded channels between the callback's thread and
    the consumer, and the consumer's operations.  The callback and the
    consumer run concurrently: the file gives their atomic steps as a
    relation and proves invariants over every interleaving. *)

From Stdlib Require Import ZArith Lia String Ascii.
From stdpp Require Import base list strings gmap numbers sorting.
From S2P Require Import Prelude Text Unicode Errors EtwEvents EtwDecode EtwMap EtwSchema.

Open Scope Z_scope.

(** ** types.rs *)

Inductive SystemProvider := Process | Thread | Registry | Network | FileIo | FileIoInit | ImageLoad.

(** [EVENT_TRACE_FLAG_*] of the SDK. *)
Definition trace_flags (p : SystemProvider) : Z :=
  match p with
  | Process => 0x1
  | Thread => 0x2
  | Registry => 0x20000
  | Network => 0x10000
  | FileIo => Z.lor 0x2000000 0x4000000
  | FileIoInit => 0x4000000
  | ImageLoad => 0x4
  end.

Inductive TraceLevel := LevelCritical | LevelError | LevelWarning | LevelInfo | LevelVerbose.

Definition level_value (l : TraceLevel) : Z :=
  match l with LevelCritical => 1 | LevelError => 2 | LevelWarning => 3 | LevelInfo => 4 | LevelVerbose => 5 end.

Record StackTrace := mkStackTrace { st_match_id : Z; st_frames : list Z }.

(** An extended data item; [None] is a null pointer, and the size is the
    number of bytes. *)
Record ext_item := mk_ext_item { ext_type : Z; ext_data : option (list Z) }.

(** The parts of an [EVENT_RECORD] that the code reads. *)
Record EVENT_RECORD := mkEVENT_RECORD {
  rec_provider : GUID; rec_id : Z; rec_version : Z; rec_opcode : Z; rec_level : Z;
  rec_flags : Z; rec_pid : Z; rec_tid : Z; rec_timestamp : Z;
  rec_data : list Z; rec_extended : list ext_item; rec_processor : Z }.

(** A [SystemTime] is its count of 100 ns intervals since 1601, as on
    Windows. *)
Record TraceEvent := mkTraceEvent {
  te_id : Z; te_version : Z; te_opcode : Z; te_level : Z; te_provider : GUID;
  te_process_id : Z; te_thread_id : Z; te_timestamp : Z; te_data : list Z; te_pointer_size : Z;
  te_thread_context : option (Z * Z);
  te_stack_trace : option StackTrace;
  te_cpu_sample : option Z;
  te_fields : option (list EventField) }.

Definition FILETIME_TO_UNIX_EPOCH : Z := 116444736000000000.

(** [saturating_sub] on [i64], the casts to [u64] and [u32], [Duration::new]
    (which carries whole seconds out of the nanoseconds and panics when they
    overflow) and the addition to [UNIX_EPOCH] (which panics when the result
    does not fit 64 signed bits). *)
Definition filetime_to_systemtime (filetime : Z) : res none Z :=
  let intervals := Z.max (filetime - FILETIME_TO_UNIX_EPOCH) (- 2 ^ 63) in
  let seconds := wrap 64 (Z.quot intervals 10000000) in
  let nanos := wrap 32 (Z.rem intervals 10000000 * 100) in
  let seconds := seconds + nanos / 1000000000 in
  let nanos := nanos mod 1000000000 in
  if 2 ^ 64 <=? seconds then Panic TimeOverflow
  else
    let total := FILETIME_TO_UNIX_EPOCH + (seconds * 10000000 + nanos / 100) in
    if 2 ^ 63 <=? total then Panic TimeOverflow else Ok total.

Definition from_event_record_with_fields (native : Z) (r : EVENT_RECORD) (fields : option (list EventField))
    : res none TraceEvent :=
  let! timestamp := filetime_to_systemtime (rec_timestamp r) in
  Ok (mkTraceEvent (rec_id r) (rec_version r) (rec_opcode r) (rec_level r) (rec_provider r)
        (rec_pid r) (rec_tid r) timestamp (rec_data r)
        (pointer_size_from_header_flags native (rec_flags r)) None None None fields).

(** ** Opcode drops *)

Class session_guids := {
  session_providers :: provider_guids;
  UdpIpGuid : GUID }.

Inductive KernelEventClass := ClassTcpIp | ClassUdpIp | ClassFileIo | ClassRegistry.

Definition class_guid `{session_guids} (c : KernelEventClass) : GUID :=
  match c with
  | ClassTcpIp => TcpIpGuid
  | ClassUdpIp => UdpIpGuid
  | ClassFileIo => FileIoGuid
  | ClassRegistry => RegistryGuid
  end.

(** The 256-bit set: four 64-bit words. *)
Record OpcodeDrop := mkOpcodeDrop { drop_class : GUID; drop_words : list Z }.

Definition drop_contains (d : OpcodeDrop) (opcode : Z) : bool :=
  let word := nth (Z.to_nat (opcode / 64)) (drop_words d) 0 in
  Z.land (Z.shiftr word (opcode mod 64)) 1 =? 1.

Definition is_dropped (drops : list OpcodeDrop) (class : GUID) (opcode : Z) : bool :=
  existsb (fun d => bool_decide (drop_class d = class) && drop_contains d opcode) drops.

Definition set_bit (words : list Z) (opcode : Z) : list Z :=
  alter (fun w => Z.lor w (Z.shiftl 1 (opcode mod 64))) (Z.to_nat (opcode / 64)) words.

Definition set_opcodes (d : OpcodeDrop) (opcodes : list Z) : OpcodeDrop :=
  mkOpcodeDrop (drop_class d) (fold_left set_bit opcodes (drop_words d)).

(** [drop_opcodes] on the builder's list: the first entry of the class is
    updated, or one is added at the end. *)
Definition drop_opcodes (drops : list OpcodeDrop) (guid : GUID) (opcodes : list Z) : list OpcodeDrop :=
  match position (fun d => bool_decide (drop_class d = guid)) drops with
  | Some index => alter (fun d => set_opcodes d opcodes) index drops
  | None => drops ++ [set_opcodes (mkOpcodeDrop guid [0; 0; 0; 0]) opcodes]
  end.

Definition normalize_process_filter (pids : list Z) : option (gset Z) :=
  if decide (pids = []) then None else Some (list_to_set pids).

(** ** Stack traces *)

Fixpoint read_frames (fuel : nat) (frame_size : nat) (raw : list Z) : list Z :=
  match fuel with
  | O => []
  | S fuel =>
      if (length raw <? frame_size)%nat then []
      else
        let addr := le_decode (take frame_size raw) in
        let frames := read_frames fuel frame_size (drop frame_size raw) in
        if addr =? 0 then frames else addr :: frames
  end.

(** [length raw] rounds read every frame. *)
Lemma read_frames_enough f1 f2 frame_size raw :
  (0 < frame_size)%nat -> (length raw <= f1)%nat -> (length raw <= f2)%nat ->
  read_frames f1 frame_size raw = read_frames f2 frame_size raw.
Proof.
  intros Hs. revert f2 raw; induction f1 as [|f1 IH]; intros f2 raw H1 H2.
  - destruct raw; [|cbn in H1; lia]. destruct f2 as [|f2]; [done|]. cbn [read_frames].
    replace (length [] <? frame_size)%nat with true; [done|]. symmetry. apply Nat.ltb_lt. cbn. lia.
  - cbn [read_frames]. destruct (length raw <? frame_size)%nat eqn:E.
    { destruct f2 as [|f2]; [done|]. cbn [read_frames]. by rewrite E. }
    apply Nat.ltb_ge in E. destruct f2 as [|f2]; [lia|]. cbn [read_frames].
    replace (length raw <? frame_size)%nat with false by (symmetry; apply Nat.ltb_ge; lia).
    rewrite (IH f2); [done| |]; rewrite length_drop; lia.
Qed.

(** [EVENT_HEADER_EXT_TYPE_STACK_TRACE32] and [..64] are 5 and 6. *)
Definition extract_item (i : ext_item) : option StackTrace :=
  let is_stack32 := ext_type i =? 5 in
  let is_stack64 := ext_type i =? 6 in
  if negb is_stack32 && negb is_stack64 then None
  else match ext_data i with
       | None => None
       | Some raw =>
           if (length raw <? 8)%nat then None
           else Some (mkStackTrace (le_decode (take 8 raw))
                  (read_frames (length raw) (if is_stack32 then 4%nat else 8%nat) (drop 8 raw)))
       end.

Fixpoint extract_stack_trace (items : list ext_item) : option StackTrace :=
  match items with
  | [] => None
  | i :: items => match extract_item i with Some s => Some s | None => extract_stack_trace items end
  end.

(** ** Kernel session configuration *)

Definition KERNEL_LOGGER_NAME : str := lit "NT Kernel Logger".
Definition EVENT_TRACE_REAL_TIME_MODE : Z := 0x100.
Definition EVENT_TRACE_SYSTEM_LOGGER_MODE : Z := 0x2000000.
Definition zero_guid : GUID := mkGUID 0 0 0 [0; 0; 0; 0; 0; 0; 0; 0].

Record KernelSessionConfig := mkKernelSessionConfig {
  ks_session_name : str; ks_log_file_mode : Z; ks_wnode_guid : GUID }.

Definition kernel_session_config (builder_name : str) (has_kernel_providers : bool)
    (private_logger_guid : option GUID) : option KernelSessionConfig :=
  if negb has_kernel_providers then None
  else Some (match private_logger_guid with
       | Some g => mkKernelSessionConfig builder_name
                     (Z.lor EVENT_TRACE_REAL_TIME_MODE EVENT_TRACE_SYSTEM_LOGGER_MODE) g
       | None => mkKernelSessionConfig KERNEL_LOGGER_NAME EVENT_TRACE_REAL_TIME_MODE zero_guid
       end).

(** ** Channels

    [std::sync::mpsc::sync_channel]: a queue of at most [capacity] messages.
    [try_send] fails when it is full, [try_recv] when it is empty.  (A
    capacity of 0, which the builder does not default to, is a rendezvous
    channel: the queue describes it only while no receiver is blocked.)  The
    history fields record what was sent, received and refused; no operation
    reads them. *)

Record chan (A : Type) := mk_chan {
  queue : list A; sent : list A; received : list A; refused : nat }.
Arguments mk_chan {A}.
Arguments queue {A}.
Arguments sent {A}.
Arguments received {A}.
Arguments refused {A}.

Definition chan_new {A} : chan A := mk_chan [] [] [] 0.

Definition try_send {A} (capacity : nat) (c : chan A) (x : A) : bool * chan A :=
  if (length (queue c) <? capacity)%nat
  then (true, mk_chan (queue c ++ [x]) (sent c ++ [x]) (received c) (refused c))
  else (false, mk_chan (queue c) (sent c) (received c) (S (refused c))).

Definition try_recv {A} (c : chan A) : option (A * chan A) :=
  match queue c with
  | [] => None
  | x :: q => Some (x, mk_chan q (sent c) (received c ++ [x]) (refused c))
  end.

(** ** The callback *)

(** The immutable part of [CallbackContext]. *)
Record context := mk_context {
  cx_process_filter : option (gset Z);
  cx_opcode_drops : list OpcodeDrop;
  cx_include_thread_context : bool;
  cx_include_stack_traces : bool;
  cx_include_cpu_samples : bool;
  cx_capacity : nat;
  cx_native : Z }.

Definition schema_record (r : EVENT_RECORD) : event_record :=
  mk_event_record (mkSchemaKey (rec_provider r) (rec_id r) (rec_opcode r) (rec_version r) (rec_level r))
    (rec_data r).

(** The two early returns. *)
Definition accepts (cx : context) (r : EVENT_RECORD) : bool :=
  match cx_process_filter cx with
  | Some filter => bool_decide (rec_pid r ∈ filter)
  | None => true
  end && negb (is_dropped (cx_opcode_drops cx) (rec_provider r) (rec_opcode r)).

Section Callback.
Context `{session_guids}.
Context (TdhGetEventInformation : event_record -> option raw_event_info).
Context (TdhGetEventMapInformation : event_record -> list Z -> option raw_map_info).
Context (cx : context).

Definition callback_fields (cache : option SchemaCache) (r : EVENT_RECORD)
    : option (list EventField) * option SchemaCache :=
  match cache with
  | None => (None, None)
  | Some c =>
      let '(fields, c) :=
        parse_event_fields TdhGetEventInformation TdhGetEventMapInformation c (schema_record r) in
      (fields, Some c)
  end.

Definition callback_decoded (r : EVENT_RECORD) (fields : option (list EventField)) : res none DecodedEvent :=
  decode_from_record_parts (rec_provider r) (rec_version r) (rec_opcode r)
    (pointer_size_from_header_flags (cx_native cx) (rec_flags r)) (rec_data r) fields.

Definition callback_raw (r : EVENT_RECORD) (fields : option (list EventField)) : res none TraceEvent :=
  let! e := from_event_record_with_fields (cx_native cx) r fields in
  Ok (mkTraceEvent (te_id e) (te_version e) (te_opcode e) (te_level e) (te_provider e)
        (te_process_id e) (te_thread_id e) (te_timestamp e) (te_data e) (te_pointer_size e)
        (if cx_include_thread_context cx then Some (te_process_id e, te_thread_id e) else te_thread_context e)
        (if cx_include_stack_traces cx then extract_stack_trace (rec_extended r) else te_stack_trace e)
        (if cx_include_cpu_samples cx then Some (rec_processor r) else te_cpu_sample e)
        (te_fields e)).

(** Where the callback's thread is. *)
Inductive phase :=
  | Waiting                                                     (* for the next record *)
  | Sending (r : EVENT_RECORD) (fields : option (list EventField)) (* before the raw send *)
  | Aborted.                                (* a panic left the [extern "system"] callback *)

(** What the two threads share, and [accepted], the records that passed the
    filters (history). *)
Record shared := mk_shared {
  sh_schema : option SchemaCache;
  sh_decoded : option (chan DecodedEvent);
  sh_raw : option (chan TraceEvent);
  sh_dropped : Z;
  sh_processed : Z;
  sh_phase : phase;
  sh_accepted : nat }.

(** [if sender.try_send(x).is_err() { dropped.fetch_add(1) }]. *)
Definition send_or_drop {A} (c : chan A) (x : A) (dropped : Z) : chan A * Z :=
  let '(ok, c) := try_send (cx_capacity cx) c x in
  (c, if ok then dropped else wrap 64 (dropped + 1)).

(** The callback up to the decoded send. *)
Definition callback_first (s : shared) (r : EVENT_RECORD) : shared :=
  if negb (accepts cx r) then s
  else
    let '(fields, schema) := callback_fields (sh_schema s) r in
    match sh_decoded s with
    | None => mk_shared schema None (sh_raw s) (sh_dropped s) (sh_processed s) (Sending r fields)
                (S (sh_accepted s))
    | Some c =>
        match callback_decoded r fields with
        | Ok e =>
            let '(c, dropped) := send_or_drop c e (sh_dropped s) in
            mk_shared schema (Some c) (sh_raw s) dropped (sh_processed s) (Sending r fields)
              (S (sh_accepted s))
        | _ => mk_shared schema (Some c) (sh_raw s) (sh_dropped s) (sh_processed s) Aborted (sh_accepted s)
        end
    end.

(** The rest of the callback. *)
Definition callback_second (s : shared) (r : EVENT_RECORD) (fields : option (list EventField)) : shared :=
  match sh_raw s with
  | None => mk_shared (sh_schema s) (sh_decoded s) None (sh_dropped s) (sh_processed s) Waiting (sh_accepted s)
  | Some c =>
      match callback_raw r fields with
      | Ok e =>
          let '(c, dropped) := send_or_drop c e (sh_dropped s) in
          mk_shared (sh_schema s) (sh_decoded s) (Some c) dropped (sh_processed s) Waiting (sh_accepted s)
      | _ => mk_shared (sh_schema s) (sh_decoded s) (Some c) (sh_dropped s) (sh_processed s) Aborted (sh_accepted s)
      end
  end.

(** The whole callback, when the consumer does nothing in between. *)
Definition trace_callback_fn (s : shared) (r : EVENT_RECORD) : shared :=
  let s := callback_first s r in
  match sh_phase s with
  | Sending r fields => callback_second s r fields
  | _ => s
  end.

(** ** The consumer *)

Definition with_raw (s : shared) (c : chan TraceEvent) (delivered : Z) : shared :=
  mk_shared (sh_schema s) (sh_decoded s) (Some c) (sh_dropped s) (sh_processed s + delivered) (sh_phase s)
    (sh_accepted s).
Definition with_decoded (s : shared) (c : chan DecodedEvent) (delivered : Z) : shared :=
  mk_shared (sh_schema s) (Some c) (sh_raw s) (sh_dropped s) (sh_processed s + delivered) (sh_phase s)
    (sh_accepted s).

Definition disabled (stream : string) : Error :=
  Error_Etw (EtwError_ConsumeFailed (mkEtwConsumeError (lit stream) None)).

(** [while let Ok(event) = rx.try_recv() { if filter(&event) { push } }] when
    nothing is sent meanwhile: the whole queue is taken. *)
Definition drain {A} (c : chan A) : list A * chan A :=
  (queue c, mk_chan [] (sent c) (received c ++ queue c) (refused c)).

(** The result is [Ok(out_events.len())] together with the buffer. *)
Definition next_batch_with_filter (filter : TraceEvent -> bool) (s : shared)
    : res Error (list TraceEvent) * shared :=
  match sh_raw s with
  | None => (Err (disabled "Raw event stream is disabled for this session"), s)
  | Some c =>
      let '(events, c) := drain c in
      let out := List.filter filter events in
      (Ok out, with_raw s c (zlen out))
  end.

Definition next_batch : shared -> res Error (list TraceEvent) * shared :=
  next_batch_with_filter (fun _ => true).

(** [signaled] is what [stop_signal.is_signaled()] returned. *)
Definition next_batch_or_stopped (signaled : res Error bool) (s : shared)
    : res Error (list TraceEvent) * shared :=
  match signaled with
  | Ok true => (Ok [], s)
  | Ok false => next_batch s
  | Err e => (Err e, s)
  | Panic p => (Panic p, s)
  end.

(** [recv_timeout] when nothing arrives within the timeout finds the queue
    empty; otherwise it returns the first message. *)
Definition next_batch_timeout (s : shared) : res Error (list TraceEvent) * shared :=
  match sh_raw s with
  | None => (Err (disabled "Raw event stream is disabled for this session"), s)
  | Some c =>
      match try_recv c with
      | None => (Ok [], s)
      | Some (first, c) =>
          let '(events, c) := drain c in
          let out := first :: events in
          (Ok out, with_raw s c (zlen out))
      end
  end.

Definition next_batch_decoded_with_filter (filter : DecodedEvent -> bool) (s : shared)
    : res Error (list DecodedEvent) * shared :=
  match sh_decoded s with
  | None => (Err (disabled "Decoded event stream is disabled for this session"), s)
  | Some c =>
      let '(events, c) := drain c in
      let out := List.filter filter events in
      (Ok out, with_decoded s c (zlen out))
  end.

Definition next_batch_decoded : shared -> res Error (list DecodedEvent) * shared :=
  next_batch_decoded_with_filter (fun _ => true).

(** ** Interleavings

    The atomic steps: the callback's two halves for any record Windows
    delivers, and one receive of the consumer on either channel, of which
    the filter may discard the event. *)
Inductive step : shared -> shared -> Prop :=
  | step_first s r :
      sh_phase s = Waiting -> step s (callback_first s r)
  | step_second s r fields :
      sh_phase s = Sending r fields -> step s (callback_second s r fields)
  | step_recv_raw s c x c' (keep : bool) :
      sh_raw s = Some c -> try_recv c = Some (x, c') ->
      step s (with_raw s c' (if keep then 1 else 0))
  | step_recv_decoded s c x c' (keep : bool) :
      sh_decoded s = Some c -> try_recv c = Some (x, c') ->
      step s (with_decoded s c' (if keep then 1 else 0)).

Definition steps : shared -> shared -> Prop := rtc step.

(** The state right after [start]. *)
Inductive EventStreamMode := ModeRaw | ModeDecoded | ModeBoth.

Definition initial (mode : EventStreamMode) (detailed_events : bool) : shared :=
  let raw := match mode with ModeRaw | ModeBoth => Some chan_new | ModeDecoded => None end in
  let decoded := match mode with ModeDecoded | ModeBoth => Some chan_new | ModeRaw => None end in
  let schema := if detailed_events || match decoded with Some _ => true | None => false end
                then Some schema_cache_new else None in
  mk_shared schema decoded raw 0 0 Waiting 0.
End Callback.

(** ** Invariants of the channels *)

Definition chan_ok {A} (capacity : nat) (c : chan A) : Prop :=
  sent c = received c ++ queue c /\ (length (queue c) <= capacity)%nat.

Definition opt_ok {A} (capacity : nat) (o : option (chan A)) : Prop :=
  match o with Some c => chan_ok capacity c | None => True end.

Definition refusals {A} (o : option (chan A)) : nat := match o with Some c => refused c | None => O end.
Definition offered {A} (c : chan A) : nat := (length (sent c) + refused c)%nat.
Definition taken {A} (o : option (chan A)) : nat := match o with Some c => length (received c) | None => O end.

Lemma try_send_ok {A} capacity (c : chan A) x :
  chan_ok capacity c -> chan_ok capacity (snd (try_send capacity c x)) /\
  offered (snd (try_send capacity c x)) = S (offered c) /\
  received (snd (try_send capacity c x)) = received c /\
  refused (snd (try_send capacity c x)) = (refused c + if fst (try_send capacity c x) then 0 else 1)%nat.
Proof.
  intros [Hs Hq]. unfold try_send, offered. destruct (length (queue c) <? capacity)%nat eqn:E; cbn.
  - apply Nat.ltb_lt in E. unfold chan_ok. cbn. rewrite Hs, !length_app. cbn.
    split_and!; [by rewrite app_assoc|lia..|done|lia].
  - split_and!; [done|lia|done|lia].
Qed.

Lemma try_recv_ok {A} capacity (c : chan A) x c' :
  chan_ok capacity c -> try_recv c = Some (x, c') ->
  chan_ok capacity c' /\ sent c' = sent c /\ refused c' = refused c /\
  length (received c') = S (length (received c)).
Proof.
  intros [Hs Hq] H. unfold try_recv in H. destruct (queue c) as [|y q] eqn:Eq; [done|].
  injection H as -> <-. unfold chan_ok. cbn in *. rewrite length_app, Hs. cbn.
  split_and!; [by rewrite <- app_assoc|lia|done|done|lia].
Qed.

Lemma wrap_succ a : wrap 64 (wrap 64 a + 1) = wrap 64 (a + 1).
Proof. unfold wrap. by rewrite Zplus_mod_idemp_l. Qed.

Section Invariant.
Context `{session_guids}.
Context (info : event_record -> option raw_event_info).
Context (maps : event_record -> list Z -> option raw_map_info).
Context (cx : context).

Definition pending (p : phase) : nat := match p with Sending _ _ => 1%nat | _ => O end.

Record session_inv (s : shared) : Prop := mk_session_inv {
  inv_raw : opt_ok (cx_capacity cx) (sh_raw s);
  inv_decoded : opt_ok (cx_capacity cx) (sh_decoded s);
  inv_dropped : sh_dropped s = wrap 64 (Z.of_nat (refusals (sh_raw s) + refusals (sh_decoded s)));
  inv_decoded_count : forall c, sh_decoded s = Some c -> offered c = sh_accepted s;
  inv_raw_count : forall c, sh_raw s = Some c -> sh_phase s <> Aborted ->
    (offered c + pending (sh_phase s) = sh_accepted s)%nat;
  inv_processed : 0 <= sh_processed s <= Z.of_nat (taken (sh_raw s) + taken (sh_decoded s)) }.

Lemma initial_inv mode detailed : session_inv (initial mode detailed).
Proof.
  unfold initial. destruct mode; constructor; cbn; try done; try lia; try (by intros ? [= <-]).
  all: split; [done|cbn; lia].
Qed.

Lemma send_or_drop_inv {A} (c : chan A) x dropped n :
  chan_ok (cx_capacity cx) c -> dropped = wrap 64 (Z.of_nat (refused c + n)) ->
  let '(c', dropped') := send_or_drop cx c x dropped in
  chan_ok (cx_capacity cx) c' /\ offered c' = S (offered c) /\ received c' = received c /\
  dropped' = wrap 64 (Z.of_nat (refused c' + n)).
Proof.
  intros Hc Hd. unfold send_or_drop. pose proof (try_send_ok (cx_capacity cx) c x Hc) as H'.
  destruct (try_send (cx_capacity cx) c x) as [ok c']. cbn in H'. destruct H' as (H1 & H2 & H3 & H4).
  split_and!; try done. rewrite H4, Hd. destruct ok; [do 2 f_equal; lia|].
  rewrite wrap_succ. f_equal. lia.
Qed.

Lemma callback_first_inv s r :
  session_inv s -> sh_phase s = Waiting -> session_inv (callback_first info maps cx s r).
Proof.
  intros Hs Hp. destruct Hs as [Hr Hd Hdr Hdc Hrc Hpr]. unfold callback_first.
  destruct (negb (accepts cx r)); [by constructor|].
  destruct (callback_fields info maps (sh_schema s) r) as [fields schema].
  rewrite Hp in Hrc. destruct (sh_decoded s) as [c|] eqn:Ed; cbn in Hd, Hdr, Hpr.
  - destruct (callback_decoded cx r fields) as [e|e|p].
    + pose proof (send_or_drop_inv c e (sh_dropped s) (refusals (sh_raw s)) Hd) as Hi.
      rewrite Nat.add_comm in Hdr. specialize (Hi Hdr).
      destruct (send_or_drop cx c e (sh_dropped s)) as [c' dropped']. destruct Hi as (H1 & H2 & H3 & H4).
      constructor; cbn; try done.
      * by rewrite Nat.add_comm.
      * intros ? [= <-]. rewrite H2. f_equal. by apply Hdc.
      * intros c0 Hc0 _. specialize (Hrc c0 Hc0 ltac:(done)). cbn in Hrc. lia.
      * by rewrite H3.
    + by constructor.
    + by constructor.
  - constructor; cbn; try done.
    intros c0 Hc0 _. specialize (Hrc c0 Hc0 ltac:(done)). cbn in Hrc. lia.
Qed.

Lemma callback_second_inv s r fields :
  session_inv s -> sh_phase s = Sending r fields -> session_inv (callback_second cx s r fields).
Proof.
  intros Hs Hp. destruct Hs as [Hr Hd Hdr Hdc Hrc Hpr]. unfold callback_second. rewrite Hp in Hrc.
  destruct (sh_raw s) as [c|] eqn:Er; cbn in Hr, Hdr, Hpr.
  - destruct (callback_raw cx r fields) as [e|e|p].
    + pose proof (send_or_drop_inv c e (sh_dropped s) (refusals (sh_decoded s)) Hr Hdr) as Hi.
      destruct (send_or_drop cx c e (sh_dropped s)) as [c' dropped']. destruct Hi as (H1 & H2 & H3 & H4).
      constructor; cbn; try done.
      * intros ? [= <-] _. rewrite H2. specialize (Hrc c eq_refl ltac:(done)). cbn in Hrc. lia.
      * by rewrite H3.
    + constructor; cbn; done.
    + constructor; cbn; done.
  - constructor; cbn; done.
Qed.

Lemma step_inv s s' : step info maps cx s s' -> session_inv s -> session_inv s'.
Proof.
  intros Hstep Hs. destruct Hstep as [s r Hp|s r fields Hp|s c x c' keep Hc Hx|s c x c' keep Hc Hx].
  - by apply callback_first_inv.
  - by apply callback_second_inv.
  - destruct Hs as [Hr Hd Hdr Hdc Hrc Hpr]. rewrite Hc in *. cbn in Hr.
    destruct (try_recv_ok _ c x c' Hr Hx) as (H1 & H2 & H3 & H4).
    constructor; cbn in *; try done.
    + by rewrite H3.
    + intros ? [= <-] Hn. unfold offered. rewrite H2, H3. by apply (Hrc c).
    + rewrite H4. destruct keep; lia.
  - destruct Hs as [Hr Hd Hdr Hdc Hrc Hpr]. rewrite Hc in *. cbn in Hd.
    destruct (try_recv_ok _ c x c' Hd Hx) as (H1 & H2 & H3 & H4).
    constructor; cbn in *; try done.
    + by rewrite H3.
    + intros ? [= <-]. unfold offered. rewrite H2, H3. by apply Hdc.
    + rewrite H4. destruct keep; lia.
Qed.

Lemma steps_inv s s' : steps info maps cx s s' -> session_inv s -> session_inv s'.
Proof. induction 1; [done|]. intros. eauto using step_inv. Qed.
End Invariant.

(** The whole callback is a run of its steps. *)
Lemma callback_steps `{session_guids} info maps cx s r :
  sh_phase s = Waiting -> steps info maps cx s (trace_callback_fn info maps cx s r).
Proof.
  intros Hp. unfold trace_callback_fn.
  eapply rtc_l; [by apply (step_first _ _ _ s r)|].
  destruct (sh_phase (callback_first info maps cx s r)) eqn:E; [apply rtc_refl| |apply rtc_refl].
  eapply rtc_l; [by apply step_second|apply rtc_refl].
Qed.

(** [C29] The channels under every interleaving of the callback and the
    consumer.  From the start of a session, at any time: a queue never
    exceeds the channel capacity; what was received followed by what is
    queued is exactly what was sent, in order, with nothing lost or doubled;
    every accepted record was either sent or counted as dropped on each
    enabled stream (the raw send of the record in progress excepted); and
    [events_dropped] is the number of refused sends on both streams, modulo
    2^64. *)
Theorem session_channels_correct `{session_guids} (info : event_record -> option raw_event_info)
    (maps : event_record -> list Z -> option raw_map_info) (cx : context) (mode : EventStreamMode)
    (detailed : bool) (s : shared)
    (Hcap : (1 <= cx_capacity cx)%nat) (Hs : steps info maps cx (initial mode detailed) s) :
  (forall c, sh_raw s = Some c ->
     (length (queue c) <= cx_capacity cx)%nat /\ sent c = received c ++ queue c /\
     (sh_phase s = Waiting -> (length (sent c) + refused c = sh_accepted s)%nat)) /\
  (forall c, sh_decoded s = Some c ->
     (length (queue c) <= cx_capacity cx)%nat /\ sent c = received c ++ queue c /\
     (length (sent c) + refused c = sh_accepted s)%nat) /\
  sh_dropped s = wrap 64 (Z.of_nat (refusals (sh_raw s) + refusals (sh_decoded s))).
Proof.
  apply steps_inv in Hs; [|apply initial_inv]. destruct Hs as [Hr Hd Hdr Hdc Hrc _].
  split_and!; [|intros c Hc|done].
  - intros c Hc. rewrite Hc in Hr. destruct Hr as [H1 H2]. split_and!; [done..|].
    intros Hp. specialize (Hrc c Hc). rewrite Hp in Hrc. specialize (Hrc ltac:(done)).
    cbn in Hrc. unfold offered in Hrc. lia.
  - rewrite Hc in Hd. destruct Hd as [H1 H2]. split_and!; [done..|]. by apply Hdc.
Qed.

Definition demo_guids : session_guids := {|
  session_providers := sample_guids;
  UdpIpGuid := mkGUID 0xbf3a50c5 0xa9c9 0x4988 [0xa0; 0x05; 0x2d; 0xf0; 0xb7; 0xc8; 0x0f; 0x80] |}.
Definition demo_context : context := mk_context None [] false false false 1 8.
Definition demo_record (data : list Z) : EVENT_RECORD :=
  mkEVENT_RECORD zero_guid 1 0 0 0 0x40 77 78 FILETIME_TO_UNIX_EPOCH data [] 0.

(** The second event is refused by a channel of capacity one. *)
Lemma session_channels_correct_witness :
  exists s, @steps demo_guids (fun _ => None) (fun _ _ => None) demo_context (initial ModeRaw false) s /\
    sh_dropped s = 1.
Proof.
  pose (run := fun s r => @trace_callback_fn demo_guids (fun _ => None) (fun _ _ => None) demo_context s r).
  pose (s2 := run (run (initial ModeRaw false) (demo_record [1])) (demo_record [2])).
  assert (@steps demo_guids (fun _ => None) (fun _ _ => None) demo_context (initial ModeRaw false) s2) as Hs.
  { unfold steps. etrans; apply (@callback_steps demo_guids); by vm_compute. }
  exists s2. split; [exact Hs|].
  destruct (@session_channels_correct demo_guids (fun _ => None) (fun _ _ => None) demo_context ModeRaw false s2
    ltac:(cbn; lia) Hs) as (_ & _ & Hd).
  rewrite Hd. by vm_compute.
Defined.

(** ** Batches *)

Section Batches.
Context `{session_guids}.
Context (info : event_record -> option raw_event_info).
Context (maps : event_record -> list Z -> option raw_map_info).
Context (cx : context).

Lemma with_raw_raw s c1 c2 m n : with_raw (with_raw s c1 m) c2 n = with_raw s c2 (m + n).
Proof. unfold with_raw. cbn. f_equal. lia. Qed.

Lemma drain_steps (filter : TraceEvent -> bool) q : forall s c,
  sh_raw s = Some c -> queue c = q ->
  steps info maps cx s
    (with_raw s (mk_chan [] (sent c) (received c ++ q) (refused c)) (zlen (List.filter filter q))).
Proof.
  induction q as [|x q IH]; intros s c Hs Hq.
  - rewrite app_nil_r. destruct s as [sc sd sr dr pr ph ac]. cbn in Hs. subst sr.
    destruct c as [q0 se re rf]. cbn in Hq. subst q0. unfold with_raw. cbn.
    rewrite Z.add_0_r. apply rtc_refl.
  - eapply rtc_l; [eapply (step_recv_raw _ _ _ s c x _ (filter x)); [done|unfold try_recv; by rewrite Hq]|].
    specialize (IH (with_raw s (mk_chan q (sent c) (received c ++ [x]) (refused c)) (if filter x then 1 else 0))
      _ eq_refl eq_refl). cbn [sent received refused] in IH.
    rewrite with_raw_raw, <- app_assoc in IH. cbn [app] in IH.
    assert (zlen (List.filter filter (x :: q)) =
      (if filter x then 1 else 0) + zlen (List.filter filter q)) as ->; [|exact IH].
    unfold zlen. cbn. destruct (filter x); cbn [length]; lia.
Qed.

(** A batch is a run of single receives: [next_batch_with_filter]
    returns the events of the queue that pass the filter, in the order they
    were sent, leaves the queue empty, adds their number to
    [events_processed], and reaches exactly the state that receiving them one
    by one reaches; with the raw stream disabled it fails and changes
    nothing. *)
Theorem next_batch_refines (filter : TraceEvent -> bool) (s : shared) :
  match sh_raw s with
  | None => next_batch_with_filter filter s =
      (Err (disabled "Raw event stream is disabled for this session"), s)
  | Some c => exists s', next_batch_with_filter filter s = (Ok (List.filter filter (queue c)), s') /\
      steps info maps cx s s' /\
      (exists c', sh_raw s' = Some c' /\ queue c' = [] /\ received c' = received c ++ queue c) /\
      sh_processed s' = sh_processed s + zlen (List.filter filter (queue c)) /\
      sh_decoded s' = sh_decoded s /\ sh_dropped s' = sh_dropped s
  end.
Proof.
  unfold next_batch_with_filter. destruct (sh_raw s) as [c|] eqn:Er; [|done]. cbn.
  eexists. split; [done|]. split; [by apply drain_steps|]. split_and!; try done. by eexists.
Qed.
End Batches.

(** ** Opcode drops refine a set of (class, opcode) pairs *)

Lemma land1_testbit a i : 0 <= i -> (Z.land (Z.shiftr a i) 1 =? 1) = Z.testbit a i.
Proof.
  intros Hi. change 1 with (Z.ones 1) at 1. rewrite Z.land_ones by lia.
  change (2 ^ 1) with 2. rewrite <- Z.bit0_mod, Z.shiftr_spec, Z.add_0_l by lia.
  by destruct (Z.testbit a i).
Qed.

Lemma length_set_bits ops words : length (fold_left set_bit ops words) = length words.
Proof.
  revert words. induction ops as [|op ops IH]; intros words; [done|]. cbn. rewrite IH.
  apply length_alter.
Qed.

Lemma set_bit_contains g words op op' :
  length words = 4%nat -> 0 <= op < 256 -> 0 <= op' < 256 ->
  drop_contains (mkOpcodeDrop g (set_bit words op)) op' =
  drop_contains (mkOpcodeDrop g words) op' || (op =? op').
Proof.
  intros Hl Hop Hop'. unfold drop_contains, set_bit. cbn [drop_words].
  pose proof (Z.div_mod op 64 ltac:(lia)). pose proof (Z.div_mod op' 64 ltac:(lia)).
  pose proof (Z.mod_pos_bound op 64 ltac:(lia)). pose proof (Z.mod_pos_bound op' 64 ltac:(lia)).
  assert (0 <= op / 64 < 4) by (split; [apply Z.div_pos; lia|apply Z.div_lt_upper_bound; lia]).
  assert (0 <= op' / 64 < 4) by (split; [apply Z.div_pos; lia|apply Z.div_lt_upper_bound; lia]).
  rewrite !land1_testbit by lia. rewrite !nth_lookup.
  destruct (decide (op / 64 = op' / 64)) as [E|E].
  - rewrite E. destruct (words !! Z.to_nat (op' / 64)) as [w|] eqn:Ew.
    2:{ apply lookup_ge_None in Ew. lia. }
    rewrite list_lookup_alter, decide_True, Ew by done.
    cbn [fmap option_fmap option_map default from_option id]. rewrite Z.lor_spec. f_equal. destruct (op =? op') eqn:Eo.
    + apply Z.eqb_eq in Eo as ->. rewrite Z.shiftl_spec, Z.sub_diag by lia. done.
    + apply Z.eqb_neq in Eo. rewrite Z.shiftl_1_l. apply Z.pow2_bits_false. lia.
  - rewrite list_lookup_alter, decide_False by lia. replace (op =? op') with false by (symmetry; apply Z.eqb_neq; congruence).
    by rewrite orb_false_r.
Qed.

Lemma set_opcodes_contains d ops op' :
  length (drop_words d) = 4%nat -> Forall (fun op => 0 <= op < 256) ops -> 0 <= op' < 256 ->
  drop_contains (set_opcodes d ops) op' = drop_contains d op' || bool_decide (op' ∈ ops).
Proof.
  intros Hl Hops Hop'. destruct d as [g words]. unfold set_opcodes. cbn [drop_class drop_words] in *.
  revert words Hl. induction Hops as [|op ops Hop _ IH]; intros words Hl; cbn [fold_left].
  - by rewrite bool_decide_eq_false_2, orb_false_r by apply not_elem_of_nil.
  - rewrite IH by (unfold set_bit; by rewrite length_alter). rewrite set_bit_contains by done.
    rewrite <- orb_assoc. f_equal. destruct (op =? op') eqn:E.
    + apply Z.eqb_eq in E as ->. cbn [orb]. symmetry. apply bool_decide_eq_true_2. left.
    + apply Z.eqb_neq in E. cbn. apply bool_decide_ext. rewrite elem_of_cons. naive_solver.
Qed.

(** Every entry of the builder has four words. *)
Definition drops_ok (drops : list OpcodeDrop) : Prop :=
  Forall (fun d => length (drop_words d) = 4%nat) drops.

Lemma set_opcodes_ok d ops : length (drop_words d) = 4%nat -> length (drop_words (set_opcodes d ops)) = 4%nat.
Proof. intros. cbn. by rewrite length_set_bits. Qed.

(** [drop_opcodes] adds exactly the given opcodes of the given class. *)
Lemma drop_opcodes_added (drops : list OpcodeDrop) (guid : GUID) (ops : list Z) :
  drops_ok drops -> Forall (fun op => 0 <= op < 256) ops ->
  drops_ok (drop_opcodes drops guid ops) /\
  forall g op, 0 <= op < 256 ->
    is_dropped (drop_opcodes drops guid ops) g op =
    is_dropped drops g op || (bool_decide (g = guid) && bool_decide (op ∈ ops)).
Proof.
  intros Hd Hops. unfold drop_opcodes. split; [|intros g op Hop].
  - destruct (position _ drops) as [i|].
    + clear Hops. revert i. induction Hd as [|d drops Hd Hds IH]; intros i; [by destruct i; constructor|].
      destruct i as [|i]; cbn; constructor; auto using set_opcodes_ok. apply IH.
    + apply Forall_app. split; [done|]. constructor; [|constructor]. by apply set_opcodes_ok.
  - destruct (position _ drops) as [i|] eqn:Ei.
    + revert i Ei. unfold is_dropped. induction Hd as [|d drops Hd _ IH]; intros i Ei; [done|].
      cbn [position] in Ei. case_bool_decide as Hg.
      * injection Ei as <-. cbn [alter list_alter existsb].
        rewrite set_opcodes_contains by done. cbn [drop_class set_opcodes].
        rewrite Hg, (bool_decide_ext (guid = g) (g = guid)) by naive_solver.
        destruct (bool_decide (g = guid)); cbn [andb]; [|by rewrite orb_false_r].
        destruct (drop_contains d op), (bool_decide (op ∈ ops)), (existsb _ drops); done.
      * apply fmap_Some in Ei as (j & Ej & ->). cbn [alter list_alter existsb].
        fold (alter (fun d => set_opcodes d ops) j drops). rewrite IH by done. apply orb_assoc.
    + unfold is_dropped. rewrite existsb_app. f_equal. cbn [existsb].
      rewrite set_opcodes_contains by done. cbn [drop_class set_opcodes].
      rewrite (bool_decide_ext (guid = g) (g = guid)) by naive_solver. rewrite orb_false_r. f_equal.
      assert (drop_contains (mkOpcodeDrop guid [0; 0; 0; 0]) op = false) as ->; [|done].
      unfold drop_contains. cbn [drop_words]. rewrite land1_testbit by (apply Z.mod_pos_bound; lia).
      destruct (Z.to_nat (op / 64)) as [|[|[|[|n]]]]; cbn [nth]; try apply Z.testbit_0_l.
      destruct n; apply Z.testbit_0_l.
Qed.

(** The drop list is a set: it starts empty, and [drop_opcodes] adds
    exactly the given opcodes for the given class, keeping what was there,
    so calls accumulate; the callback discards exactly the members.  Every
    opcode of a byte is covered. *)
Theorem drop_opcodes_spec (drops : list OpcodeDrop) (guid : GUID) (ops : list Z)
    (Hd : drops_ok drops) (Hops : Forall (fun op => 0 <= op < 256) ops) :
  drops_ok (drop_opcodes drops guid ops) /\
  (forall g op, is_dropped [] g op = false) /\
  forall g op, 0 <= op < 256 ->
    is_dropped (drop_opcodes drops guid ops) g op =
    is_dropped drops g op || (bool_decide (g = guid) && bool_decide (op ∈ ops)).
Proof. destruct (drop_opcodes_added drops guid ops Hd Hops) as [H1 H2]. by split_and!. Qed.

Lemma drop_opcodes_spec_witness :
  is_dropped (drop_opcodes [] zero_guid [10; 11; 255]) zero_guid 255 = true /\
  is_dropped (drop_opcodes [] zero_guid [10; 11; 255]) zero_guid 12 = false.
Proof.
  destruct (drop_opcodes_spec [] zero_guid [10; 11; 255]) as (_ & _ & H).
  - constructor.
  - repeat (apply Forall_cons; split; [lia|]). constructor.
  - split; (rewrite H by lia); by vm_compute.
Defined.
