(* ===== verification/EtwControl.v ===== *)
(** * EtwControl: starting and stopping a trace session

    [EventTraceBuilder::start], [EventTrace::stop] and
    [EventTrace::request_rundown] of src/etw/session.rs.  The ETW calls are
    parameters over an abstract machine; the state counts what the process
    owns: running sessions, [ProcessTrace] threads and callback contexts. *)

From Stdlib Require Import ZArith Lia String Ascii.
From stdpp Require Import base list strings gmap numbers sorting.
From S2P Require Import Prelude Text Unicode Errors EtwEvents EtwMap EtwSchema EtwSession.

Open Scope Z_scope.

(** ** The builder *)

Record UserProviderSpec := mkUserProviderSpec {
  up_guid : GUID; up_level : TraceLevel; up_match_any_keyword : Z }.

Record EventTraceBuilder := mkEventTraceBuilder {
  b_name : str;
  b_system_providers : list SystemProvider;
  b_user_providers : list UserProviderSpec;
  b_buffer_size : Z;
  b_min_buffers : Z;
  b_max_buffers : Z;
  b_flush_interval : Z;
  b_channel_capacity : nat;
  b_stream_mode : EventStreamMode;
  b_stack_traces : bool;
  b_thread_context : bool;
  b_detailed_events : bool;
  b_cpu_samples : bool;
  b_process_filter : list Z;
  b_opcode_drops : list OpcodeDrop;
  b_private_logger_guid : option GUID }.

(** [EventTrace::builder]. *)
Definition builder (name : str) : EventTraceBuilder :=
  mkEventTraceBuilder name [] [] 64 2 20 1 (Z.to_nat 10000) ModeRaw false false false false [] [] None.

(** ** Errors *)

Definition session_error (name reason : str) (code : option Z) : Error :=
  Error_Etw (EtwError_SessionStartFailed (mkEtwSessionError name reason code)).
Definition consume_error (reason : string) : Error :=
  Error_Etw (EtwError_ConsumeFailed (mkEtwConsumeError (lit reason) None)).

Definition MAX_SESSION_NAME_LEN : Z := 1024.

(** The checks at the top of [start], in order. *)
Definition validate (b : EventTraceBuilder) : option Error :=
  let name := b_name b in
  if decide (name = []) then Some (session_error [] (lit "Session name cannot be empty") None)
  else if MAX_SESSION_NAME_LEN <? zlen name
  then Some (session_error name (lit "Session name exceeds 1024 characters") None)
  else if bool_decide (b_system_providers b = []) && bool_decide (b_user_providers b = [])
  then Some (session_error name
         (lit "At least one system provider or user provider GUID must be specified") None)
  else if negb (bool_decide (b_system_providers b = [])) && negb (bool_decide (b_user_providers b = []))
  then Some (session_error name
         (lit "Invalid providers: Cannot mix kernel system providers with user-mode provider GUIDs in one session")
         None)
  else if b_max_buffers b <? b_min_buffers b
  then Some (session_error name
         (lit "min_buffers (" ++ fmt_dec (b_min_buffers b) ++ lit ") cannot exceed max_buffers (" ++
          fmt_dec (b_max_buffers b) ++ lit ")") None)
  else None.

(** ** The ETW calls *)

(** The fields of [EVENT_TRACE_PROPERTIES] that [start] sets from its
    input. *)
Record trace_properties := mk_trace_properties {
  tp_guid : GUID; tp_buffer_size : Z; tp_minimum_buffers : Z; tp_maximum_buffers : Z;
  tp_flush_timer : Z; tp_log_file_mode : Z; tp_enable_flags : Z }.

(** A status of 0 is [ERROR_SUCCESS].  A stop names its session by handle,
    or by name alone. *)
Class etw_api (W handle trace : Type) := {
  StartTraceW : W -> list Z -> trace_properties -> Z * handle * W;
  ControlTraceStop : W -> option handle -> list Z -> W;
  EnableTraceEx2 : W -> handle -> GUID -> Z -> Z -> Z * W;
  TraceSetInformation : W -> handle -> Z -> Z * W;
  OpenTraceW : W -> list Z -> option trace * W;
  CloseTrace : W -> trace -> W;
  CreateEventW : W -> option Z;
  guid_debug : GUID -> str }.

(** What this process owns.  A session that is stopped by its name alone (the
    stale one, on the retry of a start) is not counted off: it may be another
    process's; when it is one of our own, the [EventTrace] that holds its
    handle still counts it until it is stopped or dropped. *)
Record owned (W : Type) := mk_owned {
  os : W;
  running_sessions : Z;   (* started by this process, less those stopped by their handle *)
  trace_threads : Z;      (* threads inside [ProcessTrace] *)
  live_contexts : Z }.    (* callback contexts not yet freed *)
Arguments mk_owned {W}.
Arguments os {W}.
Arguments running_sessions {W}.
Arguments trace_threads {W}.
Arguments live_contexts {W}.

Record EventTrace (handle trace : Type) := mkEventTrace {
  et_name : str;
  et_session_handle : handle;
  et_trace_handle : option trace;
  et_started : bool;
  et_process_thread : bool;
  et_replaced_existing_session : bool;
  et_enable_flags : Z;
  et_context : context;
  et_shared : shared }.
Arguments mkEventTrace {handle trace}.
Arguments et_name {handle trace}.
Arguments et_session_handle {handle trace}.
Arguments et_trace_handle {handle trace}.
Arguments et_started {handle trace}.
Arguments et_process_thread {handle trace}.
Arguments et_replaced_existing_session {handle trace}.
Arguments et_enable_flags {handle trace}.
Arguments et_context {handle trace}.
Arguments et_shared {handle trace}.

Definition is_kernel_session (b : EventTraceBuilder) : bool :=
  negb (bool_decide (b_system_providers b = [])).

Definition session_config (b : EventTraceBuilder) : KernelSessionConfig :=
  match kernel_session_config (b_name b) (is_kernel_session b) (b_private_logger_guid b) with
  | Some c => c
  | None => mkKernelSessionConfig (b_name b) EVENT_TRACE_REAL_TIME_MODE zero_guid
  end.

Definition enable_flags_of (b : EventTraceBuilder) : Z :=
  if is_kernel_session b then fold_left (fun acc p => Z.lor acc (trace_flags p)) (b_system_providers b) 0
  else 0.

Definition properties_of (b : EventTraceBuilder) : trace_properties :=
  let c := session_config b in
  mk_trace_properties (ks_wnode_guid c) (b_buffer_size b) (b_min_buffers b) (b_max_buffers b)
    (b_flush_interval b) (ks_log_file_mode c) (enable_flags_of b).

Definition context_of (native : Z) (b : EventTraceBuilder) : context :=
  mk_context (normalize_process_filter (b_process_filter b)) (b_opcode_drops b) (b_thread_context b)
    (b_stack_traces b) (b_cpu_samples b) (b_channel_capacity b) native.

Section Control.
Context {W handle trace : Type} `{api : !etw_api W handle trace}.
Context (native : Z).
Abbreviation state := (owned W).

Definition set_os (s : state) (w : W) : state :=
  mk_owned w (running_sessions s) (trace_threads s) (live_contexts s).
Definition add_session (s : state) (n : Z) : state :=
  mk_owned (os s) (running_sessions s + n) (trace_threads s) (live_contexts s).

(** [status.0 as i32]. *)
Definition status_code (z : Z) : Z := if z <? 2 ^ 31 then z else z - 2 ^ 32.

(** One [StartTraceW]. *)
Definition call_start (s : state) (name_wide : list Z) (p : trace_properties) : Z * handle * state :=
  let '(status, h, w) := StartTraceW (os s) name_wide p in
  let s := set_os s w in
  (status, h, if status =? 0 then add_session s 1 else s).

(** Stop our own session by its handle. *)
Definition stop_own (s : state) (h : handle) (name_wide : list Z) : state :=
  add_session (set_os s (ControlTraceStop (os s) (Some h) name_wide)) (-1).

(** [StartTraceW] with the retry after an existing session of that name has
    been stopped. *)
Definition start_session (b : EventTraceBuilder) (s : state) : res Error (handle * bool) * state :=
  let session_name := ks_session_name (session_config b) in
  let name_wide := encode_utf16 session_name ++ [0] in
  let '(status, h, s) := call_start s name_wide (properties_of b) in
  if (status =? 183) && is_kernel_session b then
    let s := set_os s (ControlTraceStop (os s) None name_wide) in
    let '(retry, h, s) := call_start s name_wide (properties_of b) in
    if negb (retry =? 0)
    then (Err (session_error session_name
           (lit "Failed to start trace after stopping stale session") (Some (status_code retry))), s)
    else (Ok (h, true), s)
  else if negb (status =? 0)
  then (Err (session_error session_name (lit "Failed to start trace session") (Some (status_code status))), s)
  else (Ok (h, false), s).

Fixpoint enable_providers (ps : list UserProviderSpec) (h : handle) (name_wide : list Z) (s : state)
    : res Error unit * state :=
  match ps with
  | [] => (Ok tt, s)
  | p :: ps =>
      let '(status, w) :=
        EnableTraceEx2 (os s) h (up_guid p) (level_value (up_level p)) (up_match_any_keyword p) in
      let s := set_os s w in
      if negb (status =? 0)
      then (Err (Error_Etw (EtwError_ProviderEnableFailed
              (mkEtwProviderError (guid_debug (up_guid p)) (lit "Failed to enable user-mode ETW provider")
                 (Some (status_code status))))), stop_own s h name_wide)
      else enable_providers ps h name_wide s
  end.

(** From the context to the returned [EventTrace].  The callback context is
    allocated here and freed when the function returns an error; the stop
    signal is created last. *)
Definition open_and_run (b : EventTraceBuilder) (h : handle) (replaced : bool) (s : state)
    : res Error (EventTrace handle trace) * state :=
  let session_name := ks_session_name (session_config b) in
  let name_wide := encode_utf16 session_name ++ [0] in
  let '(opened, w) := OpenTraceW (os s) name_wide in
  let s := set_os s w in
  match opened with
  | None => (Err (consume_error "OpenTraceW failed"), stop_own s h name_wide)
  | Some t =>
      let s := mk_owned (os s) (running_sessions s) (trace_threads s + 1) (live_contexts s) in
      match CreateEventW (os s) with
      | Some code =>
          (Err (Error_Other (mkOtherError
             (lit "wait handle operation 'create' failed (error code: 0x" ++
              fmt_hex_pad 8 (wrap 32 code) ++ lit ")"))), s)
      | None =>
          (Ok (mkEventTrace session_name h (Some t) true true replaced (enable_flags_of b)
                 (context_of native b) (initial (b_stream_mode b) (b_detailed_events b))),
           mk_owned (os s) (running_sessions s) (trace_threads s) (live_contexts s + 1))
      end
  end.

Definition start (b : EventTraceBuilder) (s : state) : res Error (EventTrace handle trace) * state :=
  match validate b with
  | Some e => (Err e, s)
  | None =>
      match start_session b s with
      | (Ok (h, replaced), s) =>
          let name_wide := encode_utf16 (ks_session_name (session_config b)) ++ [0] in
          match (if is_kernel_session b then (Ok tt, s)
                 else enable_providers (b_user_providers b) h name_wide s) with
          | (Ok _, s) => open_and_run b h replaced s
          | (Err e, s) => (Err e, s)
          | (Panic p, s) => (Panic p, s)
          end
      | (Err e, s) => (Err e, s)
      | (Panic p, s) => (Panic p, s)
      end
  end.

(** ** [stop] and [request_rundown] *)

(** Signalling and joining always succeed or are ignored; after
    [CloseTrace] the [ProcessTrace] call returns, so the joined thread has
    ended. *)
Definition stop (t : EventTrace handle trace) (s : state) : EventTrace handle trace * state :=
  if negb (et_started t) then (t, s)
  else
    let s := stop_own s (et_session_handle t) (encode_utf16 (et_name t) ++ [0]) in
    let s := match et_trace_handle t with
             | Some tr => set_os s (CloseTrace (os s) tr)
             | None => s
             end in
    let s := if et_process_thread t
             then mk_owned (os s) (running_sessions s) (trace_threads s - 1) (live_contexts s) else s in
    (mkEventTrace (et_name t) (et_session_handle t) None false false
       (et_replaced_existing_session t) (et_enable_flags t) (et_context t) (et_shared t), s).

(** [Drop]: stop, then the fields are dropped, the callback context with
    them. *)
Definition drop_trace (t : EventTrace handle trace) (s : state) : state :=
  let '(_, s) := stop t s in
  mk_owned (os s) (running_sessions s) (trace_threads s) (live_contexts s - 1).

Definition rundown_error (t : EventTrace handle trace) (status : Z) : Error :=
  session_error (et_name t)
    (lit "TraceSetInformation(TraceSystemTraceEnableFlagsInfo) failed") (Some (status_code status)).

Definition request_rundown (t : EventTrace handle trace) (s : state) : res Error unit * state :=
  if et_enable_flags t =? 0
  then (Err (session_error (et_name t)
         (lit "A rundown needs a kernel session with system providers") None), s)
  else
    let '(status, w) := TraceSetInformation (os s) (et_session_handle t) 0 in
    let s := set_os s w in
    if negb (status =? 0) then (Err (rundown_error t status), s)
    else
      let '(status, w) := TraceSetInformation (os s) (et_session_handle t) (et_enable_flags t) in
      let s := set_os s w in
      if negb (status =? 0) then (Err (rundown_error t status), s) else (Ok tt, s).
End Control.

(** ** What [start] and [stop] own *)

(** An equation of triples of counters. *)
Ltac solve_counts := apply pair_equal_spec; split; [apply pair_equal_spec; split|]; lia.

Section Accounting.
Context {W handle trace : Type} `{api : !etw_api W handle trace}.
Context (native : Z).

(** The three counters. *)
Definition counts (s : owned W) : Z * Z * Z :=
  (running_sessions s, trace_threads s, live_contexts s).

Lemma call_start_counts s name p :
  let '(status, h, s') := call_start s name p in
  counts s' = (running_sessions s + (if status =? 0 then 1 else 0), trace_threads s, live_contexts s).
Proof.
  unfold call_start. destruct (StartTraceW _ _ _) as [[status h] w].
  destruct (status =? 0); unfold counts; cbn; solve_counts.
Qed.

Lemma start_session_counts b s :
  let '(r, s') := start_session b s in
  (exists h replaced, r = Ok (h, replaced) /\ (replaced = true -> is_kernel_session b = true) /\
     counts s' = (running_sessions s + 1, trace_threads s, live_contexts s)) \/
  (exists e, r = Err e /\ counts s' = counts s).
Proof.
  unfold start_session.
  pose proof (call_start_counts s (encode_utf16 (ks_session_name (session_config b)) ++ [0])
    (properties_of b)) as H1.
  destruct (call_start s _ _) as [[status h] s1].
  destruct ((status =? 183) && is_kernel_session b) eqn:E.
  - apply andb_true_iff in E as [E1 E2]. apply Z.eqb_eq in E1 as ->. cbn in H1.
    match goal with |- context [call_start ?s2 ?n ?p] => pose proof (call_start_counts s2 n p) as H2;
      destruct (call_start s2 n p) as [[retry h2] s3] end.
    unfold counts in *. cbn in *. injection H1 as Ha Hb Hc.
    destruct (retry =? 0); cbn; [left|right].
    + exists h2, true. split; [done|]. split; [done|]. rewrite H2. solve_counts.
    + eexists. split; [done|]. rewrite H2. solve_counts.
  - destruct (status =? 0); cbn in *; [left|right].
    + exists h, false. split; [done|]. split; [done|]. exact H1.
    + eexists. split; [done|]. rewrite H1. unfold counts. solve_counts.
Qed.

Lemma enable_providers_counts ps h name s :
  let '(r, s') := enable_providers ps h name s in
  (r = Ok tt /\ counts s' = counts s) \/
  (exists e, r = Err e /\ counts s' = (running_sessions s - 1, trace_threads s, live_contexts s)).
Proof.
  revert s. induction ps as [|p ps IH]; intros s; cbn [enable_providers]; [by left|].
  destruct (EnableTraceEx2 _ _ _ _ _) as [status w]. destruct (status =? 0); cbn [negb].
  - apply (IH (set_os s w)).
  - right. eexists. split; [done|]. unfold counts. cbn. done.
Qed.

(** The error of the last fallible call. *)
Definition wait_failed (e : Error) : Prop := exists m, e = Error_Other (mkOtherError m).

Lemma start_cases b s :
  let '(r, s') := start native b s in
  match r with
  | Ok t => validate b = None /\ et_started t = true /\ et_process_thread t = true /\
      (exists tr, et_trace_handle t = Some tr) /\
      et_name t = ks_session_name (session_config b) /\
      counts s' = (running_sessions s + 1, trace_threads s + 1, live_contexts s + 1)
  | Err e =>
      (validate b = Some e /\ s' = s) \/
      (validate b = None /\ counts s' = counts s) \/
      (validate b = None /\ wait_failed e /\
       counts s' = (running_sessions s + 1, trace_threads s + 1, live_contexts s))
  | Panic _ => False
  end.
Proof.
  unfold start. destruct (validate b) as [e|]; [by left|].
  pose proof (start_session_counts b s) as H1. destruct (start_session b s) as [r1 s1].
  destruct H1 as [(h & replaced & -> & _ & H1)|(e & -> & H1)]; [|right; by left].
  assert (exists r2 s2, (if is_kernel_session b then (Ok tt, s1) else
     enable_providers (b_user_providers b) h
       (encode_utf16 (ks_session_name (session_config b)) ++ [0]) s1) = (r2, s2) /\
     ((r2 = Ok tt /\ counts s2 = counts s1) \/ (exists e, r2 = Err e /\ counts s2 = counts s)))
     as (r2 & s2 & -> & H2).
  { destruct (is_kernel_session b); [eexists _, _; split; [done|]; by left|].
    pose proof (enable_providers_counts (b_user_providers b) h
      (encode_utf16 (ks_session_name (session_config b)) ++ [0]) s1) as H2.
    destruct (enable_providers _ _ _ _) as [r2 s2]. eexists _, _. split; [done|].
    destruct H2 as [H2|(e & -> & H2)]; [by left|right]. exists e. split; [done|].
    unfold counts in *. rewrite H2. injection H1 as -> -> ->. solve_counts. }
  destruct H2 as [(-> & H2)|(e & -> & H2)]; [|right; by left].
  rewrite H1 in H2. unfold counts in H2. injection H2 as Ha Hb Hc.
  unfold open_and_run. destruct (OpenTraceW _ _) as [[t|] w]; cbn.
  - destruct (CreateEventW w) as [code|]; cbn.
    + right; right. split; [done|]. split; [by eexists|]. unfold counts. cbn. by rewrite Ha, Hb, Hc.
    + split_and!; try done; [by eexists|]. unfold counts. cbn. by rewrite Ha, Hb, Hc.
  - right; left. split; [done|]. unfold counts. cbn. rewrite Ha, Hb, Hc. solve_counts.
Qed.

(** [C15] Starting a session.  An invalid configuration is rejected before
    any call is made.  A successful start owns exactly one more session, one
    thread and one callback context.  A failed start leaves no session
    behind, with one exception: when the stop event cannot be created, which
    happens after everything runs, the session and its thread stay while the
    callback context they point to is freed. *)
Theorem start_ownership (b : EventTraceBuilder) (s : owned W) :
  let '(r, s') := start native b s in
  match r with
  | Ok t => validate b = None /\ et_started t = true /\
      et_name t = ks_session_name (session_config b) /\
      counts s' = (running_sessions s + 1, trace_threads s + 1, live_contexts s + 1)
  | Err e =>
      (validate b = Some e /\ s' = s) \/
      (validate b = None /\ counts s' = counts s) \/
      (validate b = None /\ wait_failed e /\
       counts s' = (running_sessions s + 1, trace_threads s + 1, live_contexts s))
  | Panic _ => False
  end.
Proof.
  pose proof (start_cases b s) as H. destruct (start native b s) as [[t|e|p] s']; [|done..]. naive_solver.
Qed.

(** Stopping a session that [start] returned gives back the session and
    the thread, once: a second [stop] does nothing, and dropping the value
    gives back the rest, whether or not it was stopped before. *)
Theorem stop_releases_once (b : EventTraceBuilder) (s : owned W) (t : EventTrace handle trace) (s1 : owned W)
    (Hstart : start native b s = (Ok t, s1)) :
  let '(t2, s2) := stop t s1 in
  counts s2 = (running_sessions s, trace_threads s, live_contexts s + 1) /\
  stop t2 s2 = (t2, s2) /\
  counts (drop_trace t2 s2) = counts s /\ counts (drop_trace t s1) = counts s.
Proof.
  pose proof (start_cases b s) as H. rewrite Hstart in H. destruct H as (_ & Hs & Hp & (tr & Ht) & _ & Hc).
  unfold counts in *. injection Hc as Ha Hb Hl. unfold drop_trace, stop. rewrite Hs, Hp, Ht. cbn.
  rewrite Ha, Hb, Hl. split_and!; [solve_counts|done|solve_counts..].
Qed.
End Accounting.

(** A machine on which every call succeeds. *)
Definition demo_api : etw_api unit unit unit := {|
  StartTraceW := fun _ _ _ => (0, tt, tt);
  ControlTraceStop := fun _ _ _ => tt;
  EnableTraceEx2 := fun _ _ _ _ _ => (0, tt);
  TraceSetInformation := fun _ _ _ => (0, tt);
  OpenTraceW := fun _ _ => (Some tt, tt);
  CloseTrace := fun _ _ => tt;
  CreateEventW := fun _ => None;
  guid_debug := fun _ => [] |}.

Definition demo_builder : EventTraceBuilder :=
  mkEventTraceBuilder (lit "demo") [Process; Network] [] 64 2 20 1 1 ModeRaw false false false false [] [] None.

Lemma stop_releases_once_witness :
  let '(r, s1) := @start unit unit unit demo_api 8 demo_builder (mk_owned tt 0 0 0) in
  match r with
  | Ok t => counts (snd (@stop unit unit unit demo_api t s1)) = (0, 0, 1) /\ et_enable_flags t = 0x10001
  | _ => False
  end.
Proof.
  destruct (@start unit unit unit demo_api 8 demo_builder (mk_owned tt 0 0 0)) as [[t|e|p] s1] eqn:E;
    [|vm_compute in E; discriminate E..].
  pose proof (@stop_releases_once unit unit unit demo_api 8 demo_builder _ t s1 E) as H.
  destruct (@stop unit unit unit demo_api t s1) as [t2 s2]. split; [apply H|].
  vm_compute in E. injection E as <- _. reflexivity.
Defined.

(** Event timestamps.  For a file time from 1970 on, the conversion to
    [SystemTime] is exact to the 100 ns tick and never panics; for one more
    than a second before 1970 it panics. *)
Theorem filetime_exact (filetime : Z) (Hr : 0 <= filetime < 2 ^ 63) :
  (FILETIME_TO_UNIX_EPOCH <= filetime -> filetime_to_systemtime filetime = Ok filetime) /\
  (filetime <= FILETIME_TO_UNIX_EPOCH - 10000000 -> filetime_to_systemtime filetime = Panic TimeOverflow).
Proof.
  unfold filetime_to_systemtime, wrap.
  rewrite Z.max_l by (unfold FILETIME_TO_UNIX_EPOCH; lia).
  set (d := filetime - FILETIME_TO_UNIX_EPOCH). unfold FILETIME_TO_UNIX_EPOCH in *.
  assert (d = filetime - 116444736000000000) as Ed by done. clearbody d. split; intros H.
  - rewrite Z.quot_div_nonneg, Z.rem_mod_nonneg by lia.
    pose proof (Z.div_mod d 10000000 ltac:(lia)) as Hd.
    pose proof (Z.mod_pos_bound d 10000000 ltac:(lia)) as Hm.
    assert (0 <= d / 10000000) by (apply Z.div_pos; lia).
    rewrite !(Z.mod_small _ (2 ^ _)) by lia.
    rewrite (Z.div_small (_ * 100)), (Z.mod_small (_ * 100)) by lia.
    rewrite Z.div_mul by lia.
    replace (2 ^ 64 <=? _) with false by lia. replace (2 ^ 63 <=? _) with false by lia. f_equal. lia.
  - assert (Z.quot d 10000000 < 0 /\ - 2 ^ 63 < Z.quot d 10000000) as [Hq1 Hq2].
    { pose proof (Z.quot_rem d 10000000 ltac:(lia)).
      pose proof (Z.rem_nonpos d 10000000 ltac:(lia) ltac:(lia)).
      pose proof (Z.rem_bound_abs d 10000000 ltac:(lia)). lia. }
    assert ((Z.quot d 10000000) mod 2 ^ 64 = Z.quot d 10000000 + 2 ^ 64) as ->.
    { symmetry. apply (Z.mod_unique _ _ (-1)); lia. }
    set (n := (Z.rem d 10000000 * 100) mod 2 ^ 32).
    assert (0 <= n < 2 ^ 32) as Hn by (apply Z.mod_pos_bound; lia).
    assert (0 <= n / 1000000000) by (apply Z.div_pos; lia).
    assert (0 <= n mod 1000000000 / 100) by (apply Z.div_pos; [apply Z.mod_pos_bound|]; lia).
    destruct (2 ^ 64 <=? _); [done|]. by replace (2 ^ 63 <=? _) with true by lia.
Qed.

Lemma filetime_exact_witness : filetime_to_systemtime 133500000000000001 = Ok 133500000000000001.
Proof. apply (filetime_exact 133500000000000001); unfold FILETIME_TO_UNIX_EPOCH; lia. Defined.
