(* ===== verification/EtwBuilder.v ===== *)
(** * EtwBuilder: configuring and watching a trace session

    The setters of [EventTraceBuilder] and the status functions of
    [EventTrace] in src/etw/session.rs.  The builder itself and [start] are in
    [EtwControl]; [setting] is one call of a setter, so that a program's
    configuration is a list of settings. *)

From Stdlib Require Import ZArith Lia String Ascii.
From stdpp Require Import base list strings gmap numbers sorting.
From S2P Require Import Prelude Text Unicode Errors EtwEvents EtwMap EtwSchema EtwSession EtwControl.

Open Scope Z_scope.

(** ** The setters *)

Definition system_provider (b : EventTraceBuilder) (provider : SystemProvider) : EventTraceBuilder :=
  mkEventTraceBuilder (b_name b) (b_system_providers b ++ [provider]) (b_user_providers b) (b_buffer_size b) (b_min_buffers b)
    (b_max_buffers b) (b_flush_interval b) (b_channel_capacity b) (b_stream_mode b) (b_stack_traces b) (b_thread_context b)
    (b_detailed_events b) (b_cpu_samples b) (b_process_filter b) (b_opcode_drops b) (b_private_logger_guid b).
Definition private_system_logger (b : EventTraceBuilder) (guid : GUID) : EventTraceBuilder :=
  mkEventTraceBuilder (b_name b) (b_system_providers b) (b_user_providers b) (b_buffer_size b) (b_min_buffers b)
    (b_max_buffers b) (b_flush_interval b) (b_channel_capacity b) (b_stream_mode b) (b_stack_traces b) (b_thread_context b)
    (b_detailed_events b) (b_cpu_samples b) (b_process_filter b) (b_opcode_drops b) (Some guid).
Definition user_provider_with (b : EventTraceBuilder) (provider_guid : GUID) (level : TraceLevel) (match_any_keyword : Z)
    : EventTraceBuilder :=
  mkEventTraceBuilder (b_name b) (b_system_providers b)
    (b_user_providers b ++ [mkUserProviderSpec provider_guid level match_any_keyword]) (b_buffer_size b) (b_min_buffers b)
    (b_max_buffers b) (b_flush_interval b) (b_channel_capacity b) (b_stream_mode b) (b_stack_traces b) (b_thread_context b)
    (b_detailed_events b) (b_cpu_samples b) (b_process_filter b) (b_opcode_drops b) (b_private_logger_guid b).
Definition user_provider (b : EventTraceBuilder) (provider_guid : GUID) : EventTraceBuilder :=
  user_provider_with b provider_guid LevelVerbose (2 ^ 64 - 1).
Definition buffer_size (b : EventTraceBuilder) (size_kb : Z) : EventTraceBuilder :=
  mkEventTraceBuilder (b_name b) (b_system_providers b) (b_user_providers b) size_kb (b_min_buffers b)
    (b_max_buffers b) (b_flush_interval b) (b_channel_capacity b) (b_stream_mode b) (b_stack_traces b) (b_thread_context b)
    (b_detailed_events b) (b_cpu_samples b) (b_process_filter b) (b_opcode_drops b) (b_private_logger_guid b).
Definition min_buffers (b : EventTraceBuilder) (count : Z) : EventTraceBuilder :=
  mkEventTraceBuilder (b_name b) (b_system_providers b) (b_user_providers b) (b_buffer_size b) count
    (b_max_buffers b) (b_flush_interval b) (b_channel_capacity b) (b_stream_mode b) (b_stack_traces b) (b_thread_context b)
    (b_detailed_events b) (b_cpu_samples b) (b_process_filter b) (b_opcode_drops b) (b_private_logger_guid b).
Definition max_buffers (b : EventTraceBuilder) (count : Z) : EventTraceBuilder :=
  mkEventTraceBuilder (b_name b) (b_system_providers b) (b_user_providers b) (b_buffer_size b) (b_min_buffers b)
    count (b_flush_interval b) (b_channel_capacity b) (b_stream_mode b) (b_stack_traces b) (b_thread_context b)
    (b_detailed_events b) (b_cpu_samples b) (b_process_filter b) (b_opcode_drops b) (b_private_logger_guid b).
Definition flush_interval (b : EventTraceBuilder) (seconds : Z) : EventTraceBuilder :=
  mkEventTraceBuilder (b_name b) (b_system_providers b) (b_user_providers b) (b_buffer_size b) (b_min_buffers b)
    (b_max_buffers b) seconds (b_channel_capacity b) (b_stream_mode b) (b_stack_traces b) (b_thread_context b)
    (b_detailed_events b) (b_cpu_samples b) (b_process_filter b) (b_opcode_drops b) (b_private_logger_guid b).
Definition channel_capacity (b : EventTraceBuilder) (capacity : nat) : EventTraceBuilder :=
  mkEventTraceBuilder (b_name b) (b_system_providers b) (b_user_providers b) (b_buffer_size b) (b_min_buffers b)
    (b_max_buffers b) (b_flush_interval b) capacity (b_stream_mode b) (b_stack_traces b) (b_thread_context b)
    (b_detailed_events b) (b_cpu_samples b) (b_process_filter b) (b_opcode_drops b) (b_private_logger_guid b).
(** [with_decoded_stream] and [with_both_streams] store one mode each. *)
Definition with_mode (b : EventTraceBuilder) (mode : EventStreamMode) : EventTraceBuilder :=
  mkEventTraceBuilder (b_name b) (b_system_providers b) (b_user_providers b) (b_buffer_size b) (b_min_buffers b)
    (b_max_buffers b) (b_flush_interval b) (b_channel_capacity b) mode (b_stack_traces b) (b_thread_context b)
    (b_detailed_events b) (b_cpu_samples b) (b_process_filter b) (b_opcode_drops b) (b_private_logger_guid b).
Definition with_decoded_stream (b : EventTraceBuilder) : EventTraceBuilder := with_mode b ModeDecoded.
Definition with_both_streams (b : EventTraceBuilder) : EventTraceBuilder := with_mode b ModeBoth.
Definition with_stack_traces (b : EventTraceBuilder) : EventTraceBuilder :=
  mkEventTraceBuilder (b_name b) (b_system_providers b) (b_user_providers b) (b_buffer_size b) (b_min_buffers b)
    (b_max_buffers b) (b_flush_interval b) (b_channel_capacity b) (b_stream_mode b) true (b_thread_context b)
    (b_detailed_events b) (b_cpu_samples b) (b_process_filter b) (b_opcode_drops b) (b_private_logger_guid b).
Definition with_thread_context (b : EventTraceBuilder) : EventTraceBuilder :=
  mkEventTraceBuilder (b_name b) (b_system_providers b) (b_user_providers b) (b_buffer_size b) (b_min_buffers b)
    (b_max_buffers b) (b_flush_interval b) (b_channel_capacity b) (b_stream_mode b) (b_stack_traces b) true
    (b_detailed_events b) (b_cpu_samples b) (b_process_filter b) (b_opcode_drops b) (b_private_logger_guid b).
Definition with_detailed_events (b : EventTraceBuilder) : EventTraceBuilder :=
  mkEventTraceBuilder (b_name b) (b_system_providers b) (b_user_providers b) (b_buffer_size b) (b_min_buffers b)
    (b_max_buffers b) (b_flush_interval b) (b_channel_capacity b) (b_stream_mode b) (b_stack_traces b) (b_thread_context b)
    true (b_cpu_samples b) (b_process_filter b) (b_opcode_drops b) (b_private_logger_guid b).
Definition with_cpu_samples (b : EventTraceBuilder) : EventTraceBuilder :=
  mkEventTraceBuilder (b_name b) (b_system_providers b) (b_user_providers b) (b_buffer_size b) (b_min_buffers b)
    (b_max_buffers b) (b_flush_interval b) (b_channel_capacity b) (b_stream_mode b) (b_stack_traces b) (b_thread_context b)
    (b_detailed_events b) true (b_process_filter b) (b_opcode_drops b) (b_private_logger_guid b).
Definition with_process_filter (b : EventTraceBuilder) (pids : list Z) : EventTraceBuilder :=
  mkEventTraceBuilder (b_name b) (b_system_providers b) (b_user_providers b) (b_buffer_size b) (b_min_buffers b)
    (b_max_buffers b) (b_flush_interval b) (b_channel_capacity b) (b_stream_mode b) (b_stack_traces b) (b_thread_context b)
    (b_detailed_events b) (b_cpu_samples b) pids (b_opcode_drops b) (b_private_logger_guid b).
(** [drop_opcodes] of the builder, on the list of [EtwSession.drop_opcodes]. *)
Definition builder_drop_opcodes `{session_guids} (b : EventTraceBuilder) (class : KernelEventClass) (opcodes : list Z)
    : EventTraceBuilder :=
  mkEventTraceBuilder (b_name b) (b_system_providers b) (b_user_providers b) (b_buffer_size b) (b_min_buffers b)
    (b_max_buffers b) (b_flush_interval b) (b_channel_capacity b) (b_stream_mode b) (b_stack_traces b) (b_thread_context b)
    (b_detailed_events b) (b_cpu_samples b) (b_process_filter b) (drop_opcodes (b_opcode_drops b) (class_guid class) opcodes)
    (b_private_logger_guid b).

(** ** A configuration *)

Inductive setting :=
  | SetSystemProvider (provider : SystemProvider)
  | SetPrivateLogger (guid : GUID)
  | SetUserProvider (guid : GUID)
  | SetUserProviderWith (guid : GUID) (level : TraceLevel) (match_any_keyword : Z)
  | SetBufferSize (size_kb : Z)
  | SetMinBuffers (count : Z)
  | SetMaxBuffers (count : Z)
  | SetFlushInterval (seconds : Z)
  | SetChannelCapacity (capacity : nat)
  | SetDecodedStream
  | SetBothStreams
  | SetStackTraces
  | SetThreadContext
  | SetDetailedEvents
  | SetCpuSamples
  | SetDropOpcodes (class : KernelEventClass) (opcodes : list Z)
  | SetProcessFilter (pids : list Z).

Section Configured.
Context `{session_guids}.

Definition apply_setting (b : EventTraceBuilder) (s : setting) : EventTraceBuilder :=
  match s with
  | SetSystemProvider p => system_provider b p
  | SetPrivateLogger g => private_system_logger b g
  | SetUserProvider g => user_provider b g
  | SetUserProviderWith g l k => user_provider_with b g l k
  | SetBufferSize n => buffer_size b n
  | SetMinBuffers n => min_buffers b n
  | SetMaxBuffers n => max_buffers b n
  | SetFlushInterval n => flush_interval b n
  | SetChannelCapacity n => channel_capacity b n
  | SetDecodedStream => with_decoded_stream b
  | SetBothStreams => with_both_streams b
  | SetStackTraces => with_stack_traces b
  | SetThreadContext => with_thread_context b
  | SetDetailedEvents => with_detailed_events b
  | SetCpuSamples => with_cpu_samples b
  | SetDropOpcodes c ops => builder_drop_opcodes b c ops
  | SetProcessFilter pids => with_process_filter b pids
  end.
Definition configure (settings : list setting) (b : EventTraceBuilder) : EventTraceBuilder :=
  fold_left apply_setting settings b.

(** What a list of settings means: the last value of a kind, or the default. *)
Fixpoint last_of {A} (f : setting -> option A) (settings : list setting) (dflt : A) : A :=
  match settings with [] => dflt | s :: settings => last_of f settings (default dflt (f s)) end.

Definition filter_of (s : setting) : option (list Z) := match s with SetProcessFilter pids => Some pids | _ => None end.
Definition mode_of (s : setting) : option EventStreamMode :=
  match s with SetDecodedStream => Some ModeDecoded | SetBothStreams => Some ModeBoth | _ => None end.
Definition capacity_of (s : setting) : option nat := match s with SetChannelCapacity n => Some n | _ => None end.
Definition size_of (s : setting) : option Z := match s with SetBufferSize n => Some n | _ => None end.
Definition min_of (s : setting) : option Z := match s with SetMinBuffers n => Some n | _ => None end.
Definition max_of (s : setting) : option Z := match s with SetMaxBuffers n => Some n | _ => None end.
Definition flush_of (s : setting) : option Z := match s with SetFlushInterval n => Some n | _ => None end.
Definition system_of (s : setting) : option SystemProvider := match s with SetSystemProvider p => Some p | _ => None end.

Lemma configure_field {A} (get : EventTraceBuilder -> A) (f : setting -> option A) :
  (forall b s, get (apply_setting b s) = default (get b) (f s)) ->
  forall settings b, get (configure settings b) = last_of f settings (get b).
Proof.
  intros Hs settings. induction settings as [|s settings IH]; intros b; [done|]. cbn [configure fold_left last_of].
  rewrite <- Hs. apply (IH (apply_setting b s)).
Qed.

Lemma configure_systems settings b : b_system_providers (configure settings b) = b_system_providers b ++ omap system_of settings.
Proof.
  revert b. induction settings as [|s settings IH]; intros b; [by rewrite app_nil_r|]. cbn [configure fold_left].
  fold (configure settings (apply_setting b s)). rewrite IH. destruct s; cbn; by rewrite <- ?app_assoc.
Qed.

(** The opcodes of a setting are bytes. *)
Definition setting_ok (s : setting) : Prop :=
  match s with SetDropOpcodes _ ops => Forall (fun op => 0 <= op < 256) ops | _ => True end.
Definition drops (s : setting) (class : GUID) (opcode : Z) : bool :=
  match s with SetDropOpcodes c ops => bool_decide (class = class_guid c) && bool_decide (opcode ∈ ops) | _ => false end.

Lemma configure_drops settings b : Forall setting_ok settings -> drops_ok (b_opcode_drops b) ->
  forall g op, 0 <= op < 256 ->
    is_dropped (b_opcode_drops (configure settings b)) g op =
    is_dropped (b_opcode_drops b) g op || existsb (fun s => drops s g op) settings.
Proof.
  intros Hok. revert b. induction Hok as [|s settings Hs _ IH]; intros b Hd g op Hop; [by rewrite orb_false_r|].
  cbn [configure fold_left existsb]. fold (configure settings (apply_setting b s)).
  assert (drops_ok (b_opcode_drops (apply_setting b s)) /\
    is_dropped (b_opcode_drops (apply_setting b s)) g op = is_dropped (b_opcode_drops b) g op || drops s g op) as [Hd' He].
  { destruct s; cbn [apply_setting]; try (split; [exact Hd|cbn; by rewrite orb_false_r]).
    destruct (drop_opcodes_added (b_opcode_drops b) (class_guid class) opcodes Hd Hs) as [H1 H2]. split; [exact H1|]. by apply H2. }
  rewrite IH, He by done. by rewrite orb_assoc.
Qed.
End Configured.

(** ** A session is what its settings say *)

Section Started.
Context `{session_guids}.
Context {W handle trace : Type} `{api : !etw_api W handle trace}.
Context (native : Z).

(** The calls that gave a started session its handle [h]: [StartTraceW] of
    the machine [w], under [name] with the properties [p], or, after it
    reported ERROR_ALREADY_EXISTS and the session of that name was stopped,
    the same call again. *)
Definition started_with (w : W) (name : list Z) (p : trace_properties) (h : handle) : Prop :=
  fst (StartTraceW w name p) = (0, h) \/
  exists h0 w1, StartTraceW w name p = (183, h0, w1) /\ fst (StartTraceW (ControlTraceStop w1 None name) name p) = (0, h).

Lemma start_session_started b (s : owned W) h replaced s' : start_session b s = (Ok (h, replaced), s') ->
  started_with (os s) (encode_utf16 (ks_session_name (session_config b)) ++ [0]) (properties_of b) h.
Proof.
  unfold start_session, call_start, started_with. destruct (StartTraceW (os s) _ _) as [[status h1] w1] eqn:E1.
  destruct (_ && _) eqn:Eb.
  - apply andb_true_iff in Eb as [->%Z.eqb_eq _]. cbn [Z.eqb os set_os].
    destruct (StartTraceW (ControlTraceStop w1 _ _) _ _) as [[retry h2] w2] eqn:E2. cbn beta iota zeta.
    destruct (retry =? 0) eqn:Er; cbn [negb]; [|done]. apply Z.eqb_eq in Er as ->. intros [= <- _ _]. right.
    exists h1, w1. by rewrite E2.
  - cbn beta iota zeta. destruct (status =? 0) eqn:Er; cbn [negb]; [|done]. apply Z.eqb_eq in Er as ->.
    intros [= <- _ _]. by left.
Qed.

(** Only the last step of [start] succeeds. *)
Lemma start_ok b (s : owned W) t s' : start (trace := trace) native b s = (Ok t, s') ->
  validate b = None /\ et_context t = context_of native b /\ et_shared t = initial (b_stream_mode b) (b_detailed_events b) /\
  et_enable_flags t = enable_flags_of b /\
  started_with (os s) (encode_utf16 (et_name t) ++ [0]) (properties_of b) (et_session_handle t).
Proof.
  unfold start. destruct (validate b) as [e|]; [done|].
  destruct (start_session b s) as [[[h replaced]|e|x] s1] eqn:Es; [|done..]. apply start_session_started in Es.
  destruct (if is_kernel_session b then _ else _) as [[u|e|x] s2]; [|done..].
  unfold open_and_run. destruct (OpenTraceW (os s2) _) as [[tr|] w]; [|done].
  destruct (CreateEventW _); [done|]. by intros [= <- <-].
Qed.

(** The records a configuration selects. *)
Definition selects (settings : list setting) (r : EVENT_RECORD) : bool :=
  let pids := last_of filter_of settings [] in
  (bool_decide (pids = []) || bool_decide (rec_pid r ∈ pids)) &&
  negb (existsb (fun s => drops s (rec_provider r) (rec_opcode r)) settings).

Lemma accepts_selects name settings r : Forall setting_ok settings -> 0 <= rec_opcode r < 256 ->
  accepts (context_of native (configure settings (builder name))) r = selects settings r.
Proof.
  intros Hok Hr. unfold accepts, context_of, selects. cbn [cx_process_filter cx_opcode_drops].
  rewrite configure_drops by (done || constructor).
  rewrite (configure_field b_process_filter filter_of) by (by intros b' []). cbn [b_process_filter builder].
  cbn [b_opcode_drops builder is_dropped existsb orb]. f_equal.
  unfold normalize_process_filter. case_decide as E; [by rewrite bool_decide_eq_true_2 by done|].
  rewrite (bool_decide_eq_false_2 (_ = [])) by done. cbn [orb]. apply bool_decide_ext, elem_of_list_to_set.
Qed.

(** The enable flags are the union of the providers' flags. *)
Lemma flags_union ps acc i : 0 <= i ->
  Z.testbit (fold_left (fun acc p => Z.lor acc (trace_flags p)) ps acc) i =
  Z.testbit acc i || existsb (fun p => Z.testbit (trace_flags p) i) ps.
Proof.
  intros Hi. revert acc. induction ps as [|p ps IH]; intros acc; cbn [fold_left existsb]; [by rewrite orb_false_r|].
  by rewrite IH, Z.lor_spec, orb_assoc.
Qed.
Lemma enable_flags_bit b i : 0 <= i ->
  Z.testbit (enable_flags_of b) i = existsb (fun p => Z.testbit (trace_flags p) i) (b_system_providers b).
Proof.
  intros Hi. unfold enable_flags_of, is_kernel_session. case_bool_decide as E; cbn [negb].
  - by rewrite E, Z.testbit_0_l.
  - by rewrite flags_union, Z.testbit_0_l.
Qed.

Lemma flags_of_settings name settings i : 0 <= i ->
  Z.testbit (enable_flags_of (configure settings (builder name))) i = true <->
  exists q, SetSystemProvider q ∈ settings /\ Z.testbit (trace_flags q) i = true.
Proof.
  intros Hi. rewrite enable_flags_bit, configure_systems by done. cbn [b_system_providers builder app].
  rewrite existsb_exists. split.
  - intros (p & Hin & Hp). rewrite <- list_elem_of_In in Hin. apply list_elem_of_omap in Hin as (x & Hx & Hf).
    destruct x; try done. injection Hf as ->. by exists p.
  - intros (p & Hin & Hp). exists p. rewrite <- list_elem_of_In. split; [|done]. apply list_elem_of_omap. by eexists.
Qed.

(** [C26] A started session is what its settings say, in whatever order and
    however often they were made.  It hands on a record exactly when the last
    process filter is empty (or was never set) or names its process, and no
    [drop_opcodes] for its class lists its opcode.  The properties its handle
    was obtained with from [StartTraceW] enable a kernel flag exactly when
    some chosen provider has it, and carry the buffer size, the buffer counts
    and the flush interval set last; the flags the session records for later
    rundowns are those.  Streams and channel capacity are those set last. *)
Theorem session_follows_settings name (settings : list setting) (s : owned W) t s'
    (Hok : Forall setting_ok settings)
    (Hstart : start (trace := trace) native (configure settings (builder name)) s = (Ok t, s')) :
  (forall r, 0 <= rec_opcode r < 256 ->
     accepts (et_context t) r = true <->
     (let pids := last_of filter_of settings [] in pids = [] \/ rec_pid r ∈ pids) /\
     forall c ops, SetDropOpcodes c ops ∈ settings -> class_guid c = rec_provider r -> rec_opcode r ∉ ops) /\
  (exists p, started_with (os s) (encode_utf16 (et_name t) ++ [0]) p (et_session_handle t) /\
     (forall i, 0 <= i ->
        Z.testbit (tp_enable_flags p) i = true <->
        exists q, SetSystemProvider q ∈ settings /\ Z.testbit (trace_flags q) i = true) /\
     tp_buffer_size p = last_of size_of settings 64 /\ tp_minimum_buffers p = last_of min_of settings 2 /\
     tp_maximum_buffers p = last_of max_of settings 20 /\ tp_flush_timer p = last_of flush_of settings 1 /\
     et_enable_flags t = tp_enable_flags p) /\
  cx_capacity (et_context t) = last_of capacity_of settings (Z.to_nat 10000) /\
  (exists detailed, et_shared t = initial (last_of mode_of settings ModeRaw) detailed).
Proof.
  apply start_ok in Hstart as (_ & -> & -> & Hf & Hst). split_and!.
  - intros r Hr. rewrite accepts_selects by done. unfold selects. cbv zeta.
    rewrite andb_true_iff, negb_true_iff. f_equiv.
    + rewrite orb_true_iff, !bool_decide_eq_true. done.
    + rewrite <- not_true_iff_false, existsb_exists. split.
      * intros Hn c ops Hin Hc Hop. apply Hn. exists (SetDropOpcodes c ops). rewrite <- list_elem_of_In. split; [done|].
        cbn. by rewrite !bool_decide_eq_true_2.
      * intros Hn (x & Hin & Hd). rewrite <- list_elem_of_In in Hin. destruct x; try done. cbn in Hd.
        apply andb_true_iff in Hd as [Hc%bool_decide_eq_true Ho%bool_decide_eq_true]. by eapply Hn.
  - exists (properties_of (configure settings (builder name))). split; [done|]. split; [by apply flags_of_settings|].
    unfold properties_of. cbn [tp_buffer_size tp_minimum_buffers tp_maximum_buffers tp_flush_timer tp_enable_flags].
    split_and!; [| | | |done].
    + apply (configure_field b_buffer_size size_of). by intros b' [].
    + apply (configure_field b_min_buffers min_of). by intros b' [].
    + apply (configure_field b_max_buffers max_of). by intros b' [].
    + apply (configure_field b_flush_interval flush_of). by intros b' [].
  - unfold context_of. cbn [cx_capacity]. apply (configure_field b_channel_capacity capacity_of). by intros b' [].
  - eexists. f_equal. apply (configure_field b_stream_mode mode_of). by intros b' [].
Qed.
End Started.

Definition demo_settings : list setting :=
  [SetProcessFilter [7]; SetSystemProvider Network; SetBothStreams; SetDropOpcodes ClassTcpIp [10; 11];
   SetProcessFilter [4; 8]; SetDropOpcodes ClassTcpIp [26]; SetBufferSize 32].

Lemma session_follows_settings_witness :
  match fst (@start unit unit unit demo_api 8 (@configure demo_guids demo_settings (builder (lit "net"))) (mk_owned tt 0 0 0)) with
  | Ok t => Z.testbit (et_enable_flags t) 16 = true /\ cx_capacity (et_context t) = Z.to_nat 10000
  | _ => False
  end.
Proof.
  destruct (@start unit unit unit demo_api 8 (@configure demo_guids demo_settings (builder (lit "net")))
    (mk_owned tt 0 0 0)) as [[t|e|x] s1] eqn:E; cbn [fst]; [|vm_compute in E; discriminate E..].
  destruct (@session_follows_settings demo_guids unit unit unit demo_api 8 (lit "net") demo_settings (mk_owned tt 0 0 0) t s1)
    as (_ & (p & _ & Hf & _ & _ & _ & _ & ->) & Hc & _); [|exact E|].
  - repeat (apply Forall_cons; split; [cbn; try exact I; repeat (apply Forall_cons; split; [lia|]); constructor|]). constructor.
  - split; [|exact Hc]. apply Hf; [lia|]. exists Network. split; [|done]. right; left.
Defined.

(** ** Watching a session *)

Class etw_query_api (W handle : Type) := {
  ControlTraceQuery : W -> handle -> list Z -> Z * (Z * Z);   (** status, [EventsLost], [RealTimeBuffersLost] *)
  thread_finished : W -> bool }.                              (** of the [ProcessTrace] thread *)

Section Watching.
Context {W handle trace : Type} `{qapi : !etw_query_api W handle}.

Definition is_running (t : EventTrace handle trace) (w : W) : bool :=
  et_started t && (et_process_thread t && negb (thread_finished w)).

Definition saturating_add32 (a b : Z) : Z := Z.min (a + b) (2 ^ 32 - 1).
Definition events_lost (t : EventTrace handle trace) (w : W) : res Error Z :=
  let '(status, (lost, buffers_lost)) := ControlTraceQuery w (et_session_handle t) (encode_utf16 (et_name t) ++ [0]) in
  if negb (status =? 0)
  then Err (Error_Etw (EtwError_ConsumeFailed
         (mkEtwConsumeError (lit "Failed to query trace session loss statistics") (Some (status_code status)))))
  else Ok (saturating_add32 lost buffers_lost).

Definition events_dropped (t : EventTrace handle trace) : Z := sh_dropped (et_shared t).
Definition events_processed (t : EventTrace handle trace) : Z := sh_processed (et_shared t).
End Watching.

(** One round of [run_until_stopped]: what [is_signaled] answers, and the
    records the callback handles before the next round. *)
Record round := mkRound { signaled : res Error bool; during : list EVENT_RECORD }.

Section Running.
Context `{session_guids}.
Context (info : event_record -> option raw_event_info).
Context (maps : event_record -> list Z -> option raw_map_info).
Context (cx : context).

Definition callbacks (s : shared) (rs : list EVENT_RECORD) : shared := fold_left (trace_callback_fn info maps cx) rs s.

(** The result, the caller's buffer and the session. *)
Fixpoint run_until_stopped (rounds : list round) (s : shared) (out_events : list TraceEvent)
    : res Error unit * list TraceEvent * shared :=
  match rounds with
  | [] => (Panic OutOfFuel, out_events, s)
  | r :: rounds =>
      match signaled r with
      | Ok true => (Ok tt, [], s)
      | Ok false =>
          match next_batch s with
          | (Ok out, s) => run_until_stopped rounds (callbacks s (during r)) out
          | (Err e, s) => (Err e, [], s)
          | (Panic p, s) => (Panic p, [], s)
          end
      | Err e => (Err e, out_events, s)
      | Panic p => (Panic p, out_events, s)
      end
  end.

Lemma callback_keeps s r c : sh_raw s = Some c ->
  exists c', sh_raw (trace_callback_fn info maps cx s r) = Some c' /\ received c' = received c /\
    sh_processed (trace_callback_fn info maps cx s r) = sh_processed s.
Proof.
  intros Hc. assert (sh_raw (callback_first info maps cx s r) = sh_raw s /\
    sh_processed (callback_first info maps cx s r) = sh_processed s) as [E1 E2].
  { unfold callback_first. destruct (accepts cx r); [|done]. cbn [negb]. destruct (callback_fields _ _ _ _) as [f sc].
    destruct (sh_decoded s) as [d|]; [|done]. destruct (callback_decoded cx r f); [|done..]. by destruct (send_or_drop _ _ _ _). }
  unfold trace_callback_fn. destruct (sh_phase _) as [|r' f|]; [exists c; by rewrite E1| |exists c; by rewrite E1].
  unfold callback_second. rewrite E1, Hc. destruct (callback_raw cx r' f) as [e|e|x]; [|by exists c..].
  unfold send_or_drop, try_send. destruct (_ <? _)%nat; cbn; eexists; by split_and!.
Qed.
Lemma callbacks_keep rs s c : sh_raw s = Some c ->
  exists c', sh_raw (callbacks s rs) = Some c' /\ received c' = received c /\ sh_processed (callbacks s rs) = sh_processed s.
Proof.
  revert s c. induction rs as [|r rs IH]; intros s c Hc; [by exists c|]. cbn [callbacks fold_left].
  destruct (callback_keeps s r c Hc) as (c1 & H1 & H2 & H3). destruct (IH _ _ H1) as (c2 & H4 & H5 & H6).
  exists c2. unfold callbacks in *. by rewrite H5, H6.
Qed.

(** [run_until_stopped] ends at the round in which the stop signal is
    seen, for every number of rounds before it and whatever the callback does
    meanwhile: it succeeds with an empty buffer, so none of the events it took
    out of the channel reaches the caller, and it counts exactly those events
    as processed. *)
Theorem run_until_stopped_ends (rounds : list round) last (later : list round) (s : shared) c (out : list TraceEvent)
    (Hraw : sh_raw s = Some c) (Hrun : Forall (fun r => signaled r = Ok false) rounds) (Hlast : signaled last = Ok true) :
  exists s' c', run_until_stopped (rounds ++ last :: later) s out = (Ok tt, [], s') /\ sh_raw s' = Some c' /\
    exists taken, received c' = received c ++ taken /\ sh_processed s' = sh_processed s + zlen taken.
Proof.
  revert s c out Hraw. induction Hrun as [|r rounds Hr _ IH]; intros s c out Hraw; cbn [app run_until_stopped].
  - rewrite Hlast. exists s, c. split_and!; [done..|]. exists []. rewrite app_nil_r. split; [done|]. unfold zlen. cbn. lia.
  - rewrite Hr. unfold next_batch, next_batch_with_filter. rewrite Hraw. cbn [drain].
    set (s1 := with_raw s _ _). destruct (callbacks_keep (during r) s1 _ eq_refl) as (c2 & H2 & H3 & H4).
    destruct (IH (callbacks s1 (during r)) c2 (List.filter (fun _ => true) (queue c)) H2) as (s' & c' & E & Hc' & taken & Ht & Hp).
    exists s', c'. split_and!; [done..|]. exists (queue c ++ taken). rewrite Ht, Hp, H3, H4. cbn [received].
    rewrite <- app_assoc. split; [done|]. unfold s1, with_raw. cbn [sh_processed].
    rewrite filter_true. unfold zlen. rewrite length_app. lia.
Qed.
End Running.

Lemma run_until_stopped_ends_witness :
  exists s' c', run_until_stopped (H := demo_guids) (fun _ => None) (fun _ _ => None) demo_context
      [mkRound (Ok false) [demo_record [1]]; mkRound (Ok false) [demo_record [2]]; mkRound (Ok true) []] (initial ModeRaw false) []
    = (Ok tt, [], s') /\ sh_raw s' = Some c' /\
    exists taken, received c' = [] ++ taken /\ sh_processed s' = 0 + zlen taken.
Proof.
  refine (@run_until_stopped_ends demo_guids (fun _ => None) (fun _ _ => None) demo_context
    [mkRound (Ok false) [demo_record [1]]; mkRound (Ok false) [demo_record [2]]] (mkRound (Ok true) []) []
    (initial ModeRaw false) chan_new [] eq_refl _ eq_refl).
  repeat constructor.
Defined.
