(* ===== verification/EtwPipeline.v ===== *)
(** * EtwPipeline: a trace session from its settings to its events

    The composition of the builder ([EtwBuilder]), the start of a session
    ([EtwControl]), the callback, its channels and the consumer ([EtwSession])
    and the schema cache ([EtwSchema]).  The steps of a session are given
    labels, so that what Windows delivered and what the consumer took can be
    read off a run; [lossy] is the abstract specification of a stream. *)

From Stdlib Require Import ZArith Lia String Ascii.
From stdpp Require Import base list strings gmap numbers sorting.
From S2P Require Import Prelude Text Unicode Errors EtwEvents EtwDecode EtwMap EtwSchema EtwSession EtwControl EtwBuilder.

Open Scope Z_scope.

(** ** Events decoded after the fact (src/etw/types.rs, src/etw/decode/mod.rs)

    [None] of [from_event_record] is the event without parsed fields, which
    the public constructor makes. *)
Definition from_event_record (native : Z) (r : EVENT_RECORD) : res none TraceEvent :=
  from_event_record_with_fields native r None.
Definition fields (e : TraceEvent) : option (list EventField) := te_fields e.
Definition decode_trace_event `{provider_guids} (e : TraceEvent) : res none DecodedEvent :=
  decode_from_record_parts (te_provider e) (te_version e) (te_opcode e) (te_pointer_size e) (te_data e) (fields e).
Definition decode `{provider_guids} (e : TraceEvent) : res none DecodedEvent := decode_trace_event e.

(** ** The specification of a stream

    [lossy conv rs out lost]: the inputs [rs] were offered one after another;
    each was converted, and either appended to [out] or lost. *)
Inductive lossy {O A} (conv : O -> A -> Prop) : list O -> list A -> nat -> Prop :=
  | lossy_nil : lossy conv [] [] 0
  | lossy_kept rs out lost r x : lossy conv rs out lost -> conv r x -> lossy conv (rs ++ [r]) (out ++ [x]) lost
  | lossy_lost rs out lost r x : lossy conv rs out lost -> conv r x -> lossy conv (rs ++ [r]) out (S lost).

(** What comes out was offered, in the same order. *)
Lemma lossy_sublist {O A} (conv : O -> A -> Prop) rs out lost : lossy conv rs out lost ->
  exists kept, kept `sublist_of` rs /\ Forall2 conv kept out /\ (length kept + lost = length rs)%nat.
Proof.
  induction 1 as [|rs out lost r x _ (kept & Hs & Hf & Hl) Hx|rs out lost r x _ (kept & Hs & Hf & Hl) Hx].
  - by exists [].
  - exists (kept ++ [r]). rewrite !length_app. split_and!; [by apply sublist_app| |cbn; lia].
    apply Forall2_app; [done|]. by constructor.
  - exists kept. rewrite length_app. split_and!; [by apply sublist_inserts_r|done|cbn; lia].
Qed.

(** With nothing lost, everything comes out. *)
Lemma lossy_lossless {O A} (conv : O -> A -> Prop) rs out lost :
  lossy conv rs out lost -> lost = 0%nat -> Forall2 conv rs out.
Proof. induction 1; intros E; [constructor| |done]. apply Forall2_app; [auto|]. by constructor. Qed.

(** No more is lost than was offered. *)
Lemma lossy_lost_bound {O A} (conv : O -> A -> Prop) rs out lost : lossy conv rs out lost -> (lost <= length rs)%nat.
Proof. intros (kept & _ & _ & Hl)%lossy_sublist. lia. Qed.

(** ** Runs and what one sees of them *)

Inductive label :=
  | Delivered (r : EVENT_RECORD)      (* Windows calls the callback *)
  | Resumed                           (* the callback goes on after the decoded send *)
  | TookRaw (e : TraceEvent)          (* the consumer receives an event *)
  | TookDecoded (e : DecodedEvent).

Definition delivered (l : label) : option EVENT_RECORD := match l with Delivered r => Some r | _ => None end.
Definition raw_taken (l : label) : option TraceEvent := match l with TookRaw e => Some e | _ => None end.
Definition decoded_taken (l : label) : option DecodedEvent := match l with TookDecoded e => Some e | _ => None end.

(** Which streams a mode has, and whether its sessions parse fields. *)
Definition raw_on (mode : EventStreamMode) : bool := match mode with ModeDecoded => false | _ => true end.
Definition decoded_on (mode : EventStreamMode) : bool := match mode with ModeRaw => false | _ => true end.
Definition detailed_of (s : setting) : option bool := match s with SetDetailedEvents => Some true | _ => None end.

Section Pipeline.
Context `{session_guids}.
Context (info : event_record -> option raw_event_info).
Context (maps : event_record -> list Z -> option raw_map_info).
Context (cx : context).

Inductive lstep : shared -> label -> shared -> Prop :=
  | lstep_first s r :
      sh_phase s = Waiting -> lstep s (Delivered r) (callback_first info maps cx s r)
  | lstep_second s r fields :
      sh_phase s = Sending r fields -> lstep s Resumed (callback_second cx s r fields)
  | lstep_recv_raw s c x c' (keep : bool) :
      sh_raw s = Some c -> try_recv c = Some (x, c') ->
      lstep s (TookRaw x) (with_raw s c' (if keep then 1 else 0))
  | lstep_recv_decoded s c x c' (keep : bool) :
      sh_decoded s = Some c -> try_recv c = Some (x, c') ->
      lstep s (TookDecoded x) (with_decoded s c' (if keep then 1 else 0)).

Inductive run : shared -> list label -> shared -> Prop :=
  | run_nil s : run s [] s
  | run_snoc s ls s1 l s2 : run s ls s1 -> lstep s1 l s2 -> run s (ls ++ [l]) s2.

(** The labels are those of the steps, no more and no fewer. *)
Lemma lstep_step s s' : step info maps cx s s' <-> exists l, lstep s l s'.
Proof.
  split; [intros []; eexists; by econstructor|]. intros (l & Hl).
  destruct Hl; [by apply step_first|by apply step_second|by eapply step_recv_raw|by eapply step_recv_decoded].
Qed.
Lemma run_steps s ls s' : run s ls s' -> steps info maps cx s s'.
Proof.
  induction 1 as [|s ls s1 l s2 _ IH Hl]; [apply rtc_refl|]. eapply rtc_r; [exact IH|]. apply lstep_step. by exists l.
Qed.
Lemma run_one s l s' : lstep s l s' -> run s [l] s'.
Proof. intros Hl. apply (run_snoc s [] s); [constructor|done]. Qed.
Lemma run_app s ls1 s1 ls2 s2 : run s ls1 s1 -> run s1 ls2 s2 -> run s (ls1 ++ ls2) s2.
Proof.
  intros H1 H2. revert H1. induction H2 as [s1|s1 ls2 s2 l s3 _ IH Hl]; intros H1; [by rewrite app_nil_r|].
  rewrite app_assoc. eapply run_snoc; [by apply IH|done].
Qed.

(** The calls of the two threads are runs. *)
Lemma callback_run s r : sh_phase s = Waiting -> accepts cx r = true ->
  sh_phase (callback_first info maps cx s r) <> Aborted ->
  run s [Delivered r; Resumed] (trace_callback_fn info maps cx s r).
Proof.
  intros Hp Ha Hn. apply (run_app s [Delivered r] (callback_first info maps cx s r) [Resumed]);
    [by apply run_one, lstep_first|]. apply run_one.
  unfold trace_callback_fn, callback_first in *. rewrite Ha in *. cbn [negb] in *.
  destruct (callback_fields _ _ _ _) as [f sc]. destruct (sh_decoded s) as [d|]; [|by apply lstep_second].
  destruct (callback_decoded cx r f); [|done..]. destruct (send_or_drop _ _ _ _). by apply lstep_second.
Qed.
Lemma batch_run s c : sh_raw s = Some c ->
  exists s', next_batch s = (Ok (queue c), s') /\ run s (TookRaw <$> queue c) s'.
Proof.
  intros Hc. unfold next_batch, next_batch_with_filter. rewrite Hc. cbn [drain]. rewrite filter_true.
  eexists. split; [done|]. remember (queue c) as q eqn:Hq. symmetry in Hq. revert s c Hc Hq.
  induction q as [|x q IH]; intros s c Hc Hq.
  - rewrite app_nil_r. destruct s, c. cbn in *. subst. unfold with_raw. cbn. rewrite Z.add_0_r. constructor.
  - apply (run_app s [TookRaw x] (with_raw s (mk_chan q (sent c) (received c ++ [x]) (refused c)) 1)).
    { apply run_one. eapply (lstep_recv_raw s c x _ true); [done|]. unfold try_recv. by rewrite Hq. }
    specialize (IH (with_raw s (mk_chan q (sent c) (received c ++ [x]) (refused c)) 1) _ eq_refl eq_refl).
    rewrite with_raw_raw in IH. cbn in IH. rewrite <- app_assoc in IH.
    by replace (zlen (x :: q)) with (1 + zlen q) by (unfold zlen; cbn [length]; lia).
Qed.

(** ** Every stream is a lossy channel *)

(** The records a session accepted, each with the fields the caching parser
    returned for it; [schema] says whether the session parses fields at all. *)
Definition schema_fields (schema : bool) (rs : list EVENT_RECORD) : list (option (list EventField)) :=
  if schema then parse_session info maps schema_cache_new (schema_record <$> rs) else replicate (length rs) None.
Definition offered (schema : bool) (rs : list EVENT_RECORD) : list (EVENT_RECORD * option (list EventField)) :=
  zip rs (schema_fields schema rs).

(** The event a record becomes on each stream. *)
Definition raw_event (o : EVENT_RECORD * option (list EventField)) (e : TraceEvent) : Prop :=
  callback_raw cx (fst o) (snd o) = Ok e.
Definition decoded_event (o : EVENT_RECORD * option (list EventField)) (e : DecodedEvent) : Prop :=
  callback_decoded cx (fst o) (snd o) = Ok e.

(** The cache after the records [rs], and the fields of the next one. *)
Definition cache_after (schema : bool) (rs : list EVENT_RECORD) : option SchemaCache :=
  if schema then Some (session_cache info maps schema_cache_new (schema_record <$> rs)) else None.

Lemma offered_snoc schema rs r :
  offered schema (rs ++ [r]) =
  offered schema rs ++ [(r, fst (callback_fields info maps (cache_after schema rs) r))].
Proof.
  unfold offered, schema_fields, cache_after. destruct schema.
  - rewrite fmap_app. cbn [fmap list_fmap]. rewrite parse_session_snoc, zip_with_app by (by rewrite parse_session_length, length_fmap).
    cbn. by destruct (parse_event_fields _ _ _ _).
  - rewrite length_app, replicate_add, zip_with_app by (by rewrite length_replicate). done.
Qed.

Lemma cache_after_snoc schema rs r :
  snd (callback_fields info maps (cache_after schema rs) r) = cache_after schema (rs ++ [r]).
Proof.
  unfold cache_after. destruct schema; [|done]. cbn. unfold session_cache. rewrite fmap_app, fold_left_app. cbn.
  by destruct (parse_event_fields _ _ _ _).
Qed.

Lemma offered_length schema rs : length (offered schema rs) = length rs.
Proof.
  unfold offered, schema_fields. rewrite length_zip_with. destruct schema;
    rewrite ?parse_session_length, ?length_fmap, ?length_replicate; lia.
Qed.

(** What an optional stream did with the records offered to it. *)
Definition stream {O A} (conv : O -> A -> Prop) (rs : list O) (o : option (chan A)) : Prop :=
  match o with Some c => lossy conv rs (sent c) (refused c) | None => True end.
Definition got {A} (o : option (chan A)) : list A := match o with Some c => received c | None => [] end.

Definition accepted (ls : list label) : list EVENT_RECORD := List.filter (accepts cx) (omap delivered ls).

(** The raw stream is one record behind while the callback is in between its
    two sends. *)
Definition raw_stream (schema : bool) (rs : list EVENT_RECORD) (s : shared) : Prop :=
  match sh_phase s with
  | Waiting => stream raw_event (offered schema rs) (sh_raw s)
  | Sending r fields =>
      exists before, offered schema rs = before ++ [(r, fields)] /\ stream raw_event before (sh_raw s)
  | Aborted => True
  end.

Record pipe_inv (schema : bool) (ls : list label) (s : shared) : Prop := mk_pipe_inv {
  pi_schema : sh_schema s = cache_after schema (accepted ls);
  pi_decoded : sh_phase s <> Aborted -> stream decoded_event (offered schema (accepted ls)) (sh_decoded s);
  pi_raw : raw_stream schema (accepted ls) s;
  pi_got_raw : got (sh_raw s) = omap raw_taken ls;
  pi_got_decoded : got (sh_decoded s) = omap decoded_taken ls }.

Lemma accepted_snoc ls l :
  accepted (ls ++ [l]) = accepted ls ++ match delivered l with Some r => if accepts cx r then [r] else [] | None => [] end.
Proof.
  unfold accepted. rewrite omap_app, List.filter_app. f_equal. by destruct l.
Qed.

Lemma accepted_length ls : (length (accepted ls) <= length (omap delivered ls))%nat.
Proof. apply filter_length_le. Qed.

Lemma send_stream {O A} (conv : O -> A -> Prop) rs c r x dropped :
  lossy conv rs (sent c) (refused c) -> conv r x ->
  stream conv (rs ++ [r]) (Some (fst (send_or_drop cx c x dropped))) /\
  received (fst (send_or_drop cx c x dropped)) = received c.
Proof.
  intros Hl Hx. unfold send_or_drop, try_send. destruct (_ <? _)%nat; cbn; split; try done.
  - by apply lossy_kept.
  - by eapply lossy_lost.
Qed.

Lemma first_pipe schema ls s r : sh_phase s = Waiting -> pipe_inv schema ls s ->
  pipe_inv schema (ls ++ [Delivered r]) (callback_first info maps cx s r).
Proof.
  intros Hp [H1 H2 H3 H4 H5]. unfold raw_stream in H3. rewrite Hp in *. specialize (H2 ltac:(done)).
  unfold callback_first. destruct (accepts cx r) eqn:Ea; cbn [negb].
  2: { constructor; rewrite ?accepted_snoc, ?omap_app; cbn; rewrite ?Ea, ?app_nil_r; try done.
       unfold raw_stream. by rewrite Hp. }
  pose proof (offered_snoc schema (accepted ls) r) as Hf. pose proof (cache_after_snoc schema (accepted ls) r) as Hs.
  rewrite <- H1 in Hf, Hs. destruct (callback_fields info maps (sh_schema s) r) as [fields sc]. cbn in Hf, Hs.
  destruct (sh_decoded s) as [c|].
  2: { constructor; rewrite ?accepted_snoc, ?omap_app; cbn; rewrite ?Ea, ?app_nil_r; try done. by eauto. }
  destruct (callback_decoded cx r fields) as [e|e|x] eqn:Ed.
  - destruct (send_stream decoded_event _ c (r, fields) e (sh_dropped s) H2 Ed) as [Hst Hg].
    destruct (send_or_drop cx c e (sh_dropped s)) as [c' d]. cbn in Hst, Hg.
    constructor; rewrite ?accepted_snoc, ?omap_app; cbn; rewrite ?Ea, ?app_nil_r, ?Hf; try done; [by eauto|by rewrite Hg].
  - constructor; rewrite ?accepted_snoc, ?omap_app; cbn; rewrite ?Ea, ?app_nil_r; done.
  - constructor; rewrite ?accepted_snoc, ?omap_app; cbn; rewrite ?Ea, ?app_nil_r; done.
Qed.

Lemma second_pipe schema ls s r fields : sh_phase s = Sending r fields -> pipe_inv schema ls s ->
  pipe_inv schema (ls ++ [Resumed]) (callback_second cx s r fields).
Proof.
  intros Hp [H1 H2 H3 H4 H5]. unfold raw_stream in H3. rewrite Hp in *. specialize (H2 ltac:(done)).
  destruct H3 as (before & Hb & Hst). unfold callback_second. destruct (sh_raw s) as [c|].
  2: { constructor; rewrite ?accepted_snoc, ?omap_app; cbn; rewrite ?app_nil_r; done. }
  destruct (callback_raw cx r fields) as [e|e|x] eqn:Ed.
  - destruct (send_stream raw_event _ c (r, fields) e (sh_dropped s) Hst Ed) as [Hst' Hg].
    destruct (send_or_drop cx c e (sh_dropped s)) as [c' d]. cbn in Hst', Hg.
    constructor; rewrite ?accepted_snoc, ?omap_app; unfold raw_stream; cbn; rewrite ?app_nil_r; try done;
      [by rewrite Hb|by rewrite Hg].
  - constructor; rewrite ?accepted_snoc, ?omap_app; cbn; rewrite ?app_nil_r; done.
  - constructor; rewrite ?accepted_snoc, ?omap_app; cbn; rewrite ?app_nil_r; done.
Qed.

Lemma recv_fields {A} (c c' : chan A) x : try_recv c = Some (x, c') ->
  sent c' = sent c /\ refused c' = refused c /\ received c' = received c ++ [x].
Proof. unfold try_recv. destruct (queue c); [done|]. by intros [= -> <-]. Qed.

Lemma lstep_pipe schema ls s l s' : lstep s l s' -> pipe_inv schema ls s -> pipe_inv schema (ls ++ [l]) s'.
Proof.
  intros [s0 r Hp|s0 r fields Hp|s0 c x c' keep Hc Hx|s0 c x c' keep Hc Hx] Hi;
    [by apply first_pipe|by apply second_pipe|..];
    apply recv_fields in Hx as (E1 & E2 & E3); destruct Hi as [H1 H2 H3 H4 H5]; unfold raw_stream in *; rewrite Hc in *;
    constructor; rewrite ?accepted_snoc, ?omap_app; unfold raw_stream; cbn in *; rewrite ?app_nil_r, ?E1, ?E2, ?E3; try done.
  - by rewrite H4.
  - by rewrite H5.
Qed.

Lemma initial_pipe mode detailed :
  pipe_inv (detailed || decoded_on mode) [] (initial mode detailed).
Proof.
  destruct mode, detailed; constructor; cbn; try done; try (intros _); try constructor.
Qed.

Lemma run_pipe schema s0 ls s : run s0 ls s -> pipe_inv schema [] s0 -> pipe_inv schema ls s.
Proof. induction 1 as [|s ls s1 l s2 _ IH Hl]; [done|]. eauto using lstep_pipe. Qed.

(** No step opens or closes a stream. *)
Definition enabled {A} (o : option (chan A)) : bool := match o with Some _ => true | None => false end.
Lemma run_enabled s0 ls s : run s0 ls s -> enabled (sh_raw s) = enabled (sh_raw s0) /\ enabled (sh_decoded s) = enabled (sh_decoded s0).
Proof.
  induction 1 as [|s ls s3 l s2 _ [<- <-] Hl]; [done|].
  destruct Hl as [s1 r Hp|s1 r fields Hp|s1 c x c' keep Hc Hx|s1 c x c' keep Hc Hx]; cbn; rewrite ?Hc; try done.
  - unfold callback_first. destruct (accepts cx r); [|done]. cbn [negb]. destruct (callback_fields _ _ _ _) as [f sc].
    destruct (sh_decoded s1) as [c|]; [|done]. destruct (callback_decoded cx r f); [|done..].
    by destruct (send_or_drop _ _ _ _).
  - unfold callback_second. destruct (sh_raw s1) as [c|]; [|done]. destruct (callback_raw cx r fields); [|done..].
    by destruct (send_or_drop _ _ _ _).
Qed.

(** What a stream holds, from the two invariants. *)
Lemma stream_delivers {O A} (conv : O -> A -> Prop) rs o taken :
  stream conv rs o -> got o = taken -> opt_ok (cx_capacity cx) o ->
  match o with Some c => lossy conv rs (taken ++ queue c) (refused c) | None => taken = [] end.
Proof. destruct o as [c|]; cbn; [|done]. intros Hl <- [<- _]. done. Qed.

(** The state of both streams whenever the callback is idle. *)
Lemma run_streams mode detailed ls s (schema := detailed || decoded_on mode) :
  run (initial mode detailed) ls s -> sh_phase s = Waiting ->
  sh_dropped s = wrap 64 (Z.of_nat (refusals (sh_raw s) + refusals (sh_decoded s))) /\
  enabled (sh_raw s) = raw_on mode /\ enabled (sh_decoded s) = decoded_on mode /\
  match sh_raw s with
  | Some c => lossy raw_event (offered schema (accepted ls)) (omap raw_taken ls ++ queue c) (refused c)
  | None => omap raw_taken ls = []
  end /\
  match sh_decoded s with
  | Some c => lossy decoded_event (offered schema (accepted ls)) (omap decoded_taken ls ++ queue c) (refused c)
  | None => omap decoded_taken ls = []
  end.
Proof.
  intros Hrun Hidle. destruct (run_enabled _ _ _ Hrun) as [Er Ed].
  destruct (steps_inv _ _ _ _ _ (run_steps _ _ _ Hrun) (initial_inv _ _ _)) as [Ir Id Hd _ _ _].
  destruct (run_pipe _ _ _ _ Hrun (initial_pipe mode detailed)) as [_ Hsd Hsr Hgr Hgd].
  unfold raw_stream in Hsr. rewrite Hidle in *.
  apply (stream_delivers _ _ _ _ Hsr Hgr) in Ir. apply (stream_delivers _ _ _ _ (Hsd ltac:(done)) Hgd) in Id.
  split_and!; try done; [rewrite Er; by destruct mode|rewrite Ed; by destruct mode].
Qed.

(** An event keeps everything its decoding needs. *)
Lemma decode_raw r f e : callback_raw cx r f = Ok e -> decode e = callback_decoded cx r f.
Proof.
  unfold callback_raw, from_event_record_with_fields. destruct (filetime_to_systemtime _); cbn [res_bind]; [|done..].
  by intros [= <-].
Qed.

(** When nothing was lost, the raw stream and the decoded stream describe the
    same records. *)
Lemma lossless_agree rs raw dec :
  Forall2 raw_event rs raw -> Forall2 decoded_event rs dec -> decode <$> raw = Ok <$> dec.
Proof.
  intros Hr. revert dec. induction Hr as [|r e rs raw He _ IH]; intros dec Hd; inversion Hd as [|? d ? ds Hx Hxs]; subst; [done|].
  cbn. f_equal; [|by apply IH]. rewrite <- Hx. by apply decode_raw.
Qed.

(** [C34] Decoding later gives what the session decoded.  In a session with both
    streams, however the callback and the consumer interleave: once the
    callback is idle and [events_dropped] reads zero (and fewer than 2^63
    records were delivered, so the counter has not wrapped), calling [decode]
    on every event of the raw stream, taken or still in the channel, gives
    exactly the events of the decoded stream, in the same order. *)
Theorem decode_later_agrees detailed (ls : list label) (s : shared)
    (Hrun : run (initial ModeBoth detailed) ls s) (Hidle : sh_phase s = Waiting)
    (Hdropped : sh_dropped s = 0) (Hcount : 2 * zlen (omap delivered ls) < 2 ^ 64) :
  exists next_raw next_decoded, fst (next_batch s) = Ok next_raw /\ fst (next_batch_decoded s) = Ok next_decoded /\
    decode <$> (omap raw_taken ls ++ next_raw) = Ok <$> (omap decoded_taken ls ++ next_decoded).
Proof.
  apply run_streams in Hrun as (Hd & Er & Ed & Hr & Hdec); [|done].
  unfold next_batch, next_batch_with_filter, next_batch_decoded, next_batch_decoded_with_filter.
  destruct (sh_raw s) as [c|]; [|done]. destruct (sh_decoded s) as [d|]; [|done].
  pose proof (accepted_length ls) as Hl. rewrite <- (offered_length (detailed || decoded_on ModeBoth)) in Hl. pose proof (lossy_lost_bound _ _ _ _ Hr). pose proof (lossy_lost_bound _ _ _ _ Hdec).
  rewrite Hdropped in Hd. cbn [refusals] in Hd. unfold zlen, wrap in *. rewrite Z.mod_small in Hd by lia.
  exists (queue c), (queue d). cbn [drain fst]. rewrite !filter_true. split_and!; [done..|].
  eapply lossless_agree; (eapply lossy_lossless; [eassumption|lia]).
Qed.
End Pipeline.

(** ** From the settings to the events *)

Section Delivered.
Context `{session_guids}.
Context {W handle trace : Type} `{api : !etw_api W handle trace}.
Context (native : Z).
Context (info : event_record -> option raw_event_info).
Context (maps : event_record -> list Z -> option raw_map_info).

(** [C3] A session delivers what its settings ask for.  Start a session from
    any settings and let the callback and the consumer interleave in any way.
    Whenever the callback is idle, the events the consumer has taken from the
    raw stream followed by those its next batch returns are the conversions of
    the records that the settings select, in the order Windows delivered them
    and none twice, except for some records that were lost; the same holds of
    the decoded stream; and [events_dropped] is the number of losses on both
    (modulo 2^64).  The fields of an event are those the caching parser returns
    for its record when it parses the selected records one after another,
    starting from an empty cache (which answers of TDH these are is the
    theorem on the schema cache), or none when the settings do not ask for
    fields.  A stream that was not asked for yields nothing and its batches
    fail. *)
Theorem session_delivers name (settings : list setting) (o o' : owned W) (t : EventTrace handle trace) (ls : list label) (s : shared)
    (Hok : Forall setting_ok settings)
    (Hstart : start native (configure settings (builder name)) o = (Ok t, o'))
    (Hrun : run info maps (et_context t) (et_shared t) ls s)
    (Hops : Forall (fun r => 0 <= rec_opcode r < 256) (omap delivered ls))
    (Hidle : sh_phase s = Waiting) :
  let mode := last_of mode_of settings ModeRaw in
  let schema := last_of detailed_of settings false || decoded_on mode in
  let rs := List.filter (selects settings) (omap delivered ls) in
  exists lost_raw lost_decoded : nat,
    sh_dropped s = wrap 64 (Z.of_nat (lost_raw + lost_decoded)) /\
    (if raw_on mode
     then exists next, fst (next_batch s) = Ok next /\
       lossy (raw_event (et_context t)) (offered info maps schema rs) (omap raw_taken ls ++ next) lost_raw
     else omap raw_taken ls = [] /\ lost_raw = 0%nat /\
       fst (next_batch s) = Err (disabled "Raw event stream is disabled for this session")) /\
    (if decoded_on mode
     then exists next, fst (next_batch_decoded s) = Ok next /\
       lossy (decoded_event (et_context t)) (offered info maps schema rs) (omap decoded_taken ls ++ next) lost_decoded
     else omap decoded_taken ls = [] /\ lost_decoded = 0%nat /\
       fst (next_batch_decoded s) = Err (disabled "Decoded event stream is disabled for this session")).
Proof.
  intros mode schema rs. apply start_ok in Hstart as (_ & Hcx & Hsh & _).
  rewrite (configure_field b_stream_mode mode_of), (configure_field b_detailed_events detailed_of) in Hsh by (by intros b' []).
  rewrite Hsh in Hrun. apply run_streams in Hrun as (Hd & Er & Ed & Hr & Hdec); [|done..].
  assert (accepted (et_context t) ls = rs) as Hrs.
  { apply filter_ext_in. intros r Hin. rewrite Hcx. apply accepts_selects; [done|].
    rewrite Forall_forall in Hops. apply Hops. by apply list_elem_of_In. }
  rewrite Hrs in *. exists (refusals (sh_raw s)), (refusals (sh_decoded s)). split; [exact Hd|].
  change (enabled (sh_raw s) = raw_on mode) in Er. change (enabled (sh_decoded s) = decoded_on mode) in Ed.
  rewrite <- Er, <- Ed.
  unfold next_batch, next_batch_with_filter, next_batch_decoded, next_batch_decoded_with_filter.
  destruct (sh_raw s) as [c|], (sh_decoded s) as [d|]; cbn in *; rewrite ?filter_true; eauto 10.
Qed.
End Delivered.

(** Two records of the selected process and one of another; the channel holds
    one event, so the second is lost. *)
Lemma session_delivers_witness :
  let settings := [SetUserProvider zero_guid; SetProcessFilter [77]; SetChannelCapacity 1; SetDetailedEvents] in
  match fst (@start unit unit unit demo_api 8 (@configure demo_guids settings (builder (lit "net"))) (mk_owned tt 0 0 0)) with
  | Ok t =>
      let s := fold_left (@trace_callback_fn demo_guids (fun _ => Some demo_mapped_info) (fun _ _ => Some (demo_map 65)) (et_context t))
                 [demo_record [5]; demo_record [6]] (et_shared t) in
      sh_dropped s = 1 /\
      exists lost_raw next, fst (next_batch s) = Ok next /\
        lossy (raw_event (et_context t))
          [(demo_record [5], Some [mkEventField [] (Val_String [65])]); (demo_record [6], Some [mkEventField [] (Val_U8 6)])]
          next lost_raw
  | _ => False
  end.
Proof.
  intros settings. destruct (@start unit unit unit demo_api 8 (@configure demo_guids settings (builder (lit "net")))
    (mk_owned tt 0 0 0)) as [[t|e|x] o'] eqn:E; cbv beta iota delta [fst]; [|vm_compute in E; discriminate E..].
  intros s. split.
  { destruct (start_ok 8 _ _ _ _ E) as (_ & Ec & Es & _). subst s. rewrite Ec, Es. by vm_compute. }
  destruct (@session_delivers demo_guids unit unit unit demo_api 8 (fun _ => Some demo_mapped_info) (fun _ _ => Some (demo_map 65))
    (lit "net") settings (mk_owned tt 0 0 0) o' t
    ([Delivered (demo_record [5]); Resumed] ++ [Delivered (demo_record [6]); Resumed]) s) as (lost_raw & lost_decoded & _ & Hr & _).
  - repeat constructor.
  - exact E.
  - destruct (start_ok 8 _ _ _ _ E) as (_ & Ec & Es & _). subst s. rewrite Ec, Es.
    cbn [fold_left]. set (s1 := trace_callback_fn _ _ _ (initial _ _) _).
    apply (run_app _ _ _ _ _ s1); (apply callback_run; [vm_compute; reflexivity|vm_compute; reflexivity|vm_compute; discriminate]).
  - repeat (apply Forall_cons; split; [by vm_compute|]). constructor.
  - destruct (start_ok 8 _ _ _ _ E) as (_ & Ec & Es & _). subst s. rewrite Ec, Es. by vm_compute.
  - destruct Hr as (next & Hn & Hl). exists lost_raw, next. split; [exact Hn|]. exact Hl.
Defined.

Lemma decode_later_agrees_witness :
  let cx := mk_context None [] false false false 2 8 in
  let s := fold_left (@trace_callback_fn demo_guids (fun _ => Some demo_mapped_info) (fun _ _ => Some (demo_map 65)) cx)
             [demo_record [5]; demo_record [6]] (initial ModeBoth false) in
  exists next_raw next_decoded, fst (next_batch s) = Ok next_raw /\ fst (next_batch_decoded s) = Ok next_decoded /\
    @decode (@session_providers demo_guids) <$> next_raw = Ok <$> next_decoded /\ length next_raw = 2%nat.
Proof.
  intros cx s.
  destruct (@decode_later_agrees demo_guids (fun _ => Some demo_mapped_info) (fun _ _ => Some (demo_map 65)) cx
    false ([Delivered (demo_record [5]); Resumed] ++ [Delivered (demo_record [6]); Resumed]) s)
    as (next_raw & next_decoded & H1 & H2 & H3).
  - subst s. cbn [fold_left]. set (s1 := trace_callback_fn _ _ _ (initial _ _) _).
    apply (run_app _ _ _ _ _ s1); (apply callback_run; [vm_compute; reflexivity|vm_compute; reflexivity|vm_compute; discriminate]).
  - by vm_compute.
  - by vm_compute.
  - by vm_compute.
  - exists next_raw, next_decoded. split_and!; [exact H1|exact H2|exact H3|].
    vm_compute in H1. injection H1 as <-. by vm_compute.
Defined.
