(* ===== verification/Pe.v ===== *)
(** * Pe: PE file analysis

    src/file/pe.rs up to its tests, and the three hash functions of
    src/crypto/mod.rs it calls.  The analysis is pure; [BCryptHash] is a
    parameter.  File offsets are 64-bit [usize] sums of at most a handful of
    values below [2^32], so they are exact; the two sums the source makes on
    [u32] ([raw_offset + (rva - virtual_address)], and the sums of
    [checksum_of]) keep their width with [add_w]. *)

From Stdlib Require Import ZArith Lia String Ascii.
From stdpp Require Import base list strings gmap numbers sorting.
From S2P Require Import Prelude Text Unicode Errors.

Open Scope Z_scope.

(** ** Constants *)

Definition IMAGE_DOS_SIGNATURE := 0x5A4D.
Definition E_LFANEW_OFFSET := 0x3C.
Definition IMAGE_NT_SIGNATURE := 0x00004550.
Definition FILE_HEADER_SIZE := 20.
Definition NUMBER_OF_SECTIONS_OFFSET := 2.
Definition SIZE_OF_OPTIONAL_HEADER_OFFSET := 16.
Definition MAGIC_PE32 := 0x10b.
Definition MAGIC_PE32_PLUS := 0x20b.
Definition CHECKSUM_OFFSET := 0x40.
Definition RVA_COUNT_OFFSET_PE32 := 0x5C.
Definition RVA_COUNT_OFFSET_PE32_PLUS := 0x6C.
Definition DATA_DIRECTORY_OFFSET_PE32 := 0x60.
Definition DATA_DIRECTORY_OFFSET_PE32_PLUS := 0x70.
Definition DATA_DIRECTORY_ENTRY_SIZE := 8.
Definition DIRECTORY_IMPORT := 1.
Definition DIRECTORY_COM_DESCRIPTOR := 14.
Definition SECTION_HEADER_SIZE := 40.
Definition IMPORT_DESCRIPTOR_SIZE := 20.
Definition IMAGE_ORDINAL_FLAG32 := 0x80000000.
Definition IMAGE_ORDINAL_FLAG64 := 0x8000000000000000.
Definition MAX_IMPORTS_PER_DLL : nat := 4096.
Definition MAX_IMPORT_DESCRIPTORS : nat := 4096.
Definition MAX_LEN : nat := 512.

(** ** Data *)

(** [struct Import]. *)
Record Import := mkImport {
  imp_dll : str;
  imp_symbol : str }.

(** [struct Section]. *)
Record PeSection := mkPeSection {
  virtual_address : Z;
  virtual_size : Z;
  raw_offset : Z;
  raw_size : Z }.

Record PeHeaders := mkPeHeaders {
  is_64bit : bool;
  checksum_offset : Z;
  number_of_rva_and_sizes : Z;
  data_directory_offset : Z;
  pe_sections : list PeSection }.

Record PeAnalysis := mkPeAnalysis {
  pa_sha256 : list Z;
  pa_sha1 : list Z;
  pa_md5 : list Z;
  pa_imphash : option (list Z);
  pa_imported_dlls : list str;
  pa_is_64bit : bool;
  pa_is_dotnet : bool;
  pa_has_overlay : bool;
  pa_checksum_mismatch : bool }.

(** ** Reading the bytes *)

Definition u16_at (bytes : list Z) (offset : Z) : option Z := le_decode <$> slice_get bytes offset 2.
Definition u32_at (bytes : list Z) (offset : Z) : option Z := le_decode <$> slice_get bytes offset 4.
Definition u64_at (bytes : list Z) (offset : Z) : option Z := le_decode <$> slice_get bytes offset 8.

Definition read_c_string (bytes : list Z) (offset : Z) : option str :=
  if offset <=? zlen bytes then
    let slice := drop (Z.to_nat offset) bytes in
    match position (Z.eqb 0) (take MAX_LEN slice) with
    | Some e => Some (from_utf8_lossy (take e slice))
    | None => None
    end
  else None.

Definition strip_extension (name : str) : str :=
  match rsplit_once 46 name with Some (stem, _) => stem | None => name end.

Definition imphash_input (imports : list Import) : str :=
  join (lit ",") ((fun i => strip_extension (imp_dll i) ++ lit "." ++ imp_symbol i) <$> imports).

(** [seen] is the hash set; it holds the names of [out]. *)
Fixpoint dedup_loop (imports : list Import) (seen : gset str) (out : list str) : list str :=
  match imports with
  | [] => out
  | i :: imports =>
      if decide (imp_dll i ∈ seen) then dedup_loop imports seen out
      else dedup_loop imports ({[ imp_dll i ]} ∪ seen) (out ++ [imp_dll i])
  end.

Definition dedup_dll_names (imports : list Import) : list str := dedup_loop imports ∅ [].

Definition parse_error (reason : str) : Error :=
  Error_InvalidParameter (mkInvalidParameterError (lit "pe_bytes") reason).

(** ** PeHeaders::parse *)

(** The loop [for i in 0..number_of_sections]. *)
Fixpoint parse_sections (bytes : list Z) (section_table_offset : Z) (i : Z) (n : nat)
    : res Error (list PeSection) :=
  match n with
  | O => Ok []
  | S n =>
      let base := section_table_offset + i * SECTION_HEADER_SIZE in
      let! vs := ok_or (u32_at bytes (base + 8)) (parse_error (lit "truncated section table")) in
      let! va := ok_or (u32_at bytes (base + 12)) (parse_error (lit "truncated section table")) in
      let! rs := ok_or (u32_at bytes (base + 16)) (parse_error (lit "truncated section table")) in
      let! ro := ok_or (u32_at bytes (base + 20)) (parse_error (lit "truncated section table")) in
      let! rest := parse_sections bytes section_table_offset (i + 1) n in
      Ok (mkPeSection va vs ro rs :: rest)
  end.

Definition parse_magic (magic : Z) : res Error bool :=
  if magic =? MAGIC_PE32 then Ok false
  else if magic =? MAGIC_PE32_PLUS then Ok true
  else Err (parse_error (lit "unrecognized optional header magic")).

Definition pe_parse (bytes : list Z) : res Error PeHeaders :=
  if negb (bool_decide (u16_at bytes 0 = Some IMAGE_DOS_SIGNATURE))
  then Err (parse_error (lit "missing MZ (DOS) signature"))
  else
  let! e_lfanew := ok_or (u32_at bytes E_LFANEW_OFFSET) (parse_error (lit "truncated DOS header")) in
  if negb (bool_decide (u32_at bytes e_lfanew = Some IMAGE_NT_SIGNATURE))
  then Err (parse_error (lit "missing PE signature"))
  else
  let file_header_offset := e_lfanew + 4 in
  let! number_of_sections := ok_or (u16_at bytes (file_header_offset + NUMBER_OF_SECTIONS_OFFSET))
                                   (parse_error (lit "truncated file header")) in
  let! size_of_optional_header :=
    ok_or (u16_at bytes (file_header_offset + SIZE_OF_OPTIONAL_HEADER_OFFSET))
          (parse_error (lit "truncated file header")) in
  let optional_header_offset := file_header_offset + FILE_HEADER_SIZE in
  let! magic := ok_or (u16_at bytes optional_header_offset)
                      (parse_error (lit "truncated optional header")) in
  let! is64 := parse_magic magic in
  let rva_count_offset := optional_header_offset
    + (if is64 then RVA_COUNT_OFFSET_PE32_PLUS else RVA_COUNT_OFFSET_PE32) in
  let! rvas := ok_or (u32_at bytes rva_count_offset)
                     (parse_error (lit "truncated optional header")) in
  let data_dir := optional_header_offset
    + (if is64 then DATA_DIRECTORY_OFFSET_PE32_PLUS else DATA_DIRECTORY_OFFSET_PE32) in
  let section_table_offset := optional_header_offset + size_of_optional_header in
  let! sections := parse_sections bytes section_table_offset 0 (Z.to_nat number_of_sections) in
  Ok (mkPeHeaders is64 (optional_header_offset + CHECKSUM_OFFSET) rvas data_dir sections).

Definition data_directory (h : PeHeaders) (index : Z) (bytes : list Z) : option (Z * Z) :=
  if number_of_rva_and_sizes h <=? index then None
  else
    let offset := data_directory_offset h + index * DATA_DIRECTORY_ENTRY_SIZE in
    match u32_at bytes offset, u32_at bytes (offset + 4) with
    | Some rva, Some size => if negb (rva =? 0) && negb (size =? 0) then Some (rva, size) else None
    | _, _ => None
    end.

Definition section_end (s : PeSection) : Z := raw_offset s + raw_size s.

(** [max().unwrap_or(0)] over unsigned values. *)
Definition end_of_sections (h : PeHeaders) : Z :=
  fold_right Z.max 0 (section_end <$> pe_sections h).

Definition has_overlay (h : PeHeaders) (file_len : Z) : bool := end_of_sections h <? file_len.

(** ** Operations with [u32] sums

    [p] is the build profile: an overflowing sum panics in a debug build and
    wraps in a release build. *)

Section Profile.
Context (p : profile).

Definition section_extent (s : PeSection) : Z := Z.max (virtual_size s) (raw_size s).

Definition in_section (s : PeSection) (rva : Z) : bool :=
  (virtual_address s <=? rva) && (rva <? sat_add 32 (virtual_address s) (section_extent s)).

(** The [for] loop of [rva_to_offset]. *)
Fixpoint section_loop (sections : list PeSection) (rva : Z) : res Error (option Z) :=
  match sections with
  | [] => Ok None
  | s :: sections =>
      if in_section s rva then
        let! offset := add_w p 32 (raw_offset s) (rva - virtual_address s) in
        Ok (Some offset)
      else section_loop sections rva
  end.

Definition rva_to_offset (h : PeHeaders) (rva : Z) : res Error (option Z) :=
  if rva =? 0 then Ok None else section_loop (pe_sections h) rva.

Definition read_name (h : PeHeaders) (bytes : list Z) (rva skip : Z) : res Error (option str) :=
  let! o := rva_to_offset h rva in
  Ok (o ← o; read_c_string bytes (o + skip)).

Definition resolve_thunk32 (h : PeHeaders) (bytes : list Z) (thunk : Z) : res Error (option str) :=
  if negb (Z.land thunk IMAGE_ORDINAL_FLAG32 =? 0)
  then Ok (Some (lit "ord" ++ fmt_dec (Z.land thunk 0xFFFF)))
  else
    let! s := read_name h bytes thunk 2 in
    Ok (to_ascii_lowercase <$> s).

Definition resolve_thunk64 (h : PeHeaders) (bytes : list Z) (thunk : Z) : res Error (option str) :=
  if negb (Z.land thunk IMAGE_ORDINAL_FLAG64 =? 0)
  then Ok (Some (lit "ord" ++ fmt_dec (Z.land thunk 0xFFFF)))
  else if u32_max <? thunk then Ok None
  else
    let! s := read_name h bytes thunk 2 in
    Ok (to_ascii_lowercase <$> s).

(** One step of the thunk loop: [None] is [break]. *)
Definition thunk_step (h : PeHeaders) (bytes : list Z) (offset : Z)
    : res Error (option (Z * option str)) :=
  if is_64bit h then
    match u64_at bytes offset with
    | None => Ok None
    | Some thunk =>
        if thunk =? 0 then Ok None
        else let! symbol := resolve_thunk64 h bytes thunk in Ok (Some (offset + 8, symbol))
    end
  else
    match u32_at bytes offset with
    | None => Ok None
    | Some thunk =>
        if thunk =? 0 then Ok None
        else let! symbol := resolve_thunk32 h bytes thunk in Ok (Some (offset + 4, symbol))
    end.

Fixpoint walk_thunks_loop (n : nat) (h : PeHeaders) (bytes : list Z) (offset : Z) (dll : str)
    (out : list Import) : res Error (list Import) :=
  match n with
  | O => Ok out
  | S n =>
      let! step := thunk_step h bytes offset in
      match step with
      | None => Ok out
      | Some (offset, symbol) =>
          walk_thunks_loop n h bytes offset dll
            (match symbol with Some symbol => out ++ [mkImport dll symbol] | None => out end)
      end
  end.

Definition walk_thunks := walk_thunks_loop MAX_IMPORTS_PER_DLL.

(** What one descriptor adds: the body of the import loop after
    [offset += IMPORT_DESCRIPTOR_SIZE]; a [continue] leaves [imports]. *)
Definition import_descriptor (h : PeHeaders) (bytes : list Z)
    (original_first_thunk name_rva first_thunk : Z) (imports : list Import)
    : res Error (list Import) :=
  let! dll := read_name h bytes name_rva 0 in
  match dll with
  | None => Ok imports
  | Some dll =>
      let dll := to_ascii_lowercase dll in
      let thunk_rva := if negb (original_first_thunk =? 0) then original_first_thunk else first_thunk in
      let! thunk_offset := rva_to_offset h thunk_rva in
      match thunk_offset with
      | None => Ok imports
      | Some thunk_offset => walk_thunks h bytes thunk_offset dll imports
      end
  end.

Fixpoint imports_loop (n : nat) (h : PeHeaders) (bytes : list Z) (offset : Z)
    (imports : list Import) : res Error (list Import) :=
  match n with
  | O => Ok imports
  | S n =>
      match u32_at bytes offset, u32_at bytes (offset + 12), u32_at bytes (offset + 16) with
      | Some original_first_thunk, Some name_rva, Some first_thunk =>
          if (original_first_thunk =? 0) && (name_rva =? 0) && (first_thunk =? 0)
          then Ok imports
          else
            let! imports := import_descriptor h bytes original_first_thunk name_rva first_thunk imports in
            imports_loop n h bytes (offset + IMPORT_DESCRIPTOR_SIZE) imports
      | _, _, _ => Ok imports
      end
  end.

Definition parse_imports (h : PeHeaders) (bytes : list Z) : res Error (list Import) :=
  match data_directory h DIRECTORY_IMPORT bytes with
  | None => Ok []
  | Some (import_rva, _) =>
      let! offset := rva_to_offset h import_rva in
      match offset with
      | None => Ok []
      | Some offset => imports_loop MAX_IMPORT_DESCRIPTORS h bytes offset []
      end
  end.

(** [(sum & 0xFFFF) + (sum >> 16)]. *)
Definition fold16 (sum : Z) : Z := Z.land sum 0xFFFF + Z.shiftr sum 16.

(** The loop of [checksum_of] from index [i], [bs] being [bytes[i..]]. *)
Fixpoint checksum_loop (field : Z) (bs : list Z) (i sum : Z) : res Error Z :=
  match bs with
  | b0 :: b1 :: rest =>
      if (i =? field) || (i =? field + 2) then checksum_loop field rest (i + 2) sum
      else
        let! sum := add_w p 32 sum (le_decode [b0; b1]) in
        checksum_loop field rest (i + 2) (fold16 sum)
  | [b] =>
      let! sum := add_w p 32 sum b in
      Ok (fold16 sum)
  | [] => Ok sum
  end.

Definition checksum_of (bytes : list Z) (checksum_field_offset : Z) : res Error Z :=
  let! sum := checksum_loop checksum_field_offset bytes 0 0 in
  add_w p 32 sum (wrap 32 (zlen bytes)).

Definition checksum_mismatch (h : PeHeaders) (bytes : list Z) : res Error bool :=
  match u32_at bytes (checksum_offset h) with
  | None => Ok false
  | Some stored =>
      if stored =? 0 then Ok false
      else
        let! real := checksum_of bytes (checksum_offset h) in
        Ok (negb (stored =? real))
  end.
End Profile.

(** ** Hashes and the whole analysis

    [BCryptHash alg data] is the status of the CNG call and the digest
    buffer it fills; [nt_error] is the error [NTSTATUS::ok] makes of a
    negative status. *)

Inductive hash_alg := MD5 | SHA1 | SHA256.

Section Analysis.
Context (BCryptHash : hash_alg -> list Z -> Z * list Z) (nt_error : Z -> win_error).

(** [check] of src/crypto/mod.rs. *)
Definition crypto_check (status : Z) (api : str) : res Error unit :=
  if 0 <=? status then Ok ()
  else Err (Error_WindowsApi (mkWindowsApiError (nt_error status) (Some api))).

(** [sha256], [sha1] and [md5]. *)
Definition crypto_hash (alg : hash_alg) (data : list Z) : res Error (list Z) :=
  let (status, digest) := BCryptHash alg data in
  let! _ := crypto_check status (lit "BCryptHash") in
  Ok digest.

Definition imphash_of (imports : list Import) : res Error (option (list Z)) :=
  match imports with
  | [] => Ok None
  | _ => let! d := crypto_hash MD5 (imphash_input imports) in Ok (Some d)
  end.

Definition analyze_pe_bytes (p : profile) (bytes : list Z) : res Error PeAnalysis :=
  let! headers := pe_parse bytes in
  let! imports := parse_imports p headers bytes in
  let! imphash := imphash_of imports in
  let imported_dlls := dedup_dll_names imports in
  let! sha256 := crypto_hash SHA256 bytes in
  let! sha1 := crypto_hash SHA1 bytes in
  let! md5 := crypto_hash MD5 bytes in
  let! mismatch := checksum_mismatch p headers bytes in
  Ok (mkPeAnalysis sha256 sha1 md5 imphash imported_dlls (is_64bit headers)
        (bool_decide (is_Some (data_directory headers DIRECTORY_COM_DESCRIPTOR bytes)))
        (has_overlay headers (zlen bytes)) mismatch).

(** [analyze_pe_file]: [read] is [std::fs::read], its error the OS code if
    it has one. *)
Definition analyze_pe_file (p : profile) (read : str -> res (option Z) (list Z)) (path : str)
    : res Error PeAnalysis :=
  let! bytes := map_err (fun code =>
                  Error_FileOperation (mkFileOperationError path (lit "read")
                                         (Some (default (-1) code)))) (read path) in
  analyze_pe_bytes p bytes.
End Analysis.

(** ** Import names *)

Lemma dedup_loop_app l1 l2 seen out :
  exists seen', dedup_loop (l1 ++ l2) seen out = dedup_loop l2 seen' (dedup_loop l1 seen out)
    /\ seen' = seen ∪ list_to_set (imp_dll <$> l1).
Proof.
  revert seen out; induction l1 as [|i l1 IH]; intros seen out; cbn [app dedup_loop].
  { exists seen. split; [done|]. set_solver. }
  destruct (decide (imp_dll i ∈ seen)) as [Hi|Hi].
  - destruct (IH seen out) as (s & H & ->). eexists; split; [done|]. set_solver.
  - destruct (IH ({[imp_dll i]} ∪ seen) (out ++ [imp_dll i])) as (s & H & ->).
    eexists; split; [done|]. set_solver.
Qed.

Lemma dedup_loop_extends l seen out : exists r, dedup_loop l seen out = out ++ r.
Proof.
  revert seen out; induction l as [|i l IH]; intros seen out; simpl.
  { exists []. by rewrite app_nil_r. }
  case_decide; [apply IH|]. destruct (IH ({[imp_dll i]} ∪ seen) (out ++ [imp_dll i])) as [r ->].
  exists (imp_dll i :: r). by rewrite <- app_assoc.
Qed.

Lemma dedup_loop_spec l seen out :
  (forall d, d ∈ seen <-> d ∈ out) -> NoDup out ->
  NoDup (dedup_loop l seen out) /\
  forall d, d ∈ dedup_loop l seen out <-> d ∈ out \/ d ∈ imp_dll <$> l.
Proof.
  revert seen out; induction l as [|i l IH]; intros seen out Hs Hn; simpl.
  { split; [done|]. set_solver. }
  case_decide as Hi.
  - destruct (IH seen out Hs Hn) as [? H2]. split; [done|]. intros d. rewrite H2.
    rewrite Hs in Hi. set_solver.
  - destruct (IH ({[imp_dll i]} ∪ seen) (out ++ [imp_dll i])) as [? H2].
    + intros d. set_solver.
    + apply NoDup_app. rewrite Hs in Hi. split; [done|]. split; [set_solver|]. apply NoDup_singleton.
    + split; [done|]. intros d. rewrite H2. set_solver.
Qed.

(** [PeAnalysis::imported_dlls] holds the DLL names of the imports
    exactly once each, in order of first appearance: no name is repeated, a
    name is listed iff some import carries it, and at the first import of a
    name the list built so far is extended with that name. *)
Theorem dedup_dll_names_correct (imports : list Import) :
  NoDup (dedup_dll_names imports) /\
  (forall d, d ∈ dedup_dll_names imports <-> exists i, i ∈ imports /\ imp_dll i = d) /\
  (forall l1 i l2, imports = l1 ++ i :: l2 -> imp_dll i ∉ imp_dll <$> l1 ->
     exists r, dedup_dll_names imports = dedup_dll_names l1 ++ imp_dll i :: r).
Proof.
  unfold dedup_dll_names.
  destruct (dedup_loop_spec imports ∅ []) as [Hn He]; [set_solver|constructor|].
  split; [done|]. split.
  - intros d. rewrite He, list_elem_of_fmap. set_solver.
  - intros l1 i l2 -> Hi. destruct (dedup_loop_app l1 (i :: l2) ∅ []) as (s & -> & ->).
    cbn [dedup_loop]. rewrite decide_False by set_solver.
    match goal with |- context [dedup_loop l2 ?s ?o] => destruct (dedup_loop_extends l2 s o) as [r ->] end.
    exists r. by rewrite <- app_assoc.
Qed.

(** ** Lower case imports *)

Definition lower (s : str) : Prop := to_ascii_lowercase s = s.
Definition import_ok (i : Import) : Prop := lower (imp_dll i) /\ lower (imp_symbol i).

Lemma lower_to_ascii s : lower (to_ascii_lowercase s).
Proof. unfold lower. apply to_ascii_lowercase_idemp. Qed.

Lemma lower_ord n : 0 <= n -> lower (lit "ord" ++ fmt_dec n).
Proof.
  intros Hn. unfold lower, to_ascii_lowercase. rewrite fmap_app. f_equal.
  unfold fmt_dec. rewrite <- list_fmap_compose. apply list_fmap_ext. intros i d Hd. cbn.
  pose proof (digits_range 10 ltac:(lia) n Hn) as R. rewrite Forall_lookup in R. specialize (R i d Hd). cbn in R.
  unfold digit_char, to_lower. replace (d <? 10) with true by lia.
  by replace ((65 <=? 48 + d) && (48 + d <=? 90)) with false by lia.
Qed.

#[local] Opaque MAX_IMPORTS_PER_DLL MAX_IMPORT_DESCRIPTORS.

Section ProfileFacts.
Context (p : profile).

Lemma thunk_step_lower h bytes off off' s :
  thunk_step p h bytes off = Ok (Some (off', Some s)) -> lower s.
Proof.
  assert (forall t, lower (lit "ord" ++ fmt_dec (Z.land t 0xFFFF))) as Hord.
  { intros t. apply lower_ord. apply Z.land_nonneg. by right. }
  assert (forall rva r, (let! s := read_name p h bytes rva 2 in Ok (to_ascii_lowercase <$> s))
                         = Ok r -> forall s, r = Some s -> lower s) as Hname.
  { intros rva r H s0 ->. inv_binds. apply fmap_Some in H as (x & _ & ->). apply lower_to_ascii. }
  unfold thunk_step. destruct (is_64bit h);
    [destruct (u64_at bytes off)|destruct (u32_at bytes off)]; try done;
    (case_match; [done|]); intros ?; inv_binds; simplify_eq.
  - unfold resolve_thunk64 in *. case_match; [simplify_eq; apply Hord|]. case_match; [done|]. eauto.
  - unfold resolve_thunk32 in *. case_match; [simplify_eq; apply Hord|]. eauto.
Qed.

Lemma walk_thunks_loop_ok n h bytes off dll out r :
  lower dll -> Forall import_ok out -> walk_thunks_loop p n h bytes off dll out = Ok r ->
  Forall import_ok r /\ (length r <= length out + n)%nat.
Proof.
  intros Hd. revert off out; induction n as [|n IH]; intros off out Ho H; cbn in H.
  { injection H as <-. split; [done|lia]. }
  apply res_bind_ok in H as ([[off' [s|]]|] & Hs & H); [| |simplify_eq; split; [done|lia]].
  - apply IH in H as [? Hl]; [rewrite length_app in Hl; simpl in Hl; split; [done|lia]|].
    apply Forall_app; split; [done|]. constructor; [|done].
    split; [done|]. by eapply thunk_step_lower.
  - apply IH in H as [? Hl]; [split; [done|lia]|done].
Qed.

Lemma imports_loop_ok n h bytes off imps r :
  Forall import_ok imps -> imports_loop p n h bytes off imps = Ok r ->
  Forall import_ok r /\ (length r <= length imps + n * MAX_IMPORTS_PER_DLL)%nat.
Proof.
  revert off imps; induction n as [|n IH]; intros off imps Hi H; cbn [imports_loop] in H.
  { simplify_eq. split; [done|lia]. }
  assert (@Ok Error _ imps = Ok r -> Forall import_ok r /\ (length r <= length imps + S n * MAX_IMPORTS_PER_DLL)%nat) as Hstop.
  { intros [= <-]. split; [done|lia]. }
  destruct (u32_at bytes off), (u32_at bytes (off + 12)), (u32_at bytes (off + 16)); auto.
  case_match; [auto|].
  apply res_bind_ok in H as (imps' & Hd & H).
  assert (Forall import_ok imps' /\ (length imps' <= length imps + MAX_IMPORTS_PER_DLL)%nat) as [Hi' Hl].
  { unfold import_descriptor in Hd. apply res_bind_ok in Hd as ([dll|] & _ & Hd); [|simplify_eq; split; [done|lia]].
    apply res_bind_ok in Hd as ([to|] & _ & Hd); [|simplify_eq; split; [done|lia]].
    unfold walk_thunks in Hd. revert Hd. generalize MAX_IMPORTS_PER_DLL. intros m Hd.
    eapply walk_thunks_loop_ok; [apply lower_to_ascii|exact Hi|exact Hd]. }
  apply IH in H as [? ?]; [|done]. split; [done|lia].
Qed.

(** Whatever the file, every import that [parse_imports] returns has a
    lower-case DLL name and a lower-case symbol (so the import hash and the
    list of DLLs do not depend on the case used in the file), and the walk
    returns at most 4096 * 4096 imports: a table without terminator cannot
    make it run on. *)
Theorem parse_imports_normalised h bytes imports :
  parse_imports p h bytes = Ok imports ->
  Forall import_ok imports /\ Forall lower (dedup_dll_names imports) /\
  (length imports <= MAX_IMPORT_DESCRIPTORS * MAX_IMPORTS_PER_DLL)%nat.
Proof.
  intros H. assert (Forall import_ok imports /\
    (length imports <= MAX_IMPORT_DESCRIPTORS * MAX_IMPORTS_PER_DLL)%nat) as [Hi Hl].
  { unfold parse_imports in H. destruct (data_directory _ _ _) as [[rva sz]|];
      [|simplify_eq; split; [constructor|simpl; lia]].
    apply res_bind_ok in H as ([off|] & _ & H); [|simplify_eq; split; [constructor|simpl; lia]].
    apply imports_loop_ok in H; [done|constructor]. }
  split; [done|]. split; [|done]. apply Forall_forall. intros d Hd.
  unfold dedup_dll_names in Hd.
  destruct (dedup_loop_spec imports ∅ []) as [_ He]; [set_solver|constructor|].
  apply He in Hd as [Hd|Hd]; [by apply not_elem_of_nil in Hd|].
  apply list_elem_of_fmap in Hd as (i & -> & Hi'). rewrite Forall_forall in Hi.
  by apply (Hi i Hi').
Qed.
End ProfileFacts.

(** ** Panics

    The only [u32] sum that can overflow before the checksum is the file
    offset of an RVA.  It cannot for a section whose extent in memory (the
    larger of its virtual size and its raw size), counted from its raw
    offset, ends within 4 GiB. *)

Definition section_fits (s : PeSection) : Prop := raw_offset s + section_extent s <= 2 ^ 32.

(** The section an RVA is looked up in. *)
Lemma section_loop_find p sections rva :
  section_loop p sections rva =
  match List.find (fun s => in_section s rva) sections with
  | Some s => let! offset := add_w p 32 (raw_offset s) (rva - virtual_address s) in Ok (Some offset)
  | None => Ok None
  end.
Proof. induction sections as [|s l IH]; [done|]. cbn [section_loop List.find]. by destruct (in_section s rva). Qed.

Lemma rva_to_offset_panics h rva x :
  rva_to_offset Debug h rva = Panic x <->
  x = ArithmeticOverflow /\ rva <> 0 /\
  exists s, List.find (fun s => in_section s rva) (pe_sections h) = Some s /\
            2 ^ 32 <= raw_offset s + (rva - virtual_address s).
Proof.
  unfold rva_to_offset. destruct (Z.eqb_spec rva 0) as [->|Hr]; [split; [done|by intros (_ & ? & _)]|].
  rewrite section_loop_find. destruct (List.find _ _) as [s|]; [|split; [done|by intros (_ & _ & ? & ? & _)]].
  unfold add_w. destruct (Z.ltb_spec (raw_offset s + (rva - virtual_address s)) (2 ^ 32)) as [H|H]; cbn [res_bind].
  - split; [done|]. intros (_ & _ & s' & [= <-] & H'). lia.
  - split; [intros [= <-]; naive_solver|by intros (-> & _)].
Qed.

Lemma no_panic_add_w {E} p w a b :
  p = Release \/ a + b < 2 ^ w -> no_panic (@add_w E p w a b).
Proof.
  intros H q. unfold add_w. destruct (a + b <? 2 ^ w) eqn:E1; [done|].
  apply Z.ltb_ge in E1. destruct H as [->|H]; [done|lia].
Qed.

Section NoPanic.
Context (p : profile) (h : PeHeaders).
Context (Hfits : p = Release \/ Forall section_fits (pe_sections h)).

Lemma rva_to_offset_no_panic rva : no_panic (rva_to_offset p h rva).
Proof.
  unfold rva_to_offset. case_match; [apply no_panic_ok|].
  clear -Hfits. induction (pe_sections h) as [|s l IH]; cbn [section_loop]; [apply no_panic_ok|].
  assert (p = Release \/ Forall section_fits l) as Hl.
  { destruct Hfits as [?|Hf]; [by left|right]. by inversion Hf. }
  destruct (in_section s rva) eqn:E; [|by apply IH].
  apply no_panic_bind; [|intros; apply no_panic_ok]. apply no_panic_add_w.
  destruct Hfits as [?|Hf]; [by left|right]. inversion Hf as [|? ? Hs _]; subst.
  unfold in_section, sat_add, section_fits in *. apply andb_true_iff in E as [E1 E2]. lia.
Qed.

Lemma read_name_no_panic bytes rva skip : no_panic (read_name p h bytes rva skip).
Proof.
  apply no_panic_bind; [apply rva_to_offset_no_panic|]. intros; apply no_panic_ok.
Qed.

Lemma thunk_step_no_panic bytes off : no_panic (thunk_step p h bytes off).
Proof.
  unfold thunk_step, resolve_thunk64, resolve_thunk32.
  repeat first [apply no_panic_ok | apply read_name_no_panic
               | apply no_panic_bind; [|intros] | case_match].
Qed.

Lemma walk_thunks_no_panic n bytes off dll out :
  no_panic (walk_thunks_loop p n h bytes off dll out).
Proof.
  revert off out; induction n as [|n IH]; intros off out; cbn [walk_thunks_loop]; [apply no_panic_ok|].
  apply no_panic_bind; [apply thunk_step_no_panic|].
  intros [[off' s]|] _; [apply IH|apply no_panic_ok].
Qed.

Lemma import_descriptor_no_panic bytes a b c imps :
  no_panic (import_descriptor p h bytes a b c imps).
Proof.
  unfold import_descriptor. apply no_panic_bind; [apply read_name_no_panic|].
  intros [dll|] _; [|apply no_panic_ok].
  apply no_panic_bind; [apply rva_to_offset_no_panic|].
  intros [to|] _; [apply walk_thunks_no_panic|apply no_panic_ok].
Qed.

Lemma imports_loop_no_panic n bytes off imps : no_panic (imports_loop p n h bytes off imps).
Proof.
  revert off imps; induction n as [|n IH]; intros off imps; cbn [imports_loop]; [apply no_panic_ok|].
  destruct (u32_at bytes off), (u32_at bytes (off + 12)), (u32_at bytes (off + 16));
    try apply no_panic_ok.
  case_match; [apply no_panic_ok|].
  apply no_panic_bind; [apply import_descriptor_no_panic|]. intros; apply IH.
Qed.

Lemma parse_imports_no_panic bytes : no_panic (parse_imports p h bytes).
Proof.
  unfold parse_imports. destruct (data_directory _ _ _) as [[rva sz]|]; [|apply no_panic_ok].
  apply no_panic_bind; [apply rva_to_offset_no_panic|].
  intros [off|] _; [apply imports_loop_no_panic|apply no_panic_ok].
Qed.
End NoPanic.

Lemma parse_sections_no_panic bytes t i n : no_panic (parse_sections bytes t i n).
Proof.
  revert i; induction n as [|n IH]; intros i; cbn [parse_sections]; [apply no_panic_ok|].
  repeat (apply no_panic_bind; [apply no_panic_ok_or|intros]).
  apply no_panic_bind; [apply IH|]. intros; apply no_panic_ok.
Qed.

Lemma pe_parse_no_panic bytes : no_panic (pe_parse bytes).
Proof.
  unfold pe_parse, parse_magic.
  repeat first [apply no_panic_ok | apply no_panic_err | apply no_panic_ok_or
               | apply parse_sections_no_panic | apply no_panic_bind; [|intros] | case_match].
Qed.

(** ** The checksum *)

(** The file as little-endian 16-bit words, the last byte of an odd file on
    its own. *)
Fixpoint word_sum (bs : list Z) : Z :=
  match bs with
  | b0 :: b1 :: rest => le_decode [b0; b1] + word_sum rest
  | [b] => b
  | [] => 0
  end.

(** A sum with the carry added back, in closed form: the representative of
    [s] modulo [65535] in [1 .. 65535], or [0] for [0]. *)
Definition ones_sum (s : Z) : Z := if s =? 0 then 0 else 1 + (s - 1) mod 65535.

Lemma fold16_spec s : 0 <= s < 131071 -> fold16 s = if s <? 65536 then s else s - 65535.
Proof.
  intros Hs. unfold fold16. replace (Z.land s 0xFFFF) with (Z.land s (Z.ones 16)) by done.
  rewrite Z.land_ones, Z.shiftr_div_pow2 by lia. change (2 ^ 16) with 65536.
  destruct (s <? 65536) eqn:E; [apply Z.ltb_lt in E|apply Z.ltb_ge in E].
  - rewrite Z.mod_small, Z.div_small by lia. lia.
  - replace (s / 65536) with 1 by (apply Z.div_unique with (s - 65536); lia).
    replace (s mod 65536) with (s - 65536)
      by (apply Z.mod_unique with 1; lia). lia.
Qed.

Lemma ones_sum_range s : 0 <= s -> 0 <= ones_sum s <= 65535.
Proof.
  intros Hs. unfold ones_sum. case_match; [lia|].
  pose proof (Z.mod_pos_bound (s - 1) 65535). lia.
Qed.

Lemma fold16_ones s w :
  0 <= s -> 0 <= w <= 65535 -> fold16 (ones_sum s + w) = ones_sum (s + w).
Proof.
  intros Hs Hw. pose proof (ones_sum_range s Hs) as Hr.
  rewrite fold16_spec by lia. unfold ones_sum in *.
  destruct (s =? 0) eqn:E0.
  - apply Z.eqb_eq in E0 as ->. rewrite !Z.add_0_l. replace (w <? 65536) with true by lia.
    destruct (w =? 0) eqn:Ew; [lia|]. rewrite Z.mod_small; lia.
  - replace (s + w =? 0) with false by lia.
    set (r := (s - 1) mod 65535) in *.
    assert (s - 1 = 65535 * ((s - 1) / 65535) + r) as Hd by (apply Z.div_mod; lia).
    pose proof (Z.mod_pos_bound (s - 1) 65535 ltac:(lia)) as Hp. fold r in Hp.
    destruct (1 + r + w <? 65536) eqn:E1; [apply Z.ltb_lt in E1|apply Z.ltb_ge in E1].
    + rewrite <- (Z.mod_unique (s + w - 1) 65535 ((s - 1) / 65535) (r + w)); lia.
    + rewrite <- (Z.mod_unique (s + w - 1) 65535 ((s - 1) / 65535 + 1) (r + w - 65535)); lia.
Qed.

Lemma add_w_small {E} p w a b : a + b < 2 ^ w -> @add_w E p w a b = Ok (a + b).
Proof. intros H. unfold add_w. by replace (a + b <? 2 ^ w) with true by lia. Qed.

Lemma checksum_step p s w :
  0 <= s -> 0 <= w <= 65535 ->
  (let! sum := @add_w Error p 32 (ones_sum s) w in Ok (fold16 sum)) = Ok (ones_sum (s + w)).
Proof.
  intros Hs Hw. pose proof (ones_sum_range s Hs).
  rewrite add_w_small by lia. cbn [res_bind]. by rewrite fold16_ones.
Qed.

Lemma list_pair_ind {A} (P : list A -> Prop) :
  P [] -> (forall a, P [a]) -> (forall a b l, P l -> P (a :: b :: l)) -> forall l, P l.
Proof.
  intros H0 H1 H2. fix IH 1. intros [|a [|b l]]; [done|apply H1|apply H2, IH].
Qed.

Lemma word_range a b : is_byte a -> is_byte b -> 0 <= le_decode [a; b] <= 65535.
Proof. unfold is_byte. simpl. lia. Qed.

Lemma word_sum_nonneg bs : bytes_ok bs -> 0 <= word_sum bs.
Proof.
  induction bs as [|a|a b l IH] using list_pair_ind; intros Hb; [simpl; lia| |].
  - inversion Hb as [|? ? Ha _]. unfold is_byte in Ha. simpl. lia.
  - inversion Hb as [|? ? Ha Hb']; subst. inversion Hb' as [|? ? Hb2 Hl]; subst.
    cbn [word_sum]. pose proof (word_range a b Ha Hb2). specialize (IH Hl). lia.
Qed.

Lemma word_sum_app bs rest : Z.Even (zlen bs) -> word_sum (bs ++ rest) = word_sum bs + word_sum rest.
Proof.
  induction bs as [|a|a b l IH] using list_pair_ind; intros [k Hk].
  - done.
  - unfold zlen in Hk. simpl in Hk. lia.
  - cbn [app word_sum]. rewrite IH; [lia|]. exists (k - 1). unfold zlen in *. simpl in Hk. lia.
Qed.

(** Words outside the field, from a sum that is already folded. *)
Lemma checksum_loop_words p f bs i s rest :
  bytes_ok bs -> 0 <= s -> Z.Even (zlen bs) -> i + zlen bs <= f \/ f + 2 < i ->
  checksum_loop p f (bs ++ rest) i (ones_sum s)
  = checksum_loop p f rest (i + zlen bs) (ones_sum (s + word_sum bs)).
Proof.
  revert i s. induction bs as [|a|a b l IH] using list_pair_ind; intros i s Hb Hs [k Hk] Hi.
  - cbn. by rewrite !Z.add_0_r.
  - unfold zlen in Hk. simpl in Hk. lia.
  - inversion Hb as [|? ? Ha Hb']; subst. inversion Hb' as [|? ? Hb2 Hl]; subst.
    pose proof (word_range a b Ha Hb2) as Hw. pose proof (ones_sum_range s Hs) as Ho.
    assert (zlen (a :: b :: l) = 2 + zlen l) as Hz by (unfold zlen; simpl length; lia).
    rewrite Hz in *. cbn [app checksum_loop word_sum].
    replace ((i =? f) || (i =? f + 2)) with false
      by (pose proof (Zle_0_nat (length l)); unfold zlen in *; lia).
    rewrite add_w_small by lia. cbn [res_bind]. rewrite fold16_ones by lia.
    rewrite IH; [|done|lia|exists (k - 1); lia|lia]. f_equal; [lia|f_equal; lia].
Qed.

Lemma checksum_loop_tail p f bs i s :
  bytes_ok bs -> 0 <= s -> f + 2 < i ->
  checksum_loop p f bs i (ones_sum s) = Ok (ones_sum (s + word_sum bs)).
Proof.
  revert i s. induction bs as [|a|a b l IH] using list_pair_ind; intros i s Hb Hs Hi.
  - cbn. by rewrite Z.add_0_r.
  - cbn [checksum_loop word_sum]. inversion Hb as [|? ? Ha _]. unfold is_byte in Ha.
    apply checksum_step; lia.
  - inversion Hb as [|? ? Ha Hb']; subst. inversion Hb' as [|? ? Hb2 Hl]; subst.
    pose proof (word_range a b Ha Hb2) as Hw. pose proof (ones_sum_range s Hs) as Ho.
    cbn [checksum_loop word_sum]. replace ((i =? f) || (i =? f + 2)) with false by lia.
    rewrite add_w_small by lia. cbn [res_bind]. rewrite fold16_ones by lia.
    rewrite IH by (done || lia). by rewrite Z.add_assoc.
Qed.

Lemma checksum_field_spec p pre field post :
  length field = 4%nat -> Z.Even (zlen pre) -> bytes_ok (pre ++ field ++ post) ->
  zlen (pre ++ field ++ post) + 65535 < 2 ^ 32 ->
  checksum_of p (pre ++ field ++ post) (zlen pre)
  = Ok (ones_sum (word_sum (pre ++ post)) + zlen (pre ++ field ++ post)).
Proof.
  intros Hf He Hb Hl. apply Forall_app in Hb as [Hpre Hb]. apply Forall_app in Hb as [_ Hpost].
  assert (bytes_ok (pre ++ post)) as Hpp by (by apply Forall_app).
  pose proof (ones_sum_range _ (word_sum_nonneg _ Hpp)) as Ho. rewrite word_sum_app in Ho |- * by done.
  unfold checksum_of, wrap. rewrite Z.mod_small by (unfold zlen in *; lia).
  assert (checksum_loop p (zlen pre) (pre ++ field ++ post) 0 0
          = Ok (ones_sum (word_sum pre + word_sum post))) as ->; [|by apply add_w_small; lia].
  change (checksum_loop p (zlen pre) (pre ++ field ++ post) 0 (ones_sum 0)
          = Ok (ones_sum (word_sum pre + word_sum post))).
  rewrite checksum_loop_words by (done || lia). rewrite !Z.add_0_l.
  destruct field as [|a [|b [|c [|d [|]]]]]; try done.
  cbn [app checksum_loop]. rewrite Z.eqb_refl. cbn [orb].
  replace (zlen pre + 2 =? zlen pre) with false by lia. rewrite Z.eqb_refl. cbn [orb].
  apply checksum_loop_tail; [done|by apply word_sum_nonneg|lia].
Qed.

Lemma u32_at_app pre field post :
  length field = 4%nat -> u32_at (pre ++ field ++ post) (zlen pre) = Some (le_decode field).
Proof.
  intros Hf. unfold u32_at. replace 4 with (zlen field) by (unfold zlen; lia).
  by rewrite slice_get_app.
Qed.

(** The checksum is the one of the documented algorithm: the file's
    16-bit words without the four bytes of the checksum field, summed with
    the carry added back (in closed form [ones_sum]), plus the file length.
    So it does not depend on the stored value, and the file is reported as
    mismatching exactly when the stored value is neither zero nor that
    checksum; in particular storing the computed checksum clears the signal.
    The field is at an even offset and the file shorter than 4 GiB by the
    64 KiB that the sum can add. *)
Theorem checksum_field_independent p h pre field post :
  length field = 4%nat -> Z.Even (zlen pre) -> bytes_ok (pre ++ field ++ post) ->
  zlen (pre ++ field ++ post) + 65535 < 2 ^ 32 -> checksum_offset h = zlen pre ->
  let real := ones_sum (word_sum (pre ++ post)) + zlen (pre ++ field ++ post) in
  checksum_of p (pre ++ field ++ post) (checksum_offset h) = Ok real /\
  checksum_mismatch p h (pre ++ field ++ post)
  = Ok (negb (le_decode field =? 0) && negb (le_decode field =? real)) /\
  checksum_mismatch p h (pre ++ le_encode 4 real ++ post) = Ok false.
Proof.
  intros Hf He Hb Hl Hh real. split; [rewrite Hh; by apply checksum_field_spec|].
  assert (forall field', length field' = 4%nat -> bytes_ok field' ->
    checksum_mismatch p h (pre ++ field' ++ post)
    = Ok (negb (le_decode field' =? 0) && negb (le_decode field' =? real))) as Hm.
  { intros field' Hf' Hb'. unfold checksum_mismatch. rewrite Hh, u32_at_app by done.
    destruct (le_decode field' =? 0) eqn:E; [done|].
    assert (zlen (pre ++ field' ++ post) = zlen (pre ++ field ++ post)) as Hz
      by (unfold zlen; rewrite !length_app, Hf, Hf'; done).
    rewrite checksum_field_spec; [|done|done| |by rewrite Hz].
    - cbn [res_bind]. by rewrite Hz.
    - apply Forall_app in Hb as [? Hb]. apply Forall_app in Hb as [_ ?].
      apply Forall_app; split; [done|]. by apply Forall_app. }
  split; [apply Hm; [done|]|rewrite Hm; [|apply length_le_encode|apply bytes_ok_le_encode]].
  - apply Forall_app in Hb as [_ Hb]. by apply Forall_app in Hb as [? _].
  - assert (bytes_ok (pre ++ post)) as Hpp.
    { apply Forall_app in Hb as [? Hb]. apply Forall_app in Hb as [_ ?]. by apply Forall_app. }
    pose proof (ones_sum_range _ (word_sum_nonneg _ Hpp)) as Ho. unfold real.
    rewrite le_decode_encode.
    + by rewrite Z.eqb_refl, andb_false_r.
    + change (256 ^ Z.of_nat 4) with (2 ^ 32). unfold zlen in *. lia.
Qed.

(** ** A minimal image

    The file the unit tests of src/file/pe.rs build: one section at RVA
    0x1000 and file offset 0x200, and an import table for kernel32.dll. *)

Definition write_at (off : nat) (s : list Z) (bs : list Z) : list Z :=
  take off bs ++ s ++ drop (off + length s) bs.

Definition fake_pe (file_offset : Z) : list Z :=
  write_at 0x25A (lit "KERNEL32.dll") $ write_at 0x242 (lit "ExitProcess") $
  write_at 0x22C (le_encode 4 0x80000005) $ write_at 0x228 (le_encode 4 0x1040) $
  write_at 0x210 (le_encode 4 0x1034) $ write_at 0x20C (le_encode 4 0x105A) $
  write_at 0x200 (le_encode 4 0x1028) $
  write_at 0x14C (le_encode 4 file_offset) $ write_at 0x148 (le_encode 4 0x300) $
  write_at 0x144 (le_encode 4 0x1000) $ write_at 0x140 (le_encode 4 0x300) $
  write_at 0xC4 (le_encode 4 40) $ write_at 0xC0 (le_encode 4 0x1000) $
  write_at 0xB4 (le_encode 4 16) $ write_at 0x58 (le_encode 2 0x10b) $
  write_at 0x54 (le_encode 2 0xE0) $ write_at 0x46 (le_encode 2 1) $
  write_at 0x40 (le_encode 4 0x4550) $ write_at 0x3C (le_encode 4 0x40) $
  write_at 0 (le_encode 2 0x5A4D) (replicate 0x500 0).

Definition no_hash (alg : hash_alg) (data : list Z) : Z * list Z := (0, data).

Lemma checksum_field_independent_witness :
  checksum_mismatch Debug (mkPeHeaders false 4 16 0 []) ([1;2;3;4] ++ [9;9;9;9] ++ [5;6;7]) = Ok true.
Proof.
  destruct (checksum_field_independent Debug (mkPeHeaders false 4 16 0 []) [1;2;3;4] [9;9;9;9] [5;6;7])
    as (_ & -> & _).
  - reflexivity.
  - exists 2. reflexivity.
  - solve_bytes.
  - vm_compute. reflexivity.
  - reflexivity.
  - vm_compute. reflexivity.
Defined.

(** A field at an odd offset, which [e_lfanew] can produce, is not skipped:
    the stored value then changes the checksum. *)
Example checksum_odd_offset :
  checksum_of Release ([0] ++ [1;0;0;0] ++ [0;0;0]) 1 <> checksum_of Release ([0] ++ [2;0;0;0] ++ [0;0;0]) 1.
Proof. vm_compute. discriminate. Qed.

Lemma checksum_of_no_panic p bytes field :
  bytes_ok bytes -> p = Release \/ zlen bytes + 65535 < 2 ^ 32 -> no_panic (checksum_of p bytes field).
Proof.
  intros Hb Hl. unfold checksum_of.
  assert (forall bs, bytes_ok bs -> forall i s, 0 <= s ->
    exists s', 0 <= s' /\ checksum_loop p field bs i (ones_sum s) = Ok (ones_sum s')) as Hloop.
  { clear. intros bs. induction bs as [|a|a b l IH] using list_pair_ind; intros Hb i s Hs.
    - by exists s.
    - exists (s + a). inversion Hb as [|? ? Ha _]. unfold is_byte in Ha.
      split; [lia|]. apply checksum_step; lia.
    - inversion Hb as [|? ? Ha Hb']; subst. inversion Hb' as [|? ? Hb2 Hl]; subst.
      pose proof (word_range a b Ha Hb2) as Hw. pose proof (ones_sum_range s Hs) as Ho.
      cbn [checksum_loop]. case_match; [by apply IH|].
      rewrite add_w_small by lia. cbn [res_bind]. rewrite fold16_ones by lia. apply IH; [done|lia]. }
  destruct (Hloop bytes Hb 0 0) as (s & Hs & H); [lia|]. change (ones_sum 0) with 0 in H.
  rewrite H. cbn [res_bind]. apply no_panic_add_w. destruct Hl as [?|Hl]; [by left|right].
  pose proof (ones_sum_range s Hs). unfold wrap. rewrite Z.mod_small; unfold zlen in *; lia.
Qed.



(** A section whose raw offset is near the end of the 32-bit range makes
    [rva_to_offset] overflow: a debug build panics. *)
Example analyze_pe_bytes_debug_panic :
  analyze_pe_bytes no_hash mk_win_error Debug (write_at 0xC0 (le_encode 4 0x1100) (fake_pe 0xFFFFFF00))
  = Panic ArithmeticOverflow.
Proof. vm_compute. reflexivity. Qed.

Lemma end_of_sections_lt h n :
  0 < n -> end_of_sections h < n <-> Forall (fun s => section_end s < n) (pe_sections h).
Proof.
  intros Hn. unfold end_of_sections. induction (pe_sections h) as [|s l IH]; simpl.
  - rewrite Forall_nil. lia.
  - rewrite Forall_cons, <- IH. apply Z.max_lub_lt_iff.
Qed.

(** What a successful analysis reports: the overlay flag is set iff
    the file extends beyond the raw data of every section; the .NET flag iff
    the COM descriptor directory is present; the bitness is the optional
    header's; there is an import hash iff there is an import, and it is the
    MD5 of the ["dll.symbol,..."] text of the imports in table order; every
    hash is of the whole file. *)
Theorem analyze_pe_bytes_reports H nt_error p bytes a :
  analyze_pe_bytes H nt_error p bytes = Ok a ->
  exists h imports,
    pe_parse bytes = Ok h /\ parse_imports p h bytes = Ok imports /\
    (pa_has_overlay a = true <-> Forall (fun s => section_end s < zlen bytes) (pe_sections h)) /\
    (pa_is_dotnet a = true <-> is_Some (data_directory h DIRECTORY_COM_DESCRIPTOR bytes)) /\
    pa_is_64bit a = is_64bit h /\
    (pa_imphash a = None <-> imports = []) /\
    (pa_imported_dlls a = [] <-> imports = []) /\
    (imports <> [] -> Ok (pa_imphash a) = (let! d := crypto_hash H nt_error MD5 (imphash_input imports) in Ok (Some d))) /\
    Ok (pa_sha256 a) = crypto_hash H nt_error SHA256 bytes /\
    Ok (pa_sha1 a) = crypto_hash H nt_error SHA1 bytes /\
    Ok (pa_md5 a) = crypto_hash H nt_error MD5 bytes.
Proof.
  unfold analyze_pe_bytes. intros Ha.
  apply res_bind_ok in Ha as (h & Hh & Ha). apply res_bind_ok in Ha as (imps & Hi & Ha).
  apply res_bind_ok in Ha as (ih & Him & Ha). apply res_bind_ok in Ha as (d1 & H1 & Ha).
  apply res_bind_ok in Ha as (d2 & H2 & Ha). apply res_bind_ok in Ha as (d3 & H3 & Ha).
  apply res_bind_ok in Ha as (m & Hm & Ha). injection Ha as <-. exists h, imps. cbn.
  assert (0 < zlen bytes) as Hpos.
  { unfold pe_parse, u16_at, slice_get in Hh. destruct bytes; [done|]. unfold zlen. simpl. lia. }
  split; [done|]. split; [done|]. split.
  { unfold has_overlay. rewrite Z.ltb_lt. by apply end_of_sections_lt. }
  split; [apply bool_decide_eq_true|]. split; [done|].
  assert (ih = None <-> imps = []) as Hnone.
  { unfold imphash_of in Him. destruct imps; [by simplify_eq|].
    apply res_bind_ok in Him as (d & _ & [= <-]). done. }
  split; [done|]. split.
  { destruct (dedup_loop_spec imps ∅ []) as [_ He]; [set_solver|constructor|].
    unfold dedup_dll_names. split; [|by intros ->]. intros E. rewrite E in He.
    destruct imps as [|i imps]; [done|]. specialize (He (imp_dll i)). set_solver. }
  split; [|done]. intros Hne. unfold imphash_of in Him. by destruct imps.
Qed.

(** ** Thunk arrays *)

Definition thunk_size (h : PeHeaders) : nat := if is_64bit h then 8 else 4.

Definition resolve_thunk (p : profile) (h : PeHeaders) (bytes : list Z) (t : Z) : res Error (option str) :=
  if is_64bit h then resolve_thunk64 p h bytes t else resolve_thunk32 p h bytes t.

Fixpoint resolve_all (p : profile) (h : PeHeaders) (bytes : list Z) (ts : list Z)
    : res Error (list (option str)) :=
  match ts with
  | [] => Ok []
  | t :: ts =>
      let! s := resolve_thunk p h bytes t in
      let! ss := resolve_all p h bytes ts in
      Ok (s :: ss)
  end.

(** The bytes of a thunk array with its zero terminator. *)
Definition thunk_array (h : PeHeaders) (ts : list Z) : list Z :=
  mjoin (le_encode (thunk_size h) <$> ts) ++ replicate (thunk_size h) 0.

Definition thunk_ok (h : PeHeaders) (t : Z) : Prop := 0 < t < 256 ^ Z.of_nat (thunk_size h).

Lemma thunk_at h pre w post :
  length w = thunk_size h ->
  (if is_64bit h then u64_at (pre ++ w ++ post) (zlen pre)
   else u32_at (pre ++ w ++ post) (zlen pre)) = Some (le_decode w).
Proof.
  unfold thunk_size, u64_at, u32_at. intros Hw. destruct (is_64bit h);
    [replace 8 with (zlen w) by (unfold zlen; lia)|replace 4 with (zlen w) by (unfold zlen; lia)];
    by rewrite slice_get_app.
Qed.

Lemma thunk_step_eq p h bytes off :
  thunk_step p h bytes off =
  match (if is_64bit h then u64_at bytes off else u32_at bytes off) with
  | None => Ok None
  | Some t => if t =? 0 then Ok None
              else let! s := resolve_thunk p h bytes t in Ok (Some (off + Z.of_nat (thunk_size h), s))
  end.
Proof. unfold thunk_step, resolve_thunk, thunk_size. by destruct (is_64bit h). Qed.

Lemma walk_thunks_loop_array p h bytes dll n ts pre post out syms :
  bytes = pre ++ thunk_array h ts ++ post -> Forall (thunk_ok h) ts -> (length ts <= n)%nat ->
  resolve_all p h bytes ts = Ok syms ->
  walk_thunks_loop p n h bytes (zlen pre) dll out = Ok (out ++ (mkImport dll <$> omap id syms)).
Proof.
  revert n pre out syms. induction ts as [|t ts IH]; intros n pre out syms Hb Ht Hn Hr.
  - injection Hr as <-. cbn. rewrite app_nil_r. destruct n as [|n]; [done|].
    cbn [walk_thunks_loop]. rewrite thunk_step_eq, Hb. unfold thunk_array. cbn [fmap list_fmap mjoin list_join app].
    rewrite thunk_at by apply length_replicate.
    assert (le_decode (replicate (thunk_size h) 0) = 0) as -> by (unfold thunk_size; by destruct (is_64bit h)).
    done.
  - destruct n as [|n]; [simpl in Hn; lia|]. inversion Ht as [|? ? Ht0 Ht']; subst x l.
    cbn [resolve_all] in Hr. apply res_bind_ok in Hr as (s & Hs & Hr).
    apply res_bind_ok in Hr as (ss & Hss & [= <-]).
    assert (thunk_array h (t :: ts) = le_encode (thunk_size h) t ++ thunk_array h ts) as Ea
      by (unfold thunk_array; cbn; by rewrite <- app_assoc).
    rewrite Ea, <- app_assoc in Hb.
    cbn [walk_thunks_loop]. rewrite thunk_step_eq.
    pose proof (thunk_at h pre _ (thunk_array h ts ++ post) (length_le_encode (thunk_size h) t)) as Hat.
    rewrite <- Hb in Hat. rewrite Hat.
    unfold thunk_ok in Ht0. rewrite le_decode_encode by lia. replace (t =? 0) with false by lia.
    rewrite Hs. cbn [res_bind].
    replace (zlen pre + Z.of_nat (thunk_size h)) with (zlen (pre ++ le_encode (thunk_size h) t))
      by (unfold zlen; rewrite length_app, length_le_encode; lia).
    rewrite (IH n _ _ ss); [|by rewrite <- app_assoc|done|simpl in Hn; lia|done].
    f_equal. destruct s as [s|]; cbn [omap list_omap id fmap list_fmap]; [by rewrite <- app_assoc|done].
Qed.

(** Reading back a thunk array: if the file holds, at the given
    offset, the little-endian words of a list of non-zero thunks (4 bytes
    each in PE32, 8 in PE32+) followed by the zero terminator, and there are
    at most 4096 of them, [walk_thunks] appends exactly the imports those
    thunks resolve to, in order, and leaves out the ones that do not
    resolve. *)
Theorem walk_thunks_reads_array p h dll ts pre post out syms :
  Forall (thunk_ok h) ts -> (length ts <= MAX_IMPORTS_PER_DLL)%nat ->
  resolve_all p h (pre ++ thunk_array h ts ++ post) ts = Ok syms ->
  walk_thunks p h (pre ++ thunk_array h ts ++ post) (zlen pre) dll out
  = Ok (out ++ (mkImport dll <$> omap id syms)).
Proof. intros Ht Hn Hr. unfold walk_thunks. by eapply walk_thunks_loop_array. Qed.

Lemma walk_thunks_reads_array_witness :
  walk_thunks Debug (mkPeHeaders false 0 0 0 [mkPeSection 16 16 0 16])
    ([7;7] ++ thunk_array (mkPeHeaders false 0 0 0 [mkPeSection 16 16 0 16]) [0x80000005; 0x1000] ++ [1])
    2 (lit "a.dll") []
  = Ok [mkImport (lit "a.dll") (lit "ord5")].
Proof.
  apply (walk_thunks_reads_array Debug (mkPeHeaders false 0 0 0 [mkPeSection 16 16 0 16]) (lit "a.dll")
           [0x80000005; 0x1000] [7;7] [1] [] [Some (lit "ord5"); None]).
  - repeat constructor; vm_compute; reflexivity.
  - apply Nat.leb_le. vm_compute. reflexivity.
  - vm_compute. reflexivity.
Defined.

Lemma parse_imports_normalised_witness :
  Forall import_ok [mkImport (lit "kernel32.dll") (lit "exitprocess");
                    mkImport (lit "kernel32.dll") (lit "ord5")].
Proof.
  destruct (parse_imports_normalised Debug
              (mkPeHeaders false 0x98 16 0xB8 [mkPeSection 0x1000 0x300 0x200 0x300]) (fake_pe 0x200)
              [mkImport (lit "kernel32.dll") (lit "exitprocess");
               mkImport (lit "kernel32.dll") (lit "ord5")]) as [H _].
  - vm_compute. reflexivity.
  - exact H.
Defined.

Lemma analyze_pe_bytes_reports_witness :
  exists h imports,
    pe_parse (fake_pe 0x200) = Ok h /\
    parse_imports Debug h (fake_pe 0x200) = Ok imports /\ imports <> [].
Proof.
  destruct (analyze_pe_bytes_reports no_hash mk_win_error Debug (fake_pe 0x200)
    (mkPeAnalysis (fake_pe 0x200) (fake_pe 0x200) (fake_pe 0x200)
       (Some (lit "kernel32.exitprocess,kernel32.ord5")) [lit "kernel32.dll"] false false false false))
    as (h & imports & Hh & Hi & _ & _ & _ & Hn & _).
  - vm_compute. reflexivity.
  - exists h, imports. split; [exact Hh|]. split; [exact Hi|]. intros E. apply Hn in E. discriminate E.
Defined.
