(* ===== verification/ProcTree.v ===== *)
(** * ProcTree: process listing and process trees

    src/process/list.rs and src/process/tree.rs, with the parts of
    src/process/processes.rs that they call ([open_with_access], [terminate],
    [kill_by_id] and [Drop]).  A snapshot is the sequence of
    [PROCESSENTRY32W] records that [Process32FirstW]/[Process32NextW] yield;
    its handle is closed on every path that created it and is left out.  The
    OS calls made on processes are kept as a log.  [collect_descendants]
    and [tree_depth] recurse on a graph, not on a term: they take fuel and
    return [None] when it runs out.  The fuel [nodes_fuel] (one more than the
    number of child processes of the snapshot) is proved enough where the
    source returns; on a snapshot with a parent cycle [tree_depth] runs out of
    every fuel, as the source then recurses for ever. *)

From Stdlib Require Import ZArith Lia String Ascii.
From stdpp Require Import base list strings gmap numbers sorting.
From S2P Require Import Prelude Text Unicode Errors.

Open Scope Z_scope.

(** ** Listing *)

(** [PROCESSENTRY32W], the fields the code reads. *)
Record process_entry := mk_process_entry {
  th32ProcessID : Z;
  th32ParentProcessID : Z;
  cntThreads : Z;
  szExeFile : list Z }.

Record ProcessInfo := mkProcessInfo {
  pi_pid : Z;
  pi_parent_pid : option Z;
  pi_name : str;
  pi_thread_count : Z }.

Definition process_info (entry : process_entry) : ProcessInfo :=
  let name_end := default (length (szExeFile entry)) (position (Z.eqb 0) (szExeFile entry)) in
  mkProcessInfo (th32ProcessID entry)
    (if th32ParentProcessID entry =? 0 then None else Some (th32ParentProcessID entry))
    (from_utf16_lossy (take name_end (szExeFile entry))) (cntThreads entry).

(** The answer of the Tool Help API: no snapshot, or the entries up to the
    first call that fails. *)
Abbreviation snapshot := (win_error + list process_entry)%type.

(** The filtered push loop. *)
Fixpoint push_matching (filter : ProcessInfo -> bool) (entries : list process_entry)
    (out : list ProcessInfo) : list ProcessInfo :=
  match entries with
  | [] => out
  | e :: entries =>
      push_matching filter entries
        (if filter (process_info e) then out ++ [process_info e] else out)
  end.

(** The new contents of [out_processes] (which starts cleared) and the
    returned count. *)
Definition list_with_filter_impl (s : snapshot) (filter : ProcessInfo -> bool)
    : list ProcessInfo * res Error Z :=
  match s with
  | inl e =>
      ([], Err (Error_Process (ProcessError_OpenFailed
                 (mkProcessOpenError 0 (lit "Failed to create process snapshot")
                    (Some (win_error_code e))))))
  | inr entries =>
      let out := push_matching filter entries [] in (out, Ok (zlen out))
  end.

Definition list_with_buffer (s : snapshot) : list ProcessInfo * res Error Z :=
  list_with_filter_impl s (fun _ => true).

Definition process_list (s : snapshot) : res Error (list ProcessInfo) :=
  let (processes, r) := list_with_buffer s in let! _ := r in Ok processes.
Definition process_list_with_filter (s : snapshot) (filter : ProcessInfo -> bool) : list ProcessInfo * res Error Z :=
  list_with_filter_impl s filter.

Fixpoint find_parent (pid : Z) (processes : list ProcessInfo) : option Z :=
  match processes with
  | [] => None
  | p :: processes => if pi_pid p =? pid then pi_parent_pid p else find_parent pid processes
  end.

Definition parent_id (s : snapshot) (pid : Z) : res Error (option Z) :=
  let (processes, r) := list_with_buffer s in
  let! _ := r in Ok (find_parent pid processes).

Definition children_of (s : snapshot) (pid : Z) : res Error (list Z) :=
  let (buffer, r) := list_with_filter_impl s (fun p => bool_decide (pi_parent_pid p = Some pid)) in
  let! _ := r in Ok (pi_pid <$> buffer).

(** ** Killing one process *)

Inductive os_call :=
  | OpenProcess (pid : Z) (ok : bool)
  | TerminateProcess (pid exit_code : Z) (ok : bool)
  | CloseHandle (pid : Z).

Abbreviation tree := (gmap Z (list Z)).

Section Tree.
(** The OS answers of [OpenProcess] and [TerminateProcess] for a process. *)
Context (open_answer terminate_answer : Z -> option win_error).

Definition process_error (pid : Z) (reason : str) (e : win_error) : Error :=
  Error_Process (ProcessError_OpenFailed (mkProcessOpenError pid reason (Some (win_error_code e)))).

Definition terminate (pid exit_code : Z) : list os_call * res Error unit :=
  match terminate_answer pid with
  | None => ([TerminateProcess pid exit_code true], Ok ())
  | Some e => ([TerminateProcess pid exit_code false],
               Err (process_error pid (lit "Failed to terminate process") e))
  end.

(** [kill_by_id]: the [Process] it opened is dropped, and its handle closed,
    when it returns. *)
Definition kill_by_id (pid : Z) : list os_call * res Error unit :=
  match open_answer pid with
  | Some e => ([OpenProcess pid false], Err (process_error pid (lit "Failed to open process") e))
  | None =>
      let (log, r) := terminate pid 1 in
      (OpenProcess pid true :: log ++ [CloseHandle pid], r)
  end.

(** ** Trees *)

(** [tree.entry(parent).or_default().push(pid)]. *)
Definition add_child (parent pid : Z) (t : tree) : tree :=
  <[parent := default [] (t !! parent) ++ [pid]]> t.

Fixpoint build_loop (processes : list ProcessInfo) (t : tree) : tree :=
  match processes with
  | [] => t
  | p :: processes =>
      build_loop processes
        (match pi_parent_pid p with Some parent => add_child parent (pi_pid p) t | None => t end)
  end.

Definition build_process_tree (processes : list ProcessInfo) : tree := build_loop processes ∅.

(** [collect_descendants]; [None] is out of fuel. *)
Fixpoint collect_descendants (fuel : nat) (pid : Z) (t : tree) (result : gset Z) : option (gset Z) :=
  match fuel with
  | O => None
  | S fuel =>
      match t !! pid with
      | None => Some result
      | Some children =>
          fold_left (fun acc child =>
            result ← acc;
            if decide (child ∈ result) then Some result
            else collect_descendants fuel child t ({[child]} ∪ result)) children (Some result)
      end
  end.

(** [tree_depth]; [None] is out of fuel. *)
Fixpoint tree_depth (fuel : nat) (pid : Z) (t : tree) : option Z :=
  match fuel with
  | O => None
  | S fuel =>
      match t !! pid with
      | None => Some 0
      | Some children =>
          ds ← mapM (fun child => tree_depth fuel child t) children;
          Some (1 + fold_right Z.max 0 ds)
      end
  end.

(** Every child of the tree. *)
Definition child_pids (t : tree) : gset Z := list_to_set (mjoin ((map_to_list t).*2)).
Definition nodes_fuel (t : tree) : nat := S (size (child_pids t)).

(** The iteration orders of the hash containers. *)
Context (set_iter : gset Z -> list Z) (map_iter : tree -> list (Z * list Z)).

Definition kill_order (t : tree) (to_kill : gset Z) : option (list Z) :=
  ds ← mapM (fun pid => d ← tree_depth (nodes_fuel t) pid t; Some (pid, d)) (set_iter to_kill);
  Some (fst <$> sort_by_key (fun x : Z * Z => - snd x) ds).

Definition kill_all (pids : list Z) : list os_call := mjoin ((fun pid => fst (kill_by_id pid)) <$> pids).

(** [kill_tree_by_id_with_buffer]: the calls made and the result; [None]
    when the recursion does not return. *)
Definition kill_tree_by_id (s : snapshot) (pid : Z) : option (list os_call * res Error unit) :=
  let (out_processes, r) := list_with_buffer s in
  match r with
  | Ok _ =>
      let t := build_process_tree out_processes in
      to_kill ← collect_descendants (nodes_fuel t) pid t ∅;
      order ← kill_order t ({[pid]} ∪ to_kill);
      Some (kill_all order, Ok ())
  | Err e => Some ([], Err e)
  | Panic p => Some ([], Panic p)
  end.

(** The reverse map of [find_root_ancestor]: a later insertion wins. *)
Definition child_to_parent (t : tree) : gmap Z Z :=
  fold_left (fun m (e : Z * list Z) =>
    fold_left (fun m child => <[child := fst e]> m) (snd e) m) (map_iter t) ∅.

(** The [while let] loop; each turn visits a new key of the map. *)
Fixpoint walk_up (fuel : nat) (m : gmap Z Z) (visited : gset Z) (pid : Z) : option Z :=
  match fuel with
  | O => None
  | S fuel =>
      match m !! pid with
      | None => Some pid
      | Some parent =>
          if decide (pid ∈ visited) then Some pid
          else walk_up fuel m ({[pid]} ∪ visited) parent
      end
  end.

Definition find_root_ancestor (pid : Z) (t : tree) : option Z :=
  let m := child_to_parent t in walk_up (S (S (size m))) m ∅ pid.

(** [kill_tree_from_root_with_buffer] takes two snapshots. *)
Definition kill_tree_from_root (s1 s2 : snapshot) (pid : Z) : option (list os_call * res Error unit) :=
  let (out_processes, r) := list_with_buffer s1 in
  match r with
  | Ok _ =>
      root ← find_root_ancestor pid (build_process_tree out_processes);
      kill_tree_by_id s2 root
  | Err e => Some ([], Err e)
  | Panic p => Some ([], Panic p)
  end.

End Tree.

(** ** The parent relation *)

Definition edge (t : tree) (a b : Z) : Prop := exists cs, t !! a = Some cs /\ b ∈ cs.
Definition acyclic (t : tree) : Prop := forall x, ~ tc (edge t) x x.

Lemma push_matching_filter f es out :
  push_matching f es out = out ++ List.filter f (process_info <$> es).
Proof.
  revert out; induction es as [|e es IH]; intros out; cbn; [by rewrite app_nil_r|].
  rewrite IH. destruct (f (process_info e)); [by rewrite <- app_assoc|done].
Qed.

Lemma list_with_buffer_all entries :
  list_with_buffer (inr entries) = (process_info <$> entries, Ok (zlen entries)).
Proof.
  unfold list_with_buffer, list_with_filter_impl. rewrite push_matching_filter, app_nil_l.
  assert (List.filter (fun _ => true) (process_info <$> entries) = process_info <$> entries) as ->
    by (induction entries as [|e l IH]; [done|]; cbn; by rewrite IH).
  f_equal. unfold zlen. by rewrite length_fmap.
Qed.

Lemma build_loop_edge ps t a b :
  edge (build_loop ps t) a b <->
  edge t a b \/ exists p, p ∈ ps /\ pi_parent_pid p = Some a /\ pi_pid p = b.
Proof.
  revert t; induction ps as [|p ps IH]; intros t; cbn [build_loop]; [set_solver|].
  rewrite IH. destruct (pi_parent_pid p) as [q|] eqn:Ep; [|set_solver].
  assert (edge (add_child q (pi_pid p) t) a b <-> edge t a b \/ (a = q /\ b = pi_pid p)) as He.
  { unfold edge, add_child. destruct (decide (a = q)) as [->|Hne].
    - rewrite lookup_insert_eq. destruct (t !! q) as [cs|]; cbn; split.
      + intros (? & [= <-] & [?|?%list_elem_of_singleton]%elem_of_app); eauto.
      + intros [(? & [= <-] & ?)|[_ ->]]; eexists; (split; [done|]); apply elem_of_app; [by left|right; by left].
      + intros (? & [= <-] & ?%list_elem_of_singleton); eauto.
      + intros [(? & [=] & _)|[_ ->]]. eexists; split; [done|]. by left.
    - rewrite lookup_insert_ne by done. naive_solver. }
  rewrite He. set_solver.
Qed.

(** The edges of the tree are the parent links of the snapshot. *)
Lemma build_process_tree_edge ps a b :
  edge (build_process_tree ps) a b <->
  exists p, p ∈ ps /\ pi_parent_pid p = Some a /\ pi_pid p = b.
Proof.
  unfold build_process_tree. rewrite build_loop_edge. split; [|by right].
  intros [(cs & H & _)|?]; [|done]. by rewrite lookup_empty in H.
Qed.

Lemma edge_child_pids t a b : edge t a b -> b ∈ child_pids t.
Proof.
  intros (cs & Ha & Hb). unfold child_pids. apply elem_of_list_to_set, list_elem_of_join.
  exists cs. split; [done|]. apply list_elem_of_fmap. exists (a, cs). split; [done|].
  by apply elem_of_map_to_list.
Qed.

Lemma tc_child_pids t a b : tc (edge t) a b -> b ∈ child_pids t.
Proof. induction 1; [by eapply edge_child_pids|done]. Qed.

(** What one call of [collect_descendants] adds to [result]: the children of
    [pid] are in, and every new element is a descendant of [pid] whose own
    children are in. *)
Definition collected (t : tree) (pid : Z) (result r : gset Z) : Prop :=
  forall x, x ∈ r -> x ∉ result -> tc (edge t) pid x /\ forall y, edge t x y -> y ∈ r.

Lemma collect_fold (t : tree) fuel pid result :
  (forall c r0, size (child_pids t ∖ r0) < fuel -> exists r,
      collect_descendants fuel c t r0 = Some r /\ r0 ⊆ r /\
      (forall y, edge t c y -> y ∈ r) /\ collected t c r0 r)%nat ->
  (size (child_pids t ∖ result) <= fuel)%nat ->
  forall cs r0, Forall (edge t pid) cs -> result ⊆ r0 -> collected t pid result r0 ->
  exists r,
    fold_left (fun acc child => result ← acc;
      if decide (child ∈ result) then Some result
      else collect_descendants fuel child t ({[child]} ∪ result)) cs (Some r0) = Some r /\
    r0 ⊆ r /\ Forall (fun c => c ∈ r) cs /\ collected t pid result r.
Proof.
  intros IH Hsz. induction cs as [|c cs IHcs]; intros r0 Hcs Hr0 Hcol; cbn [fold_left].
  { by exists r0. }
  inversion Hcs as [|? ? Hc Hcs']; subst. cbn [mbind option_bind].
  destruct (decide (c ∈ r0)) as [Hin|Hin].
  - destruct (IHcs r0) as (r & -> & Hsub & Hall & Hr); [done..|].
    exists r. split; [done|]. split; [done|]. split; [|done]. constructor; [by apply Hsub|done].
  - destruct (IH c ({[c]} ∪ r0)) as (r1 & -> & Hsub1 & Hedge & Hcol1).
    { assert (c ∈ child_pids t) as Hcp by (by eapply edge_child_pids).
      eapply Nat.lt_le_trans; [|exact Hsz]. apply subset_size. set_solver. }
    destruct (IHcs r1) as (r & -> & Hsub & Hall & Hr); [done|set_solver| |].
    + intros x Hx Hxr. destruct (decide (x = c)) as [->|Hxc].
      { split; [by apply tc_once|]. exact Hedge. }
      destruct (decide (x ∈ r0)) as [Hx0|Hx0].
      { destruct (Hcol x Hx0 Hxr) as [? Hcl]. split; [done|]. intros y Hy. specialize (Hcl y Hy). set_solver. }
      destruct (Hcol1 x Hx) as [? ?]; [set_solver|]. split; [|done]. by eapply tc_l.
    + exists r. split; [done|]. split; [set_solver|]. split; [|done]. constructor; [set_solver|done].
Qed.

Lemma collect_descendants_spec (t : tree) fuel pid result :
  (size (child_pids t ∖ result) < fuel)%nat ->
  exists r, collect_descendants fuel pid t result = Some r /\ result ⊆ r /\
    (forall y, edge t pid y -> y ∈ r) /\ collected t pid result r.
Proof.
  revert pid result; induction fuel as [|fuel IH]; intros pid result Hsz; [lia|].
  cbn [collect_descendants]. destruct (t !! pid) as [cs|] eqn:E.
  - destruct (collect_fold t fuel pid result IH) with (cs := cs) (r0 := result)
      as (r & -> & Hsub & Hall & Hr); [lia| |done|by intros x ? ?|].
    + apply Forall_forall. intros c Hc. by exists cs.
    + exists r. split; [done|]. split; [done|]. split; [|done].
      intros y (cs' & E' & Hy). simplify_eq. rewrite Forall_forall in Hall. by apply Hall.
  - exists result. split; [done|]. split; [done|]. split; [|by intros x ? ?].
    intros y (cs & E' & _). congruence.
Qed.

Lemma collect_descendants_tc (t : tree) pid :
  exists r, collect_descendants (nodes_fuel t) pid t ∅ = Some r /\
    forall d, d ∈ r <-> tc (edge t) pid d.
Proof.
  destruct (collect_descendants_spec t (nodes_fuel t) pid ∅) as (r & Hr & _ & Hch & Hcol).
  { unfold nodes_fuel. apply Nat.lt_succ_r, subseteq_size. set_solver. }
  exists r. split; [done|]. intros d. split; [intros Hd; by apply (Hcol d Hd), not_elem_of_empty|].
  revert d. apply tc_ind_r; [exact Hch|]. intros y z _ Hyz Hy.
  destruct (Hcol y Hy) as [_ Hcl]; [apply not_elem_of_empty|]. by apply Hcl.
Qed.

(** Descendants, as a set: the measure of the recursions on the tree. *)
Definition descendants (t : tree) (pid : Z) : gset Z :=
  default ∅ (collect_descendants (nodes_fuel t) pid t ∅).

Lemma elem_of_descendants t pid d : d ∈ descendants t pid <-> tc (edge t) pid d.
Proof.
  unfold descendants. destruct (collect_descendants_tc t pid) as (r & -> & H). apply H.
Qed.

Lemma descendants_shrink t a b :
  acyclic t -> tc (edge t) a b -> (size (descendants t b) < size (descendants t a))%nat.
Proof.
  intros Hac Hab. apply subset_size. split.
  - intros d. rewrite !elem_of_descendants. intros H. by etrans.
  - intros Hsub. apply (Hac b). apply elem_of_descendants, Hsub. by apply elem_of_descendants.
Qed.

Lemma descendants_fuel t pid : (size (descendants t pid) < nodes_fuel t)%nat.
Proof.
  unfold nodes_fuel. apply Nat.lt_succ_r, subseteq_size. intros d Hd.
  apply elem_of_descendants in Hd. by eapply tc_child_pids.
Qed.

Lemma mapM_is_Some {A B} (f : A -> option B) l :
  Forall (fun x => is_Some (f x)) l -> is_Some (mapM f l).
Proof. apply mapM_is_Some_2. Qed.

Lemma tree_depth_terminates t fuel pid :
  acyclic t -> (size (descendants t pid) < fuel)%nat -> is_Some (tree_depth fuel pid t).
Proof.
  intros Hac. revert pid; induction fuel as [|fuel IH]; intros pid Hsz; [lia|].
  cbn [tree_depth]. destruct (t !! pid) as [cs|] eqn:E; [|by eexists].
  destruct (mapM_is_Some (fun c => tree_depth fuel c t) cs) as [ds ->]; [|by eexists].
  apply Forall_forall. intros c Hc. apply IH.
  assert (tc (edge t) pid c) as Hpc by (apply tc_once; by exists cs).
  pose proof (descendants_shrink t pid c Hac Hpc). lia.
Qed.

(** More fuel does not change a depth that was found. *)
Lemma tree_depth_mono t fuel fuel' pid d :
  tree_depth fuel pid t = Some d -> (fuel <= fuel')%nat -> tree_depth fuel' pid t = Some d.
Proof.
  revert fuel' pid d; induction fuel as [|fuel IH]; intros fuel' pid d H Hle; [done|].
  destruct fuel' as [|fuel']; [lia|]. cbn [tree_depth] in *.
  destruct (t !! pid) as [cs|]; [|done].
  apply bind_Some in H as (ds & Hds & [= <-]). apply mapM_Some in Hds.
  assert (mapM (fun c => tree_depth fuel' c t) cs = Some ds) as ->; [|done].
  apply mapM_Some. eapply Forall2_impl; [exact Hds|]. intros c dc Hc. eapply IH; [exact Hc|lia].
Qed.

Lemma fold_max_elem d ds : d ∈ ds -> d <= fold_right Z.max 0 ds.
Proof. induction 1 as [|? ? ? ? IH]; cbn [fold_right]; lia. Qed.

(** The depth that orders the kills is the height of the subtree: it is
    larger at a parent than at its child. *)
Lemma tree_depth_child t fuel a b da db :
  edge t a b -> tree_depth fuel a t = Some da -> tree_depth fuel b t = Some db -> db < da.
Proof.
  intros (cs & Ha & Hb) Hda Hdb. destruct fuel as [|fuel]; [done|].
  cbn [tree_depth] in Hda. rewrite Ha in Hda. apply bind_Some in Hda as (ds & Hds & [= <-]).
  apply mapM_Some in Hds. apply list_elem_of_lookup in Hb as (i & Hi).
  destruct (Forall2_lookup_l _ _ _ _ _ Hds Hi) as (d & Hd & Hbd).
  apply (tree_depth_mono t fuel (S fuel)) in Hbd; [|lia]. rewrite Hdb in Hbd. injection Hbd as ->.
  pose proof (fold_max_elem d ds (list_elem_of_lookup_2 _ _ _ Hd)). lia.
Qed.

Lemma tree_depth_descendant t fuel a b da db :
  acyclic t -> (nodes_fuel t <= fuel)%nat -> tc (edge t) a b ->
  tree_depth fuel a t = Some da -> tree_depth fuel b t = Some db -> db < da.
Proof.
  intros Hac Hf H. revert da db. induction H as [a b H|a m b Ham _ IH]; intros da db Ha Hb.
  - by eapply tree_depth_child.
  - destruct (tree_depth_terminates t fuel m Hac) as [dm Hm].
    { pose proof (descendants_fuel t m). lia. }
    specialize (IH dm db Hm Hb). pose proof (tree_depth_child t fuel a m da dm Ham Ha Hm). lia.
Qed.

(** [collect_descendants] returns for every process tree, also one
    with parent cycles, and collects exactly the processes reachable through
    one or more child links of the snapshot. *)
Theorem collect_descendants_reachable ps pid :
  let t := build_process_tree ps in
  exists r, collect_descendants (nodes_fuel t) pid t ∅ = Some r /\
    forall d, d ∈ r <->
      tc (fun a b => exists p, p ∈ ps /\ pi_parent_pid p = Some a /\ pi_pid p = b) pid d.
Proof.
  intros t. destruct (collect_descendants_tc t pid) as (r & Hr & H). exists r. split; [done|].
  intros d. rewrite H. split; apply (tc_congruence id); intros x y; apply build_process_tree_edge.
Qed.

(** With a parent cycle, which the re-use of process ids can produce,
    [tree_depth] has no result at any depth of recursion: the ordering step
    of [kill_tree_by_id] does not return for a process on the cycle. *)
Theorem tree_depth_diverges t pid :
  tc (edge t) pid pid -> forall fuel, tree_depth fuel pid t = None.
Proof.
  intros H fuel. revert pid H; induction fuel as [|fuel IH]; intros pid H; [done|].
  assert (exists c, edge t pid c /\ tc (edge t) c c) as (c & (cs & E & Hc) & Hcc).
  { inversion H as [? ? Hp|? y ? Hp Hy]; subst; [by exists pid|].
    exists y. split; [done|]. by eapply tc_r. }
  cbn [tree_depth]. rewrite E. destruct (mapM _ cs) as [ds|] eqn:Em; [|done]. exfalso.
  apply mapM_Some in Em. apply list_elem_of_lookup in Hc as (i & Hi).
  destruct (Forall2_lookup_l _ _ _ _ _ Em Hi) as (d & _ & Hd). by rewrite (IH c Hcc) in Hd.
Qed.

(** ** Kill order *)

Section Facts.
Context (open_answer terminate_answer : Z -> option win_error).
Context (set_iter : gset Z -> list Z) (Hset : forall s, set_iter s ≡ₚ elements s).

Lemma strongly_sorted_lookup {A} (R : A -> A -> Prop) l i j x y :
  StronglySorted R l -> l !! i = Some x -> l !! j = Some y -> (i < j)%nat -> R x y.
Proof.
  intros H. revert i j. induction H as [|z l _ IH Hz]; intros i j Hx Hy Hij; [done|].
  destruct j as [|j]; [lia|]. destruct i as [|i]; cbn in Hx, Hy.
  - injection Hx as ->. rewrite Forall_lookup in Hz. by eapply Hz.
  - eapply IH; [done..|lia].
Qed.

Lemma kill_order_spec t to_kill :
  acyclic t ->
  exists order, kill_order set_iter t to_kill = Some order /\ order ≡ₚ elements to_kill /\
    forall i j a b, order !! i = Some a -> order !! j = Some b -> tc (edge t) a b -> (i < j)%nat.
Proof.
  intros Hac. unfold kill_order.
  set (f := fun pid : Z => d ← tree_depth (nodes_fuel t) pid t; Some (pid, d)).
  destruct (mapM_is_Some f (set_iter to_kill)) as [ds Hds].
  { apply Forall_forall. intros x _. unfold f.
    destruct (tree_depth_terminates t (nodes_fuel t) x Hac (descendants_fuel t x)) as [d ->].
    by eexists. }
  rewrite Hds. cbn [mbind option_bind]. eexists. split; [done|].
  apply mapM_Some in Hds.
  assert (forall x, x ∈ ds -> tree_depth (nodes_fuel t) (fst x) t = Some (snd x)) as Hd.
  { intros x Hx. apply list_elem_of_lookup in Hx as (i & Hi).
    destruct (Forall2_lookup_r _ _ _ _ _ Hds Hi) as (y & _ & Hy). unfold f in Hy.
    apply bind_Some in Hy as (d & E & [= <-]). done. }
  assert (fst <$> ds = set_iter to_kill) as Hfst.
  { clear Hd. unfold f in Hds. induction Hds as [|y x l k Hy _ IH]; [done|].
    apply bind_Some in Hy as (d & E & [= <-]). cbn. by rewrite <- IH. }
  set (key := fun x : Z * Z => - snd x). split.
  - rewrite (sort_by_key_perm key ds), Hfst. apply Hset.
  - intros i j a b Ha Hb Hab.
    apply list_lookup_fmap_Some in Ha as ([a' da] & -> & Ha).
    apply list_lookup_fmap_Some in Hb as ([b' db] & -> & Hb). cbn in Hab.
    assert (forall k x, sort_by_key key ds !! k = Some x ->
              tree_depth (nodes_fuel t) (fst x) t = Some (snd x)) as Hk.
    { intros k x Hx. apply Hd. apply list_elem_of_lookup_2 in Hx. by rewrite (sort_by_key_perm key ds) in Hx. }
    pose proof (Hk i _ Ha) as Hda. pose proof (Hk j _ Hb) as Hdb. cbn in Hda, Hdb.
    pose proof (tree_depth_descendant t _ _ _ _ _ Hac (le_n _) Hab Hda Hdb) as Hlt.
    destruct (decide (i < j)%nat) as [|Hij]; [done|exfalso].
    destruct (decide (i = j)) as [->|Hne]; [rewrite Ha in Hb; simplify_eq; lia|].
    pose proof (strongly_sorted_lookup _ _ j i _ _ (sort_by_key_sorted key ds) Hb Ha ltac:(lia)) as Hs.
    unfold key_le, key in Hs. cbn in Hs. lia.
Qed.

(** [C27] On a snapshot without parent cycles [kill_tree_by_id] returns; it
    attempts to kill the process and each of its descendants exactly once and
    no other process, whatever the answers of the OS, and the iteration order
    of the hash set does not matter for this.  The order it uses is parents
    first: a process is killed before every one of its descendants (the
    source comment and the documentation of [kill_tree] announce the opposite
    order).  When no snapshot can be taken nothing is killed. *)
Theorem kill_tree_by_id_correct entries pid :
  let t := build_process_tree (process_info <$> entries) in
  acyclic t ->
  (exists order,
    kill_tree_by_id open_answer terminate_answer set_iter (inr entries) pid = Some (kill_all open_answer terminate_answer order, Ok ()) /\
    NoDup order /\
    (forall d, d ∈ order <-> d = pid \/ tc (edge t) pid d) /\
    (forall i j a b, order !! i = Some a -> order !! j = Some b -> tc (edge t) a b -> (i < j)%nat)) /\
  forall e, exists err, kill_tree_by_id open_answer terminate_answer set_iter (inl e) pid = Some ([], Err err).
Proof.
  intros t Hac. split; [|intros e; by eexists].
  unfold kill_tree_by_id. rewrite list_with_buffer_all. fold t. destruct (collect_descendants_tc t pid) as (r & -> & Hr). cbn [mbind option_bind].
  destruct (kill_order_spec t ({[pid]} ∪ r) Hac) as (order & -> & Hperm & Hord).
  exists order. split; [done|]. split; [rewrite Hperm; apply NoDup_elements|]. split; [|done].
  intros d. rewrite Hperm, elem_of_elements, elem_of_union, elem_of_singleton. by rewrite Hr.
Qed.

End Facts.

(** ** Root ancestor *)

Section RootAncestor.
Context (map_iter : tree -> list (Z * list Z)).
Context (Hmap : forall t, map_iter t ≡ₚ map_to_list t).


Lemma insert_children_lookup (p : Z) cs (m : gmap Z Z) c q :
  (fold_left (fun m child => <[child := p]> m) cs m : gmap Z Z) !! c = Some q <->
  (c ∈ cs /\ q = p) \/ ((c ∉ cs) /\ m !! c = Some q).
Proof.
  revert m; induction cs as [|x cs IH]; intros m; cbn [fold_left].
  { split; [right; split; [apply not_elem_of_nil|done]|].
    intros [[[]%elem_of_nil _]|[_ ?]]; done. }
  rewrite IH, !elem_of_cons, lookup_insert_Some.
  destruct (decide (x = c)) as [->|Hne], (decide (c ∈ cs)); naive_solver.
Qed.

Lemma child_to_parent_fold l (m : gmap Z Z) c :
  let r := fold_left (fun m (e : Z * list Z) =>
             fold_left (fun m child => <[child := fst e]> m) (snd e) m) l m in
  (forall p, r !! c = Some p -> m !! c = Some p \/ exists cs, (p, cs) ∈ l /\ c ∈ cs) /\
  ((is_Some (m !! c) \/ exists p cs, (p, cs) ∈ l /\ c ∈ cs) -> is_Some (r !! c)).
Proof.
  revert m; induction l as [|[q cs] l IH]; intros m; cbn [fold_left].
  { split; [by left|]. intros [?|(? & ? & H & _)]; [done|]. by apply not_elem_of_nil in H. }
  destruct (IH (fold_left (fun m child => <[child := q]> m) cs m)) as [IH1 IH2]. split.
  - intros p Hp. apply IH1 in Hp as [Hp|(cs' & ? & ?)]; [|right; exists cs'; set_solver].
    apply insert_children_lookup in Hp as [[? ->]|[_ ?]]; [right; exists cs; set_solver|by left].
  - intros H. apply IH2. destruct (decide (c ∈ cs)) as [Hc|Hc].
    { left. exists q. apply insert_children_lookup. by left. }
    destruct H as [[x Hx]|(p & cs' & Hin & Hc')].
    + left. exists x. apply insert_children_lookup. by right.
    + apply elem_of_cons in Hin as [[= -> ->]|Hin]; [done|]. right. by exists p, cs'.
Qed.

Lemma child_to_parent_spec t c :
  (forall p, child_to_parent map_iter t !! c = Some p -> edge t p c) /\
  (forall p, edge t p c -> is_Some (child_to_parent map_iter t !! c)).
Proof.
  unfold child_to_parent. destruct (child_to_parent_fold (map_iter t) ∅ c) as [H1 H2]. split.
  - intros p Hp. apply H1 in Hp as [Hp|(cs & Hin & Hc)]; [by rewrite lookup_empty in Hp|].
    exists cs. split; [|done]. rewrite Hmap in Hin. by apply elem_of_map_to_list.
  - intros p (cs & Hp & Hc). apply H2. right. exists p, cs. split; [|done].
    rewrite Hmap. by apply elem_of_map_to_list.
Qed.

Lemma walk_up_spec t fuel visited pid cur :
  (size (dom (child_to_parent map_iter t) ∖ visited) < fuel)%nat ->
  rtc (edge t) cur pid -> (forall v, v ∈ visited -> tc (edge t) cur v) ->
  exists root, walk_up fuel (child_to_parent map_iter t) visited cur = Some root /\
    rtc (edge t) root pid /\ ((forall p, ~ edge t p root) \/ tc (edge t) root root).
Proof.
  revert visited cur; induction fuel as [|fuel IH]; intros visited cur Hsz Hr Hv; [lia|].
  cbn [walk_up]. destruct (child_to_parent_spec t cur) as [H1 H2].
  destruct (child_to_parent map_iter t !! cur) as [parent|] eqn:E.
  - specialize (H1 parent eq_refl).
    destruct (decide (cur ∈ visited)) as [Hin|Hin]; [exists cur; auto|].
    apply IH; [|by eapply rtc_l|].
    + enough (size (dom (child_to_parent map_iter t) ∖ ({[cur]} ∪ visited))
              < size (dom (child_to_parent map_iter t) ∖ visited))%nat by lia.
      apply subset_size.
      assert (cur ∈ dom (child_to_parent map_iter t)) by (apply elem_of_dom; by exists parent). set_solver.
    + intros v [->%elem_of_singleton|Hvis]%elem_of_union; [by apply tc_once|].
      eapply tc_l; [exact H1|by apply Hv].
  - exists cur. split; [done|]. split; [done|]. left. intros p Hp.
    destruct (H2 p Hp) as [x Hx]. congruence.
Qed.

(** [find_root_ancestor] returns for every tree, also one with parent
    cycles and whatever the iteration order of the hash map: the result is
    the process or one of its ancestors, and either no process of the
    snapshot is its parent, or it lies on a parent cycle. *)
Theorem find_root_ancestor_spec ps pid :
  let t := build_process_tree ps in
  exists root, find_root_ancestor map_iter pid t = Some root /\ rtc (edge t) root pid /\
    ((forall p, ~ edge t p root) \/ tc (edge t) root root).
Proof.
  intros t. unfold find_root_ancestor. apply walk_up_spec; [|done|set_solver].
  rewrite difference_empty_L, size_dom. lia.
Qed.
End RootAncestor.

(** ** Witnesses *)

(** A snapshot in which 4 started 8 and 8 started 12. *)
Definition chain_entries : list process_entry :=
  [mk_process_entry 4 0 1 []; mk_process_entry 8 4 1 []; mk_process_entry 12 8 1 []].

Lemma build_smaller_acyclic ps :
  Forall (fun p => match pi_parent_pid p with Some q => q < pi_pid p | None => True end) ps ->
  acyclic (build_process_tree ps).
Proof.
  intros Hps. assert (forall a b, tc (edge (build_process_tree ps)) a b -> a < b) as Hlt.
  { assert (forall a b, edge (build_process_tree ps) a b -> a < b) as Hedge.
    { intros a b H. apply (build_process_tree_edge ps a b) in H as (p & Hp & Ep & <-).
      rewrite Forall_forall in Hps. specialize (Hps p Hp). cbn in Hps. by rewrite Ep in Hps. }
    intros a b H. induction H as [a b H|a m b H _ IH]; specialize (Hedge _ _ H); lia. }
  intros x Hx. specialize (Hlt x x Hx). lia.
Qed.

Lemma kill_tree_by_id_correct_witness :
  exists order, kill_tree_by_id (fun _ => None) (fun _ => None) elements (inr chain_entries) 4
    = Some (kill_all (fun _ => None) (fun _ => None) order, Ok ()) /\ NoDup order /\ 12 ∈ order.
Proof.
  destruct (kill_tree_by_id_correct (fun _ => None) (fun _ => None) elements
              (fun s => Permutation_refl _) chain_entries 4) as [(order & H & Hn & Hd & _) _].
  - apply build_smaller_acyclic. repeat constructor; vm_compute; reflexivity.
  - exists order. split; [exact H|]. split; [exact Hn|]. apply Hd. right.
    eapply tc_l; [|apply tc_once]; apply build_process_tree_edge; cbn.
    + exists (process_info (mk_process_entry 8 4 1 [])). split; [right; left|]. split; reflexivity.
    + exists (process_info (mk_process_entry 12 8 1 [])). split; [right; right; left|]. split; reflexivity.
Defined.

(** 100 started 200, exited, and 200 then started a process that got the id
    100 again. *)
Lemma tree_depth_diverges_witness :
  tree_depth 1000 100 (build_process_tree [mkProcessInfo 200 (Some 100) [] 1; mkProcessInfo 100 (Some 200) [] 1])
  = None.
Proof.
  apply tree_depth_diverges. eapply tc_l; [|apply tc_once]; apply build_process_tree_edge.
  - exists (mkProcessInfo 200 (Some 100) [] 1). split; [left|]. split; reflexivity.
  - exists (mkProcessInfo 100 (Some 200) [] 1). split; [right; left|]. split; reflexivity.
Defined.

Lemma find_root_ancestor_spec_witness :
  rtc (edge (build_process_tree (process_info <$> chain_entries))) 4 12.
Proof.
  destruct (find_root_ancestor_spec map_to_list (fun t => Permutation_refl _)
              (process_info <$> chain_entries) 12) as (root & H & Hr & _).
  vm_compute in H. injection H as <-. exact Hr.
Defined.
