(* ===== verification/NtPath.v ===== *)
(** * NtPath: NT device paths to DOS paths

    src/path/mod.rs.  The device map cache is explicit state; an answer of
    [QueryDosDeviceW] for a drive letter is the UTF-16 text it wrote
    ([buffer[..len]], empty when the call returns 0), and the [SystemRoot]
    variable is an argument.  Both can change between two calls, so every
    operation takes the current ones. *)

From Stdlib Require Import ZArith Lia String Ascii.
From stdpp Require Import base list strings gmap numbers sorting.
From S2P Require Import Prelude Text Unicode.

Open Scope Z_scope.

Definition DEVICE_PREFIX : str := lit "\Device\".
Definition NT_ALIAS_PREFIX : str := lit "\??\".
Definition SYSTEM_ROOT_PREFIX : str := lit "\SystemRoot\".

Abbreviation device_map := (gmap str Z).
Abbreviation dos_devices := (Z -> list Z).

(** [while device_path.last() == Some(&0) { device_path.pop() }]. *)
Fixpoint drop_leading_zeros (us : list Z) : list Z :=
  match us with
  | u :: rest => if u =? 0 then drop_leading_zeros rest else us
  | [] => []
  end.
Definition trim_zeros (us : list Z) : list Z := reverse (drop_leading_zeros (reverse us)).

Definition map_drive (query : dos_devices) (map : device_map) (drive_char : Z) : device_map :=
  match query drive_char with
  | [] => map
  | buffer => <[from_utf16_lossy (trim_zeros buffer) := drive_char]> map
  end.

(** ['A'..='Z']. *)
Definition drives : list Z := Z.of_nat <$> seq 65 26.

Definition build_device_map (query : dos_devices) : device_map :=
  fold_left (map_drive query) drives ∅.

(** The cache after the call and the map [f] is run on. *)
Definition with_device_map (query : dos_devices) (cache : option device_map)
    : option device_map * device_map :=
  match cache with
  | Some map => (cache, map)
  | None => (Some (build_device_map query), build_device_map query)
  end.

Definition refresh_device_map (query : dos_devices) (cache : option device_map) : option device_map :=
  Some (build_device_map query).

Definition is_ascii_alphabetic (c : Z) : bool :=
  ((65 <=? c) && (c <=? 90)) || ((97 <=? c) && (c <=? 122)).

Definition is_dos_drive_path (path : str) : bool :=
  match path with
  | c :: d :: _ => is_ascii_alphabetic c && (d =? 58)
  | _ => false
  end.

(** The [\Device\] branch, [rest] being the input without the prefix. *)
Definition device_path (query : dos_devices) (cache : option device_map) (input rest : str)
    : option device_map * option str :=
  let root_len := default (length rest) (find_char 92 rest) in
  let device_root := take (length DEVICE_PREFIX + root_len) input in
  let (cache, map) := with_device_map query cache in
  (cache,
   match map !! device_root with
   | None => None
   | Some drive_char =>
       Some (drive_char :: 58 ::
             (if (root_len <? length rest)%nat then drop root_len rest else [92]))
   end).

(** The new cache, the returned flag and the new contents of [out]. *)
Definition nt_path_to_dos_into (query : dos_devices) (system_root : option str)
    (cache : option device_map) (input out : str) : option device_map * bool * str :=
  match input with
  | [] => (cache, false, [])
  | _ =>
      if is_dos_drive_path input then (cache, true, input)
      else match strip_prefix NT_ALIAS_PREFIX input with
      | Some rest => if is_dos_drive_path rest then (cache, true, rest) else (cache, false, [])
      | None =>
          match strip_prefix SYSTEM_ROOT_PREFIX input with
          | Some rest =>
              match system_root with
              | None => (cache, false, [])
              | Some windir => (cache, true, windir ++ [92] ++ rest)
              end
          | None =>
              match strip_prefix DEVICE_PREFIX input with
              | Some rest =>
                  match device_path query cache input rest with
                  | (cache, Some dos) => (cache, true, dos)
                  | (cache, None) => (cache, false, [])
                  end
              | None => (cache, false, [])
              end
          end
      end
  end.

Definition nt_path_to_dos (query : dos_devices) (system_root : option str)
    (cache : option device_map) (input : str) : option device_map * option str :=
  match nt_path_to_dos_into query system_root cache input [] with
  | (cache, true, out) => (cache, Some out)
  | (cache, false, _) => (cache, None)
  end.

(** ** The device map *)

Lemma drives_range d : d ∈ drives <-> 65 <= d <= 90.
Proof.
  unfold drives. rewrite list_elem_of_fmap. setoid_rewrite elem_of_seq. split.
  - intros (n & -> & ?). lia.
  - intros ?. exists (Z.to_nat d). lia.
Qed.

(** The text a drive letter is mapped to. *)
Definition device_of (query : dos_devices) (d : Z) : option str :=
  match query d with [] => None | b => Some (from_utf16_lossy (trim_zeros b)) end.

Lemma map_drive_lookup query m d root :
  map_drive query m d !! root = if decide (device_of query d = Some root) then Some d else m !! root.
Proof.
  unfold map_drive, device_of. destruct (query d) as [|u us]; [by rewrite decide_False by done|].
  case_decide as H; [injection H as <-; apply lookup_insert_eq|].
  apply lookup_insert_ne. congruence.
Qed.

Lemma fold_map_drive_lookup query ds m root d :
  fold_left (map_drive query) ds m !! root = Some d <->
  (exists l1 l2, ds = l1 ++ d :: l2 /\ device_of query d = Some root /\
     Forall (fun d' => device_of query d' <> Some root) l2) \/
  (Forall (fun d' => device_of query d' <> Some root) ds /\ m !! root = Some d).
Proof.
  revert m; induction ds as [|x ds IH]; intros m; cbn [fold_left].
  { split; [by right|]. intros [([] & ? & ? & _)|[_ ?]]; done. }
  rewrite IH, map_drive_lookup, Forall_cons. case_decide as Hx; split.
  - intros [(l1 & l2 & -> & ? & ?)|[Hall [= ->]]]; left; [by exists (x :: l1), l2|by exists [], ds].
  - intros [(l1 & l2 & E & ? & ?)|[[? _] _]]; [|done]. destruct l1 as [|y l1]; injection E as -> ->.
    + right. done.
    + left. by exists l1, l2.
  - intros [(l1 & l2 & -> & ? & ?)|[Hall ?]]; [left; by exists (x :: l1), l2|by right].
  - intros [(l1 & l2 & E & ? & ?)|[[_ ?] ?]]; [|by right]. destruct l1 as [|y l1]; injection E as -> ->.
    + done.
    + left. by exists l1, l2.
Qed.

Lemma drives_split l1 d l2 : drives = l1 ++ d :: l2 -> forall d', d' ∈ l2 <-> d < d' <= 90.
Proof.
  intros E. assert (length l1 < 26)%nat as Hn.
  { apply (f_equal length) in E. rewrite length_app in E. cbn in E. lia. }
  assert (l2 = drop (S (length l1)) drives) as ->.
  { rewrite E. rewrite drop_app_ge by lia.
    replace (S (length l1) - length l1)%nat with 1%nat by lia. done. }
  assert (drives !! length l1 = Some d) as Hd by (rewrite E; by rewrite list_lookup_middle).
  clear E. unfold drives in *. rewrite list_lookup_fmap in Hd.
  rewrite lookup_seq_lt in Hd by lia. injection Hd as <-.
  intros d'. rewrite skipn_map, skipn_seq, list_elem_of_fmap. setoid_rewrite elem_of_seq. split.
  - intros (n & -> & ?). lia.
  - intros ?. exists (Z.to_nat d'). lia.
Qed.

(** The map sends a device root to the last drive letter that is mapped to
    it. *)
Lemma build_device_map_lookup query root d :
  build_device_map query !! root = Some d <->
  65 <= d <= 90 /\ device_of query d = Some root /\
  forall d', d < d' <= 90 -> device_of query d' <> Some root.
Proof.
  unfold build_device_map. rewrite fold_map_drive_lookup. split.
  - intros [(l1 & l2 & E & Hd & Hl)|[_ H]]; [|by rewrite lookup_empty in H].
    split; [apply drives_range; rewrite E; set_solver|]. split; [done|]. intros d' Hd'.
    rewrite Forall_forall in Hl. apply Hl. by eapply drives_split.
  - intros (Hr & Hd & Hl). left. apply drives_range in Hr as Hin.
    apply list_elem_of_split in Hin as (l1 & l2 & E). exists l1, l2. split; [done|]. split; [done|].
    apply Forall_forall. intros d' Hd'. apply Hl. by eapply drives_split in Hd'.
Qed.

Lemma dos_path_into query sr cache path out :
  is_dos_drive_path path = true -> nt_path_to_dos_into query sr cache path out = (cache, true, path).
Proof. unfold nt_path_to_dos_into. intros H. destruct path; [done|]. by rewrite H. Qed.

Definition cache_ok (cache : option device_map) : Prop :=
  forall m, cache = Some m -> exists q, m = build_device_map q.

Lemma with_device_map_ok query cache :
  cache_ok cache -> exists q, with_device_map query cache = (Some (build_device_map q), build_device_map q)
    /\ (cache = None -> q = query).
Proof.
  intros Hc. destruct cache as [m|]; cbn.
  - destruct (Hc m eq_refl) as [q ->]. by exists q.
  - by exists query.
Qed.

Lemma device_root_split root tail :
  lacks 92 root -> tail = [] \/ (exists t, tail = 92 :: t) ->
  default (length (root ++ tail)) (find_char 92 (root ++ tail)) = length root.
Proof.
  intros Hr Ht. unfold find_char. destruct Ht as [->|[t ->]].
  - rewrite app_nil_r. destruct (position (Z.eqb 92) root) eqn:E; [|done]. exfalso.
    assert (position (Z.eqb 92) root = None) as En; [|congruence].
    apply position_none. eapply Forall_impl; [exact Hr|]. intros x Hx. by apply Z.eqb_neq, not_eq_sym.
  - rewrite position_app_hit; [done| |done]. eapply Forall_impl; [exact Hr|]. intros x Hx. by apply Z.eqb_neq, not_eq_sym.
Qed.

(** What [nt_path_to_dos_into] does, on every form of input: the old
    contents of [out] never matter and a failed call leaves [out] empty; a
    DOS path and an alias of a DOS path come out as that DOS path without
    touching the cache; and a path on a device, [\Device\root] followed by
    nothing or by [\...], becomes [D:\...] for the last drive letter [D] that
    the cached answers of [QueryDosDeviceW] map to the device, or fails if
    there is none.  The answers are those of the cache when it is filled, and
    are read and cached by this call otherwise. *)
Theorem nt_path_to_dos_into_spec query sr cache out :
  cache_ok cache ->
  (forall input cache' out', nt_path_to_dos_into query sr cache input out = (cache', false, out') ->
     out' = []) /\
  (forall path, is_dos_drive_path path = true ->
     nt_path_to_dos_into query sr cache path out = (cache, true, path) /\
     nt_path_to_dos_into query sr cache (NT_ALIAS_PREFIX ++ path) out = (cache, true, path)) /\
  (forall root tail, lacks 92 root -> tail = [] \/ (exists t, tail = 92 :: t) ->
     exists q, (cache = None -> q = query) /\ (forall m, cache = Some m -> m = build_device_map q) /\
       let r := nt_path_to_dos_into query sr cache (DEVICE_PREFIX ++ root ++ tail) out in
       r.1.1 = Some (build_device_map q) /\
       (forall d, 65 <= d <= 90 -> device_of q d = Some (DEVICE_PREFIX ++ root) ->
          (forall d', d < d' <= 90 -> device_of q d' <> Some (DEVICE_PREFIX ++ root)) ->
          r.1.2 = true /\ r.2 = d :: 58 :: match tail with [] => [92] | _ => tail end) /\
       ((forall d, 65 <= d <= 90 -> device_of q d <> Some (DEVICE_PREFIX ++ root)) -> r.1.2 = false)).
Proof.
  intros Hc. split; [|split].
  - intros input cache' out' H. unfold nt_path_to_dos_into in H.
    repeat (case_match; simplify_eq; try done).
  - intros path Hp. split; [by apply dos_path_into|].
    unfold nt_path_to_dos_into. cbn [app]. rewrite strip_prefix_app, Hp. done.
  - intros root tail Hr Ht. destruct (with_device_map_ok query cache Hc) as (q & Hq & Hq0).
    exists q. split; [done|]. split; [intros m ->; by injection Hq|]. cbn zeta.
    assert (nt_path_to_dos_into query sr cache (DEVICE_PREFIX ++ root ++ tail) out =
      match build_device_map q !! (DEVICE_PREFIX ++ root) with
      | Some d => (Some (build_device_map q), true, d :: 58 :: match tail with [] => [92] | _ => tail end)
      | None => (Some (build_device_map q), false, [])
      end) as ->.
    { unfold nt_path_to_dos_into. cbn [app].
      assert (forall s, strip_prefix NT_ALIAS_PREFIX (DEVICE_PREFIX ++ s) = None) as -> by done.
      assert (forall s, strip_prefix SYSTEM_ROOT_PREFIX (DEVICE_PREFIX ++ s) = None) as -> by done.
      rewrite strip_prefix_app. unfold device_path. rewrite device_root_split by done.
      rewrite Hq.
      assert (take (length DEVICE_PREFIX + length root) (DEVICE_PREFIX ++ root ++ tail)
              = DEVICE_PREFIX ++ root) as ->.
      { rewrite app_assoc, <- length_app. apply take_app_length. }
      destruct (build_device_map q !! (DEVICE_PREFIX ++ root)) as [d|]; [|done].
      rewrite length_app, drop_app_length. destruct tail as [|c t].
      - cbn [length]. replace (length root <? length root + 0)%nat with false; [done|].
        symmetry. apply Nat.ltb_ge. lia.
      - cbn [length]. replace (length root <? length root + S (length t))%nat with true; [done|].
        symmetry. apply Nat.ltb_lt. lia. }
    split; [by case_match|]. split.
    + intros d Hd Hdev Hlast.
      assert (build_device_map q !! (DEVICE_PREFIX ++ root) = Some d) as ->; [|done].
      by apply build_device_map_lookup.
    + intros Hnone. destruct (build_device_map q !! (DEVICE_PREFIX ++ root)) as [d|] eqn:E; [|done].
      apply build_device_map_lookup in E as (Hd & Hdev & _). by destruct (Hnone d Hd).
Qed.

(** Converting is idempotent: when [SystemRoot], if set, is a DOS path,
    a successful conversion yields a DOS drive path, and converting that path
    again gives it unchanged, whatever the drives and the cache are by
    then. *)
Theorem nt_path_to_dos_idempotent query sr cache input cache' dos :
  cache_ok cache -> (forall w, sr = Some w -> is_dos_drive_path w = true) ->
  nt_path_to_dos query sr cache input = (cache', Some dos) ->
  is_dos_drive_path dos = true /\ cache_ok cache' /\
  forall query2 sr2 cache2, nt_path_to_dos query2 sr2 cache2 dos = (cache2, Some dos).
Proof.
  intros Hc Hsr H.
  assert (is_dos_drive_path dos = true /\ cache_ok cache') as [Hd Hc'].
  { destruct (with_device_map_ok query cache Hc) as (q & Hq & _).
    unfold nt_path_to_dos, nt_path_to_dos_into, device_path in H. rewrite Hq in H.
    destruct input as [|c input]; [done|].
    destruct (is_dos_drive_path (c :: input)) eqn:E1; [by simplify_eq|].
    destruct (strip_prefix NT_ALIAS_PREFIX (c :: input)) as [r1|].
    { destruct (is_dos_drive_path r1) eqn:E2; by simplify_eq. }
    destruct (strip_prefix SYSTEM_ROOT_PREFIX (c :: input)) as [r2|].
    { destruct sr as [w|]; [|done]. simplify_eq. split; [|done].
      specialize (Hsr w eq_refl). destruct w as [|a [|b w]]; done. }
    destruct (strip_prefix DEVICE_PREFIX (c :: input)) as [r3|]; [|done].
    destruct (build_device_map q !! _) as [d|] eqn:E4; [|done]. simplify_eq.
    split; [|intros m [= <-]; by exists q].
    apply build_device_map_lookup in E4 as (Hd & _ & _).
    cbn. unfold is_ascii_alphabetic. lia. }
  split; [done|]. split; [done|]. intros. unfold nt_path_to_dos. by rewrite dos_path_into.
Qed.

(** ** Witnesses *)

Definition query_c : dos_devices := fun d =>
  if d =? 67 then encode_utf16 (lit "\Device\HarddiskVolume3") ++ [0; 0] else [].

Lemma cache_ok_none : cache_ok None.
Proof. intros m H. discriminate H. Qed.

Lemma nt_path_to_dos_into_spec_witness :
  nt_path_to_dos_into query_c None None (lit "\??\C:\Windows") (lit "stale")
  = (None, true, lit "C:\Windows").
Proof.
  destruct (nt_path_to_dos_into_spec query_c None None (lit "stale") cache_ok_none) as (_ & H & _).
  apply (H (lit "C:\Windows")). vm_compute. reflexivity.
Defined.

Lemma nt_path_to_dos_idempotent_witness :
  is_dos_drive_path (lit "C:\cmd.exe") = true.
Proof.
  destruct (nt_path_to_dos_idempotent query_c None None (lit "\Device\HarddiskVolume3\cmd.exe")
              (Some (build_device_map query_c)) (lit "C:\cmd.exe")) as [H _].
  - exact cache_ok_none.
  - intros w E. discriminate E.
  - vm_compute. reflexivity.
  - exact H.
Defined.
