(* ===== verification/Effects.v ===== *)
(** * Effects: a state, error and panic monad

    Code that calls the operating system is an [eff S E A]: it runs in a
    state [S] (what the model keeps of the machine and of the process), and
    returns a value, an error of type [E] or a panic, together with the new
    state.  A destructor is a state transformer that runs on every outcome,
    as unwinding does. *)

From Stdlib Require Import ZArith Lia String Ascii.
From stdpp Require Import base list strings gmap numbers sorting.
From S2P Require Import Prelude Text.

Open Scope Z_scope.

Definition eff (S E A : Type) : Type := S -> res E A * S.

Definition eff_lift {S E A} (m : res E A) : eff S E A := fun s => (m, s).
Definition eff_ret {S E A} (a : A) : eff S E A := eff_lift (Ok a).
Definition eff_fail {S E A} (e : E) : eff S E A := eff_lift (Err e).

Definition eff_bind {S E A B} (m : eff S E A) (k : A -> eff S E B) : eff S E B := fun s =>
  match m s with
  | (Ok a, s) => k a s
  | (Err e, s) => (Err e, s)
  | (Panic p, s) => (Panic p, s)
  end.

(** A change of the state that returns a value and cannot fail. *)
Definition eff_state {S E A} (f : S -> A * S) : eff S E A := fun s =>
  let '(a, s) := f s in (Ok a, s).

(** [match m { Ok(a) => .., Err(e) => .. }]: a panic is not caught. *)
Definition eff_try {S E F A} (m : eff S E A) : eff S F (E + A) := fun s =>
  match m s with
  | (Ok a, s) => (Ok (inr a), s)
  | (Err e, s) => (Ok (inl e), s)
  | (Panic p, s) => (Panic p, s)
  end.

Definition eff_map_err {S E F A} (f : E -> F) (m : eff S E A) : eff S F A := fun s =>
  let '(r, s) := m s in (map_err f r, s).

(** A value with a destructor [dtor]. *)
Definition eff_scoped {S E A} (dtor : S -> S) (m : eff S E A) : eff S E A := fun s =>
  let '(r, s) := m s in (r, dtor s).

Declare Scope eff_scope.
Delimit Scope eff_scope with eff.
Notation "'let*' x ':=' m 'in' k" := (eff_bind m (fun x => k))
  (at level 10, x pattern, m at level 100, k at level 200,
   format "'[v' 'let*'  x  ':='  m  'in' '/' k ']'") : eff_scope.
Open Scope eff_scope.

Section Laws.
Context {S E A B : Type}.

Lemma eff_bind_ok (m : eff S E A) (k : A -> eff S E B) s b s' :
  eff_bind m k s = (Ok b, s') <->
  exists a s1, m s = (Ok a, s1) /\ k a s1 = (Ok b, s').
Proof. unfold eff_bind. destruct (m s) as [[a|e|p] s1]; naive_solver. Qed.

Lemma eff_bind_step (m : eff S E A) (k : A -> eff S E B) s a s1 :
  m s = (Ok a, s1) -> eff_bind m k s = k a s1.
Proof. unfold eff_bind. by intros ->. Qed.

(** A relation on states that every step respects is respected by the
    composition. *)
Lemma eff_bind_pres (P : S -> S -> Prop) (m : eff S E A) (k : A -> eff S E B) s :
  (forall s1 s2 s3, P s1 s2 -> P s2 s3 -> P s1 s3) ->
  P s (m s).2 -> (forall a s1, P s1 (k a s1).2) -> P s (eff_bind m k s).2.
Proof.
  unfold eff_bind. intros Ht Hm Hk. destruct (m s) as [[a|e|p] s1] eqn:E1; simpl in *; eauto.
Qed.
End Laws.
