(* ===== verification/Resources.v ===== *)
(** * Resources: what the process holds

    The state of code that opens and closes things: the machine, and how many
    more times each resource was acquired than released.  [owns m own] says
    that [m] gains exactly [own a] when it returns [a] and nothing when it
    fails; the lemmas are its rules for sequencing and destructors.
    [OwnedHandle] is src/utils/handles.rs. *)

From Stdlib Require Import ZArith Lia String Ascii.
From stdpp Require Import base list strings gmap numbers sorting.
From S2P Require Import Prelude Text Errors Effects.

Open Scope Z_scope.

(** ** What the process holds *)

Inductive resource :=
  | ResHandle (h : Z)        (** an open handle *)
  | ResEnv (p : Z)           (** a block of [CreateEnvironmentBlock] *)
  | ResAttributes            (** an initialised process attribute list *)
  | ResDescriptor (p : Z)    (** a converted security descriptor *)
  | ResPending (h : Z)       (** an overlapped operation the kernel has not finished *)
  | ResImpersonation         (** the thread runs with a client's identity *)
  | ResScHandle (h : Z)      (** a handle of the service control manager *)
  | ResSession (h : Z)       (** a WinHTTP session *)
  | ResMemory (p : Z)        (** memory the caller has to free *)
  | ResProvider (h : Z)      (** a registered event provider *)
  | ResKey (h : Z)           (** a CNG key *)
  | ResWindow (h : Z)        (** a window *)
  | ResMenu (h : Z)          (** a menu *)
  | ResTrayIcon (hwnd id : Z) (** an icon in the notification area *)
  | ResGdi (h : Z)           (** a GDI object *)
  | ResPaint (h : Z)         (** a window between [BeginPaint] and [EndPaint] *)
  | ResClipboard             (** the clipboard is open *).

#[export] Instance resource_eq_dec : EqDecision resource.
Proof. solve_decision. Defined.

(** How many more times a resource was acquired than released. *)
Record proc_st (W : Type) := mkProcSt { pmach : W; held : resource -> Z }.
Arguments mkProcSt {W} _ _.
Arguments pmach {W} _.
Arguments held {W} _ _.

Definition bump (f : resource -> Z) (r : resource) (d : Z) : resource -> Z :=
  fun x => if decide (x = r) then f x + d else f x.

Section State.
Context {W : Type}.
Definition acquire (r : resource) (s : proc_st W) : proc_st W := mkProcSt (pmach s) (bump (held s) r 1).
Definition release (r : resource) (s : proc_st W) : proc_st W := mkProcSt (pmach s) (bump (held s) r (-1)).
Definition at_machine (w : W) (s : proc_st W) : proc_st W := mkProcSt w (held s).
End State.

(** [OwnedHandle], with its drop. *)
Record OwnedHandle := mkOwnedHandle { oh_handle : Z; oh_close_on_drop : bool }.
Definition owned_new (h : Z) : OwnedHandle := mkOwnedHandle h true.
Definition with_ownership (h : Z) (close_on_drop : bool) : OwnedHandle := mkOwnedHandle h close_on_drop.
Definition owned_borrowed (h : Z) : OwnedHandle := mkOwnedHandle h false.
Definition set_close_on_drop (o : OwnedHandle) (b : bool) : OwnedHandle := mkOwnedHandle (oh_handle o) b.

(** [!is_invalid() && != INVALID_HANDLE_VALUE]. *)
Class handle_api := { handle_ok : Z -> bool }.

Definition drop_owned {W} `{!handle_api} (o : OwnedHandle) (s : proc_st W) : proc_st W :=
  if oh_close_on_drop o && handle_ok (oh_handle o) then release (ResHandle (oh_handle o)) s else s.

Section Held.
Context {W : Type} `{ho : !handle_api}.

Abbreviation P := (eff (proc_st W) Error).

(** A call that returns a new resource. *)
Definition acquiring {A} (call : W -> (win_error + A) * W) (res_of : A -> list resource)
    (fail : win_error -> Error) : P A := fun s =>
  match call (pmach s) with
  | (inr a, w) => (Ok a, foldr acquire (at_machine w s) (res_of a))
  | (inl e, w) => (Err (fail e), at_machine w s)
  end.

Definition open_handle (call : W -> (win_error + Z) * W) (fail : win_error -> Error) : P Z :=
  acquiring call (fun h => [ResHandle h]) fail.

(** A call that succeeds or fails, one that always answers, and one that
    answers nothing. *)
Definition calling {A} (call : W -> (win_error + A) * W) (fail : win_error -> Error) : P A := fun s =>
  match call (pmach s) with
  | (inr a, w) => (Ok a, at_machine w s)
  | (inl e, w) => (Err (fail e), at_machine w s)
  end.
Definition asking {A} (call : W -> A * W) : P A := fun s =>
  let '(a, w) := call (pmach s) in (Ok a, at_machine w s).
Definition telling (call : W -> W) : P unit := fun s => (Ok tt, at_machine (call (pmach s)) s).

(** A destructor that runs when [m] does not succeed. *)
Definition eff_guard {A} (dtor : proc_st W -> proc_st W) (m : P A) : P A := fun s =>
  match m s with
  | (Ok a, s) => (Ok a, s)
  | (r, s) => (r, dtor s)
  end.

Definition count_res (r : resource) (l : list resource) : Z :=
  Z.of_nat (length (base.filter (fun x => x = r) l)).

(** From [s] to [s'] exactly the resources [l] were gained. *)
Definition gained (s s' : proc_st W) (l : list resource) : Prop :=
  forall r, held s' r = held s r + count_res r l.

(** [m] gains [own a] when it returns [a], and nothing when it fails. *)
Definition owns {A} (m : P A) (own : A -> list resource) : Prop :=
  forall s, match m s with
            | (Ok a, s') => gained s s' (own a)
            | (_, s') => gained s s' []
            end.

Lemma count_res_cons r x l : count_res r (x :: l) = (if decide (r = x) then 1 else 0) + count_res r l.
Proof.
  unfold count_res. rewrite filter_cons. destruct (decide (x = r)) as [->|Hne].
  - rewrite decide_True by done. cbn [length]. lia.
  - rewrite decide_False by (by intros ->). lia.
Qed.

Lemma count_res_app r l1 l2 : count_res r (l1 ++ l2) = count_res r l1 + count_res r l2.
Proof. unfold count_res. rewrite filter_app, length_app. lia. Qed.

Lemma count_res_nil r : count_res r [] = 0.
Proof. done. Qed.

Lemma gained_trans s1 s2 s3 l1 l2 : gained s1 s2 l1 -> gained s2 s3 l2 -> gained s1 s3 (l1 ++ l2).
Proof. intros H1 H2 r. rewrite (H2 r), (H1 r), count_res_app. lia. Qed.

Lemma gained_release s s' r l : gained s s' (r :: l) -> gained s (release r s') l.
Proof.
  intros H x. unfold release, bump. cbn [held]. specialize (H x). rewrite count_res_cons in H.
  case_decide; lia.
Qed.

Lemma gained_eq s s' l l' : gained s s' l -> (forall r, count_res r l = count_res r l') -> gained s s' l'.
Proof. intros H E r. by rewrite (H r), E. Qed.

Lemma held_acquire_all (s : proc_st W) l r : held (foldr acquire s l) r = held s r + count_res r l.
Proof.
  induction l as [|x l IH]; cbn [foldr]; [rewrite count_res_nil; lia|].
  unfold acquire at 1, bump. cbn [held]. rewrite IH, count_res_cons. case_decide; lia.
Qed.

Lemma owns_acquiring {A} (call : W -> (win_error + A) * W) own fail : owns (acquiring call own fail) own.
Proof.
  intros s. unfold acquiring. destruct (call (pmach s)) as [[e|a] w].
  - intros r. rewrite count_res_nil. cbn. lia.
  - intros r. rewrite held_acquire_all. done.
Qed.

Lemma owns_bind {A B} (m : P A) (k : A -> P B) ownm own :
  owns m ownm ->
  (forall a s0 s, gained s0 s (ownm a) ->
    match k a s with (Ok b, s') => gained s0 s' (own b) | (_, s') => gained s0 s' [] end) ->
  owns (eff_bind m k) own.
Proof.
  intros Hm Hk s. unfold eff_bind. specialize (Hm s). destruct (m s) as [[a|e|x] s1]; [|done|done].
  apply (Hk a s s1 Hm).
Qed.

(** The same for a step whose result is not owned. *)
Lemma owns_seq {A B} (m : P A) (k : A -> P B) own :
  owns m (fun _ => []) -> (forall a, owns (k a) own) -> owns (eff_bind m k) own.
Proof.
  intros Hm Hk. eapply owns_bind; [exact Hm|]. intros a s0 s Hs. specialize (Hk a s).
  destruct (k a s) as [[b|e|x] s']; exact (gained_trans _ _ _ _ _ Hs Hk).
Qed.

(** A handle that the rest releases on every path. *)
Definition valid_handles (m : P Z) : Prop := forall s h s', m s = (Ok h, s') -> handle_ok h = true.

Lemma owns_scoped {B} (m : P Z) (k : Z -> P B) own :
  owns m (fun h => [ResHandle h]) -> valid_handles m -> (forall h, owns (k h) own) ->
  owns (let* h := m in eff_scoped (drop_owned (owned_new h)) (k h)) own.
Proof.
  intros Hm Hv Hk s. unfold eff_bind, eff_scoped. specialize (Hm s). specialize (Hv s).
  destruct (m s) as [[h|e|x] s1]; [|done|done]. specialize (Hk h s1). specialize (Hv h s1 eq_refl).
  assert (forall s : proc_st W, drop_owned (owned_new h) s = release (ResHandle h) s) as Hd
    by (intros; unfold drop_owned; cbn; by rewrite Hv).
  destruct (k h s1) as [[b|e|x] s']; rewrite Hd; apply gained_release;
    exact (gained_trans _ _ _ _ _ Hm Hk).
Qed.

Lemma owns_lift {A} (m : res Error A) : owns (eff_lift m) (fun _ => []).
Proof. intros s. destruct m; intros r; cbn; rewrite count_res_nil; lia. Qed.

Lemma owns_ret {A} (a : A) : owns (eff_ret a) (fun _ => []).
Proof. intros s r. cbn. rewrite count_res_nil. lia. Qed.

Lemma owns_fail {A} (e : Error) own : owns (eff_fail (A:=A) e) own.
Proof. intros s r. cbn. rewrite count_res_nil. lia. Qed.

Lemma owns_calling {A} (call : W -> (win_error + A) * W) fail : owns (calling call fail) (fun _ => []).
Proof. intros s. unfold calling. destruct (call (pmach s)) as [[e|a] w]; intros r; cbn; rewrite count_res_nil; lia. Qed.

Lemma owns_asking {A} (call : W -> A * W) : owns (asking call) (fun _ => []).
Proof. intros s. unfold asking. destruct (call (pmach s)) as [a w]; intros r; cbn; rewrite count_res_nil; lia. Qed.

Lemma owns_telling (call : W -> W) : owns (telling call) (fun _ => []).
Proof. intros s r. cbn. rewrite count_res_nil. lia. Qed.

(** A resource of any kind that the rest releases on every path. *)
Lemma owns_released {A B} (m : P A) (k : A -> P B) (r : A -> resource) dtor own :
  owns m (fun a => [r a]) -> (forall a s, dtor a s = release (r a) s) -> (forall a, owns (k a) own) ->
  owns (let* a := m in eff_scoped (dtor a) (k a)) own.
Proof.
  intros Hm Hd Hk s. unfold eff_bind, eff_scoped. specialize (Hm s).
  destruct (m s) as [[a|e|x] s1]; [|done|done]. specialize (Hk a s1).
  destruct (k a s1) as [[b|e|x] s']; rewrite Hd; apply gained_release; exact (gained_trans _ _ _ _ _ Hm Hk).
Qed.

(** The same when the machine sees the release. *)
Lemma owns_released_call {A B} (m : P A) (k : A -> P B) (r : A -> resource) (call : A -> W -> W) own :
  owns m (fun a => [r a]) -> (forall a, owns (k a) own) ->
  owns (let* a := m in
        eff_scoped (fun s => release (r a) (at_machine (call a (pmach s)) s)) (k a)) own.
Proof.
  intros Hm Hk s. unfold eff_bind, eff_scoped. specialize (Hm s).
  destruct (m s) as [[a|e|x] s1]; [|done|done]. specialize (Hk a s1).
  destruct (k a s1) as [[b|e|x] s']; apply gained_release;
    exact (fun q => gained_trans _ _ _ _ _ Hm Hk q).
Qed.

Lemma valid_open call fail :
  (forall w h w', call w = (inr h, w') -> handle_ok h = true) -> valid_handles (open_handle call fail).
Proof.
  intros H s h s'. unfold open_handle, acquiring. destruct (call (pmach s)) as [[e|a] w] eqn:E; [done|].
  intros [= <- <-]. by eapply H.
Qed.

End Held.
