(* ===== verification/EvtTypes.v ===== *)
(** * EvtTypes: event log records, levels, queries and timestamps

    src/evt/types.rs, src/evt/query.rs and the timestamp parser of
    src/evt/render.rs.  A [Cow<'static, str>] is its text: the two variants
    are observably the same string.  A [SystemTime] is its count of 100 ns
    intervals since 1601. *)

From Stdlib Require Import ZArith Lia String Ascii.
From stdpp Require Import base list strings gmap numbers sorting.
From S2P Require Import Prelude Text Unicode Errors.

Open Scope Z_scope.

(** ** Levels *)

Inductive EventLevel :=
  | AuditSuccess | AuditFailure | Critical | LevelError | Warning | Informational | Verbose.

#[export] Instance EventLevel_eq_dec : EqDecision EventLevel.
Proof. solve_decision. Defined.

(** [level as u8]. *)
Definition level_code (l : EventLevel) : Z :=
  match l with
  | AuditSuccess => 0 | AuditFailure => 1 | Critical => 2 | LevelError => 3 | Warning => 4
  | Informational => 5 | Verbose => 6
  end.

Definition from_code (code : Z) : option EventLevel :=
  if code =? 0 then Some AuditSuccess
  else if code =? 1 then Some AuditFailure
  else if code =? 2 then Some Critical
  else if code =? 3 then Some LevelError
  else if code =? 4 then Some Warning
  else if code =? 5 then Some Informational
  else if code =? 6 then Some Verbose
  else None.

Definition level_display (l : EventLevel) : str :=
  match l with
  | AuditSuccess => lit "AuditSuccess"
  | AuditFailure => lit "AuditFailure"
  | Critical => lit "Critical"
  | LevelError => lit "Error"
  | Warning => lit "Warning"
  | Informational => lit "Informational"
  | Verbose => lit "Verbose"
  end.

(** ** Name caches *)

Definition COMMON_PROVIDERS : list str :=
  lit <$> ["Security"; "System"; "Application"; "Microsoft-Windows-Sysmon/Operational";
           "Microsoft-Windows-PowerShell/Operational"; "Microsoft-Windows-WinRM/Operational";
           "Microsoft-Windows-DNS-Client/Operational"; "Perflib"; "Windows Defender";
           "Google Chrome"]%string.

Definition COMMON_CHANNELS : list str :=
  lit <$> ["Security"; "System"; "Application"; "Operational"; "Analytic"; "Debug"; "Setup";
           "Forwarded Events"]%string.

Record StringCache := mkStringCache {
  cache_providers : gmap str str; cache_channels : gmap str str }.

Definition string_cache_new : StringCache :=
  mkStringCache (fold_left (fun m p => <[p := p]> m) COMMON_PROVIDERS ∅)
    (fold_left (fun m c => <[c := c]> m) COMMON_CHANNELS ∅).

Definition intern_provider (name : str) : str :=
  match cache_providers string_cache_new !! name with Some cached => cached | None => name end.

Definition intern_channel (name : str) : str :=
  match cache_channels string_cache_new !! name with Some cached => cached | None => name end.

(** The arms of the match: a pattern and the string it returns. *)
Definition field_arms : list (str * str) :=
  (fun s => (lit s, lit s)) <$>
  ["SubjectUserName"; "SubjectDomainName"; "SubjectUserSid"; "SubjectLogonId"; "TargetUserName";
   "TargetDomainName"; "TargetUserSid"; "TargetLogonId"; "LogonType"; "IpAddress"; "IpPort";
   "WorkstationName"; "AuthenticationPackageName";
   "ProcessName"; "ProcessId"; "CommandLine"; "NewProcessName"; "NewProcessId";
   "ParentProcessName";
   "ObjectName"; "AccessList"; "PrivilegeList";
   "Image"; "ImageLoaded"; "ParentImage"; "ParentCommandLine"; "ParentProcessId"; "Hashes";
   "User"; "IntegrityLevel";
   "SourceIp"; "SourcePort"; "SourceHostname"; "DestinationIp"; "DestinationPort";
   "DestinationHostname"; "Protocol";
   "TargetFilename"; "TargetObject"; "Details";
   "ScriptBlockText"; "Path"; "MessageNumber"; "MessageTotal";
   "EventID"; "Level"; "Keywords"; "Message"; "Data"]%string.

Definition intern_field_name (name : str) : str :=
  match list_find (fun arm => fst arm = name) field_arms with
  | Some (_, arm) => snd arm
  | None => name
  end.

(** ** Events *)

Record Event := mkEvent {
  ev_id : Z;
  ev_level : EventLevel;
  ev_provider : str;
  ev_channel : str;
  ev_computer : str;
  ev_timestamp : option Z;
  ev_record_id : option Z;
  ev_process_id : option Z;
  ev_thread_id : option Z;
  ev_data : option (gmap str str);
  ev_formatted_message : option str }.

Definition event_default : Event :=
  mkEvent 0 Informational [] [] [] None None None None None None.

Inductive RenderFormat := Values | Xml.

#[export] Instance RenderFormat_eq_dec : EqDecision RenderFormat.
Proof. solve_decision. Defined.

Record CorruptedEvent := mkCorruptedEvent {
  ce_record_id : option Z; ce_component : str; ce_reason : str }.

Inductive ChannelFilter := All | Operational | AdminOrHigher | IncludeAnalytic.

Record EventQueryResult := mkEventQueryResult {
  qr_events : list Event; qr_corrupted : list CorruptedEvent; qr_total_processed : Z }.

Definition query_result_default : EventQueryResult := mkEventQueryResult [] [] 0.

Definition should_include_channel (channel_name : str) (filter : ChannelFilter) : bool :=
  match filter with
  | All => true
  | Operational | AdminOrHigher =>
      negb (contains (lit "Analytic") channel_name) && negb (contains (lit "Debug") channel_name)
  | IncludeAnalytic => true
  end.

(** ** Query builder *)

Record QueryBuilder := mkQueryBuilder {
  qb_xpath : option str;
  qb_level : option EventLevel;
  qb_provider : option str;
  qb_event_id : option Z;
  qb_reverse : bool;
  qb_max_results : option Z;
  qb_include_event_data : bool;
  qb_parse_message : bool }.

Definition query_new : QueryBuilder := mkQueryBuilder None None None None false None false false.

Definition query_xpath (self : QueryBuilder) (xpath : str) : QueryBuilder :=
  mkQueryBuilder (Some xpath) (qb_level self) (qb_provider self) (qb_event_id self) (qb_reverse self)
    (qb_max_results self) (qb_include_event_data self) (qb_parse_message self).
Definition query_level (self : QueryBuilder) (level : EventLevel) : QueryBuilder :=
  mkQueryBuilder (qb_xpath self) (Some level) (qb_provider self) (qb_event_id self) (qb_reverse self)
    (qb_max_results self) (qb_include_event_data self) (qb_parse_message self).
Definition query_provider (self : QueryBuilder) (name : str) : QueryBuilder :=
  mkQueryBuilder (qb_xpath self) (qb_level self) (Some name) (qb_event_id self) (qb_reverse self)
    (qb_max_results self) (qb_include_event_data self) (qb_parse_message self).
Definition query_event_id (self : QueryBuilder) (id : Z) : QueryBuilder :=
  mkQueryBuilder (qb_xpath self) (qb_level self) (qb_provider self) (Some id) (qb_reverse self)
    (qb_max_results self) (qb_include_event_data self) (qb_parse_message self).
Definition query_reverse (self : QueryBuilder) : QueryBuilder :=
  mkQueryBuilder (qb_xpath self) (qb_level self) (qb_provider self) (qb_event_id self) true
    (qb_max_results self) (qb_include_event_data self) (qb_parse_message self).
Definition query_max_results (self : QueryBuilder) (count : Z) : QueryBuilder :=
  mkQueryBuilder (qb_xpath self) (qb_level self) (qb_provider self) (qb_event_id self) (qb_reverse self)
    (Some count) (qb_include_event_data self) (qb_parse_message self).
Definition query_with_event_data (self : QueryBuilder) : QueryBuilder :=
  mkQueryBuilder (qb_xpath self) (qb_level self) (qb_provider self) (qb_event_id self) (qb_reverse self)
    (qb_max_results self) true (qb_parse_message self).
Definition query_with_message (self : QueryBuilder) : QueryBuilder :=
  mkQueryBuilder (qb_xpath self) (qb_level self) (qb_provider self) (qb_event_id self) (qb_reverse self)
    (qb_max_results self) (qb_include_event_data self) true.

(** [s.replace(c, r)] for an ASCII character. *)
Definition replace_char (c : Z) (r s : str) : str := mjoin ((fun x => if x =? c then r else [x]) <$> s).

Definition escape_xpath_string (s : str) : str :=
  if contains [39] s && contains [34] s then replace_char 34 (lit "&quot;") s
  else if contains [39] s then s
  else s.

Definition level_condition (level : EventLevel) : str :=
  lit "Level <= " ++ fmt_dec (level_code level).
Definition provider_condition (provider : str) : str :=
  lit "System/Provider/@Name='" ++ escape_xpath_string provider ++ lit "'".
Definition event_id_condition (id : Z) : str := lit "EventID=" ++ fmt_dec id.

Definition build_xpath (self : QueryBuilder) : str :=
  match qb_xpath self with
  | Some xpath => xpath
  | None =>
      let conditions :=
        from_option (fun l => [level_condition l]) [] (qb_level self) ++
        from_option (fun p => [provider_condition p]) [] (qb_provider self) ++
        from_option (fun i => [event_id_condition i]) [] (qb_event_id self) in
      if decide (conditions = []) then lit "Event"
      else lit "Event/System[" ++ join (lit " and ") conditions ++ lit "]"
  end.

(** ** Timestamps *)

Definition UNIX_EPOCH : Z := 116444736000000000.

(** [time + duration] for a duration of [secs] seconds and [nanos < 10^9]
    nanoseconds: [SystemTime] holds 64 signed bits of 100 ns intervals. *)
Definition time_add {E} (time secs nanos : Z) : res E Z :=
  let total := time + (secs * 10000000 + nanos / 100) in
  if 2 ^ 63 <=? total then Panic TimeOverflow else Ok total.

(** [str::get(from..to)]: [None] out of range or inside a character. *)
Definition is_char_boundary (s : str) (i : nat) : bool :=
  match s !! i with
  | Some b => negb (cont b)
  | None => (i =? length s)%nat
  end.
Definition str_get (s : str) (from to : nat) : option str :=
  if (from <=? to)%nat && is_char_boundary s from && is_char_boundary s to
  then Some (take (to - from) (drop from s))
  else None.

(** [str::parse::<i32>]: the digits after a minus sign are read as the
    unsigned magnitude. *)
Definition parse_i32 (s : str) : option Z :=
  match s with
  | 45 :: s' =>
      match s' with 43 :: _ => None | _ => Z.opp <$> parse_uint 10 2147483648 s' end
  | _ => parse_uint 10 2147483647 s
  end.

(** Rust's [%] truncates. *)
Definition is_leap_year (year : Z) : bool :=
  (Z.rem year 4 =? 0) && negb (Z.rem year 100 =? 0) || (Z.rem year 400 =? 0).

Definition DAYS_IN_MONTH : list Z := [31; 28; 31; 30; 31; 30; 31; 31; 30; 31; 30; 31].

(** [for y in 1970..year]: [n] years are left. *)
Fixpoint add_years (n : nat) (y days : Z) : Z :=
  match n with
  | O => days
  | S n => add_years n (y + 1) (days + (if is_leap_year y then 366 else 365))
  end.

(** [for m in 1..month]: [n] months are left. *)
Fixpoint add_months (n : nat) (year m days : Z) : res none Z :=
  match n with
  | O => Ok days
  | S n =>
      match DAYS_IN_MONTH !! Z.to_nat (m - 1) with
      | None => Panic IndexOutOfBounds
      | Some d =>
          add_months n year (m + 1) (days + d + (if (m =? 2) && is_leap_year year then 1 else 0))
      end
  end.

(** [day - 1] on a [u32]. *)
Definition sub_u32 (p : profile) (a b : Z) : res none Z :=
  if b <=? a then Ok (a - b)
  else match p with Debug => Panic ArithmeticOverflow | Release => Ok (wrap 32 (a - b)) end.

Definition opt {A} (o : option A) : res none A := ok_or o NoneV.

Definition parse_iso8601_timestamp (p : profile) (time_str : str) : res none Z :=
  if zlen time_str <? 20 then Err NoneV
  else
    let! year := opt (str_get time_str 0 4 ≫= parse_i32) in
    let! month := opt (str_get time_str 5 7 ≫= parse_u32) in
    let! day := opt (str_get time_str 8 10 ≫= parse_u32) in
    let! hour := opt (str_get time_str 11 13 ≫= parse_u32) in
    let! minute := opt (str_get time_str 14 16 ≫= parse_u32) in
    let! second := opt (str_get time_str 17 19 ≫= parse_u32) in
    let! microseconds :=
      (if (20 <? zlen time_str) && bool_decide (time_str !! 19%nat = Some 46)
       then (let! digits := opt (str_get time_str 20 26) in
             Ok (default 0 (parse_u32 digits)))
       else Ok 0) in
    let days_since_epoch := add_years (Z.to_nat (year - 1970)) 1970 0 in
    let! days_since_epoch := add_months (Z.to_nat (month - 1)) year 1 days_since_epoch in
    let! rest := sub_u32 p day 1 in
    let days_since_epoch := days_since_epoch + rest in
    let total_seconds := days_since_epoch * 86400 + hour * 3600 + minute * 60 + second in
    time_add UNIX_EPOCH (total_seconds + microseconds / 1000000)
      (microseconds mod 1000000 * 1000).

Example parse_iso8601_ex :
  parse_iso8601_timestamp Debug (lit "2024-01-15T10:30:45.123456Z")
  = Ok (UNIX_EPOCH + 17053146451234560).
Proof. vm_compute. reflexivity. Qed.

(** ** The calendar

    The reference: dates are counted by taking the day after, from the first
    of January 1970. *)

Definition gregorian_leap (y : Z) : bool :=
  (y mod 4 =? 0) && (negb (y mod 100 =? 0) || (y mod 400 =? 0)).

Definition days_in (y m : Z) : Z :=
  if m =? 2 then (if gregorian_leap y then 29 else 28)
  else if (m =? 4) || (m =? 6) || (m =? 9) || (m =? 11) then 30 else 31.

Record date := mk_date { d_year : Z; d_month : Z; d_day : Z }.

Definition next_day (d : date) : date :=
  let '(mk_date y m d) := d in
  if d <? days_in y m then mk_date y m (d + 1)
  else if m <? 12 then mk_date y (m + 1) 1
  else mk_date (y + 1) 1 1.

Definition civil (n : nat) : date := Nat.iter n next_day (mk_date 1970 1 1).

(** [w] decimal digits, zero-padded. *)
Fixpoint dec_fixed (w : nat) (n : Z) : str :=
  match w with
  | O => []
  | S w => dec_fixed w (n / 10) ++ [48 + n mod 10]
  end.

(** [2024-01-15T10:30:45.123456Z]. *)
Definition format_iso8601 (d : date) (hour minute second micros : Z) : str :=
  dec_fixed 4 (d_year d) ++ [45] ++ dec_fixed 2 (d_month d) ++ [45] ++ dec_fixed 2 (d_day d) ++
  [84] ++ dec_fixed 2 hour ++ [58] ++ dec_fixed 2 minute ++ [58] ++ dec_fixed 2 second ++
  [46] ++ dec_fixed 6 micros ++ [90].

Definition date_ok (d : date) : Prop :=
  1970 <= d_year d /\ 1 <= d_month d <= 12 /\ 1 <= d_day d <= days_in (d_year d) (d_month d).

Lemma is_leap_year_gregorian y : 0 <= y -> is_leap_year y = gregorian_leap y.
Proof.
  intros Hy. unfold is_leap_year, gregorian_leap. rewrite !Z.rem_mod_nonneg by lia.
  destruct (y mod 4 =? 0) eqn:E4, (y mod 100 =? 0) eqn:E100, (y mod 400 =? 0) eqn:E400; try reflexivity;
    exfalso; Z.to_euclidean_division_equations; lia.
Qed.

(** Days of the months before [m]. *)
Definition days_before (y m : Z) : Z :=
  nth (Z.to_nat (m - 1)) [0; 31; 59; 90; 120; 151; 181; 212; 243; 273; 304; 334; 365] 0 +
  (if (2 <? m) && gregorian_leap y then 1 else 0).

Ltac months :=
  match goal with
  | H : 1 <= ?m <= 12 |- _ =>
      let E := fresh "E" in
      assert (m = 1 \/ m = 2 \/ m = 3 \/ m = 4 \/ m = 5 \/ m = 6 \/ m = 7 \/ m = 8 \/ m = 9 \/
              m = 10 \/ m = 11 \/ m = 12) as E by lia;
      repeat destruct E as [E|E]; subst m
  end.

Lemma add_months_before y m days :
  0 <= y -> 1 <= m <= 12 ->
  add_months (Z.to_nat (m - 1)) y 1 days = Ok (days + days_before y m).
Proof.
  intros Hy Hm. unfold days_before. rewrite <- is_leap_year_gregorian by done.
  destruct (is_leap_year y) eqn:E; months; simpl; rewrite ?E; simpl; apply (f_equal Ok); lia.
Qed.

(** The code panics on a month it has no entry for before it. *)
Lemma add_months_panics y month days :
  14 <= month -> add_months (Z.to_nat (month - 1)) y 1 days = Panic IndexOutOfBounds.
Proof.
  intros H. replace (Z.to_nat (month - 1)) with (13 + Z.to_nat (month - 14))%nat by lia.
  generalize (Z.to_nat (month - 14)). intros n. cbn.
  destruct (is_leap_year y); reflexivity.
Qed.

Lemma add_years_last n y days :
  add_years (S n) y days
  = add_years n y days + (if is_leap_year (y + Z.of_nat n) then 366 else 365).
Proof.
  revert y days. induction n as [|n IH]; intros y days.
  - simpl. by rewrite Z.add_0_r.
  - change (add_years (S (S n)) y days)
      with (add_years (S n) (y + 1) (days + (if is_leap_year y then 366 else 365))).
    rewrite IH. replace (y + Z.of_nat (S n)) with (y + 1 + Z.of_nat n) by lia. reflexivity.
Qed.

Definition day_number (d : date) : Z :=
  add_years (Z.to_nat (d_year d - 1970)) 1970 0 + days_before (d_year d) (d_month d) + (d_day d - 1).

Lemma next_day_ok d : date_ok d -> date_ok (next_day d).
Proof.
  unfold date_ok, next_day. destruct d as [y m d]. cbn. intros (Hy & Hm & Hd).
  assert (forall y m, 28 <= days_in y m) as Hlo
    by (intros; unfold days_in; repeat case_match; lia).
  pose proof (Hlo y m). pose proof (Hlo y (m + 1)). pose proof (Hlo (y + 1) 1).
  destruct (d <? days_in y m) eqn:E1; [cbn; lia|]. destruct (m <? 12) eqn:E2; cbn; lia.
Qed.

Lemma days_before_next y m : 1 <= m <= 12 -> m < 12 -> days_before y (m + 1) = days_before y m + days_in y m.
Proof. intros Hm Hlt. unfold days_before, days_in. months; simpl; destruct (gregorian_leap y); lia. Qed.

Lemma next_day_number d : date_ok d -> day_number (next_day d) = day_number d + 1.
Proof.
  unfold date_ok, next_day, day_number. destruct d as [y m d]. cbn [d_year d_month d_day].
  intros (Hy & Hm & Hd). destruct (d <? days_in y m) eqn:E1; cbn [d_year d_month d_day]; [lia|].
  apply Z.ltb_ge in E1. assert (d = days_in y m) as -> by lia.
  destruct (m <? 12) eqn:E2; cbn [d_year d_month d_day].
  - rewrite days_before_next by lia. lia.
  - apply Z.ltb_ge in E2. assert (m = 12) as -> by lia.
    replace (Z.to_nat (y + 1 - 1970)) with (S (Z.to_nat (y - 1970))) by lia.
    rewrite add_years_last. replace (1970 + Z.of_nat (Z.to_nat (y - 1970))) with y by lia.
    rewrite is_leap_year_gregorian by lia. unfold days_before, days_in. simpl.
    destruct (gregorian_leap y); simpl; lia.
Qed.

Lemma civil_spec n : date_ok (civil n) /\ day_number (civil n) = Z.of_nat n.
Proof.
  induction n as [|n [IHo IHn]]; [repeat split; by apply Z.leb_le|].
  change (civil (S n)) with (next_day (civil n)).
  split; [by apply next_day_ok|]. rewrite next_day_number by done. lia.
Qed.

Lemma dec_fixed_length w n : length (dec_fixed w n) = w.
Proof. revert n. induction w; intros n; simpl; [done|]. rewrite length_app, IHw. simpl. lia. Qed.

Lemma dec_fixed_digits w n : Forall (fun c => 48 <= c <= 57) (dec_fixed w n).
Proof.
  revert n. induction w; intros n; simpl; [constructor|].
  apply Forall_app_2; [apply IHw|]. constructor; [|constructor].
  pose proof (Z.mod_pos_bound n 10). lia.
Qed.

Lemma dec_fixed_value w n :
  0 <= n < 10 ^ Z.of_nat w ->
  exists ds, mapM (char_digit 10) (dec_fixed w n) = Some ds /\ value 10 ds = n.
Proof.
  revert n. induction w as [|w IH]; intros n Hn.
  - exists []. split; [done|]. cbn in *. lia.
  - destruct (IH (n / 10)) as (ds & Hds & Hv).
    { rewrite Nat2Z.inj_succ, Z.pow_succ_r in Hn by lia. split; [apply Z.div_pos; lia|].
      apply Z.div_lt_upper_bound; lia. }
    exists (ds ++ [n mod 10]). split.
    + simpl. apply mapM_Some. apply Forall2_app; [by apply mapM_Some|].
      constructor; [|constructor].
      pose proof (Z.mod_pos_bound n 10 ltac:(lia)).
      replace (48 + n mod 10) with (digit_char (n mod 10)); [apply char_digit_char; lia|].
      unfold digit_char. replace (n mod 10 <? 10) with true by lia. done.
    + unfold value in *. rewrite fold_left_app, Hv. simpl. pose proof (Z.div_mod n 10). lia.
Qed.

Lemma parse_dec_fixed w max n :
  (0 < w)%nat -> 0 <= n < 10 ^ Z.of_nat w -> n <= max ->
  parse_uint 10 max (dec_fixed w n) = Some n.
Proof.
  intros Hw Hn Hmax. destruct (dec_fixed_value w n Hn) as (ds & Hds & Hv).
  pose proof (dec_fixed_digits w n) as Hd. pose proof (dec_fixed_length w n) as Hl.
  unfold parse_uint. destruct (dec_fixed w n) as [|c cs] eqn:E; [simpl in Hl; lia|].
  inversion Hd as [|? ? Hc _]; subst.
  assert (match c :: cs with 43 :: s' => s' | _ => c :: cs end = c :: cs) as ->
    by (repeat case_match; try done; lia).
  rewrite Hds. replace (value 10 ds <=? max) with true by lia. done.
Qed.

(** ** Slices of ASCII text *)

Lemma str_get_ascii s from to :
  Forall (fun b => b < 0x80) s -> (from <= to <= length s)%nat ->
  str_get s from to = Some (take (to - from) (drop from s)).
Proof.
  intros Ha Hle. unfold str_get.
  assert (forall i, (i <= length s)%nat -> is_char_boundary s i = true) as Hb.
  { intros i Hi. unfold is_char_boundary. destruct (s !! i) as [b|] eqn:E.
    - eapply Forall_lookup_1 in E; [|exact Ha]. cbn in E. unfold cont. lia.
    - apply lookup_ge_None in E. apply Nat.eqb_eq. lia. }
  rewrite !Hb by lia. by replace (from <=? to)%nat with true by (symmetry; apply Nat.leb_le; lia).
Qed.

Lemma str_get_mid l1 l2 l3 :
  Forall (fun b => b < 0x80) (l1 ++ l2 ++ l3) ->
  str_get (l1 ++ l2 ++ l3) (length l1) (length l1 + length l2) = Some l2.
Proof.
  intros Ha. rewrite str_get_ascii by (try done; rewrite !length_app; lia).
  rewrite drop_app_length. replace (length l1 + length l2 - length l1)%nat with (length l2) by lia.
  by rewrite take_app_length.
Qed.

Lemma str_get_short s from to r : str_get s from to = Some r -> (length r <= to - from)%nat.
Proof. unfold str_get. case_match; [|done]. intros [= <-]. rewrite length_take. lia. Qed.

Lemma parse_uint_short max s n k :
  (length s <= k)%nat -> parse_uint 10 max s = Some n -> 0 <= n < 10 ^ Z.of_nat k.
Proof.
  intros Hl. unfold parse_uint.
  set (t := match s with 43 :: s' => s' | _ => s end).
  assert (length t <= k)%nat as Ht.
  { subst t. repeat case_match; subst; simpl in *; lia. }
  clearbody t. clear s Hl. intros H. case_match; [done|].
  destruct (mapM (char_digit 10) _) as [ds|] eqn:E; [|done].
  destruct (value 10 ds <=? max); [|done]. injection H as <-.
  apply mapM_Some in E. rewrite (Forall2_length _ _ _ E) in Ht.
  assert (Forall (fun d => 0 <= d < 10) ds) as Hd.
  { eapply Forall2_Forall_r; [exact E|]. apply Forall_true. intros c d Hc.
    unfold char_digit in Hc. repeat case_match; simplify_eq; lia. }
  assert (0 <= value 10 ds < 10 ^ Z.of_nat (length ds)) as Hb.
  { clear -Hd. induction ds as [|d ds IH] using rev_ind; [cbn; lia|].
    apply Forall_app in Hd as [Hd Hd1]. inversion_clear Hd1 as [|? ? Hd2 _].
    unfold value in *. rewrite fold_left_app. simpl.
    rewrite length_app. simpl. rewrite Nat2Z.inj_add, Z.pow_add_r by lia.
    specialize (IH Hd). change (10 ^ Z.of_nat 1) with 10. lia. }
  assert (10 ^ Z.of_nat (length ds) <= 10 ^ Z.of_nat k) by (apply Z.pow_le_mono_r; lia).
  lia.
Qed.

Lemma parse_i32_short s n : (length s <= 4)%nat -> parse_i32 s = Some n -> n <= 9999.
Proof.
  intros Hl. unfold parse_i32. intros H.
  assert (forall max s n, (length s <= 4)%nat -> parse_uint 10 max s = Some n -> 0 <= n < 10 ^ 4) as Hp.
  { intros max s0 n0 ? ?. eapply (parse_uint_short max s0 n0 4); eauto. }
  repeat case_match; try (apply Hp in H; [lia|done]); try done;
    apply fmap_Some in H as (m & Hm & ->); (apply Hp in Hm; [lia | cbn [length] in *; lia]).
Qed.

(** The loop over the years, bounded. *)
Lemma add_years_bounds n y days : days <= add_years n y days <= days + 366 * Z.of_nat n.
Proof.
  revert y days. induction n as [|n IH]; intros y days; cbn [add_years]; [lia|].
  specialize (IH (y + 1) (days + (if is_leap_year y then 366 else 365))).
  destruct (is_leap_year y); lia.
Qed.

Lemma add_months_small y month days :
  0 <= month <= 13 -> exists k, 0 <= k <= 366 /\ add_months (Z.to_nat (month - 1)) y 1 days = Ok (days + k).
Proof.
  intros Hm. assert (exists n, Z.to_nat (month - 1) = n /\ (n <= 12)%nat) as (n & -> & Hn)
    by (eexists; split; [done|lia]).
  destruct (is_leap_year y) eqn:E;
    do 13 (destruct n as [|n]; [simpl; rewrite ?E; simpl; eexists; (split; [|f_equal; rewrite <- ?Z.add_assoc; reflexivity || (symmetry; apply Z.add_0_r)]); lia|]); lia.
Qed.

(** ** Timestamp theorems *)

Definition iso_ticks (days hour minute second micros : Z) : Z :=
  UNIX_EPOCH + (days * 86400 + hour * 3600 + minute * 60 + second) * 10000000 + micros * 10.

(** The tail of the parser, once its fields are read. *)
Definition iso_build (p : profile) (year month day hour minute second micros : Z) : res none Z :=
  let! days := add_months (Z.to_nat (month - 1)) year 1 (add_years (Z.to_nat (year - 1970)) 1970 0) in
  let! rest := sub_u32 p day 1 in
  time_add UNIX_EPOCH ((days + rest) * 86400 + hour * 3600 + minute * 60 + second + micros / 1000000)
    (micros mod 1000000 * 1000).

Lemma parse_iso8601_fields p s year month day hour minute second micros :
  20 <= zlen s ->
  str_get s 0 4 ≫= parse_i32 = Some year -> str_get s 5 7 ≫= parse_u32 = Some month ->
  str_get s 8 10 ≫= parse_u32 = Some day -> str_get s 11 13 ≫= parse_u32 = Some hour ->
  str_get s 14 16 ≫= parse_u32 = Some minute -> str_get s 17 19 ≫= parse_u32 = Some second ->
  (if (20 <? zlen s) && bool_decide (s !! 19%nat = Some 46)
   then (let! digits := opt (str_get s 20 26) in Ok (default 0 (parse_u32 digits))) else Ok 0)
  = @Ok none Z micros ->
  parse_iso8601_timestamp p s = iso_build p year month day hour minute second micros.
Proof.
  intros Hl Hy Hm Hd Hh Hmi Hs Hf. unfold parse_iso8601_timestamp.
  replace (zlen s <? 20) with false by lia. rewrite Hy, Hm, Hd, Hh, Hmi, Hs, Hf. reflexivity.
Qed.

Lemma time_add_ok {E} secs micros :
  0 <= secs <= 900000000000 -> 0 <= micros < 1000000 ->
  @time_add E UNIX_EPOCH (secs + micros / 1000000) (micros mod 1000000 * 1000)
  = Ok (UNIX_EPOCH + secs * 10000000 + micros * 10).
Proof.
  intros Hs Hu. unfold time_add. rewrite Z.div_small, Z.mod_small by lia.
  replace (micros * 1000 / 100) with (micros * 10)
    by (replace (micros * 1000) with (micros * 10 * 100) by lia; by rewrite Z.div_mul).
  replace (2 ^ 63 <=? _) with false by (unfold UNIX_EPOCH; lia). f_equal. lia.
Qed.

Lemma days_before_le y m : 1 <= m <= 12 -> 0 <= days_before y m <= 366.
Proof. intros Hm. unfold days_before. months; simpl; repeat case_match; lia. Qed.

Lemma iso_build_exact p n hour minute second micros :
  d_year (civil n) <= 9999 ->
  0 <= hour < 24 -> 0 <= minute < 60 -> 0 <= second < 60 -> 0 <= micros < 1000000 ->
  iso_build p (d_year (civil n)) (d_month (civil n)) (d_day (civil n)) hour minute second micros
  = Ok (iso_ticks (Z.of_nat n) hour minute second micros).
Proof.
  intros Hyear Hh Hm Hs Hu. destruct (civil_spec n) as [(Hy & Hmo & Hd) Hn].
  unfold iso_build. rewrite add_months_before by lia.
  unfold day_number in Hn. cbn [res_bind].
  pose proof (add_years_bounds (Z.to_nat (d_year (civil n) - 1970)) 1970 0) as Hb.
  set (b := add_years _ 1970 0) in *.
  unfold sub_u32. replace (1 <=? d_day (civil n)) with true by lia. cbn [res_bind].
  assert (days_in (d_year (civil n)) (d_month (civil n)) <= 31)
    by (unfold days_in; repeat case_match; lia).
  pose proof (days_before_le (d_year (civil n)) _ Hmo).
  rewrite time_add_ok by lia. unfold iso_ticks. f_equal. lia.
Qed.

Lemma dec_fixed_ascii w n : Forall (fun b => b < 0x80) (dec_fixed w n).
Proof. eapply Forall_impl; [apply dec_fixed_digits|]. intros c. cbn. lia. Qed.

Lemma parse_i32_dec_fixed n : 0 <= n <= 9999 -> parse_i32 (dec_fixed 4 n) = Some n.
Proof.
  intros Hn. pose proof (parse_dec_fixed 4 2147483647 n ltac:(lia) ltac:(lia) ltac:(lia)) as Hp.
  pose proof (dec_fixed_digits 4 n) as Hd. unfold parse_i32.
  destruct (dec_fixed 4 n) as [|c cs]; [done|]. inversion_clear Hd as [|? ? Hc _].
  repeat case_match; try done; lia.
Qed.

(** Reading one field of a formatted timestamp: [pre] and [post] are the
    text around it. *)
Lemma str_get_field {A} (f : str -> option A) s pre x post i j a :
  s = pre ++ x ++ post -> Forall (fun b => b < 0x80) s -> length pre = i ->
  (length pre + length x)%nat = j -> f x = Some a -> str_get s i j ≫= f = Some a.
Proof. intros -> Ha <- <- Hf. by rewrite str_get_mid. Qed.

Ltac iso_field pre x :=
  eapply (str_get_field _ _ pre x);
  [unfold format_iso8601; by rewrite <- ?app_assoc | assumption
  | rewrite ?length_app, ?dec_fixed_length; reflexivity
  | rewrite ?length_app, ?dec_fixed_length; reflexivity |].

Lemma parse_format_iso8601 p d hour minute second micros :
  0 <= d_year d <= 9999 -> 0 <= d_month d <= 99 -> 0 <= d_day d <= 99 ->
  0 <= hour < 24 -> 0 <= minute < 60 -> 0 <= second < 60 -> 0 <= micros < 1000000 ->
  parse_iso8601_timestamp p (format_iso8601 d hour minute second micros)
  = iso_build p (d_year d) (d_month d) (d_day d) hour minute second micros.
Proof.
  intros Hy Hm Hd Hh Hmi Hs Hu.
  set (s := format_iso8601 d hour minute second micros).
  assert (Forall (fun b => b < 0x80) s) as Ha.
  { subst s. unfold format_iso8601.
    repeat (apply Forall_app_2; [first [apply dec_fixed_ascii | by repeat constructor]|]).
    by repeat constructor. }
  assert (length s = 27%nat) as Hl
    by (subst s; unfold format_iso8601; rewrite ?length_app, ?dec_fixed_length; reflexivity).
  set (y := dec_fixed 4 (d_year d)) in *. set (mo := dec_fixed 2 (d_month d)) in *.
  set (da := dec_fixed 2 (d_day d)) in *. set (ho := dec_fixed 2 hour) in *.
  set (mi := dec_fixed 2 minute) in *. set (se := dec_fixed 2 second) in *.
  apply parse_iso8601_fields.
  - unfold zlen. lia.
  - eapply (str_get_field _ _ [] y); [reflexivity|done|done|done|]. by apply parse_i32_dec_fixed.
  - iso_field (y ++ [45]) mo. apply parse_dec_fixed; lia.
  - iso_field (y ++ [45] ++ mo ++ [45]) da. apply parse_dec_fixed; lia.
  - iso_field (y ++ [45] ++ mo ++ [45] ++ da ++ [84]) ho. apply parse_dec_fixed; lia.
  - iso_field (y ++ [45] ++ mo ++ [45] ++ da ++ [84] ++ ho ++ [58]) mi. apply parse_dec_fixed; lia.
  - iso_field (y ++ [45] ++ mo ++ [45] ++ da ++ [84] ++ ho ++ [58] ++ mi ++ [58]) se.
    apply parse_dec_fixed; lia.
  - assert (s !! 19%nat = Some 46) as H19 by reflexivity.
    unfold zlen. rewrite Hl, bool_decide_true by exact H19.
    assert (str_get s 20 26 ≫= parse_u32 = Some micros) as Hf.
    { iso_field (y ++ [45] ++ mo ++ [45] ++ da ++ [84] ++ ho ++ [58] ++ mi ++ [58] ++ se ++ [46])
        (dec_fixed 6 micros). apply parse_dec_fixed; lia. }
    cbn [Z.of_nat andb]. destruct (str_get s 20 26) as [digits|]; [|done].
    simpl in Hf |- *. by rewrite Hf.
Qed.

(** The timestamps Windows prints are read exactly: for the [n]-th day
    after the first of January 1970 (counted with the Gregorian calendar, up
    to the year 9999) and any time of that day,
    [parse_iso8601_timestamp] of the text [YYYY-MM-DDThh:mm:ss.ffffffZ]
    returns that instant, in debug and in release builds. *)
Theorem parse_iso8601_exact p n hour minute second micros :
  d_year (civil n) <= 9999 ->
  0 <= hour < 24 -> 0 <= minute < 60 -> 0 <= second < 60 -> 0 <= micros < 1000000 ->
  parse_iso8601_timestamp p (format_iso8601 (civil n) hour minute second micros)
  = Ok (iso_ticks (Z.of_nat n) hour minute second micros).
Proof.
  intros Hy Hh Hm Hs Hu. destruct (civil_spec n) as [(Hy' & Hmo & Hd) _].
  assert (days_in (d_year (civil n)) (d_month (civil n)) <= 31)
    by (unfold days_in; repeat case_match; lia).
  rewrite parse_format_iso8601 by lia. by apply iso_build_exact.
Qed.

Lemma parse_iso8601_exact_witness :
  parse_iso8601_timestamp Release (lit "1972-02-29T23:59:59.999999Z")
  = Ok (iso_ticks 789 23 59 59 999999).
Proof.
  change (lit "1972-02-29T23:59:59.999999Z") with (format_iso8601 (mk_date 1972 2 29) 23 59 59 999999).
  replace (mk_date 1972 2 29) with (civil 789) by (vm_compute; reflexivity).
  apply (parse_iso8601_exact Release 789 23 59 59 999999); try lia. vm_compute. discriminate.
Defined.

(** The timestamp parser is not total: on a text of at least 20 bytes
    whose fields are numbers it panics exactly when the month is 14 or more
    (the table of month lengths is indexed past its end) or the day is 00
    ([day - 1] underflows: a panic in debug builds, a date past the range of
    [SystemTime] in release builds).  Every other value of the fields, valid
    date or not, gives a timestamp. *)
Theorem parse_iso8601_panics p s year month day hour minute second micros :
  20 <= zlen s ->
  str_get s 0 4 ≫= parse_i32 = Some year -> str_get s 5 7 ≫= parse_u32 = Some month ->
  str_get s 8 10 ≫= parse_u32 = Some day -> str_get s 11 13 ≫= parse_u32 = Some hour ->
  str_get s 14 16 ≫= parse_u32 = Some minute -> str_get s 17 19 ≫= parse_u32 = Some second ->
  (if (20 <? zlen s) && bool_decide (s !! 19%nat = Some 46)
   then (let! digits := opt (str_get s 20 26) in Ok (default 0 (parse_u32 digits))) else Ok 0)
  = @Ok none Z micros ->
  (exists q, parse_iso8601_timestamp p s = Panic q) <-> 14 <= month \/ day = 0.
Proof.
  intros Hl Hy Hm Hd Hh Hmi Hs Hf.
  rewrite (parse_iso8601_fields p s year month day hour minute second micros) by done.
  assert (forall i j v, str_get s i j ≫= parse_u32 = Some v -> (j - i = 2)%nat -> 0 <= v <= 99) as H99.
  { intros i j v Hv Hij. apply bind_Some in Hv as (r & Hr & Hv).
    apply str_get_short in Hr. apply (parse_uint_short _ _ _ 2) in Hv; lia. }
  apply H99 in Hm, Hd, Hh, Hmi, Hs; try done.
  assert (year <= 9999) as Hy9.
  { apply bind_Some in Hy as (r & Hr & Hv). apply str_get_short in Hr. by eapply parse_i32_short. }
  assert (0 <= micros < 1000000) as Hu.
  { destruct (_ && _); [|injection Hf as <-; lia].
    destruct (str_get s 20 26) as [r|] eqn:Er; [|done]. apply str_get_short in Er.
    injection Hf as <-. destruct (parse_u32 r) as [v|] eqn:Ev; [|simpl; lia].
    apply (parse_uint_short _ _ _ 6) in Ev; simpl; lia. }
  unfold iso_build. destruct (Z.le_gt_cases 14 month) as [Hbig|Hsmall].
  { rewrite add_months_panics by done. simpl. naive_solver. }
  destruct (add_months_small year month (add_years (Z.to_nat (year - 1970)) 1970 0))
    as (k & Hk & ->); [lia|]. cbn [res_bind].
  pose proof (add_years_bounds (Z.to_nat (year - 1970)) 1970 0) as Hb.
  set (b := add_years _ 1970 0) in *. unfold sub_u32.
  destruct (1 <=? day) eqn:E1.
  - cbn [res_bind]. rewrite time_add_ok by lia. split; [intros [q [=]]|lia].
  - assert (day = 0) as -> by lia. split; [by right|]. intros _.
    destruct p; [by eexists|]. cbn [res_bind]. change (wrap 32 (0 - 1)) with 4294967295.
    unfold time_add. rewrite (Z.div_small micros), (Z.mod_small micros) by lia.
    assert (0 <= micros * 1000 / 100) by (apply Z.div_pos; lia).
    replace (2 ^ 63 <=? _) with true by (unfold UNIX_EPOCH; lia). by eexists.
Qed.

Lemma parse_iso8601_panics_witness :
  exists q, parse_iso8601_timestamp Release (lit "2024-01-00T00:00:00Z") = Panic q.
Proof.
  apply (parse_iso8601_panics Release (lit "2024-01-00T00:00:00Z") 2024 1 0 0 0 0 0);
    try reflexivity; right; reflexivity.
Defined.

(** ** Query text *)

(** The string literal an XPath reader finds after [@Name=]: everything up to
    the next apostrophe. *)
Definition name_literal (xpath : str) : option str :=
  i ← find_sub (lit "@Name='") xpath;
  let rest := drop (i + 7) xpath in
  j ← find_char 39 rest;
  Some (take j rest).

Lemma find_sub_first pat c s r :
  head pat = Some c -> lacks c s -> find_sub pat (s ++ pat ++ r) = Some (length s).
Proof.
  intros Hp. induction 1 as [|x s Hx Hs IH].
  - cbn [app length]. pose proof (starts_with_app pat r) as H.
    destruct (pat ++ r); simpl; by rewrite H.
  - simpl. rewrite IH. unfold starts_with. destruct pat as [|y pat]; [done|].
    injection Hp as ->. simpl. by replace (c =? x) with false by lia.
Qed.

Lemma build_xpath_split q p :
  qb_xpath q = None -> qb_provider q = Some p ->
  exists pre post, build_xpath q = pre ++ lit "@Name='" ++ escape_xpath_string p ++ 39 :: post /\
    lacks 64 pre.
Proof.
  intros Hx Hp. unfold build_xpath. rewrite Hx, Hp. cbn [from_option].
  set (L := from_option _ [] (qb_level q)). set (I := from_option _ [] (qb_event_id q)).
  rewrite decide_False by (by destruct L).
  assert (lacks 64 (lit "Event/System[" ++ join (lit " and ") (L ++ [lit "System/Provider/"]))) as Hpre.
  { apply Forall_app_2; [by repeat constructor|].
    subst L. destruct (qb_level q) as [l|]; cbn [from_option app join].
    - unfold level_condition. rewrite <- app_assoc.
      repeat apply Forall_app_2; try by repeat constructor. destruct l; by repeat constructor.
    - by repeat constructor. }
  exists (lit "Event/System[" ++ join (lit " and ") (L ++ [lit "System/Provider/"])).
  exists (drop (length (provider_condition p)) (join (lit " and ") (provider_condition p :: I)) ++ lit "]").
  split; [|done]. rewrite <- !app_assoc. f_equal.
  assert (forall x y, lit "System/Provider/" ++ lit "@Name='" ++ escape_xpath_string p ++ 39 ::
            drop (length (provider_condition p)) (provider_condition p ++ x) ++ y
          = (provider_condition p ++ x) ++ y) as Hc.
  { intros x y. rewrite drop_app_length. unfold provider_condition.
    rewrite <- !app_assoc. reflexivity. }
  assert (exists x, join (lit " and ") (provider_condition p :: I) = provider_condition p ++ x) as [x Hj].
  { destruct I; simpl; [exists []; by rewrite app_nil_r|by eexists]. }
  rewrite Hj. subst L. destruct (qb_level q) as [l|]; cbn [from_option app].
  - change (join (lit " and ") (level_condition l :: provider_condition p :: I))
      with (level_condition l ++ lit " and " ++ join (lit " and ") (provider_condition p :: I)).
    rewrite Hj. cbn [join]. rewrite <- !app_assoc. do 2 f_equal. by rewrite Hc, <- app_assoc.
  - rewrite Hj. cbn [join]. by rewrite Hc.
Qed.

(** What precedes the first apostrophe. *)
Definition before_quote (s : str) : str :=
  match find_char 39 s with Some j => take j s | None => s end.

Lemma before_quote_literal s post j :
  find_char 39 (s ++ 39 :: post) = Some j -> take j (s ++ 39 :: post) = before_quote s.
Proof.
  unfold before_quote, find_char. induction s as [|x s IH] in j |- *; cbn [app position].
  - by intros [= <-].
  - destruct (39 =? x); [by intros [= <-]|].
    destruct (position (Z.eqb 39) (s ++ 39 :: post)) as [k|]; [|done].
    intros [= <-]. specialize (IH k eq_refl). cbn [take fmap option_fmap option_map]. rewrite IH.
    by destruct (position (Z.eqb 39) s).
Qed.

Lemma find_quote s post : exists j, find_char 39 (s ++ 39 :: post) = Some j.
Proof.
  unfold find_char. induction s as [|x s [j IH]]; cbn [app position]; [by eexists|].
  destruct (39 =? x); [by eexists|]. rewrite IH. by eexists.
Qed.

Lemma contains_char c s : contains [c] s = true <-> c ∈ s.
Proof.
  unfold contains. induction s as [|x s IH].
  - cbn. split; [done|]. intros H%elem_of_nil. done.
  - cbn [find_sub]. unfold starts_with. cbn [strip_prefix].
    destruct (c =? x) eqn:E.
    + apply Z.eqb_eq in E as ->. split; [intros _; constructor|done].
    + apply Z.eqb_neq in E. rewrite elem_of_cons.
      destruct (find_sub [c] s); cbn in *; naive_solver.
Qed.

Lemma before_quote_lacks s : lacks 39 (before_quote s).
Proof.
  unfold before_quote, find_char, lacks. induction s as [|x s IH]; [constructor|].
  cbn [position]. destruct (39 =? x) eqn:E; [constructor|]. apply Z.eqb_neq in E.
  destruct (position (Z.eqb 39) s); cbn in *; constructor; auto.
Qed.

(** The provider name survives in the query text exactly when it holds
    no apostrophe: the string literal an XPath reader sees after [@Name=] in
    the built query is the name up to its first apostrophe (after the
    escaping the code applies), so it is the name itself if and only if no
    apostrophe occurs in it.  A name with one ends the literal early and the
    rest of the name is read as query syntax. *)
Theorem build_xpath_provider_literal q p :
  qb_xpath q = None -> qb_provider q = Some p ->
  name_literal (build_xpath q) = Some (before_quote (escape_xpath_string p)) /\
  (name_literal (build_xpath q) = Some p <-> 39 ∉ p).
Proof.
  intros Hx Hp. destruct (build_xpath_split q p Hx Hp) as (pre & post & Hb & Hl).
  assert (name_literal (build_xpath q) = Some (before_quote (escape_xpath_string p))) as Hn.
  { unfold name_literal. rewrite Hb, (find_sub_first _ 64) by done. cbn [mbind option_bind].
    rewrite <- drop_drop, drop_app_length.
    change (drop 7 (lit "@Name='" ++ ?x)) with x.
    destruct (find_quote (escape_xpath_string p) post) as [j Hj]. rewrite Hj. cbn.
    by rewrite (before_quote_literal _ _ _ Hj). }
  split; [done|]. rewrite Hn. split.
  - intros [= He] Hin. pose proof (before_quote_lacks (escape_xpath_string p)) as Hlk.
    rewrite He in Hlk. unfold lacks in Hlk. rewrite Forall_forall in Hlk. by apply (Hlk 39).
  - intros Hin. f_equal. assert (contains [39] p = false) as Hc.
    { destruct (contains [39] p) eqn:E; [|done]. by apply contains_char in E. }
    unfold escape_xpath_string. rewrite Hc. cbn [andb]. unfold before_quote, find_char.
    assert (position (Z.eqb 39) p = None) as ->; [|done].
    apply position_none, Forall_forall. intros x Hx'. apply Z.eqb_neq. by intros <-.
Qed.

Lemma build_xpath_provider_literal_witness :
  name_literal (build_xpath (query_provider query_new (lit "O'Neil"))) = Some (lit "O").
Proof.
  destruct (build_xpath_provider_literal (query_provider query_new (lit "O'Neil")) (lit "O'Neil"))
    as [H _]; [reflexivity|reflexivity|]. rewrite H. vm_compute. reflexivity.
Defined.
