(* ===== verification/EvtRender.v ===== *)
(** * EvtRender: turning event handles into events

    src/evt/render.rs and the extraction helpers of src/evt/types.rs.  The
    Windows event log calls are the fields of [evt_api], the XML reader
    (the quick-xml crate) is [xml_reader]: a text is read as a list of XML
    events followed by the end of the text or by an error. *)

From Stdlib Require Import ZArith Lia String Ascii.
From stdpp Require Import base list strings gmap numbers sorting.
From S2P Require Import Prelude Text Unicode Errors Backends Effects EvtTypes.

Open Scope Z_scope.

(** ** What the code reads *)

(** An [EVT_VARIANT]: its type code, the eight bytes of its union, and the
    memory its [StringVal] points to ([None] for a null pointer). *)
Record EVT_VARIANT := mkEVT_VARIANT {
  v_type : Z; v_raw : list Z; v_string : option (list Z) }.

(** The views of the union, little-endian. *)
Definition ByteVal (v : EVT_VARIANT) : Z := le_decode (take 1 (v_raw v)).
Definition UInt16Val (v : EVT_VARIANT) : Z := le_decode (take 2 (v_raw v)).
Definition UInt32Val (v : EVT_VARIANT) : Z := le_decode (take 4 (v_raw v)).
Definition UInt64Val (v : EVT_VARIANT) : Z := le_decode (take 8 (v_raw v)).
Definition FileTimeVal (v : EVT_VARIANT) : Z := le_decode (take 8 (v_raw v)).

(** The events of the XML reader that the code tells apart.  An attribute is
    a key and a value, or an error. *)
Inductive xml_event :=
  | XStart (name : str) (attributes : list (option (str * str)))
  | XEnd (name : str)
  | XText (text : str)
  | XEmpty (name : str) (attributes : list (option (str * str)))
  | XOther.

Class xml_reader := { read_events : str -> list xml_event * bool (** [true]: end of text *) }.

(** The Windows calls.  [EvtRender] fills a buffer of the given size; the
    values of an event do not change, so it reads no state.
    [EvtFormatMessage] returns the buffer and the used size, or an error code
    and the used size. *)
Class evt_api (W : Type) := {
  is_invalid : Z -> bool;
  EvtRenderValues : Z -> Z -> option (list EVT_VARIANT);
  EvtRenderXml : Z -> Z -> option (list Z * Z);
  EvtOpenPublisherMetadata : W -> list Z -> option Z * W;
  EvtFormatMessage : Z -> Z -> Z -> (Z * Z) + (list Z * Z);
  EvtOpenLog : W -> list Z -> bool -> option Z * W;
  EvtOpenChannelEnum : W -> option Z * W;
  EvtNextChannelPath : W -> Z -> option (list Z * Z) * W;
  EvtQuery : W -> list Z -> list Z -> bool -> option Z * W;
  EvtNext : W -> Z -> nat -> Z -> (Z + list Z) * W }.

(** ** Variants *)

Definition extract_u8_from_variant (v : EVT_VARIANT) : option Z :=
  if v_type v =? 2 then Some (ByteVal v) else None.
Definition extract_u16_from_variant (v : EVT_VARIANT) : option Z :=
  if v_type v =? 6 then Some (UInt16Val v) else None.
Definition extract_u32_from_variant (v : EVT_VARIANT) : option Z :=
  if v_type v =? 8 then Some (UInt32Val v) else None.
Definition extract_u64_from_variant (v : EVT_VARIANT) : option Z :=
  if v_type v =? 10 then Some (UInt64Val v) else None.

(** [take_while(|&i| *ptr.offset(i) != 0)]. *)
Fixpoint until_nul (us : list Z) : list Z :=
  match us with
  | [] => []
  | u :: us => if u =? 0 then [] else u :: until_nul us
  end.

Definition extract_string_from_variant (v : EVT_VARIANT) : option str :=
  if v_type v =? 21 then
    match v_string v with
    | Some units => Some (from_utf16_lossy (until_nul units))
    | None => None
    end
  else None.

Definition FILETIME_EPOCH_DIFF : Z := 116444736000000000.

Definition extract_systemtime_from_variant (v : EVT_VARIANT) : res none Z :=
  if v_type v =? 29 then
    let filetime := FileTimeVal v in
    if FILETIME_EPOCH_DIFF <? filetime then
      let unix_time_100ns := filetime - FILETIME_EPOCH_DIFF in
      let seconds := unix_time_100ns / 10000000 in
      let nanos := unix_time_100ns mod 10000000 * 100 in
      time_add UNIX_EPOCH seconds nanos
    else Err NoneV
  else Err NoneV.

(** ** Rendering as values *)

Definition set_id (e : Event) (v : Z) : Event :=
  mkEvent v (ev_level e) (ev_provider e) (ev_channel e) (ev_computer e) (ev_timestamp e)
    (ev_record_id e) (ev_process_id e) (ev_thread_id e) (ev_data e) (ev_formatted_message e).
Definition set_level (e : Event) (v : EventLevel) : Event :=
  mkEvent (ev_id e) v (ev_provider e) (ev_channel e) (ev_computer e) (ev_timestamp e)
    (ev_record_id e) (ev_process_id e) (ev_thread_id e) (ev_data e) (ev_formatted_message e).
Definition set_provider (e : Event) (v : str) : Event :=
  mkEvent (ev_id e) (ev_level e) v (ev_channel e) (ev_computer e) (ev_timestamp e)
    (ev_record_id e) (ev_process_id e) (ev_thread_id e) (ev_data e) (ev_formatted_message e).
Definition set_channel (e : Event) (v : str) : Event :=
  mkEvent (ev_id e) (ev_level e) (ev_provider e) v (ev_computer e) (ev_timestamp e)
    (ev_record_id e) (ev_process_id e) (ev_thread_id e) (ev_data e) (ev_formatted_message e).
Definition set_computer (e : Event) (v : str) : Event :=
  mkEvent (ev_id e) (ev_level e) (ev_provider e) (ev_channel e) v (ev_timestamp e)
    (ev_record_id e) (ev_process_id e) (ev_thread_id e) (ev_data e) (ev_formatted_message e).
Definition set_timestamp (e : Event) (v : option Z) : Event :=
  mkEvent (ev_id e) (ev_level e) (ev_provider e) (ev_channel e) (ev_computer e) v
    (ev_record_id e) (ev_process_id e) (ev_thread_id e) (ev_data e) (ev_formatted_message e).
Definition set_record_id (e : Event) (v : option Z) : Event :=
  mkEvent (ev_id e) (ev_level e) (ev_provider e) (ev_channel e) (ev_computer e) (ev_timestamp e)
    v (ev_process_id e) (ev_thread_id e) (ev_data e) (ev_formatted_message e).
Definition set_process_id (e : Event) (v : option Z) : Event :=
  mkEvent (ev_id e) (ev_level e) (ev_provider e) (ev_channel e) (ev_computer e) (ev_timestamp e)
    (ev_record_id e) v (ev_thread_id e) (ev_data e) (ev_formatted_message e).
Definition set_thread_id (e : Event) (v : option Z) : Event :=
  mkEvent (ev_id e) (ev_level e) (ev_provider e) (ev_channel e) (ev_computer e) (ev_timestamp e)
    (ev_record_id e) (ev_process_id e) v (ev_data e) (ev_formatted_message e).
Definition set_data (e : Event) (v : option (gmap str str)) : Event :=
  mkEvent (ev_id e) (ev_level e) (ev_provider e) (ev_channel e) (ev_computer e) (ev_timestamp e)
    (ev_record_id e) (ev_process_id e) (ev_thread_id e) v (ev_formatted_message e).
Definition set_message (e : Event) (v : option str) : Event :=
  mkEvent (ev_id e) (ev_level e) (ev_provider e) (ev_channel e) (ev_computer e) (ev_timestamp e)
    (ev_record_id e) (ev_process_id e) (ev_thread_id e) (ev_data e) v.

(** [if variants.len() > i { if let Some(x) = f(&variants[i]) { .. } }]. *)
Definition on_variant {A} (vs : list EVT_VARIANT) (i : nat) (f : EVT_VARIANT -> option A)
    (set : Event -> A -> Event) (e : Event) : Event :=
  match vs !! i ≫= f with Some a => set e a | None => e end.

Definition values_to_event (vs : list EVT_VARIANT) : res CorruptedEvent Event :=
  let e := event_default in
  let e := on_variant vs 0 (fun v => Some (default 0 (extract_u32_from_variant v))) set_id e in
  let e := on_variant vs 1 (fun v =>
             Some (default Verbose (from_code (default 4 (extract_u8_from_variant v))))) set_level e in
  let e := on_variant vs 2 extract_string_from_variant
             (fun e s => set_provider e (intern_provider s)) e in
  let e := on_variant vs 3 extract_string_from_variant
             (fun e s => set_channel e (intern_channel s)) e in
  let e := on_variant vs 4 extract_string_from_variant set_computer e in
  let! e :=
    (match vs !! 5%nat with
     | Some v => match extract_systemtime_from_variant v with
                 | Ok t => Ok (set_timestamp e (Some t))
                 | Err _ => Ok e
                 | Panic p => Panic p
                 end
     | None => Ok e
     end) in
  let e := on_variant vs 6 extract_u64_from_variant (fun e x => set_record_id e (Some x)) e in
  let e := on_variant vs 7 extract_u32_from_variant (fun e x => set_process_id e (Some x)) e in
  let e := on_variant vs 8 extract_u32_from_variant (fun e x => set_thread_id e (Some x)) e in
  Ok (if (9 <? length vs)%nat then set_data e (Some ∅) else e).

Section Values.
Context {W : Type} `{api : !evt_api W}.

Definition render_event_values (event_handle : Z) : res CorruptedEvent Event :=
  match EvtRenderValues event_handle 8192 with
  | None => Err (mkCorruptedEvent None (lit "EvtRender_Values") (lit "Failed to render event values"))
  | Some variants => values_to_event variants
  end.

(** The helpers of types.rs for custom conversions. *)
Definition other_error (m : string) : Error := Error_Other (mkOtherError (lit m)).

Definition extract_variant_field (event_handle : Z) (field_index : nat) : res Error EVT_VARIANT :=
  match EvtRenderValues event_handle 8192 with
  | None => Err (other_error "Failed to render event values")
  | Some variants =>
      match variants !! field_index with
      | None => Err (Error_Other (mkOtherError
                  (lit "Field index " ++ fmt_dec (Z.of_nat field_index) ++ lit " out of range")))
      | Some v => Ok v
      end
  end.

Definition extract_event_id (handle : Z) : res Error Z :=
  let! v := extract_variant_field handle 0 in
  if v_type v =? 8 then Ok (UInt32Val v) else Err (other_error "EventID field is not UInt32").

Definition extract_level (handle : Z) : res Error Z :=
  let! v := extract_variant_field handle 1 in
  if v_type v =? 2 then Ok (ByteVal v) else Err (other_error "Level field is not byte").

(** The string of a variant lies in the buffer of the render call, which is
    freed when [extract_variant_field] returns. *)
Definition extract_provider (handle : Z) : res Error str :=
  let! v := extract_variant_field handle 2 in
  if v_type v =? 21 then
    match v_string v with
    | None => Err (other_error "Provider field is null")
    | Some _ => Panic UndefinedBehaviour
    end
  else Err (other_error "Provider field is not string").
(** So it never returns a name it may read. *)
Lemma extract_provider_reads_freed handle name : extract_provider handle <> Ok name.
Proof.
  unfold extract_provider. destruct (extract_variant_field handle 2) as [v|e|x]; cbn [res_bind]; [|done..].
  destruct (v_type v =? 21); [by destruct (v_string v)|done].
Qed.

(** [filetime * 100] on a [u64]. *)
Definition mul_u64 (p : profile) (a b : Z) : res Error Z :=
  if a * b <? 2 ^ 64 then Ok (a * b)
  else match p with Debug => Panic ArithmeticOverflow | Release => Ok (wrap 64 (a * b)) end.

(** [UNIX_EPOCH - Duration::from_secs(11644473600)] is the tick 0. *)
Definition windows_epoch : Z := UNIX_EPOCH - 11644473600 * 10000000.

Definition extract_timestamp (p : profile) (handle : Z) : res Error Z :=
  let! v := extract_variant_field handle 5 in
  if v_type v =? 17 then
    let! intervals := mul_u64 p (FileTimeVal v) 100 in
    time_add windows_epoch (intervals / 1000000000) (intervals mod 1000000000)
  else Err (other_error "Timestamp field is not FILETIME").

Definition extract_record_id (handle : Z) : res Error Z :=
  let! v := extract_variant_field handle 6 in
  if v_type v =? 10 then Ok (UInt64Val v) else Err (other_error "RecordID field is not UInt64").
End Values.

(** ** Rendering as XML *)

(** [value.parse::<u32>()] and the like on the text. *)
Record xml_state := mkXmlState { xs_event : Event; xs_tag : str; xs_in_system : bool }.

Section Xml.
Variable p : profile.

(** An attribute list of which the code keeps the value of [key], valid
    UTF-8, in each occurrence. *)
Definition provider_attr (e : Event) (a : option (str * str)) : Event :=
  match a with
  | Some (key, value) =>
      if decide (key = lit "Name")
      then match from_utf8 value with Some v => set_provider e (intern_provider v) | None => e end
      else e
  | None => e
  end.

Fixpoint time_attrs (e : Event) (attrs : list (option (str * str))) : res CorruptedEvent Event :=
  match attrs with
  | [] => Ok e
  | Some (key, value) :: attrs =>
      if decide (key = lit "SystemTime")
      then match from_utf8 value with
           | Some v => match parse_iso8601_timestamp p v with
                       | Ok t => time_attrs (set_timestamp e (Some t)) attrs
                       | Err _ => time_attrs (set_timestamp e None) attrs
                       | Panic q => Panic q
                       end
           | None => time_attrs e attrs
           end
      else time_attrs e attrs
  | None :: attrs => time_attrs e attrs
  end.

Definition execution_attr (e : Event) (a : option (str * str)) : Event :=
  match a with
  | Some (key, value) =>
      let attr_name := from_utf8_lossy key in
      match from_utf8 value with
      | Some v =>
          if decide (attr_name = lit "ProcessID")
          then match parse_u32 v with Some pid => set_process_id e (Some pid) | None => e end
          else if decide (attr_name = lit "ThreadID")
          then match parse_u32 v with Some tid => set_thread_id e (Some tid) | None => e end
          else e
      | None => e
      end
  | None => e
  end.

Definition system_text (e : Event) (tag value : str) : Event :=
  if decide (tag = lit "EventID") then set_id e (default 0 (parse_u32 value))
  else if decide (tag = lit "Level")
  then set_level e (default Verbose (from_code (default 4 (parse_u8 value))))
  else if decide (tag = lit "Channel") then set_channel e (intern_channel value)
  else if decide (tag = lit "Computer") then set_computer e value
  else if decide (tag = lit "EventRecordID")
  then match parse_u64 value with Some rid => set_record_id e (Some rid) | None => e end
  else e.

(** One iteration of the loop. *)
Definition xml_step (s : xml_state) (ev : xml_event) : res CorruptedEvent xml_state :=
  let '(mkXmlState event current_tag in_system) := s in
  match ev with
  | XStart name attrs =>
      let tag_name := from_utf8_lossy name in
      if decide (tag_name = lit "System") then Ok (mkXmlState event current_tag true)
      else if in_system then
        if decide (tag_name = lit "Provider")
        then Ok (mkXmlState (fold_left provider_attr attrs event) tag_name in_system)
        else if decide (tag_name = lit "TimeCreated")
        then (let! event := time_attrs event attrs in Ok (mkXmlState event tag_name in_system))
        else Ok (mkXmlState event tag_name in_system)
      else Ok s
  | XEnd name =>
      let tag_name := from_utf8_lossy name in
      Ok (mkXmlState event [] (if decide (tag_name = lit "System") then false else in_system))
  | XText text =>
      if in_system && negb (bool_decide (current_tag = []))
      then Ok (mkXmlState (system_text event current_tag (from_utf8_lossy text)) current_tag in_system)
      else Ok s
  | XEmpty name attrs =>
      let tag_name := from_utf8_lossy name in
      if in_system && bool_decide (tag_name = lit "Execution")
      then Ok (mkXmlState (fold_left execution_attr attrs event) current_tag in_system)
      else Ok s
  | XOther => Ok s
  end.

Fixpoint xml_run (s : xml_state) (evs : list xml_event) : res CorruptedEvent xml_state :=
  match evs with
  | [] => Ok s
  | ev :: evs => let! s := xml_step s ev in xml_run s evs
  end.

Definition xml_start : xml_state := mkXmlState event_default [] false.

Definition parse_events (read : list xml_event * bool) : res CorruptedEvent Event :=
  let! s := xml_run xml_start (fst read) in
  if snd read then Ok (xs_event s)
  else Err (mkCorruptedEvent (ev_record_id (xs_event s)) (lit "quick-xml") (lit "XML parsing error")).

Definition parse_event_xml_with_quick_xml `{xml : !xml_reader} (xml_str : str)
    : res CorruptedEvent Event :=
  parse_events (read_events xml_str).
End Xml.

(** ** EventData *)

Record data_state := mkDataState {
  ds_fields : gmap str str; ds_in : bool; ds_name : option str }.

Definition data_step (s : data_state) (ev : xml_event) : data_state :=
  let '(mkDataState data_fields in_event_data current) := s in
  match ev with
  | XStart name attrs =>
      if decide (name = lit "EventData") then mkDataState data_fields true current
      else if in_event_data && bool_decide (name = lit "Data")
      then mkDataState data_fields in_event_data
             ((a ← list_find (fun a => fst a = lit "Name") (omap id attrs); from_utf8 (snd (snd a))))
      else s
  | XEnd name =>
      if decide (name = lit "EventData") then mkDataState data_fields false current else s
  | XText text =>
      match current with
      | Some field_name =>
          if in_event_data
          then mkDataState (<[intern_field_name field_name := from_utf8_lossy text]> data_fields)
                 in_event_data None
          else s
      | None => s
      end
  | XEmpty _ _ | XOther => s
  end.

Definition extract_event_data (read : list xml_event * bool) : option (gmap str str) :=
  let fields := ds_fields (fold_left data_step (fst read) (mkDataState ∅ false None)) in
  if decide (fields = ∅) then None else Some fields.

Definition extract_event_data_from_xml `{xml : !xml_reader} (xml : str) : option (gmap str str) :=
  extract_event_data (read_events xml).

(** ** Messages and the publisher cache *)

(** What the process did with publisher metadata handles, in order. *)
Inductive pub_call :=
  | PubOpen (h : Z)
  | PubFormat (h event : Z)
  | PubClose (h : Z).

Record evt_st (W : Type) := mkEvtSt {
  mach : W;
  pub_cache : gmap str Z;
  pub_calls : list pub_call;
  closed : list Z (** the other handles passed to [EvtClose], in order *) }.
Arguments mkEvtSt {W} _ _ _ _.
Arguments mach {W} _.
Arguments pub_cache {W} _.
Arguments pub_calls {W} _.
Arguments closed {W} _.

Section Messages.
Context {W : Type} `{api : !evt_api W}.

Definition note (s : evt_st W) (c : pub_call) : evt_st W :=
  mkEvtSt (mach s) (pub_cache s) (pub_calls s ++ [c]) (closed s).

Definition drop_publisher (h : Z) (s : evt_st W) : evt_st W :=
  if is_invalid h then s else note s (PubClose h).

(** The handle that is returned and the one in the cache are clones: two
    owners of one Windows handle. *)
Definition get_publisher_metadata (provider_name : str) : eff (evt_st W) Error (option Z) := fun s =>
  match pub_cache s !! provider_name with
  | Some h => (Ok (Some h), s)
  | None =>
      match EvtOpenPublisherMetadata (mach s) (to_utf16_nul provider_name) with
      | (Some h, w) =>
          (Ok (Some h),
           mkEvtSt w (<[provider_name := h]> (pub_cache s)) (pub_calls s ++ [PubOpen h]) (closed s))
      | (None, w) => (Ok None, mkEvtSt w (pub_cache s) (pub_calls s) (closed s))
      end
  end.

(** The message in a buffer of which [buffer_used] was reported. *)
Definition message_text (buffer : list Z) (buffer_used : Z) : option str :=
  let len := if 0 <? buffer_used then Z.to_nat (buffer_used / 2) else O in
  if (0 <? len)%nat && (len <=? length buffer)%nat then
    let actual_len := if bool_decide (buffer !! (len - 1)%nat = Some 0) then (len - 1)%nat else len in
    Some (from_utf16_lossy (take actual_len buffer))
  else None.

Fixpoint format_loop (fuel : nat) (metadata event_handle buffer_size : Z)
    : eff (evt_st W) Error (option str) := fun s =>
  match fuel with
  | O => (Panic OutOfFuel, s)
  | S fuel =>
      let s := note s (PubFormat metadata event_handle) in
      match EvtFormatMessage metadata event_handle (buffer_size / 2) with
      | inr (buffer, buffer_used) => (Ok (message_text buffer buffer_used), s)
      | inl (error, buffer_used) =>
          if error =? 122 then
            if 1048576 <? buffer_used then (Ok None, s)
            else format_loop fuel metadata event_handle buffer_used s
          else (Ok None, s)
      end
  end.

Definition format_message (fuel : nat) (event_handle : Z) (provider_name : str)
    : eff (evt_st W) Error (option str) :=
  let* metadata := get_publisher_metadata provider_name in
  match metadata with
  | None => eff_ret None
  | Some h => eff_scoped (drop_publisher h) (format_loop fuel h event_handle 4096)
  end.

(** ** One event *)

(** [&buffer[..buffer_used]] of the 16384-byte buffer, as UTF-16. *)
Definition xml_text {E} (buffer : list Z) (buffer_used : Z) : res E str :=
  if buffer_used <=? 16384 then Ok (from_utf16_lossy (take (Z.to_nat (buffer_used / 2)) buffer))
  else Panic IndexOutOfBounds.

Context `{xml : !xml_reader}.

Definition render_event_xml (p : profile) (event_handle : Z) : res CorruptedEvent Event :=
  match EvtRenderXml event_handle 16384 with
  | None => Err (mkCorruptedEvent None (lit "EvtRender_Xml") (lit "Failed to render event as XML"))
  | Some (buffer, buffer_used) =>
      let! xml_str := xml_text buffer buffer_used in
      parse_event_xml_with_quick_xml p xml_str
  end.

(** The part of [render_event] that reads the event. *)
Definition render_fields (p : profile) (event_handle : Z) (format : RenderFormat)
    (include_event_data : bool) : res CorruptedEvent Event :=
  let! event := match format with
                | Values => render_event_values event_handle
                | Xml => render_event_xml p event_handle
                end in
  if include_event_data && bool_decide (format = Xml) then
    match EvtRenderXml event_handle 16384 with
    | Some (buffer, buffer_used) =>
        let! xml_str := xml_text buffer buffer_used in
        Ok (set_data event (extract_event_data_from_xml xml_str))
    | None => Ok event
    end
  else Ok event.

Definition render_event (p : profile) (fuel : nat) (event_handle : Z) (format : RenderFormat)
    (include_event_data parse_message : bool) : eff (evt_st W) CorruptedEvent Event :=
  let* event := eff_lift (render_fields p event_handle format include_event_data) in
  if parse_message then
    let* message := eff_try (format_message fuel event_handle (ev_provider event)) in
    eff_ret (set_message event match message with inr m => m | inl _ => None end)
  else eff_ret event.
End Messages.

(** ** The XML reader on the text Windows prints *)

Section XmlSpec.
Variable p : profile.

Lemma xml_run_app s l1 l2 :
  xml_run p s (l1 ++ l2) = let! s := xml_run p s l1 in xml_run p s l2.
Proof.
  revert s. induction l1 as [|ev l1 IH]; intros s; simpl; [done|].
  destruct (xml_step p s ev); simpl; auto.
Qed.

Definition opens_system (ev : xml_event) : bool :=
  match ev with XStart name _ => bool_decide (from_utf8_lossy name = lit "System") | _ => false end.

(** Outside [System] nothing is read, until an element named [System]
    opens. *)
Lemma xml_run_outside e tag evs :
  Forall (fun ev => opens_system ev = false) evs ->
  exists tag', xml_run p (mkXmlState e tag false) evs = Ok (mkXmlState e tag' false).
Proof.
  intros H. revert tag. induction H as [|ev evs Hev _ IH]; intros tag; [by eexists|].
  destruct ev as [name attrs|name|text|name attrs|]; cbn [xml_run xml_step];
    unfold opens_system in Hev; cbn [andb]; try apply IH.
  - apply bool_decide_eq_false in Hev. rewrite decide_False by done. apply IH.
  - case_decide; apply IH.
Qed.

(** [<tag>value</tag>], and an element of attributes, printed with an end
    tag or self-closing. *)
Definition element (tag value : str) : list xml_event := [XStart tag []; XText value; XEnd tag].
Definition attr_element (self_closing : bool) (tag : str) (attrs : list (option (str * str)))
    : list xml_event :=
  if self_closing then [XEmpty tag attrs] else [XStart tag attrs; XEnd tag].

Definition plain_tag (tag : str) : bool :=
  bool_decide (from_utf8_lossy tag = tag) && negb (bool_decide (tag = [])) &&
  negb (bool_decide (tag = lit "System")) && negb (bool_decide (tag = lit "Provider")) &&
  negb (bool_decide (tag = lit "TimeCreated")).

Lemma xml_run_element e t tag value rest :
  plain_tag tag = true -> utf8_valid value = true ->
  xml_run p (mkXmlState e t true) (element tag value ++ rest)
  = xml_run p (mkXmlState (system_text e tag value) [] true) rest.
Proof.
  unfold plain_tag. rewrite !andb_true_iff, !negb_true_iff.
  intros ((((H1 & H2) & H3) & H4) & H5) Hv.
  apply bool_decide_eq_true in H1. apply bool_decide_eq_false in H2, H3, H4, H5.
  unfold element. cbn [app xml_run xml_step]. rewrite H1.
  rewrite !decide_False by done. cbn [res_bind xml_step andb].
  rewrite bool_decide_false by done. cbn [negb res_bind xml_step].
  by rewrite (from_utf8_lossy_valid value Hv), H1, decide_False.
Qed.

Lemma xml_run_execution e t attrs rest :
  xml_run p (mkXmlState e t true) (XEmpty (lit "Execution") attrs :: rest)
  = xml_run p (mkXmlState (fold_left execution_attr attrs e) t true) rest.
Proof. reflexivity. Qed.

Lemma xml_run_provider sc e name rest :
  utf8_valid name = true ->
  xml_run p (mkXmlState e [] true) (attr_element sc (lit "Provider") [Some (lit "Name", name)] ++ rest)
  = xml_run p (mkXmlState (if sc then e else set_provider e (intern_provider name)) [] true) rest.
Proof.
  intros Hv. destruct sc; [reflexivity|].
  unfold attr_element. cbn [app xml_run]. unfold xml_step at 1.
  change (from_utf8_lossy (lit "Provider")) with (lit "Provider").
  rewrite decide_False by discriminate. rewrite decide_True by done.
  cbn [res_bind fold_left provider_attr]. rewrite decide_True by done.
  unfold from_utf8. by rewrite Hv.
Qed.

Lemma xml_run_time sc e time t rest :
  utf8_valid time = true -> parse_iso8601_timestamp p time = Ok t ->
  xml_run p (mkXmlState e [] true)
    (attr_element sc (lit "TimeCreated") [Some (lit "SystemTime", time)] ++ rest)
  = xml_run p (mkXmlState (if sc then e else set_timestamp e (Some t)) [] true) rest.
Proof.
  intros Hv Ht. destruct sc; [reflexivity|].
  unfold attr_element. cbn [app xml_run]. unfold xml_step at 1.
  change (from_utf8_lossy (lit "TimeCreated")) with (lit "TimeCreated").
  rewrite decide_False by discriminate. rewrite decide_False by discriminate.
  rewrite decide_True by done. cbn [time_attrs]. rewrite decide_True by done.
  unfold from_utf8. rewrite Hv, Ht. reflexivity.
Qed.
End XmlSpec.

Lemma lookup_self_map (l : list str) (m : gmap str str) name v :
  (forall k x, m !! k = Some x -> x = k) ->
  fold_left (fun m k => <[k := k]> m) l m !! name = Some v -> v = name.
Proof.
  revert m. induction l as [|k l IH]; intros m Hm; cbn [fold_left]; [apply Hm|].
  apply IH. intros k' x. destruct (decide (k = k')) as [->|Hne].
  - rewrite lookup_insert_eq. by intros [= <-].
  - rewrite lookup_insert_ne by done. apply Hm.
Qed.

Lemma intern_provider_id name : intern_provider name = name.
Proof.
  unfold intern_provider. destruct (_ !! name) eqn:E; [|done].
  eapply lookup_self_map; [|exact E]. intros k x Hk. by rewrite lookup_empty in Hk.
Qed.

Lemma intern_channel_id name : intern_channel name = name.
Proof.
  unfold intern_channel. destruct (_ !! name) eqn:E; [|done].
  eapply lookup_self_map; [|exact E]. intros k x Hk. by rewrite lookup_empty in Hk.
Qed.

Lemma intern_field_name_id name : intern_field_name name = name.
Proof.
  unfold intern_field_name. destruct (list_find _ _) as [[i [a b]]|] eqn:E; [|done].
  apply list_find_Some in E as (Hi & Ha & _). cbn [fst snd] in *. subst.
  unfold field_arms in Hi. rewrite list_lookup_fmap in Hi.
  apply fmap_Some in Hi as (s & _ & Hs). by simplify_eq.
Qed.

Lemma from_code_level_code l : from_code (level_code l) = Some l.
Proof. by destruct l. Qed.

(** The fields of a [System] section. *)
Record system_info := mkSystemInfo {
  si_provider : str; si_id : Z; si_level : EventLevel; si_time : str; si_record_id : Z;
  si_pid : Z; si_tid : Z; si_channel : str; si_computer : str }.

Definition system_info_ok (i : system_info) : Prop :=
  0 <= si_id i <= u32_max /\ 0 <= si_record_id i <= u64_max /\
  0 <= si_pid i <= u32_max /\ 0 <= si_tid i <= u32_max /\
  utf8_valid (si_provider i) = true /\ utf8_valid (si_time i) = true /\
  utf8_valid (si_channel i) = true /\ utf8_valid (si_computer i) = true.

(** The events of an event record's XML, with the elements that only carry
    attributes printed with an end tag or self-closing. *)
Definition system_events (self_closing : bool) (i : system_info) : list xml_event :=
  attr_element self_closing (lit "Provider") [Some (lit "Name", si_provider i)] ++
  element (lit "EventID") (fmt_dec (si_id i)) ++
  element (lit "Level") (fmt_dec (level_code (si_level i))) ++
  attr_element self_closing (lit "TimeCreated") [Some (lit "SystemTime", si_time i)] ++
  element (lit "EventRecordID") (fmt_dec (si_record_id i)) ++
  [XEmpty (lit "Execution") [Some (lit "ProcessID", fmt_dec (si_pid i));
                             Some (lit "ThreadID", fmt_dec (si_tid i))]] ++
  element (lit "Channel") (si_channel i) ++
  element (lit "Computer") (si_computer i).

Definition record_events (self_closing : bool) (i : system_info) (rest : list xml_event)
    : list xml_event :=
  [XStart (lit "Event") []; XStart (lit "System") []] ++ system_events self_closing i ++
  XEnd (lit "System") :: rest.

Lemma fmt_dec_valid n : 0 <= n -> utf8_valid (fmt_dec n) = true.
Proof.
  intros Hn. apply utf8_valid_ascii. eapply Forall_impl; [by apply (digit_chars_graphic 10)|].
  intros c. cbn. lia.
Qed.

(** The part of an event record that the reader recovers. *)
Definition info_event (self_closing : bool) (i : system_info) (t : Z) : Event :=
  mkEvent (si_id i) (si_level i)
    (if self_closing then [] else si_provider i) (si_channel i) (si_computer i)
    (if self_closing then None else Some t)
    (Some (si_record_id i)) (Some (si_pid i)) (Some (si_tid i)) None None.

Lemma execution_attr_pid e pid :
  0 <= pid <= u32_max -> execution_attr e (Some (lit "ProcessID", fmt_dec pid)) = set_process_id e (Some pid).
Proof.
  intros Hp. unfold execution_attr, from_utf8, parse_u32. rewrite fmt_dec_valid by lia.
  rewrite decide_True by reflexivity. by rewrite parse_fmt_dec.
Qed.

Lemma execution_attr_tid e tid :
  0 <= tid <= u32_max -> execution_attr e (Some (lit "ThreadID", fmt_dec tid)) = set_thread_id e (Some tid).
Proof.
  intros Ht. unfold execution_attr, from_utf8, parse_u32. rewrite fmt_dec_valid by lia.
  rewrite decide_False by (vm_compute; discriminate). rewrite decide_True by reflexivity.
  by rewrite parse_fmt_dec.
Qed.

Lemma execution_attrs e pid tid :
  0 <= pid <= u32_max -> 0 <= tid <= u32_max ->
  fold_left execution_attr [Some (lit "ProcessID", fmt_dec pid); Some (lit "ThreadID", fmt_dec tid)] e
  = set_thread_id (set_process_id e (Some pid)) (Some tid).
Proof. intros Hp Ht. cbn [fold_left]. by rewrite execution_attr_pid, execution_attr_tid. Qed.

Lemma system_text_id e n : 0 <= n <= u32_max -> system_text e (lit "EventID") (fmt_dec n) = set_id e n.
Proof. intros Hn. unfold system_text. rewrite decide_True by done. unfold parse_u32. by rewrite parse_fmt_dec. Qed.

Lemma system_text_level e l :
  system_text e (lit "Level") (fmt_dec (level_code l)) = set_level e l.
Proof. destruct l; reflexivity. Qed.

Lemma system_text_record_id e n :
  0 <= n <= u64_max -> system_text e (lit "EventRecordID") (fmt_dec n) = set_record_id e (Some n).
Proof.
  intros Hn. unfold system_text. do 4 rewrite decide_False by discriminate.
  rewrite decide_True by done. unfold parse_u64. by rewrite parse_fmt_dec.
Qed.

Lemma system_text_channel e s : system_text e (lit "Channel") s = set_channel e s.
Proof.
  unfold system_text. do 2 rewrite decide_False by discriminate. rewrite decide_True by done.
  by rewrite intern_channel_id.
Qed.

Lemma system_text_computer e s : system_text e (lit "Computer") s = set_computer e s.
Proof.
  unfold system_text. do 3 rewrite decide_False by discriminate. by rewrite decide_True.
Qed.

(** The XML of an event record is read back: whatever follows the
    [System] section (event data, user data, as long as it opens no other
    element named [System]), the parsed event has the record's id, level,
    channel, computer, record id, process id and thread id.  The provider and
    the timestamp are read when [Provider] and [TimeCreated] are printed with
    an end tag; when they are self-closing, as [Execution] is and as Windows
    prints them, the event has an empty provider and no timestamp. *)
Theorem system_section_round_trip p sc i t rest :
  system_info_ok i -> parse_iso8601_timestamp p (si_time i) = Ok t ->
  Forall (fun ev => opens_system ev = false) rest ->
  parse_events p (record_events sc i rest, true) = Ok (info_event sc i t).
Proof.
  intros (Hid & Hrid & Hpid & Htid & Hvp & Hvt & Hvc & Hvm) Ht Hrest.
  unfold parse_events, record_events. cbn [fst snd app].
  change (xml_run p xml_start (XStart (lit "Event") [] :: XStart (lit "System") [] :: ?l))
    with (xml_run p (mkXmlState event_default [] true) l).
  unfold system_events. rewrite <- !app_assoc.
  assert (0 <= level_code (si_level i)) by (destruct (si_level i); cbn; lia).
  rewrite xml_run_provider by done. rewrite intern_provider_id.
  do 2 rewrite xml_run_element by (first [reflexivity | apply fmt_dec_valid; lia]).
  rewrite (xml_run_time p sc _ _ t) by done.
  rewrite xml_run_element by (first [reflexivity | apply fmt_dec_valid; lia]).
  cbn [app]. rewrite xml_run_execution.
  do 2 rewrite xml_run_element by (first [reflexivity | done]).
  rewrite execution_attrs, system_text_id, system_text_level, system_text_record_id,
    system_text_channel, system_text_computer by lia.
  set (e := set_computer _ _).
  change (xml_run p (mkXmlState e [] true) (XEnd (lit "System") :: rest))
    with (xml_run p (mkXmlState e [] false) rest).
  destruct (xml_run_outside p e [] rest Hrest) as [tag' ->]. subst e. by destruct sc.
Qed.

Definition sample_info : system_info :=
  mkSystemInfo (lit "Microsoft-Windows-Security-Auditing") 4624 Informational
    (lit "2024-01-15T10:30:45.123456Z") 99 700 704 (lit "Security") (lit "HOST").

Lemma system_section_round_trip_witness :
  parse_events Debug (record_events true sample_info
    [XStart (lit "EventData") []; XStart (lit "EventID") []; XText (lit "1"); XEnd (lit "EventID")], true)
  = Ok (mkEvent 4624 Informational [] (lit "Security") (lit "HOST") None (Some 99) (Some 700)
          (Some 704) None None).
Proof.
  apply (system_section_round_trip Debug true sample_info (UNIX_EPOCH + 17053146451234560)).
  - unfold system_info_ok. vm_compute. repeat split; discriminate.
  - vm_compute. reflexivity.
  - repeat constructor.
Defined.

(** ** EventData *)

(** [<Data Name=name>value</Data>], the value possibly empty. *)
Definition data_events (f : str * option str) : list xml_event :=
  XStart (lit "Data") [Some (lit "Name", fst f)] ::
  match snd f with Some v => [XText v] | None => [] end ++ [XEnd (lit "Data")].

Definition opens_data (ev : xml_event) : bool :=
  match ev with XStart name _ => bool_decide (name = lit "EventData") | _ => false end.

(** The fields with a value, in order. *)
Definition present (fields : list (str * option str)) : list (str * str) :=
  omap (fun f => (fst f,.) <$> snd f) fields.

Definition insert_all (l : list (str * str)) (m : gmap str str) : gmap str str :=
  fold_left (fun m f => <[fst f := snd f]> m) l m.

(** A later field of the same name wins. *)
Lemma insert_all_reverse l m : insert_all l m = list_to_map (reverse l) ∪ m.
Proof.
  revert m. induction l as [|[k v] l IH]; intros m; cbn [insert_all fold_left fst snd].
  - change (reverse (@nil (str * str))) with (@nil (str * str)). cbn. by rewrite map_empty_union.
  - change (insert_all l (<[k := v]> m) = list_to_map (reverse ((k, v) :: l)) ∪ m).
    rewrite IH, reverse_cons, list_to_map_app, <- map_union_assoc. f_equal.
    cbn. by rewrite <- insert_union_l, map_empty_union.
Qed.

Lemma data_outside m cur evs :
  Forall (fun ev => opens_data ev = false) evs ->
  ds_fields (fold_left data_step evs (mkDataState m false cur)) = m.
Proof.
  intros H. revert cur. induction H as [|ev evs Hev _ IH]; intros cur; [done|].
  cbn [fold_left]. destruct ev; cbn [data_step andb]; unfold opens_data in Hev; try apply IH.
  - apply bool_decide_eq_false in Hev. rewrite decide_False by done. apply IH.
  - case_decide; apply IH.
  - destruct cur; apply IH.
Qed.

Lemma data_before m cur evs :
  Forall (fun ev => opens_data ev = false) evs ->
  exists cur', fold_left data_step evs (mkDataState m false cur) = mkDataState m false cur'.
Proof.
  intros H. revert cur. induction H as [|ev evs Hev _ IH]; intros cur; [by eexists|].
  cbn [fold_left]. destruct ev; cbn [data_step andb]; unfold opens_data in Hev; try apply IH.
  - apply bool_decide_eq_false in Hev. rewrite decide_False by done. apply IH.
  - case_decide; apply IH.
  - destruct cur; apply IH.
Qed.

Lemma data_field m cur f :
  utf8_valid (fst f) = true -> (forall v, snd f = Some v -> utf8_valid v = true) ->
  exists cur', fold_left data_step (data_events f) (mkDataState m true cur)
    = mkDataState (insert_all (present [f]) m) true cur'.
Proof.
  destruct f as [name value]. cbn [fst snd]. intros Hn Hv. unfold data_events. cbn [fst snd fold_left].
  unfold data_step at 2. rewrite decide_False by discriminate. cbn [andb].
  rewrite bool_decide_true by done.
  assert ((a ← list_find (fun a => fst a = lit "Name") (omap id [Some (lit "Name", name)]);
           from_utf8 (snd (snd a))) = Some name) as ->.
  { transitivity (from_utf8 name); [reflexivity|]. unfold from_utf8. by rewrite Hn. }
  destruct value as [v|].
  - cbn [app fold_left data_step]. rewrite from_utf8_lossy_valid by (by apply Hv).
    rewrite intern_field_name_id. eexists. reflexivity.
  - eexists. reflexivity.
Qed.

Lemma data_fields m cur fields :
  Forall (fun f => utf8_valid (fst f) = true /\ (forall v, snd f = Some v -> utf8_valid v = true)) fields ->
  exists cur', fold_left data_step (mjoin (data_events <$> fields)) (mkDataState m true cur)
    = mkDataState (insert_all (present fields) m) true cur'.
Proof.
  intros H. revert m cur. induction H as [|f fields [Hn Hv] _ IH]; intros m cur; [by eexists|].
  change (mjoin (data_events <$> f :: fields)) with (data_events f ++ mjoin (data_events <$> fields)).
  rewrite fold_left_app. destruct (data_field m cur f Hn Hv) as [cur1 ->].
  destruct (IH (insert_all (present [f]) m) cur1) as [cur2 ->]. exists cur2. f_equal.
  unfold insert_all. rewrite <- fold_left_app. f_equal. unfold present.
  by rewrite <- omap_app.
Qed.

Lemma data_section pre fields attrs post :
  Forall (fun ev => opens_data ev = false) pre -> Forall (fun ev => opens_data ev = false) post ->
  Forall (fun f => utf8_valid (fst f) = true /\ (forall v, snd f = Some v -> utf8_valid v = true)) fields ->
  ds_fields (fold_left data_step
    (pre ++ XStart (lit "EventData") attrs :: mjoin (data_events <$> fields) ++
     XEnd (lit "EventData") :: post) (mkDataState ∅ false None))
  = insert_all (present fields) ∅.
Proof.
  intros Hpre Hpost Hf. rewrite fold_left_app. destruct (data_before ∅ None pre Hpre) as [cur ->].
  cbn [fold_left]. unfold data_step at 2. rewrite decide_True by done.
  rewrite fold_left_app. destruct (data_fields ∅ cur fields Hf) as [cur1 ->].
  cbn [fold_left]. unfold data_step at 2. rewrite decide_True by done.
  by apply data_outside.
Qed.

(** The fields of an [EventData] section become the event's data: the
    map has exactly the named fields that have a value, the last one where a
    name repeats, nothing outside the section is collected, an XML error
    after it loses nothing, and an event without such a field has no data. *)
Theorem event_data_spec pre fields attrs post ended :
  Forall (fun ev => opens_data ev = false) pre -> Forall (fun ev => opens_data ev = false) post ->
  Forall (fun f => utf8_valid (fst f) = true /\ (forall v, snd f = Some v -> utf8_valid v = true)) fields ->
  extract_event_data
    (pre ++ XStart (lit "EventData") attrs :: mjoin (data_events <$> fields) ++
     XEnd (lit "EventData") :: post, ended)
  = if decide (present fields = []) then None
    else Some (list_to_map (reverse (present fields))).
Proof.
  intros Hpre Hpost Hf. unfold extract_event_data. cbn [fst].
  rewrite data_section, insert_all_reverse, map_union_empty by done.
  destruct (present fields) as [|[k v] l].
  - by rewrite !decide_True.
  - rewrite !decide_False; [done|done|]. rewrite reverse_cons. intros Hm%(f_equal (.!! k)).
    rewrite list_to_map_app, lookup_union, lookup_empty in Hm. cbn in Hm.
    rewrite lookup_insert_eq in Hm. by destruct (_ !! k) in Hm.
Qed.

Lemma event_data_spec_witness :
  extract_event_data
    ([XStart (lit "Event") []] ++ XStart (lit "EventData") [] ::
     mjoin (data_events <$> [(lit "A", Some (lit "1")); (lit "B", None); (lit "A", Some (lit "2"))]) ++
     XEnd (lit "EventData") :: [XEnd (lit "Event")], true)
  = Some (list_to_map [(lit "A", lit "2"); (lit "A", lit "1")]).
Proof.
  rewrite (event_data_spec [XStart (lit "Event") []]
             [(lit "A", Some (lit "1")); (lit "B", None); (lit "A", Some (lit "2"))] []
             [XEnd (lit "Event")] true).
  - reflexivity.
  - repeat constructor.
  - repeat constructor.
  - repeat (constructor; [split; [reflexivity|intros v [= <-]; reflexivity]|]). constructor.
Defined.

(** ** Message formatting *)

Section MessageSpec.
Context {W : Type} `{api : !evt_api W}.

(** The documented behaviour of [EvtFormatMessage]: both sizes count
    characters.  A buffer that holds the message with its terminator receives
    it, a smaller one is refused with [ERROR_INSUFFICIENT_BUFFER], and the
    used size is the size of the message in both cases. *)
Definition formats (h ev : Z) (units : list Z) : Prop := forall size,
  EvtFormatMessage h ev size =
  if Z.of_nat (length units) + 1 <=? size
  then inr (units ++ replicate (Z.to_nat size - length units) 0, Z.of_nat (length units) + 1)
  else inl (122, Z.of_nat (length units) + 1).

Lemma message_text_half units pad :
  (0 < length units)%nat -> Forall (fun u => u <> 0) units ->
  message_text (units ++ replicate (S pad) 0) (Z.of_nat (length units) + 1)
  = Some (from_utf16_lossy (take ((length units + 1) / 2) units)).
Proof.
  intros Hl Hnz. unfold message_text.
  replace (0 <? Z.of_nat (length units) + 1) with true by lia.
  replace (Z.to_nat ((Z.of_nat (length units) + 1) / 2)) with ((length units + 1) / 2)%nat.
  2:{ rewrite <- (Nat2Z.id ((length units + 1) / 2)), Nat2Z.inj_div. f_equal. lia. }
  set (n := ((length units + 1) / 2)%nat).
  assert (1 <= n <= length units)%nat as Hn.
  { subst n. split; [apply Nat.div_le_lower_bound; lia|].
    apply Nat.Div0.div_le_upper_bound. lia. }
  replace (0 <? n)%nat with true by (symmetry; apply Nat.ltb_lt; lia).
  replace (n <=? length (units ++ replicate (S pad) 0%Z))%nat with true
    by (symmetry; apply Nat.leb_le; rewrite length_app; lia).
  cbn [andb]. rewrite lookup_app_l by lia.
  rewrite bool_decide_false.
  - by rewrite take_app_le by lia.
  - intros H. eapply Forall_lookup_1 in H; [|exact Hnz]. done.
Qed.

(** Asking for the used size again asks for half of it. *)
Lemma format_loop_stuck h ev units fuel s :
  formats h ev units -> Z.of_nat (length units) + 1 <= 1048576 ->
  (format_loop fuel h ev (Z.of_nat (length units) + 1) s).1 = Panic OutOfFuel.
Proof.
  intros Hf Hn. revert s. induction fuel as [|fuel IH]; intros s; [done|].
  cbn [format_loop]. rewrite (Hf ((Z.of_nat (length units) + 1) / 2)).
  replace (Z.of_nat (length units) + 1 <=? (Z.of_nat (length units) + 1) / 2) with false
    by (Z.to_euclidean_division_equations; lia).
  cbn [Z.eqb Pos.eqb]. replace (1048576 <? Z.of_nat (length units) + 1) with false by lia.
  apply IH.
Qed.

(** Message sizes: with [EvtFormatMessage] as documented (sizes in
    characters), the buffer arithmetic of [format_message], which takes them
    for bytes, halves the message.  A message of [n] characters, terminator
    included, is cut to its first [n / 2] characters when it fits the first
    buffer of 2048; when it is longer and not over the limit of 1048576 the
    retry loop asks for half of what it needs forever (no amount of fuel ends
    it); beyond the limit there is no message. *)
Theorem format_message_halves h ev units s :
  formats h ev units -> (0 < length units)%nat -> Forall (fun u => u <> 0) units ->
  let n := Z.of_nat (length units) + 1 in
  (n <= 2048 -> forall fuel, (format_loop (S fuel) h ev 4096 s).1
                = Ok (Some (from_utf16_lossy (take ((length units + 1) / 2) units)))) /\
  (2048 < n <= 1048576 -> forall fuel, (format_loop fuel h ev 4096 s).1 = Panic OutOfFuel) /\
  (1048576 < n -> forall fuel, (format_loop (S fuel) h ev 4096 s).1 = Ok None).
Proof.
  intros Hf Hl Hnz n. split_and!.
  - intros Hn fuel. cbn [format_loop]. rewrite (Hf (4096 / 2)). change (4096 / 2) with 2048.
    replace (Z.of_nat (length units) + 1 <=? 2048) with true by (subst n; lia). cbn [fst].
    replace (Z.to_nat 2048 - length units)%nat with (S (2047 - length units)) by (subst n; lia).
    by rewrite message_text_half.
  - intros Hn [|fuel]; [done|]. cbn [format_loop]. rewrite (Hf (4096 / 2)).
    change (4096 / 2) with 2048.
    replace (Z.of_nat (length units) + 1 <=? 2048) with false by (subst n; lia).
    cbn [Z.eqb Pos.eqb]. replace (1048576 <? Z.of_nat (length units) + 1) with false by (subst n; lia).
    apply format_loop_stuck; [done|lia].
  - intros Hn fuel. cbn [format_loop]. rewrite (Hf (4096 / 2)). change (4096 / 2) with 2048.
    replace (Z.of_nat (length units) + 1 <=? 2048) with false by (subst n; lia).
    cbn [Z.eqb Pos.eqb]. by replace (1048576 <? Z.of_nat (length units) + 1) with true by (subst n; lia).
Qed.
End MessageSpec.

Section CacheSpec.
Context {W : Type} `{api : !evt_api W}.

(** The loop leaves everything but the log of calls alone. *)
Lemma format_loop_frame fuel h ev size s :
  exists k, (format_loop fuel h ev size s).2
    = mkEvtSt (mach s) (pub_cache s) (pub_calls s ++ replicate k (PubFormat h ev)) (closed s).
Proof.
  revert size s. induction fuel as [|fuel IH]; intros size s; cbn [format_loop].
  - exists 0%nat. rewrite app_nil_r. by destruct s.
  - assert (exists k, note s (PubFormat h ev) = mkEvtSt (mach s) (pub_cache s)
              (pub_calls s ++ replicate k (PubFormat h ev)) (closed s)) as H1 by (by exists 1%nat).
    destruct (EvtFormatMessage h ev (size / 2)) as [[err used]|[buf used]]; [|done].
    destruct (err =? 122); [|done]. destruct (1048576 <? used); [done|].
    destruct (IH used (note s (PubFormat h ev))) as [k ->]. exists (S k).
    unfold note. cbn. by rewrite <- app_assoc.
Qed.

(** The publisher cache keeps closed handles: the first message of a
    provider opens a metadata handle, stores it in the cache and closes it on
    return, because the cached handle and the returned one are two owners of
    one handle.  The next message of that provider then formats with the
    handle that is already closed, and closes it again. *)
Theorem format_message_reuses_closed_handle fuel1 fuel2 ev1 ev2 provider s h w :
  pub_cache s !! provider = None ->
  EvtOpenPublisherMetadata (mach s) (to_utf16_nul provider) = (Some h, w) -> is_invalid h = false ->
  let s1 := (format_message fuel1 ev1 provider s).2 in
  let s2 := (format_message fuel2 ev2 provider s1).2 in
  pub_cache s1 !! provider = Some h /\
  exists k1 k2,
    pub_calls s1 = pub_calls s ++ PubOpen h :: replicate k1 (PubFormat h ev1) ++ [PubClose h] /\
    pub_calls s2 = pub_calls s1 ++ replicate k2 (PubFormat h ev2) ++ [PubClose h].
Proof.
  intros Hc Ho Hi s1 s2.
  set (s0 := mkEvtSt w (<[provider := h]> (pub_cache s)) (pub_calls s ++ [PubOpen h]) (closed s)).
  assert (exists k, s1 = mkEvtSt w (<[provider := h]> (pub_cache s))
            ((pub_calls s ++ [PubOpen h]) ++ replicate k (PubFormat h ev1) ++ [PubClose h]) (closed s))
    as (k1 & Hs1).
  { subst s1. unfold format_message, eff_bind, get_publisher_metadata. rewrite Hc, Ho.
    unfold eff_scoped. fold s0. destruct (format_loop_frame fuel1 h ev1 4096 s0) as [k Hk].
    destruct (format_loop fuel1 h ev1 4096 s0) as [r s']. cbn in Hk |- *. subst s'.
    unfold drop_publisher. rewrite Hi. exists k. unfold note. cbn. by rewrite <- !app_assoc. }
  rewrite Hs1. cbn [pub_cache pub_calls]. split; [by rewrite lookup_insert_eq|].
  assert (pub_cache s1 !! provider = Some h) as Hc1 by (rewrite Hs1; cbn; by rewrite lookup_insert_eq).
  subst s2. unfold format_message, eff_bind, get_publisher_metadata. rewrite Hc1.
  unfold eff_scoped. destruct (format_loop_frame fuel2 h ev2 4096 s1) as [k2 Hk2].
  destruct (format_loop fuel2 h ev2 4096 s1) as [r s']. cbn in Hk2 |- *. subst s'.
  unfold drop_publisher. rewrite Hi. exists k1, k2. unfold note. cbn [pub_calls]. rewrite Hs1.
  cbn [pub_calls]. rewrite <- !app_assoc. done.
Qed.

(** The largest FILETIME whose count of nanoseconds fits 64 bits: a day of
    July 2185. *)
Definition max_filetime : Z := 184467440737095516.

(** The timestamp of a raw event is exact, to the 100 ns tick, as long
    as its FILETIME is at most [184467440737095516]; beyond, the
    multiplication to nanoseconds overflows: a debug build panics and a
    release build returns another instant. *)
Theorem extract_timestamp_exact p handle v :
  extract_variant_field handle 5 = Ok v -> v_type v = 17 -> bytes_ok (v_raw v) -> length (v_raw v) = 8%nat ->
  (FileTimeVal v <= max_filetime -> extract_timestamp p handle = Ok (FileTimeVal v)) /\
  (max_filetime < FileTimeVal v ->
   (p = Debug -> extract_timestamp p handle = Panic ArithmeticOverflow) /\
   (p = Release -> exists t, extract_timestamp p handle = Ok t /\ t < FileTimeVal v)).
Proof.
  intros Hv Ht Hb Hl. unfold extract_timestamp. rewrite Hv. cbn [res_bind]. rewrite Ht.
  cbn [Z.eqb Pos.eqb]. assert (0 <= FileTimeVal v < 2 ^ 64) as Hr.
  { unfold FileTimeVal. pose proof (le_decode_bound (v_raw v) Hb) as H. rewrite Hl in H.
    rewrite firstn_all2 by lia. exact H. }
  generalize dependent (FileTimeVal v). intros f Hr. change windows_epoch with 0.
  assert (forall x, 0 <= x < 2 ^ 64 -> @time_add Error 0 (x / 1000000000) (x mod 1000000000) = Ok (x / 100)) as Hadd.
  { intros x Hx. unfold time_add.
    replace (0 + (x / 1000000000 * 10000000 + x mod 1000000000 / 100)) with (x / 100)
      by (Z.to_euclidean_division_equations; lia).
    replace (2 ^ 63 <=? x / 100) with false; [done|].
    symmetry. apply Z.leb_gt. apply Z.div_lt_upper_bound; lia. }
  unfold mul_u64, max_filetime. split.
  - intros Hf. replace (f * 100 <? 2 ^ 64) with true by lia. cbn [res_bind].
    rewrite Hadd by lia. by rewrite Z.div_mul.
  - intros Hf. replace (f * 100 <? 2 ^ 64) with false by lia. split; intros ->; [done|].
    cbn [res_bind]. pose proof (Z.mod_pos_bound (f * 100) (2 ^ 64)) as Hm. unfold wrap.
    rewrite Hadd by lia. eexists. split; [done|].
    apply Z.div_lt_upper_bound; [lia|].
    assert (f * 100 mod 2 ^ 64 < f * 100); [|lia].
    rewrite (Z.mod_eq (f * 100)) by lia.
    assert (1 <= f * 100 / 2 ^ 64); [|lia]. apply Z.div_le_lower_bound; lia.
Qed.
End CacheSpec.

(** ** Witnesses *)

(** A machine that hands out batches of handles: an even handle has six
    values, an odd one cannot be rendered; messages are [msg]. *)
Definition demo_values (h : Z) : list EVT_VARIANT :=
  [mkEVT_VARIANT 8 (le_encode 8 h) None; mkEVT_VARIANT 0 [] None; mkEVT_VARIANT 0 [] None;
   mkEVT_VARIANT 0 [] None; mkEVT_VARIANT 0 [] None;
   mkEVT_VARIANT 17 (le_encode 8 133500000000000001) None].

Definition demo_api (msg : list Z) : evt_api (list (list Z)) := {|
  is_invalid h := h =? 0;
  EvtRenderValues h size := if Z.even h then Some (demo_values h) else None;
  EvtRenderXml h size := None;
  EvtOpenPublisherMetadata w name := (Some 77, w);
  EvtFormatMessage h ev size :=
    if Z.of_nat (length msg) + 1 <=? size
    then inr (msg ++ replicate (Z.to_nat size - length msg) 0, Z.of_nat (length msg) + 1)
    else inl (122, Z.of_nat (length msg) + 1);
  EvtOpenLog w name file := (Some 5, w);
  EvtOpenChannelEnum w := (None, w);
  EvtNextChannelPath w h := (None, w);
  EvtQuery w channel xpath file := (Some 6, w);
  EvtNext w q n timeout := match w with [] => (inl 259, []) | b :: w => (inr b, w) end |}.

Definition demo_st (w : list (list Z)) : evt_st (list (list Z)) := mkEvtSt w ∅ [] [].

Lemma format_message_halves_witness :
  (format_loop (api := demo_api (lit "logged on")) 3 77 2 4096 (demo_st [])).1 = Ok (Some (lit "logge")).
Proof.
  destruct (format_message_halves (api := demo_api (lit "logged on")) 77 2 (lit "logged on") (demo_st []))
    as [H _].
  - intros size. reflexivity.
  - cbn. lia.
  - by repeat constructor.
  - rewrite (H ltac:(cbn; lia) 2%nat). vm_compute. reflexivity.
Defined.

Lemma format_message_reuses_closed_handle_witness :
  let s1 := (format_message (api := demo_api (lit "m")) 1 2 (lit "P") (demo_st [])).2 in
  pub_cache s1 !! lit "P" = Some 77.
Proof.
  exact (proj1 (format_message_reuses_closed_handle (api := demo_api (lit "m")) 1 1 2 4 (lit "P")
                  (demo_st []) 77 [] eq_refl eq_refl eq_refl)).
Defined.

Lemma extract_timestamp_exact_witness :
  extract_timestamp (api := demo_api []) Debug 2 = Ok 133500000000000001.
Proof.
  destruct (extract_timestamp_exact (api := demo_api []) Debug 2
              (mkEVT_VARIANT 17 (le_encode 8 133500000000000001) None)) as [H _].
  - vm_compute. reflexivity.
  - reflexivity.
  - apply bytes_ok_le_encode.
  - reflexivity.
  - apply H. vm_compute. discriminate.
Defined.
