(* ===== verification/EvtLog.v ===== *)
(** * EvtLog: event logs and batched queries

    src/evt/mod.rs.  A query is a value that its operations update; the
    operations run in the pair of the process state and the query.  An
    output vector is returned: the count that the code returns is its
    length, and on an error the caller's vector is empty. *)

From Stdlib Require Import ZArith Lia String Ascii.
From stdpp Require Import base list strings gmap numbers sorting.
From S2P Require Import Prelude Text Unicode Errors Backends Effects EvtTypes EvtRender.

Open Scope Z_scope.

Definition query_failed (log_name reason : str) (code : option Z) : Error :=
  Error_EventLog (EventLogError_QueryFailed (mkEventLogQueryError log_name reason code)).

Record EventLog := mkEventLog { el_handle : Z; el_channel_or_path : str; el_is_file : bool }.

Record EventQuery := mkEventQuery {
  eq_handle : Z;
  eq_batch_len : nat;
  eq_batch_timeout_ms : Z;
  eq_render_format : RenderFormat;
  eq_include_event_data : bool;
  eq_parse_message : bool;
  eq_xml_buffer : str;
  eq_corrupted : list CorruptedEvent;
  eq_total_processed : Z }.

(** [timeout.as_millis().min(u32::MAX)], for a timeout in nanoseconds. *)
Definition set_batch_timeout (q : EventQuery) (timeout_ns : Z) : EventQuery :=
  mkEventQuery (eq_handle q) (eq_batch_len q) (Z.min (timeout_ns / 1000000) u32_max) (eq_render_format q)
    (eq_include_event_data q) (eq_parse_message q) (eq_xml_buffer q) (eq_corrupted q)
    (eq_total_processed q).
Definition with_event_data (q : EventQuery) : EventQuery :=
  mkEventQuery (eq_handle q) (eq_batch_len q) (eq_batch_timeout_ms q) (eq_render_format q)
    true (eq_parse_message q) (eq_xml_buffer q) (eq_corrupted q) (eq_total_processed q).
Definition with_message (q : EventQuery) : EventQuery :=
  mkEventQuery (eq_handle q) (eq_batch_len q) (eq_batch_timeout_ms q) (eq_render_format q)
    (eq_include_event_data q) true (eq_xml_buffer q) (eq_corrupted q) (eq_total_processed q).
Definition set_render_format (q : EventQuery) (format : RenderFormat) : EventQuery :=
  mkEventQuery (eq_handle q) (eq_batch_len q) (eq_batch_timeout_ms q) format
    (eq_include_event_data q) (eq_parse_message q) (eq_xml_buffer q) (eq_corrupted q)
    (eq_total_processed q).

(** [self.corrupted.push(..)] and [self.total_processed += 1]. *)
Definition count_event (q : EventQuery) (c : option CorruptedEvent) : EventQuery :=
  mkEventQuery (eq_handle q) (eq_batch_len q) (eq_batch_timeout_ms q) (eq_render_format q)
    (eq_include_event_data q) (eq_parse_message q) (eq_xml_buffer q)
    (eq_corrupted q ++ option_list c) (eq_total_processed q + 1).
Definition set_xml_buffer (q : EventQuery) (x : str) : EventQuery :=
  mkEventQuery (eq_handle q) (eq_batch_len q) (eq_batch_timeout_ms q) (eq_render_format q)
    (eq_include_event_data q) (eq_parse_message q) x (eq_corrupted q) (eq_total_processed q).

Section Log.
Context {W : Type} `{api : !evt_api W} `{xml : !xml_reader}.
Variable p : profile.
Variable fuel : nat.

Abbreviation S := (evt_st W).
Abbreviation SQ := (evt_st W * EventQuery)%type.

Definition set_mach (s : S) (w : W) : S := mkEvtSt w (pub_cache s) (pub_calls s) (closed s).
Definition EvtClose (h : Z) (s : S) : S :=
  mkEvtSt (mach s) (pub_cache s) (pub_calls s) (closed s ++ [h]).
(** The destructors of [EventLog] and [EventQuery]. *)
Definition drop_handle (h : Z) (s : S) : S := if is_invalid h then s else EvtClose h s.

(** ** Opening *)

Definition log_open (channel_name : str) : eff S Error EventLog := fun s =>
  match EvtOpenLog (mach s) (to_utf16_nul channel_name) false with
  | (Some handle, w) => (Ok (mkEventLog handle channel_name false), set_mach s w)
  | (None, w) =>
      (Err (query_failed channel_name (lit "Channel not found or access denied") None), set_mach s w)
  end.

(** [path] is the result of [Path::to_str]. *)
Definition log_open_file (path : option str) : eff S Error EventLog := fun s =>
  match path with
  | None => (Err (query_failed (lit "file_path") (lit "Invalid file path") None), s)
  | Some path_str =>
      match EvtOpenLog (mach s) (to_utf16_nul path_str) true with
      | (Some handle, w) => (Ok (mkEventLog handle path_str true), set_mach s w)
      | (None, w) =>
          (Err (query_failed path_str (lit "Log file not found or cannot be read") None), set_mach s w)
      end
  end.

Fixpoint channel_loop (n : nat) (enum_handle : Z) (filter : ChannelFilter) (channels : list str)
    : eff S Error (list str) := fun s =>
  match n with
  | O => (Panic OutOfFuel, s)
  | Datatypes.S n =>
      match EvtNextChannelPath (mach s) enum_handle with
      | (None, w) => (Ok channels, set_mach s w)
      | (Some (buffer, buffer_used), w) =>
          if 1024 <? buffer_used then (Panic IndexOutOfBounds, set_mach s w)
          else
            let channel_name := from_utf16_lossy (take (Z.to_nat buffer_used) buffer) in
            channel_loop n enum_handle filter
              (if should_include_channel channel_name filter then channels ++ [channel_name] else channels)
              (set_mach s w)
      end
  end.

Definition list_channels_filtered (n : nat) (filter : ChannelFilter) : eff S Error (list str) := fun s =>
  match EvtOpenChannelEnum (mach s) with
  | (None, w) => (Err (query_failed (lit "channels") (lit "Failed to enumerate channels") None), set_mach s w)
  | (Some enum_handle, w) =>
      eff_bind (channel_loop n enum_handle filter [])
        (fun channels s => (Ok channels, EvtClose enum_handle s)) (set_mach s w)
  end.

Definition list_channels (n : nat) : eff S Error (list str) := list_channels_filtered n Operational.

(** ** Queries *)

Definition query_stream (log : EventLog) (xpath : str) : eff S Error EventQuery := fun s =>
  match EvtQuery (mach s) (to_utf16_nul (el_channel_or_path log)) (to_utf16_nul xpath) (el_is_file log) with
  | (Some query_handle, w) =>
      (Ok (mkEventQuery query_handle 64 1000 Values false false [] [] 0), set_mach s w)
  | (None, w) =>
      (Err (query_failed (el_channel_or_path log) (lit "Failed to create query handle") None), set_mach s w)
  end.

(** [EvtNext] and its error paths: [None] is the end of the stream. *)
Definition fetch : eff SQ Error (option (list Z)) := fun '(s, q) =>
  match EvtNext (mach s) (eq_handle q) (eq_batch_len q) (eq_batch_timeout_ms q) with
  | (inr handles, w) => (Ok (Some handles), (set_mach s w, q))
  | (inl code, w) =>
      (if code =? 259 then Ok None
       else Err (query_failed [] (lit "EvtNext failed") (Some (as_i32 code))), (set_mach s w, q))
  end.

Definition close_event (h : Z) : eff SQ Error unit := eff_state (fun '(s, q) => (tt, (EvtClose h s, q))).
Definition count (c : option CorruptedEvent) : eff SQ Error unit :=
  eff_state (fun '(s, q) => (tt, (s, count_event q c))).

(** [render::render_event] with the options of the query. *)
Definition render_in (h : Z) : eff SQ CorruptedEvent Event := fun '(s, q) =>
  let '(r, s) := render_event p fuel h (eq_render_format q) (eq_include_event_data q)
                   (eq_parse_message q) s in (r, (s, q)).

(** The loop over the fetched handles; [body] handles one and says what it
    adds to the output.  An index past the buffer panics. *)
Fixpoint each_handle {T} (body : Z -> eff SQ Error (list T)) (handles : list Z) : eff SQ Error (list T) :=
  match handles with
  | [] => eff_ret []
  | h :: handles =>
      let* out := body h in
      let* _ := close_event h in
      let* rest := each_handle body handles in
      eff_ret (out ++ rest)
  end.

Definition batch {T} (body : Z -> eff SQ Error (list T)) : eff SQ Error (list T) :=
  let* handles := fetch in
  match handles with
  | None => eff_ret []
  | Some handles => fun '(s, q) =>
      eff_bind (each_handle body (take (eq_batch_len q) handles))
        (fun out => eff_lift (if (eq_batch_len q <? length handles)%nat
                              then Panic IndexOutOfBounds else Ok out)) (s, q)
  end.

Definition filter_body (filter : Event -> bool) (h : Z) : eff SQ Error (list Event) :=
  let* r := eff_try (render_in h) in
  match r with
  | inr event => let* _ := count None in eff_ret (if filter event then [event] else [])
  | inl corruption_info => let* _ := count (Some corruption_info) in eff_ret []
  end.

Definition next_batch_with_filter (filter : Event -> bool) : eff SQ Error (list Event) :=
  batch (filter_body filter).

Definition next_batch : eff SQ Error (list Event) := next_batch_with_filter (fun _ => true).

(** [signaled] is the outcome of [cancel.is_signaled()]. *)
Definition next_batch_or_cancel (signaled : res Error bool) : eff SQ Error (list Event) :=
  let* stop := eff_lift signaled in
  if stop then eff_ret [] else next_batch.

Definition raw_body {T} (converter : Z -> res Error T) (filter : T -> bool) (h : Z)
    : eff SQ Error (list T) :=
  let* r := eff_try (eff_lift (converter h)) in
  match r with
  | inr event => let* _ := count None in eff_ret (if filter event then [event] else [])
  | inl _ => let* _ := count None in eff_ret []
  end.

Definition next_batch_raw_with_filter {T} (converter : Z -> res Error T) (filter : T -> bool)
    : eff SQ Error (list T) := batch (raw_body converter filter).

Definition results_body (h : Z) : eff SQ Error (list (CorruptedEvent + Event)) :=
  let* r := eff_try (render_in h) in
  let* _ := count None in
  eff_ret [r].

Definition next_batch_with_results : eff SQ Error (list (CorruptedEvent + Event)) := batch results_body.

(** [from_str] is [quick_xml::de::from_str]. *)
Definition deserialize_body {T} (from_str : str -> option T) (h : Z) : eff SQ Error (list T) :=
  let* _ := eff_state (fun '(s, q) => (tt, (s, set_xml_buffer q []))) in
  match EvtRenderXml h 16384 with
  | None => eff_ret []
  | Some (buffer, buffer_used) =>
      let* xml_str := eff_lift (xml_text buffer buffer_used) in
      let* _ := eff_state (fun '(s, q) => (tt, (s, set_xml_buffer q xml_str))) in
      let* _ := count None in
      eff_ret (option_list (from_str xml_str))
  end.

Definition next_batch_deserialize {T} (from_str : str -> option T) : eff SQ Error (list T) :=
  batch (deserialize_body from_str).

(** ** The whole query at once *)

Fixpoint query_loop (n : nat) (events : list Event) : eff SQ Error (list Event) :=
  match n with
  | O => eff_lift (Panic OutOfFuel)
  | Datatypes.S n =>
      let* out := next_batch in
      if 0 <? zlen out then query_loop n (events ++ out) else eff_ret events
  end.

(** The query is dropped on every outcome. *)
Definition query (n : nat) (self : EventLog) (builder : QueryBuilder) : eff S Error EventQueryResult :=
  let* q := query_stream self (build_xpath builder) in
  eff_scoped (drop_handle (eq_handle q)) (fun s =>
    let '(r, (s, q)) := query_loop n [] (s, q) in
    (match r with
     | Ok events => Ok (mkEventQueryResult events (eq_corrupted q) (eq_total_processed q))
     | Err e => Err e
     | Panic x => Panic x
     end, s)).
End Log.

(** ** Handles *)

Section Handles.
Context {W : Type} `{api : !evt_api W} `{xml : !xml_reader}.
Variable p : profile.
Variable fuel : nat.
Abbreviation S := (evt_st W).
Abbreviation SQ := (evt_st W * EventQuery)%type.

(** [m] closes no event handle. *)
Definition keeps_closed {E A} (m : eff SQ E A) : Prop :=
  forall sq, closed (fst (snd (m sq))) = closed (fst sq) /\
             eq_batch_len (snd (snd (m sq))) = eq_batch_len (snd sq).

Lemma keeps_closed_bind {E A B} (m : eff SQ E A) (k : A -> eff SQ E B) :
  keeps_closed m -> (forall a, keeps_closed (k a)) -> keeps_closed (eff_bind m k).
Proof.
  intros Hm Hk sq. unfold eff_bind. specialize (Hm sq). destruct (m sq) as [[a|e|x] sq1]; try done.
  destruct (Hk a sq1) as [H1 H2]. cbn in *. destruct Hm as [-> ->] in H1, H2. done.
Qed.

Lemma keeps_closed_lift {E A} (m : res E A) : keeps_closed (eff_lift m).
Proof. done. Qed.

Lemma keeps_closed_try {E F A} (m : eff SQ E A) : keeps_closed m -> keeps_closed (eff_try (F:=F) m).
Proof. intros Hm sq. specialize (Hm sq). unfold eff_try. by destruct (m sq) as [[]]. Qed.

Lemma keeps_closed_count c : keeps_closed (count (W:=W) c).
Proof. by intros [s q]. Qed.

Lemma render_event_closed h fmt inc msg s :
  closed (snd (render_event p fuel h fmt inc msg s)) = closed s.
Proof.
  unfold render_event, eff_bind, eff_lift. destruct (render_fields p h fmt inc); [|done|done].
  destruct msg; [|done]. unfold eff_try, format_message, eff_bind, get_publisher_metadata.
  assert (forall h ev s, closed (snd (eff_scoped (drop_publisher h) (format_loop fuel h ev 4096) s))
            = closed s) as Hl.
  { intros h1 ev1 s1. unfold eff_scoped. destruct (format_loop_frame fuel h1 ev1 4096 s1) as [k Hk].
    destruct (format_loop fuel h1 ev1 4096 s1) as [r s2]. cbn in Hk. subst s2. cbn.
    unfold drop_publisher. by destruct (is_invalid h1). }
  destruct (pub_cache s !! ev_provider a) as [h1|].
  - specialize (Hl h1 h s). destruct (eff_scoped _ _ s) as [[]]; done.
  - destruct (EvtOpenPublisherMetadata _ _) as [[h1|] w]; [|done].
    match goal with |- context [eff_scoped ?d ?m ?s0] =>
      specialize (Hl h1 h s0); destruct (eff_scoped d m s0) as [[]] end; done.
Qed.

Lemma keeps_closed_render h : keeps_closed (render_in p fuel h).
Proof.
  intros [s q]. unfold render_in.
  pose proof (render_event_closed h (eq_render_format q) (eq_include_event_data q) (eq_parse_message q) s).
  by destruct (render_event p fuel h _ _ _ s).
Qed.

Lemma keeps_closed_xml_buffer x :
  keeps_closed (E:=Error) (eff_state (fun '(s, q) => (tt, (s, set_xml_buffer q x)))).
Proof. by intros [s q]. Qed.
End Handles.

Create HintDb evt.
#[export] Hint Resolve keeps_closed_bind keeps_closed_lift keeps_closed_try keeps_closed_count
  keeps_closed_render keeps_closed_xml_buffer : evt.

Ltac keeps :=
  repeat first
    [ apply keeps_closed_bind; [|intros ?] | apply keeps_closed_try | apply keeps_closed_render
    | apply keeps_closed_count | apply keeps_closed_xml_buffer | apply keeps_closed_lift
    | match goal with |- keeps_closed match ?x with _ => _ end => destruct x end ].

Section Closing.
Context {W : Type} `{api : !evt_api W} `{xml : !xml_reader}.
Variable p : profile.
Variable fuel : nat.

Lemma each_handle_closes {T} (body : Z -> eff (evt_st W * EventQuery) Error (list T)) handles sq out sq' :
  (forall h, keeps_closed (body h)) -> each_handle body handles sq = (Ok out, sq') ->
  closed (fst sq') = closed (fst sq) ++ handles.
Proof.
  intros Hb. revert sq out. induction handles as [|h handles IH]; intros sq out; cbn [each_handle].
  - intros [= _ <-]. by rewrite app_nil_r.
  - rewrite eff_bind_ok. intros (o & sq1 & H1 & H2).
    apply eff_bind_ok in H2 as (u & [s2 q2] & H2 & H3).
    apply eff_bind_ok in H3 as (rest & sq3 & H3 & [= _ <-]).
    apply IH in H3. destruct (Hb h sq) as [Hk _]. rewrite H1 in Hk. cbn in Hk.
    destruct sq1 as [s1 q1]. injection H2 as <- <- <-. cbn in *. by rewrite H3, Hk, <- app_assoc.
Qed.

Lemma batch_closes {T} (body : Z -> eff (evt_st W * EventQuery) Error (list T)) s q handles w out s' q' :
  (forall h, keeps_closed (body h)) ->
  EvtNext (mach s) (eq_handle q) (eq_batch_len q) (eq_batch_timeout_ms q) = (inr handles, w) ->
  batch body (s, q) = (Ok out, (s', q')) -> closed s' = closed s ++ handles.
Proof.
  intros Hb Hn. unfold batch, eff_bind at 1, fetch. rewrite Hn. intros H.
  apply eff_bind_ok in H as (o & [s1 q1] & H1 & H2). unfold eff_lift in H2.
  destruct (eq_batch_len q <? length handles)%nat eqn:El; [discriminate H2|].
  injection H2 as -> -> ->. apply Nat.ltb_ge in El.
  apply each_handle_closes in H1; [|done]. cbn in H1.
  by rewrite firstn_all2 in H1 by lia.
Qed.

(** No event handle leaks and none is closed twice: whatever way a batch
    is consumed (with a filter, with a custom converter, with explicit
    corruption results, or deserialised), if the call returns then the
    handles [EvtNext] delivered have been closed, each exactly once and in
    order, and no other event handle has. *)
Theorem batch_closes_each_handle_once s q handles w s' q' :
  EvtNext (mach s) (eq_handle q) (eq_batch_len q) (eq_batch_timeout_ms q) = (inr handles, w) ->
  (forall filter out, next_batch_with_filter p fuel filter (s, q) = (Ok out, (s', q')) ->
    closed s' = closed s ++ handles) /\
  (forall T (converter : Z -> res Error T) filter out,
    next_batch_raw_with_filter converter filter (s, q) = (Ok out, (s', q')) ->
    closed s' = closed s ++ handles) /\
  (forall out, next_batch_with_results p fuel (s, q) = (Ok out, (s', q')) ->
    closed s' = closed s ++ handles) /\
  (forall T (from_str : str -> option T) out,
    next_batch_deserialize from_str (s, q) = (Ok out, (s', q')) -> closed s' = closed s ++ handles).
Proof.
  intros Hn. split_and!; intros; (eapply batch_closes; [|exact Hn|eassumption]); intros h.
  - unfold filter_body. keeps.
  - unfold raw_body. keeps.
  - unfold results_body. keeps.
  - unfold deserialize_body. keeps.
Qed.
End Closing.

(** ** What a batch returns *)

Section Batches.
Context {W : Type} `{api : !evt_api W} `{xml : !xml_reader}.
Variable p : profile.
Variable fuel : nat.

(** The events and the corruption records of a list of handles, rendered one
    by one. *)
Definition rendered (fmt : RenderFormat) (inc : bool) (handles : list Z) : list Event :=
  omap (fun h => match render_fields p h fmt inc with Ok e => Some e | _ => None end) handles.
Definition corrupt (fmt : RenderFormat) (inc : bool) (handles : list Z) : list CorruptedEvent :=
  omap (fun h => match render_fields p h fmt inc with Err c => Some c | _ => None end) handles.

(** The query after [n] events of which [cs] were corrupted. *)
Definition advance (q : EventQuery) (cs : list CorruptedEvent) (n : Z) : EventQuery :=
  mkEventQuery (eq_handle q) (eq_batch_len q) (eq_batch_timeout_ms q) (eq_render_format q)
    (eq_include_event_data q) (eq_parse_message q) (eq_xml_buffer q)
    (eq_corrupted q ++ cs) (eq_total_processed q + n).

Definition renders (fmt : RenderFormat) (inc : bool) (h : Z) : Prop :=
  no_panic (render_fields p h fmt inc).

Lemma each_handle_filter f s q handles :
  eq_parse_message q = false ->
  Forall (renders (eq_render_format q) (eq_include_event_data q)) handles ->
  each_handle (filter_body p fuel f) handles (s, q)
  = (Ok (List.filter f (rendered (eq_render_format q) (eq_include_event_data q) handles)),
     (mkEvtSt (mach s) (pub_cache s) (pub_calls s) (closed s ++ handles),
      advance q (corrupt (eq_render_format q) (eq_include_event_data q) handles) (zlen handles))).
Proof.
  intros Hm H. revert s q Hm H. induction handles as [|h handles IH]; intros s q Hm H.
  - cbn [each_handle]. unfold advance. cbn. rewrite !app_nil_r, Z.add_0_r. by destruct s, q.
  - apply Forall_cons in H as [Hh H]. cbn [each_handle].
    set (o := render_fields p h (eq_render_format q) (eq_include_event_data q)).
    assert (filter_body p fuel f h (s, q)
            = match o with
              | Ok e => (Ok (if f e then [e] else []), (s, count_event q None))
              | Err c => (Ok [], (s, count_event q (Some c)))
              | Panic x => (Panic x, (s, q))
              end) as Hbody.
    { unfold filter_body, eff_bind, eff_try, render_in, render_event, eff_bind, eff_lift. rewrite Hm.
      fold o. by destruct o. }
    unfold eff_bind at 1. rewrite Hbody. unfold rendered, corrupt. cbn [omap list_omap].
    unfold renders in Hh. fold o in Hh |- *. destruct o as [e|c|x]; [| |by destruct (Hh x)].
    + unfold eff_bind at 1, close_event, eff_state. unfold eff_bind at 1.
      rewrite (IH (EvtClose h s) (count_event q None)) by done. cbn [eff_ret eff_lift].
      unfold eff_ret, eff_lift, EvtClose, advance, count_event, zlen. cbn -[Z.of_nat].
      rewrite app_nil_r, <- app_assoc.
      replace (eq_total_processed q + Z.of_nat (Datatypes.S (length handles)))
        with (eq_total_processed q + 1 + Z.of_nat (length handles)) by lia.
      by destruct (f e).
    + unfold eff_bind at 1, close_event, eff_state. unfold eff_bind at 1.
      rewrite (IH (EvtClose h s) (count_event q (Some c))) by done. cbn [eff_ret eff_lift].
      unfold eff_ret, eff_lift, EvtClose, advance, count_event, zlen. cbn -[Z.of_nat].
      rewrite <- !app_assoc.
      replace (eq_total_processed q + Z.of_nat (Datatypes.S (length handles)))
        with (eq_total_processed q + 1 + Z.of_nat (length handles)) by lia.
      done.
Qed.

Lemma batch_filter f s q handles w :
  eq_parse_message q = false -> (length handles <= eq_batch_len q)%nat ->
  Forall (renders (eq_render_format q) (eq_include_event_data q)) handles ->
  EvtNext (mach s) (eq_handle q) (eq_batch_len q) (eq_batch_timeout_ms q) = (inr handles, w) ->
  next_batch_with_filter p fuel f (s, q)
  = (Ok (List.filter f (rendered (eq_render_format q) (eq_include_event_data q) handles)),
     (mkEvtSt w (pub_cache s) (pub_calls s) (closed s ++ handles),
      advance q (corrupt (eq_render_format q) (eq_include_event_data q) handles) (zlen handles))).
Proof.
  intros Hm Hl H Hn. unfold next_batch_with_filter, batch, eff_bind at 1, fetch. rewrite Hn.
  rewrite firstn_all2 by lia. unfold eff_bind.
  rewrite each_handle_filter by done. unfold eff_lift.
  by replace (eq_batch_len q <? length handles)%nat with false by (symmetry; apply Nat.ltb_ge; lia).
Qed.

(** A batch, exactly: without message formatting, a call to
    [next_batch_with_filter] returns the rendered events that pass the
    filter in the order [EvtNext] delivered them, appends a corruption
    record for each handle that does not render, counts every handle as
    processed, closes them all, and changes nothing else; at the end of the
    stream it returns no event, and on any other failure the error with its
    code, leaving the query as it was. *)
Theorem next_batch_with_filter_spec f s q :
  eq_parse_message q = false ->
  match EvtNext (mach s) (eq_handle q) (eq_batch_len q) (eq_batch_timeout_ms q) with
  | (inr handles, w) =>
      (length handles <= eq_batch_len q)%nat ->
      Forall (renders (eq_render_format q) (eq_include_event_data q)) handles ->
      next_batch_with_filter p fuel f (s, q)
      = (Ok (List.filter f (rendered (eq_render_format q) (eq_include_event_data q) handles)),
         (mkEvtSt w (pub_cache s) (pub_calls s) (closed s ++ handles),
          advance q (corrupt (eq_render_format q) (eq_include_event_data q) handles) (zlen handles))) /\
      zlen handles = zlen (rendered (eq_render_format q) (eq_include_event_data q) handles) +
                     zlen (corrupt (eq_render_format q) (eq_include_event_data q) handles)
  | (inl code, w) =>
      next_batch_with_filter p fuel f (s, q)
      = (if code =? 259 then Ok []
         else Err (query_failed [] (lit "EvtNext failed") (Some (as_i32 code))), (set_mach s w, q))
  end.
Proof.
  intros Hm. destruct (EvtNext _ _ _ _) as [[code|handles] w] eqn:Hn.
  - unfold next_batch_with_filter, batch, eff_bind, fetch. rewrite Hn. by destruct (code =? 259).
  - intros Hl H. split; [by apply batch_filter|]. clear Hl Hn. unfold zlen, rendered, corrupt.
    induction H as [|h handles Hh _ IH]; [done|]. cbn [omap list_omap length]. unfold renders in Hh.
    destruct (render_fields p h _ _) as [e|c|x]; [| |by destruct (Hh x)]; cbn [length]; lia.
Qed.

(** ** The whole query *)

(** The batches a query handle delivers, up to the end of the stream. *)
Inductive delivers (h : Z) : W -> list (list Z) -> Prop :=
  | delivers_end w w' :
      EvtNext w h 64 1000 = (inl 259, w') -> delivers h w []
  | delivers_batch w handles w' bs :
      EvtNext w h 64 1000 = (inr handles, w') -> (length handles <= 64)%nat -> delivers h w' bs ->
      delivers h w (handles :: bs).

(** The batches [query] reads: up to the first one without an event. *)
Fixpoint read_batches (bs : list (list Z)) : list (list Z) :=
  match bs with
  | [] => []
  | b :: bs => if decide (rendered Values false b = []) then [b] else b :: read_batches bs
  end.

(** Nothing is lost exactly when no event comes after a batch without one. *)
Lemma read_batches_complete bs :
  rendered Values false (mjoin (read_batches bs)) = rendered Values false (mjoin bs) <->
  forall pre b post, bs = pre ++ b :: post -> rendered Values false b = [] ->
    rendered Values false (mjoin post) = [].
Proof.
  assert (forall a l, rendered Values false (mjoin (a :: l)) =
            rendered Values false a ++ rendered Values false (mjoin l)) as Hc by (intros; apply omap_app).
  induction bs as [|b bs IH]; [split; [by intros _ [|??]|done]|].
  cbn [read_batches]. case_decide as Hb; rewrite !Hc.
  - clear IH. rewrite Hb. cbn [app]. change (rendered Values false (mjoin [])) with (@nil Event). split.
    + intros E. symmetry in E. intros [|b' pre] b0 post [= <- ->]; [done|]. intros _.
      induction pre as [|a pre IHp]; cbn [app] in E; rewrite Hc in E;
        apply app_eq_nil in E as [_ E]; [done|by apply IHp].
    + intros H. symmetry. by apply (H [] b bs).
  - split.
    + intros E%app_inv_head pre b0 post Hs H0. destruct pre as [|b' pre].
      * injection Hs as -> ->. by destruct Hb.
      * injection Hs as -> ->. by eapply (proj1 IH E pre).
    + intros H. f_equal. apply IH. intros pre b0 post -> H0. by apply (H (b :: pre) b0 post).
Qed.
End Batches.

Section Query.
Context {W : Type} `{api : !evt_api W} `{xml : !xml_reader}.
Variable p : profile.
Variable fuel : nat.

Definition fresh_query (h : Z) (cs : list CorruptedEvent) (n : Z) : EventQuery :=
  mkEventQuery h 64 1000 Values false false [] cs n.

Lemma query_loop_spec n h w bs s cs total events :
  mach s = w -> delivers h w bs -> (length bs < n)%nat ->
  let read := mjoin (read_batches p bs) in
  Forall (renders p Values false) read ->
  exists w',
    query_loop p fuel n events (s, fresh_query h cs total)
    = (Ok (events ++ rendered p Values false read),
       (mkEvtSt w' (pub_cache s) (pub_calls s) (closed s ++ read),
        fresh_query h (cs ++ corrupt p Values false read) (total + zlen read))).
Proof.
  intros Hs Hd. revert n s cs total events Hs.
  induction Hd as [w w' Hn|w b w' bs Hn Hl Hd IH]; intros n s cs total events Hs Hlen read Hr;
    (destruct n as [|n]; [cbn in Hlen; lia|]); cbn [query_loop]; unfold next_batch, eff_bind; subst w.
  - exists w'. unfold next_batch_with_filter, batch, eff_bind, fetch. cbn [eq_handle eq_batch_len
      eq_batch_timeout_ms fresh_query]. rewrite Hn. cbn. unfold eff_ret, eff_lift.
    subst read. cbn. by rewrite !app_nil_r, Z.add_0_r.
  - assert (Forall (renders p Values false) b) as Hb.
    { subst read. cbn [read_batches] in Hr. case_decide; by apply Forall_app in Hr as [Hr _]. }
    rewrite (batch_filter p fuel _ s (fresh_query h cs total) b w') by done.
    cbn [eq_render_format eq_include_event_data fresh_query]. rewrite filter_true.
    subst read. cbn [read_batches]. case_decide as Hd0.
    + rewrite Hd0. cbn [mjoin list_join]. unfold eff_ret, eff_lift. exists w'. cbn.
      rewrite !app_nil_r, Hd0, app_nil_r. done.
    + assert (0 < zlen (rendered p Values false b)) as Hz.
      { unfold zlen. destruct (rendered p Values false b); [done|cbn; lia]. }
      replace (0 <? zlen _) with true by lia.
      change (advance (fresh_query h cs total) ?c ?k) with (fresh_query h (cs ++ c) (total + k)).
      destruct (IH n (mkEvtSt w' (pub_cache s) (pub_calls s) (closed s ++ b))
                  (cs ++ corrupt p Values false b) (total + zlen b)
                  (events ++ rendered p Values false b)) as [w2 ->]; [done|cbn in Hlen; lia| |].
      { cbn [read_batches] in Hr. rewrite decide_False in Hr by done. by apply Forall_app in Hr as [_ Hr]. }
      exists w2. cbn [closed pub_cache pub_calls mjoin list_join]. unfold rendered, corrupt, zlen.
      rewrite !omap_app, <- !app_assoc, length_app, Nat2Z.inj_add, Z.add_assoc. done.
Qed.

End Query.

(** ** Witnesses *)

Definition no_xml : xml_reader := {| read_events _ := ([], true) |}.
Definition demo_log : EventLog := mkEventLog 5 (lit "System") false.
#[local] Existing Instance no_xml.

Lemma renders_demo fmt h : renders (api := demo_api []) Debug fmt false h.
Proof.
  intros x. unfold render_fields. destruct fmt.
  - unfold render_event_values. cbn [EvtRenderValues demo_api]. by destruct (Z.even h).
  - done.
Qed.

Lemma demo_delivers bs w :
  w = bs -> Forall (fun b : list Z => (length b <= 64)%nat) bs ->
  delivers (api := demo_api []) 6 w bs.
Proof.
  intros ->. induction 1 as [|b bs Hb _ IH]; [by eapply delivers_end|].
  by eapply delivers_batch; [done|done|exact IH].
Qed.


Lemma batch_closes_each_handle_once_witness :
  closed (fst (snd (next_batch_with_filter (api := demo_api []) Debug 1 (fun _ => true)
                      (demo_st [[2; 3]], fresh_query 6 [] 0)))) = [2; 3].
Proof.
  destruct (next_batch_with_filter (api := demo_api []) Debug 1 (fun _ => true)
              (demo_st [[2; 3]], fresh_query 6 [] 0)) as [r [s' q']] eqn:E.
  destruct (batch_closes_each_handle_once (api := demo_api []) Debug 1 (demo_st [[2; 3]])
              (fresh_query 6 [] 0) [2; 3] [] s' q' eq_refl) as [H _].
  destruct r as [out|e|x]; [exact (H _ out E)|vm_compute in E; discriminate E|vm_compute in E; discriminate E].
Defined.

Lemma next_batch_with_filter_spec_witness :
  fst (next_batch_with_filter (api := demo_api []) Debug 1 (fun e => ev_id e =? 4)
         (demo_st [[2; 3; 4]], fresh_query 6 [] 0)) = Ok [set_level (set_id event_default 4) Warning].
Proof.
  destruct (next_batch_with_filter_spec (api := demo_api []) Debug 1 (fun e => ev_id e =? 4)
              (demo_st [[2; 3; 4]]) (fresh_query 6 [] 0) eq_refl) as [H _].
  - cbn. lia.
  - apply Forall_true. intros h. apply renders_demo.
  - rewrite H. vm_compute. reflexivity.
Defined.
