(* ===== verification/Registry.v ===== *)
(** * Registry: typed registry values

    src/registry/ (types.rs, key.rs, builder.rs, values.rs, mod.rs).  The
    registry calls are the fields of [registry_api] over an abstract
    machine; [registry_laws] states what Windows documents of them.  The
    trait [RegistryValue] is the class of that name, over the Rust types the
    source implements it for; [StorableValue] is what a client may rely on,
    proved once for each of these types: [fits] says which values the read
    buffer of a type holds, [read_back] what they read back as. *)

From Stdlib Require Import ZArith Lia String Ascii.
From stdpp Require Import base list strings gmap numbers sorting.
From S2P Require Import Prelude Text Unicode Errors Sid Acl Sddl Backends Effects.

Open Scope Z_scope.

(** ** Types *)

Inductive Hive := ClassesRoot | CurrentUser | LocalMachine | Users | CurrentConfig.

#[export] Instance Hive_eq_dec : EqDecision Hive.
Proof. solve_decision. Defined.

Definition as_hkey (h : Hive) : hive :=
  match h with
  | ClassesRoot => HKEY_CLASSES_ROOT
  | CurrentUser => HKEY_CURRENT_USER
  | LocalMachine => HKEY_LOCAL_MACHINE
  | Users => HKEY_USERS
  | CurrentConfig => HKEY_CURRENT_CONFIG
  end.

Definition as_short_name (h : Hive) : str :=
  match h with
  | ClassesRoot => lit "HKCR"
  | CurrentUser => lit "HKCU"
  | LocalMachine => lit "HKLM"
  | Users => lit "HKU"
  | CurrentConfig => lit "HKCC"
  end.

Inductive Access := Read | Write | ReadWrite | AllAccess.

Definition KEY_READ : Z := 0x20019.
Definition KEY_WRITE : Z := 0x20006.
Definition KEY_ALL_ACCESS : Z := 0xF003F.

Definition access_to_sam_flags (a : Access) : Z :=
  match a with
  | Read => KEY_READ
  | Write => KEY_WRITE
  | ReadWrite => Z.lor KEY_READ KEY_WRITE
  | AllAccess => KEY_ALL_ACCESS
  end.

Inductive Wow64View := Key32 | Key64.

Definition wow64_to_sam_flags (v : Wow64View) : Z :=
  match v with Key32 => 0x0200 | Key64 => 0x0100 end.

Record RegistryKey := mkRegistryKey {
  rk_handle : Z; rk_close_on_drop : bool; rk_hive : option Hive; rk_subkey : option str }.

Definition REG_SZ : Z := 1.
Definition REG_EXPAND_SZ : Z := 2.
Definition REG_BINARY : Z := 3.
Definition REG_DWORD : Z := 4.
Definition REG_MULTI_SZ : Z := 7.
Definition REG_QWORD : Z := 11.

Definition ERROR_FILE_NOT_FOUND : Z := 2.
Definition ERROR_MORE_DATA : Z := 234.
Definition ERROR_NO_MORE_ITEMS : Z := 259.

(** The registry of the machine.  A status of 0 is success.
    [RegQueryValueExW] is given the size of the buffer in bytes and returns
    the type and the bytes written; without a buffer, its status. *)
Class registry_api (W : Type) := {
  to_win_error : Z -> win_error;
  RegOpenKey : W -> hive -> list Z -> Z -> Z * Z * W;
  RegCreateKey : W -> hive -> list Z -> Z -> Z * Z * W;
  RegQueryValue : W -> Z -> list Z -> Z -> Z * Z * list Z;
  RegQueryValueExists : W -> Z -> list Z -> Z;
  RegSetValue : W -> Z -> list Z -> Z -> list Z -> Z * W;
  RegDeleteValue : W -> Z -> list Z -> Z * W;
  RegDeleteKey : W -> hive -> list Z -> Z * W;
  RegDeleteTree : W -> hive -> list Z -> Z * W;
  RegEnumKey : W -> Z -> Z -> Z * list Z;
  RegEnumValue : W -> Z -> Z -> Z * list Z;
  RegClose : W -> Z -> W }.

(** The machine, and the handles opened and closed so far, in order. *)
Record reg_st (W : Type) := mkRegSt { reg : W; opened : list Z; reg_closed : list Z }.
Arguments mkRegSt {W} _ _ _.
Arguments reg {W} _.
Arguments opened {W} _.
Arguments reg_closed {W} _.

(** ** Buffers *)

(** A buffer of [n] units of which a prefix has been written. *)
Definition filled (n : nat) (us : list Z) : list Z := us ++ replicate (n - length us) 0.

(** ** Values *)

(** The Rust types that implement [RegistryValue]. *)
Inductive value_type := TString | TU32 | TU64 | TBool | TBinary | TMultiString.

Definition rust_type (t : value_type) : Type :=
  match t with
  | TString => str
  | TU32 | TU64 => Z
  | TBool => bool
  | TBinary => list Z
  | TMultiString => list str
  end.

Section Values.
Context {W : Type} `{api : !registry_api W}.

Abbreviation R := (eff (reg_st W) Error).

Definition win_err {A} (status : Z) (context : option str) : res Error A :=
  Err (Error_WindowsApi (mkWindowsApiError (to_win_error status) context)).

Definition reg_err (e : RegistryError) : Error := Error_Registry e.

(** [RegQueryValueExW] into a buffer of [size] bytes, its errors, and the
    check of the type. *)
Definition query_value (key : RegistryKey) (name : str) (size : Z) (types : list Z) (expected : string)
    : R (list Z) := fun s =>
  let '(status, typ, data) := RegQueryValue (reg s) (rk_handle key) (encode_utf16 name) size in
  (if negb (status =? 0) then
     if status =? ERROR_FILE_NOT_FOUND
     then Err (reg_err (RegistryError_ValueNotFound (mkRegistryValueNotFoundError name None)))
     else win_err status None
   else if existsb (Z.eqb typ) types then Ok data
   else Err (reg_err (RegistryError_InvalidType (mkRegistryInvalidTypeError (lit expected)
               (lit "REG type " ++ fmt_dec typ) (Some name)))), s).

Definition set_raw (key : RegistryKey) (name : str) (typ : Z) (data : list Z) : R unit := fun s =>
  let '(status, w) := RegSetValue (reg s) (rk_handle key) (encode_utf16 name) typ data in
  let s := mkRegSt w (opened s) (reg_closed s) in
  (if status =? 0 then Ok tt else win_err status None, s).

Class RegistryValue (T : value_type) := {
  read_from_key : RegistryKey -> str -> R (rust_type T);
  write_to_key : rust_type T -> RegistryKey -> str -> R unit }.

(** *** [String] *)
Definition string_read (key : RegistryKey) (name : str) : R str :=
  let* data := query_value key name 2048 [REG_SZ; REG_EXPAND_SZ] "String (REG_SZ or REG_EXPAND_SZ)" in
  let str_len := (length data / 2 - 1)%nat in
  eff_ret (from_utf16_lossy (take str_len (filled 1024 (units_of_bytes data)))).
Definition string_write (value : str) (key : RegistryKey) (name : str) : R unit :=
  set_raw key name REG_SZ (bytes_of_units (encode_utf16 value ++ [0])).
#[export] Instance string_value : RegistryValue TString :=
  Build_RegistryValue TString string_read string_write.

(** *** [u32], [u64] and [bool] *)
Definition u32_read (key : RegistryKey) (name : str) : R Z :=
  let* data := query_value key name 4 [REG_DWORD] "u32 (REG_DWORD)" in
  eff_ret (le_decode data).
Definition u32_write (value : Z) (key : RegistryKey) (name : str) : R unit :=
  set_raw key name REG_DWORD (le_encode 4 value).
#[export] Instance u32_value : RegistryValue TU32 :=
  Build_RegistryValue TU32 u32_read u32_write.

Definition u64_read (key : RegistryKey) (name : str) : R Z :=
  let* data := query_value key name 8 [REG_QWORD] "u64 (REG_QWORD)" in
  eff_ret (le_decode data).
Definition u64_write (value : Z) (key : RegistryKey) (name : str) : R unit :=
  set_raw key name REG_QWORD (le_encode 8 value).
#[export] Instance u64_value : RegistryValue TU64 :=
  Build_RegistryValue TU64 u64_read u64_write.

Definition bool_read (key : RegistryKey) (name : str) : R bool :=
  let* value := u32_read key name in
  eff_ret (negb (value =? 0)).
Definition bool_write (value : bool) (key : RegistryKey) (name : str) : R unit :=
  u32_write (if value then 1 else 0) key name.
#[export] Instance bool_value : RegistryValue TBool :=
  Build_RegistryValue TBool bool_read bool_write.

(** *** [Vec<u8>] *)
Definition binary_read (key : RegistryKey) (name : str) : R (list Z) :=
  let* data := query_value key name 4096 [REG_BINARY] "Vec<u8> (REG_BINARY)" in
  eff_ret (take (length data) (filled 4096 data)).
Definition binary_write (value : list Z) (key : RegistryKey) (name : str) : R unit :=
  set_raw key name REG_BINARY value.
#[export] Instance binary_value : RegistryValue TBinary :=
  Build_RegistryValue TBinary binary_read binary_write.

(** *** [Vec<String>] *)

(** The loop [for i in 0..len / 2]: [n] iterations are left. *)
Fixpoint multi_loop (n i start : nat) (buf : list Z) (strings : list str) : res Error (list str) :=
  match n with
  | O => Ok strings
  | S n =>
      match buf !! i with
      | None => Panic IndexOutOfBounds
      | Some u =>
          if u =? 0 then
            let strings := if (start <? i)%nat
                           then strings ++ [from_utf16_lossy (take (i - start) (drop start buf))]
                           else strings in
            if bool_decide (buf !! (i + 1)%nat = Some 0) then Ok strings
            else multi_loop n (i + 1) (i + 1) buf strings
          else multi_loop n (i + 1) start buf strings
      end
  end.

Definition multi_read (key : RegistryKey) (name : str) : R (list str) :=
  let* data := query_value key name 8192 [REG_MULTI_SZ] "Vec<String> (REG_MULTI_SZ)" in
  eff_lift (multi_loop (length data / 2) 0 0 (filled 4096 (units_of_bytes data)) []).

Definition multi_units (value : list str) : list Z :=
  mjoin ((fun s => encode_utf16 s ++ [0]) <$> value) ++ [0].
Definition multi_write (value : list str) (key : RegistryKey) (name : str) : R unit :=
  set_raw key name REG_MULTI_SZ (bytes_of_units (multi_units value)).
#[export] Instance multi_value : RegistryValue TMultiString :=
  Build_RegistryValue TMultiString multi_read multi_write.
End Values.

(** ** Keys *)

(** [ERROR_SUCCESS] on a call that only changes the machine. *)
Definition status_unit {W} `{!registry_api W} (r : Z * W) (s : reg_st W) : res Error unit * reg_st W :=
  (if fst r =? 0 then Ok tt else win_err (fst r) None, mkRegSt (snd r) (opened s) (reg_closed s)).

Section Keys.
Context {W : Type} `{api : !registry_api W}.

Abbreviation R := (eff (reg_st W) Error).

Definition key_not_found (subkey : str) : Error :=
  Error_Registry (RegistryError_KeyNotFound (mkRegistryKeyNotFoundError subkey None)).

Definition open_with (hive : Hive) (subkey : str) (sam : Z) (context : option str) : R RegistryKey := fun s =>
  let '(status, handle, w) := RegOpenKey (reg s) (as_hkey hive) (encode_utf16 subkey) sam in
  if status =? 0
  then (Ok (mkRegistryKey handle true (Some hive) (Some subkey)),
        mkRegSt w (opened s ++ [handle]) (reg_closed s))
  else (if status =? ERROR_FILE_NOT_FOUND then Err (key_not_found subkey) else win_err status context,
        mkRegSt w (opened s) (reg_closed s)).

Definition key_open (hive : Hive) (subkey : str) : R RegistryKey := open_with hive subkey KEY_READ None.

Definition key_create (hive : Hive) (subkey : str) : R RegistryKey := fun s =>
  let '(status, handle, w) :=
    RegCreateKey (reg s) (as_hkey hive) (encode_utf16 subkey) (Z.lor KEY_READ KEY_WRITE) in
  if status =? 0
  then (Ok (mkRegistryKey handle true (Some hive) (Some subkey)),
        mkRegSt w (opened s ++ [handle]) (reg_closed s))
  else (win_err status (Some (lit "RegCreateKeyExW")), mkRegSt w (opened s) (reg_closed s)).

Definition drop_key (key : RegistryKey) (s : reg_st W) : reg_st W :=
  if rk_close_on_drop key
  then mkRegSt (RegClose (reg s) (rk_handle key)) (opened s) (reg_closed s ++ [rk_handle key])
  else s.

Definition get_value (T : value_type) `{!RegistryValue T} (self : RegistryKey) (name : str)
    : R (rust_type T) := read_from_key self name.
Definition set_value (T : value_type) `{!RegistryValue T} (self : RegistryKey) (name : str)
    (value : rust_type T) : R unit := write_to_key value self name.

(** [.ok()] and [.unwrap_or(default)]. *)
Definition try_get_value (T : value_type) `{!RegistryValue T} (self : RegistryKey) (name : str)
    : R (option (rust_type T)) :=
  let* r := eff_try (read_from_key (T:=T) self name) in
  eff_ret match r with inr v => Some v | inl _ => None end.
Definition get_value_or (T : value_type) `{!RegistryValue T} (self : RegistryKey) (name : str)
    (dflt : rust_type T) : R (rust_type T) :=
  let* o := try_get_value T self name in eff_ret (default dflt o).

Definition delete_value (self : RegistryKey) (name : str) : R unit := fun s =>
  status_unit (RegDeleteValue (reg s) (rk_handle self) (encode_utf16 name)) s.

Definition value_exists (self : RegistryKey) (name : str) : R bool := fun s =>
  let status := RegQueryValueExists (reg s) (rk_handle self) (encode_utf16 name) in
  (if status =? ERROR_FILE_NOT_FOUND then Ok false
   else if status =? 0 then Ok true else win_err status None, s).

Definition delete_key (hive : Hive) (subkey : str) : R unit := fun s =>
  status_unit (RegDeleteKey (reg s) (as_hkey hive) (encode_utf16 subkey)) s.
Definition delete_tree (hive : Hive) (subkey : str) : R unit := fun s =>
  status_unit (RegDeleteTree (reg s) (as_hkey hive) (encode_utf16 subkey)) s.

(** The enumeration loops; [next] is [RegEnumKeyExW] or [RegEnumValueW] with
    a buffer of 256 units. *)
Fixpoint enum_loop (fuel : nat) (next : Z -> Z * list Z) (index : Z) (names : list str)
    : res Error (list str) :=
  match fuel with
  | O => Panic OutOfFuel
  | S fuel =>
      let '(status, name) := next index in
      if status =? ERROR_NO_MORE_ITEMS then Ok names
      else if negb (status =? 0) then win_err status None
      else enum_loop fuel next (index + 1) (names ++ [from_utf16_lossy name])
  end.

Definition subkeys (fuel : nat) (self : RegistryKey) : R (list str) := fun s =>
  (enum_loop fuel (RegEnumKey (reg s) (rk_handle self)) 0 [], s).
Definition value_names (fuel : nat) (self : RegistryKey) : R (list str) := fun s =>
  (enum_loop fuel (RegEnumValue (reg s) (rk_handle self)) 0 [], s).

(** ** The builder *)

Record RegistryKeyBuilder := mkRegistryKeyBuilder {
  kb_hive : option Hive; kb_path : option str; kb_access : Access; kb_wow64 : option Wow64View }.

Definition builder_new : RegistryKeyBuilder := mkRegistryKeyBuilder None None Read None.
Definition builder_hive (b : RegistryKeyBuilder) (h : Hive) : RegistryKeyBuilder :=
  mkRegistryKeyBuilder (Some h) (kb_path b) (kb_access b) (kb_wow64 b).
Definition builder_path (b : RegistryKeyBuilder) (path : str) : RegistryKeyBuilder :=
  mkRegistryKeyBuilder (kb_hive b) (Some path) (kb_access b) (kb_wow64 b).
Definition builder_read (b : RegistryKeyBuilder) : RegistryKeyBuilder :=
  mkRegistryKeyBuilder (kb_hive b) (kb_path b) Read (kb_wow64 b).
Definition builder_write (b : RegistryKeyBuilder) : RegistryKeyBuilder :=
  mkRegistryKeyBuilder (kb_hive b) (kb_path b) ReadWrite (kb_wow64 b).
Definition builder_read_write (b : RegistryKeyBuilder) : RegistryKeyBuilder :=
  mkRegistryKeyBuilder (kb_hive b) (kb_path b) ReadWrite (kb_wow64 b).
Definition builder_wow64_32 (b : RegistryKeyBuilder) : RegistryKeyBuilder :=
  mkRegistryKeyBuilder (kb_hive b) (kb_path b) (kb_access b) (Some Key32).
Definition builder_wow64_64 (b : RegistryKeyBuilder) : RegistryKeyBuilder :=
  mkRegistryKeyBuilder (kb_hive b) (kb_path b) (kb_access b) (Some Key64).

Definition invalid_parameter (parameter reason : string) : Error :=
  Error_InvalidParameter (mkInvalidParameterError (lit parameter) (lit reason)).

Definition builder_open (self : RegistryKeyBuilder) : R RegistryKey :=
  let* hive := eff_lift (ok_or (kb_hive self)
                 (invalid_parameter "hive" "Registry hive must be specified")) in
  let* path := eff_lift (ok_or (kb_path self)
                 (invalid_parameter "path" "Registry path must be specified")) in
  let sam_flags := Z.lor (access_to_sam_flags (kb_access self))
                     (from_option wow64_to_sam_flags 0 (kb_wow64 self)) in
  open_with hive path sam_flags (Some (lit "RegOpenKeyExW")).

(** ** The functions of mod.rs: open or create, one operation, close *)

Definition with_key {A} (get : R RegistryKey) (k : RegistryKey -> R A) : R A :=
  let* key := get in eff_scoped (drop_key key) (k key).

(** [read_string], [read_u32], [read_u64], [read_bool], [read_binary] and
    [read_multi_string], by the type; and their [write_] counterparts. *)
Definition read_typed (T : value_type) `{!RegistryValue T} (hive : Hive) (path name : str) : R (rust_type T) :=
  with_key (key_open hive path) (fun key => get_value T key name).
Definition write_typed (T : value_type) `{!RegistryValue T} (hive : Hive) (path name : str)
    (value : rust_type T) : R unit :=
  with_key (key_create hive path) (fun key => set_value T key name value).

(** ** The security of a key *)

Definition no_metadata (reason : string) : Error :=
  Error_Security (SecurityError_Unsupported
    (mkSecurityUnsupportedError (lit "registry_key") (lit "security_target") (Some (lit reason)))).

Definition security_target (self : RegistryKey) : res Error PermissionTarget :=
  let! hive := ok_or (rk_hive self) (no_metadata "registry key metadata is unavailable for this handle") in
  match rk_subkey self with
  | Some subkey =>
      Ok (TargetRegistryPath (if decide (subkey = []) then as_short_name hive
                              else as_short_name hive ++ [92] ++ subkey))
  | None => Err (no_metadata "registry key path metadata is unavailable")
  end.
End Keys.

(** ** What Windows documents

    [target w h] is the key a handle of the process refers to, [value_of] the
    values a key holds. *)
Class registry_laws (W : Type) `{api : !registry_api W} := {
  target : W -> Z -> option (hive * list Z);
  value_of : W -> hive * list Z -> list Z -> option (Z * list Z);
  open_law w hv path sam h w' :
    RegOpenKey w hv path sam = (0, h, w') ->
    target w' h = Some (hv, path) /\ forall k n, value_of w' k n = value_of w k n;
  create_law w hv path sam h w' :
    RegCreateKey w hv path sam = (0, h, w') ->
    target w' h = Some (hv, path) /\ forall k n, value_of w' k n = value_of w k n;
  set_law w h k name typ data w' :
    target w h = Some k -> RegSetValue w h name typ data = (0, w') ->
    target w' h = Some k /\ value_of w' k name = Some (typ, data);
  query_law w h k name size :
    target w h = Some k ->
    match value_of w k name with
    | None => exists t d, RegQueryValue w h name size = (ERROR_FILE_NOT_FOUND, t, d)
    | Some (typ, data) =>
        if zlen data <=? size then RegQueryValue w h name size = (0, typ, data)
        else exists t d, RegQueryValue w h name size = (ERROR_MORE_DATA, t, d)
    end;
  close_law w h k n : value_of (RegClose w h) k n = value_of w k n }.

(** ** Lists of strings *)

(** What reading a stored list finds: the first string if it is not empty,
    then the strings up to the next empty one. *)
Fixpoint visible (l : list str) : list str :=
  match l with
  | [] => []
  | s :: l =>
      (if decide (s = []) then [] else [s]) ++
      match l with
      | [] => []
      | s' :: _ => if decide (s' = []) then [] else visible l
      end
  end.

Lemma visible_all l : Forall (fun s => s <> []) l <-> visible l = l.
Proof.
  split.
  - induction 1 as [|s l Hs Hl IH]; [done|]. cbn [visible]. rewrite decide_False by done.
    destruct Hl as [|s' l' Hs' Hl']; [done|]. rewrite decide_False by done. by rewrite IH.
  - induction l as [|s l IH]; [constructor|].
    assert (forall l, length (visible l) <= length l)%nat as Hlen.
    { clear. induction l as [|s l IH]; [done|]. cbn [visible]. rewrite length_app.
      destruct (decide (s = [])); destruct l as [|s' l]; cbn [length] in *; try lia;
        destruct (decide (s' = [])); cbn [length] in *; lia. }
    intros H. assert (s <> []) as Hs.
    { intros ->. apply (f_equal length) in H. cbn [visible] in H.
      rewrite decide_True in H by done. pose proof (Hlen l). destruct l as [|s' l]; [done|].
      destruct (decide (s' = [])); cbn [app length] in H; cbn [length] in *; lia. }
    constructor; [done|]. apply IH. cbn [visible] in H. rewrite decide_False in H by done.
    injection H as H. destruct l as [|s' l]; [done|]. by destruct (decide (s' = [])).
Qed.

Lemma visible_elem x l : x ∈ visible l -> x <> [] /\ x ∈ l.
Proof.
  induction l as [|s l IH]; cbn [visible]; [by intros ?%not_elem_of_nil|].
  rewrite elem_of_app, elem_of_cons. intros [H|H].
  - case_decide; [by apply not_elem_of_nil in H|]. apply list_elem_of_singleton in H as ->. by split; [|left].
  - destruct l as [|s' l]; [by apply not_elem_of_nil in H|].
    case_decide; [by apply not_elem_of_nil in H|]. naive_solver.
Qed.

(** ** What a stored value reads back as *)

(** The values of a type that its fixed read buffer holds. *)
Definition fits (T : value_type) : rust_type T -> Prop :=
  match T with
  | TString => fun v => is_text v /\ 2 * (zlen (encode_utf16 v) + 1) <= 2048
  | TU32 => fun v => 0 <= v <= u32_max
  | TU64 => fun v => 0 <= v <= u64_max
  | TBool => fun _ => True
  | TBinary => fun v => zlen v <= 4096
  | TMultiString => fun v => Forall is_text v /\ 2 * zlen (multi_units v) <= 8192
  end.

(** A NUL inside a string of a list ends the string, and an empty string the
    list; everything else comes back as it was written. *)
Definition read_back (T : value_type) : rust_type T -> rust_type T :=
  match T with
  | TMultiString => fun v => visible (v ≫= split_on 0)
  | TString | TU32 | TU64 | TBool | TBinary => fun v => v
  end.

Lemma multi_read_back_id v :
  read_back TMultiString v = v <-> Forall (fun s => s <> [] /\ lacks 0 s) v.
Proof.
  cbn [read_back]. split.
  - intros E. apply Forall_forall. intros x Hx. rewrite <- E in Hx.
    apply visible_elem in Hx as [Hne Hx]. split; [done|].
    apply list_elem_of_bind in Hx as (s & Hx & _).
    pose proof (split_on_pieces 0 s) as Hp. rewrite Forall_forall in Hp. by apply Hp.
  - intros H. replace (v ≫= split_on 0) with v.
    + apply visible_all. eapply Forall_impl; [exact H|naive_solver].
    + induction H as [|s v [_ Hs] _ IH]; [done|].
      change ((s :: v) ≫= split_on 0) with (split_on 0 s ++ (v ≫= split_on 0)).
      rewrite split_on_lacks by done. cbn [app]. by rewrite <- IH.
Qed.

Lemma multi_units_cons s l : multi_units (s :: l) = encode_utf16 s ++ 0 :: multi_units l.
Proof. unfold multi_units. cbn [fmap list_fmap mjoin list_join]. by rewrite <- !app_assoc. Qed.

(** A NUL of a string and the end of a string are the same unit. *)
Lemma multi_units_split v :
  Forall is_text v -> multi_units (v ≫= split_on 0) = multi_units v /\ Forall nul_free (v ≫= split_on 0).
Proof.
  induction 1 as [|s v Hs _ [IH1 IH2]]; [done|].
  change ((s :: v) ≫= split_on 0) with (split_on 0 s ++ (v ≫= split_on 0)). split.
  - rewrite multi_units_cons, <- IH1. generalize (v ≫= split_on 0). clear -Hs. intros l. revert s Hs.
    apply (text_split_nul (fun s ps => multi_units (ps ++ l) = encode_utf16 s ++ 0 :: multi_units l)).
    + intros a _. apply multi_units_cons.
    + intros a b _ _ He IH. change ((a :: split_on 0 b) ++ l) with (a :: (split_on 0 b ++ l)).
      by rewrite multi_units_cons, IH, He, <- app_assoc.
  - apply Forall_app_2; [by apply split_nul_free|done].
Qed.

Lemma multi_loop_skip us n i start a b buf strings :
  buf = a ++ us ++ b -> length a = i -> Forall (fun u => u <> 0) us ->
  multi_loop (length us + n) i start buf strings = multi_loop n (i + length us) start buf strings.
Proof.
  intros -> Hi Hus. revert a i Hi. induction Hus as [|u us Hu _ IH]; intros a i Hi.
  - cbn. by rewrite Nat.add_0_r.
  - cbn [length Nat.add multi_loop].
    rewrite lookup_app_r, Hi, Nat.sub_diag by lia. cbn [lookup list_lookup app].
    replace (u =? 0) with false by lia.
    specialize (IH (a ++ [u]) (i + 1)%nat). rewrite <- app_assoc in IH. cbn [app] in IH.
    rewrite IH by (rewrite length_app; cbn; lia). f_equal. lia.
Qed.

(** The unit after a string's terminator. *)
Lemma multi_units_head l :
  Forall nul_free l -> exists u rest, multi_units l = u :: rest /\ (u = 0 <-> match l with [] => True | s :: _ => s = [] end).
Proof.
  intros H. destruct H as [|s l Hs _]; [by exists 0, []|].
  unfold multi_units. cbn [fmap list_fmap mjoin list_join].
  pose proof (nul_free_units s Hs) as Hnz. destruct (encode_utf16 s) as [|u us] eqn:E.
  - apply encode_utf16_empty in E as ->; [|done]. by eexists 0, _.
  - eexists u, _. split; [reflexivity|]. inversion_clear Hnz.
    split; [done|]. intros ->. cbn in E. discriminate E.
Qed.

(** One round at the terminator of a string. *)
Lemma multi_loop_end s n pre tail strings (us := encode_utf16 s) (buf := (pre ++ us ++ [0]) ++ tail)
    (next := length (pre ++ us ++ [0])) :
  nul_free s ->
  multi_loop (S n) (length pre + length us) (length pre) buf strings =
    let strings := strings ++ (if decide (s = []) then [] else [s]) in
    if bool_decide (buf !! next = Some 0) then Ok strings else multi_loop n next next buf strings.
Proof.
  intros Hs. cbn [multi_loop].
  replace (length pre + length us + 1)%nat with next by (unfold next; rewrite !length_app; cbn; lia).
  replace (buf !! (length pre + length us)%nat) with (Some 0).
  2: { subst buf. rewrite <- !app_assoc, lookup_app_r by lia.
       replace (length pre + length us - length pre)%nat with (length us + 0)%nat by lia.
       rewrite lookup_app_r by lia. by replace (length us + 0 - length us)%nat with 0%nat by lia. }
  cbn [Z.eqb].
  replace (take (length pre + length us - length pre) (drop (length pre) buf)) with us.
  2: { subst buf. rewrite <- !app_assoc, drop_app_length.
       replace (length pre + length us - length pre)%nat with (length us) by lia. by rewrite take_app_length. }
  replace (from_utf16_lossy us) with s by (symmetry; by apply text_units, nul_free_text).
  destruct (decide (s = [])) as [->|Hne].
  - change (length us) with 0%nat. by rewrite Nat.add_0_r, Nat.ltb_irrefl, app_nil_r.
  - replace (length pre <? length pre + length us)%nat with true; [done|].
    symmetry. apply Nat.ltb_lt. destruct us eqn:E; [|cbn; lia]. subst us. by apply encode_utf16_empty in E.
Qed.

Lemma multi_loop_reads l pre pad strings :
  Forall nul_free l ->
  multi_loop (length (multi_units l)) (length pre) (length pre)
    (pre ++ multi_units l ++ replicate pad 0) strings = Ok (strings ++ visible l).
Proof.
  intros H. revert pre strings. induction H as [|s l Hs Hl IH]; intros pre strings.
  - change (multi_units []) with [0]. cbn [length multi_loop visible].
    rewrite lookup_app_r, Nat.sub_diag by lia. cbn [lookup list_lookup app Z.eqb].
    rewrite Nat.ltb_irrefl, app_nil_r. by destruct (bool_decide _).
  - assert (multi_units (s :: l) = encode_utf16 s ++ 0 :: multi_units l) as ->.
    { unfold multi_units. cbn [fmap list_fmap mjoin list_join]. by rewrite <- !app_assoc. }
    rewrite length_app. cbn [length].
    rewrite (multi_loop_skip (encode_utf16 s) _ (length pre) (length pre) pre (0 :: multi_units l ++ replicate pad 0))
      by first [done|by rewrite <- app_assoc|by apply nul_free_units].
    replace (pre ++ (encode_utf16 s ++ 0 :: multi_units l) ++ replicate pad 0)
      with ((pre ++ encode_utf16 s ++ [0]) ++ multi_units l ++ replicate pad 0) by (by rewrite <- !app_assoc).
    rewrite multi_loop_end by done. cbv zeta. destruct (multi_units_head l Hl) as (u & rest & Hh & Hu).
    rewrite lookup_app_r, Nat.sub_diag by lia.
    replace ((multi_units l ++ replicate pad 0) !! 0%nat) with (Some u) by (by rewrite Hh).
    cbn [visible]. destruct l as [|s' l].
    + rewrite bool_decide_true by (f_equal; by apply Hu). by rewrite app_nil_r.
    + destruct (decide (s' = [])) as [->|Hs'].
      * rewrite bool_decide_true by (f_equal; by apply Hu). by rewrite app_nil_r.
      * rewrite bool_decide_false by (intros [= E]; by apply Hu in E). rewrite IH. by rewrite <- app_assoc.
Qed.

(** ** The contract of the trait *)

Section Contract.
Context {W : Type} `{api : !registry_api W}.

(** Any buffer that is large enough receives the type and the bytes. *)
Definition holds (s : reg_st W) (key : RegistryKey) (name : str) (typ : Z) (data : list Z) : Prop :=
  forall size, zlen data <= size ->
    RegQueryValue (reg s) (rk_handle key) (encode_utf16 name) size = (0, typ, data).

(** What a type promises to the code that stores it: writing is one call that
    sets a type and bytes, and reading these back gives what the value reads
    back as, when it fits the read buffer of the type. *)
Class StorableValue (T : value_type) `{!RegistryValue T} := {
  stored : rust_type T -> Z * list Z;
  write_stores v key name s :
    write_to_key v key name s = set_raw key name (fst (stored v)) (snd (stored v)) s;
  read_stored v key name s :
    fits T v -> holds s key name (fst (stored v)) (snd (stored v)) ->
    read_from_key key name s = (Ok (read_back T v), s) }.

Lemma query_value_holds s key name size types expected typ data :
  holds s key name typ data -> zlen data <= size -> existsb (Z.eqb typ) types = true ->
  query_value key name size types expected s = (Ok data, s).
Proof. intros Hh Hs Ht. unfold query_value. rewrite (Hh size Hs), Ht. reflexivity. Qed.

Lemma take_filled n us : take (length us) (filled n us) = us.
Proof. unfold filled. by rewrite take_app_length. Qed.

Lemma string_read_back v key name s :
  is_text v -> 2 * (zlen (encode_utf16 v) + 1) <= 2048 ->
  holds s key name REG_SZ (bytes_of_units (encode_utf16 v ++ [0])) ->
  string_read key name s = (Ok v, s).
Proof.
  intros Ht Hl Hh. destruct (text_units v Ht) as [Hu Hv]. unfold string_read, eff_bind.
  rewrite (query_value_holds s key name 2048 _ _ REG_SZ _ Hh); [|unfold zlen in *; rewrite length_bytes_of_units, length_app; cbn [length]; lia|done].
  rewrite half_bytes, length_app, units_of_bytes_of_units; cbn [length].
  - unfold eff_ret, eff_lift, filled. rewrite Nat.add_sub, <- app_assoc, take_app_length. by rewrite Hv.
  - apply Forall_app_2; [done|]. constructor; [unfold is_unit; lia|constructor].
Qed.

#[export] Instance string_storable : StorableValue TString.
Proof.
  refine (Build_StorableValue TString _ (fun v : str => (REG_SZ, bytes_of_units (encode_utf16 v ++ [0]))) _ _).
  - done.
  - intros v key name s [Ht Hl] Hh. by apply string_read_back.
Defined.

Lemma le_read_back n v key name s typ expected :
  0 <= v < 256 ^ Z.of_nat n -> holds s key name typ (le_encode n v) ->
  eff_bind (query_value key name (Z.of_nat n) [typ] expected) (fun d => eff_ret (le_decode d)) s = (Ok v, s).
Proof.
  intros Hv Hh. unfold eff_bind.
  rewrite (query_value_holds s key name _ _ _ typ _ Hh);
    [|unfold zlen; by rewrite length_le_encode|cbn; by rewrite Z.eqb_refl].
  by rewrite le_decode_encode.
Qed.

#[export] Instance u32_storable : StorableValue TU32.
Proof.
  refine (Build_StorableValue TU32 _ (fun v : Z => (REG_DWORD, le_encode 4 v)) _ _).
  - done.
  - intros v key name s Hv Hh. cbn in Hv. apply (le_read_back 4); [cbn; lia|done].
Defined.

#[export] Instance u64_storable : StorableValue TU64.
Proof.
  refine (Build_StorableValue TU64 _ (fun v : Z => (REG_QWORD, le_encode 8 v)) _ _).
  - done.
  - intros v key name s Hv Hh. cbn in Hv. apply (le_read_back 8); [cbn; lia|done].
Defined.

#[export] Instance bool_storable : StorableValue TBool.
Proof.
  refine (Build_StorableValue TBool _ (fun v : bool => (REG_DWORD, le_encode 4 (if v then 1 else 0))) _ _).
  - done.
  - intros v key name s _ Hh. cbn [read_from_key bool_value]. unfold bool_read, eff_bind at 1.
    assert (u32_read key name s = (Ok (if v : bool then 1 else 0), s)) as ->; [|by destruct v].
    apply (le_read_back 4); [destruct v; cbn; lia|done].
Defined.

#[export] Instance binary_storable : StorableValue TBinary.
Proof.
  refine (Build_StorableValue TBinary _ (fun v : list Z => (REG_BINARY, v)) _ _).
  - done.
  - intros v key name s Hl Hh. cbn in Hl. cbn [read_from_key binary_value read_back]. unfold binary_read, eff_bind.
    rewrite (query_value_holds s key name _ _ _ REG_BINARY v Hh) by done.
    unfold eff_ret, eff_lift. by rewrite take_filled.
Defined.

Lemma multi_units_range l : Forall nul_free l -> Forall is_unit (multi_units l).
Proof.
  induction 1 as [|s l Hs _ IH]; [cbn; repeat constructor; lia|]. rewrite multi_units_cons.
  apply Forall_app_2; [by apply text_units, nul_free_text|]. constructor; [unfold is_unit; lia|done].
Qed.

Lemma multi_read_back v key name s :
  fits TMultiString v -> holds s key name REG_MULTI_SZ (bytes_of_units (multi_units v)) ->
  multi_read key name s = (Ok (read_back TMultiString v), s).
Proof.
  intros [Hv Hl] Hh. destruct (multi_units_split v Hv) as [E Hn]. rewrite <- E in Hh, Hl.
  unfold multi_read, eff_bind. cbn [read_back]. set (l := v ≫= split_on 0) in *.
  rewrite (query_value_holds s key name _ _ _ REG_MULTI_SZ _ Hh);
    [|unfold zlen in *; rewrite length_bytes_of_units; lia|done].
  rewrite half_bytes, units_of_bytes_of_units by (by apply multi_units_range).
  unfold eff_lift, filled. f_equal. apply (multi_loop_reads l [] (4096 - length (multi_units l)) [] Hn).
Qed.

#[export] Instance multi_storable : StorableValue TMultiString.
Proof.
  refine (Build_StorableValue TMultiString _ (fun v : list str => (REG_MULTI_SZ, bytes_of_units (multi_units v))) _ _).
  - done.
  - intros v key name s Hf Hh. by apply multi_read_back.
Defined.

(** The implementation of the trait for each type, and its contract. *)
Definition impl_of (T : value_type) : RegistryValue T :=
  match T with
  | TString => string_value | TU32 => u32_value | TU64 => u64_value
  | TBool => bool_value | TBinary => binary_value | TMultiString => multi_value
  end.
Definition impl_storable (T : value_type) : StorableValue T (RegistryValue0 := impl_of T) :=
  match T with
  | TString => string_storable | TU32 => u32_storable | TU64 => u64_storable
  | TBool => bool_storable | TBinary => binary_storable | TMultiString => multi_storable
  end.
End Contract.

Section Composition.
Context {W : Type} `{api : !registry_api W} `{laws : !registry_laws W}.

Lemma holds_value s key name k typ data :
  target (reg s) (rk_handle key) = Some k -> value_of (reg s) k (encode_utf16 name) = Some (typ, data) ->
  holds s key name typ data.
Proof.
  intros Ht Hv size Hs. pose proof (query_law (reg s) (rk_handle key) k (encode_utf16 name) size Ht) as Hq.
  rewrite Hv in Hq. by replace (zlen data <=? size) with true in Hq by lia.
Qed.

(** After a successful write the key holds the stored bytes of the value. *)
Lemma write_typed_holds T `{!RegistryValue T} `{!StorableValue T} hive path name (v : rust_type T) s s' :
  write_typed T hive path name v s = (Ok tt, s') ->
  value_of (reg s') (as_hkey hive, encode_utf16 path) (encode_utf16 name) = Some (stored v).
Proof.
  unfold write_typed, with_key, key_create, set_value. intros H.
  apply eff_bind_ok in H as (key & s1 & Hc & H).
  destruct (RegCreateKey (reg s) _ _ _) as [[status handle] w] eqn:Ec.
  destruct (status =? 0) eqn:E0; [|done]. apply Z.eqb_eq in E0 as ->. injection Hc as <- <-.
  apply create_law in Ec as [Ht _].
  unfold eff_scoped in H. rewrite (write_stores (T:=T) v) in H. unfold set_raw in H. cbn [reg rk_handle] in H.
  destruct (RegSetValue _ _ _ _ _) as [st w2] eqn:Es. destruct (st =? 0) eqn:Est; [|done].
  apply Z.eqb_eq in Est as ->. injection H as <-.
  destruct (set_law _ _ _ _ _ _ _ Ht Es) as [_ Hv]. unfold drop_key. cbn [rk_close_on_drop reg].
  rewrite close_law, Hv. by destruct (stored v).
Qed.

(** Against the contract of any type. *)
Lemma stored_then_read T `{!RegistryValue T} `{!StorableValue T} hive path name (v : rust_type T) s s' h w :
  fits T v -> write_typed T hive path name v s = (Ok tt, s') ->
  RegOpenKey (reg s') (as_hkey hive) (encode_utf16 path) KEY_READ = (0, h, w) ->
  fst (read_typed T hive path name s') = Ok (read_back T v).
Proof.
  intros Hst Hw Ho. pose proof (write_typed_holds T hive path name v s s' Hw) as Hv. clear Hw.
  unfold read_typed, with_key, key_open, open_with, eff_bind. rewrite Ho. cbn [Z.eqb].
  unfold eff_scoped, get_value.
  destruct (open_law _ _ _ _ _ _ Ho) as [Ht Hsame].
  set (s1 := mkRegSt w (opened s' ++ [h]) (reg_closed s')).
  set (key := mkRegistryKey h true (Some hive) (Some path)).
  assert (holds s1 key name (fst (stored v)) (snd (stored v))) as Hh.
  { eapply holds_value; [exact Ht|]. cbn. rewrite Hsame, Hv. by destruct (stored v). }
  by rewrite (read_stored v key name s1 Hst Hh).
Qed.

(** [C4] What reading back a stored registry value gives, for each of the six
    types that implement [RegistryValue]: after a successful [write_*] of a
    value that fits the fixed read buffer of its type (text of at most 1023
    UTF-16 units, a [u32], a [u64], a [bool], at most 4096 bytes, a
    [Vec<String>] of at most 4096 units with its terminators), the matching
    [read_*] of the same key and name, when it can open the key, returns the
    value itself for every type but [Vec<String>].  A [Vec<String>] comes back
    cut into pieces at every NUL, without an empty first piece and only up to
    the next empty piece, so it is returned unchanged exactly when no string
    is empty or contains a NUL. *)
Theorem registry_write_read T hive path name (v : rust_type T) s s' h w :
  fits T v -> write_typed T (RegistryValue0 := impl_of T) hive path name v s = (Ok tt, s') ->
  RegOpenKey (reg s') (as_hkey hive) (encode_utf16 path) KEY_READ = (0, h, w) ->
  fst (read_typed T (RegistryValue0 := impl_of T) hive path name s') = Ok (read_back T v) /\
  (T <> TMultiString -> read_back T v = v) /\
  (forall l, read_back TMultiString l = l <-> Forall (fun x => x <> [] /\ lacks 0 x) l).
Proof.
  intros Hst Hw Ho. split; [|split; [by destruct T|exact multi_read_back_id]].
  by apply (stored_then_read T (RegistryValue0 := impl_of T) (StorableValue0 := impl_storable T)
              hive path name v s s' h w).
Qed.
End Composition.

(** ** Handles *)

Section Handles.
Context {W : Type} `{api : !registry_api W}.

(** An operation that opens no handle and closes none. *)
Definition keeps_handles {A} (m : eff (reg_st W) Error A) : Prop := forall s,
  opened (snd (m s)) = opened s /\ reg_closed (snd (m s)) = reg_closed s.

Lemma keeps_query key name size types expected : keeps_handles (query_value key name size types expected).
Proof. intros s. unfold query_value. by destruct (RegQueryValue _ _ _ _) as [[]]. Qed.

Lemma keeps_bind {A B} (m : eff (reg_st W) Error A) (k : A -> eff (reg_st W) Error B) :
  keeps_handles m -> (forall a, keeps_handles (k a)) -> keeps_handles (eff_bind m k).
Proof.
  intros Hm Hk s. unfold eff_bind. destruct (Hm s) as [H1 H2]. destruct (m s) as [[a|e|p] s1]; try done.
  destruct (Hk a s1) as [H3 H4]. cbn in *. split; congruence.
Qed.

Lemma keeps_lift {A} (m : res Error A) : keeps_handles (eff_lift m).
Proof. done. Qed.

Lemma keeps_set key name typ data : keeps_handles (set_raw key name typ data).
Proof. intros s. unfold set_raw. by destruct (RegSetValue _ _ _ _ _). Qed.

(** The implementations of the trait use the key they are given and no
    other handle. *)
Class FramedValue (T : value_type) `{!RegistryValue T} := {
  read_keeps key name : keeps_handles (read_from_key (T:=T) key name);
  write_keeps v key name : keeps_handles (write_to_key (T:=T) v key name) }.

Lemma keeps_read {A} key name size types expected (k : list Z -> res Error A) :
  keeps_handles (eff_bind (query_value key name size types expected) (fun d => eff_lift (k d))).
Proof. apply keeps_bind; [apply keeps_query|intros; apply keeps_lift]. Qed.

#[export] Instance string_framed : FramedValue TString.
Proof. split; intros; [apply keeps_read|apply keeps_set]. Qed.
#[export] Instance u32_framed : FramedValue TU32.
Proof. split; intros; [apply keeps_read|apply keeps_set]. Qed.
#[export] Instance u64_framed : FramedValue TU64.
Proof. split; intros; [apply keeps_read|apply keeps_set]. Qed.
#[export] Instance bool_framed : FramedValue TBool.
Proof.
  split; intros; [|apply keeps_set].
  apply keeps_bind; [apply keeps_read|intros; apply keeps_lift].
Qed.
#[export] Instance binary_framed : FramedValue TBinary.
Proof. split; intros; [apply keeps_read|apply keeps_set]. Qed.
#[export] Instance multi_framed : FramedValue TMultiString.
Proof. split; intros; [apply keeps_read|apply keeps_set]. Qed.

Lemma with_key_balanced_keys {A} (get : eff (reg_st W) Error RegistryKey)
    (k : RegistryKey -> eff (reg_st W) Error A) s :
  (forall s, match get s with
             | (Ok key, s1) => rk_close_on_drop key = true /\ opened s1 = opened s ++ [rk_handle key] /\
                               reg_closed s1 = reg_closed s
             | (_, s1) => opened s1 = opened s /\ reg_closed s1 = reg_closed s
             end) ->
  (forall key, keeps_handles (k key)) ->
  exists hs, opened (snd (with_key get k s)) = opened s ++ hs /\
             reg_closed (snd (with_key get k s)) = reg_closed s ++ hs.
Proof.
  intros Hg Hk. unfold with_key, eff_bind. specialize (Hg s).
  destruct (get s) as [[key|e|p] s1].
  - destruct Hg as (Hd & Ho & Hc). exists [rk_handle key]. unfold eff_scoped.
    destruct (Hk key s1) as [H1 H2]. destruct (k key s1) as [r s2]. cbn in *.
    unfold drop_key. rewrite Hd. cbn. by rewrite H1, H2, Ho, Hc.
  - exists []. rewrite !app_nil_r. apply Hg.
  - exists []. rewrite !app_nil_r. apply Hg.
Qed.

(** The registry functions leave no key open: whatever the outcome of a
    typed read or write (the value, an error on any path), the handles it
    closed are exactly the handles it opened, each once. *)
Theorem registry_functions_close_keys T `{!RegistryValue T} `{!FramedValue T} hive path name
    (v : rust_type T) s :
  (exists hs, opened (snd (read_typed T hive path name s)) = opened s ++ hs /\
              reg_closed (snd (read_typed T hive path name s)) = reg_closed s ++ hs) /\
  (exists hs, opened (snd (write_typed T hive path name v s)) = opened s ++ hs /\
              reg_closed (snd (write_typed T hive path name v s)) = reg_closed s ++ hs).
Proof.
  split; apply with_key_balanced_keys.
  - intros s1. unfold key_open, open_with. destruct (RegOpenKey _ _ _ _) as [[status h] w].
    destruct (status =? 0); [done|]. by destruct (status =? ERROR_FILE_NOT_FOUND).
  - intros key. apply read_keeps.
  - intros s1. unfold key_create. destruct (RegCreateKey _ _ _ _) as [[status h] w].
    by destruct (status =? 0).
  - intros key. apply write_keeps.
Qed.
End Handles.

(** ** The security of a key *)

(** Security operations on a key address that key: the target a key
    gives the security backend parses to the key's own hive and sub-key (with
    forward slashes turned into backslashes), for every hive. *)
Theorem security_target_same_key key hive sub path :
  rk_hive key = Some hive -> rk_subkey key = Some sub ->
  security_target key = Ok (TargetRegistryPath path) ->
  parse_registry_path path = Ok (as_hkey hive, normalize_slashes sub).
Proof.
  intros Hh Hs. unfold security_target. rewrite Hh, Hs. cbn [ok_or res_bind]. intros [= <-].
  destruct (parse_registry_path_spec (as_short_name hive) (as_short_name hive) sub (as_hkey hive) 92)
    as [H1 H2].
  - destruct hive; apply (bool_decide_unpack _); by vm_compute.
  - by destruct hive.
  - by left.
  - case_decide as E; [by rewrite E|exact H2].
Qed.

(** ** Witnesses: a registry in a finite map *)

(** Keys by hive number and path; a handle names the key it was opened for. *)
Definition hive_number (h : hive) : Z :=
  match h with HKEY_LOCAL_MACHINE => 1 | HKEY_CURRENT_USER => 2 | HKEY_CLASSES_ROOT => 3
  | HKEY_USERS => 4 | HKEY_CURRENT_CONFIG => 5 end.

Record toy_registry := mkToy {
  toy_values : gmap (Z * list Z * list Z) (Z * list Z);
  toy_handles : list (hive * list Z) }.

Definition toy_target (w : toy_registry) (h : Z) : option (hive * list Z) :=
  if h <? 0 then None else toy_handles w !! Z.to_nat h.
Definition toy_open (w : toy_registry) (hv : hive) (path : list Z) : Z * Z * toy_registry :=
  (0, Z.of_nat (length (toy_handles w)), mkToy (toy_values w) (toy_handles w ++ [(hv, path)])).
Definition toy_value (w : toy_registry) (k : hive * list Z) (name : list Z) : option (Z * list Z) :=
  toy_values w !! (hive_number (fst k), snd k, name).
Definition toy_query (w : toy_registry) (h : Z) (name : list Z) (size : Z) : Z * Z * list Z :=
  match toy_target w h ≫= fun k => toy_value w k name with
  | None => (ERROR_FILE_NOT_FOUND, 0, [])
  | Some (typ, data) => if zlen data <=? size then (0, typ, data) else (ERROR_MORE_DATA, typ, [])
  end.
Definition toy_set (w : toy_registry) (h : Z) (name : list Z) (typ : Z) (data : list Z) : Z * toy_registry :=
  match toy_target w h with
  | None => (6, w)
  | Some k => (0, mkToy (<[(hive_number (fst k), snd k, name) := (typ, data)]> (toy_values w)) (toy_handles w))
  end.

Definition toy_api : registry_api toy_registry := {|
  to_win_error z := mk_win_error z;
  RegOpenKey w hv path sam := toy_open w hv path;
  RegCreateKey w hv path sam := toy_open w hv path;
  RegQueryValue := toy_query;
  RegQueryValueExists w h name := let '(status, _, _) := toy_query w h name 65536 in status;
  RegSetValue := toy_set;
  RegDeleteValue w h name := (5, w);
  RegDeleteKey w hv path := (5, w);
  RegDeleteTree w hv path := (5, w);
  RegEnumKey w h i := (ERROR_NO_MORE_ITEMS, []);
  RegEnumValue w h i := (ERROR_NO_MORE_ITEMS, []);
  RegClose w h := w |}.

Lemma toy_open_law w hv path h w' :
  toy_open w hv path = (0, h, w') ->
  toy_target w' h = Some (hv, path) /\ forall k n, toy_value w' k n = toy_value w k n.
Proof.
  unfold toy_open. intros [= <- <-]. split; [|done]. unfold toy_target. cbn [toy_handles].
  rewrite (proj2 (Z.ltb_ge (Z.of_nat (length (toy_handles w))) 0)) by apply Zle_0_nat.
  rewrite Nat2Z.id, lookup_app_r, Nat.sub_diag by lia. done.
Qed.

Lemma toy_query_law w h k name size :
  toy_target w h = Some k ->
  match toy_value w k name with
  | None => exists t d, toy_query w h name size = (ERROR_FILE_NOT_FOUND, t, d)
  | Some (typ, data) =>
      if zlen data <=? size then toy_query w h name size = (0, typ, data)
      else exists t d, toy_query w h name size = (ERROR_MORE_DATA, t, d)
  end.
Proof.
  intros Ht. unfold toy_query. rewrite Ht. cbn [mbind option_bind].
  destruct (toy_value w k name) as [[typ data]|]; [|by eexists _, _].
  destruct (zlen data <=? size); [done|by eexists _, _].
Qed.

Lemma toy_set_law w h k name typ data w' :
  toy_target w h = Some k -> toy_set w h name typ data = (0, w') ->
  toy_target w' h = Some k /\ toy_value w' k name = Some (typ, data).
Proof.
  intros Ht. unfold toy_set. rewrite Ht. intros [= <-]. split; [done|].
  unfold toy_value. cbn. by rewrite lookup_insert_eq.
Qed.

Definition toy_laws : registry_laws toy_registry (api := toy_api).
Proof.
  refine (Build_registry_laws toy_registry toy_api toy_target toy_value _ _ toy_set_law toy_query_law _).
  - intros w hv path sam. apply toy_open_law.
  - intros w hv path sam. apply toy_open_law.
  - done.
Defined.

Definition toy_st : reg_st toy_registry := mkRegSt (mkToy ∅ []) [] [].

#[local] Existing Instance toy_api.

Definition toy_list : list str := [lit "one"; 65 :: 0 :: lit "two"; []; lit "x"].

(** The NUL splits the second string, and the empty string hides the last. *)
Lemma registry_write_read_witness :
  let s' := snd (write_typed TMultiString CurrentUser (lit "Software\App") (lit "list") toy_list toy_st) in
  fst (read_typed TMultiString CurrentUser (lit "Software\App") (lit "list") s') =
    Ok [lit "one"; lit "A"; lit "two"].
Proof.
  intros s'.
  refine (proj1 (registry_write_read (laws := toy_laws) TMultiString CurrentUser (lit "Software\App")
    (lit "list") toy_list toy_st s' _ _ _ _ _)).
  - split; [|vm_compute; discriminate].
    apply (Forall_impl (Forall (fun b => 0 <= b < 0x80))); [|intros x; apply ascii_is_text].
    apply (bool_decide_unpack _). vm_compute. exact I.
  - vm_compute. reflexivity.
  - reflexivity.
Defined.

Lemma security_target_same_key_witness :
  parse_registry_path (lit "HKCU\Software\App") = Ok (HKEY_CURRENT_USER, lit "Software\App").
Proof.
  exact (security_target_same_key (mkRegistryKey 0 true (Some CurrentUser) (Some (lit "Software\App")))
           CurrentUser (lit "Software\App") (lit "HKCU\Software\App") eq_refl eq_refl eq_refl).
Defined.

Lemma registry_functions_close_keys_witness :
  exists hs, opened (snd (read_typed TU32 LocalMachine (lit "A") (lit "B") toy_st)) = [] ++ hs /\
             reg_closed (snd (read_typed TU32 LocalMachine (lit "A") (lit "B") toy_st)) = [] ++ hs.
Proof. exact (proj1 (registry_functions_close_keys TU32 LocalMachine (lit "A") (lit "B") 7 toy_st)). Defined.
