(* ===== verification/ProcSpawn.v ===== *)
(** * ProcSpawn: starting processes

    src/process/spawn.rs, in the state of [Resources].  The reading of a
    command line by the started program ([CommandLineToArgvW]) is part of the
    specification, not of the code. *)

From Stdlib Require Import ZArith Lia String Ascii.
From stdpp Require Import base list strings gmap numbers sorting.
From S2P Require Import Prelude Text Unicode Errors Backends Effects Resources.

Open Scope Z_scope.

(** ** The command line *)

Definition format_command_line (exe_path : str) (args : list str) : str :=
  if decide (args = []) then [34] ++ exe_path ++ [34]
  else [34] ++ exe_path ++ [34; 32] ++ join [32] args.

(** The Windows calls: an error or a result, and the machine after it.
    A null pointer is 0.  [env_memory] is the memory an environment block points to. *)
Class spawn_api (W : Type) := {
  OpenProcess : W -> Z -> Z -> (win_error + Z) * W;
  OpenProcessToken : W -> Z -> Z -> (win_error + Z) * W;
  GetCurrentProcess : Z;
  DuplicateTokenEx : W -> Z -> (win_error + Z) * W;
  LookupPrivilegeValueW : W -> list Z -> win_error + Z;
  AdjustTokenPrivileges : W -> Z -> Z -> (win_error + Z (** last error *)) * W;
  CreateEnvironmentBlock : W -> Z -> (win_error + Z) * W;
  env_memory : Z -> list Z;
  InitializeAttributeList : W -> option win_error * W;
  UpdateAttribute : W -> Z -> option win_error * W;
  CreateProcess : W -> option Z -> list Z -> Z -> option Z -> option (list Z) -> option (list Z) -> bool ->
    (win_error + (Z * Z * Z * Z) (** pid, tid, process, thread *)) * W;
  ResumeThread : W -> Z -> (win_error + Z) * W }.

(** ** Errors *)

Definition spawn_failed (command reason : str) (code : Z) : Error :=
  Error_Process (ProcessError_SpawnFailed (mkProcessSpawnError command reason (Some code))).

Definition map_spawn_windows_error (command : str) (reason : string) (e : win_error) : Error :=
  spawn_failed command (lit reason) (win_error_code e).

(** ** Environment blocks *)

(** The variable at the start of the memory: its units up to NUL. *)
Fixpoint env_until_nul (us : list Z) : list Z :=
  match us with
  | [] => []
  | u :: us => if u =? 0 then [] else u :: env_until_nul us
  end.

Definition USERPROFILE : str := lit "USERPROFILE=".

(** The outer [while]: one variable per iteration, so the length of the
    memory bounds their number.  The offset of [=] in the text is used as an
    offset in units. *)
Fixpoint userprofile_loop (fuel : nat) (mem : list Z) : option (list Z) :=
  match fuel, mem with
  | S fuel, u :: _ =>
      if u =? 0 then None
      else
        let env_var := env_until_nul mem in
        let env_var_string := from_utf16_lossy env_var in
        match find_char 61 env_var_string with
        | Some eq_pos =>
            if starts_with USERPROFILE env_var_string then
              let value_len := length (encode_utf16 (drop (eq_pos + 1) env_var_string)) in
              Some (take value_len (drop (eq_pos + 1) mem) ++ [0])
            else userprofile_loop fuel (drop (length env_var + 1) mem)
        | None => userprofile_loop fuel (drop (length env_var + 1) mem)
        end
  | _, _ => None
  end.

Definition get_userprofile_from_env_block (env_block : Z) (mem : list Z) : option (list Z) :=
  if env_block =? 0 then None else userprofile_loop (length mem) mem.

(** ** The spawner *)

Record ProcessSpawner := mkProcessSpawner {
  ps_exe_path : str;
  ps_args : list str;
  ps_parent_pid : option Z;
  ps_token_source_pid : option Z;
  ps_suspended : bool;
  ps_desktop : option str }.

Definition spawner_new (exe_path : str) : ProcessSpawner := mkProcessSpawner exe_path [] None None false None.
Definition spawner_args (p : ProcessSpawner) (args : list str) : ProcessSpawner :=
  mkProcessSpawner (ps_exe_path p) args (ps_parent_pid p) (ps_token_source_pid p) (ps_suspended p) (ps_desktop p).
Definition spawner_parent (p : ProcessSpawner) (pid : Z) : ProcessSpawner :=
  mkProcessSpawner (ps_exe_path p) (ps_args p) (Some pid) (ps_token_source_pid p) (ps_suspended p) (ps_desktop p).
Definition spawner_as_user_of (p : ProcessSpawner) (pid : Z) : ProcessSpawner :=
  mkProcessSpawner (ps_exe_path p) (ps_args p) (ps_parent_pid p) (Some pid) (ps_suspended p) (ps_desktop p).
Definition spawner_suspended (p : ProcessSpawner) : ProcessSpawner :=
  mkProcessSpawner (ps_exe_path p) (ps_args p) (ps_parent_pid p) (ps_token_source_pid p) true (ps_desktop p).
Definition spawner_desktop (p : ProcessSpawner) (desktop : str) : ProcessSpawner :=
  mkProcessSpawner (ps_exe_path p) (ps_args p) (ps_parent_pid p) (ps_token_source_pid p) (ps_suspended p)
    (Some desktop).

Record SpawnedProcess := mkSpawnedProcess { sp_pid : Z; sp_thread_id : Z; sp_process : Z; sp_thread : Z }.

Definition PROCESS_QUERY_LIMITED_INFORMATION : Z := 0x1000.
Definition PROCESS_CREATE_PROCESS : Z := 0x80.
Definition CREATE_SUSPENDED : Z := 0x4.
Definition CREATE_NEW_CONSOLE : Z := 0x10.
Definition CREATE_UNICODE_ENVIRONMENT : Z := 0x400.
Definition EXTENDED_STARTUPINFO_PRESENT : Z := 0x80000.
Definition CREATE_DEFAULT_ERROR_MODE : Z := 0x4000000.
Definition TOKEN_ALL_ACCESS : Z := 0xF01FF.
Definition TOKEN_ADJUST_AND_QUERY : Z := 0x28.
Definition ERROR_NOT_ALL_ASSIGNED : Z := 1300.

Section Spawn.
Context {W : Type} `{ho : !handle_api} `{api : !spawn_api W}.

Abbreviation P := (eff (proc_st W) Error).

Definition get_user_token_from_pid (pid : Z) (command : str) : P OwnedHandle :=
  let* h := open_handle (fun w => OpenProcess w PROCESS_QUERY_LIMITED_INFORMATION pid)
              (map_spawn_windows_error command "Failed to open token source process") in
  eff_scoped (drop_owned (owned_new h))
    (let* t := open_handle (fun w => OpenProcessToken w h TOKEN_ALL_ACCESS)
                 (map_spawn_windows_error command "Failed to open process token") in
     eff_scoped (drop_owned (owned_new t))
       (let* d := open_handle (fun w => DuplicateTokenEx w t)
                    (map_spawn_windows_error command "Failed to duplicate process token") in
        eff_ret (owned_new d))).

Definition not_assigned (privilege_name : str) : str :=
  lit "Privilege '" ++ privilege_name ++ lit "' was not assigned to current token".

Definition enable_privilege (privilege_name command : str) : P unit :=
  let* t := open_handle (fun w => OpenProcessToken w GetCurrentProcess TOKEN_ADJUST_AND_QUERY)
              (map_spawn_windows_error command "Failed to open current process token") in
  eff_scoped (drop_owned (owned_new t)) (fun s =>
    match LookupPrivilegeValueW (pmach s) (to_utf16_nul privilege_name) with
    | inl e => (Err (map_spawn_windows_error command "Failed to lookup privilege LUID" e), s)
    | inr luid =>
        match AdjustTokenPrivileges (pmach s) t luid with
        | (inl e, w) =>
            (Err (map_spawn_windows_error command "Failed to adjust token privileges" e), at_machine w s)
        | (inr last_error, w) =>
            (if last_error =? ERROR_NOT_ALL_ASSIGNED
             then Err (spawn_failed command (not_assigned privilege_name) (as_i32 last_error))
             else Ok tt, at_machine w s)
        end
    end).

Definition create_env_block (token : Z) (command : str) : P Z :=
  acquiring (fun w => CreateEnvironmentBlock w token) (fun p => if p =? 0 then [] else [ResEnv p])
    (map_spawn_windows_error command "Failed to create environment block").

Definition drop_env (p : Z) (s : proc_st W) : proc_st W := if p =? 0 then s else release (ResEnv p) s.

(** [AttributeList::with_parent]. *)
Definition with_parent (parent : Z) : P unit := fun s =>
  match InitializeAttributeList (pmach s) with
  | (Some e, w) =>
      (Err (spawn_failed (lit "<attribute_list>") (lit "Failed to initialize process attribute list")
              (win_error_code e)), at_machine w s)
  | (None, w) =>
      let s := acquire ResAttributes (at_machine w s) in
      match UpdateAttribute (pmach s) parent with
      | (Some e, w) =>
          (Err (spawn_failed (lit "<attribute_list>") (lit "Failed to set parent process attribute")
                  (win_error_code e)), release ResAttributes (at_machine w s))
      | (None, w) => (Ok tt, at_machine w s)
      end
  end.

(** The token, the environment block and the directory, when another
    process's user is asked for. *)
Definition user_part (source : option Z) (command : str)
    : P (option (OwnedHandle * Z * option (list Z))) :=
  match source with
  | None => eff_ret None
  | Some pid =>
      let* _ := enable_privilege (lit "SeAssignPrimaryTokenPrivilege") command in
      let* _ := enable_privilege (lit "SeIncreaseQuotaPrivilege") command in
      let* token := get_user_token_from_pid pid command in
      let* block := eff_guard (drop_owned token) (create_env_block (oh_handle token) command) in
      let dir := if block =? 0 then None
                 else get_userprofile_from_env_block block (env_memory block) in
      eff_ret (Some (token, block, dir))
  end.

Definition drop_user (u : option (OwnedHandle * Z * option (list Z))) (s : proc_st W) : proc_st W :=
  match u with
  | Some (token, block, _) => drop_env block (drop_owned token s)
  | None => s
  end.

Definition spawn_flags (suspended user : bool) : Z :=
  let f := Z.lor (Z.lor EXTENDED_STARTUPINFO_PRESENT CREATE_DEFAULT_ERROR_MODE) CREATE_NEW_CONSOLE in
  let f := if suspended then Z.lor f CREATE_SUSPENDED else f in
  if user then Z.lor f CREATE_UNICODE_ENVIRONMENT else f.

Definition spawn_desktop (p : ProcessSpawner) : option (list Z) :=
  match ps_desktop p with
  | Some d => Some (to_utf16_nul d)
  | None => if ps_token_source_pid p is Some _ then Some (to_utf16_nul (lit "winsta0\default")) else None
  end.

Definition create (p : ProcessSpawner) (command : str)
    (u : option (OwnedHandle * Z * option (list Z))) : P SpawnedProcess :=
  let token := (fun x => oh_handle (fst (fst x))) <$> u in
  let block := (fun x => snd (fst x)) <$> u in
  let dir := u ≫= (fun x => snd x) in
  let* i := acquiring (fun w => CreateProcess w token (to_utf16_nul command)
                (spawn_flags (ps_suspended p) (bool_decide (is_Some u))) block dir (spawn_desktop p)
                (bool_decide (is_Some (ps_parent_pid p))))
              (fun i => [ResHandle (snd (fst i)); ResHandle (snd i)])
              (map_spawn_windows_error command "Failed to spawn process") in
  eff_ret (mkSpawnedProcess (fst (fst (fst i))) (snd (fst (fst i))) (snd (fst i)) (snd i)).

Definition drop_attributes (parent : option Z) (s : proc_st W) : proc_st W :=
  if parent is Some _ then release ResAttributes s else s.

Definition spawn (p : ProcessSpawner) : P SpawnedProcess :=
  if decide (trim (ps_exe_path p) = [])
  then eff_fail (Error_InvalidParameter (mkInvalidParameterError (lit "exe_path")
                   (lit "Executable path cannot be empty")))
  else
    let command := format_command_line (ps_exe_path p) (ps_args p) in
    let rest (parent : option Z) : P SpawnedProcess :=
      let* u := eff_guard (drop_attributes parent) (user_part (ps_token_source_pid p) command) in
      eff_scoped (fun s => drop_user u (drop_attributes parent s)) (create p command u) in
    match ps_parent_pid p with
    | None => rest None
    | Some pid =>
        let* h := open_handle (fun w => OpenProcess w
                    (Z.lor PROCESS_QUERY_LIMITED_INFORMATION PROCESS_CREATE_PROCESS) pid)
                    (map_spawn_windows_error command "Failed to open parent process") in
        eff_scoped (drop_owned (owned_new h))
          (let* _ := with_parent h in rest (Some h))
    end.

(** [close_handle_if_valid] and the drop of [SpawnedProcess]. *)
Definition close_if_valid (h : Z) (s : proc_st W) : proc_st W :=
  if h =? 0 then s else release (ResHandle h) s.
Definition drop_spawned (x : SpawnedProcess) (s : proc_st W) : proc_st W :=
  close_if_valid (sp_thread x) (close_if_valid (sp_process x) s).

Definition resume (x : SpawnedProcess) : P unit := fun s =>
  match ResumeThread (pmach s) (sp_thread x) with
  | (inl e, w) => (Err (spawn_failed (lit "<resume-thread>") (lit "Failed to resume spawned process thread")
                          (win_error_code e)), at_machine w s)
  | (inr _, w) => (Ok tt, at_machine w s)
  end.
End Spawn.

(** ** What is held afterwards *)

Section Held.
Context {W : Type} `{ho : !handle_api} `{api : !spawn_api W}.

Abbreviation P := (eff (proc_st W) Error).

(** The documented behaviour of the calls: a handle they return is valid. *)
Class spawn_laws : Prop := {
  open_process_ok w a p h w' : OpenProcess w a p = (inr h, w') -> handle_ok h = true;
  open_token_ok w p a h w' : OpenProcessToken w p a = (inr h, w') -> handle_ok h = true;
  duplicate_ok w t h w' : DuplicateTokenEx w t = (inr h, w') -> handle_ok h = true }.

Context `{laws : !spawn_laws}.

Lemma owns_enable_privilege name command : owns (enable_privilege name command) (fun _ => []).
Proof.
  apply owns_scoped; [apply owns_acquiring|apply valid_open; intros ???; apply open_token_ok|].
  intros t s. destruct (LookupPrivilegeValueW _ _) as [e|luid].
  - intros r. rewrite count_res_nil. cbn. lia.
  - destruct (AdjustTokenPrivileges _ _ _) as [[e|le] w].
    + intros r. rewrite count_res_nil. cbn. lia.
    + destruct (le =? ERROR_NOT_ALL_ASSIGNED); intros r; rewrite count_res_nil; cbn; lia.
Qed.

Lemma owns_user_token pid command :
  owns (get_user_token_from_pid pid command) (fun t => [ResHandle (oh_handle t)]).
Proof.
  apply owns_scoped; [apply owns_acquiring|apply valid_open; intros ???; apply open_process_ok|]. intros h.
  apply owns_scoped; [apply owns_acquiring|apply valid_open; intros ???; apply open_token_ok|]. intros t.
  eapply owns_bind; [apply owns_acquiring|]. intros d s0 s Hs. exact Hs.
Qed.

Lemma user_token_valid pid command s t s' :
  get_user_token_from_pid pid command s = (Ok t, s') ->
  oh_close_on_drop t = true /\ handle_ok (oh_handle t) = true.
Proof.
  unfold get_user_token_from_pid. intros H. apply eff_bind_ok in H as (h & s1 & _ & H).
  unfold eff_scoped at 1 in H. match type of H with (let '(_, _) := ?m in _) = _ => destruct m as [r s2] eqn:E end.
  injection H as -> _. apply eff_bind_ok in E as (t1 & s3 & _ & E).
  unfold eff_scoped at 1 in E. match type of E with (let '(_, _) := ?m in _) = _ => destruct m as [r2 s4] eqn:E2 end.
  injection E as -> _. apply eff_bind_ok in E2 as (d & s5 & E2 & [= <- _]). split; [done|]. cbn.
  eapply (valid_open (fun w => DuplicateTokenEx w t1)); [|exact E2]. intros ???. apply duplicate_ok.
Qed.

Definition user_resources (u : option (OwnedHandle * Z * option (list Z))) : list resource :=
  match u with
  | Some (token, block, _) => ResHandle (oh_handle token) :: (if block =? 0 then [] else [ResEnv block])
  | None => []
  end.
Definition user_valid (u : option (OwnedHandle * Z * option (list Z))) : Prop :=
  match u with
  | Some (token, _, _) => oh_close_on_drop token = true /\ handle_ok (oh_handle token) = true
  | None => True
  end.

Lemma owns_user_part source command :
  owns (user_part source command) user_resources /\
  (forall s u s', user_part source command s = (Ok u, s') -> user_valid u).
Proof.
  unfold user_part. destruct source as [pid|]; [|split; [intros s r; cbn; rewrite count_res_nil; lia|by intros s u s' [= <- _]]].
  split.
  - apply owns_seq; [apply owns_enable_privilege|]. intros _.
    apply owns_seq; [apply owns_enable_privilege|]. intros _ s.
    unfold eff_bind. pose proof (owns_user_token pid command s) as Ht.
    pose proof (user_token_valid pid command s) as Hv.
    destruct (get_user_token_from_pid pid command s) as [[t|e|x] s1]; [|done|done].
    destruct (Hv t s1 eq_refl) as [Hc Hk]. unfold eff_guard.
    pose proof (owns_acquiring (fun w => CreateEnvironmentBlock w (oh_handle t))
                  (fun p => if p =? 0 then [] else [ResEnv p])
                  (map_spawn_windows_error command "Failed to create environment block") s1) as Hb.
    unfold create_env_block.
    destruct (acquiring _ _ _ s1) as [[b|e|x] s2].
    + exact (gained_trans _ _ _ _ _ Ht Hb).
    + unfold drop_owned. rewrite Hc, Hk. cbn. apply gained_release. exact (gained_trans _ _ _ _ _ Ht Hb).
    + unfold drop_owned. rewrite Hc, Hk. cbn. apply gained_release. exact (gained_trans _ _ _ _ _ Ht Hb).
  - intros s u s' H. apply eff_bind_ok in H as (_ & s1 & _ & H). apply eff_bind_ok in H as (_ & s2 & _ & H).
    apply eff_bind_ok in H as (t & s3 & Ht & H). apply eff_bind_ok in H as (b & s4 & _ & [= <- _]).
    exact (user_token_valid pid command s2 t s3 Ht).
Qed.

Lemma gained_drop_user (s s' : proc_st W) u l :
  user_valid u -> gained s s' (user_resources u ++ l) -> gained s (drop_user u s') l.
Proof.
  destruct u as [[[t b] d]|]; [|done]. intros [Hc Hk]. unfold user_resources, drop_user, drop_owned, drop_env.
  rewrite Hc, Hk. cbn [andb]. intros H. destruct (b =? 0); apply gained_release; [exact H|].
  apply gained_release. eapply gained_eq; [exact H|]. intros r. cbn [app]. rewrite !count_res_cons. lia.
Qed.

Lemma owns_create p command u :
  owns (create p command u) (fun x => [ResHandle (sp_process x); ResHandle (sp_thread x)]).
Proof. eapply owns_bind; [apply owns_acquiring|]. intros i s0 s Hs. exact Hs. Qed.

Definition attribute_resources (parent : option Z) : list resource :=
  if parent is Some _ then [ResAttributes] else [].

(** The part of [spawn] after the attribute list, started with that list
    held. *)
Lemma spawn_rest p command parent s0 s :
  gained s0 s (attribute_resources parent) ->
  match (let* u := eff_guard (drop_attributes parent) (user_part (ps_token_source_pid p) command) in
         eff_scoped (fun s => drop_user u (drop_attributes parent s)) (create p command u)) s with
  | (Ok x, s') => gained s0 s' [ResHandle (sp_process x); ResHandle (sp_thread x)]
  | (_, s') => gained s0 s' []
  end.
Proof.
  intros Hs. assert (forall s' l, gained s0 s' (attribute_resources parent ++ l) ->
                       gained s0 (drop_attributes parent s') l) as Hdrop.
  { intros s' l H. destruct parent; [|exact H]. cbn in *. by apply gained_release. }
  unfold eff_bind, eff_guard. destruct (owns_user_part (ps_token_source_pid p) command) as [Hu Hv].
  specialize (Hu s). specialize (Hv s).
  destruct (user_part (ps_token_source_pid p) command s) as [[u|e|x] s1];
    [|apply Hdrop; exact (gained_trans _ _ _ _ _ Hs Hu) ..].
  specialize (Hv u s1 eq_refl). unfold eff_scoped. pose proof (owns_create p command u s1) as Hc.
  pose proof (gained_trans _ _ _ _ _ Hs Hu) as Hsu.
  destruct (create p command u s1) as [[x|e|x] s2]; apply gained_drop_user; try done; apply Hdrop;
    (eapply gained_eq; [exact (gained_trans _ _ _ _ _ Hsu Hc)|]); intros r; rewrite !count_res_app; lia.
Qed.

(** [C17] Starting a process neither leaks nor over-closes: whatever options
    are set and whichever call fails (opening the parent, building the
    attribute list, enabling a privilege, opening or duplicating the token,
    building the environment block, creating the process), after an error
    [spawn] holds exactly the handles, environment blocks and attribute lists
    it held before, and after a success exactly the process and the thread
    handle of the [SpawnedProcess] more. *)
Theorem spawn_owns_only_the_process (p : ProcessSpawner) :
  owns (spawn p) (fun x => [ResHandle (sp_process x); ResHandle (sp_thread x)]).
Proof.
  unfold spawn. case_decide as E; [apply owns_fail|]. destruct (ps_parent_pid p) as [pid|].
  - apply owns_scoped; [apply owns_acquiring|apply valid_open; intros ???; apply open_process_ok|].
    intros h s. unfold eff_bind at 1, with_parent.
    destruct (InitializeAttributeList (pmach s)) as [[e|] w].
    + intros r. rewrite count_res_nil. cbn. lia.
    + destruct (UpdateAttribute _ h) as [[e|] w2].
      * apply gained_release. intros r. cbn. unfold bump. rewrite count_res_cons, count_res_nil.
        case_decide; lia.
      * apply (spawn_rest p _ (Some h) s). intros r. cbn. unfold bump. rewrite count_res_cons, count_res_nil.
        case_decide; lia.
  - intros s. apply (spawn_rest p _ None s s). intros r. rewrite count_res_nil. lia.
Qed.
End Held.

(** ** The command line as the program reads it *)

Definition is_blank (c : Z) : bool := (c =? 32) || (c =? 9).

Fixpoint split_by (f : Z -> bool) (s : str) : list str :=
  match s with
  | [] => [[]]
  | c :: s =>
      if f c then [] :: split_by f s
      else match split_by f s with h :: t => (c :: h) :: t | [] => [[c]] end
  end.

(** The arguments in a text without quotes: the words between blanks. *)
Definition words (s : str) : list str := base.filter (fun w => w <> []) (split_by is_blank s).

(** [CommandLineToArgvW] on a command line in which only the program name is
    quoted. *)
Definition command_line_to_argv (cmd : str) : option (list str) :=
  match cmd with
  | 34 :: rest =>
      match find_char 34 rest with
      | Some i =>
          let tail := drop (S i) rest in
          if bool_decide (34 ∈ tail) then None else Some (take i rest :: words tail)
      | None => None
      end
  | _ => None
  end.

Lemma split_by_nonempty f s : split_by f s <> [].
Proof. destruct s as [|c s]; cbn; [done|]. repeat case_match; done. Qed.

Lemma split_by_app f a c b : f c = true -> split_by f (a ++ c :: b) = split_by f a ++ split_by f b.
Proof.
  intros Hc. induction a as [|x a IH]; cbn [app split_by]; [by rewrite Hc|].
  destruct (f x); [by rewrite IH|]. rewrite IH.
  pose proof (split_by_nonempty f a). by destruct (split_by f a).
Qed.

Lemma split_by_free f s : Forall (fun c => f c = false) s -> split_by f s = [s].
Proof. induction 1 as [|c s Hc _ IH]; [done|]. cbn. by rewrite Hc, IH. Qed.

Lemma split_by_pieces f s : Forall (Forall (fun c => f c = false)) (split_by f s).
Proof.
  induction s as [|c s IH]; cbn [split_by]; [by repeat constructor|].
  destruct (f c) eqn:E; [by repeat constructor|].
  destruct (split_by f s) as [|h t]; [by repeat constructor|].
  apply Forall_cons in IH as [Hh Ht]. by repeat constructor.
Qed.

Lemma words_blank a c b : is_blank c = true -> words (a ++ c :: b) = words a ++ words b.
Proof. intros Hc. unfold words. by rewrite split_by_app, filter_app. Qed.

Definition is_word (w : str) : Prop := w <> [] /\ Forall (fun c => is_blank c = false) w.

Lemma words_are_words s : Forall is_word (words s).
Proof.
  unfold words. apply Forall_forall. intros w Hw. apply list_elem_of_filter in Hw as [Hne Hin].
  split; [done|]. pose proof (split_by_pieces is_blank s) as H. rewrite Forall_forall in H. by apply H.
Qed.

Lemma words_word w : is_word w -> words w = [w].
Proof.
  intros [Hne Hf]. unfold words. rewrite split_by_free by done.
  by rewrite filter_cons_True.
Qed.

Lemma words_join args : words (join [32] args) = mjoin (words <$> args).
Proof.
  induction args as [|a args IH]; [done|]. destruct args as [|b args].
  - cbn. by rewrite app_nil_r.
  - change (join [32] (a :: b :: args)) with (a ++ 32 :: join [32] (b :: args)).
    rewrite words_blank, IH by done. done.
Qed.

Lemma mjoin_words_id args : mjoin (words <$> args) = args <-> Forall is_word args.
Proof.
  split.
  - intros <-. induction args as [|a args IH]; [constructor|]. cbn.
    apply Forall_app_2; [apply words_are_words|]. apply IH.
  - induction 1 as [|a args Ha _ IH]; [done|].
    change (mjoin (words <$> a :: args)) with (words a ++ mjoin (words <$> args)).
    by rewrite words_word, IH.
Qed.

Lemma join_no_quote args : Forall (fun a => 34 ∉ a) args -> 34 ∉ join [32] args.
Proof.
  induction 1 as [|a args Ha Hargs IH]; [by intros ?%elem_of_nil|]. destruct args as [|b args]; [done|].
  change (join [32] (a :: b :: args)) with (a ++ [32] ++ join [32] (b :: args)).
  rewrite !elem_of_app, list_elem_of_singleton. intros [?|[?|?]]; [by apply Ha|lia|by apply IH].
Qed.

(** The command line carries the program exactly and the arguments only
    as words: for a program path and arguments without quotes, the started
    program reads its path as the first argument and then the words of the
    arguments (split at spaces and tabs); it receives the argument list it
    was given exactly when no argument is empty or contains a blank, because
    arguments are joined without quoting. *)
Theorem command_line_arguments exe args :
  34 ∉ exe -> Forall (fun a => 34 ∉ a) args ->
  command_line_to_argv (format_command_line exe args) = Some (exe :: mjoin (words <$> args)) /\
  (command_line_to_argv (format_command_line exe args) = Some (exe :: args) <-> Forall is_word args).
Proof.
  intros He Ha.
  assert (command_line_to_argv (format_command_line exe args) = Some (exe :: mjoin (words <$> args))) as H.
  { assert (format_command_line exe args = 34 :: exe ++ 34 :: (if decide (args = []) then [] else 32 :: join [32] args)) as ->
      by (unfold format_command_line; by case_decide).
    cbn [command_line_to_argv]. unfold find_char.
    rewrite position_app_hit; [|apply Forall_forall; intros x Hx; apply Z.eqb_neq; by intros <-|done].
    rewrite take_app_length. rewrite <- Nat.add_1_r, <- drop_drop, drop_app_length. cbn [drop]. rewrite ?drop_0.
    case_decide as E.
    - subst args. rewrite bool_decide_false by (by intros ?%elem_of_nil). done.
    - rewrite bool_decide_false.
      + assert (words (32 :: join [32] args) = words (join [32] args)) as ->
          by (by apply (words_blank [] 32)).
        by rewrite words_join.
      + rewrite elem_of_cons. intros [?|Hin]; [done|]. by apply join_no_quote in Hin. }
  split; [done|]. rewrite H. rewrite <- mjoin_words_id. split; [by intros [= ?]|congruence].
Qed.

Lemma command_line_arguments_witness :
  command_line_to_argv (format_command_line (lit "C:\Program Files\a.exe") [lit "my file"; lit "-x"])
  = Some [lit "C:\Program Files\a.exe"; lit "my"; lit "file"; lit "-x"].
Proof.
  destruct (command_line_arguments (lit "C:\Program Files\a.exe") [lit "my file"; lit "-x"]) as [H _].
  - apply (bool_decide_unpack _). by vm_compute.
  - apply (bool_decide_unpack _). by vm_compute.
  - rewrite H. vm_compute. reflexivity.
Defined.

(** ** The profile directory *)

(** The memory of an environment block: the variables, each with its
    terminator, then a terminator. *)
Definition env_block_of (vars : list str) : list Z :=
  mjoin ((fun v => encode_utf16 v ++ [0]) <$> vars) ++ [0].

Lemma env_until_nul_app us rest : Forall (fun u => u <> 0) us -> env_until_nul (us ++ 0 :: rest) = us.
Proof.
  induction 1 as [|u us Hu _ IH]; [done|]. cbn. replace (u =? 0) with false by lia. by rewrite IH.
Qed.

Lemma starts_with_split p s : starts_with p s = true -> s = p ++ drop (length p) s.
Proof.
  unfold starts_with. destruct (strip_prefix p s) as [r|] eqn:E; [|done]. intros _.
  apply strip_prefix_Some in E as ->. by rewrite drop_app_length.
Qed.

Lemma find_profile_eq v : starts_with USERPROFILE v = true -> find_char 61 v = Some 11%nat.
Proof.
  intros H. rewrite (starts_with_split _ _ H).
  change (USERPROFILE ++ ?r) with (lit "USERPROFILE" ++ 61 :: r).
  unfold find_char. rewrite position_app_hit; [done| |done]. by repeat constructor.
Qed.

(** One iteration on a variable. *)
Lemma userprofile_step fuel mem v :
  head mem <> Some 0 -> mem <> [] -> from_utf16_lossy (env_until_nul mem) = v ->
  userprofile_loop (S fuel) mem
  = match find_char 61 v with
    | Some eq_pos =>
        if starts_with USERPROFILE v
        then Some (take (length (encode_utf16 (drop (eq_pos + 1) v))) (drop (eq_pos + 1) mem) ++ [0])
        else userprofile_loop fuel (drop (length (env_until_nul mem) + 1) mem)
    | None => userprofile_loop fuel (drop (length (env_until_nul mem) + 1) mem)
    end.
Proof.
  intros Hh Hne <-. destruct mem as [|u mem]; [done|]. cbn [userprofile_loop].
  replace (u =? 0) with false; [done|]. symmetry. apply Z.eqb_neq. intros ->. by apply Hh.
Qed.

Lemma userprofile_loop_spec vars fuel :
  Forall (fun v => nul_free v /\ v <> []) vars -> (length vars < fuel)%nat ->
  userprofile_loop fuel (env_block_of vars)
  = (fun v => encode_utf16 (drop 12 v) ++ [0]) <$>
    (snd <$> list_find (fun v => starts_with USERPROFILE v = true) vars).
Proof.
  intros H. revert fuel. induction H as [|v vars [Hv Hne] _ IH]; intros fuel Hf;
    (destruct fuel as [|fuel]; [cbn in Hf; lia|]); [done|].
  assert (env_block_of (v :: vars) = encode_utf16 v ++ 0 :: env_block_of vars) as Heq.
  { unfold env_block_of. cbn. by rewrite <- !app_assoc. }
  rewrite Heq. pose proof (nul_free_units v Hv) as Hnz. set (us := encode_utf16 v) in *.
  assert (from_utf16_lossy us = v) as Hv2 by (by apply text_units, nul_free_text).
  assert (exists u us', us = u :: us') as (u & us' & Hus).
  { destruct us eqn:E; [|by eexists _, _]. subst us. by apply encode_utf16_empty in E. }
  assert (env_until_nul (us ++ 0 :: env_block_of vars) = us) as Hun by (by apply env_until_nul_app).
  rewrite (userprofile_step fuel _ v); [| |by rewrite Hus|by rewrite Hun].
  2:{ rewrite Hus. cbn. intros [= ->]. rewrite Hus in Hnz. by inversion_clear Hnz. }
  rewrite Hun, <- drop_drop, drop_app_length. cbn [drop list_find].
  assert (userprofile_loop fuel (env_block_of vars)
    = (fun v => encode_utf16 (drop 12 v) ++ [0]) <$>
      (snd <$> (prod_map S id <$> list_find (fun v => starts_with USERPROFILE v = true) vars))) as Hrest.
  { rewrite IH by (cbn in Hf; lia). by destruct (list_find _ vars) as [[]|]. }
  destruct (starts_with USERPROFILE v) eqn:Es.
  - rewrite (find_profile_eq v Es), decide_True by done. cbn [fmap option_fmap option_map snd].
    pose proof (starts_with_split _ _ Es) as Hsp. change (length USERPROFILE) with 12%nat in Hsp.
    assert (is_text (USERPROFILE ++ drop 12 v)) as Ht by (rewrite <- Hsp; by apply nul_free_text).
    apply encode_utf16_ascii_app in Ht as [_ Ht]; [|by repeat constructor].
    rewrite <- Hsp in Ht. change (11 + 1)%nat with 12%nat. subst us. rewrite Ht.
    change 12%nat with (length USERPROFILE) at 2. rewrite <- app_assoc, drop_app_length.
    by rewrite take_app_length.
  - rewrite decide_False by done. by destruct (find_char 61 v).
Qed.

(** The working directory of a process started for another user is that
    user's profile: for an environment block of any variables (NUL-free text),
    the result is the value of the first variable that begins with
    [USERPROFILE=], as NUL-terminated UTF-16, and there is none exactly when no
    variable begins so. *)
Theorem userprofile_spec vars block :
  Forall (fun v => nul_free v /\ v <> []) vars -> block <> 0 ->
  get_userprofile_from_env_block block (env_block_of vars)
  = (fun v => to_utf16_nul (drop 12 v)) <$>
    (snd <$> list_find (fun v => starts_with USERPROFILE v = true) vars).
Proof.
  intros H Hb. unfold get_userprofile_from_env_block. replace (block =? 0) with false by lia.
  apply userprofile_loop_spec; [done|]. unfold env_block_of. rewrite length_app. cbn [length].
  clear Hb. induction H as [|v vars [Hv Hne] _ IH]; [cbn; lia|].
  change (mjoin (?f <$> v :: vars)) with (f v ++ mjoin (f <$> vars)).
  rewrite !length_app. cbn [length]. eapply Nat.le_lt_trans; [exact IH|].
  apply Nat.add_lt_le_mono; [|done]. rewrite Nat.add_1_r. apply Nat.lt_succ_r, Nat.le_add_l.
Qed.

Lemma userprofile_spec_witness :
  get_userprofile_from_env_block 1 (env_block_of [lit "PATH=C:\"; lit "USERPROFILE=C:\Users\a"])
  = Some (to_utf16_nul (lit "C:\Users\a")).
Proof.
  rewrite (userprofile_spec [lit "PATH=C:\"; lit "USERPROFILE=C:\Users\a"] 1).
  - vm_compute. reflexivity.
  - apply Forall_cons_2; [split; [ascii_text (lit "PATH=C:\")|discriminate]|].
    apply Forall_cons_2; [split; [ascii_text (lit "USERPROFILE=C:\Users\a")|discriminate]|apply Forall_nil_2].
  - done.
Defined.

(** ** Witness: a machine that numbers its handles *)

Definition toy_handles : handle_api := {| handle_ok h := 0 <? h |}.

Definition toy_spawn : spawn_api Z := {|
  OpenProcess w a p := if w <? 0 then (inl (mk_win_error 5), w) else (inr (w + 1), w + 1);
  OpenProcessToken w p a := if w <? 0 then (inl (mk_win_error 5), w) else (inr (w + 1), w + 1);
  GetCurrentProcess := -1;
  DuplicateTokenEx w t := if w <? 0 then (inl (mk_win_error 5), w) else (inr (w + 1), w + 1);
  LookupPrivilegeValueW w n := inr 3;
  AdjustTokenPrivileges w t l := (inr 0, w);
  CreateEnvironmentBlock w t := (inr 900, w);
  env_memory p := env_block_of [lit "USERPROFILE=C:\u"];
  InitializeAttributeList w := (None, w);
  UpdateAttribute w h := (None, w);
  CreateProcess w t c f e d k a := (inr (4, 8, 100, 101), w);
  ResumeThread w h := (inr 1, w) |}.

Lemma toy_spawn_laws : spawn_laws (ho := toy_handles) (api := toy_spawn).
Proof.
  split; intros *; cbn; (destruct (w <? 0) eqn:E; [done|]); intros [= <- _]; lia.
Qed.

Definition demo_spawner : ProcessSpawner :=
  spawner_as_user_of (spawner_parent (spawner_new (lit "a.exe")) 4) 8.

Lemma spawn_owns_only_the_process_witness :
  match spawn (ho := toy_handles) (api := toy_spawn) demo_spawner (mkProcSt 0 (fun _ => 0)) with
  | (Ok x, s') => gained (mkProcSt 0 (fun _ => 0)) s' [ResHandle 100; ResHandle 101] /\ sp_pid x = 4
  | _ => False
  end.
Proof.
  pose proof (spawn_owns_only_the_process (ho := toy_handles) (api := toy_spawn) (laws := toy_spawn_laws) demo_spawner
                (mkProcSt 0 (fun _ => 0))) as H.
  destruct (spawn (ho := toy_handles) (api := toy_spawn) demo_spawner (mkProcSt 0 (fun _ => 0))) as [r s'] eqn:E.
  assert (r = Ok (mkSpawnedProcess 4 8 100 101)) as ->.
  { change r with (fst (r, s')). rewrite <- E. vm_compute. reflexivity. }
  split; [exact H|reflexivity].
Defined.
