(* ===== verification/Rundown.v ===== *)
(** * Rundown: the system process snapshot

    src/process/rundown.rs.  The layout of [SYSTEM_PROCESS_INFORMATION] is
    that of the windows crate: its offsets are the fields of [spi_layout],
    and [layout_ok] says that every field lies inside the header.  A record's
    image name is an address; [base] is the address of the buffer. *)

From Stdlib Require Import ZArith Lia String Ascii.
From stdpp Require Import base list strings gmap numbers sorting.
From S2P Require Import Prelude Text Unicode Errors Effects.

Open Scope Z_scope.

Definition CREATE_TIME_OFFSET : Z := 24.

Record ProcessSnapshotEntry := mkSnapshotEntry {
  se_pid : Z; se_parent_pid : option Z; se_create_time : Z; se_session_id : Z; se_image_name : str }.

Record spi_layout := mkLayout {
  header_size : Z;
  off_next : Z;        (** NextEntryOffset, u32 *)
  off_reserved1 : Z;   (** 48 bytes *)
  off_name_length : Z; (** ImageName.Length, u16 *)
  off_name_buffer : Z; (** ImageName.Buffer, pointer *)
  off_pid : Z;         (** UniqueProcessId, pointer *)
  off_parent : Z;      (** Reserved2, pointer *)
  off_session : Z (** SessionId, u32 *) }.

Definition inside (l : spi_layout) (off size : Z) : Prop := 0 <= off /\ off + size <= header_size l.
Definition layout_ok (l : spi_layout) : Prop :=
  0 < header_size l /\ inside l (off_next l) 4 /\ inside l (off_reserved1 l) 48 /\
  inside l (off_name_length l) 2 /\ inside l (off_name_buffer l) 8 /\ inside l (off_pid l) 8 /\
  inside l (off_parent l) 8 /\ inside l (off_session l) 4.

(** ** Querying *)

(** [NtQuerySystemInformation] with a buffer of the given size: a status, the
    returned length and the bytes written. *)
Class ntquery_api := { NtQuery : Z -> Z * Z * list Z }.

Definition STATUS_INFO_LENGTH_MISMATCH : Z := -1073741820.

Definition snapshot_failed (status : Z) : Error :=
  Error_Process (ProcessError_OpenFailed (mkProcessOpenError 0
    (lit "NtQuerySystemInformation(SystemProcessInformation) failed") (Some status))).

(** [raw.resize(size, 0)] and [raw.truncate(n)]. *)
Definition resized (size : Z) (bytes : list Z) : list Z :=
  take (Z.to_nat size) bytes ++ replicate (Z.to_nat size - length bytes) 0.

Definition sat_mul_u32 (a b : Z) : Z := Z.min (a * b) u32_max.

Fixpoint query_loop {api : ntquery_api} (fuel : nat) (size : Z) : res Error (list Z) :=
  match fuel with
  | O => Panic OutOfFuel
  | S fuel =>
      let '(status, return_length, bytes) := NtQuery size in
      if status =? STATUS_INFO_LENGTH_MISMATCH
      then query_loop fuel (Z.max return_length (sat_mul_u32 size 2))
      else if status <? 0 then Err (snapshot_failed status)
      else Ok (take (Z.to_nat return_length) (resized size bytes))
  end.

Definition query_system_process_information {api : ntquery_api} (fuel : nat) : res Error (list Z) :=
  query_loop fuel (2 ^ 20).

(** ** Reading the records *)

Section Parse.
Variable p : profile.
Variable l : spi_layout.
Variable base : Z.

(** A field of the record at [off], read through a pointer into the buffer.  A
    read outside the buffer, which is undefined behaviour, is
    [IndexOutOfBounds]. *)
Definition read_field (raw : list Z) (off field_off size : Z) : res none Z :=
  match slice_get raw (off + field_off) size with
  | Some bytes => Ok (le_decode bytes)
  | None => Panic IndexOutOfBounds
  end.

(** The value of a field that is inside the buffer. *)
Definition field (raw : list Z) (off field_off size : Z) : Z :=
  le_decode (default [] (slice_get raw (off + field_off) size)).

(** The image name: [Ok] of the text, or a panic.  A read outside the buffer,
    which the bounds check is there to exclude, is [IndexOutOfBounds]. *)
Definition image_name (raw : list Z) (off : Z) : res none str :=
  let! name_length := read_field raw off (off_name_length l) 2 in
  let name_len_units := name_length / 2 in
  let! buffer := read_field raw off (off_name_buffer l) 8 in
  if (buffer =? 0) || (name_len_units =? 0) then Ok []
  else
    let name_len_bytes := name_len_units * 2 in
    if base <=? buffer then
      let! last := add_w p 64 buffer name_len_bytes in
      if last <=? base + zlen raw then
        match slice_get raw (buffer - base) name_len_bytes with
        | Some bytes =>
            Ok (from_utf16_lossy ((fun i => le_decode (take 2 (drop (2 * i) bytes)))
                                    <$> seq 0 (Z.to_nat name_len_units)))
        | None => Panic IndexOutOfBounds
        end
      else Ok []
    else Ok [].

Definition entry_at (raw : list Z) (off : Z) : res none ProcessSnapshotEntry :=
  let! pid := read_field raw off (off_pid l) 8 in
  let! parent := read_field raw off (off_parent l) 8 in
  let parent_raw := parent mod 2 ^ 32 in
  let parent_pid := if parent_raw =? 0 then None else Some parent_raw in
  let! create_time := read_field raw off (off_reserved1 l + CREATE_TIME_OFFSET) 8 in
  let! name := image_name raw off in
  let! session := read_field raw off (off_session l) 4 in
  Ok (mkSnapshotEntry (pid mod 2 ^ 32) parent_pid create_time session name).

(** The walk over the list of records. *)
Fixpoint parse_loop (fuel : nat) (raw : list Z) (off : Z) (out : list ProcessSnapshotEntry)
    : res none (list ProcessSnapshotEntry) :=
  match fuel with
  | O => Panic OutOfFuel
  | S fuel =>
      if zlen raw <? off + header_size l then Ok out
      else
        let! entry := entry_at raw off in
        let out := out ++ [entry] in
        let! next := read_field raw off (off_next l) 4 in
        if next =? 0 then Ok out else parse_loop fuel raw (off + next) out
  end.

Definition parse_system_process_information (raw : list Z) : res none (list ProcessSnapshotEntry) :=
  parse_loop (S (length raw)) raw 0 [].
End Parse.

(** [Process::snapshot]. *)
Definition snapshot {api : ntquery_api} (p : profile) (l : spi_layout) (base : Z) (fuel : nat)
    : res Error (list ProcessSnapshotEntry) :=
  let! raw := query_system_process_information fuel in
  map_err (fun _ => snapshot_failed 0) (parse_system_process_information p l base raw).

(** ** The query ends *)

(** A kernel whose answer takes [need] bytes: a buffer that holds them is
    filled, a smaller one refused, with the length in both cases. *)
Definition answers (api : ntquery_api) (data : list Z) : Prop := forall size,
  NtQuery size = if zlen data <=? size then (0, zlen data, data)
                 else (STATUS_INFO_LENGTH_MISMATCH, zlen data, []).

(** The snapshot query terminates with the whole list: when the kernel's
    list fits 32 bits, at most two calls are made, whatever the size of the
    list, and the bytes returned are exactly the kernel's. *)
Theorem snapshot_query_terminates {api : ntquery_api} data fuel :
  answers api data -> zlen data <= u32_max -> (2 <= fuel)%nat ->
  query_system_process_information fuel = Ok data.
Proof.
  intros Ha Hl Hf. destruct fuel as [|[|fuel]]; [lia|lia|].
  assert (forall size n, zlen data <= size -> query_loop (S n) size = Ok data) as Hdone.
  { intros size n Hs. cbn [query_loop]. rewrite (Ha size). replace (zlen data <=? size) with true by lia.
    change (0 =? STATUS_INFO_LENGTH_MISMATCH) with false. cbn [Z.ltb Z.compare]. f_equal.
    unfold resized, zlen in *. rewrite (firstn_all2 (n := Z.to_nat size)) by lia.
    rewrite Nat2Z.id. apply take_app_length. }
  unfold query_system_process_information. destruct (zlen data <=? 2 ^ 20) eqn:E.
  - apply Hdone. lia.
  - cbn [query_loop]. rewrite (Ha (2 ^ 20)), E. rewrite Z.eqb_refl.
    apply Hdone. unfold sat_mul_u32. lia.
Qed.

(** ** The walk *)

Section Walk.
Variable p : profile.
Variable l : spi_layout.
Variable base : Z.
Hypothesis Hl : layout_ok l.

(** The record at each of [offs] links to the next, and the last one ends the
    list: it links to nothing, or what it links to does not fit. *)
Inductive linked (raw : list Z) : Z -> list Z -> Prop :=
  | linked_short off : zlen raw < off + header_size l -> linked raw off []
  | linked_last off :
      off + header_size l <= zlen raw -> field raw off (off_next l) 4 = 0 -> linked raw off [off]
  | linked_next off offs :
      off + header_size l <= zlen raw -> field raw off (off_next l) 4 <> 0 ->
      linked raw (off + field raw off (off_next l) 4) offs -> linked raw off (off :: offs).

Lemma field_nonneg raw off fo size : bytes_ok raw -> 0 <= field raw off fo size.
Proof.
  intros Hb. unfold field. destruct (slice_get raw (off + fo) size) as [s|] eqn:E; [|done].
  cbn. apply slice_get_bytes_ok in E; [|done]. by apply le_decode_bound.
Qed.

Lemma field_bound raw off fo size : bytes_ok raw -> 0 <= size -> field raw off fo size < 256 ^ size.
Proof.
  intros Hb Hs. unfold field. destruct (slice_get raw (off + fo) size) as [s|] eqn:E; [|cbn; lia].
  cbn. assert (Z.of_nat (length s) <= size) as Hle.
  { unfold slice_get in E. case_match; [|done]. injection E as <-. rewrite length_take. lia. }
  apply slice_get_bytes_ok in E; [|done]. apply le_decode_bound in E.
  eapply Z.lt_le_trans; [apply E|]. apply Z.pow_le_mono_r; lia.
Qed.

(** A field of a record that fits is inside the buffer. *)
Lemma read_field_ok raw off fo size :
  off + header_size l <= zlen raw -> inside l fo size ->
  read_field raw off fo size = Ok (field raw off fo size).
Proof.
  intros Hfit [Hfo Hin]. unfold read_field, field, slice_get.
  by replace (off + fo + size <=? zlen raw) with true by lia.
Qed.

(** Offsets grow, so the fuel is enough. *)
Lemma parse_loop_linked raw off offs fuel out es :
  bytes_ok raw -> 0 <= off -> linked raw off offs ->
  (Z.to_nat (zlen raw - off) < fuel)%nat ->
  Forall2 (fun o e => entry_at p l base raw o = Ok e) offs es ->
  parse_loop p l base fuel raw off out = Ok (out ++ es).
Proof.
  intros Hb Ho Hlk. revert fuel out es.
  assert (0 < header_size l) as Hh by apply Hl.
  induction Hlk as [off Hs|off Hfit Hz|off offs Hfit Hz _ IH]; intros fuel out es Hf Hm;
    (destruct fuel as [|fuel]; [lia|]); cbn [parse_loop].
  - replace (zlen raw <? off + header_size l) with true by lia.
    apply Forall2_nil_inv_l in Hm as ->. by rewrite app_nil_r.
  - replace (zlen raw <? off + header_size l) with false by lia.
    apply Forall2_cons_inv_l in Hm as (e & es' & He & Hm & ->). apply Forall2_nil_inv_l in Hm as ->.
    rewrite He. cbn [res_bind]. rewrite read_field_ok by (done || apply Hl). cbn [res_bind]. by rewrite Hz.
  - replace (zlen raw <? off + header_size l) with false by lia.
    apply Forall2_cons_inv_l in Hm as (e & es' & He & Hm & ->). rewrite He. cbn [res_bind].
    rewrite read_field_ok by (done || apply Hl). cbn [res_bind].
    replace (field raw off (off_next l) 4 =? 0) with false by lia.
    pose proof (field_nonneg raw off (off_next l) 4 Hb).
    rewrite (IH ltac:(lia) fuel (out ++ [e]) es') by (done || lia). by rewrite <- app_assoc.
Qed.

Lemma linked_exists raw off : bytes_ok raw -> 0 <= off -> exists offs, linked raw off offs.
Proof.
  intros Hb Ho. assert (0 < header_size l) as Hh by apply Hl.
  remember (Z.to_nat (zlen raw - off)) as n eqn:En. revert off Ho En.
  induction (lt_wf n) as [n _ IH]. intros off Ho En.
  destruct (Z.lt_ge_cases (zlen raw) (off + header_size l)) as [Hs|Hs]; [eexists; by constructor|].
  destruct (decide (field raw off (off_next l) 4 = 0)) as [Hz|Hz]; [eexists; by apply linked_last|].
  pose proof (field_nonneg raw off (off_next l) 4 Hb).
  destruct (IH (Z.to_nat (zlen raw - (off + field raw off (off_next l) 4)))) with
    (off := off + field raw off (off_next l) 4) as [offs Hoffs]; [lia|lia|done|].
  eexists. by apply linked_next.
Qed.

(** Reading one record never leaves the buffer. *)
Lemma entry_at_ok raw off :
  bytes_ok raw -> 0 <= base -> base + zlen raw < 2 ^ 63 ->
  off + header_size l <= zlen raw -> field raw off (off_name_buffer l) 8 < 2 ^ 63 ->
  exists e, entry_at p l base raw off = Ok e.
Proof.
  intros Hb Hbase Hend Hfit Hptr. unfold entry_at.
  pose proof Hl as (_ & _ & Hres & ? & ? & ? & ? & ?).
  assert (inside l (off_reserved1 l + CREATE_TIME_OFFSET) 8).
  { unfold inside, CREATE_TIME_OFFSET in *. lia. }
  rewrite !read_field_ok by done. cbn [res_bind].
  assert (exists name, image_name p l base raw off = Ok name) as (name & ->); [|by eexists].
  unfold image_name. rewrite !read_field_ok by done. cbn [res_bind]. pose proof (field_nonneg raw off (off_name_buffer l) 8 Hb).
  set (b := field raw off (off_name_buffer l) 8) in *.
  set (n := field raw off (off_name_length l) 2 / 2).
  assert (0 <= n < 2 ^ 16) as Hn.
  { subst n. pose proof (field_nonneg raw off (off_name_length l) 2 Hb).
    pose proof (field_bound raw off (off_name_length l) 2 Hb ltac:(lia)).
    split; [apply Z.div_pos; lia|apply Z.div_lt_upper_bound; lia]. }
  destruct ((b =? 0) || (n =? 0)); [by eexists|]. destruct (base <=? b) eqn:E1; [|by eexists].
  unfold add_w. replace (b + n * 2 <? 2 ^ 64) with true by lia. cbn [res_bind].
  destruct (b + n * 2 <=? base + zlen raw) eqn:E2; [|by eexists].
  unfold slice_get. replace (b - base + n * 2 <=? zlen raw) with true by lia. by eexists.
Qed.

Lemma linked_fits raw off offs :
  linked raw off offs -> Forall (fun o => o + header_size l <= zlen raw) offs.
Proof. induction 1; by repeat constructor. Qed.
End Walk.

(** [C24] The snapshot walk always ends and reads exactly the kernel's linked
    list: from the first record of any buffer there is a finite chain of
    records (following the offsets up to the record without a successor or the
    first one that would not fit), and when the name pointers on it are user
    addresses the walk returns one entry per record of the chain, in order,
    and never reads outside the buffer, in either build profile. *)
Theorem snapshot_walk_correct p l base raw :
  layout_ok l -> bytes_ok raw -> 0 <= base -> base + zlen raw < 2 ^ 63 ->
  (exists offs, linked l raw 0 offs) /\
  forall offs, linked l raw 0 offs ->
    Forall (fun o => field raw o (off_name_buffer l) 8 < 2 ^ 63) offs ->
    exists es, Forall2 (fun o e => entry_at p l base raw o = Ok e) offs es /\
      parse_system_process_information p l base raw = Ok es.
Proof.
  intros Hl Hb Hbase Hend. split; [by apply (linked_exists l Hl raw 0 Hb)|].
  intros offs Hlk Hptr.
  assert (exists es, Forall2 (fun o e => entry_at p l base raw o = Ok e) offs es) as [es Hes].
  { apply linked_fits in Hlk. revert Hlk. induction Hptr as [|o offs Ho _ IH]; intros Hfit; [by exists []|].
    apply Forall_cons in Hfit as [Hfit [es IH']%IH].
    destruct (entry_at_ok p l base Hl raw o) as [e He]; [done..|]. exists (e :: es). by constructor. }
  exists es. split; [done|]. unfold parse_system_process_information.
  rewrite (parse_loop_linked p l base Hl raw 0 offs _ [] es) by (try done; unfold zlen; lia). done.
Qed.

(** ** Witnesses: the 64-bit layout *)

Definition layout64 : spi_layout := mkLayout 256 0 8 56 64 80 88 100.

Lemma layout64_ok : layout_ok layout64.
Proof. unfold layout_ok, inside. cbn. lia. Qed.

(** A record with the given fields and no name. *)
Definition sample_record (next pid parent : Z) : list Z :=
  le_encode 4 next ++ replicate 28 0 ++ le_encode 8 133500000000000001 ++ replicate 40 0 ++
  le_encode 8 pid ++ le_encode 8 parent ++ replicate 4 0 ++ le_encode 4 1 ++ replicate 152 0.

Definition sample_buffer : list Z := sample_record 256 4 0 ++ sample_record 0 700 4.

Lemma snapshot_query_terminates_witness :
  query_system_process_information
    (api := {| NtQuery size := if zlen sample_buffer <=? size then (0, zlen sample_buffer, sample_buffer)
                               else (STATUS_INFO_LENGTH_MISMATCH, zlen sample_buffer, []) |}) 2
  = Ok sample_buffer.
Proof.
  apply snapshot_query_terminates; [intros size; reflexivity|vm_compute; discriminate|lia].
Defined.

Lemma sample_linked : linked layout64 sample_buffer 0 [0; 256].
Proof.
  apply linked_next; [vm_compute; discriminate|vm_compute; discriminate|].
  apply linked_last; [vm_compute; discriminate|vm_compute; reflexivity].
Qed.

Lemma snapshot_walk_correct_witness :
  parse_system_process_information Debug layout64 4096 sample_buffer
  = Ok [mkSnapshotEntry 4 None 133500000000000001 1 []; mkSnapshotEntry 700 (Some 4) 133500000000000001 1 []].
Proof.
  destruct (snapshot_walk_correct Debug layout64 4096 sample_buffer) as [_ H].
  - exact layout64_ok.
  - apply (bool_decide_unpack _). vm_compute. exact I.
  - lia.
  - vm_compute. reflexivity.
  - destruct (H [0; 256] sample_linked) as (es & Hes & ->).
    + repeat constructor.
    + f_equal. apply Forall2_cons_inv_l in Hes as (e1 & es1 & H1 & Hes & ->).
      apply Forall2_cons_inv_l in Hes as (e2 & es2 & H2 & Hes & ->).
      apply Forall2_nil_inv_l in Hes as ->.
      vm_compute in H1, H2. injection H1 as <-. injection H2 as <-. reflexivity.
Defined.
