(* ===== verification/Wait.v ===== *)
(** * Wait: wait objects

    src/wait/mod.rs.  A [Wait] is a shared handle; the machine is the class
    [wait_api], and [wait_laws] states what Windows documents of it: which
    handles are signaled, and what a wait returns.  A duration is a count of
    nanoseconds. *)

From Stdlib Require Import ZArith Lia String Ascii.
From stdpp Require Import base list strings gmap numbers sorting.
From S2P Require Import Prelude Text Unicode Errors Backends Effects.

Open Scope Z_scope.

Definition WAIT_OBJECT_0 : Z := 0.
Definition WAIT_TIMEOUT : Z := 258.
Definition WAIT_FAILED : Z := u32_max.
Definition INFINITE : Z := u32_max.
Definition MAX_WAIT_OBJECTS : Z := 64.

(** Whether the last owner closes the handle. *)
Record Wait := mkWait { wait_raw : Z; wait_close_on_drop : bool }.

Class wait_api (W : Type) := {
  last_error : W -> Z;
  CreateEventW : W -> bool -> bool -> option (list Z) -> option Z * W;
  SetEvent : W -> Z -> bool * W;
  ResetEvent : W -> Z -> bool * W;
  WaitForSingleObject : W -> Z -> Z -> Z * W;
  WaitForMultipleObjects : W -> list Z -> bool -> Z -> Z * W }.

(** [timeout.as_millis().min(u32::MAX as u128) as u32]. *)
Definition duration_to_wait_ms (timeout_ns : Z) : Z := Z.min (timeout_ns / 1000000) u32_max.

Section Wait.
Context {W : Type} `{api : !wait_api W}.

Abbreviation M := (eff W Error).

Definition wait_text (operation : str) (code : Z) : str :=
  lit "wait handle operation '" ++ operation ++ lit "' failed (error code: 0x" ++
  fmt_hex_pad 8 (wrap 32 code) ++ lit ")".

Definition wait_error (w : W) (operation : string) : Error :=
  Error_Other (mkOtherError (wait_text (lit operation) (as_i32 (last_error w)))).

Definition create_event (manual_reset initial_state : bool) (name : option (list Z)) (operation : string)
    : M Wait := fun w =>
  match CreateEventW w manual_reset initial_state name with
  | (Some handle, w) => (Ok (mkWait handle true), w)
  | (None, w) => (Err (wait_error w operation), w)
  end.

Definition wait_new (manual_reset initial_state : bool) : M Wait :=
  create_event manual_reset initial_state None "create".
Definition wait_named (name : str) (manual_reset initial_state : bool) : M Wait :=
  create_event manual_reset initial_state (Some (to_utf16_nul name)) "create_named".
Definition wait_manual_reset (initial_state : bool) : M Wait := wait_new true initial_state.
Definition wait_auto_reset (initial_state : bool) : M Wait := wait_new false initial_state.
Definition from_handle_borrowed (handle : Z) : Wait := mkWait handle false.

Definition wait_wait (self : Wait) : M unit := fun w =>
  let '(r, w) := WaitForSingleObject w (wait_raw self) u32_max in
  (if r =? WAIT_OBJECT_0 then Ok tt else Err (wait_error w "wait"), w).

Definition wait_timeout (self : Wait) (timeout : Z) : M bool := fun w =>
  let '(r, w) := WaitForSingleObject w (wait_raw self) (duration_to_wait_ms timeout) in
  (if r =? WAIT_OBJECT_0 then Ok true
   else if r =? WAIT_TIMEOUT then Ok false
   else if r =? WAIT_FAILED then Err (wait_error w "wait_timeout")
   else Err (wait_error w "wait_timeout"), w).

Definition is_signaled (self : Wait) : M bool := wait_timeout self 0.

Definition handles_error (reason : string) : Error :=
  Error_InvalidParameter (mkInvalidParameterError (lit "handles") (lit reason)).

Definition collect_raw_handles (handles : list Wait) : res Error (list Z) :=
  if decide (handles = []) then Err (handles_error "at least one wait handle is required")
  else if MAX_WAIT_OBJECTS <? zlen handles then Err (handles_error "at most 64 wait handles are supported")
  else Ok (wait_raw <$> handles).

Definition decode_wait_any_result (w : W) (wait_result handle_count : Z) (operation : string)
    : res Error (option Z) :=
  if wait_result =? WAIT_TIMEOUT then Ok None
  else if wait_result =? WAIT_FAILED then Err (wait_error w operation)
  else
    let result := wait_result in
    let base := WAIT_OBJECT_0 in
    let last := wrap 32 (base + handle_count) in
    if (base <=? result) && (result <? last) then Ok (Some (result - base))
    else Err (wait_error w operation).

Definition wait_any (handles : list Wait) : M Z :=
  let* raw := eff_lift (collect_raw_handles handles) in fun w =>
  let '(r, w) := WaitForMultipleObjects w raw false u32_max in
  (let! o := decode_wait_any_result w r (zlen raw) "wait_any" in
   ok_or o (Error_Other (mkOtherError (lit "wait handle operation 'wait_any' timed out unexpectedly"))), w).

Definition wait_any_timeout (handles : list Wait) (timeout : Z) : M (option Z) :=
  let* raw := eff_lift (collect_raw_handles handles) in fun w =>
  let '(r, w) := WaitForMultipleObjects w raw false (duration_to_wait_ms timeout) in
  (decode_wait_any_result w r (zlen raw) "wait_any_timeout", w).

Definition wait_all (handles : list Wait) : M unit :=
  let* raw := eff_lift (collect_raw_handles handles) in fun w =>
  let '(r, w) := WaitForMultipleObjects w raw true u32_max in
  (if r =? WAIT_OBJECT_0 then Ok tt else Err (wait_error w "wait_all"), w).

Definition wait_all_timeout (handles : list Wait) (timeout : Z) : M bool :=
  let* raw := eff_lift (collect_raw_handles handles) in fun w =>
  let '(r, w) := WaitForMultipleObjects w raw true (duration_to_wait_ms timeout) in
  (if r =? WAIT_OBJECT_0 then Ok true
   else if r =? WAIT_TIMEOUT then Ok false
   else if r =? WAIT_FAILED then Err (wait_error w "wait_all_timeout")
   else Err (wait_error w "wait_all_timeout"), w).

Definition wait_set (self : Wait) : M unit := fun w =>
  let '(ok, w) := SetEvent w (wait_raw self) in (if ok then Ok tt else Err (wait_error w "set"), w).
Definition wait_reset (self : Wait) : M unit := fun w =>
  let '(ok, w) := ResetEvent w (wait_raw self) in (if ok then Ok tt else Err (wait_error w "reset"), w).
End Wait.

(** ** Events

    An event object: whether it resets itself when a wait succeeds, and
    whether it is signaled.  [events w] are the objects by handle; a
    zero-timeout wait never blocks. *)
Record event := mk_event { ev_manual : bool; ev_signaled : bool }.

Definition consume (e : event) : event := mk_event (ev_manual e) (ev_manual e && ev_signaled e).

Definition signaled (m : gmap Z event) (h : Z) : bool := from_option ev_signaled false (m !! h).
Definition consume_at (m : gmap Z event) (h : Z) : gmap Z event := alter consume h m.

Class wait_laws (W : Type) `{api : !wait_api W} := {
  events : W -> gmap Z event;
  set_event_law w h e :
    events w !! h = Some e ->
    fst (SetEvent w h) = true /\ events (snd (SetEvent w h)) = <[h := mk_event (ev_manual e) true]> (events w);
  reset_event_law w h e :
    events w !! h = Some e ->
    fst (ResetEvent w h) = true /\ events (snd (ResetEvent w h)) = <[h := mk_event (ev_manual e) false]> (events w);
  poll_law w h :
    is_Some (events w !! h) ->
    exists w', WaitForSingleObject w h 0 = ((if signaled (events w) h then WAIT_OBJECT_0 else WAIT_TIMEOUT), w') /\
      events w' = if signaled (events w) h then consume_at (events w) h else events w;
  poll_any_law w hs :
    hs <> [] -> zlen hs <= MAX_WAIT_OBJECTS -> Forall (fun h => is_Some (events w !! h)) hs ->
    exists w', match position (signaled (events w)) hs with
               | Some i => WaitForMultipleObjects w hs false 0 = (WAIT_OBJECT_0 + Z.of_nat i, w') /\
                           events w' = consume_at (events w) (nth i hs 0)
               | None => WaitForMultipleObjects w hs false 0 = (WAIT_TIMEOUT, w') /\ events w' = events w
               end }.

Section Laws.
Context {W : Type} `{api : !wait_api W} `{laws : !wait_laws W}.

(** Polling several wait objects gives the first signaled one: for up to
    64 objects a zero-timeout [wait_any_timeout] returns the least index whose
    event is signaled, and resets only that event, and only when it resets
    itself; it returns no index exactly when none is signaled, changing
    nothing; an empty list and a list of more than 64 are refused without a
    wait. *)
Theorem wait_any_first (handles : list Wait) (w : W) :
  Forall (fun h => is_Some (events w !! wait_raw h)) handles ->
  (handles = [] \/ MAX_WAIT_OBJECTS < zlen handles ->
    exists reason, wait_any_timeout handles 0 w = (Err (handles_error reason), w)) /\
  (handles <> [] -> zlen handles <= MAX_WAIT_OBJECTS ->
    exists w', match position (fun h => signaled (events w) (wait_raw h)) handles with
               | Some i => wait_any_timeout handles 0 w = (Ok (Some (Z.of_nat i)), w') /\
                           events w' = consume_at (events w) (nth i (wait_raw <$> handles) 0)
               | None => wait_any_timeout handles 0 w = (Ok None, w') /\ events w' = events w
               end).
Proof.
  intros Hall. unfold wait_any_timeout, eff_bind, eff_lift, collect_raw_handles. split.
  - intros [-> | Hbig]; [by eexists|]. rewrite decide_False by (intros ->; done).
    replace (MAX_WAIT_OBJECTS <? zlen handles) with true by lia. by eexists.
  - intros Hne Hle. rewrite decide_False by done.
    replace (MAX_WAIT_OBJECTS <? zlen handles) with false by lia.
    assert (forall (f : Z -> bool) l, position (fun h => f (wait_raw h)) l = position f (wait_raw <$> l)) as Hpos.
    { intros f l. induction l as [|x l IH]; [done|]. cbn. by rewrite IH. }
    rewrite (Hpos (signaled (events w))).
    assert (zlen (wait_raw <$> handles) = zlen handles) as Hz by (unfold zlen; by rewrite length_fmap).
    destruct (poll_any_law w (wait_raw <$> handles)) as [w' Hp].
    { by destruct handles. }
    { by rewrite Hz. }
    { by rewrite Forall_fmap. }
    exists w'. change (duration_to_wait_ms 0) with 0.
    destruct (position (signaled (events w)) (wait_raw <$> handles)) as [i|] eqn:Ei; destruct Hp as [-> He].
    + split; [|done]. apply position_lt in Ei. unfold decode_wait_any_result, WAIT_OBJECT_0, wrap.
      rewrite Hz. unfold zlen, MAX_WAIT_OBJECTS in *. rewrite length_fmap in Ei.
      replace (0 + Z.of_nat i =? WAIT_TIMEOUT) with false by (unfold WAIT_TIMEOUT; lia).
      replace (0 + Z.of_nat i =? WAIT_FAILED) with false by (unfold WAIT_FAILED; lia).
      rewrite Z.mod_small by lia.
      replace ((0 <=? 0 + Z.of_nat i) && (0 + Z.of_nat i <? 0 + Z.of_nat (length handles))) with true by lia.
      do 3 f_equal. lia.
    + by split.
Qed.

(** A poll of one object. *)
Lemma poll_one (x : Wait) u e :
  events u !! wait_raw x = Some e -> exists u',
    is_signaled x u = (Ok (ev_signaled e), u') /\
    events u' !! wait_raw x = Some (if ev_signaled e then consume e else e).
Proof.
  intros Hu. destruct (poll_law u (wait_raw x)) as (u' & Hw & Hev); [by eexists|].
  exists u'. unfold is_signaled, wait_timeout. change (duration_to_wait_ms 0) with 0. rewrite Hw.
  unfold signaled in *. rewrite Hu in *. cbn [from_option] in *. rewrite Hev.
  destruct (ev_signaled e) eqn:Es; cbn [from_option]; rewrite ?Es; [|by rewrite Hu].
  unfold consume_at. by rewrite lookup_alter_eq, Hu.
Qed.

(** Setting, resetting and polling one wait object: after [set] the
    object polls as signaled, after [reset] as not signaled; a successful poll
    leaves a manual-reset object signaled and clears an auto-reset one, so a
    second poll tells them apart. *)
Theorem wait_set_then_poll (x : Wait) e w :
  events w !! wait_raw x = Some e ->
  exists w1 w2 w3, wait_set x w = (Ok tt, w1) /\ is_signaled x w1 = (Ok true, w2) /\
    is_signaled x w2 = (Ok (ev_manual e), w3) /\
  exists w4 w5, wait_reset x w3 = (Ok tt, w4) /\ is_signaled x w4 = (Ok false, w5).
Proof.
  intros He. destruct (set_event_law w _ e He) as [Hs Hs'].
  set (w1 := snd (SetEvent w (wait_raw x))) in *.
  pose proof (poll_one x) as Hpoll.
  destruct (Hpoll w1 (mk_event (ev_manual e) true)) as (w2 & H2 & Hev2).
  { rewrite Hs'. by rewrite lookup_insert_eq. }
  destruct (Hpoll w2 _ Hev2) as (w3 & H3 & Hev3). cbn in H2, H3, Hev3.
  destruct (reset_event_law w3 _ _ Hev3) as [Hr Hr'].
  set (w4 := snd (ResetEvent w3 (wait_raw x))) in *.
  destruct (Hpoll w4 (mk_event (ev_manual e) false)) as (w5 & H5 & _).
  { rewrite Hr', lookup_insert_eq. by destruct e as [[]]. }
  exists w1, w2, w3. rewrite andb_true_r in H3. split_and!; [|done|done|].
  - unfold wait_set. subst w1. destruct (SetEvent w (wait_raw x)) as [b u]. cbn in *. by subst b.
  - exists w4, w5. split; [|done]. unfold wait_reset. subst w4.
    destruct (ResetEvent w3 (wait_raw x)) as [b u]. cbn in *. by subst b.
Qed.
End Laws.

(** ** Witnesses: event objects in a map *)

Definition toy_wait : wait_api (gmap Z event) := {|
  last_error w := 6;
  CreateEventW w manual initial name := (Some 1, <[1 := mk_event manual initial]> w);
  SetEvent w h := match w !! h with
                  | Some e => (true, <[h := mk_event (ev_manual e) true]> w) | None => (false, w) end;
  ResetEvent w h := match w !! h with
                    | Some e => (true, <[h := mk_event (ev_manual e) false]> w) | None => (false, w) end;
  WaitForSingleObject w h ms :=
    if signaled w h then (WAIT_OBJECT_0, consume_at w h) else (WAIT_TIMEOUT, w);
  WaitForMultipleObjects w hs all ms :=
    match position (signaled w) hs with
    | Some i => (WAIT_OBJECT_0 + Z.of_nat i, consume_at w (nth i hs 0))
    | None => (WAIT_TIMEOUT, w)
    end |}.

Definition toy_wait_laws : wait_laws (gmap Z event) (api := toy_wait).
Proof.
  refine (Build_wait_laws (gmap Z event) toy_wait (fun w => w) _ _ _ _).
  - intros w h e He. cbn. by rewrite He.
  - intros w h e He. cbn. by rewrite He.
  - intros w h _. cbn. destruct (signaled w h); by eexists.
  - intros w hs _ _ _. cbn. destruct (position (signaled w) hs); by eexists.
Defined.

Definition toy_events : gmap Z event :=
  <[1 := mk_event true false]> (<[2 := mk_event false true]> (<[3 := mk_event true true]> ∅)).

Lemma wait_any_first_witness :
  fst (wait_any_timeout (api := toy_wait) [mkWait 1 true; mkWait 2 true; mkWait 3 true] 0 toy_events) = Ok (Some 1).
Proof.
  destruct (wait_any_first (laws := toy_wait_laws) [mkWait 1 true; mkWait 2 true; mkWait 3 true] toy_events)
    as [_ H].
  - repeat constructor; by eexists.
  - destruct H as (w' & H); [done|vm_compute; discriminate|].
    change (position _ _) with (Some 1%nat) in H. by destruct H as [-> _].
Defined.

Lemma wait_set_then_poll_witness :
  exists w1, wait_set (api := toy_wait) (mkWait 2 true) toy_events = (Ok tt, w1).
Proof.
  destruct (wait_set_then_poll (laws := toy_wait_laws) (mkWait 2 true) (mk_event false true) toy_events eq_refl)
    as (w1 & w2 & w3 & H & _). exists w1. exact H.
Defined.
