(* ===== verification/ImagePath.v ===== *)
(** * ImagePath: paths of executables and modules

    [ImagePath] and the path cache of src/process/types.rs, with the access
    rights of [ProcessAccess].  The cache is built once from [COMMON_PATHS]
    and never changes, so the [OnceLock] is a constant here.  A key of the
    [HashMap] hashes and compares without regard to ASCII case: the map is
    keyed by the lower-case text.  The full Unicode [str::to_lowercase] is the
    class [unicode_lowercase]. *)

From Stdlib Require Import ZArith Lia String Ascii.
From stdpp Require Import base list strings gmap numbers sorting.
From S2P Require Import Prelude Text Unicode.

Open Scope Z_scope.

(** [str::to_lowercase]: it agrees with the ASCII function on ASCII text and
    does not see the ASCII case of its argument. *)
Class unicode_lowercase := { to_lowercase : str -> str }.
Class lowercase_laws `{unicode_lowercase} : Prop := {
  to_lowercase_ascii : forall s, Forall (fun b => 0 <= b < 0x80) s -> to_lowercase s = to_ascii_lowercase s;
  to_lowercase_fold : forall s, to_lowercase (to_ascii_lowercase s) = to_lowercase s }.

(** ** The cache *)

Definition COMMON_PATHS : list str :=
  [lit "C:\Windows\System32\kernel32.dll";
   lit "C:\Windows\System32\ntdll.dll";
   lit "C:\Windows\System32\msvcrt.dll";
   lit "C:\Windows\System32\advapi32.dll";
   lit "C:\Windows\System32\user32.dll";
   lit "C:\Windows\System32\gdi32.dll";
   lit "C:\Windows\System32\ws2_32.dll";
   lit "C:\Windows\System32\shell32.dll";
   lit "C:\Windows\System32\ole32.dll";
   lit "C:\Windows\System32\oleaut32.dll";
   lit "C:\Windows\System32\comctl32.dll";
   lit "C:\Windows\System32\comdlg32.dll";
   lit "C:\Windows\System32\winmm.dll";
   lit "C:\Windows\System32\shlwapi.dll";
   lit "C:\Windows\System32\urlmon.dll";
   lit "C:\Windows\System32\wininet.dll";
   lit "C:\Windows\System32\msi.dll";
   lit "C:\Windows\System32\crypt32.dll";
   lit "C:\Windows\System32\cryptbase.dll";
   lit "C:\Windows\System32\cryptnet.dll";
   lit "C:\Windows\System32\ncrypt.dll";
   lit "C:\Windows\System32\bcryptprimitives.dll";
   lit "C:\Windows\System32\secur32.dll";
   lit "C:\Windows\System32\sspicli.dll";
   lit "C:\Windows\System32\ntsecapi.dll";
   lit "C:\Windows\System32\wlanapi.dll";
   lit "C:\Windows\System32\netapi32.dll";
   lit "C:\Windows\System32\iphlpapi.dll";
   lit "C:\Windows\System32\dnsapi.dll";
   lit "C:\Windows\System32\nsi.dll";
   lit "C:\Windows\System32\setupapi.dll";
   lit "C:\Windows\System32\cfgmgr32.dll";
   lit "C:\Windows\System32\regapi.dll";
   lit "C:\Windows\System32\opengl32.dll";
   lit "C:\Windows\System32\services.exe";
   lit "C:\Windows\System32\lsass.exe";
   lit "C:\Windows\System32\csrss.exe";
   lit "C:\Windows\System32\svchost.exe";
   lit "C:\Windows\System32\rundll32.exe";
   lit "C:\Windows\System32\cmd.exe";
   lit "C:\Windows\System32\notepad.exe";
   lit "C:\Windows\System32\regedit.exe";
   lit "C:\Windows\System32\conhost.exe";
   lit "C:\Windows\SysWOW64\kernel32.dll";
   lit "C:\Windows\SysWOW64\ntdll.dll";
   lit "C:\Windows\SysWOW64\msvcrt.dll";
   lit "C:\Windows\SysWOW64\advapi32.dll";
   lit "C:\Windows\SysWOW64\user32.dll";
   lit "C:\Windows\SysWOW64\gdi32.dll";
   lit "C:\Windows\SysWOW64\ws2_32.dll";
   lit "C:\Windows\SysWOW64\shell32.dll";
   lit "C:\Windows\SysWOW64\ole32.dll";
   lit "C:\Windows\SysWOW64\oleaut32.dll";
   lit "C:\Windows\SysWOW64\comctl32.dll";
   lit "C:\Windows\SysWOW64\comdlg32.dll";
   lit "C:\Windows\SysWOW64\crypt32.dll";
   lit "C:\Windows\SysWOW64\cryptbase.dll";
   lit "C:\Windows\SysWOW64\secur32.dll";
   lit "C:\Windows\SysWOW64\setupapi.dll";
   lit "C:\Program Files\";
   lit "C:\Program Files (x86)\";
   lit "C:\Windows\";
   lit "C:\Windows\System32\";
   lit "C:\Windows\SysWOW64\"].

(** [CaseInsensitiveKey]: the class of a text under [eq]. *)
Definition CaseInsensitiveKey (path : str) : str := to_ascii_lowercase path.

Definition init_path_cache : gmap str str :=
  fold_left (fun cache path => <[CaseInsensitiveKey path := path]> cache) COMMON_PATHS ∅.

Definition find_cached_str (path : str) : option str := init_path_cache !! CaseInsensitiveKey path.
Definition find_cached (path : str) : option str := find_cached_str path.

(** ** [ImagePath] *)

Inductive ImagePath :=
| ImagePath_Cached (s : str)
| ImagePath_Owned (s : str).

Definition image_path_of (found : option str) (path : str) : ImagePath :=
  match found with
  | Some cached => ImagePath_Cached cached
  | None => ImagePath_Owned path
  end.

(** [ImagePath::new], [from_str] and [from_utf8]. *)
Definition image_path_new (path : str) : ImagePath := image_path_of (find_cached path) path.
Definition image_path_from_str (path : str) : ImagePath :=
  let path := trim_end_nul path in image_path_of (find_cached_str path) path.
Definition image_path_from_utf8 (utf8_data : str) : option ImagePath :=
  match from_utf8 utf8_data with
  | None => None
  | Some path => let path := trim_end_nul path in Some (image_path_of (find_cached_str path) path)
  end.

Definition as_str (p : ImagePath) : str :=
  match p with ImagePath_Cached s => s | ImagePath_Owned s => s end.
Definition is_cached (p : ImagePath) : bool :=
  match p with ImagePath_Cached _ => true | ImagePath_Owned _ => false end.
Definition eq_case_insensitive (p : ImagePath) (other : str) : bool :=
  eq_ignore_ascii_case (as_str p) other.

(** [impl PartialEq for ImagePath], and against a text on either side. *)
Definition image_path_eq (p q : ImagePath) : bool := eq_case_insensitive p (as_str q).
Definition image_path_eq_str (p : ImagePath) (s : str) : bool := eq_case_insensitive p s.

(** [rsplit('\').next()]: what follows the last backslash. *)
Definition image_file_name (p : ImagePath) : str :=
  match rsplit_once 92 (as_str p) with
  | Some (_, name) => name
  | None => as_str p
  end.

Definition ends_with (suffix s : str) : bool := starts_with (reverse suffix) (reverse s).

Section Lowercase.
Context `{unicode_lowercase}.

(** [ImagePath::from_utf16]: the cache is searched with the lower-case
    text. *)
Definition image_path_from_utf16 (utf16_data : list Z) : ImagePath :=
  let path_str := trim_end_nul (from_utf16_lossy utf16_data) in
  let path_lower := to_lowercase path_str in
  image_path_of (find_cached_str path_lower) path_str.

Definition contains_case_insensitive (p : ImagePath) (needle : str) : bool :=
  contains (to_lowercase needle) (to_lowercase (as_str p)).
Definition ends_with_case_insensitive (p : ImagePath) (suffix : str) : bool :=
  ends_with (to_lowercase suffix) (to_lowercase (as_str p)).
Definition is_system_path (p : ImagePath) : bool :=
  let path_lower := to_lowercase (as_str p) in
  contains (lit "\windows\") path_lower || contains (lit "\winnt\") path_lower.
Definition is_wow64 (p : ImagePath) : bool := contains_case_insensitive p (lit "\SysWOW64\").
End Lowercase.

(** ** Access rights *)

Inductive ProcessAccess :=
| QueryInformation | QueryLimitedInformation | VmRead | QueryAndVmRead | VmWrite | Terminate
| CreateThread | AllAccess | CustomAccess (rights : Z).

Definition PROCESS_TERMINATE : Z := 0x1.
Definition PROCESS_CREATE_THREAD : Z := 0x2.
Definition PROCESS_VM_READ : Z := 0x10.
Definition PROCESS_VM_WRITE : Z := 0x20.
Definition PROCESS_QUERY_INFORMATION : Z := 0x400.
Definition PROCESS_QUERY_LIMITED_INFORMATION : Z := 0x1000.
Definition PROCESS_ALL_ACCESS : Z := 0x1FFFFF.
Definition PROCESS_SYNCHRONIZE : Z := 0x100000.

(** [ProcessAccess::to_windows]. *)
Definition process_access_to_windows (access : ProcessAccess) : Z :=
  match access with
  | QueryInformation => Z.lor PROCESS_QUERY_INFORMATION PROCESS_SYNCHRONIZE
  | QueryLimitedInformation => Z.lor PROCESS_QUERY_LIMITED_INFORMATION PROCESS_SYNCHRONIZE
  | VmRead => Z.lor PROCESS_VM_READ PROCESS_SYNCHRONIZE
  | QueryAndVmRead => Z.lor (Z.lor PROCESS_QUERY_INFORMATION PROCESS_VM_READ) PROCESS_SYNCHRONIZE
  | VmWrite => Z.lor PROCESS_VM_WRITE PROCESS_SYNCHRONIZE
  | Terminate => Z.lor PROCESS_TERMINATE PROCESS_SYNCHRONIZE
  | CreateThread => Z.lor PROCESS_CREATE_THREAD PROCESS_SYNCHRONIZE
  | AllAccess => PROCESS_ALL_ACCESS
  | CustomAccess rights => rights
  end.

(** ** The cache is transparent *)

#[global] Instance image_path_equiv : Equiv ImagePath := fun p q => image_path_eq p q = true.

Lemma image_path_equiv_iff (p q : ImagePath) :
  p ≡ q <-> to_ascii_lowercase (as_str p) = to_ascii_lowercase (as_str q).
Proof. apply eq_ignore_case_iff. Qed.

#[global] Instance image_path_equivalence : Equivalence (≡@{ImagePath}).
Proof.
  split.
  - intros p. by apply image_path_equiv_iff.
  - intros p q. rewrite !image_path_equiv_iff. congruence.
  - intros p q r. rewrite !image_path_equiv_iff. congruence.
Qed.

Lemma to_lower_backslash c : Z.eqb 92 (to_lower c) = Z.eqb 92 c.
Proof. unfold to_lower. destruct (_ && _) eqn:E; [|done]. apply andb_prop in E as [?%Z.leb_le ?%Z.leb_le].
  destruct (Z.eqb_spec 92 (c + 32)), (Z.eqb_spec 92 c); lia. Qed.

Lemma position_fmap {A} (f : A -> A) (P : A -> bool) l :
  (forall x, P (f x) = P x) -> position P (f <$> l) = position P l.
Proof. intros HP. induction l as [|x l IH]; [done|]. csimpl. by rewrite HP, IH. Qed.

(** The file name follows the case of the path. *)
Lemma file_name_lower p :
  to_ascii_lowercase (image_file_name p) =
  image_file_name (ImagePath_Owned (to_ascii_lowercase (as_str p))).
Proof.
  unfold image_file_name, rsplit_once, to_ascii_lowercase. cbn [as_str].
  rewrite <- fmap_reverse, position_fmap, length_fmap by apply to_lower_backslash.
  destruct (position _ _); [|done]. by rewrite <- fmap_drop.
Qed.

Lemma image_file_name_proper p q : p ≡ q -> eq_ignore_ascii_case (image_file_name p) (image_file_name q) = true.
Proof.
  rewrite image_path_equiv_iff, eq_ignore_case_iff, !file_name_lower. by intros ->.
Qed.

Section Observers.
Context `{lowercase_laws}.

Lemma to_lowercase_proper p q : p ≡ q -> to_lowercase (as_str p) = to_lowercase (as_str q).
Proof.
  rewrite image_path_equiv_iff. intros E. by rewrite <- (to_lowercase_fold (as_str p)), E, to_lowercase_fold.
Qed.

#[global] Instance is_system_path_proper : Proper ((≡@{ImagePath}) ==> (=)) is_system_path.
Proof. intros p q E. unfold is_system_path. by rewrite (to_lowercase_proper _ _ E). Qed.
#[global] Instance contains_proper : Proper ((≡@{ImagePath}) ==> (=) ==> (=)) contains_case_insensitive.
Proof. intros p q E ? ? ->. unfold contains_case_insensitive. by rewrite (to_lowercase_proper _ _ E). Qed.
#[global] Instance ends_with_proper : Proper ((≡@{ImagePath}) ==> (=) ==> (=)) ends_with_case_insensitive.
Proof. intros p q E ? ? ->. unfold ends_with_case_insensitive. by rewrite (to_lowercase_proper _ _ E). Qed.
End Observers.

(** What the cache holds: a map filled by insertion, when the keys differ. *)
Lemma fold_insert_lookup (f : str -> str) (l : list str) (m : gmap str str) k c :
  NoDup (f <$> l) ->
  fold_left (fun m x => <[f x := x]> m) l m !! k = Some c <->
  (c ∈ l /\ f c = k) \/ (k ∉ (f <$> l) /\ m !! k = Some c).
Proof.
  revert m. induction l as [|x l IH]; intros m Hnd; csimpl in *.
  { split; [|intros [[[]%elem_of_nil _]|[_ E]]; done].
    intros E. right. split; [apply not_elem_of_nil | done]. }
  apply NoDup_cons in Hnd as [Hx Hnd]. rewrite IH by done. rewrite !elem_of_cons.
  destruct (decide (f x = k)) as [<-|Hne].
  - rewrite lookup_insert_eq. split.
    + intros [[Hc E]|[_ [= ->]]]; left; [|by auto]. exfalso. apply Hx. rewrite <- E. by apply list_elem_of_fmap_2.
    + intros [[[->|Hc] E]|[Hk _]]; [by right | by auto |]. exfalso. apply Hk. by left.
  - rewrite lookup_insert_ne by done. split.
    + intros [[Hc E]|[Hk E]]; [by auto|]. right. split; [|done]. intros [->|?]; done.
    + intros [[[->|Hc] E]|[Hk E]]; [done | by auto |]. right. split; [|done]. intros ?. apply Hk. by right.
Qed.

Lemma common_paths_distinct : NoDup (CaseInsensitiveKey <$> COMMON_PATHS).
Proof. apply (bool_decide_unpack _). vm_compute. exact I. Qed.

Lemma find_cached_spec path c :
  find_cached_str path = Some c <-> c ∈ COMMON_PATHS /\ eq_ignore_ascii_case c path = true.
Proof.
  unfold find_cached_str, init_path_cache. rewrite fold_insert_lookup by apply common_paths_distinct.
  rewrite eq_ignore_case_iff. rewrite lookup_empty. naive_solver.
Qed.

Lemma image_path_of_equiv path :
  image_path_of (find_cached_str path) path ≡ ImagePath_Owned path.
Proof.
  destruct (find_cached_str path) as [c|] eqn:E; [|reflexivity].
  by apply find_cached_spec in E as [_ ?].
Qed.

Lemma image_path_of_cached path :
  is_cached (image_path_of (find_cached_str path) path) = true <->
  exists c, c ∈ COMMON_PATHS /\ eq_ignore_ascii_case c path = true.
Proof.
  split.
  - destruct (find_cached_str path) as [c|] eqn:E; [|done]. intros _. exists c. by apply find_cached_spec.
  - intros (c & Hc). apply find_cached_spec in Hc. by rewrite Hc.
Qed.

Lemma ascii_trim_end_nul s : Forall (fun b => 0 <= b < 0x80) s -> Forall (fun b => 0 <= b < 0x80) (trim_end_nul s).
Proof.
  intros H. unfold trim_end_nul. apply Forall_reverse.
  generalize (length s) (proj2 (Forall_reverse _ _) H). intros n. generalize (reverse s) as l.
  induction n as [|n IH]; intros l Hl; [done|]. cbn [strip_all].
  destruct (strip_any [[0]] l) as [r|] eqn:E; [|done].
  apply IH. destruct l as [|x l]; [done|]. cbn in E. destruct x; simplify_eq. by inversion Hl.
Qed.

Lemma find_cached_lower path : find_cached_str (to_ascii_lowercase path) = find_cached_str path.
Proof. unfold find_cached_str, CaseInsensitiveKey. by rewrite to_ascii_lowercase_idemp. Qed.

(** Caching a path is transparent: [ImagePath::from_str] (and
    [from_utf8] on valid text, [from_utf16] on ASCII text) gives a value equal,
    as the library compares image paths, to the path with its trailing NULs
    removed; the file name, the system and SysWOW64 tests and every suffix or
    substring test answer as they do on that path, and the value is a cached
    one exactly when the path is one of [COMMON_PATHS] up to ASCII case. *)
Theorem image_path_transparent `{lowercase_laws} (path : str) (q := image_path_from_str path)
    (r := ImagePath_Owned (trim_end_nul path)) :
  (q ≡ r /\ eq_ignore_ascii_case (image_file_name q) (image_file_name r) = true /\
   is_system_path q = is_system_path r /\ is_wow64 q = is_wow64 r /\
   (forall suffix, ends_with_case_insensitive q suffix = ends_with_case_insensitive r suffix) /\
   (forall needle, contains_case_insensitive q needle = contains_case_insensitive r needle)) /\
  (is_cached q = true <-> exists c, c ∈ COMMON_PATHS /\ eq_ignore_ascii_case c (trim_end_nul path) = true) /\
  (utf8_valid path = true -> image_path_from_utf8 path = Some q) /\
  (Forall (fun b => 0 <= b < 0x80) path -> image_path_from_utf16 (encode_utf16 path) = q).
Proof.
  assert (E : q ≡ r) by apply image_path_of_equiv.
  split_and!; [done | by apply image_file_name_proper | | | | | | |].
  - by rewrite E.
  - unfold is_wow64. by rewrite E.
  - intros suffix. by rewrite E.
  - intros needle. by rewrite E.
  - apply image_path_of_cached.
  - intros Hv. unfold image_path_from_utf8, from_utf8. by rewrite Hv.
  - intros Ha. unfold image_path_from_utf16.
    assert (Ht : from_utf16_lossy (encode_utf16 path) = path) by (by apply text_units, ascii_is_text).
    rewrite Ht, to_lowercase_ascii by (by apply ascii_trim_end_nul). by rewrite find_cached_lower.
Qed.

Definition ascii_lowercase : unicode_lowercase := {| to_lowercase := to_ascii_lowercase |}.

Lemma ascii_lowercase_laws : @lowercase_laws ascii_lowercase.
Proof. split; [done|]. intros s. apply to_ascii_lowercase_idemp. Qed.

Lemma image_path_transparent_witness :
  image_path_from_str (lit "c:\windows\system32\NTDLL.dll" ++ [0]) = ImagePath_Cached (lit "C:\Windows\System32\ntdll.dll") /\
  is_cached (image_path_from_str (lit "c:\windows\system32\NTDLL.dll" ++ [0])) = true.
Proof.
  split; [vm_compute; reflexivity|].
  apply (@image_path_transparent ascii_lowercase ascii_lowercase_laws (lit "c:\windows\system32\NTDLL.dll" ++ [0])).
  exists (lit "C:\Windows\System32\ntdll.dll"). split; [|vm_compute; reflexivity].
  apply list_elem_of_lookup. exists 1%nat. reflexivity.
Defined.
