(* ===== verification/Peb.v ===== *)
(** * Peb: the parameters and the environment of another process

    src/process/peb.rs.  Reading another process's memory is
    [ReadProcessMemory]; the sizes and the position of [ProcessParameters]
    in the windows crate's [PEB] are parameters.  The positions inside
    [RTL_USER_PROCESS_PARAMETERS] are those the source gives (the reserved
    words at 0x10, the image path at 0x60), a [UNICODE_STRING] is a 16-bit
    length and, in the next machine word, a pointer, and the partial
    structure the source declares is laid out by the C rules. *)

From Stdlib Require Import ZArith Lia String Ascii.
From stdpp Require Import base list strings gmap numbers sorting.
From S2P Require Import Prelude Text Unicode Errors ImagePath.

Open Scope Z_scope.

(** ** The layout of [RTL_USER_PROCESS_PARAMETERS_PARTIAL] *)

(** A field of a [repr(C)] structure: its size and alignment. *)
Record c_field := mk_c_field { cf_size : Z; cf_align : Z }.

Definition align_up (off align : Z) : Z := (off + align - 1) / align * align.

(** The offset of each field, in order. *)
Fixpoint c_offsets (off : Z) (fs : list c_field) : list Z :=
  match fs with
  | [] => []
  | f :: fs => align_up off (cf_align f) :: c_offsets (align_up off (cf_align f) + cf_size f) fs
  end.

Definition u8_array (n : Z) : c_field := mk_c_field n 1.
Definition c_u32 : c_field := mk_c_field 4 4.
Definition c_ptr : c_field := mk_c_field 8 8.
Definition c_unicode_string : c_field := mk_c_field 16 8.

(** [_pad1, _flags, _pad2, stdin, stdout, stderr, image_path_name,
    command_line, environment]. *)
Definition partial_fields : list c_field :=
  [u8_array 32; c_u32; u8_array 8; c_ptr; c_ptr; c_ptr; c_unicode_string; c_unicode_string; c_ptr].
Definition environment_offset : Z := nth 8 (c_offsets 0 partial_fields) 0.

(** Positions in the windows crate's structure. *)
Definition RESERVED2 : Z := 0x10.
Definition IMAGE_PATH_NAME : Z := 0x60.
Definition COMMAND_LINE : Z := 0x70.

Definition unicode_string_length_from_packed_word (word : Z) : Z := Z.land word 0xFFFF.

(** ** Reading *)

Record ProcessParameters := mkProcessParameters {
  pp_command_line : str; pp_current_directory : str; pp_image_path : ImagePath }.

(** [ReadProcessMemory] of [size] bytes at an address: an error, or the bytes
    read. *)
Class peb_api := {
  PEB_SIZE : Z;
  PARAMETERS_SIZE : Z;
  off_process_parameters : Z;
  QueryPebAddress : win_error + Z;
  ReadProcessMemory : Z -> Z -> win_error + list Z }.

Section Peb.
Context `{api : peb_api}.
Variable pid : Z.

Definition open_failed (reason : string) (e : win_error) : Error :=
  Error_Process (ProcessError_OpenFailed (mkProcessOpenError pid (lit reason) (Some (win_error_code e)))).

(** The buffer after a read: the bytes, then the zeros it was cleared to. *)
Definition read_at (addr size : Z) (reason : string) : res Error (list Z) :=
  match ReadProcessMemory addr size with
  | inl e => Err (open_failed reason e)
  | inr bytes => Ok bytes
  end.

(** A machine word or a 16-bit field of a cleared buffer. *)
Definition word_at (buffer : list Z) (off : Z) : Z := le_decode (take 8 (drop (Z.to_nat off) buffer)).
Definition u16_field (buffer : list Z) (off : Z) : Z := le_decode (take 2 (drop (Z.to_nat off) buffer)).

Definition read_peb_address : res Error Z :=
  match QueryPebAddress with
  | inl e => Err (open_failed "Failed to query process information" e)
  | inr addr => Ok addr
  end.

Definition read_unicode_string (addr length : Z) : res Error str :=
  if (addr =? 0) || (length =? 0) then Ok []
  else
    let! bytes := read_at addr length "Failed to read string from process memory" in
    let units := take (List.length bytes / 2) (units_of_bytes bytes) in
    let stop := default (List.length units) (position (Z.eqb 0) units) in
    Ok (from_utf16_lossy (take stop units)).

Definition read_process_parameters : res Error ProcessParameters :=
  let! peb_addr := read_peb_address in
  let! peb := read_at peb_addr PEB_SIZE "Failed to read PEB for parameters" in
  let params_addr := word_at peb off_process_parameters in
  let! params := read_at params_addr PARAMETERS_SIZE "Failed to read RTL_USER_PROCESS_PARAMETERS" in
  let cwd_addr := word_at params (RESERVED2 + 8 * 6) in
  let cwd_len := unicode_string_length_from_packed_word (word_at params (RESERVED2 + 8 * 5)) in
  let cmd_line_addr := word_at params (COMMAND_LINE + 8) in
  let cmd_line_len := u16_field params COMMAND_LINE in
  let image_path_addr := word_at params (IMAGE_PATH_NAME + 8) in
  let image_path_len := u16_field params IMAGE_PATH_NAME in
  let! cmd_line := read_unicode_string cmd_line_addr cmd_line_len in
  let! image_path := read_unicode_string image_path_addr image_path_len in
  let! current_directory := read_unicode_string cwd_addr cwd_len in
  Ok (mkProcessParameters cmd_line current_directory (image_path_from_str image_path)).

Definition peb_command_line : res Error str :=
  let! params := read_process_parameters in Ok (pp_command_line params).
Definition cwd : res Error str :=
  let! params := read_process_parameters in Ok (pp_current_directory params).

(** The loop over the environment block: [units] is what is left of it. *)
Fixpoint env_loop (fuel : nat) (units : list Z) (vars : gmap str str) : gmap str str :=
  match fuel, units with
  | S fuel, _ :: _ =>
      let len := default (List.length units) (position (Z.eqb 0) units) in
      if (len =? 0)%nat then vars
      else
        let entry := from_utf16_lossy (take len units) in
        let vars := match find_char 61 entry with
                    | Some eq_pos => <[take eq_pos entry := drop (eq_pos + 1) entry]> vars
                    | None => vars
                    end in
        env_loop fuel (drop (len + 1) units) vars
  | _, _ => vars
  end.

Definition parse_environment (units : list Z) : gmap str str := env_loop (length units) units ∅.

Definition read_environment_block (addr : Z) : res Error (gmap str str) :=
  if addr =? 0 then Ok ∅
  else
    let! bytes := read_at addr 65536 "Failed to read environment block" in
    Ok (parse_environment (take (length bytes / 2) (units_of_bytes bytes))).

Definition environment : res Error (gmap str str) :=
  let! peb_addr := read_peb_address in
  let! peb := read_at peb_addr PEB_SIZE "Failed to read PEB" in
  let params_addr := word_at peb off_process_parameters in
  let! params := read_at params_addr PARAMETERS_SIZE "Failed to read process parameters" in
  read_environment_block (word_at params environment_offset).
End Peb.

(** ** Machine words and packed fields *)

Lemma le_decode_app a b : le_decode (a ++ b) = le_decode a + 256 ^ Z.of_nat (length a) * le_decode b.
Proof.
  induction a as [|x a IH]; [simpl; lia|].
  cbn [le_decode app length]. rewrite IH, pow256_S. lia.
Qed.

(** The length read from a packed machine word is the 16-bit field. *)
Lemma packed_length params off :
  bytes_ok params -> (Z.to_nat off + 8 <= length params)%nat ->
  unicode_string_length_from_packed_word (word_at params off) = u16_field params off.
Proof.
  intros Hok Hlen. unfold unicode_string_length_from_packed_word, word_at, u16_field.
  assert (Hd : bytes_ok (drop (Z.to_nat off) params)) by (by apply Forall_drop).
  assert (Hl : (8 <= length (drop (Z.to_nat off) params))%nat) by (rewrite length_drop; lia).
  generalize dependent (drop (Z.to_nat off) params). intros bs Hd Hl.
  replace (take 8 bs) with (take 2 bs ++ take 6 (drop 2 bs)) by apply take_take_drop.
  rewrite le_decode_app, length_take, Nat.min_l by lia.
  change 0xFFFF with (Z.ones 16). rewrite Z.land_ones by lia.
  change (256 ^ Z.of_nat 2) with (2 ^ 16). rewrite Z.mul_comm, Z_mod_plus_full.
  apply Z.mod_small. pose proof (le_decode_bound (take 2 bs) (Forall_take _ _ _ Hd)) as Hb.
  rewrite length_take, Nat.min_l in Hb by lia. exact Hb.
Qed.

(** ** The parameters of a process are read back *)

Section Layout.
Context `{api : peb_api}.
Variable pid : Z.

(** A [UNICODE_STRING] at [off] of the parameters block: the length of the
    text in bytes, and a pointer to its UTF-16 form. *)
Definition counted_string (params : list Z) (off : Z) (s : str) : Prop :=
  let units := encode_utf16 s in
  u16_field params off = 2 * Z.of_nat (length units) /\
  (s = [] \/ word_at params (off + 8) <> 0 /\
   ReadProcessMemory (word_at params (off + 8)) (2 * Z.of_nat (length units)) = inr (bytes_of_units units)).

Record process_image (params : list Z) (cmd cwd image : str) : Prop := {
  pi_params : exists peb_addr peb, QueryPebAddress = inr peb_addr /\
    ReadProcessMemory peb_addr PEB_SIZE = inr peb /\
    ReadProcessMemory (word_at peb off_process_parameters) PARAMETERS_SIZE = inr params;
  pi_bytes : bytes_ok params /\ (128 <= length params)%nat;
  pi_cwd : nul_free cwd /\ counted_string params 0x38 cwd;
  pi_image : nul_free image /\ counted_string params IMAGE_PATH_NAME image;
  pi_cmd : nul_free cmd /\ counted_string params COMMAND_LINE cmd }.

Lemma read_unicode_string_ok params off s :
  nul_free s -> counted_string params off s ->
  read_unicode_string pid (word_at params (off + 8)) (u16_field params off) = Ok s.
Proof.
  intros Hs [Hlen Hread]. unfold read_unicode_string. rewrite Hlen.
  destruct Hread as [->|[Hne Hread]]; [by rewrite orb_true_r|].
  replace (word_at params (off + 8) =? 0) with false by lia.
  destruct (Z.eqb_spec (2 * Z.of_nat (length (encode_utf16 s))) 0) as [E|E]; cbn [orb].
  - rewrite (encode_utf16_empty s Hs); [done|]. destruct (encode_utf16 s); [done|cbn [length] in E; lia].
  - unfold read_at. rewrite Hread. cbn [res_bind].
    destruct (text_units s (nul_free_text s Hs)) as [Hu Ht].
    rewrite half_bytes, units_of_bytes_of_units, firstn_all by done.
    rewrite (proj2 (position_none_lacks _ _)) by (by apply nul_free_units). cbn [default].
    by rewrite firstn_all, Ht.
Qed.

Lemma read_process_parameters_ok params cmd cwd image :
  process_image params cmd cwd image ->
  read_process_parameters pid = Ok (mkProcessParameters cmd cwd (image_path_from_str image)).
Proof.
  intros [(peb_addr & peb & Hq & Hpeb & Hparams) [Hok Hlen] [Hn1 H1] [Hn2 H2] [Hn3 H3]].
  unfold read_process_parameters, read_peb_address, read_at. rewrite Hq. cbn [res_bind]. rewrite Hpeb. cbn [res_bind].
  rewrite Hparams. cbn [res_bind].
  rewrite packed_length by (try done; unfold RESERVED2; lia).
  rewrite (read_unicode_string_ok params COMMAND_LINE cmd) by done. cbn [res_bind].
  rewrite (read_unicode_string_ok params IMAGE_PATH_NAME image) by done. cbn [res_bind].
  change (RESERVED2 + 8 * 6) with (0x38 + 8). change (RESERVED2 + 8 * 5) with 0x38.
  by rewrite (read_unicode_string_ok params 0x38 cwd).
Qed.

(** ** The environment *)

Definition env_entry (kv : str * str) : str := kv.1 ++ 61 :: kv.2.
Definition env_entry_ok (kv : str * str) : Prop := lacks 61 kv.1 /\ nul_free (env_entry kv).

(** An environment block as Windows keeps it. *)
Definition env_block (vars : list (str * str)) : list Z :=
  mjoin ((fun kv => encode_utf16 (env_entry kv) ++ [0]) <$> vars) ++ [0].

Lemma find_char_entry k v : lacks 61 k -> find_char 61 (k ++ 61 :: v) = Some (length k).
Proof.
  intros Hk. apply position_app_hit; [|done].
  eapply Forall_impl; [exact Hk|]. intros x Hx. cbn in Hx. lia.
Qed.

Lemma env_entry_units kv : env_entry_ok kv -> encode_utf16 (env_entry kv) <> [].
Proof.
  intros [_ Hn] E%encode_utf16_empty; [|done]. unfold env_entry in E. by destruct kv.1.
Qed.

Lemma position_zero_app us rest :
  Forall (fun u => u <> 0) us -> position (Z.eqb 0) (us ++ 0 :: rest) = Some (length us).
Proof.
  intros H. apply position_app_hit; [|done]. eapply Forall_impl; [exact H|]. intros u Hu. cbn in Hu. lia.
Qed.

Lemma env_loop_block vars rest fuel m :
  Forall env_entry_ok vars -> (length (env_block vars ++ rest) <= fuel)%nat ->
  env_loop fuel (env_block vars ++ rest) m = fold_left (fun m kv => <[kv.1 := kv.2]> m) vars m.
Proof.
  revert fuel m. induction vars as [|kv vars IH]; intros fuel m Hvs Hfuel.
  { by destruct fuel. }
  inversion_clear Hvs as [|? ? Hkv Hvs'].
  assert (Hb : env_block (kv :: vars) ++ rest = encode_utf16 (env_entry kv) ++ 0 :: (env_block vars ++ rest)).
  { unfold env_block. change (mjoin (?f <$> kv :: vars)) with (f kv ++ mjoin (f <$> vars)). by rewrite <- !app_assoc. }
  rewrite Hb in *. clear Hb. destruct fuel as [|fuel]; [rewrite length_app in Hfuel; simpl in Hfuel; lia|].
  pose proof (env_entry_units kv Hkv) as Hne. destruct Hkv as [Hk Hn].
  pose proof (nul_free_units _ Hn) as Hz. pose proof (proj2 (text_units _ (nul_free_text _ Hn))) as Ht.
  destruct (encode_utf16 (env_entry kv)) as [|u us] eqn:Eu; [done|].
  cbn [env_loop app]. change (u :: us ++ ?r) with ((u :: us) ++ r).
  rewrite position_zero_app by done. cbn [default id length Nat.eqb].
  change (S (length us)) with (length (u :: us)). rewrite take_app_length.
  rewrite Ht. unfold env_entry at 1. rewrite find_char_entry by done.
  unfold env_entry. rewrite take_app_length.
  replace (drop (length kv.1 + 1) (kv.1 ++ 61 :: kv.2)) with kv.2
    by (rewrite drop_app_add; done).
  rewrite drop_app_add. cbn [drop]. rewrite drop_0. cbn [fold_left]. apply IH; [done|].
  rewrite length_app in Hfuel. cbn [length] in Hfuel. lia.
Qed.

Lemma fold_insert_list_to_map (vars : list (str * str)) :
  fold_left (fun m kv => <[kv.1 := kv.2]> m) vars (∅ : gmap str str) = list_to_map (reverse vars).
Proof.
  unfold list_to_map, reverse. rewrite <- rev_alt. symmetry.
  apply (fold_left_rev_right (fun (kv : str * str) m => <[kv.1 := kv.2]> m)).
Qed.

Lemma read_environment_units addr us :
  addr <> 0 -> Forall is_unit us -> ReadProcessMemory addr 65536 = inr (bytes_of_units us) ->
  read_environment_block pid addr = Ok (parse_environment us).
Proof.
  intros Ha Hu Hr. unfold read_environment_block, read_at. replace (addr =? 0) with false by lia.
  rewrite Hr. cbn [res_bind]. by rewrite half_bytes, units_of_bytes_of_units, firstn_all.
Qed.

Lemma env_block_units vars rest :
  Forall env_entry_ok vars -> Forall is_unit rest -> Forall is_unit (env_block vars ++ rest).
Proof.
  intros Hv Hr. apply Forall_app_2; [|done]. apply Forall_app_2; [|repeat constructor; lia].
  induction Hv as [|kv vars [_ Hn] _ IH]; [done|].
  change (mjoin (?f <$> kv :: vars)) with (f kv ++ mjoin (f <$> vars)).
  apply Forall_app_2; [|done]. apply Forall_app_2; [by apply text_units, nul_free_text|repeat constructor; lia].
Qed.

(** One entry without [=] and then the end of the block: nothing is read. *)
Lemma env_loop_no_entry image rest :
  nul_free image -> lacks 61 image ->
  env_loop (length (encode_utf16 image ++ 0 :: 0 :: rest)) (encode_utf16 image ++ 0 :: 0 :: rest) ∅ = ∅.
Proof.
  intros Hn Hl. pose proof (proj2 (text_units image (nul_free_text image Hn))) as Ht.
  pose proof (nul_free_units _ Hn) as Hz.
  destruct (encode_utf16 image) as [|u us]; [done|].
  cbn [length app env_loop]. change (u :: us ++ ?r) with ((u :: us) ++ r).
  rewrite position_zero_app by done. cbn [default id length Nat.eqb].
  change (S (length us)) with (length (u :: us)). rewrite take_app_length, Ht.
  unfold find_char. rewrite (proj2 (position_none_lacks _ _)) by done.
  rewrite drop_app_add. rewrite length_app. cbn [length drop]. rewrite Nat.add_succ_r. done.
Qed.

(** An environment block of [KEY=VALUE] entries, each ended by a NUL and
    the last followed by another, is read as the map of its entries, a later
    entry replacing an earlier one with the same key, whatever follows the
    block in memory; values may contain [=]. *)
Theorem environment_block_round_trip addr vars rest :
  addr <> 0 -> Forall env_entry_ok vars -> Forall is_unit rest ->
  ReadProcessMemory addr 65536 = inr (bytes_of_units (env_block vars ++ rest)) ->
  read_environment_block pid addr = Ok (list_to_map (reverse vars)).
Proof.
  intros Ha Hv Hr Hm. rewrite (read_environment_units addr (env_block vars ++ rest)) by auto using env_block_units.
  unfold parse_environment. by rewrite env_loop_block, fold_insert_list_to_map.
Qed.

(** The parameters of a process whose memory holds the three strings as
    counted UTF-16 text at the documented offsets are read back: the command
    line, the current directory (from the reserved words, where its length is
    unpacked from a machine word) and the image path. *)
Theorem process_parameters_read params cmd dir image :
  process_image params cmd dir image ->
  read_process_parameters pid = Ok (mkProcessParameters cmd dir (image_path_from_str image)) /\
  peb_command_line pid = Ok cmd /\ cwd pid = Ok dir.
Proof.
  intros H. unfold peb_command_line, cwd. by rewrite (read_process_parameters_ok params cmd dir image H).
Qed.

(** [Process::environment] does not read the environment: the structure
    it declares puts the pointer where [ImagePathName.Buffer] is, so it parses
    the image path as an environment block, and for a process whose image path
    has no [=] and is followed by an empty string it answers that there are no
    variables, whatever the environment of the process is. *)
Theorem environment_reads_image_path params cmd dir image rest :
  process_image params cmd dir image -> lacks 61 image -> Forall is_unit rest ->
  ReadProcessMemory (word_at params (IMAGE_PATH_NAME + 8)) 65536 =
    inr (bytes_of_units (encode_utf16 image ++ 0 :: 0 :: rest)) ->
  environment pid = read_environment_block pid (word_at params (IMAGE_PATH_NAME + 8)) /\
  environment pid = Ok ∅.
Proof.
  intros [(peb_addr & peb & Hq & Hpeb & Hparams) _ _ [Hn _] _] Hl Hr Hm.
  assert (He : environment pid = read_environment_block pid (word_at params (IMAGE_PATH_NAME + 8))).
  { unfold environment, read_peb_address, read_at. rewrite Hq. cbn [res_bind]. rewrite Hpeb. cbn [res_bind].
    rewrite Hparams. done. }
  split; [done|]. rewrite He. clear He.
  destruct (Z.eqb_spec (word_at params (IMAGE_PATH_NAME + 8)) 0) as [->|Ha]; [done|].
  destruct (text_units image (nul_free_text image Hn)) as [Hu Ht].
  rewrite (read_environment_units _ (encode_utf16 image ++ 0 :: 0 :: rest));
    [|done|repeat first [done | apply Forall_app_2 | apply Forall_cons_2]; lia|done].
  f_equal. unfold parse_environment. by apply env_loop_no_entry.
Qed.
End Layout.

(** ** A concrete process *)

Module Demo.

Definition image : str := lit "C:\app.exe".
Definition cmd : str := lit "app -v".
Definition dir : str := lit "C:\".
Definition vars : list (str * str) := [(lit "PATH", lit "C:\a=b"); (lit "X", [])].

(** A parameters block of 128 bytes: the three counted strings, at 0x3000,
    0x4000 and 0x5000, and zeros. *)
Definition counted (s : str) (addr : Z) : list Z :=
  le_encode 2 (2 * Z.of_nat (length (encode_utf16 s))) ++ replicate 6 0 ++ le_encode 8 addr.
Definition params : list Z :=
  replicate 56 0 ++ counted dir 0x3000 ++ replicate 24 0 ++ counted image 0x4000 ++ counted cmd 0x5000.

Definition memory (addr size : Z) : win_error + list Z :=
  if addr =? 0x1000 then inr (replicate 32 0 ++ le_encode 8 0x2000)
  else if addr =? 0x2000 then inr params
  else if addr =? 0x3000 then inr (bytes_of_units (encode_utf16 dir))
  else if addr =? 0x4000 then
    inr (if size =? 65536 then bytes_of_units (encode_utf16 image ++ 0 :: 0 :: []) else bytes_of_units (encode_utf16 image))
  else if addr =? 0x5000 then inr (bytes_of_units (encode_utf16 cmd))
  else inr (bytes_of_units (env_block vars ++ [])).

Definition demo_api : peb_api :=
  {| PEB_SIZE := 40; PARAMETERS_SIZE := 128; off_process_parameters := 32;
     QueryPebAddress := inr 0x1000; ReadProcessMemory := memory |}.

Lemma demo_image : @process_image demo_api params cmd dir image.
Proof.
  split.
  - exists 0x1000, (replicate 32 0 ++ le_encode 8 0x2000). vm_compute. done.
  - split; [apply (bool_decide_unpack _); vm_compute; exact I | vm_compute; lia].
  - split; [ascii_text dir|]. split; [reflexivity|right; split; [done|reflexivity]].
  - split; [ascii_text image|]. split; [reflexivity|right; split; [done|reflexivity]].
  - split; [ascii_text cmd|]. split; [reflexivity|right; split; [done|reflexivity]].
Qed.
End Demo.

Lemma process_parameters_read_witness : @cwd Demo.demo_api 7 = Ok (lit "C:\").
Proof. apply (@process_parameters_read Demo.demo_api 7 Demo.params Demo.cmd Demo.dir Demo.image Demo.demo_image). Defined.

Lemma environment_reads_image_path_witness : @environment Demo.demo_api 7 = Ok ∅.
Proof.
  apply (@environment_reads_image_path Demo.demo_api 7 Demo.params Demo.cmd Demo.dir Demo.image []).
  - exact Demo.demo_image.
  - apply (bool_decide_unpack _). vm_compute. exact I.
  - apply Forall_nil_2.
  - reflexivity.
Defined.

Lemma environment_block_round_trip_witness :
  @read_environment_block Demo.demo_api 7 0x6000 = Ok {[lit "PATH" := lit "C:\a=b"; lit "X" := []]}.
Proof.
  rewrite (@environment_block_round_trip Demo.demo_api 7 0x6000 Demo.vars []).
  - vm_compute. reflexivity.
  - done.
  - apply Forall_cons_2; [|apply Forall_cons_2; [|apply Forall_nil_2]];
      (split; [apply (bool_decide_unpack _); vm_compute; exact I|]).
    + ascii_text (lit "PATH=C:\a=b").
    + ascii_text (lit "X=").
  - apply Forall_nil_2.
  - reflexivity.
Defined.
