(* ===== verification/ProcOps.v ===== *)
(** * ProcOps: operations on a process

    src/process/processes.rs, modules.rs, threads.rs, memory.rs and the
    counters of metrics.rs.  The machine is paired with the device map cache
    of src/path/mod.rs, which [Process::path] uses.  A buffer of the unsafe
    code is its length, its capacity and whether it still is the allocation
    that earlier slices point into. *)

From Stdlib Require Import ZArith Lia String Ascii.
From stdpp Require Import base list strings gmap numbers sorting.
From S2P Require Import Prelude Text Unicode Errors Effects Resources NtPath ImagePath Wait.

Open Scope Z_scope.

Definition STILL_ACTIVE : Z := 259.

Record Process := mkProcess { p_handle : Z; p_pid : Z; p_close_on_drop : bool }.

(** [ProcessOpenError::new] and [with_code]. *)
Definition process_failed (pid : Z) (reason : string) (code : option Z) : Error :=
  Error_Process (ProcessError_OpenFailed (mkProcessOpenError pid (lit reason) code)).

Record counters := mkCounters {
  WorkingSetSize : Z; PeakWorkingSetSize : Z; PageFaultCount : Z; PrivateUsage : Z;
  PagefileUsage : Z; PeakPagefileUsage : Z }.

(** A [FILETIME]: its low and its high word. *)
Record FILETIME := mkFILETIME { dwLowDateTime : Z; dwHighDateTime : Z }.

Record thread_entry := mk_thread_entry { th_tid : Z; th_owner : Z; th_priority : Z }.

(** The Windows calls.  [EnumProcessModules] gives the handles of all modules:
    it writes as many as fit and reports the size of all of them. *)
Class process_api (W : Type) := {
  OpenProcess : W -> Z -> Z -> (win_error + Z) * W;
  GetCurrentProcess : Z;
  current_pid : Z;
  GetProcessImageFileNameW : W -> Z -> Z -> list Z;
  dos_names : W -> dos_devices;
  system_root : W -> option str;
  GetExitCodeProcess : W -> Z -> win_error + Z;
  TerminateProcess : W -> Z -> Z -> option win_error * W;
  EnumProcessModules : W -> Z -> (win_error + list Z) * W;
  GetModuleBaseNameW : W -> Z -> Z -> Z -> list Z;
  GetModuleFileNameExW : W -> Z -> Z -> Z -> list Z;
  GetModuleInformation : W -> Z -> Z -> option (Z * Z);
  ThreadSnapshot : W -> (win_error + (Z * list thread_entry)) * W;
  GetProcessMemoryInfo : W -> Z -> win_error + counters;
  GetProcessTimes : W -> Z -> win_error + (FILETIME * FILETIME) (** kernel, user *) }.

Section Ops.
Context {W : Type} `{ho : !handle_api} `{api : !process_api W} `{wapi : !wait_api W} `{low : !unicode_lowercase}.

Abbreviation St := (proc_st (W * option device_map)).
Abbreviation P := (eff (proc_st (W * option device_map)) Error).

(** ** Opening and closing *)

Definition open_with_access (pid : Z) (access : ProcessAccess) : P Process :=
  let* h := open_handle (fun '(w, c) => let '(r, w) := OpenProcess w (process_access_to_windows access) pid in (r, (w, c)))
              (fun e => process_failed pid "Failed to open process" (Some (win_error_code e))) in
  eff_ret (mkProcess h pid true).
Definition process_open (pid : Z) : P Process := open_with_access pid QueryInformation.
Definition process_current : Process := mkProcess GetCurrentProcess current_pid false.
Definition with_access (self : Process) (access : ProcessAccess) : P Process :=
  open_with_access (p_pid self) access.
Definition as_wait (self : Process) : Wait := from_handle_borrowed (p_handle self).

Definition drop_process (self : Process) (s : St) : St :=
  if p_close_on_drop self then release (ResHandle (p_handle self)) s else s.

(** ** The image path *)

Definition process_path (self : Process) : P str := fun s =>
  let '(w, cache) := pmach s in
  let buffer := GetProcessImageFileNameW w (p_handle self) 512 in
  if (length buffer =? 0)%nat
  then (Err (process_failed (p_pid self) "Failed to get process image path" None), s)
  else if 512 <? zlen buffer then (Panic IndexOutOfBounds, s)
  else
    let nt_path := from_utf16_lossy buffer in
    let '(cache, found, dos_path) := nt_path_to_dos_into (dos_names w) (system_root w) cache nt_path [] in
    (Ok (if found then dos_path else nt_path), at_machine (w, cache) s).

(** ** Exit *)

Definition get_exit_code_value (self : Process) : P Z := fun s =>
  match GetExitCodeProcess (fst (pmach s)) (p_handle self) with
  | inl e => (Err (process_failed (p_pid self) "Failed to get exit code" (Some (win_error_code e))), s)
  | inr code => (Ok code, s)
  end.

Definition exit_code (self : Process) : P (option Z) :=
  let* code := get_exit_code_value self in
  eff_ret (if code =? STILL_ACTIVE then None else Some code).

Definition is_running (self : Process) : P bool :=
  let* code := exit_code self in
  eff_ret match code with Some _ => false | None => true end.

(** [WaitForSingleObject] of [Wait] on this state. *)
Definition wait_single (self : Process) (ms : Z) : P Z := fun s =>
  let '(w, cache) := pmach s in
  let '(r, w) := WaitForSingleObject w (p_handle self) ms in (Ok r, at_machine (w, cache) s).

Definition exited (self : Process) : P Z :=
  let* code := get_exit_code_value self in
  if code =? STILL_ACTIVE
  then eff_fail (process_failed (p_pid self) "Process wait completed but exit code is still active" None)
  else eff_ret code.

Definition wait_for_exit (self : Process) : P Z :=
  let* r := wait_single self u32_max in
  if r =? WAIT_OBJECT_0 then exited self
  else if r =? WAIT_FAILED
  then eff_fail (process_failed (p_pid self) "Failed to wait for process exit" None)
  else eff_fail (process_failed (p_pid self) "Unexpected wait result while waiting for process exit" None).

Definition wait_for_exit_timeout (self : Process) (timeout : Z) : P (option Z) :=
  let* r := wait_single self (duration_to_wait_ms timeout) in
  if r =? WAIT_TIMEOUT then eff_ret None
  else if r =? WAIT_OBJECT_0 then (let* code := exited self in eff_ret (Some code))
  else if r =? WAIT_FAILED
  then eff_fail (process_failed (p_pid self) "Failed to wait for process exit with timeout" None)
  else eff_fail (process_failed (p_pid self) "Unexpected wait result while waiting for process exit" None).

Definition terminate (self : Process) (code : Z) : P unit := fun s =>
  let '(w, cache) := pmach s in
  match TerminateProcess w (p_handle self) code with
  | (None, w) => (Ok tt, at_machine (w, cache) s)
  | (Some e, w) => (Err (process_failed (p_pid self) "Failed to terminate process" (Some (win_error_code e))),
                    at_machine (w, cache) s)
  end.
Definition kill (self : Process) : P unit := terminate self 1.

(** ** Threads *)

Record ThreadInfo := mkThreadInfo { ti_tid : Z; ti_pid : Z; ti_base_priority : Z }.

(** The loop over the entries that [Thread32First] and [Thread32Next] gave. *)
Fixpoint threads_loop (pid : Z) (filter : ThreadInfo -> bool) (entries : list thread_entry)
    (out_threads : list ThreadInfo) : list ThreadInfo :=
  match entries with
  | [] => out_threads
  | e :: entries =>
      let info := mkThreadInfo (th_tid e) (th_owner e) (th_priority e) in
      threads_loop pid filter entries
        (if (th_owner e =? pid) && filter info then out_threads ++ [info] else out_threads)
  end.

(** The snapshot handle is closed before the function returns. *)
Definition threads_with_filter (self : Process) (filter : ThreadInfo -> bool) : P (list ThreadInfo) :=
  let* snapshot := acquiring (fun '(w, c) => let '(r, w) := ThreadSnapshot w in (r, (w, c)))
                     (fun x => [ResHandle (fst x)])
                     (fun e => process_failed (p_pid self) "Failed to create thread snapshot" (Some (win_error_code e))) in
  fun s => (Ok (threads_loop (p_pid self) filter (snd snapshot) []), release (ResHandle (fst snapshot)) s).
Definition threads (self : Process) : P (list ThreadInfo) := threads_with_filter self (fun _ => true).

(** ** Counters *)

Record MemoryInfo := mkMemoryInfo { mi_working_set : Z; mi_peak_working_set : Z; mi_page_fault_count : Z }.
Record ProcessMemoryMetrics := mkProcessMemoryMetrics {
  mm_working_set_bytes : Z; mm_peak_working_set_bytes : Z; mm_page_fault_count : Z;
  mm_private_usage_bytes : Z; mm_commit_usage_bytes : Z; mm_peak_commit_usage_bytes : Z }.
Record ProcessCpuTimes := mkProcessCpuTimes {
  ct_user_time_100ns : Z; ct_kernel_time_100ns : Z; ct_total_time_100ns : Z }.
Record ProcessMetrics := mkProcessMetrics { pm_memory : ProcessMemoryMetrics; pm_cpu : ProcessCpuTimes }.

Definition memory_info (self : Process) : P MemoryInfo := fun s =>
  match GetProcessMemoryInfo (fst (pmach s)) (p_handle self) with
  | inl e => (Err (process_failed (p_pid self) "Failed to get process memory info" (Some (win_error_code e))), s)
  | inr c => (Ok (mkMemoryInfo (WorkingSetSize c) (PeakWorkingSetSize c) (PageFaultCount c)), s)
  end.

Definition memory_metrics (self : Process) : P ProcessMemoryMetrics := fun s =>
  match GetProcessMemoryInfo (fst (pmach s)) (p_handle self) with
  | inl e => (Err (process_failed (p_pid self) "Failed to get process memory metrics" (Some (win_error_code e))), s)
  | inr c => (Ok (mkProcessMemoryMetrics (WorkingSetSize c) (PeakWorkingSetSize c) (PageFaultCount c)
                    (PrivateUsage c) (PagefileUsage c) (PeakPagefileUsage c)), s)
  end.

Definition filetime_to_u64_100ns (t : FILETIME) : Z :=
  Z.lor (Z.shiftl (dwHighDateTime t) 32) (dwLowDateTime t).

(** [saturating_add] on a [u64]. *)
Definition sat_add_u64 (a b : Z) : Z := Z.min (a + b) u64_max.

Definition cpu_times (self : Process) : P ProcessCpuTimes := fun s =>
  match GetProcessTimes (fst (pmach s)) (p_handle self) with
  | inl e => (Err (process_failed (p_pid self) "Failed to get process CPU times" (Some (win_error_code e))), s)
  | inr (kernel_time, user_time) =>
      let kernel := filetime_to_u64_100ns kernel_time in
      let user := filetime_to_u64_100ns user_time in
      (Ok (mkProcessCpuTimes user kernel (sat_add_u64 kernel user)), s)
  end.

Definition metrics (self : Process) : P ProcessMetrics :=
  let* memory := memory_metrics self in
  let* cpu := cpu_times self in
  eff_ret (mkProcessMetrics memory cpu).
End Ops.

(** ** Vectors of unsafe code *)

(** The length and the capacity of a [Vec<u8>], and how often it was moved to
    a new allocation. *)
Record vec := mkVec { v_len : Z; v_cap : Z; v_moves : nat }.

(** [Vec::reserve(additional)] does nothing when there is room for
    [additional] more elements than the length; otherwise the vector is moved
    to an allocation of at least that size, [grow] of the capacity and the
    size needed. *)
Class vec_growth := { grow : Z -> Z -> Z }.
Class growth_law `{vec_growth} : Prop := { grow_enough : forall cap need, need <= grow cap need }.

Section Vec.
Context `{vg : vec_growth}.

Definition vec_reserve (v : vec) (additional : Z) : vec :=
  if v_cap v - v_len v <? additional
  then mkVec (v_len v) (grow (v_cap v) (v_len v + additional)) (S (v_moves v))
  else v.
Definition vec_clear (v : vec) : vec := mkVec 0 (v_cap v) (v_moves v).
(** [unsafe set_len]: its contract is [n <= capacity]. *)
Definition vec_set_len {E} (v : vec) (n : Z) : res E vec :=
  if n <=? v_cap v then Ok (mkVec n (v_cap v) (v_moves v)) else Panic UndefinedBehaviour.
Definition vec_with_capacity (n : Z) : vec := mkVec 0 n 0.
End Vec.

(** ** Modules *)

Record ModuleInfo := mkModuleInfo { mo_name : str; mo_path : ImagePath; mo_base_address : Z; mo_size : Z }.

Section Modules.
Context {W : Type} `{ho : !handle_api} `{api : !process_api W} `{low : !unicode_lowercase} `{vg : !vec_growth}.

Abbreviation P := (eff (proc_st (W * option device_map)) Error).

(** The three places that size the work buffer. *)
Definition buffer_for_handles (v : vec) : res Error vec :=
  let v := if v_cap v <? 8192 then vec_reserve v (8192 - v_cap v) else v in
  vec_set_len v 8192.

Definition buffer_resize (v : vec) (bytes_needed : Z) : res Error vec :=
  if v_len v <? bytes_needed then
    let v := vec_clear v in
    let v := if v_cap v <? bytes_needed then vec_reserve v (bytes_needed - v_cap v) else v in
    vec_set_len v bytes_needed
  else Ok v.

Definition buffer_for_strings (v : vec) (string_buffer_start : Z) : res Error vec :=
  if v_len v <? string_buffer_start + 2048 then
    let needed := string_buffer_start + 2048 in
    let v := if v_cap v <? needed then vec_reserve v (needed - v_cap v) else v in
    vec_set_len v needed
  else Ok v.

(** One module: [None] when it has no name.  [room] is the length of the
    string buffer in units. *)
Definition module_info (w : W) (h room hmodule : Z) : res Error (option ModuleInfo) :=
  let name_units := GetModuleBaseNameW w h hmodule room in
  if (length name_units =? 0)%nat then Ok None
  else if room <? zlen name_units then Panic IndexOutOfBounds
  else
    let name := from_utf16_lossy name_units in
    let path_units := GetModuleFileNameExW w h hmodule room in
    let! path := (if (0 <? length path_units)%nat
                  then if room <? zlen path_units then Panic IndexOutOfBounds
                       else Ok (image_path_from_utf16 path_units)
                  else Ok (image_path_from_str name)) in
    let '(base_address, size) := default (0, 0) (GetModuleInformation w h hmodule) in
    Ok (Some (mkModuleInfo name path base_address size)).

Fixpoint modules_loop (w : W) (h room : Z) (filter : ModuleInfo -> bool) (handles : list Z)
    (out_modules : list ModuleInfo) : res Error (list ModuleInfo) :=
  match handles with
  | [] => Ok out_modules
  | hmodule :: handles =>
      let! info := module_info w h room hmodule in
      modules_loop w h room filter handles
        match info with
        | Some i => if filter i then out_modules ++ [i] else out_modules
        | None => out_modules
        end
  end.

Definition enum_modules (self : Process) (reason : string) : P (list Z) := fun s =>
  let '(w, cache) := pmach s in
  match EnumProcessModules w (p_handle self) with
  | (inl e, w) => (Err (process_failed (p_pid self) reason (Some (win_error_code e))), at_machine (w, cache) s)
  | (inr handles, w) => (Ok handles, at_machine (w, cache) s)
  end.

(** [modules_with_filter_impl].  The slice of handles points into the buffer:
    reading it is undefined when the kernel has not written that many, or
    when the buffer was moved since. *)
Definition modules_with_filter_impl (self : Process) (work_buffer : vec) (filter : ModuleInfo -> bool)
    : P (list ModuleInfo) :=
  let* v := eff_lift (buffer_for_handles work_buffer) in
  let* first := enum_modules self "Failed to enumerate modules (first call)" in
  let* v := eff_lift (buffer_resize v (8 * zlen first)) in
  let* module_handles := enum_modules self "Failed to enumerate modules (second call)" in
  let bytes_needed := 8 * zlen module_handles in
  let* v' := eff_lift (buffer_for_strings v bytes_needed) in
  let string_buffer_len := (v_len v' - bytes_needed) / 2 in
  if (0 <? zlen module_handles) && ((v_len v <? bytes_needed) || negb (v_moves v' =? v_moves v)%nat)
  then eff_lift (Panic UndefinedBehaviour)
  else fun s =>
    (modules_loop (fst (pmach s)) (p_handle self) string_buffer_len filter module_handles [], s).

Definition modules (self : Process) : P (list ModuleInfo) :=
  modules_with_filter_impl self (vec_with_capacity 8192) (fun _ => true).
Definition modules_with_filter (self : Process) (work_buffer : vec) (filter : ModuleInfo -> bool)
    : P (list ModuleInfo) := modules_with_filter_impl self work_buffer filter.

(** What the loop collects. *)
Definition found_modules (w : W) (h room : Z) (filter : ModuleInfo -> bool) (handles : list Z) : list ModuleInfo :=
  base.filter (fun i => filter i = true)
    (omap (fun hm => match module_info w h room hm with Ok o => o | _ => None end) handles).

Lemma modules_loop_spec w h room filter handles out :
  (forall hm, zlen (GetModuleBaseNameW w h hm room) <= room) ->
  (forall hm, zlen (GetModuleFileNameExW w h hm room) <= room) ->
  modules_loop w h room filter handles out = Ok (out ++ found_modules w h room filter handles).
Proof.
  intros Hn Hp. revert out. induction handles as [|hm handles IH]; intros out; [by rewrite app_nil_r|].
  assert (exists o, module_info w h room hm = Ok o) as [o Ho].
  { unfold module_info. destruct (length _ =? 0)%nat; [by eexists|].
    replace (room <? zlen (GetModuleBaseNameW w h hm room)) with false by (specialize (Hn hm); lia).
    replace (room <? zlen (GetModuleFileNameExW w h hm room)) with false by (specialize (Hp hm); lia).
    destruct (0 <? length _)%nat; cbn [res_bind]; destruct (default (0, 0) _); by eexists. }
  cbn [modules_loop]. rewrite Ho. cbn [res_bind]. rewrite IH. f_equal.
  unfold found_modules. cbn [omap list_omap]. rewrite Ho. destruct o as [i|]; [|done].
  rewrite filter_cons. destruct (filter i); [|done]. by rewrite <- app_assoc.
Qed.

(** Listing the modules of a process is right up to 768 modules and
    undefined behaviour above: with its own 8192-byte buffer, on a process
    whose module list does not change between the two calls, [modules] returns
    the named modules in order when there are at most 768; with 769 to 1024 the
    buffer is moved while the slice of handles still points into the old one,
    and with 1025 to 2048 [reserve] is given the difference to the capacity
    instead of to the length, so [set_len] goes past the allocation. *)
Theorem modules_up_to_768 `{!growth_law} (self : Process) (s : proc_st (W * option device_map)) handles
    (room := (8192 - 8 * zlen handles) / 2) :
  EnumProcessModules (fst (pmach s)) (p_handle self) = (inr handles, fst (pmach s)) ->
  (forall hm, zlen (GetModuleBaseNameW (fst (pmach s)) (p_handle self) hm room) <= room) ->
  (forall hm, zlen (GetModuleFileNameExW (fst (pmach s)) (p_handle self) hm room) <= room) ->
  (zlen handles <= 768 ->
     modules self s = (Ok (found_modules (fst (pmach s)) (p_handle self) room (fun _ => true) handles), s)) /\
  (768 < zlen handles <= 2048 -> (modules self s).1 = Panic UndefinedBehaviour).
Proof.
  intros He Hn Hp. destruct s as [[w cache] hd]. cbn [pmach fst] in *.
  assert (Henum : forall r, enum_modules self r (mkProcSt (w, cache) hd) = (Ok handles, mkProcSt (w, cache) hd))
    by (intros r; unfold enum_modules; cbn [pmach]; by rewrite He).
  unfold modules, modules_with_filter_impl.
  assert (Hb : buffer_for_handles (vec_with_capacity 8192) = Ok (mkVec 8192 8192 0)) by reflexivity.
  rewrite Hb. cbv beta iota zeta delta [eff_bind eff_lift]. rewrite Henum. cbv beta iota zeta.
  unfold buffer_resize. cbn [v_len v_cap]. split.
  - intros Hle. replace (8192 <? 8 * zlen handles) with false by lia. rewrite Henum.
    unfold buffer_for_strings. cbn [v_len v_cap]. replace (8192 <? 8 * zlen handles + 2048) with false by lia.
    cbn [v_len v_moves]. replace (8192 <? 8 * zlen handles) with false by lia. rewrite andb_false_r.
    by rewrite modules_loop_spec.
  - intros [Hgt Hle]. destruct (Z.ltb_spec 8192 (8 * zlen handles)) as [Hbig|Hsmall].
    + unfold vec_clear, vec_reserve. cbn [v_len v_cap v_moves].
      replace (8192 <? 8 * zlen handles) with true by lia.
      replace (8192 - 0 <? 8 * zlen handles - 8192) with false by lia.
      unfold vec_set_len. cbn [v_cap]. by replace (8 * zlen handles <=? 8192) with false by lia.
    + rewrite Henum. unfold buffer_for_strings, vec_reserve. cbn [v_len v_cap v_moves].
      replace (8192 <? 8 * zlen handles + 2048) with true by lia.
      replace (8192 - 8192 <? 8 * zlen handles + 2048 - 8192) with true by lia.
      unfold vec_set_len. cbn [v_cap v_moves].
      pose proof (grow_enough 8192 (8192 + (8 * zlen handles + 2048 - 8192))) as Hg.
      replace (8 * zlen handles + 2048 <=? grow _ _) with true by lia.
      cbn [v_moves v_len]. replace (0 <? zlen handles) with true by lia. by rewrite orb_true_r.
Qed.
End Modules.

(** ** Threads and exit codes *)

Section Spec.
Context {W : Type} `{ho : !handle_api} `{api : !process_api W} `{wapi : !wait_api W}.

Lemma threads_loop_app pid filter entries out :
  threads_loop pid filter entries out =
  out ++ base.filter (fun i => ti_pid i = pid /\ filter i = true)
           ((fun e => mkThreadInfo (th_tid e) (th_owner e) (th_priority e)) <$> entries).
Proof.
  revert out. induction entries as [|e entries IH]; intros out; [by rewrite app_nil_r|].
  cbn [threads_loop]. rewrite IH, fmap_cons, filter_cons. cbn [ti_pid].
  destruct (Z.eqb_spec (th_owner e) pid) as [Ho|Ho]; cbn [andb].
  - destruct (filter _) eqn:Ef; [rewrite decide_True by done; by rewrite <- app_assoc|].
    rewrite decide_False; [done|]. intros [_ ?]. congruence.
  - rewrite decide_False; [done|]. by intros [? _].
Qed.

(** [threads_with_filter] returns, in snapshot order, exactly the threads
    whose owner is the process and that pass the filter, and holds nothing
    afterwards: the snapshot handle is closed on the only path that opened
    it. *)
Theorem threads_with_filter_spec (self : Process) (filter : ThreadInfo -> bool) :
  owns (W := W * option device_map) (threads_with_filter self filter) (fun _ => []) /\
  forall s h entries w, ThreadSnapshot (fst (pmach s)) = (inr (h, entries), w) ->
    (threads_with_filter self filter s).1 =
    Ok (base.filter (fun i => ti_pid i = p_pid self /\ filter i = true)
          ((fun e => mkThreadInfo (th_tid e) (th_owner e) (th_priority e)) <$> entries)).
Proof.
  split.
  - eapply owns_bind; [apply owns_acquiring|]. intros x s0 s Hs. by apply gained_release.
  - intros [[w0 c] hd] h entries w Hs. cbn in Hs. unfold threads_with_filter, acquiring, eff_bind. cbn [pmach].
    rewrite Hs. cbn [fst snd]. by rewrite threads_loop_app.
Qed.

(** Exit codes: for a process that has exited with [code],
    [wait_for_exit] returns the code, [exit_code] reports it and [is_running]
    is false, except for the code 259, which all three take for a process that
    is still running: [is_running] answers true for ever and [wait_for_exit]
    fails after a successful wait. *)
Theorem exit_code_259 (self : Process) (s : proc_st (W * option device_map)) code w' :
  WaitForSingleObject (fst (pmach s)) (p_handle self) u32_max = (WAIT_OBJECT_0, w') ->
  GetExitCodeProcess (fst (pmach s)) (p_handle self) = inr code ->
  GetExitCodeProcess w' (p_handle self) = inr code ->
  (exit_code self s).1 = Ok (if decide (code = 259) then None else Some code) /\
  (is_running self s).1 = Ok (bool_decide (code = 259)) /\
  (wait_for_exit self s).1 =
    if decide (code = 259)
    then Err (process_failed (p_pid self) "Process wait completed but exit code is still active" None)
    else Ok code.
Proof.
  intros Hw Hc Hc'. destruct s as [[w c] hd]. cbn [pmach fst] in *.
  assert (Hv : forall w0, GetExitCodeProcess w0 (p_handle self) = inr code ->
    get_exit_code_value self (mkProcSt (w0, c) hd) = (Ok code, mkProcSt (w0, c) hd))
    by (intros w0 E; unfold get_exit_code_value; cbn [pmach fst]; by rewrite E).
  assert (Hs : wait_single self u32_max (mkProcSt (w, c) hd) = (Ok WAIT_OBJECT_0, mkProcSt (w', c) hd))
    by (unfold wait_single; cbn [pmach]; by rewrite Hw).
  unfold is_running, exit_code, wait_for_exit. rewrite (eff_bind_step _ _ _ _ _ Hs).
  change (WAIT_OBJECT_0 =? WAIT_OBJECT_0) with true. cbv iota. unfold exited.
  rewrite (eff_bind_step _ _ _ _ _ (Hv w' Hc')), (eff_bind_step _ _ _ _ _ (Hv w Hc)).
  unfold eff_bind. rewrite (Hv w Hc). unfold STILL_ACTIVE. destruct (Z.eqb_spec code 259) as [->|Hne]; [done|].
  rewrite !decide_False, bool_decide_false by done. done.
Qed.
End Spec.

(** ** A concrete machine *)

Definition demo_process (n : nat) (code : Z) : process_api unit := {|
  OpenProcess w a p := (inr 40, w);
  GetCurrentProcess := -1;
  current_pid := 8;
  GetProcessImageFileNameW w h n := encode_utf16 (lit "\Device\HarddiskVolume1\a.exe");
  dos_names w d := if d =? 67 then encode_utf16 (lit "\Device\HarddiskVolume1") ++ [0] else [];
  system_root w := None;
  GetExitCodeProcess w h := inr code;
  TerminateProcess w h c := (None, w);
  EnumProcessModules w h := (inr (Z.of_nat <$> seq 1 n), w);
  GetModuleBaseNameW w h m room := take (Z.to_nat room) (encode_utf16 (lit "a.dll"));
  GetModuleFileNameExW w h m room := take (Z.to_nat room) (encode_utf16 (lit "c:\windows\system32\NTDLL.dll"));
  GetModuleInformation w h m := Some (4096 * m, 512);
  ThreadSnapshot w := (inr (77, [mk_thread_entry 1 8 0; mk_thread_entry 2 9 0; mk_thread_entry 3 8 2]), w);
  GetProcessMemoryInfo w h := inr (mkCounters 1 2 3 4 5 6);
  GetProcessTimes w h := inr (mkFILETIME 1 0, mkFILETIME 2 0) |}.

Definition demo_wait : wait_api unit := {|
  last_error w := 0;
  CreateEventW w m i n := (Some 5, w);
  SetEvent w h := (true, w);
  ResetEvent w h := (true, w);
  WaitForSingleObject w h ms := (WAIT_OBJECT_0, w);
  WaitForMultipleObjects w hs all ms := (WAIT_OBJECT_0, w) |}.

Definition demo_growth : vec_growth := {| grow cap need := Z.max (2 * cap) need |}.
Lemma demo_growth_law : @growth_law demo_growth.
Proof. split. intros cap need. cbn. lia. Qed.

Definition demo_state : proc_st (unit * option device_map) := mkProcSt (tt, None) (fun _ => 0).
Definition demo_self : Process := mkProcess 40 8 true.

Lemma modules_up_to_768_witness :
  (modules (api := demo_process 2 0) (low := ascii_lowercase) (vg := demo_growth) demo_self demo_state).1 =
    Ok [mkModuleInfo (lit "a.dll") (ImagePath_Cached (lit "C:\Windows\System32\ntdll.dll")) 4096 512;
        mkModuleInfo (lit "a.dll") (ImagePath_Cached (lit "C:\Windows\System32\ntdll.dll")) 8192 512] /\
  (modules (api := demo_process 800 0) (low := ascii_lowercase) (vg := demo_growth) demo_self demo_state).1 =
    Panic UndefinedBehaviour.
Proof.
  split.
  - rewrite (proj1 (modules_up_to_768 (api := demo_process 2 0) (low := ascii_lowercase) (vg := demo_growth)
      (H := demo_growth_law) demo_self demo_state [1; 2] eq_refl
      ltac:(intros; vm_compute; discriminate) ltac:(intros; vm_compute; discriminate)) ltac:(vm_compute; discriminate)).
    vm_compute. reflexivity.
  - apply (proj2 (modules_up_to_768 (api := demo_process 800 0) (low := ascii_lowercase) (vg := demo_growth)
      (H := demo_growth_law) demo_self demo_state (Z.of_nat <$> seq 1 800) eq_refl
      ltac:(intros; vm_compute; discriminate) ltac:(intros; vm_compute; discriminate))).
    vm_compute. split; [reflexivity|discriminate].
Defined.

Lemma threads_with_filter_spec_witness :
  (threads_with_filter (api := demo_process 2 0) demo_self (fun _ => true) demo_state).1 =
  Ok [mkThreadInfo 1 8 0; mkThreadInfo 3 8 2].
Proof.
  rewrite (proj2 (threads_with_filter_spec (api := demo_process 2 0) demo_self (fun _ => true)) demo_state 77
    [mk_thread_entry 1 8 0; mk_thread_entry 2 9 0; mk_thread_entry 3 8 2] tt eq_refl).
  vm_compute. reflexivity.
Defined.

Lemma exit_code_259_witness :
  (is_running (api := demo_process 2 259) demo_self demo_state).1 = Ok true /\
  (exit_code (api := demo_process 2 3) demo_self demo_state).1 = Ok (Some 3).
Proof.
  split.
  - apply (exit_code_259 (api := demo_process 2 259) (wapi := demo_wait) demo_self demo_state 259 tt eq_refl eq_refl eq_refl).
  - apply (exit_code_259 (api := demo_process 2 3) (wapi := demo_wait) demo_self demo_state 3 tt eq_refl eq_refl eq_refl).
Defined.
