(* ===== verification/IoError.v ===== *)
(** * IoError: [io::Error] and Windows errors

    src/utils/io.rs: the conversion of a Windows error to an [io::Error] and
    the classification of failed pipe reads. *)

From Stdlib Require Import ZArith Lia String Ascii.
From stdpp Require Import base list strings gmap numbers sorting.
From S2P Require Import Prelude Text Errors.

Open Scope Z_scope.

(** [io::Error], by how it was made. *)

Inductive io_error :=
  | IoOs (code : Z)           (** [from_raw_os_error] *)
  | IoOther (e : win_error)   (** [io::Error::other] of a windows error *)
  | IoMessage (text : str)    (** [io::Error::other] of a text *)
  | IoWrapped (e : Error)     (** [io::Error::other] of an error of the crate *)
  | IoTimedOut (text : str)
  | IoInvalidData (text : str)
  | IoBrokenPipe.

Definition WIN32_HRESULT_MASK : Z := 0xFFFF0000.
Definition WIN32_HRESULT_PREFIX : Z := 0x80070000.

(** [HRESULT::from_win32] of a failure. *)
Definition hresult_from_win32 (code : Z) : Z := as_i32 (WIN32_HRESULT_PREFIX + code).

Definition win32_code (err : win_error) : option Z :=
  let hresult := wrap 32 (win_error_code err) in
  if Z.land hresult WIN32_HRESULT_MASK =? WIN32_HRESULT_PREFIX then Some (Z.land hresult 0xFFFF) else None.

Definition win_to_io_error (err : win_error) : io_error :=
  match win32_code err with Some code => IoOs code | None => IoOther err end.

Inductive PipeReadError := EndOfStream | MoreData | ReadFailed (e : io_error).

Definition classify_pipe_read_error (err : win_error) : PipeReadError :=
  match win32_code err with
  | Some code =>
      if (code =? 109) || (code =? 233) then EndOfStream
      else if code =? 234 then MoreData
      else ReadFailed (win_to_io_error err)
  | None => ReadFailed (win_to_io_error err)
  end.
