(* ===== verification/Pipes.v ===== *)
(** * Pipes: names, errors and clients

    src/pipes/types.rs, error_map.rs, security_attrs.rs, client.rs and
    anonymous.rs.  The Windows calls are the class
    [pipe_api]; the state is that of [Resources], where a converted security
    descriptor is a resource of its own. *)

From Stdlib Require Import ZArith Lia String Ascii.
From stdpp Require Import base list strings gmap numbers sorting.
From S2P Require Import Prelude Text Unicode Errors Sid Acl Sddl Backends Effects Resources EvtTypes Wait IoError.

Open Scope Z_scope.

(** ** Names *)

Record PipeName := mkPipeName { pipe_str : str }.

#[export] Instance PipeName_eq_dec : EqDecision PipeName.
Proof. solve_decision. Defined.
#[export] Instance PipeName_countable : Countable PipeName.
Proof. refine (inj_countable' pipe_str mkPipeName _). by intros []. Defined.

Definition PREFIX : str := lit "\\.\pipe\".

Definition bad_path (reason : string) : Error :=
  Error_InvalidParameter (mkInvalidParameterError (lit "path") (lit reason)).

(** [PipeName::new]. *)
Definition pipe_name_new (path : str) : res Error PipeName :=
  if decide (path = []) then Err (bad_path "Pipe name cannot be empty")
  else if negb (starts_with PREFIX path) then Err (bad_path "Pipe name must start with \\.\pipe\")
  else if decide (path = PREFIX) then Err (bad_path "Pipe name must include a segment after \\.\pipe\")
  else Ok (mkPipeName path).

Definition from_relative_name (name : str) : res Error PipeName := pipe_name_new (PREFIX ++ name).

Definition to_cow_pipe_name (pipe_name : option PipeName) : str :=
  match pipe_name with Some name => pipe_str name | None => lit "<unnamed pipe>" end.

(** ** Modes and options *)

Inductive NamedPipeOpenMode := Inbound | Outbound | Duplex.
Inductive NamedPipeType := PipeByte | PipeMessage.

Record PipeSecurityOptions := mkPipeSecurityOptions {
  inherit_handle : bool; security_descriptor : option SecurityDescriptor }.
Definition security_options_new : PipeSecurityOptions := mkPipeSecurityOptions false None.
Definition set_inherit_handle (o : PipeSecurityOptions) (b : bool) : PipeSecurityOptions :=
  mkPipeSecurityOptions b (security_descriptor o).
Definition set_security_descriptor (o : PipeSecurityOptions) (d : SecurityDescriptor) : PipeSecurityOptions :=
  mkPipeSecurityOptions (inherit_handle o) (Some d).

Record PipeServerEndpoint := mkServerEndpoint {
  se_handle : OwnedHandle; se_pipe_name : PipeName; se_open_mode : NamedPipeOpenMode; se_pipe_type : NamedPipeType }.
Definition server_endpoint_from_raw (handle : Z) (close : bool) (name : PipeName) (mode : NamedPipeOpenMode)
    (ty : NamedPipeType) : PipeServerEndpoint :=
  mkServerEndpoint (with_ownership handle close) name mode ty.
Definition server_endpoint_set_close (e : PipeServerEndpoint) (b : bool) : PipeServerEndpoint :=
  mkServerEndpoint (set_close_on_drop (se_handle e) b) (se_pipe_name e) (se_open_mode e) (se_pipe_type e).

Record PipeClientEndpoint := mkClientEndpoint {
  ce_handle : OwnedHandle; ce_pipe_name : PipeName; ce_open_mode : NamedPipeOpenMode }.
Definition client_endpoint_from_raw (handle : Z) (close : bool) (name : PipeName) (mode : NamedPipeOpenMode)
    : PipeClientEndpoint := mkClientEndpoint (with_ownership handle close) name mode.
Definition client_endpoint_set_close (e : PipeClientEndpoint) (b : bool) : PipeClientEndpoint :=
  mkClientEndpoint (set_close_on_drop (ce_handle e) b) (ce_pipe_name e) (ce_open_mode e).

(** ** Times

    [saturating_sub], [div_euclid] and [rem_euclid] on [i64]; the cast of the
    seconds to [u64] wraps. *)
Definition sat_sub_i64 (a b : Z) : Z := Z.max (-2 ^ 63) (Z.min (a - b) (2 ^ 63 - 1)).

Definition filetime_to_system_time (filetime : Z) : res Error (option Z) :=
  if filetime <=? 0 then Ok None
  else
    let intervals_since_unix := sat_sub_i64 filetime UNIX_EPOCH in
    let seconds := wrap 64 (intervals_since_unix / 10000000) in
    let nanos := intervals_since_unix mod 10000000 * 100 in
    let! t := time_add UNIX_EPOCH seconds nanos in
    Ok (Some t).

(** ** Errors *)

Definition pipe_connect_error (name : option PipeName) (context : option string) (code : option Z) : Error :=
  Error_Pipe (PipeError_Connect (mkPipeConnectError (to_cow_pipe_name name) (lit <$> context) code)).

Definition map_pipe_windows_error (operation : string) (pipe_name : option PipeName) (error_code : Z) : Error :=
  if error_code =? 121
  then Error_Pipe (PipeError_Timeout (mkPipeTimeoutError (to_cow_pipe_name pipe_name) (lit operation)))
  else if error_code =? 231 then pipe_connect_error pipe_name (Some "pipe is busy"%string) (Some error_code)
  else if error_code =? 535
  then pipe_connect_error pipe_name (Some "pipe is already connected"%string) (Some error_code)
  else if error_code =? 109
  then Error_Pipe (PipeError_Io (mkPipeIoError (to_cow_pipe_name pipe_name) (lit operation) (Some error_code)))
  else if decide (operation = "create"%string)
  then Error_Pipe (PipeError_Create (mkPipeCreateError (to_cow_pipe_name pipe_name) (lit operation) (Some error_code)))
  else if decide (operation = "connect"%string) then pipe_connect_error pipe_name None (Some error_code)
  else Error_Pipe (PipeError_Io (mkPipeIoError (to_cow_pipe_name pipe_name) (lit operation) (Some error_code))).

(** ** Security attributes *)

Definition pipe_ace_flags (ace : Ace) : str :=
  flags_to_sddl (inheritance ace) ++ (if inherited ace then lit "ID" else []).

Definition pipe_ace_to_sddl (ace : Ace) : str :=
  lit "(" ++ ace_type_text (ace_type ace) ++ lit ";" ++ pipe_ace_flags ace ++ lit ";" ++
  (lit "0x" ++ fmt_hex (bits (access_mask ace))) ++ lit ";;;" ++ as_str (trustee ace) ++ lit ")".

(** The copy of [descriptor_to_sddl] in security_attrs.rs. *)
Definition pipe_descriptor_to_sddl (d : SecurityDescriptor) : str :=
  (match owner d with Some o => lit "O:" ++ as_str o | None => [] end) ++
  (match group d with Some g => lit "G:" ++ as_str g | None => [] end) ++
  fold_left (fun sddl ace => sddl ++ pipe_ace_to_sddl ace) (entries (dacl d)) (lit "D:").

(** [SECURITY_ATTRIBUTES]: whether the handle is inherited, and the
    descriptor. *)
Record SECURITY_ATTRIBUTES := mkSecAttrs { bInheritHandle : bool; lpSecurityDescriptor : option Z }.

Record NativePipeSecurityAttributes := mkNativeAttrs {
  na_attrs : SECURITY_ATTRIBUTES; na_descriptor : option Z; na_include_for_call : bool }.

Definition as_option_ptr (a : NativePipeSecurityAttributes) : option SECURITY_ATTRIBUTES :=
  if na_include_for_call a then Some (na_attrs a) else None.

(** The Windows calls.  A read gives the bytes it stored, with an error or
    not.  [pipe_last_error] is [GetLastError] after a failed call. *)
Class pipe_api (W : Type) := {
  pipe_last_error : W -> Z;
  ConvertSddl : list Z -> win_error + Z;
  WaitNamedPipeW : W -> list Z -> Z -> bool * W;
  CreateFileW : W -> list Z -> Z -> option SECURITY_ATTRIBUTES -> (win_error + Z) * W;
  CreatePipe : W -> option SECURITY_ATTRIBUTES -> Z -> (win_error + (Z * Z)) * W;
  ReadFile : W -> Z -> Z -> option win_error * list Z * W;
  WriteFile : W -> Z -> list Z -> (win_error + Z) * W;
  FlushFileBuffers : W -> Z -> option win_error * W }.

Definition PIPE_CLIENT_READ : Z := 0x00120089.
Definition PIPE_CLIENT_WRITE : Z := 0x00120102.
Definition to_client_access (mode : NamedPipeOpenMode) : Z :=
  match mode with
  | Inbound => PIPE_CLIENT_READ
  | Outbound => PIPE_CLIENT_WRITE
  | Duplex => Z.lor PIPE_CLIENT_READ PIPE_CLIENT_WRITE
  end.

Record NamedPipeClientBuilder := mkClientBuilder {
  cb_pipe_name : option PipeName; cb_open_mode : NamedPipeOpenMode; cb_connect_timeout : Z;
  cb_security : PipeSecurityOptions }.
Definition client_builder_new : NamedPipeClientBuilder :=
  mkClientBuilder None Duplex 5000000000 security_options_new.
Definition client_builder_pipe_name (b : NamedPipeClientBuilder) (n : PipeName) : NamedPipeClientBuilder :=
  mkClientBuilder (Some n) (cb_open_mode b) (cb_connect_timeout b) (cb_security b).
Definition client_builder_open_mode (b : NamedPipeClientBuilder) (m : NamedPipeOpenMode) : NamedPipeClientBuilder :=
  mkClientBuilder (cb_pipe_name b) m (cb_connect_timeout b) (cb_security b).
Definition client_builder_connect_timeout (b : NamedPipeClientBuilder) (t : Z) : NamedPipeClientBuilder :=
  mkClientBuilder (cb_pipe_name b) (cb_open_mode b) t (cb_security b).
Definition client_builder_security (b : NamedPipeClientBuilder) (o : PipeSecurityOptions) : NamedPipeClientBuilder :=
  mkClientBuilder (cb_pipe_name b) (cb_open_mode b) (cb_connect_timeout b) o.

Record NamedPipeClientConfig := mkClientConfig {
  cc_pipe_name : PipeName; cc_open_mode : NamedPipeOpenMode; cc_connect_timeout : Z; cc_security : PipeSecurityOptions }.

Definition no_pipe_name : Error :=
  Error_InvalidParameter (mkInvalidParameterError (lit "pipe_name") (lit "Pipe name must be specified")).

Definition client_build (b : NamedPipeClientBuilder) : res Error NamedPipeClientConfig :=
  let! name := ok_or (cb_pipe_name b) no_pipe_name in
  Ok (mkClientConfig name (cb_open_mode b) (cb_connect_timeout b) (cb_security b)).

Section Client.
Context {W : Type} `{ho : !handle_api} `{api : !pipe_api W}.

Abbreviation P := (eff (proc_st W) Error).

(** [NativePipeSecurityAttributes::from_options] and its drop. *)
Definition from_options (options : PipeSecurityOptions) (resource : str) : P NativePipeSecurityAttributes := fun s =>
  match security_descriptor options with
  | None => (Ok (mkNativeAttrs (mkSecAttrs (inherit_handle options) None) None (inherit_handle options)), s)
  | Some d =>
      match ConvertSddl (to_utf16_nul (pipe_descriptor_to_sddl d)) with
      | inl e => (Err (Error_Pipe (PipeError_Create (mkPipeCreateError resource (lit "security_descriptor")
                         (Some (win_error_code e))))), s)
      | inr raw => (Ok (mkNativeAttrs (mkSecAttrs (inherit_handle options) (Some raw)) (Some raw) true),
                    acquire (ResDescriptor raw) s)
      end
  end.

Definition drop_attrs (a : NativePipeSecurityAttributes) (s : proc_st W) : proc_st W :=
  match na_descriptor a with Some raw => release (ResDescriptor raw) s | None => s end.

(** [NamedPipeClientConfig::connect]. *)
Definition client_connect (self : NamedPipeClientConfig) : P PipeClientEndpoint := fun s =>
  let name_wide := to_utf16_nul (pipe_str (cc_pipe_name self)) in
  let '(waited, w) := WaitNamedPipeW (pmach s) name_wide (duration_to_wait_ms (cc_connect_timeout self)) in
  let s := at_machine w s in
  if negb waited
  then (Err (map_pipe_windows_error "connect" (Some (cc_pipe_name self)) (as_i32 (pipe_last_error w))), s)
  else
    (let* attrs := from_options (cc_security self) (pipe_str (cc_pipe_name self)) in
     eff_scoped (drop_attrs attrs)
       (let* h := open_handle (fun w => CreateFileW w name_wide (to_client_access (cc_open_mode self)) (as_option_ptr attrs))
                    (fun e => map_pipe_windows_error "connect" (Some (cc_pipe_name self)) (win_error_code e)) in
        eff_ret (client_endpoint_from_raw h true (cc_pipe_name self) (cc_open_mode self)))) s.

(** [io::Read::read] and [io::Write] of a client: the bytes stored in the
    caller's buffer are returned. *)
Definition pipe_read (handle buf_len : Z) : eff (proc_st W) io_error (list Z) := fun s =>
  let '(result, bytes, w) := ReadFile (pmach s) handle buf_len in
  (match result with
   | None => Ok bytes
   | Some e => match classify_pipe_read_error e with
               | MoreData => Ok bytes
               | EndOfStream => Ok []
               | ReadFailed e => Err e
               end
   end, at_machine w s).

Definition pipe_write (handle : Z) (buf : list Z) : eff (proc_st W) io_error Z := fun s =>
  let '(r, w) := WriteFile (pmach s) handle buf in
  (match r with inr n => Ok n | inl e => Err (win_to_io_error e) end, at_machine w s).

Definition client_flush (handle : Z) : eff (proc_st W) io_error unit := fun s =>
  let '(r, w) := FlushFileBuffers (pmach s) handle in
  (match r with None => Ok tt | Some e => Err (win_to_io_error e) end, at_machine w s).

(** *** Anonymous pipes *)

Record AnonymousPipeConfig := mkAnonymousPipeConfig { ap_buffer_size : Z; ap_security : PipeSecurityOptions }.
Definition anonymous_new : AnonymousPipeConfig := mkAnonymousPipeConfig 4096 security_options_new.
Definition anonymous_buffer_size (b : AnonymousPipeConfig) (n : Z) : AnonymousPipeConfig :=
  mkAnonymousPipeConfig n (ap_security b).
Definition anonymous_security (b : AnonymousPipeConfig) (o : PipeSecurityOptions) : AnonymousPipeConfig :=
  mkAnonymousPipeConfig (ap_buffer_size b) o.

Definition anonymous_create (self : AnonymousPipeConfig) : P (OwnedHandle * OwnedHandle) :=
  let* attrs := from_options (ap_security self) (lit "<anonymous>") in
  eff_scoped (drop_attrs attrs)
    (let* hs := acquiring (fun w => CreatePipe w (as_option_ptr attrs) (ap_buffer_size self))
                  (fun hs => [ResHandle (fst hs); ResHandle (snd hs)])
                  (fun e => Error_Pipe (PipeError_Create (mkPipeCreateError (lit "<anonymous>") (lit "create")
                              (Some (win_error_code e))))) in
     eff_ret (owned_new (fst hs), owned_new (snd hs))).

(** [io::Read] of the reader and [io::Write] of the writer, which buffers
    nothing. *)
Definition anonymous_read (reader : OwnedHandle) (buf_len : Z) : eff (proc_st W) io_error (list Z) := fun s =>
  let '(result, bytes, w) := ReadFile (pmach s) (oh_handle reader) buf_len in
  (match option_map classify_pipe_read_error result with
   | None | Some MoreData => Ok bytes
   | Some EndOfStream => Ok []
   | Some (ReadFailed e) => Err e
   end, at_machine w s).
Definition anonymous_write (writer : OwnedHandle) (buf : list Z) : eff (proc_st W) io_error Z :=
  pipe_write (oh_handle writer) buf.
Definition anonymous_flush (writer : OwnedHandle) : eff (proc_st W) io_error unit := eff_ret tt.
End Client.

(** ** Names *)

Lemma pipe_name_new_ok path n :
  pipe_name_new path = Ok n <-> n = mkPipeName path /\ exists name, name <> [] /\ path = PREFIX ++ name.
Proof.
  unfold pipe_name_new, starts_with. case_decide as He; [subst; split; [done|]; intros [_ (name & _ & ?)]; done|].
  destruct (strip_prefix PREFIX path) as [r|] eqn:E; cbn [negb].
  - apply strip_prefix_Some in E as ->. case_decide as Hp.
    + split; [done|]. intros [_ (name & Hn & Heq)]. apply app_inv_head in Heq as <-.
      rewrite <- (app_nil_r PREFIX) in Hp at 2. by apply app_inv_head in Hp.
    + split; [intros [= <-]|by intros [-> _]]. split; [done|]. exists r. split; [|done].
      intros ->. by rewrite app_nil_r in Hp.
  - split; [done|]. intros [_ (name & _ & ->)]. by rewrite strip_prefix_app in E.
Qed.

(** [C40] The invariant of [PipeName]: the constructors accept exactly the
    paths made of the prefix and a non-empty segment and keep them unchanged;
    a relative name is accepted exactly when it is not empty, and stripping
    the prefix of what it gives returns it. *)
Theorem pipe_name_valid :
  (forall path n, pipe_name_new path = Ok n <->
     pipe_str n = path /\ exists name, name <> [] /\ path = PREFIX ++ name) /\
  (forall name n, from_relative_name name = Ok n <-> name <> [] /\ pipe_str n = PREFIX ++ name) /\
  (forall name n, from_relative_name name = Ok n -> strip_prefix PREFIX (pipe_str n) = Some name).
Proof.
  assert (H2 : forall name n, from_relative_name name = Ok n <-> name <> [] /\ pipe_str n = PREFIX ++ name).
  { intros name [t]. unfold from_relative_name. rewrite pipe_name_new_ok. cbn [pipe_str]. split.
    - intros [[= ->] (nm & Hn & Heq)]. apply app_inv_head in Heq as <-. done.
    - intros [Hn ->]. eauto. }
  split_and!; [|done|].
  - intros path [t]. rewrite pipe_name_new_ok. cbn [pipe_str]. naive_solver.
  - intros name n [_ ->]%H2. apply strip_prefix_app.
Qed.

(** ** Times *)

(** The timestamps of a pipe: a positive [FILETIME] from 1970 on is
    converted exactly, zero and negative values give no time, and a positive
    value before 1970 panics, because the negative number of seconds is cast
    to [u64]. *)
Theorem pipe_filetime_exact t :
  -2 ^ 63 <= t < 2 ^ 63 ->
  filetime_to_system_time t =
    if t <=? 0 then Ok None
    else if UNIX_EPOCH <=? t then Ok (Some t) else Panic TimeOverflow.
Proof.
  intros Ht. unfold filetime_to_system_time. destruct (Z.leb_spec t 0) as [|Hpos]; [done|].
  unfold sat_sub_i64. rewrite Z.min_l, Z.max_r by (unfold UNIX_EPOCH; lia).
  unfold time_add, wrap. pose proof (Z.div_mod (t - UNIX_EPOCH) 10000000 ltac:(lia)) as Hdm.
  pose proof (Z.mod_pos_bound (t - UNIX_EPOCH) 10000000 ltac:(lia)) as Hm. rewrite Z.div_mul by lia.
  destruct (Z.leb_spec UNIX_EPOCH t) as [Hle|Hlt].
  - rewrite (Z.mod_small (_ / _)) by (split; [apply Z.div_pos; lia|]; apply Z.div_lt_upper_bound; unfold UNIX_EPOCH in *; lia).
    replace (_ + _) with t by lia. by replace (2 ^ 63 <=? t) with false by lia.
  - assert (Hs : -11644473600 <= (t - UNIX_EPOCH) / 10000000 < 0).
    { split; [apply Z.div_le_lower_bound; unfold UNIX_EPOCH in *; lia|apply Z.div_lt_upper_bound; lia]. }
    rewrite <- (Z_mod_plus_full _ 1), Z.mod_small by lia.
    replace (2 ^ 63 <=? _) with true by (unfold UNIX_EPOCH in *; lia). done.
Qed.

Lemma pipe_filetime_exact_witness :
  filetime_to_system_time 133500000000000000 = Ok (Some 133500000000000000) /\
  filetime_to_system_time 100 = Panic TimeOverflow.
Proof.
  split; [rewrite (pipe_filetime_exact 133500000000000000)|rewrite (pipe_filetime_exact 100)];
    (reflexivity || lia).
Defined.

(** ** Clients *)

Section Spec.
Context {W : Type} `{ho : !handle_api} `{api : !pipe_api W}.

Definition attrs_resources (a : NativePipeSecurityAttributes) : list resource :=
  match na_descriptor a with Some raw => [ResDescriptor raw] | None => [] end.

Lemma owns_from_options options resource : owns (W := W) (from_options options resource) attrs_resources.
Proof.
  intros s. unfold from_options. destruct (security_descriptor options) as [d|].
  - destruct (ConvertSddl _) as [e|raw]; [intros r; rewrite count_res_nil; lia|].
    intros r. unfold attrs_resources. cbn. rewrite count_res_cons, count_res_nil. unfold bump. case_decide; lia.
  - intros r. unfold attrs_resources. cbn. rewrite count_res_nil. lia.
Qed.

Lemma gained_drop_attrs (s s' : proc_st W) a l :
  gained s s' (attrs_resources a ++ l) -> gained s (drop_attrs a s') l.
Proof. unfold attrs_resources, drop_attrs. destruct (na_descriptor a); [apply gained_release|done]. Qed.

(** A call made with security attributes, which are dropped whatever it
    returns. *)
Lemma owns_with_attrs {A} options resource (k : NativePipeSecurityAttributes -> eff (proc_st W) Error A) own :
  (forall a, owns (k a) own) ->
  owns (let* a := from_options options resource in eff_scoped (drop_attrs a) (k a)) own.
Proof.
  intros Hk. eapply owns_bind; [apply owns_from_options|]. intros a s0 s Hs. unfold eff_scoped.
  specialize (Hk a s). destruct (k a s) as [[x|e|x] s']; apply gained_drop_attrs;
    exact (gained_trans _ _ _ _ _ Hs Hk).
Qed.

Lemma owns_at_machine {A} (w : W) (m : eff (proc_st W) Error A) own s :
  owns m own -> match m (at_machine w s) with
                | (Ok a, s') => gained s s' (own a)
                | (_, s') => gained s s' []
                end.
Proof.
  intros Hm. specialize (Hm (at_machine w s)). by destruct (m (at_machine w s)) as [[]].
Qed.

(** Connecting a client and creating an anonymous pipe own exactly what
    they return: after an error nothing is held that was not held before, and
    after a success only the handles of the result, the converted security
    descriptor being freed on every path. *)
Theorem pipe_creation_owns_handles (config : NamedPipeClientConfig) (anonymous : AnonymousPipeConfig) :
  owns (W := W) (client_connect config) (fun e => [ResHandle (oh_handle (ce_handle e))]) /\
  owns (W := W) (anonymous_create anonymous)
    (fun p => [ResHandle (oh_handle (fst p)); ResHandle (oh_handle (snd p))]).
Proof.
  split.
  - intros s. unfold client_connect. destruct (WaitNamedPipeW _ _ _) as [waited w]. destruct waited; cbn [negb].
    + apply owns_at_machine, owns_with_attrs. intros a.
      eapply owns_bind; [apply owns_acquiring|]. intros h s0 s1 Hs. exact Hs.
    + intros r. rewrite count_res_nil. cbn. lia.
  - apply owns_with_attrs. intros a. eapply owns_bind; [apply owns_acquiring|]. intros h s0 s1 Hs. exact Hs.
Qed.


(** An HRESULT is none of the codes that [map_pipe_windows_error] knows. *)
Lemma map_pipe_hresult name code :
  0 < code < 0x10000 ->
  map_pipe_windows_error "connect" name (hresult_from_win32 code) =
  pipe_connect_error name None (Some (hresult_from_win32 code)).
Proof.
  intros Hc. unfold map_pipe_windows_error, hresult_from_win32, as_i32, WIN32_HRESULT_PREFIX.
  replace (0x80070000 + code <? 2 ^ 31) with false by lia.
  by do 4 (replace (_ =? _) with false by lia).
Qed.

(** The client maps the two failures of a busy pipe differently: a
    failed [WaitNamedPipeW] is mapped by its Win32 code, so 231 is reported as
    a busy pipe and 121 as a timeout, but a failed [CreateFileW] is mapped by
    its HRESULT, so for every Win32 code, 231 and 121 included, the result is
    a connect error without context that carries the HRESULT. *)
Theorem client_connect_errors (config : NamedPipeClientConfig) (s : proc_st W) (name := cc_pipe_name config) :
  (forall w, WaitNamedPipeW (pmach s) (to_utf16_nul (pipe_str name)) (duration_to_wait_ms (cc_connect_timeout config))
     = (false, w) ->
   (pipe_last_error w = 231 ->
      (client_connect config s).1 = Err (pipe_connect_error (Some name) (Some "pipe is busy"%string) (Some 231))) /\
   (pipe_last_error w = 121 ->
      (client_connect config s).1 =
      Err (Error_Pipe (PipeError_Timeout (mkPipeTimeoutError (pipe_str name) (lit "connect")))))) /\
  (forall w w' code, WaitNamedPipeW (pmach s) (to_utf16_nul (pipe_str name)) (duration_to_wait_ms (cc_connect_timeout config))
     = (true, w) -> cc_security config = security_options_new -> 0 < code < 0x10000 ->
   CreateFileW w (to_utf16_nul (pipe_str name)) (to_client_access (cc_open_mode config)) None
     = (inl (mk_win_error (hresult_from_win32 code)), w') ->
   (client_connect config s).1 = Err (pipe_connect_error (Some name) None (Some (hresult_from_win32 code)))).
Proof.
  unfold client_connect. split.
  - intros w Hw. fold name. rewrite Hw. cbn [negb]. split; intros ->; done.
  - intros w w' code Hw Hs Hc Hf. fold name. rewrite Hw, Hs. cbn [negb].
    unfold eff_bind at 1. cbn [from_options security_options_new security_descriptor inherit_handle].
    unfold eff_scoped, eff_bind, open_handle, acquiring. cbn [pmach at_machine as_option_ptr na_include_for_call].
    rewrite Hf. cbn [fst win_error_code]. by rewrite map_pipe_hresult.
Qed.
End Spec.

(** *** A concrete machine: the pipe is busy when it is opened *)

Definition busy_api : pipe_api unit := {|
  pipe_last_error w := 231;
  ConvertSddl u := inr 5;
  WaitNamedPipeW w n t := (0 <? t, w);
  CreateFileW w n a s := (inl (mk_win_error (hresult_from_win32 231)), w);
  CreatePipe w s n := (inr (1, 2), w);
  ReadFile w h n := (None, [], w);
  WriteFile w h b := (inr (zlen b), w);
  FlushFileBuffers w h := (None, w) |}.

Definition demo_client (timeout : Z) : NamedPipeClientConfig :=
  mkClientConfig (mkPipeName (lit "\\.\pipe\p")) Duplex timeout security_options_new.

Lemma client_connect_errors_witness :
  let s := mkProcSt tt (fun _ => 0) in
  (client_connect (api := busy_api) (demo_client 5000000000) s).1 =
    Err (pipe_connect_error (Some (mkPipeName (lit "\\.\pipe\p"))) None (Some (-2147024665))) /\
  (client_connect (api := busy_api) (demo_client 0) s).1 =
    Err (pipe_connect_error (Some (mkPipeName (lit "\\.\pipe\p"))) (Some "pipe is busy"%string) (Some 231)).
Proof.
  split.
  - apply (proj2 (client_connect_errors (api := busy_api) (demo_client 5000000000) (mkProcSt tt (fun _ => 0)))
      tt tt 231); (reflexivity || lia).
  - apply (proj1 (client_connect_errors (api := busy_api) (demo_client 0) (mkProcSt tt (fun _ => 0))) tt); reflexivity.
Defined.
