(* ===== verification/PipeServer.v ===== *)
(** * PipeServer: named pipe servers

    src/pipes/server.rs.  The machine is the pair that [ProcOps] uses, since
    the allow-list opens the client's process.  A connection that Windows
    reports as pending is held as [ResPending] until the event of its
    [OVERLAPPED] is signaled, which Windows does when it is over.  Whether a
    read or a write is still under way is a property of the machine,
    [in_flight]; [overlapped_laws] says what the calls do to it. *)

From Stdlib Require Import ZArith Lia String Ascii.
From stdpp Require Import base list strings gmap numbers sorting.
From S2P Require Import Prelude Text Unicode Errors Backends Effects Resources NtPath ImagePath Wait ProcOps IoError Pipes.

Open Scope Z_scope.

Definition PIPE_ACCESS_INBOUND : Z := 1.
Definition PIPE_ACCESS_OUTBOUND : Z := 2.
Definition PIPE_ACCESS_DUPLEX : Z := 3.
Definition FILE_FLAG_OVERLAPPED : Z := 0x40000000.
Definition FILE_FLAG_FIRST_PIPE_INSTANCE : Z := 0x80000.
Definition PIPE_TYPE_BYTE : Z := 0.
Definition PIPE_READMODE_BYTE : Z := 0.
Definition PIPE_TYPE_MESSAGE : Z := 4.
Definition PIPE_READMODE_MESSAGE : Z := 2.
Definition PIPE_WAIT : Z := 0.
Definition PIPE_REJECT_REMOTE_CLIENTS : Z := 8.
Definition PIPE_UNLIMITED_INSTANCES : Z := 255.
Definition ERROR_IO_PENDING : Z := 997.
Definition ERROR_PIPE_CONNECTED : Z := 535.
Definition ERROR_OPERATION_ABORTED : Z := 995.

Definition to_server_open_mode (mode : NamedPipeOpenMode) : Z :=
  match mode with
  | Inbound => Z.lor PIPE_ACCESS_INBOUND FILE_FLAG_OVERLAPPED
  | Outbound => Z.lor PIPE_ACCESS_OUTBOUND FILE_FLAG_OVERLAPPED
  | Duplex => Z.lor PIPE_ACCESS_DUPLEX FILE_FLAG_OVERLAPPED
  end.

Definition to_pipe_mode (ty : NamedPipeType) : Z :=
  match ty with
  | PipeByte => Z.lor (Z.lor (Z.lor PIPE_TYPE_BYTE PIPE_READMODE_BYTE) PIPE_WAIT) PIPE_REJECT_REMOTE_CLIENTS
  | PipeMessage => Z.lor (Z.lor (Z.lor PIPE_TYPE_MESSAGE PIPE_READMODE_MESSAGE) PIPE_WAIT) PIPE_REJECT_REMOTE_CLIENTS
  end.

(** ** The builder *)

Record NamedPipeServerBuilder := mkServerBuilder {
  sb_pipe_name : option PipeName; sb_open_mode : NamedPipeOpenMode; sb_pipe_type : NamedPipeType;
  sb_max_instances : Z; sb_out_buffer_size : Z; sb_in_buffer_size : Z; sb_default_timeout : Z;
  sb_security : PipeSecurityOptions; sb_allowed_executables : list str; sb_first_instance : bool }.

Definition server_builder_new : NamedPipeServerBuilder :=
  mkServerBuilder None Duplex PipeByte 1 4096 4096 5000000000 security_options_new [] false.
Definition server_pipe_name (b : NamedPipeServerBuilder) (n : PipeName) : NamedPipeServerBuilder :=
  mkServerBuilder (Some n) (sb_open_mode b) (sb_pipe_type b) (sb_max_instances b) (sb_out_buffer_size b)
    (sb_in_buffer_size b) (sb_default_timeout b) (sb_security b) (sb_allowed_executables b) (sb_first_instance b).
Definition server_open_mode (b : NamedPipeServerBuilder) (m : NamedPipeOpenMode) : NamedPipeServerBuilder :=
  mkServerBuilder (sb_pipe_name b) m (sb_pipe_type b) (sb_max_instances b) (sb_out_buffer_size b)
    (sb_in_buffer_size b) (sb_default_timeout b) (sb_security b) (sb_allowed_executables b) (sb_first_instance b).
Definition server_pipe_type (b : NamedPipeServerBuilder) (t : NamedPipeType) : NamedPipeServerBuilder :=
  mkServerBuilder (sb_pipe_name b) (sb_open_mode b) t (sb_max_instances b) (sb_out_buffer_size b)
    (sb_in_buffer_size b) (sb_default_timeout b) (sb_security b) (sb_allowed_executables b) (sb_first_instance b).
Definition server_max_instances (b : NamedPipeServerBuilder) (n : Z) : NamedPipeServerBuilder :=
  mkServerBuilder (sb_pipe_name b) (sb_open_mode b) (sb_pipe_type b) n (sb_out_buffer_size b)
    (sb_in_buffer_size b) (sb_default_timeout b) (sb_security b) (sb_allowed_executables b) (sb_first_instance b).
Definition server_out_buffer_size (b : NamedPipeServerBuilder) (n : Z) : NamedPipeServerBuilder :=
  mkServerBuilder (sb_pipe_name b) (sb_open_mode b) (sb_pipe_type b) (sb_max_instances b) n
    (sb_in_buffer_size b) (sb_default_timeout b) (sb_security b) (sb_allowed_executables b) (sb_first_instance b).
Definition server_in_buffer_size (b : NamedPipeServerBuilder) (n : Z) : NamedPipeServerBuilder :=
  mkServerBuilder (sb_pipe_name b) (sb_open_mode b) (sb_pipe_type b) (sb_max_instances b) (sb_out_buffer_size b)
    n (sb_default_timeout b) (sb_security b) (sb_allowed_executables b) (sb_first_instance b).
Definition server_default_timeout (b : NamedPipeServerBuilder) (t : Z) : NamedPipeServerBuilder :=
  mkServerBuilder (sb_pipe_name b) (sb_open_mode b) (sb_pipe_type b) (sb_max_instances b) (sb_out_buffer_size b)
    (sb_in_buffer_size b) t (sb_security b) (sb_allowed_executables b) (sb_first_instance b).
Definition server_security (b : NamedPipeServerBuilder) (o : PipeSecurityOptions) : NamedPipeServerBuilder :=
  mkServerBuilder (sb_pipe_name b) (sb_open_mode b) (sb_pipe_type b) (sb_max_instances b) (sb_out_buffer_size b)
    (sb_in_buffer_size b) (sb_default_timeout b) o (sb_allowed_executables b) (sb_first_instance b).
Definition server_first_instance (b : NamedPipeServerBuilder) (f : bool) : NamedPipeServerBuilder :=
  mkServerBuilder (sb_pipe_name b) (sb_open_mode b) (sb_pipe_type b) (sb_max_instances b) (sb_out_buffer_size b)
    (sb_in_buffer_size b) (sb_default_timeout b) (sb_security b) (sb_allowed_executables b) f.

(** The allow-list: [push] and [retain]. *)
Definition allow (allowed : list str) (path : str) : list str := allowed ++ [path].
Definition disallow (allowed : list str) (path : str) : list str :=
  base.filter (fun p => eq_ignore_ascii_case p path = false) allowed.

Definition set_allowed (b : NamedPipeServerBuilder) (l : list str) : NamedPipeServerBuilder :=
  mkServerBuilder (sb_pipe_name b) (sb_open_mode b) (sb_pipe_type b) (sb_max_instances b) (sb_out_buffer_size b)
    (sb_in_buffer_size b) (sb_default_timeout b) (sb_security b) l (sb_first_instance b).
Definition builder_allow_executable (b : NamedPipeServerBuilder) (path : str) : NamedPipeServerBuilder :=
  set_allowed b (allow (sb_allowed_executables b) path).
Definition builder_remove_executable (b : NamedPipeServerBuilder) (path : str) : NamedPipeServerBuilder :=
  set_allowed b (disallow (sb_allowed_executables b) path).

Record NamedPipeServerConfig := mkServerConfig {
  sc_pipe_name : PipeName; sc_open_mode : NamedPipeOpenMode; sc_pipe_type : NamedPipeType;
  sc_max_instances : Z; sc_out_buffer_size : Z; sc_in_buffer_size : Z; sc_default_timeout : Z;
  sc_security : PipeSecurityOptions; sc_allowed_executables : list str; sc_first_instance : bool }.

Definition server_build (b : NamedPipeServerBuilder) : res Error NamedPipeServerConfig :=
  let! name := ok_or (sb_pipe_name b) no_pipe_name in
  if sb_max_instances b =? 0
  then Err (Error_InvalidParameter (mkInvalidParameterError (lit "max_instances") (lit "max_instances must be at least 1")))
  else Ok (mkServerConfig name (sb_open_mode b) (sb_pipe_type b) (sb_max_instances b) (sb_out_buffer_size b)
             (sb_in_buffer_size b) (sb_default_timeout b) (sb_security b) (sb_allowed_executables b) (sb_first_instance b)).

Record NamedPipeServer := mkServer {
  sv_endpoint : PipeServerEndpoint; sv_default_timeout : Z; sv_allowed_executables : list str;
  sv_io_event : Wait; sv_io_timeout : option Z }.
Definition set_io_timeout (v : NamedPipeServer) (t : option Z) : NamedPipeServer :=
  mkServer (sv_endpoint v) (sv_default_timeout v) (sv_allowed_executables v) (sv_io_event v) t.
Definition allow_executable (v : NamedPipeServer) (path : str) : NamedPipeServer :=
  mkServer (sv_endpoint v) (sv_default_timeout v) (allow (sv_allowed_executables v) path) (sv_io_event v) (sv_io_timeout v).
Definition remove_executable (v : NamedPipeServer) (path : str) : NamedPipeServer :=
  mkServer (sv_endpoint v) (sv_default_timeout v) (disallow (sv_allowed_executables v) path) (sv_io_event v) (sv_io_timeout v).

Definition sv_handle (v : NamedPipeServer) : Z := oh_handle (se_handle (sv_endpoint v)).
Definition sv_name (v : NamedPipeServer) : PipeName := se_pipe_name (sv_endpoint v).

(** The calls of a server.  [ConnectNamedPipe] gives the code of
    [GetLastError] when it fails; [GetOverlappedResult] an error or not, and
    the number of bytes. *)
Class server_api (M : Type) := {
  CreateNamedPipeW : M -> list Z -> Z -> Z -> Z -> Z -> Z -> Z -> option SECURITY_ATTRIBUTES -> option Z * M;
  ConnectNamedPipe : M -> Z -> bool (** overlapped *) -> option Z * M;
  GetOverlappedResult : M -> Z -> bool (** wait *) -> option win_error * Z * M;
  CancelIoEx : M -> Z -> M;
  ReadFileOverlapped : M -> Z -> Z -> option win_error * M;
  WriteFileOverlapped : M -> Z -> list Z -> option win_error * M;
  GetNamedPipeClientProcessId : M -> Z -> option Z;
  DisconnectNamedPipe : M -> Z -> bool * M;
  ImpersonateNamedPipeClient : M -> Z -> option win_error * M;
  OpenThreadToken : M -> (win_error + Z) * M;
  CreateAdministratorsSid : M -> win_error + Z;
  CheckTokenMembership : M -> Z -> Z -> win_error + bool;
  RevertToSelf : M -> bool * M }.

Section Server.
Context {W : Type} `{ho : !handle_api} `{prapi : !process_api W} `{papi : !pipe_api (W * option device_map)}
  `{wapi : !wait_api (W * option device_map)} `{sapi : !server_api (W * option device_map)}.

Abbreviation M := (W * option device_map)%type.
Abbreviation P := (eff (proc_st (W * option device_map)) Error).

(** [Wait::manual_reset(false)?], and the drop of a [Wait]. *)
Definition new_event : P Wait := fun s =>
  match wait_manual_reset false (pmach s) with
  | (Ok e, w) => (Ok e, acquire (ResHandle (wait_raw e)) (at_machine w s))
  | (Err x, w) => (Err x, at_machine w s)
  | (Panic x, w) => (Panic x, at_machine w s)
  end.
Definition drop_wait (e : Wait) (s : proc_st M) : proc_st M :=
  drop_owned (with_ownership (wait_raw e) (wait_close_on_drop e)) s.

(** ** Creation *)

Definition create_pipe (self : NamedPipeServerConfig) (attrs : NativePipeSecurityAttributes) : P Z := fun s =>
  let open_mode := to_server_open_mode (sc_open_mode self) in
  let open_mode := if sc_first_instance self then Z.lor open_mode FILE_FLAG_FIRST_PIPE_INSTANCE else open_mode in
  let max_instances := if sc_max_instances self =? 255 then PIPE_UNLIMITED_INSTANCES else sc_max_instances self in
  match CreateNamedPipeW (pmach s) (to_utf16_nul (pipe_str (sc_pipe_name self))) open_mode
          (to_pipe_mode (sc_pipe_type self)) max_instances (sc_out_buffer_size self) (sc_in_buffer_size self)
          (duration_to_wait_ms (sc_default_timeout self)) (as_option_ptr attrs) with
  | (None, w) =>
      (Err (map_pipe_windows_error "create" (Some (sc_pipe_name self)) (as_i32 (pipe_last_error w))), at_machine w s)
  | (Some h, w) => (Ok h, acquire (ResHandle h) (at_machine w s))
  end.

(** The endpoint is dropped when the event cannot be created. *)
Definition server_create (self : NamedPipeServerConfig) : P NamedPipeServer :=
  let* attrs := from_options (sc_security self) (pipe_str (sc_pipe_name self)) in
  eff_scoped (drop_attrs attrs)
    (let* h := create_pipe self attrs in
     let endpoint := server_endpoint_from_raw h true (sc_pipe_name self) (sc_open_mode self) (sc_pipe_type self) in
     let* e := eff_guard (drop_owned (se_handle endpoint)) new_event in
     eff_ret (mkServer endpoint (sc_default_timeout self) (sc_allowed_executables self) e None)).

(** ** The allow-list *)

Definition client_denied (self : NamedPipeServer) (reason : str) : Error :=
  Error_AccessDenied (mkAccessDeniedError (pipe_str (sv_name self)) (lit "connect") (Some reason)).

Definition disconnect (self : NamedPipeServer) : P unit := fun s =>
  let '(ok, w) := DisconnectNamedPipe (pmach s) (sv_handle self) in
  (if ok then Ok tt
   else Err (map_pipe_windows_error "disconnect" (Some (sv_name self)) (as_i32 (pipe_last_error w))), at_machine w s).

(** The path of the client, or the error for each step that fails; the
    opened process is closed before the comparison. *)
Definition client_path (self : NamedPipeServer) (pid : Z) : P str :=
  let* p := eff_map_err (fun _ => client_denied self (lit "could not open client process")) (process_open pid) in
  eff_scoped (drop_process p)
    (eff_map_err (fun _ => client_denied self (lit "could not retrieve client executable path")) (process_path p)).

Definition is_allowed (allowed : list str) (path : str) : bool :=
  existsb (fun a => eq_ignore_ascii_case a path) allowed.

Definition check_client_executable (self : NamedPipeServer) : P unit := fun s =>
  match GetNamedPipeClientProcessId (pmach s) (sv_handle self) with
  | None => (Err (client_denied self (lit "could not determine client process id")), s)
  | Some pid =>
      (let* path := client_path self pid in
       if is_allowed (sv_allowed_executables self) path then eff_ret tt
       else eff_fail (client_denied self
              (lit "client executable '" ++ path ++ lit "' is not in the allow-list"))) s
  end.

Definition validate_connected_client (self : NamedPipeServer) : P unit :=
  if decide (sv_allowed_executables self = []) then eff_ret tt
  else
    let* r := eff_try (check_client_executable self) in
    match r with
    | inr _ => eff_ret tt
    | inl e => let* _ := eff_try (F := Error) (disconnect self) in eff_fail e
    end.

(** ** Connecting *)

Definition connect_error (self : NamedPipeServer) (code : Z) : Error :=
  map_pipe_windows_error "connect" (Some (sv_name self)) code.

Definition connect (self : NamedPipeServer) : P unit := fun s =>
  let '(r, w) := ConnectNamedPipe (pmach s) (sv_handle self) false in
  let s := at_machine w s in
  match r with
  | Some code => if code =? ERROR_PIPE_CONNECTED then validate_connected_client self s
                 else (Err (connect_error self code), s)
  | None => validate_connected_client self s
  end.

(** Waiting for a pending connection: the index of the signaled event, a
    timeout or a failure. *)
Definition await_connection (self : NamedPipeServer) (connect_event wait : Wait) (timeout : Z) : P unit := fun s =>
  let '(r, w) := WaitForMultipleObjects (pmach s) [wait_raw connect_event; wait_raw wait] false
                   (duration_to_wait_ms timeout) in
  let s := at_machine w s in
  if r =? WAIT_OBJECT_0 then
    let s := release (ResPending (sv_handle self)) s in
    let '(x, _, w) := GetOverlappedResult (pmach s) (sv_handle self) false in
    let s := at_machine w s in
    match x with
    | Some _ => (Err (connect_error self (as_i32 (pipe_last_error w))), s)
    | None => validate_connected_client self s
    end
  else
    let s := at_machine (CancelIoEx (pmach s) (sv_handle self)) s in
    (if r =? WAIT_OBJECT_0 + 1
     then Err (pipe_connect_error (Some (sv_name self)) (Some "connect interrupted by wait handle signal"%string)
                 (Some ERROR_OPERATION_ABORTED))
     else if r =? WAIT_TIMEOUT
     then Err (Error_Pipe (PipeError_Timeout (mkPipeTimeoutError (pipe_str (sv_name self)) (lit "connect"))))
     else if r =? WAIT_FAILED then Err (connect_error self (as_i32 (pipe_last_error (pmach s))))
     else Err (connect_error self (as_i32 r)), s).

Definition connect_with_wait_timeout (self : NamedPipeServer) (wait : Wait) (timeout : Z) : P unit :=
  let* connect_event := new_event in
  eff_scoped (drop_wait connect_event) (fun s =>
    let '(r, w) := ConnectNamedPipe (pmach s) (sv_handle self) true in
    let s := at_machine w s in
    match r with
    | None => validate_connected_client self s
    | Some code =>
        if code =? ERROR_PIPE_CONNECTED then validate_connected_client self s
        else if code =? ERROR_IO_PENDING
        then await_connection self connect_event wait timeout (acquire (ResPending (sv_handle self)) s)
        else (Err (connect_error self code), s)
    end).

(** [Duration::MAX] in nanoseconds. *)
Definition DURATION_MAX : Z := (2 ^ 64 - 1) * 1000000000 + 999999999.
Definition connect_with_wait (self : NamedPipeServer) (wait : Wait) : P unit :=
  connect_with_wait_timeout self wait DURATION_MAX.
Definition connect_with_timeout (self : NamedPipeServer) (timeout : Z) : P unit :=
  let* wait := new_event in
  eff_scoped (drop_wait wait) (connect_with_wait_timeout self wait timeout).

(** ** Reading and writing *)

Inductive OverlappedOutcome := Done (n : Z) | Partial (n : Z) | EndOfPipe.

Definition io_wait_ms (t : option Z) : Z := from_option duration_to_wait_ms INFINITE t.

(** [GetOverlappedResult] with [bWait]. *)
Definition finish_io (self : NamedPipeServer) (s : proc_st M) : option win_error * Z * proc_st M :=
  let '(x, n, w) := GetOverlappedResult (pmach s) (sv_handle self) true in (x, n, at_machine w s).

Definition overlapped_io (self : NamedPipeServer) (operation : string) (start : M -> option win_error * M)
    : eff (proc_st M) io_error OverlappedOutcome := fun s =>
  match wait_reset (sv_io_event self) (pmach s) with
  | (Err e, w) => (Err (IoWrapped e), at_machine w s)
  | (Panic x, w) => (Panic x, at_machine w s)
  | (Ok _, w) =>
      let '(r, w) := start w in
      let s := at_machine w s in
      let code := r ≫= win32_code in
      let pending := bool_decide (code = Some ERROR_IO_PENDING) in
      let more := bool_decide (code = Some 234) in
      let go (s : proc_st M) :=
        let '(waited, w) := WaitForSingleObject (pmach s) (wait_raw (sv_io_event self)) (io_wait_ms (sv_io_timeout self)) in
        let s := at_machine w s in
        if waited =? WAIT_TIMEOUT then
          let s := at_machine (CancelIoEx (pmach s) (sv_handle self)) s in
          let '(_, _, s) := finish_io self s in
          (Err (IoTimedOut (lit "pipe " ++ lit operation ++ lit " timed out")), s)
        else
          let '(x, n, s) := finish_io self s in
          (match x with
           | None => Ok (Done n)
           | Some err => match classify_pipe_read_error err with
                         | MoreData => Ok (Partial n)
                         | EndOfStream => Ok EndOfPipe
                         | ReadFailed e => Err e
                         end
           end, s) in
      match r with
      | None => go s
      | Some err =>
          if pending || more then go s
          else (match classify_pipe_read_error err with
                | EndOfStream => Ok EndOfPipe
                | ReadFailed e => Err e
                | MoreData => Err (IoMessage (lit "unexpected ERROR_MORE_DATA"))
                end, s)
      end
  end.

Definition server_read (self : NamedPipeServer) (buf_len : Z) : eff (proc_st M) io_error Z :=
  let* outcome := overlapped_io self "read" (fun w => ReadFileOverlapped w (sv_handle self) buf_len) in
  eff_ret match outcome with Done n | Partial n => n | EndOfPipe => 0 end.

Definition server_write (self : NamedPipeServer) (buf : list Z) : eff (proc_st M) io_error Z :=
  let* outcome := overlapped_io self "write" (fun w => WriteFileOverlapped w (sv_handle self) buf) in
  match outcome with
  | Done n | Partial n => eff_ret n
  | EndOfPipe => eff_fail IoBrokenPipe
  end.

Definition server_flush (self : NamedPipeServer) : eff (proc_st M) io_error unit := client_flush (sv_handle self).

(** ** Impersonation *)

(** The drop of [RevertOnDrop]: the process is aborted when the thread cannot
    return to its own identity. *)
Definition reverting {A} (m : P A) : P A := fun s =>
  let '(r, s) := m s in
  let '(ok, w) := RevertToSelf (pmach s) in
  if ok then (r, release ResImpersonation (at_machine w s)) else (Panic ProcessAbort, at_machine w s).

Definition client_is_elevated_admin (self : NamedPipeServer) : P bool := fun s =>
  match ImpersonateNamedPipeClient (pmach s) (sv_handle self) with
  | (Some e, w) => (Err (windows_api_error e "ImpersonateNamedPipeClient"), at_machine w s)
  | (None, w) =>
      reverting
        (let* token := open_handle OpenThreadToken (fun e => windows_api_error e "OpenThreadToken") in
         eff_scoped (drop_owned (owned_new token)) (fun s =>
           (match CreateAdministratorsSid (pmach s) with
            | inl e => Err (windows_api_error e "CreateWellKnownSid")
            | inr sid => match CheckTokenMembership (pmach s) token sid with
                         | inl e => Err (windows_api_error e "CheckTokenMembership")
                         | inr member => Ok member
                         end
            end, s)))
        (acquire ResImpersonation (at_machine w s))
  end.
End Server.

(** ** What a server holds *)

Section Spec.
Context {W : Type} `{ho : !handle_api} `{prapi : !process_api W} `{papi : !pipe_api (W * option device_map)}
  `{wapi : !wait_api (W * option device_map)} `{sapi : !server_api (W * option device_map)}.

Abbreviation M := (W * option device_map)%type.
Abbreviation P := (eff (proc_st (W * option device_map)) Error).

Lemma gained_refl (s : proc_st M) : gained s s [].
Proof. intros r. rewrite count_res_nil. lia. Qed.

Lemma gained_at_machine (s0 s : proc_st M) w l : gained s0 (at_machine w s) l <-> gained s0 s l.
Proof. done. Qed.

Lemma gained_acquire (s0 s : proc_st M) r l : gained s0 s l -> gained s0 (acquire r s) (r :: l).
Proof.
  intros H x. unfold acquire, bump. cbn [held]. rewrite (H x), count_res_cons. case_decide; lia.
Qed.

(** *** Reads and writes under way

    What Windows documents: a read or a write is under way after the call that
    started it only when the call reported ERROR_IO_PENDING, and not any more
    once [GetOverlappedResult] has returned with [bWait] TRUE; without it that
    call says nothing.  Resetting an event starts nothing. *)
Class overlapped_laws := {
  in_flight : M -> Z -> Prop;
  read_law w h n r w' : ReadFileOverlapped w h n = (r, w') -> r ≫= win32_code <> Some ERROR_IO_PENDING ->
    ~ in_flight w h -> ~ in_flight w' h;
  write_law w h b r w' : WriteFileOverlapped w h b = (r, w') -> r ≫= win32_code <> Some ERROR_IO_PENDING ->
    ~ in_flight w h -> ~ in_flight w' h;
  reset_law w h e : ~ in_flight w h -> ~ in_flight (snd (ResetEvent w e)) h;
  waited_law w h x n w' : GetOverlappedResult w h true = (x, n, w') -> ~ in_flight w' h }.

Section Flight.
Context `{olaws : !overlapped_laws}.

Lemma finish_io_over (self : NamedPipeServer) (s : proc_st M) : ~ in_flight (pmach (finish_io self s).2) (sv_handle self).
Proof. unfold finish_io. destruct (GetOverlappedResult _ _ _) as [[x n] w] eqn:E. by apply waited_law in E. Qed.

Lemma wait_reset_machine e w : (wait_reset e w).2 = (ResetEvent w (wait_raw e)).2.
Proof. unfold wait_reset. by destruct (ResetEvent w (wait_raw e)) as [[] w']. Qed.

(** Whatever starts a transfer under these rules. *)
Lemma overlapped_io_over (self : NamedPipeServer) (operation : string) (start : M -> option win_error * M) (s : proc_st M) :
  (forall w r w', start w = (r, w') -> r ≫= win32_code <> Some ERROR_IO_PENDING ->
     ~ in_flight w (sv_handle self) -> ~ in_flight w' (sv_handle self)) ->
  ~ in_flight (pmach s) (sv_handle self) ->
  ~ in_flight (pmach (overlapped_io self operation start s).2) (sv_handle self).
Proof.
  intros Hstart Hs. unfold overlapped_io. pose proof (wait_reset_machine (sv_io_event self) (pmach s)) as Hr.
  apply (reset_law _ _ (wait_raw (sv_io_event self))) in Hs. rewrite <- Hr in Hs. clear Hr.
  destruct (wait_reset _ _) as [[u|e|x] w]; [|exact Hs..]. destruct (start w) as [r w1] eqn:Es.
  match goal with |- ~ in_flight (pmach (match _ with None => ?go | Some _ => _ end).2) _ =>
    assert (Hgo : ~ in_flight (pmach go.2) (sv_handle self)) end.
  { destruct (WaitForSingleObject _ _ _) as [waited w2]. destruct (waited =? WAIT_TIMEOUT);
      match goal with |- context [finish_io self ?s2] =>
        pose proof (finish_io_over self s2) as Hf; destruct (finish_io self s2) as [[x n] s3] end; exact Hf. }
  destruct r as [err|]; [|exact Hgo]. case_bool_decide as Hp; [exact Hgo|]. case_bool_decide; [exact Hgo|].
  by eapply Hstart.
Qed.

(** A transfer that times out. *)
Lemma overlapped_io_cancels (self : NamedPipeServer) (operation : string) (start : M -> option win_error * M) (s : proc_st M) w err w1 w2 :
  wait_reset (sv_io_event self) (pmach s) = (Ok tt, w) -> start w = (Some err, w1) -> win32_code err = Some ERROR_IO_PENDING ->
  WaitForSingleObject w1 (wait_raw (sv_io_event self)) (io_wait_ms (sv_io_timeout self)) = (WAIT_TIMEOUT, w2) ->
  overlapped_io self operation start s =
    (Err (IoTimedOut (lit "pipe " ++ lit operation ++ lit " timed out")),
     at_machine (GetOverlappedResult (CancelIoEx w2 (sv_handle self)) (sv_handle self) true).2 s).
Proof.
  intros Hr Hs Hp Hw. unfold overlapped_io, finish_io. rewrite Hr, Hs. cbn [mbind option_bind]. rewrite Hp.
  rewrite bool_decide_true by done. cbn [orb pmach at_machine]. rewrite Hw, Z.eqb_refl.
  by destruct (GetOverlappedResult _ _ _) as [[x n] w3].
Qed.

(** [C19] A read or a write of a server never leaves an operation behind:
    when none is under way on its pipe before, none is when it returns,
    whatever Windows answers (immediate completion, pending, a partial
    message, a failed wait, a failure to start or to reset the event), so the
    [OVERLAPPED] and the caller's buffer may be freed.  In particular an
    operation that is still pending when the wait times out is cancelled and
    waited for, before the call returns its timeout error. *)
Theorem overlapped_io_leaves_nothing_pending (self : NamedPipeServer) (s : proc_st M) buf_len buf :
  ~ in_flight (pmach s) (sv_handle self) ->
  ~ in_flight (pmach (server_read self buf_len s).2) (sv_handle self) /\
  ~ in_flight (pmach (server_write self buf s).2) (sv_handle self) /\
  (forall w err w1 w2,
     wait_reset (sv_io_event self) (pmach s) = (Ok tt, w) ->
     WaitForSingleObject w1 (wait_raw (sv_io_event self)) (io_wait_ms (sv_io_timeout self)) = (WAIT_TIMEOUT, w2) ->
     win32_code err = Some ERROR_IO_PENDING ->
     let s' := at_machine (GetOverlappedResult (CancelIoEx w2 (sv_handle self)) (sv_handle self) true).2 s in
     (ReadFileOverlapped w (sv_handle self) buf_len = (Some err, w1) ->
        server_read self buf_len s = (Err (IoTimedOut (lit "pipe read timed out")), s')) /\
     (WriteFileOverlapped w (sv_handle self) buf = (Some err, w1) ->
        server_write self buf s = (Err (IoTimedOut (lit "pipe write timed out")), s'))).
Proof.
  intros Hs. split_and!.
  - pose proof (overlapped_io_over self "read" (fun w => ReadFileOverlapped w (sv_handle self) buf_len) s
                  (fun w r w' => read_law w (sv_handle self) buf_len r w') Hs) as H.
    unfold server_read, eff_bind. by destruct (overlapped_io _ _ _ s) as [[[n|n|]|e|x] s1].
  - pose proof (overlapped_io_over self "write" (fun w => WriteFileOverlapped w (sv_handle self) buf) s
                  (fun w r w' => write_law w (sv_handle self) buf r w') Hs) as H.
    unfold server_write, eff_bind. by destruct (overlapped_io _ _ _ s) as [[[n|n|]|e|x] s1].
  - intros w err w1 w2 Hr Hw He. cbv zeta. split; intros Hst; unfold server_read, server_write, eff_bind.
    + by rewrite (overlapped_io_cancels self "read" _ s w err w1 w2 Hr Hst He Hw).
    + by rewrite (overlapped_io_cancels self "write" _ s w err w1 w2 Hr Hst He Hw).
Qed.
End Flight.

Lemma event_owned w e w' : wait_manual_reset false w = (Ok e, w') -> wait_close_on_drop e = true.
Proof.
  unfold wait_manual_reset, wait_new, create_event. destruct (CreateEventW _ _ _ _) as [[h|] w1]; [|done].
  by intros [= <- _].
Qed.

(** A connection that is not awaited to the end is abandoned while
    Windows may still use its [OVERLAPPED]: when the operation is pending and
    the wait ends in any other way than the connection (the caller's wait
    handle, the timeout, a failure), [connect_with_wait_timeout] returns an
    error with the operation still pending and the event closed; the
    [OVERLAPPED] is a local of the function. *)
Theorem connect_abandons_pending (self : NamedPipeServer) (wait : Wait) (timeout : Z) (s : proc_st M)
    (e : Wait) (w1 w2 w3 : M) (r : Z) :
  wait_manual_reset false (pmach s) = (Ok e, w1) ->
  handle_ok (wait_raw e) = true ->
  ConnectNamedPipe w1 (sv_handle self) true = (Some ERROR_IO_PENDING, w2) ->
  WaitForMultipleObjects w2 [wait_raw e; wait_raw wait] false (duration_to_wait_ms timeout) = (r, w3) ->
  r <> WAIT_OBJECT_0 ->
  exists err s', connect_with_wait_timeout self wait timeout s = (Err err, s') /\
    gained s s' [ResPending (sv_handle self)].
Proof.
  intros He Hok Hc Hw Hr. unfold connect_with_wait_timeout, new_event, eff_bind. rewrite He.
  unfold eff_scoped. cbn [pmach acquire at_machine]. rewrite Hc.
  change (ERROR_IO_PENDING =? ERROR_PIPE_CONNECTED) with false. change (ERROR_IO_PENDING =? ERROR_IO_PENDING) with true.
  cbv iota. unfold await_connection. cbn [pmach acquire at_machine]. rewrite Hw.
  replace (r =? WAIT_OBJECT_0) with false by lia.
  assert (Hg : gained s (drop_wait e (mkProcSt (CancelIoEx w3 (sv_handle self))
      (bump (bump (held s) (ResHandle (wait_raw e)) 1) (ResPending (sv_handle self)) 1))) [ResPending (sv_handle self)]).
  { unfold drop_wait, drop_owned. rewrite (event_owned _ _ _ He). cbn [with_ownership oh_close_on_drop oh_handle andb].
    rewrite Hok. apply gained_release.
    eapply gained_eq; [apply (gained_acquire s (mkProcSt w3 (bump (held s) (ResHandle (wait_raw e)) 1)) (ResPending (sv_handle self)));
      apply (gained_acquire s (mkProcSt w1 (held s)) (ResHandle (wait_raw e))); exact (gained_refl s)|].
    intros x. rewrite !count_res_cons. lia. }
  destruct (r =? WAIT_OBJECT_0 + 1); [|destruct (r =? WAIT_TIMEOUT); [|destruct (r =? WAIT_FAILED)]];
    eexists _, _; (split; [reflexivity|exact Hg]).
Qed.

(** ** Who is let in *)

(** The client connected in [s1] is let in, in [s2]: the process at the other
    end of the pipe was asked for in [s1], opened, its image path read and found
    in the list up to ASCII case. *)
Definition admitted (self : NamedPipeServer) (s1 s2 : proc_st M) : Prop :=
  exists pid path a,
    GetNamedPipeClientProcessId (pmach s1) (sv_handle self) = Some pid /\
    client_path self pid s1 = (Ok path, s2) /\
    a ∈ sv_allowed_executables self /\ eq_ignore_ascii_case a path = true.

(** The four connecting functions. *)
Inductive connecting :=
  | Connect
  | ConnectWithWaitTimeout (wait : Wait) (timeout : Z)
  | ConnectWithWait (wait : Wait)
  | ConnectWithTimeout (timeout : Z).
Definition run_connect (self : NamedPipeServer) (c : connecting) : P unit :=
  match c with
  | Connect => connect self
  | ConnectWithWaitTimeout wait timeout => connect_with_wait_timeout self wait timeout
  | ConnectWithWait wait => connect_with_wait self wait
  | ConnectWithTimeout timeout => connect_with_timeout self timeout
  end.

(** [arrives self c s s1 fin]: called in [s], the function has a client on the
    pipe in [s1] (Windows reported the connection, at once or after the wait
    for it), and [fin] closes the events the function made. *)
Inductive arrives (self : NamedPipeServer) : connecting -> proc_st M -> proc_st M -> (proc_st M -> proc_st M) -> Prop :=
  | arrives_connect s r w :
      ConnectNamedPipe (pmach s) (sv_handle self) false = (r, w) -> r = None \/ r = Some ERROR_PIPE_CONNECTED ->
      arrives self Connect s (at_machine w s) id
  | arrives_at_once wait timeout s e s0 r w :
      new_event s = (Ok e, s0) ->
      ConnectNamedPipe (pmach s0) (sv_handle self) true = (r, w) -> r = None \/ r = Some ERROR_PIPE_CONNECTED ->
      arrives self (ConnectWithWaitTimeout wait timeout) s (at_machine w s0) (drop_wait e)
  | arrives_waited wait timeout s e s0 w1 w2 n w3 :
      new_event s = (Ok e, s0) ->
      ConnectNamedPipe (pmach s0) (sv_handle self) true = (Some ERROR_IO_PENDING, w1) ->
      WaitForMultipleObjects w1 [wait_raw e; wait_raw wait] false (duration_to_wait_ms timeout) = (WAIT_OBJECT_0, w2) ->
      GetOverlappedResult w2 (sv_handle self) false = (None, n, w3) ->
      arrives self (ConnectWithWaitTimeout wait timeout) s
        (at_machine w3 (release (ResPending (sv_handle self))
           (at_machine w2 (acquire (ResPending (sv_handle self)) (at_machine w1 s0))))) (drop_wait e)
  | arrives_wait wait s s1 fin :
      arrives self (ConnectWithWaitTimeout wait DURATION_MAX) s s1 fin -> arrives self (ConnectWithWait wait) s s1 fin
  | arrives_timeout timeout s e s0 s1 fin :
      new_event s = (Ok e, s0) -> arrives self (ConnectWithWaitTimeout e timeout) s0 s1 fin ->
      arrives self (ConnectWithTimeout timeout) s s1 (fun x => drop_wait e (fin x)).

Lemma is_allowed_spec allowed path :
  is_allowed allowed path = true -> exists a, a ∈ allowed /\ eq_ignore_ascii_case a path = true.
Proof.
  unfold is_allowed. rewrite existsb_exists. intros (a & Ha & H). exists a. split; [by apply list_elem_of_In|done].
Qed.

Lemma is_allowed_intro allowed path a :
  a ∈ allowed -> eq_ignore_ascii_case a path = true -> is_allowed allowed path = true.
Proof. intros Ha He. unfold is_allowed. apply existsb_exists. exists a. split; [by apply list_elem_of_In|done]. Qed.

Lemma check_client_ok (self : NamedPipeServer) (s s' : proc_st M) :
  check_client_executable self s = (Ok tt, s') <-> admitted self s s'.
Proof.
  unfold check_client_executable. split.
  - destruct (GetNamedPipeClientProcessId _ _) as [pid|] eqn:Ep; [|done].
    intros H. apply eff_bind_ok in H as (path & s1 & Hp & H).
    destruct (is_allowed _ path) eqn:Ea; [|done]. apply is_allowed_spec in Ea as (a & Ha & He). injection H as <-.
    by exists pid, path, a.
  - intros (pid & path & a & -> & Hp & Ha & He). unfold eff_bind. by rewrite Hp, (is_allowed_intro _ _ a).
Qed.

(** Once a client is there, the check decides. *)
Lemma run_arrived (self : NamedPipeServer) c s s1 fin : arrives self c s s1 fin ->
  run_connect self c s = let '(r, s2) := validate_connected_client self s1 in (r, fin s2).
Proof.
  induction 1 as [s r w Hc Hr|wait timeout s e s0 r w He Hc Hr|wait timeout s e s0 w1 w2 n w3 He Hc Hw Hg
                 |wait s s1 fin _ IH|timeout s e s0 s1 fin He _ IH]; cbn [run_connect] in *.
  - unfold connect. rewrite Hc. by destruct Hr as [->| ->]; destruct (validate_connected_client _ _).
  - unfold connect_with_wait_timeout, eff_bind. rewrite He. unfold eff_scoped. rewrite Hc.
    by destruct Hr as [->| ->]; destruct (validate_connected_client _ _).
  - unfold connect_with_wait_timeout, eff_bind. rewrite He. unfold eff_scoped. rewrite Hc.
    change (ERROR_IO_PENDING =? ERROR_PIPE_CONNECTED) with false. change (ERROR_IO_PENDING =? ERROR_IO_PENDING) with true.
    cbv iota. unfold await_connection. cbn [pmach acquire at_machine]. rewrite Hw, Z.eqb_refl.
    cbn [pmach release at_machine]. rewrite Hg. by destruct (validate_connected_client _ _).
  - exact IH.
  - unfold connect_with_timeout, eff_bind. rewrite He. unfold eff_scoped. rewrite IH.
    by destruct (validate_connected_client _ _).
Qed.

Lemma wait_timeout_arrived (self : NamedPipeServer) wait timeout s s' : connect_with_wait_timeout self wait timeout s = (Ok tt, s') ->
  exists s1 fin, arrives self (ConnectWithWaitTimeout wait timeout) s s1 fin.
Proof.
  intros H. apply eff_bind_ok in H as (e & s0 & He & H). unfold eff_scoped in H.
  destruct (ConnectNamedPipe _ _ _) as [[code|] w] eqn:Ec; [|eexists _, _; eapply arrives_at_once; eauto].
  destruct (Z.eqb_spec code ERROR_PIPE_CONNECTED) as [->|_]; [eexists _, _; eapply arrives_at_once; eauto|].
  destruct (Z.eqb_spec code ERROR_IO_PENDING) as [->|_]; [|done]. unfold await_connection in H.
  destruct (WaitForMultipleObjects _ _ _ _) as [r w2] eqn:Ew. destruct (Z.eqb_spec r WAIT_OBJECT_0) as [->|_].
  - cbn [pmach release acquire at_machine] in *. destruct (GetOverlappedResult _ _ _) as [[[x|] n] w3] eqn:Eg; [done|].
    eexists _, _. eapply arrives_waited; eauto.
  - destruct (r =? WAIT_OBJECT_0 + 1); [done|]. destruct (r =? WAIT_TIMEOUT); [done|]. by destruct (r =? WAIT_FAILED).
Qed.

Lemma run_needs_client (self : NamedPipeServer) c s s' : run_connect self c s = (Ok tt, s') -> exists s1 fin, arrives self c s s1 fin.
Proof.
  destruct c as [|wait timeout|wait|timeout]; cbn [run_connect].
  - unfold connect. destruct (ConnectNamedPipe _ _ _) as [[code|] w] eqn:Ec; [|eexists _, _; eapply arrives_connect; eauto].
    destruct (Z.eqb_spec code ERROR_PIPE_CONNECTED) as [->|_]; [eexists _, _; eapply arrives_connect; eauto|done].
  - apply wait_timeout_arrived.
  - intros (s1 & fin & H)%wait_timeout_arrived. eexists _, _. by apply arrives_wait.
  - intros H. apply eff_bind_ok in H as (e & s0 & He & H). unfold eff_scoped in H.
    destruct (connect_with_wait_timeout self e timeout s0) as [r s2] eqn:E. injection H as -> _.
    apply wait_timeout_arrived in E as (s1 & fin & H). eexists _, _. by eapply arrives_timeout.
Qed.

Lemma validate_refused (self : NamedPipeServer) s1 e s2 : sv_allowed_executables self <> [] ->
  check_client_executable self s1 = (Err e, s2) ->
  validate_connected_client self s1 = (Err e, at_machine (DisconnectNamedPipe (pmach s2) (sv_handle self)).2 s2).
Proof.
  intros Hne Hc. unfold validate_connected_client. rewrite decide_False by done. unfold eff_bind at 1, eff_try at 1. rewrite Hc.
  unfold eff_bind, eff_try, disconnect. by destruct (DisconnectNamedPipe (pmach s2) (sv_handle self)) as [[] w].
Qed.

Lemma validate_admits (self : NamedPipeServer) s1 s2 : sv_allowed_executables self <> [] ->
  validate_connected_client self s1 = (Ok tt, s2) <-> admitted self s1 s2.
Proof.
  intros Hne. rewrite <- check_client_ok. unfold validate_connected_client. rewrite decide_False by done.
  unfold eff_bind at 1, eff_try at 1. destruct (check_client_executable self s1) as [[[]|e|x] s3]; [done| |done].
  split; [|done]. unfold eff_bind, eff_try. by destruct (disconnect self s3) as [[u|e'|x] s4].
Qed.

(** [C18] Only allowed executables get through.  On a server with an
    allow-list, each of the four connecting functions succeeds exactly when a
    client arrived and this client was admitted: in the very state in which
    Windows had reported the connection, the process at the other end of the
    pipe was asked for, opened, its image path read and found in the list up
    to ASCII case, with nothing done afterwards but closing the function's
    own events.  When the check of a client that arrived fails, at whatever
    step, the function itself returns that error, and it has disconnected the
    client right after the check. *)
Theorem connect_only_allowed (self : NamedPipeServer) (c : connecting) (s : proc_st M) :
  sv_allowed_executables self <> [] ->
  (forall s', run_connect self c s = (Ok tt, s') <->
     exists s1 s2 fin, arrives self c s s1 fin /\ admitted self s1 s2 /\ s' = fin s2) /\
  (forall s1 fin e s2, arrives self c s s1 fin -> check_client_executable self s1 = (Err e, s2) ->
     run_connect self c s = (Err e, fin (at_machine (DisconnectNamedPipe (pmach s2) (sv_handle self)).2 s2))).
Proof.
  intros Hne. split.
  - intros s'. split.
    + intros H. destruct (run_needs_client _ _ _ _ H) as (s1 & fin & Ha). rewrite (run_arrived _ _ _ _ _ Ha) in H.
      destruct (validate_connected_client self s1) as [r s2] eqn:Ev. injection H as -> <-.
      exists s1, s2, fin. split_and!; [done| |done]. by apply validate_admits.
    + intros (s1 & s2 & fin & Ha & Hd & ->). apply validate_admits in Hd; [|done]. by rewrite (run_arrived _ _ _ _ _ Ha), Hd.
  - intros s1 fin e s2 Ha Hc. by rewrite (run_arrived _ _ _ _ _ Ha), (validate_refused _ _ _ _ Hne Hc).
Qed.

(** ** Creation and impersonation *)

(** Windows documents that a handle it returns is valid. *)
Class server_laws : Prop := {
  create_pipe_ok w n o m i a b t sec h w' :
    CreateNamedPipeW w n o m i a b t sec = (Some h, w') -> handle_ok h = true;
  open_thread_token_ok w h w' : OpenThreadToken w = (inr h, w') -> handle_ok h = true }.

Lemma owns_new_event : owns (W := M) new_event (fun e => [ResHandle (wait_raw e)]).
Proof.
  intros s. unfold new_event. destruct (wait_manual_reset false (pmach s)) as [[e|x|x] w];
    [|exact (gained_refl s)..]. exact (gained_acquire s (at_machine w s) _ [] (gained_refl s)).
Qed.

Context `{laws : !server_laws}.

(** Creating a server holds exactly the pipe and its event: when the
    security descriptor, the pipe or the event cannot be created, everything
    created before is released again. *)
Theorem server_create_owns (config : NamedPipeServerConfig) :
  owns (W := M) (server_create config)
    (fun v => [ResHandle (wait_raw (sv_io_event v)); ResHandle (sv_handle v)]).
Proof.
  apply owns_with_attrs. intros a s. unfold eff_bind at 1, create_pipe.
  destruct (CreateNamedPipeW _ _ _ _ _ _ _ _ _) as [[h|] w] eqn:Ec; [|exact (gained_refl s)].
  apply create_pipe_ok in Ec.
  pose proof (gained_acquire s (at_machine w s) (ResHandle h) [] (gained_refl s)) as Hh.
  unfold eff_bind, eff_guard. pose proof (owns_new_event (acquire (ResHandle h) (at_machine w s))) as He.
  destruct (new_event _) as [[e|x|x] s1].
  - eapply gained_eq; [exact (gained_trans _ _ _ _ _ Hh He)|]. intros r. cbn [app].
    rewrite !count_res_cons. cbn. lia.
  - unfold drop_owned. cbn. rewrite Ec. apply gained_release. exact (gained_trans _ _ _ _ _ Hh He).
  - unfold drop_owned. cbn. rewrite Ec. apply gained_release. exact (gained_trans _ _ _ _ _ Hh He).
Qed.

(** Asking whether a client is elevated never keeps its identity: the call
    ends with the thread under its own identity and the token closed, with an
    error or not, or the process is aborted because it could not return to
    it. *)
Theorem elevation_check_reverts (self : NamedPipeServer) (s : proc_st M) :
  match client_is_elevated_admin self s with
  | (Panic x, _) => x = ProcessAbort
  | (_, s') => gained s s' []
  end.
Proof.
  unfold client_is_elevated_admin. destruct (ImpersonateNamedPipeClient _ _) as [[e|] w]; [exact (gained_refl s)|].
  unfold reverting. set (s1 := acquire ResImpersonation (at_machine w s)).
  assert (Hs1 : gained s s1 [ResImpersonation]) by exact (gained_acquire s (at_machine w s) _ [] (gained_refl s)).
  match goal with |- context [let '(_, _) := ?m s1 in _] => set (body := m) end.
  assert (Hb : owns (W := M) body (fun _ => []) /\ forall s x s', body s = (Panic x, s') -> False).
  { split.
    - apply owns_scoped; [apply owns_acquiring|apply valid_open; intros ???; apply open_thread_token_ok|].
      intros token s2. destruct (CreateAdministratorsSid _) as [?|sid]; [exact (gained_refl s2)|].
      destruct (CheckTokenMembership _ _ _); exact (gained_refl s2).
    - intros s2 x s3. unfold body, eff_bind, open_handle, acquiring. destruct (OpenThreadToken _) as [[e|t] w2]; [done|].
      unfold eff_scoped. destruct (CreateAdministratorsSid _) as [?|sid]; [done|]. by destruct (CheckTokenMembership _ _ _). }
  destruct Hb as [Ho Hp]. specialize (Ho s1). specialize (Hp s1).
  destruct (body s1) as [[b|e|x] s2]; [| |by destruct (Hp x s2)];
    (destruct (RevertToSelf _) as [[|] w2]; [|done]; apply gained_release; exact (gained_trans _ _ _ _ _ Hs1 Ho)).
Qed.
End Spec.

(** ** A concrete machine: one client, whose executable is [C:\a.exe] *)

Module Demo.
Abbreviation M := (unit * option device_map)%type.

Definition handles : handle_api := {| handle_ok h := 0 <? h |}.

Definition pipes : pipe_api M := {|
  pipe_last_error w := 5; ConvertSddl u := inr 9; WaitNamedPipeW w n t := (true, w);
  CreateFileW w n a s := (inr 3, w); CreatePipe w s n := (inr (1, 2), w);
  ReadFile w h n := (None, [], w); WriteFile w h b := (inr (zlen b), w); FlushFileBuffers w h := (None, w) |}.

(** The wait for the connection times out. *)
Definition waits : wait_api M := {|
  last_error w := 0; CreateEventW w m i n := (Some 5, w); SetEvent w h := (true, w); ResetEvent w h := (true, w);
  WaitForSingleObject w h ms := (WAIT_OBJECT_0, w); WaitForMultipleObjects w hs all ms := (WAIT_TIMEOUT, w) |}.

Definition server : server_api M := {|
  CreateNamedPipeW w n o m i a b t s := (Some 11, w);
  ConnectNamedPipe w h overlapped := (if overlapped then Some ERROR_IO_PENDING else None, w);
  GetOverlappedResult w h wait := (None, 4, w);
  CancelIoEx w h := w;
  ReadFileOverlapped w h n := (None, w);
  WriteFileOverlapped w h b := (None, w);
  GetNamedPipeClientProcessId w h := Some 8;
  DisconnectNamedPipe w h := (true, w);
  ImpersonateNamedPipeClient w h := (None, w);
  OpenThreadToken w := (inr 21, w);
  CreateAdministratorsSid w := inr 1;
  CheckTokenMembership w t s := inr true;
  RevertToSelf w := (true, w) |}.

Lemma server_ok : server_laws (ho := handles) (sapi := server).
Proof. split; [by intros * [= <- _]|by intros * [= <- _]]. Qed.

Definition state : proc_st M := mkProcSt (tt, None) (fun _ => 0).
Definition config : NamedPipeServerConfig :=
  mkServerConfig (mkPipeName (lit "\\.\pipe\p")) Duplex PipeByte 1 4096 4096 0
    (mkPipeSecurityOptions true None) [lit "c:\A.EXE"] false.
Definition a_server : NamedPipeServer :=
  mkServer (server_endpoint_from_raw 11 true (mkPipeName (lit "\\.\pipe\p")) Duplex PipeByte) 0
    [lit "c:\A.EXE"] (mkWait 5 true) None.
End Demo.

Lemma connect_abandons_pending_witness :
  exists err s', connect_with_wait_timeout (ho := Demo.handles) (prapi := demo_process 2 0) (papi := Demo.pipes)
      (wapi := Demo.waits) (sapi := Demo.server) Demo.a_server (mkWait 6 true) 1000 Demo.state = (Err err, s') /\
    gained Demo.state s' [ResPending 11].
Proof.
  apply (connect_abandons_pending (ho := Demo.handles) (prapi := demo_process 2 0) (papi := Demo.pipes)
    (wapi := Demo.waits) (sapi := Demo.server) Demo.a_server (mkWait 6 true) 1000 Demo.state (mkWait 5 true)
    (tt, None) (tt, None) (tt, None) WAIT_TIMEOUT); (reflexivity || discriminate).
Defined.

Lemma connect_only_allowed_witness :
  exists s1 s2 fin, arrives (ho := Demo.handles) (wapi := Demo.waits) (sapi := Demo.server) Demo.a_server Connect Demo.state s1 fin /\
    admitted (prapi := demo_process 2 0) (sapi := Demo.server) Demo.a_server s1 s2.
Proof.
  destruct (connect_only_allowed (prapi := demo_process 2 0) (papi := Demo.pipes)
    (ho := Demo.handles) (wapi := Demo.waits) (sapi := Demo.server) Demo.a_server Connect Demo.state ltac:(discriminate)) as [H _].
  destruct (run_connect (prapi := demo_process 2 0) (papi := Demo.pipes) (ho := Demo.handles) (wapi := Demo.waits)
    (sapi := Demo.server) Demo.a_server Connect Demo.state) as [[[]|e|x] s'] eqn:E; [|vm_compute in E; discriminate E..].
  destruct (proj1 (H s') eq_refl) as (s1 & s2 & fin & Ha & Hd & _). by exists s1, s2, fin.
Defined.

(** A machine whose first component says whether a transfer is under way: a
    read is pending until somebody waits for its result. *)
Module Flight.
Abbreviation M := (bool * option device_map)%type.
Definition waits : wait_api M := {|
  last_error w := 0; CreateEventW w m i n := (Some 5, w); SetEvent w h := (true, w); ResetEvent w h := (true, w);
  WaitForSingleObject w h ms := (WAIT_TIMEOUT, w); WaitForMultipleObjects w hs all ms := (WAIT_TIMEOUT, w) |}.
Definition server : server_api M := {|
  CreateNamedPipeW w n o m i a b t s := (Some 11, w);
  ConnectNamedPipe w h overlapped := (None, w);
  GetOverlappedResult w h wait := (None, 4, if wait : bool then (false, snd w) else w);
  CancelIoEx w h := w;
  ReadFileOverlapped w h n := (Some (mk_win_error (hresult_from_win32 ERROR_IO_PENDING)), (true, snd w));
  WriteFileOverlapped w h b := (None, w);
  GetNamedPipeClientProcessId w h := Some 8;
  DisconnectNamedPipe w h := (true, w);
  ImpersonateNamedPipeClient w h := (None, w);
  OpenThreadToken w := (inr 21, w);
  CreateAdministratorsSid w := inr 1;
  CheckTokenMembership w t s := inr true;
  RevertToSelf w := (true, w) |}.
Definition laws : overlapped_laws (wapi := waits) (sapi := server).
Proof.
  refine (Build_overlapped_laws (W := bool) (wapi := waits) (sapi := server) (fun w _ => fst w = true) _ _ _ _).
  - intros w h n r w' [= <- <-] H. by destruct H.
  - by intros w h b r w' [= <- <-].
  - done.
  - by intros w h x n w' [= _ _ <-].
Defined.
End Flight.

Lemma overlapped_io_leaves_nothing_pending_witness :
  fst (pmach (server_read (wapi := Flight.waits) (sapi := Flight.server) Demo.a_server 16
                (mkProcSt (false, None) (fun _ => 0))).2) <> true.
Proof.
  exact (proj1 (overlapped_io_leaves_nothing_pending (wapi := Flight.waits) (sapi := Flight.server) (olaws := Flight.laws)
    Demo.a_server (mkProcSt (false, None) (fun _ => 0)) 16 [] ltac:(discriminate))).
Defined.

Lemma server_create_owns_witness :
  match server_create (ho := Demo.handles) (papi := Demo.pipes) (wapi := Demo.waits) (sapi := Demo.server)
          Demo.config Demo.state with
  | (Ok v, s') => sv_handle v = 11 /\ gained Demo.state s' [ResHandle 5; ResHandle 11]
  | _ => False
  end.
Proof.
  pose proof (server_create_owns (ho := Demo.handles) (papi := Demo.pipes) (wapi := Demo.waits) (sapi := Demo.server)
                (laws := Demo.server_ok) Demo.config Demo.state) as H.
  split; [reflexivity|exact H].
Defined.

Lemma elevation_check_reverts_witness :
  match client_is_elevated_admin (ho := Demo.handles) (sapi := Demo.server) Demo.a_server Demo.state with
  | (Ok b, s') => b = true /\ gained Demo.state s' []
  | _ => False
  end.
Proof.
  pose proof (elevation_check_reverts (ho := Demo.handles) (sapi := Demo.server) (laws := Demo.server_ok)
                Demo.a_server Demo.state) as H.
  split; [reflexivity|exact H].
Defined.
