(* ===== verification/PipeList.v ===== *)
(** * PipeList: listing and watching named pipes

    src/pipes/enumerate.rs.  The kernel's directory answers are bytes, read
    with the documented layout of [FILE_DIRECTORY_INFORMATION]; the code reads
    them through raw pointers, so a read outside the answer is
    [UndefinedBehaviour].  The poller's [HashMap] is a [gmap], and the order in
    which it is iterated is a parameter. *)

From Stdlib Require Import ZArith Lia String Ascii.
From stdpp Require Import base list strings gmap numbers sorting.
From S2P Require Import Prelude Text Unicode Errors Backends Effects Resources EvtTypes Wait Pipes.

Open Scope Z_scope.

Record NamedPipeLocalInfo := mkLocalInfo {
  li_type : Z; li_configuration : Z; li_maximum_instances : Z; li_current_instances : Z;
  li_inbound_quota : Z; li_read_data_available : Z; li_outbound_quota : Z; li_write_quota_available : Z;
  li_state : Z; li_end : Z; li_server_process_id : option Z }.

Record NamedPipeInfo := mkPipeInfo {
  np_pipe_name : PipeName; np_relative_name : str; np_creation_time : option Z; np_last_access_time : option Z;
  np_last_write_time : option Z; np_change_time : option Z; np_end_of_file : Z; np_allocation_size : Z;
  np_file_attributes : Z; np_file_index : Z; np_local_info : option NamedPipeLocalInfo }.

Inductive NamedPipeChange := Appeared (i : NamedPipeInfo) | Removed (i : NamedPipeInfo).

Definition change_name (c : NamedPipeChange) : str :=
  match c with Appeared i | Removed i => pipe_str (np_pipe_name i) end.

Definition NAMED_PIPE_DIRECTORY_PATH : str := lit "\Device\NamedPipe\".
Definition NAMED_PIPE_DIRECTORY_RESOURCE : str := lit "\Device\NamedPipe".
Definition STATUS_SUCCESS : Z := 0.
Definition STATUS_NO_MORE_FILES : Z := as_i32 0x80000006.
Definition DIRECTORY_BUFFER_CAPACITY : Z := 64 * 1024.
Definition FILE_LIST_DIRECTORY : Z := 1.
Definition FILE_READ_ATTRIBUTES : Z := 0x80.
Definition SYNCHRONIZE_ACCESS : Z := 0x100000.
Definition FILE_DIRECTORY_FILE : Z := 1.
Definition FILE_SYNCHRONOUS_IO_NONALERT : Z := 0x20.
Definition FILE_NON_DIRECTORY_FILE : Z := 0x40.
Definition FILE_OPEN_FOR_BACKUP_INTENT : Z := 0x4000.

(** ** Ordering by name

    [str::cmp] compares the bytes; [sort_by] is stable. *)
Fixpoint str_leb (a b : str) : bool :=
  match a, b with
  | [], _ => true
  | _ :: _, [] => false
  | x :: a, y :: b => if x <? y then true else if x =? y then str_leb a b else false
  end.

Fixpoint insert_by_name {A} (name : A -> str) (x : A) (l : list A) : list A :=
  match l with
  | [] => [x]
  | y :: l' => if str_leb (name x) (name y) then x :: l else y :: insert_by_name name x l'
  end.
Definition sort_by_name {A} (name : A -> str) (l : list A) : list A := foldr (insert_by_name name) [] l.

(** ** One directory answer *)

Definition dword (e : list Z) (off : nat) : Z := le_decode (take 4 (drop off e)).
Definition qword (e : list Z) (off : nat) : Z := as_i64 (le_decode (take 8 (drop off e))).

(** The entry at the start of [e]: [None] when its name is empty. *)
Definition parse_entry (e : list Z) : res Error (option NamedPipeInfo) :=
  if (length e <? 64)%nat then Panic UndefinedBehaviour
  else
    let name_len := Z.to_nat (dword e 60 / 2) in
    if (length e <? 64 + 2 * name_len)%nat then Panic UndefinedBehaviour
    else
      let relative_name := from_utf16_lossy (units_of_bytes (take (2 * name_len) (drop 64 e))) in
      if decide (relative_name = []) then Ok None
      else
        let! pipe_name := map_err (fun _ => Error_Pipe (PipeError_Io (mkPipeIoError NAMED_PIPE_DIRECTORY_RESOURCE
                                      (lit "parse named pipe directory entry") None))) (from_relative_name relative_name) in
        let! creation := filetime_to_system_time (qword e 8) in
        let! access := filetime_to_system_time (qword e 16) in
        let! write := filetime_to_system_time (qword e 24) in
        let! change := filetime_to_system_time (qword e 32) in
        Ok (Some (mkPipeInfo pipe_name relative_name creation access write change (qword e 40) (qword e 48)
                    (dword e 56) (dword e 4) None)).

(** The loop over the entries from [offset]. *)
Fixpoint entries_loop (fuel : nat) (buffer : list Z) (offset : nat) (filter : NamedPipeInfo -> bool)
    (out_pipes : list NamedPipeInfo) : res Error (list NamedPipeInfo) :=
  match fuel with
  | O => Panic OutOfFuel
  | S fuel =>
      if (offset <? length buffer)%nat then
        let e := drop offset buffer in
        let! info := parse_entry e in
        let out_pipes := match info with
                         | Some i => if filter i then out_pipes ++ [i] else out_pipes
                         | None => out_pipes
                         end in
        let next := dword e 0 in
        if next =? 0 then Ok out_pipes
        else entries_loop fuel buffer (offset + Z.to_nat next) filter out_pipes
      else Ok out_pipes
  end.

Definition parse_directory_entries (buffer : list Z) (filter : NamedPipeInfo -> bool) (out_pipes : list NamedPipeInfo)
    : res Error (list NamedPipeInfo) := entries_loop (S (length buffer)) buffer 0 filter out_pipes.

(** ** Listing *)

(** The kernel's calls: a path with its length in bytes, an access mask and
    options; a status and a handle. *)
Class pipe_list_api (W : Type) := {
  NtCreateFile : W -> list Z -> Z -> Z -> Z -> Z * Z * W;
  NtQueryDirectoryFile : W -> Z -> Z -> bool -> Z * list Z * W;
  NtQueryPipeLocal : W -> Z -> Z * NamedPipeLocalInfo;
  GetNamedPipeServerProcessId : W -> Z -> option Z;
  RtlNtStatusToDosError : Z -> Z }.

Section Listing.
Context {W : Type} `{ho : !handle_api} `{api : !pipe_list_api W}.

Abbreviation P := (eff (proc_st W) Error).

Definition pipe_directory_status_error (operation : string) (status : Z) : Error :=
  let error_code := RtlNtStatusToDosError status in
  Error_Pipe (PipeError_Io (mkPipeIoError NAMED_PIPE_DIRECTORY_RESOURCE (lit operation)
    (Some (if error_code =? 0 then status else as_i32 error_code)))).

(** A call of [NtCreateFile] and the check of its status. *)
Definition nt_open (path : list Z) (access options : Z) (operation : string) : P OwnedHandle := fun s =>
  let nt_path_wide := path ++ [0] in
  match NtCreateFile (pmach s) nt_path_wide (wrap 16 ((zlen nt_path_wide - 1) * 2)) access options with
  | (status, h, w) =>
      if negb (status =? STATUS_SUCCESS)
      then (Err (pipe_directory_status_error operation status), at_machine w s)
      else (Ok (owned_new h), acquire (ResHandle h) (at_machine w s))
  end.

Definition open_named_pipe_directory : P OwnedHandle :=
  nt_open (encode_utf16 NAMED_PIPE_DIRECTORY_PATH) (Z.lor FILE_LIST_DIRECTORY SYNCHRONIZE_ACCESS)
    (Z.lor (Z.lor FILE_DIRECTORY_FILE FILE_SYNCHRONOUS_IO_NONALERT) FILE_OPEN_FOR_BACKUP_INTENT)
    "open named pipe directory".

Definition open_named_pipe_file (relative_name_utf16 : list Z) : P OwnedHandle :=
  nt_open (encode_utf16 NAMED_PIPE_DIRECTORY_PATH ++ relative_name_utf16) (Z.lor FILE_READ_ATTRIBUTES SYNCHRONIZE_ACCESS)
    (Z.lor FILE_NON_DIRECTORY_FILE FILE_SYNCHRONOUS_IO_NONALERT) "open named pipe for local info".

(** The loop over the answers of [NtQueryDirectoryFile]. *)
Fixpoint list_loop (fuel : nat) (h : Z) (restart_scan : bool) (filter : NamedPipeInfo -> bool)
    (out_pipes : list NamedPipeInfo) : P (list NamedPipeInfo) := fun s =>
  match fuel with
  | O => (Panic OutOfFuel, s)
  | S fuel =>
      let '(status, bytes, w) := NtQueryDirectoryFile (pmach s) h DIRECTORY_BUFFER_CAPACITY restart_scan in
      let s := at_machine w s in
      if status =? STATUS_NO_MORE_FILES then (Ok out_pipes, s)
      else if negb (status =? STATUS_SUCCESS)
      then (Err (pipe_directory_status_error "query named pipe directory" status), s)
      else if (length bytes =? 0)%nat then (Ok out_pipes, s)
      else if DIRECTORY_BUFFER_CAPACITY <? zlen bytes then (Panic IndexOutOfBounds, s)
      else match parse_directory_entries bytes filter out_pipes with
           | Ok out_pipes => list_loop fuel h false filter out_pipes s
           | Err e => (Err e, s)
           | Panic x => (Panic x, s)
           end
  end.

Definition list_with_filter (fuel : nat) (filter : NamedPipeInfo -> bool) : P (list NamedPipeInfo) :=
  let* directory_handle := open_named_pipe_directory in
  eff_scoped (drop_owned directory_handle)
    (let* out := list_loop fuel (oh_handle directory_handle) true filter [] in
     eff_ret (sort_by_name (fun i => pipe_str (np_pipe_name i)) out)).
Definition list_pipes (fuel : nat) : P (list NamedPipeInfo) := list_with_filter fuel (fun _ => true).

Definition with_server_pid (i : NamedPipeLocalInfo) (pid : option Z) : NamedPipeLocalInfo :=
  mkLocalInfo (li_type i) (li_configuration i) (li_maximum_instances i) (li_current_instances i) (li_inbound_quota i)
    (li_read_data_available i) (li_outbound_quota i) (li_write_quota_available i) (li_state i) (li_end i) pid.

Definition query_pipe_local_info (relative_name_utf16 : list Z) : P NamedPipeLocalInfo :=
  let* pipe_handle := open_named_pipe_file relative_name_utf16 in
  eff_scoped (drop_owned pipe_handle) (fun s =>
    let '(status, local_info) := NtQueryPipeLocal (pmach s) (oh_handle pipe_handle) in
    (if negb (status =? STATUS_SUCCESS)
     then Err (pipe_directory_status_error "query named pipe local information" status)
     else Ok (with_server_pid local_info (GetNamedPipeServerProcessId (pmach s) (oh_handle pipe_handle))), s)).

Definition query_local_info (pipe_name : PipeName) : P NamedPipeLocalInfo :=
  let* relative_name := eff_lift (ok_or (strip_prefix PREFIX (pipe_str pipe_name))
      (Error_Pipe (PipeError_Io (mkPipeIoError NAMED_PIPE_DIRECTORY_RESOURCE (lit "derive relative pipe name") None)))) in
  query_pipe_local_info (encode_utf16 relative_name).
End Listing.

(** ** The poller *)

Abbreviation pipe_map := (gmap PipeName NamedPipeInfo).

(** The order in which a [HashMap] is iterated. *)
Class map_order := { iterate : pipe_map -> list (PipeName * NamedPipeInfo) }.
Class map_order_law `{map_order} : Prop := { iterate_perm : forall m, iterate m ≡ₚ map_to_list m }.

Record NamedPipePoller := mkPoller { known_pipes : pipe_map }.
Definition poller_new : NamedPipePoller := mkPoller ∅.

Definition index_pipes (pipes : list NamedPipeInfo) : pipe_map :=
  fold_left (fun m i => <[np_pipe_name i := i]> m) pipes ∅.

Section Poller.
Context `{mo : map_order}.

Definition appeared (known current : pipe_map) : list NamedPipeChange :=
  omap (fun '(name, i) => match known !! name with None => Some (Appeared i) | Some _ => None end) (iterate current).
Definition removed (known current : pipe_map) : list NamedPipeChange :=
  omap (fun '(name, i) => match current !! name with None => Some (Removed i) | Some _ => None end) (iterate known).

(** [NamedPipePoller::poll] once the pipes are listed. *)
Definition poll_with (self : NamedPipePoller) (current_pipes : list NamedPipeInfo)
    : list NamedPipeChange * NamedPipePoller :=
  let current_map := index_pipes current_pipes in
  (sort_by_name change_name (appeared (known_pipes self) current_map ++ removed (known_pipes self) current_map),
   mkPoller current_map).

Definition seed_with (self : NamedPipePoller) (current_pipes : list NamedPipeInfo) : NamedPipePoller :=
  mkPoller (index_pipes current_pipes).

Context {W : Type} `{ho : !handle_api} `{api : !pipe_list_api W}.

(** A failed listing leaves the poller as it was, so the new one is only
    returned with a result. *)
Definition poll (fuel : nat) (self : NamedPipePoller) : eff (proc_st W) Error (list NamedPipeChange * NamedPipePoller) :=
  let* current_pipes := list_pipes fuel in eff_ret (poll_with self current_pipes).
Definition seed (fuel : nat) (self : NamedPipePoller) : eff (proc_st W) Error (Z * NamedPipePoller) :=
  let* current_pipes := list_pipes fuel in
  eff_ret (Z.of_nat (size (index_pipes current_pipes)), seed_with self current_pipes).

(** [NamedPipePoller::poll_interval]; the sleep is not observable here. *)
Fixpoint poller_poll_interval (rounds fuel : nat) (self : NamedPipePoller)
    : eff (proc_st W) Error (list (list NamedPipeChange) * NamedPipePoller) :=
  match rounds with
  | O => eff_ret ([], self)
  | S rounds =>
      let* r := poll fuel self in
      let* rest := poller_poll_interval rounds fuel (snd r) in
      eff_ret (fst r :: fst rest, snd rest)
  end.

(** [NamedPipePoller::poll_interval_with_callback] from round [round]; the
    callback is a function on the caller's state. *)
Fixpoint poller_poll_interval_with_callback {C} (rounds fuel : nat) (round : Z) (self : NamedPipePoller)
    (callback : C -> Z -> list NamedPipeChange -> C) (c : C) (total_changes : Z)
    : eff (proc_st W) Error (Z * NamedPipePoller * C) :=
  match rounds with
  | O => eff_ret (total_changes, self, c)
  | S rounds =>
      let* r := poll fuel self in
      poller_poll_interval_with_callback rounds fuel (round + 1) (snd r) callback (callback c round (fst r))
        (total_changes + zlen (fst r))
  end.

Definition poll_interval (rounds fuel : nat) : eff (proc_st W) Error (list (list NamedPipeChange)) :=
  let* poller := seed fuel poller_new in
  let* r := poller_poll_interval rounds fuel (snd poller) in
  eff_ret (fst r).
Definition poll_interval_with_callback {C} (rounds fuel : nat) (callback : C -> Z -> list NamedPipeChange -> C) (c : C)
    : eff (proc_st W) Error (Z * C) :=
  let* poller := seed fuel poller_new in
  let* r := poller_poll_interval_with_callback rounds fuel 1 (snd poller) callback c 0 in
  eff_ret (fst (fst r), snd r).
End Poller.

(** ** Sorting by name *)

Lemma str_leb_refl (a : str) : str_leb a a = true.
Proof. induction a as [|x a IH]; [done|]. cbn. by rewrite Z.ltb_irrefl, Z.eqb_refl. Qed.

Lemma str_leb_total (a b : str) : str_leb a b = false -> str_leb b a = true.
Proof.
  revert b. induction a as [|x a IH]; intros [|y b]; cbn; try done.
  destruct (Z.ltb_spec x y), (Z.eqb_spec x y), (Z.ltb_spec y x), (Z.eqb_spec y x); try lia; try done. apply IH.
Qed.

Lemma str_leb_antisym (a b : str) : str_leb a b = true -> str_leb b a = true -> a = b.
Proof.
  revert b. induction a as [|x a IH]; intros [|y b]; cbn; try done.
  destruct (Z.ltb_spec x y), (Z.eqb_spec x y), (Z.ltb_spec y x), (Z.eqb_spec y x); try lia; try done.
  intros H1 H2. subst. f_equal. by apply IH.
Qed.

#[export] Instance str_leb_trans : Transitive (fun a b : str => str_leb a b = true).
Proof.
  intros a. induction a as [|x a IH]; intros [|y b] [|z c]; cbn; try done.
  destruct (Z.ltb_spec x y), (Z.eqb_spec x y), (Z.ltb_spec y z), (Z.eqb_spec y z), (Z.ltb_spec x z),
    (Z.eqb_spec x z); try lia; try done. apply IH.
Qed.

Section Sorting.
Context {A : Type} (name : A -> str).

Definition name_le (x y : A) : Prop := str_leb (name x) (name y) = true.

Lemma insert_by_name_perm (x : A) (l : list A) : insert_by_name name x l ≡ₚ x :: l.
Proof.
  induction l as [|y l IH]; cbn; [done|]. destruct (str_leb _ _); [done|]. rewrite IH. constructor.
Qed.

Lemma sort_by_name_perm (l : list A) : sort_by_name name l ≡ₚ l.
Proof. induction l as [|x l IH]; cbn; [done|]. by rewrite insert_by_name_perm, IH. Qed.

Lemma insert_by_name_sorted (x : A) (l : list A) :
  StronglySorted name_le l -> StronglySorted name_le (insert_by_name name x l).
Proof.
  induction 1 as [|y l Hl IH Hy]; cbn; [repeat constructor|]. destruct (str_leb (name x) (name y)) eqn:E.
  - repeat constructor; try done. eapply Forall_impl; [exact Hy|]. intros z Hz. unfold name_le in *.
    by apply (str_leb_trans _ (name y)).
  - constructor; [done|]. rewrite insert_by_name_perm. constructor; [by apply str_leb_total|done].
Qed.

Lemma sort_by_name_sorted (l : list A) : StronglySorted name_le (sort_by_name name l).
Proof. induction l as [|x l IH]; cbn; [constructor|]. by apply insert_by_name_sorted. Qed.

(** With distinct names the sorted list depends only on the elements. *)
Lemma sort_by_name_unique (l l' : list A) : NoDup (name <$> l) -> l ≡ₚ l' -> sort_by_name name l = sort_by_name name l'.
Proof.
  intros Hnd Hp. apply (StronglySorted_unique_strong name_le); [|apply sort_by_name_sorted..|].
  - intros x y Hx Hy H1 H2. rewrite sort_by_name_perm in Hx. rewrite sort_by_name_perm, <- Hp in Hy.
    pose proof (str_leb_antisym _ _ H1 H2) as E. apply list_elem_of_lookup in Hx as [i Hi], Hy as [j Hj].
    assert (i = j) as ->.
    { apply (NoDup_lookup (name <$> l) i j (name x)); [done|..]; rewrite list_lookup_fmap, ?Hi, ?Hj; cbn; congruence. }
    congruence.
  - by rewrite !sort_by_name_perm.
Qed.
End Sorting.

(** ** The poller's differences *)

(** Every pipe is stored under its own name. *)
Definition well_keyed (m : pipe_map) : Prop := forall n i, m !! n = Some i -> np_pipe_name i = n.

Definition changes_between (known current : pipe_map) (c : NamedPipeChange) : Prop :=
  match c with
  | Appeared i => current !! np_pipe_name i = Some i /\ known !! np_pipe_name i = None
  | Removed i => known !! np_pipe_name i = Some i /\ current !! np_pipe_name i = None
  end.

Definition replay (names : gset PipeName) (c : NamedPipeChange) : gset PipeName :=
  match c with Appeared i => names ∪ {[np_pipe_name i]} | Removed i => names ∖ {[np_pipe_name i]} end.

Definition change_key (c : NamedPipeChange) : PipeName := match c with Appeared i | Removed i => np_pipe_name i end.

Lemma change_name_key (c : NamedPipeChange) : change_name c = pipe_str (change_key c).
Proof. by destruct c. Qed.

Lemma index_pipes_lookup (pipes : list NamedPipeInfo) (m : pipe_map) n i :
  fold_left (fun m i => <[np_pipe_name i := i]> m) pipes m !! n = Some i ->
  (i ∈ pipes /\ np_pipe_name i = n) \/ m !! n = Some i.
Proof.
  revert m. induction pipes as [|p l IH]; intros m H; cbn in H; [by right|].
  destruct (IH _ H) as [[Hi Hn]|Hm]; [left; set_solver|]. destruct (decide (np_pipe_name p = n)) as [E|E].
  - subst n. rewrite lookup_insert_eq in Hm. left. set_solver.
  - rewrite lookup_insert_ne in Hm by done. by right.
Qed.

Lemma index_pipes_keyed (pipes : list NamedPipeInfo) : well_keyed (index_pipes pipes).
Proof. intros n i H. apply index_pipes_lookup in H as [[_ H]|H]; [done|]. by rewrite lookup_empty in H. Qed.

(** The index has, under each name, the last pipe of that name. *)
Lemma index_pipes_last (pipes : list NamedPipeInfo) n :
  index_pipes pipes !! n = last (filter (fun i => np_pipe_name i = n) pipes).
Proof.
  unfold index_pipes. induction pipes as [|p l IH] using rev_ind; [done|].
  rewrite fold_left_app, filter_app. cbn [fold_left]. rewrite filter_cons, filter_nil.
  case_decide as E; [by rewrite last_snoc, E, lookup_insert_eq|].
  by rewrite app_nil_r, lookup_insert_ne by done.
Qed.

Lemma index_pipes_dom (pipes : list NamedPipeInfo) : dom (index_pipes pipes) = list_to_set (np_pipe_name <$> pipes).
Proof.
  unfold index_pipes. transitivity (dom (∅ : pipe_map) ∪ list_to_set (np_pipe_name <$> pipes)); [|set_solver].
  generalize (∅ : pipe_map). induction pipes as [|p l IH]; intros m; cbn [fold_left fmap list_fmap list_to_set]; [set_solver|].
  rewrite IH, dom_insert_L. set_solver.
Qed.

Section Differences.
Context {mo : map_order} {mol : map_order_law}.

Lemma iterate_elem (m : pipe_map) n i : (n, i) ∈ iterate m <-> m !! n = Some i.
Proof. rewrite iterate_perm. apply elem_of_map_to_list. Qed.

Lemma appeared_elem (known current : pipe_map) c : well_keyed current ->
  c ∈ appeared known current <-> exists i, c = Appeared i /\ changes_between known current c.
Proof.
  intros Hk. unfold appeared. rewrite list_elem_of_omap. split.
  - intros [[n i] [Hin H]]. apply iterate_elem in Hin. destruct (known !! n) eqn:E; simplify_eq.
    exists i. pose proof (Hk _ _ Hin) as En. subst n. done.
  - intros (i & -> & Hc & Hn). exists (np_pipe_name i, i). rewrite iterate_elem, Hn. done.
Qed.

Lemma removed_elem (known current : pipe_map) c : well_keyed known ->
  c ∈ removed known current <-> exists i, c = Removed i /\ changes_between known current c.
Proof.
  intros Hk. unfold removed. rewrite list_elem_of_omap. split.
  - intros [[n i] [Hin H]]. apply iterate_elem in Hin. destruct (current !! n) eqn:E; simplify_eq.
    exists i. pose proof (Hk _ _ Hin) as En. subst n. done.
  - intros (i & -> & Hc & Hn). exists (np_pipe_name i, i). rewrite iterate_elem, Hn. done.
Qed.

(** A selection of the entries of a map, each kept under its key, has distinct keys. *)
Lemma select_keys_nodup (f : PipeName * NamedPipeInfo -> option NamedPipeChange) (l : list (PipeName * NamedPipeInfo)) :
  (forall n i c, (n, i) ∈ l -> f (n, i) = Some c -> change_key c = n) -> NoDup l.*1 -> NoDup (change_key <$> omap f l).
Proof.
  induction l as [|[n i] l IH]; intros Hf Hnd; [constructor|]. cbn in Hnd |- *. apply NoDup_cons in Hnd as [Hn Hnd].
  assert (IH' : NoDup (change_key <$> omap f l)) by (apply IH; [set_solver|done]).
  destruct (f (n, i)) as [c|] eqn:E; [|done]. cbn. apply NoDup_cons. split; [|done].
  rewrite list_elem_of_fmap. intros [c' [Hc Hc']]. apply list_elem_of_omap in Hc' as [[n' i'] [Hin Hf']].
  rewrite (Hf n i c) in Hc by set_solver. rewrite (Hf n' i' c') in Hc by set_solver. subst n'. apply Hn.
  apply list_elem_of_fmap. by exists (n, i').
Qed.

Lemma iterate_nodup (m : pipe_map) : NoDup (iterate m).*1.
Proof. rewrite iterate_perm. apply NoDup_fst_map_to_list. Qed.

Lemma differences_nodup (known current : pipe_map) : well_keyed known -> well_keyed current ->
  NoDup (change_key <$> (appeared known current ++ removed known current)).
Proof.
  intros Hk Hc. rewrite fmap_app. apply NoDup_app. split; [|split].
  - apply select_keys_nodup; [|apply iterate_nodup]. intros n i c Hin H. apply iterate_elem, Hc in Hin.
    destruct (known !! n); by simplify_eq.
  - intros n H1 H2. apply list_elem_of_fmap in H1 as (c1 & -> & H1). apply list_elem_of_fmap in H2 as (c2 & E & H2).
    apply appeared_elem in H1 as (i1 & -> & H1 & H1'); [|done]. apply removed_elem in H2 as (i2 & -> & H2 & H2'); [|done].
    cbn in *. congruence.
  - apply select_keys_nodup; [|apply iterate_nodup]. intros n i c Hin H. apply iterate_elem, Hk in Hin.
    destruct (current !! n); by simplify_eq.
Qed.

Lemma differences_elem (known current : pipe_map) c : well_keyed known -> well_keyed current ->
  c ∈ appeared known current ++ removed known current <-> changes_between known current c.
Proof.
  intros Hk Hc. rewrite elem_of_app, appeared_elem, removed_elem by done. destruct c; naive_solver.
Qed.
End Differences.

(** The replay of changes with distinct names: each name is decided by its own change. *)
Lemma replay_spec (changes : list NamedPipeChange) (names : gset PipeName) n : NoDup (change_key <$> changes) ->
  n ∈ fold_left replay changes names <->
  (exists i, Appeared i ∈ changes /\ np_pipe_name i = n) \/
  (n ∈ names /\ ~ exists i, Removed i ∈ changes /\ np_pipe_name i = n).
Proof.
  revert names. induction changes as [|c l IH]; intros names Hnd; cbn [fold_left].
  - set_solver.
  - cbn in Hnd. apply NoDup_cons in Hnd as [Hc Hnd]. rewrite IH by done.
    assert (Hno : forall c', c' ∈ l -> change_key c' <> change_key c).
    { intros c' Hin E. apply Hc, list_elem_of_fmap. eauto. }
    destruct c as [i|i]; cbn [replay change_key] in *; split.
    + intros [(j & Hj & Hn)|(Hn & Hr)]; [set_solver|].
      apply elem_of_union in Hn as [Hn|Hn]; [|set_solver]. right. split; [done|]. set_solver.
    + intros [(j & Hj & Hn)|(Hn & Hr)].
      * apply elem_of_cons in Hj as [Ej|Hj]; [|set_solver]. simplify_eq. right. split; [set_solver|].
        intros (k & Hk & E). by apply (Hno _ Hk).
      * right. split; set_solver.
    + intros [(j & Hj & Hn)|(Hn & Hr)]; [set_solver|]. right. split; [set_solver|].
      intros (k & Hk & E). apply elem_of_cons in Hk as [Ek|Hk]; [simplify_eq; set_solver|]. set_solver.
    + intros [(j & Hj & Hn)|(Hn & Hr)]; [set_solver|]. right. split; [|set_solver].
      apply elem_of_difference. split; [done|]. set_solver.
Qed.

Lemma change_names_nodup (l : list NamedPipeChange) : NoDup (change_key <$> l) -> NoDup (change_name <$> l).
Proof.
  intros H. rewrite (list_fmap_ext _ (fun c => pipe_str (change_key c))) by (intros; apply change_name_key).
  rewrite (list_fmap_compose change_key pipe_str). apply NoDup_fmap_2; [|done].
  intros [a] [b] E. cbn in E. by f_equal.
Qed.

(** [C23] Watching named pipes: the changes a poll reports are exactly the
    pipes that are listed now and were not known (appeared, with the
    information of the current listing) and those that were known and are not
    listed any more (removed, with the information of the last listing they
    were in); they are sorted by name, no name occurs twice, replaying them on
    the known names gives the names listed, and neither the list nor the new
    poller depends on the order in which the hash maps are iterated.  The new
    poller knows exactly the pipes of the current listing, each with the
    information of that listing (of its last entry, should a name occur
    twice), whatever was known of it before, again under its own name. *)
Theorem poll_reports_differences {mo : map_order} {mol : map_order_law} (self : NamedPipePoller)
    (pipes : list NamedPipeInfo) (changes := fst (poll_with self pipes)) (next := snd (poll_with self pipes)) :
  well_keyed (known_pipes self) ->
  (forall c, c ∈ changes <-> changes_between (known_pipes self) (known_pipes next) c) /\
  StronglySorted (name_le change_name) changes /\ NoDup (change_name <$> changes) /\
  fold_left replay changes (dom (known_pipes self)) = list_to_set (np_pipe_name <$> pipes) /\
  (forall other : map_order, map_order_law (H:=other) -> poll_with (mo:=other) self pipes = poll_with (mo:=mo) self pipes) /\
  (forall n, known_pipes next !! n = last (filter (fun i => np_pipe_name i = n) pipes)) /\
  well_keyed (known_pipes next).
Proof.
  intros Hk. pose proof (index_pipes_keyed pipes) as Hc.
  assert (Hel : forall c, c ∈ changes <-> changes_between (known_pipes self) (known_pipes next) c).
  { intros c. unfold changes, poll_with. cbn [fst]. rewrite sort_by_name_perm. by apply differences_elem. }
  assert (Hnd : NoDup (change_key <$> changes)).
  { unfold changes, poll_with. cbn [fst]. rewrite sort_by_name_perm. by apply differences_nodup. }
  split; [done|]. split; [apply sort_by_name_sorted|]. split; [by apply change_names_nodup|].
  split; [|split; [|split; [intros n; apply index_pipes_last|done]]].
  - rewrite <- index_pipes_dom. apply set_eq. intros n. rewrite replay_spec by done. setoid_rewrite Hel.
    rewrite !elem_of_dom. cbn. fold (known_pipes next). split.
    + intros [(i & [H1 H2] & <-)|([i Hi] & Hr)]; [eauto|].
      destruct (index_pipes pipes !! n) eqn:E; [eauto|]. destruct Hr. exists i. pose proof (Hk _ _ Hi) as En. by subst n.
    + intros [i Hi]. destruct (known_pipes self !! n) as [j|] eqn:E.
      * right. split; [eauto|]. intros (k & [H1 H2] & <-). congruence.
      * left. exists i. pose proof (Hc _ _ Hi) as En. by subst n.
  - intros other Ho. unfold poll_with. f_equal. apply sort_by_name_unique.
    + by apply change_names_nodup, differences_nodup.
    + unfold appeared, removed. by rewrite !iterate_perm.
Qed.

(** ** A directory answer read back *)

(** What the kernel reports of one pipe, and the padding it writes after the
    entry when another follows. *)
Record dir_entry := mkDirEntry {
  de_name : str; de_index : Z; de_creation : Z; de_access : Z; de_write : Z; de_change : Z;
  de_end : Z; de_allocation : Z; de_attributes : Z; de_padding : list Z }.

Definition entry_body (d : dir_entry) : list Z :=
  le_encode 4 (de_index d) ++ le_encode 8 (de_creation d) ++ le_encode 8 (de_access d) ++ le_encode 8 (de_write d) ++
  le_encode 8 (de_change d) ++ le_encode 8 (de_end d) ++ le_encode 8 (de_allocation d) ++ le_encode 4 (de_attributes d) ++
  le_encode 4 (2 * zlen (encode_utf16 (de_name d))) ++ bytes_of_units (encode_utf16 (de_name d)).

Fixpoint directory_bytes (l : list dir_entry) : list Z :=
  match l with
  | [] => []
  | [d] => le_encode 4 0 ++ entry_body d
  | d :: l =>
      let body := entry_body d ++ de_padding d in
      le_encode 4 (4 + zlen body) ++ body ++ directory_bytes l
  end.

Definition time_ok (t : Z) : Prop := t = 0 \/ UNIX_EPOCH <= t < 2 ^ 63.
Definition entry_ok (d : dir_entry) : Prop :=
  de_name d <> [] /\ is_text (de_name d) /\ zlen (encode_utf16 (de_name d)) < 2 ^ 31 /\
  0 <= de_index d < 2 ^ 32 /\ time_ok (de_creation d) /\ time_ok (de_access d) /\ time_ok (de_write d) /\
  time_ok (de_change d) /\ 0 <= de_end d < 2 ^ 63 /\ 0 <= de_allocation d < 2 ^ 63 /\ 0 <= de_attributes d < 2 ^ 32 /\
  zlen (entry_body d ++ de_padding d) < 2 ^ 32 - 4.

Definition time_of (t : Z) : option Z := if t =? 0 then None else Some t.
Definition info_of (d : dir_entry) : NamedPipeInfo :=
  mkPipeInfo (mkPipeName (PREFIX ++ de_name d)) (de_name d) (time_of (de_creation d)) (time_of (de_access d))
    (time_of (de_write d)) (time_of (de_change d)) (de_end d) (de_allocation d) (de_attributes d) (de_index d) None.

(** A field behind other fields. *)
Lemma field_here (n : nat) (z : Z) (post : list Z) :
  0 <= z < 256 ^ Z.of_nat n -> le_decode (take n (drop 0 (le_encode n z ++ post))) = z.
Proof.
  intros Hz. rewrite drop_0, take_app_length' by (by rewrite length_le_encode). by apply le_decode_encode.
Qed.

Lemma field_skip (k n : nat) (z : Z) (post : list Z) : drop (n + k) (le_encode n z ++ post) = drop k post.
Proof. rewrite drop_app_ge; rewrite length_le_encode; [f_equal|]; lia. Qed.

Lemma time_read (t : Z) : time_ok t -> filetime_to_system_time (as_i64 t) = Ok (time_of t).
Proof.
  intros [->|H]; [done|]. unfold as_i64, time_of. unfold UNIX_EPOCH in *. rewrite (proj2 (Z.ltb_lt t _)) by lia.
  rewrite pipe_filetime_exact by lia. rewrite (proj2 (Z.leb_gt t 0)), (proj2 (Z.eqb_neq t 0)) by lia.
  unfold UNIX_EPOCH. by rewrite (proj2 (Z.leb_le _ t)) by lia.
Qed.

(** Skip fields of 4 and 8 bytes until the wanted one is reached. *)
Ltac skip_fields :=
  repeat match goal with
  | |- context [drop ?off (le_encode ?n ?z ++ ?post)] =>
      let k := eval vm_compute in (Nat.sub off n) in
      let b := eval vm_compute in (Nat.leb n off) in
      match b with
      | true => replace (drop off (le_encode n z ++ post)) with (drop k post) by (symmetry; exact (field_skip k n z post))
      end
  end.

Lemma parse_entry_read (next : Z) (d : dir_entry) (rest : list Z) : entry_ok d -> 0 <= next < 2 ^ 32 ->
  parse_entry (le_encode 4 next ++ entry_body d ++ rest) = Ok (Some (info_of d)) /\
  dword (le_encode 4 next ++ entry_body d ++ rest) 0 = next.
Proof.
  intros (Hne & Ht & Hl & Hi & Hc & Ha & Hw & Hch & He & Hal & Hat & _) Hn.
  destruct (text_units _ Ht) as [Hu Hd]. set (us := encode_utf16 (de_name d)) in *.
  assert (Hz : forall t, time_ok t -> 0 <= t < 256 ^ Z.of_nat 8) by (intros t [->|H]; unfold UNIX_EPOCH in *; lia).
  assert (Hr : forall z, 0 <= z < 2 ^ 63 -> as_i64 z = z) by (intros z H; unfold as_i64; by rewrite (proj2 (Z.ltb_lt z _)) by lia).
  assert (Hlen : length (le_encode 4 next ++ entry_body d ++ rest) = (64 + 2 * length us + length rest)%nat).
  { unfold entry_body. rewrite !length_app, !length_le_encode, length_bytes_of_units. fold us. lia. }
  assert (Hus : 0 <= 2 * zlen us < 256 ^ Z.of_nat 4) by (unfold zlen in *; lia).
  split; [|unfold dword; apply field_here; lia].
  unfold parse_entry. rewrite Hlen. rewrite (proj2 (Nat.ltb_ge _ 64)) by lia.
  unfold entry_body. fold us. rewrite <- !app_assoc. unfold dword, qword. skip_fields.
  rewrite !field_here by (auto; lia). rewrite (Z.mul_comm 2), Z.div_mul by lia. unfold zlen. rewrite Nat2Z.id.
  rewrite (proj2 (Nat.ltb_ge _ _)) by lia. rewrite drop_0.
  rewrite take_app_length' by (by rewrite length_bytes_of_units).
  rewrite units_of_bytes_of_units, Hd, decide_False by done.
  unfold from_relative_name. rewrite (proj2 (pipe_name_new_ok _ (mkPipeName (PREFIX ++ de_name d)))) by eauto.
  cbn [map_err res_bind]. rewrite !time_read by done. cbn [res_bind]. by rewrite !Hr.
Qed.

Lemma length_entry_body (d : dir_entry) : (60 <= length (entry_body d))%nat.
Proof. unfold entry_body. rewrite !length_app, !length_le_encode. lia. Qed.

Definition keep (filter : NamedPipeInfo -> bool) (l : list NamedPipeInfo) : list NamedPipeInfo := List.filter filter l.

Lemma entries_loop_read (l : list dir_entry) (filter : NamedPipeInfo -> bool) (out : list NamedPipeInfo)
    (pre : list Z) (fuel : nat) :
  Forall entry_ok l -> (length (directory_bytes l) < fuel)%nat ->
  entries_loop fuel (pre ++ directory_bytes l) (length pre) filter out = Ok (out ++ keep filter (info_of <$> l)).
Proof.
  revert out pre fuel. induction l as [|d l IH]; intros out pre fuel Hok Hf.
  - destruct fuel as [|fuel]; [cbn in Hf; lia|]. cbn [entries_loop directory_bytes]. rewrite app_nil_r, Nat.ltb_irrefl.
    cbn [fmap list_fmap keep List.filter]. by rewrite app_nil_r.
  - destruct fuel as [|fuel]; [lia|]. apply Forall_cons in Hok as [Hd Hok]. pose proof (length_entry_body d) as Hb.
    assert (Hne : (length pre <? length (pre ++ directory_bytes (d :: l)))%nat = true).
    { apply Nat.ltb_lt. rewrite length_app. destruct l; cbn [directory_bytes]; rewrite !length_app, length_le_encode; lia. }
    cbn [entries_loop]. rewrite Hne, drop_app_length' by done.
    assert (Hk : forall i, (if filter i then out ++ [i] else out) ++ keep filter (info_of <$> l) =
                           out ++ keep filter (i :: (info_of <$> l))).
    { intros i. cbn [keep List.filter]. unfold keep. destruct (filter i); [by rewrite <- app_assoc|done]. }
    destruct l as [|d' l].
    + cbn [directory_bytes]. rewrite <- (app_nil_r (entry_body d)).
      destruct (parse_entry_read 0 d [] Hd ltac:(lia)) as [-> ->]. cbn [res_bind]. rewrite Z.eqb_refl.
      cbn [fmap list_fmap] in *. specialize (Hk (info_of d)). by rewrite <- Hk, app_nil_r.
    + set (rest := directory_bytes (d' :: l)) in *.
      change (directory_bytes (d :: d' :: l))
        with (le_encode 4 (4 + zlen (entry_body d ++ de_padding d)) ++ (entry_body d ++ de_padding d) ++ rest) in *.
      set (n := 4 + zlen (entry_body d ++ de_padding d)) in *.
      assert (Hn : 0 < n < 2 ^ 32) by (destruct Hd as (_ & _ & _ & _ & _ & _ & _ & _ & _ & _ & _ & Hz); subst n; unfold zlen in *; lia).
      rewrite <- (app_assoc (entry_body d)).
      destruct (parse_entry_read n d (de_padding d ++ rest) Hd ltac:(lia)) as [-> ->]. cbn [res_bind].
      rewrite (proj2 (Z.eqb_neq n 0)) by lia.
      replace (pre ++ le_encode 4 n ++ entry_body d ++ de_padding d ++ rest)
        with ((pre ++ le_encode 4 n ++ entry_body d ++ de_padding d) ++ rest) by (by rewrite <- !app_assoc).
      replace (length pre + Z.to_nat n)%nat with (length (pre ++ le_encode 4 n ++ entry_body d ++ de_padding d))
        by (subst n; unfold zlen; rewrite !length_app, length_le_encode; lia).
      rewrite IH; [cbn [fmap list_fmap] in *; by rewrite Hk|done|].
      rewrite !length_app, length_le_encode in Hf. lia.
Qed.

(** Reading a directory answer: from the bytes the kernel writes for a
    list of pipes (the documented layout of [FILE_DIRECTORY_INFORMATION], each
    entry but the last pointing behind its padding to the next), the entries
    are read back in order with their names, indices, sizes, attributes and
    times, a zero time as none, and those the filter keeps are appended. *)
Theorem directory_answer_read (l : list dir_entry) (filter : NamedPipeInfo -> bool) (out : list NamedPipeInfo) :
  Forall entry_ok l ->
  parse_directory_entries (directory_bytes l) filter out = Ok (out ++ List.filter filter (info_of <$> l)).
Proof.
  intros Hok. unfold parse_directory_entries.
  exact (entries_loop_read l filter out [] (S (length (directory_bytes l))) Hok ltac:(lia)).
Qed.

Definition demo_entry (name : string) (pad : list Z) : dir_entry :=
  mkDirEntry (lit name) 7 133500000000000000 0 0 133500000000000000 5 64 0x80 pad.

Lemma demo_entry_text : is_text (lit "ab") /\ is_text (lit "lsass").
Proof. split; apply ascii_is_text; vm_compute; repeat constructor; done. Qed.

Lemma directory_answer_read_witness :
  Forall entry_ok [demo_entry "ab" [0; 0; 0; 0]; demo_entry "lsass" []] /\
  parse_directory_entries (directory_bytes [demo_entry "ab" [0; 0; 0; 0]; demo_entry "lsass" []])
    (fun i => np_end_of_file i =? 5) [] =
    Ok [info_of (demo_entry "ab" []); info_of (demo_entry "lsass" [])].
Proof.
  assert (Hok : Forall entry_ok [demo_entry "ab" [0; 0; 0; 0]; demo_entry "lsass" []]).
  { destruct demo_entry_text as [Ht1 Ht2].
    assert (H : forall s pad, is_text (lit s) -> lit s <> [] -> zlen (encode_utf16 (lit s)) < 2 ^ 31 ->
              zlen (entry_body (demo_entry s pad) ++ pad) < 2 ^ 32 - 4 -> entry_ok (demo_entry s pad)).
    { intros s pad H1 H2 H3 H4. unfold entry_ok, time_ok. cbn [demo_entry de_name de_index de_creation de_access de_write
        de_change de_end de_allocation de_attributes de_padding]. unfold UNIX_EPOCH. split_and!; try done; try lia. }
    apply Forall_cons_2; [|apply Forall_cons_2; [|apply Forall_nil_2]]; apply H;
      (exact Ht1 || exact Ht2 || (vm_compute; done)). }
  split; [exact Hok|]. rewrite (directory_answer_read _ _ _ Hok). reflexivity.
Defined.

Lemma poll_reports_differences_witness (iter := {| iterate := map_to_list |})
    (self := mkPoller (index_pipes [info_of (demo_entry "ab" [])])) :
  well_keyed (known_pipes self) /\
  fold_left replay (fst (poll_with (mo:=iter) self [info_of (demo_entry "lsass" [])])) (dom (known_pipes self)) =
    {[ mkPipeName (PREFIX ++ lit "lsass") ]} /\
  fst (poll_with (mo:=iter) self [info_of (demo_entry "lsass" [])]) =
    [Removed (info_of (demo_entry "ab" [])); Appeared (info_of (demo_entry "lsass" []))].
Proof.
  assert (Hk : well_keyed (known_pipes self)) by apply index_pipes_keyed.
  assert (Hl : map_order_law (H:=iter)) by (constructor; intros m; done).
  destruct (poll_reports_differences (mo:=iter) (mol:=Hl) self [info_of (demo_entry "lsass" [])] Hk)
    as (_ & _ & _ & Hr & _). split; [exact Hk|]. split; [|vm_compute; reflexivity].
  rewrite Hr. set_solver.
Defined.
