(* ===== verification/RawFile.v ===== *)
(** * RawFile: reading a file through the clusters of its volume

    src/file/raw.rs, win.rs and builder.rs.  The calls on the volume are the
    class [disk_api]; the destination of [copy_to] is a sink of the standard
    library, the class [sink_api].  A [Path] is its text. *)

From Stdlib Require Import ZArith Lia String Ascii.
From stdpp Require Import base list strings gmap numbers sorting.
From S2P Require Import Prelude Text Unicode Errors Backends Effects Resources IoError.

Open Scope Z_scope.

(** ** Data *)

Record PointerExtent := mkPointerExtent { pe_next_vcn : Z; pe_lcn : Z }.
Record RetrievalPointersBuffer := mkRetrievalPointers {
  rp_extent_count : Z; rp_starting_vcn : Z; rp_extents : list PointerExtent }.

Record RawFile := mkRawFile {
  rf_source_path : str; rf_disk_handle : OwnedHandle; rf_file_size : Z; rf_pointers : RetrievalPointersBuffer;
  rf_bytes_per_cluster : Z; rf_clusters_per_read : Z;
  rf_extent_index : nat; rf_bytes_read : Z; rf_cluster_index : Z }.

(** The three fields a read changes. *)
Definition at_position (f : RawFile) (extent_index : nat) (bytes_read cluster_index : Z) : RawFile :=
  mkRawFile (rf_source_path f) (rf_disk_handle f) (rf_file_size f) (rf_pointers f) (rf_bytes_per_cluster f)
    (rf_clusters_per_read f) extent_index bytes_read cluster_index.

Definition ERROR_INSUFFICIENT_BUFFER : Z := 122.
Definition GENERIC_READ : Z := 0x80000000.
Definition FILE_READ_ATTRIBUTES : Z := 0x80.
Definition FILE_SHARE_READ : Z := 1.
Definition FILE_SHARE_WRITE : Z := 2.

Definition path_parameter (reason : string) : Error :=
  Error_InvalidParameter (mkInvalidParameterError (lit "path") (lit reason)).
Definition file_failed (path : str) (operation : string) (code : option Z) : Error :=
  Error_FileOperation (mkFileOperationError path (lit operation) code).

(** ** The retrieval pointers *)

Definition i64_at (buffer : list Z) (offset : nat) : Z := as_i64 (le_decode (take 8 (drop offset buffer))).

Fixpoint extents_loop (n : nat) (buffer : list Z) (offset : nat) (extents : list PointerExtent)
    : res Error (list PointerExtent) :=
  match n with
  | O => Ok extents
  | S n =>
      if (length buffer <? offset + 16)%nat
      then Err (file_failed (lit "source file") "parse retrieval pointer extents" None)
      else extents_loop n buffer (offset + 16)
             (extents ++ [mkPointerExtent (i64_at buffer offset) (i64_at buffer (offset + 8))])
  end.

Definition buffer_to_retrieval_pointers (buffer : list Z) : res Error RetrievalPointersBuffer :=
  if (length buffer <? 16)%nat then Err (file_failed (lit "source file") "parse retrieval pointers" None)
  else
    let extent_count := le_decode (take 4 buffer) in
    let starting_vcn := i64_at buffer 8 in
    let! extents := extents_loop (Z.to_nat extent_count) buffer 16 [] in
    Ok (mkRetrievalPointers extent_count starting_vcn extents).

(** ** Opening *)

Definition is_ascii_alphabetic (c : Z) : bool := ((65 <=? c) && (c <=? 90)) || ((97 <=? c) && (c <=? 122)).

Definition get_drive_and_disk (path : str) : res Error (str * str) :=
  match chars path with
  | [] => Err (path_parameter "Path cannot be empty")
  | [_] => Err (path_parameter "Path must include a drive separator")
  | drive :: separator :: _ =>
      if negb (separator =? 58) || negb (is_ascii_alphabetic drive)
      then Err (path_parameter "Path must start with a drive letter (for example C:\...)")
      else
        let drive_letter := to_upper drive in
        Ok (lit "\\.\" ++ [drive_letter] ++ lit ":", [drive_letter] ++ lit ":\")
  end.

(** Calls on volumes and files.  [CreateFileW] takes the name, the access and
    the sharing; [GetFileSize] gives the low and the high half;
    [DeviceIoControl] the retrieval pointers that fit a buffer of the given
    size; [ReadFile] the bytes read at the current position. *)
Class disk_api (W : Type) := {
  CreateFileW : W -> list Z -> Z -> Z -> (win_error + Z) * W;
  GetDiskFreeSpaceW : W -> list Z -> win_error + (Z * Z);
  GetFileSize : W -> Z -> Z * Z;
  DeviceIoControl : W -> Z -> Z -> win_error + list Z;
  SetFilePointerEx : W -> Z -> Z -> option win_error * W;
  ReadFile : W -> Z -> Z -> (win_error + list Z) * W }.

(** Checked arithmetic on [u32] and [i64]. *)
Definition mul_u32 {E} (p : profile) (a b : Z) : res E Z :=
  if a * b <? 2 ^ 32 then Ok (a * b)
  else match p with Debug => Panic ArithmeticOverflow | Release => Ok (wrap 32 (a * b)) end.
Definition i64_of {E} (p : profile) (z : Z) : res E Z :=
  if (- 2 ^ 63 <=? z) && (z <? 2 ^ 63) then Ok z
  else match p with Debug => Panic ArithmeticOverflow | Release => Ok (as_i64 (wrap 64 z)) end.

Section Raw.
Context {W : Type} `{ho : !handle_api} `{api : !disk_api W}.

Abbreviation P := (eff (proc_st W) Error).

(** The volume handle is returned as it is: no owner drops it yet. *)
Definition get_drive_metadata (path : str) : P (Z * Z * Z) :=
  let* drive := eff_lift (get_drive_and_disk path) in
  let* disk_handle := open_handle (fun w => CreateFileW w (to_utf16_nul (fst drive)) GENERIC_READ
                                              (Z.lor FILE_SHARE_READ FILE_SHARE_WRITE))
                        (fun e => file_failed path "open source volume" (Some (win_error_code e))) in
  fun s => match GetDiskFreeSpaceW (pmach s) (to_utf16_nul (snd drive)) with
           | inl e => (Err (file_failed path "query source volume metadata" (Some (win_error_code e))), s)
           | inr (sectors_in_cluster, bytes_per_sector) => (Ok (disk_handle, sectors_in_cluster, bytes_per_sector), s)
           end.

Definition get_file_pointer_and_size (path : str) : P (Z * Z) :=
  let* file_handle := open_handle (fun w => CreateFileW w (to_utf16_nul (lit "\\.\" ++ path)) FILE_READ_ATTRIBUTES
                                              FILE_SHARE_READ)
                        (fun e => file_failed path "open source file metadata handle" (Some (win_error_code e))) in
  fun s => let '(low, high) := GetFileSize (pmach s) file_handle in
           (Ok (file_handle, Z.lor (Z.shiftl high 32) low), s).

Definition get_retrieval_pointers (file_handle out_buffer_size : Z) : P RetrievalPointersBuffer := fun s =>
  match DeviceIoControl (pmach s) file_handle (wrap 32 out_buffer_size) with
  | inl e => (Err (file_failed (lit "source file") "query file retrieval pointers" (Some (win_error_code e))), s)
  | inr bytes =>
      if out_buffer_size <? zlen bytes then (Panic IndexOutOfBounds, s)
      else (buffer_to_retrieval_pointers bytes, s)
  end.

Definition open_with_tuning (p : profile) (path : str) (clusters_per_read metadata_buffer_capacity : Z) : P RawFile :=
  if decide (path = []) then eff_fail (path_parameter "Raw file path cannot be empty")
  else
    let* d := get_drive_metadata path in
    let '(disk_handle, sectors_in_cluster, bytes_per_sector) := d in
    let* m := get_file_pointer_and_size path in
    eff_scoped (drop_owned (with_ownership (fst m) true))
      (let* pointers := get_retrieval_pointers (fst m) (Z.max metadata_buffer_capacity 4096) in
       fun s => match mul_u32 p bytes_per_sector sectors_in_cluster with
                | Ok n => (Ok (mkRawFile path (with_ownership disk_handle true) (snd m) pointers n
                                 (Z.max clusters_per_read 1) 0 0 0), s)
                | Err e => (Err e, s)
                | Panic x => (Panic x, drop_owned (with_ownership disk_handle true) s)
                end).

Definition raw_open (p : profile) (path : str) : P RawFile := open_with_tuning p path 16 32000.

(** [RawFileBuilder]. *)
Record RawFileBuilder := mkRawFileBuilder {
  rb_path : option str; rb_clusters_per_read : Z; rb_metadata_buffer_capacity : Z }.
Definition raw_builder_new : RawFileBuilder := mkRawFileBuilder None 16 32000.
Definition raw_builder_path (b : RawFileBuilder) (path : str) : RawFileBuilder :=
  mkRawFileBuilder (Some path) (rb_clusters_per_read b) (rb_metadata_buffer_capacity b).
Definition raw_builder_clusters_per_read (b : RawFileBuilder) (n : Z) : RawFileBuilder :=
  mkRawFileBuilder (rb_path b) (Z.max n 1) (rb_metadata_buffer_capacity b).
Definition raw_builder_metadata_buffer_capacity (b : RawFileBuilder) (n : Z) : RawFileBuilder :=
  mkRawFileBuilder (rb_path b) (rb_clusters_per_read b) (Z.max n 4096).
Definition raw_builder_open (p : profile) (b : RawFileBuilder) : P RawFile :=
  match rb_path b with
  | None => eff_fail (path_parameter "Raw file source path must be specified")
  | Some path => open_with_tuning p path (rb_clusters_per_read b) (rb_metadata_buffer_capacity b)
  end.

(** ** Reading *)

Abbreviation IO := (eff (RawFile * proc_st W) io_error).

Definition move_disk_position (disk_handle offset : Z) : IO unit := fun '(f, s) =>
  match SetFilePointerEx (pmach s) disk_handle offset with
  | (None, w) => (Ok tt, (f, at_machine w s))
  | (Some e, w) => (Err (win_to_io_error e), (f, at_machine w s))
  end.

(** The bytes [ReadFile] puts at the start of a buffer of [buf_len] bytes. *)
Definition read_file_from_disk_pointer (disk_handle buf_len bytes_to_read : Z) : IO (list Z) :=
  if buf_len <? bytes_to_read then eff_fail (IoOs ERROR_INSUFFICIENT_BUFFER)
  else fun '(f, s) =>
    match ReadFile (pmach s) disk_handle bytes_to_read with
    | (inr bytes, w) => (Ok bytes, (f, at_machine w s))
    | (inl e, w) => (Err (win_to_io_error e), (f, at_machine w s))
    end.

Definition current_extent (f : RawFile) : option PointerExtent := rp_extents (rf_pointers f) !! rf_extent_index f.

(** [next_vcn] of the extent before, or the first cluster number. *)
Definition previous_vcn (f : RawFile) : Z :=
  match rf_extent_index f with
  | O => rp_starting_vcn (rf_pointers f)
  | S i => from_option pe_next_vcn 0 (rp_extents (rf_pointers f) !! i)
  end.

Definition set_position (extent_index : nat) (bytes_read cluster_index : Z) : IO unit := fun '(f, s) =>
  (Ok tt, (at_position f extent_index bytes_read cluster_index, s)).

(** Once an extent with unread clusters is found. *)
Definition read_clusters (p : profile) (buf_len : Z) (extent : PointerExtent) (extent_cluster_count : Z) : IO (list Z) :=
  fun '(f, s) =>
  (let clusters_available := extent_cluster_count - rf_cluster_index f in
   if rf_bytes_per_cluster f =? 0 then eff_lift (Panic DivideByZero)
   else
     let cluster_capacity := buf_len / rf_bytes_per_cluster f in
     let clusters_to_read := Z.min clusters_available cluster_capacity in
     if clusters_to_read =? 0 then eff_ret []
     else
       let* first := eff_lift (i64_of p (pe_lcn extent + rf_cluster_index f)) in
       let* disk_offset := eff_lift (i64_of p (first * rf_bytes_per_cluster f)) in
       let* _ := move_disk_position (oh_handle (rf_disk_handle f)) disk_offset in
       let bytes_to_read := wrap 32 (clusters_to_read * rf_bytes_per_cluster f) in
       let* bytes := read_file_from_disk_pointer (oh_handle (rf_disk_handle f)) buf_len bytes_to_read in
       let* sum := eff_lift (add_w p 64 (rf_bytes_read f) (zlen bytes)) in
       let read_bytes := if rf_file_size f <? sum then wrap 32 (rf_file_size f - rf_bytes_read f) else zlen bytes in
       let* _ := (if clusters_to_read =? clusters_available
                  then set_position (S (rf_extent_index f)) (rf_bytes_read f + read_bytes) 0
                  else set_position (rf_extent_index f) (rf_bytes_read f + read_bytes)
                         (rf_cluster_index f + clusters_to_read)) in
       eff_ret (take (Z.to_nat read_bytes) bytes)) (f, s).

(** The loop over the extents; one more round than there are extents is
    always enough. *)
Fixpoint read_loop (fuel : nat) (p : profile) (buf_len : Z) : IO (list Z) := fun '(f, s) =>
  match fuel with
  | O => (Panic OutOfFuel, (f, s))
  | S fuel =>
      match current_extent f with
      | None => (Ok [], (f, s))
      | Some extent =>
          if pe_next_vcn extent <? previous_vcn f
          then (Err (IoInvalidData (lit "Retrieval pointers are not monotonic")), (f, s))
          else match i64_of p (pe_next_vcn extent - previous_vcn f) with
               | Ok d =>
                   let extent_cluster_count := wrap 64 d in
                   if extent_cluster_count <=? rf_cluster_index f
                   then read_loop fuel p buf_len (at_position f (S (rf_extent_index f)) (rf_bytes_read f) 0, s)
                   else read_clusters p buf_len extent extent_cluster_count (f, s)
               | Err e => (Err e, (f, s))
               | Panic x => (Panic x, (f, s))
               end
      end
  end.

Definition raw_read (p : profile) (buf_len : Z) : IO (list Z) := fun '(f, s) =>
  if buf_len <? rf_bytes_per_cluster f then (Err (IoOs ERROR_INSUFFICIENT_BUFFER), (f, s))
  else if rf_file_size f <=? rf_bytes_read f then (Ok [], (f, s))
  else read_loop (S (length (rp_extents (rf_pointers f)))) p buf_len (f, s).

(** ** Copying *)

Definition raw_os_error (e : io_error) : option Z := match e with IoOs code => Some code | _ => None end.
Definition file_op_error_with_io_code (path : str) (operation : string) (e : io_error) : Error :=
  file_failed path operation (raw_os_error e).

(** [File::create], and [write_all] and [flush] of the [BufWriter]. *)
Class sink_api := {
  sink_create : W -> str -> option io_error * W;
  sink_write_all : W -> list Z -> option io_error * W;
  sink_flush : W -> option io_error * W }.
Context `{sink : !sink_api}.

Definition sink_step (call : W -> option io_error * W) (fail : io_error -> Error)
    : eff (RawFile * proc_st W) Error unit := fun '(f, s) =>
  match call (pmach s) with
  | (None, w) => (Ok tt, (f, at_machine w s))
  | (Some e, w) => (Err (fail e), (f, at_machine w s))
  end.

Fixpoint copy_loop (fuel : nat) (p : profile) (buf_len : Z) (source_path destination : str)
    : eff (RawFile * proc_st W) Error unit :=
  match fuel with
  | O => eff_lift (Panic OutOfFuel)
  | S fuel =>
      let* bytes := eff_map_err (file_op_error_with_io_code source_path "read source file") (raw_read p buf_len) in
      if (length bytes =? 0)%nat then eff_ret tt
      else
        let* _ := sink_step (fun w => sink_write_all w bytes)
                    (file_op_error_with_io_code destination "write destination file") in
        copy_loop fuel p buf_len source_path destination
  end.

Definition copy_to (fuel : nat) (p : profile) (self : RawFile) (destination : str) : P unit :=
  let* source := raw_builder_open p (raw_builder_clusters_per_read (raw_builder_path raw_builder_new
                                       (rf_source_path self)) (rf_clusters_per_read self)) in
  eff_scoped (drop_owned (rf_disk_handle source)) (fun s =>
    let '(r, (_, s)) :=
      (let buf_len := rf_bytes_per_cluster source * rf_clusters_per_read source in
       if 2 ^ 63 <=? buf_len then eff_lift (Panic ArithmeticOverflow)
       else
         let* _ := sink_step (fun w => sink_create w destination)
                     (file_op_error_with_io_code destination "create destination file") in
         let* _ := copy_loop fuel p buf_len (rf_source_path self) destination in
         sink_step sink_flush (file_op_error_with_io_code destination "flush destination file")) (source, s) in
    (r, s)).

(** [file::raw_copy]. *)
Definition raw_copy (fuel : nat) (p : profile) (source destination : str) : P unit :=
  let* raw := raw_open p source in
  eff_scoped (drop_owned (rf_disk_handle raw)) (copy_to fuel p raw destination).
End Raw.

(** ** What a file holds on its volume *)

(** [n] bytes from [off]. *)
Definition part (volume : list Z) (off n : Z) : list Z := take (Z.to_nat n) (drop (Z.to_nat off) volume).

(** The clusters of the extents, where the first cluster has the number [vcn]. *)
Fixpoint extent_bytes (volume : list Z) (bpc vcn : Z) (extents : list PointerExtent) : list Z :=
  match extents with
  | [] => []
  | e :: extents =>
      part volume (pe_lcn e * bpc) ((pe_next_vcn e - vcn) * bpc) ++ extent_bytes volume bpc (pe_next_vcn e) extents
  end.

(** The extents ascend and lie on the volume. *)
Fixpoint extents_ok (size bpc vcn : Z) (extents : list PointerExtent) : Prop :=
  match extents with
  | [] => True
  | e :: extents =>
      vcn <= pe_next_vcn e < 2 ^ 63 /\ 0 <= pe_lcn e /\ (pe_lcn e + (pe_next_vcn e - vcn)) * bpc <= size /\
      extents_ok size bpc (pe_next_vcn e) extents
  end.

Definition content (volume : list Z) (f : RawFile) : list Z :=
  take (Z.to_nat (rf_file_size f))
    (extent_bytes volume (rf_bytes_per_cluster f) (rp_starting_vcn (rf_pointers f)) (rp_extents (rf_pointers f))).

Lemma part_length (volume : list Z) off n : 0 <= off -> 0 <= n -> off + n <= zlen volume -> zlen (part volume off n) = n.
Proof. intros. unfold part, zlen in *. rewrite length_take, length_drop. lia. Qed.

Lemma part_split (volume : list Z) off a b : 0 <= off -> 0 <= a -> 0 <= b ->
  part volume off (a + b) = part volume off a ++ part volume (off + a) b.
Proof.
  intros. unfold part. rewrite !Z2Nat.inj_add by lia. rewrite <- drop_drop. by rewrite take_take_drop.
Qed.

Section Content.
Context {W : Type} `{api : !disk_api W}.

(** The volume behind a handle: whole clusters are read in full. *)
Definition reads_volume (h bpc : Z) (volume : list Z) : Prop :=
  forall w first n, 0 <= first -> 0 < n -> (first + n) * bpc <= zlen volume ->
    exists w', SetFilePointerEx w h (first * bpc) = (None, w') /\
    exists w'', ReadFile w' h (n * bpc) = (inr (part volume (first * bpc) (n * bpc)), w'').

(** What the sink was given, which reading a volume does not change. *)
Class written_laws (written : W -> list Z) : Prop := {
  seek_written : forall w h off r w', SetFilePointerEx w h off = (r, w') -> written w' = written w;
  read_written : forall w h n r w', ReadFile w h n = (r, w') -> written w' = written w }.

Context (volume : list Z) (buf_len : Z) (p : profile) (written : W -> list Z) `{!written_laws written}.

(** A reader somewhere in its file: the extents split before the current one,
    and what is left to read. *)
Record at_extent (f : RawFile) (pre exts : list PointerExtent) : Prop := {
  ae_split : rp_extents (rf_pointers f) = pre ++ exts;
  ae_index : rf_extent_index f = length pre;
  ae_bpc : 0 < rf_bytes_per_cluster f <= buf_len;
  ae_buf : buf_len < 2 ^ 32;
  ae_size : rf_file_size f < 2 ^ 63;
  ae_volume : zlen volume < 2 ^ 63;
  ae_vcn : 0 <= previous_vcn f;
  ae_exts : extents_ok (zlen volume) (rf_bytes_per_cluster f) (previous_vcn f) exts;
  ae_read : 0 <= rf_bytes_read f;
  ae_cluster : match exts with
               | [] => rf_cluster_index f = 0
               | e :: _ => 0 <= rf_cluster_index f <= pe_next_vcn e - previous_vcn f
               end;
  ae_reads : reads_volume (oh_handle (rf_disk_handle f)) (rf_bytes_per_cluster f) volume }.

Definition remaining (f : RawFile) (exts : list PointerExtent) : list Z :=
  drop (Z.to_nat (rf_cluster_index f * rf_bytes_per_cluster f))
    (extent_bytes volume (rf_bytes_per_cluster f) (previous_vcn f) exts).
Definition rest (f : RawFile) (exts : list PointerExtent) : list Z :=
  take (Z.to_nat (rf_file_size f - rf_bytes_read f)) (remaining f exts).

Lemma previous_vcn_next (f : RawFile) pre e exts bytes_read ci :
  rp_extents (rf_pointers f) = pre ++ e :: exts ->
  previous_vcn (at_position f (S (length pre)) bytes_read ci) = pe_next_vcn e.
Proof.
  intros H. unfold previous_vcn. cbn [at_position rf_extent_index rf_pointers]. rewrite H.
  rewrite lookup_app_r, Nat.sub_diag by lia. done.
Qed.

(** The reader moves to the next extent when the current one is read. *)
Lemma at_extent_next (f : RawFile) pre e exts bytes_read :
  at_extent f pre (e :: exts) -> 0 <= bytes_read ->
  at_extent (at_position f (S (length pre)) bytes_read 0) (pre ++ [e]) exts.
Proof.
  intros [] Hr. destruct ae_exts0 as (Hv & Hl & Hs & Hx). pose proof (previous_vcn_next f pre e exts bytes_read 0 ae_split0) as Hp.
  constructor; rewrite ?Hp; cbn [at_position rf_pointers rf_extent_index rf_bytes_per_cluster rf_file_size rf_bytes_read
    rf_cluster_index rf_disk_handle]; try done; try lia.
  - rewrite ae_split0, <- app_assoc. done.
  - rewrite length_app. cbn. lia.
  - destruct exts as [|e' exts]; [done|]. destruct Hx as (? & _). lia.
Qed.

Lemma drop_extent (e : PointerExtent) exts bpc vcn : 0 < bpc -> extents_ok (zlen volume) bpc vcn (e :: exts) ->
  drop (Z.to_nat ((pe_next_vcn e - vcn) * bpc)) (extent_bytes volume bpc vcn (e :: exts)) =
  extent_bytes volume bpc (pe_next_vcn e) exts.
Proof.
  intros Hb (Hv & Hl & Hs & _). cbn [extent_bytes]. apply drop_app_length'.
  pose proof (part_length volume (pe_lcn e * bpc) ((pe_next_vcn e - vcn) * bpc) ltac:(nia) ltac:(nia) ltac:(nia)) as H.
  unfold zlen in H. lia.
Qed.

Lemma clusters_split (e : PointerExtent) exts bpc vcn ci n : 0 < bpc -> extents_ok (zlen volume) bpc vcn (e :: exts) ->
  0 <= ci -> 0 <= n -> ci + n <= pe_next_vcn e - vcn ->
  drop (Z.to_nat (ci * bpc)) (extent_bytes volume bpc vcn (e :: exts)) =
  part volume ((pe_lcn e + ci) * bpc) (n * bpc) ++
  drop (Z.to_nat ((ci + n) * bpc)) (extent_bytes volume bpc vcn (e :: exts)).
Proof.
  intros Hb (Hv & Hl & Hs & _) Hci Hn Hle. cbn [extent_bytes]. set (R := extent_bytes _ _ (pe_next_vcn e) exts).
  replace ((pe_next_vcn e - vcn) * bpc) with (ci * bpc + (n * bpc + (pe_next_vcn e - vcn - ci - n) * bpc)) by lia.
  rewrite (part_split volume _ (ci * bpc)), (part_split volume _ (n * bpc)) by nia.
  set (A := part volume (pe_lcn e * bpc) (ci * bpc)).
  replace (pe_lcn e * bpc + ci * bpc) with ((pe_lcn e + ci) * bpc) by lia.
  set (B := part volume ((pe_lcn e + ci) * bpc) (n * bpc)).
  assert (HA : zlen A = ci * bpc) by (apply part_length; nia).
  assert (HB : zlen B = n * bpc) by (apply part_length; nia).
  unfold zlen in *. rewrite <- !app_assoc. rewrite drop_app_length' by lia. f_equal.
  rewrite (app_assoc A). rewrite drop_app_length'; [done|]. rewrite length_app. lia.
Qed.

Lemma i64_of_ok {E} (z : Z) : - 2 ^ 63 <= z < 2 ^ 63 -> i64_of (E:=E) p z = Ok z.
Proof. intros H. unfold i64_of. by replace (_ && _) with true by lia. Qed.

(** What a successful read returns and leaves to read. *)
Definition read_post (f : RawFile) (exts : list PointerExtent) (s : proc_st W) (r : res io_error (list Z) * (RawFile * proc_st W)) : Prop :=
  exists bytes f' s' pre' exts', r = (Ok bytes, (f', s')) /\ bytes <> [] /\ rest f exts = bytes ++ rest f' exts' /\
    at_extent f' pre' exts' /\ rf_bytes_read f' = rf_bytes_read f + zlen bytes /\
    rf_file_size f' = rf_file_size f /\ rf_disk_handle f' = rf_disk_handle f /\
    rf_bytes_per_cluster f' = rf_bytes_per_cluster f /\ held s' = held s /\ written (pmach s') = written (pmach s).

(** The position after [n] clusters and [k] bytes of an extent of [count]
    clusters. *)
Definition next_position (f : RawFile) (count n k : Z) : RawFile :=
  if n =? count - rf_cluster_index f then at_position f (S (rf_extent_index f)) (rf_bytes_read f + k) 0
  else at_position f (rf_extent_index f) (rf_bytes_read f + k) (rf_cluster_index f + n).

Lemma next_position_at (f : RawFile) pre e exts n k (count := pe_next_vcn e - previous_vcn f) :
  at_extent f pre (e :: exts) -> 0 < n <= count - rf_cluster_index f -> 0 <= k ->
  at_extent (next_position f count n k) (if n =? count - rf_cluster_index f then pre ++ [e] else pre)
    (if n =? count - rf_cluster_index f then exts else e :: exts).
Proof.
  intros Hat Hn Hk. pose proof Hat as []. unfold next_position. rewrite ae_index0.
  destruct (Z.eqb_spec n (count - rf_cluster_index f)) as [En|En]; [apply at_extent_next; [done|lia]|].
  constructor; unfold previous_vcn; cbn [at_position rf_pointers rf_extent_index rf_bytes_per_cluster rf_file_size
    rf_bytes_read rf_cluster_index rf_disk_handle]; try done; try lia;
    rewrite <- ae_index0; fold (previous_vcn f); try done; lia.
Qed.

Lemma remaining_next (f : RawFile) pre e exts n k (count := pe_next_vcn e - previous_vcn f) :
  at_extent f pre (e :: exts) -> 0 < n <= count - rf_cluster_index f ->
  remaining f (e :: exts) =
  part volume ((pe_lcn e + rf_cluster_index f) * rf_bytes_per_cluster f) (n * rf_bytes_per_cluster f) ++
  remaining (next_position f count n k) (if n =? count - rf_cluster_index f then exts else e :: exts).
Proof.
  intros [] Hn. unfold remaining at 1.
  rewrite (clusters_split e exts _ (previous_vcn f) (rf_cluster_index f) n) by (done || (unfold count in *; lia)).
  f_equal. unfold next_position, remaining. destruct (Z.eqb_spec n (count - rf_cluster_index f)) as [En|En].
  - rewrite ae_index0, (previous_vcn_next f pre e exts) by done. cbn [at_position rf_cluster_index rf_bytes_per_cluster].
    replace (rf_cluster_index f + n) with count by lia. unfold count. rewrite drop_extent by (done || lia). done.
  - unfold previous_vcn. by cbn [at_position rf_extent_index rf_pointers rf_cluster_index rf_bytes_per_cluster].
Qed.

(** How many clusters and bytes one call reads. *)
Definition cluster_amount (f : RawFile) (count : Z) : Z :=
  Z.min (count - rf_cluster_index f) (buf_len / rf_bytes_per_cluster f).
Definition byte_amount (f : RawFile) (n : Z) : Z :=
  Z.min (n * rf_bytes_per_cluster f) (rf_file_size f - rf_bytes_read f).

Lemma amounts (f : RawFile) pre e exts (count := pe_next_vcn e - previous_vcn f) (n := cluster_amount f count) :
  at_extent f pre (e :: exts) -> rf_cluster_index f < count ->
  0 < n <= count - rf_cluster_index f /\ 0 < n * rf_bytes_per_cluster f <= buf_len /\
  0 <= pe_lcn e + rf_cluster_index f < 2 ^ 63 /\
  0 <= (pe_lcn e + rf_cluster_index f) * rf_bytes_per_cluster f < 2 ^ 63 /\
  (pe_lcn e + rf_cluster_index f + n) * rf_bytes_per_cluster f <= zlen volume.
Proof.
  intros [] Hci. pose proof ae_exts0 as (Hv & Hl & Hs & _).
  assert (Hcap : 1 <= buf_len / rf_bytes_per_cluster f) by (apply Z.div_le_lower_bound; lia).
  assert (Hn : 0 < n <= count - rf_cluster_index f) by (unfold n, cluster_amount; lia).
  assert (Hnb : 0 < n * rf_bytes_per_cluster f <= buf_len).
  { split; [nia|]. pose proof (Z.mul_div_le buf_len (rf_bytes_per_cluster f) ltac:(lia)).
    transitivity (buf_len / rf_bytes_per_cluster f * rf_bytes_per_cluster f); [|lia].
    apply Z.mul_le_mono_nonneg_r; [lia|]. unfold n, cluster_amount. lia. }
  assert (Hoff : (pe_lcn e + rf_cluster_index f + n) * rf_bytes_per_cluster f <= zlen volume).
  { etransitivity; [|exact Hs]. apply Z.mul_le_mono_nonneg_r; [lia|]. unfold count in *. lia. }
  split_and!; try lia; clear - Hoff Hnb Hl ae_bpc0 ae_cluster0 ae_volume0; nia.
Qed.

Lemma read_clusters_run (f : RawFile) pre e exts s (count := pe_next_vcn e - previous_vcn f)
    (n := cluster_amount f count) (k := byte_amount f n) (bpc := rf_bytes_per_cluster f) :
  at_extent f pre (e :: exts) -> rf_cluster_index f < count -> rf_bytes_read f < rf_file_size f ->
  exists s', read_clusters p buf_len e count (f, s) =
    (Ok (take (Z.to_nat k) (part volume ((pe_lcn e + rf_cluster_index f) * bpc) (n * bpc))),
     (next_position f count n k, s')) /\ held s' = held s /\ written (pmach s') = written (pmach s).
Proof.
  intros Hat Hci Hlt. destruct (amounts f pre e exts Hat Hci) as (Hn & Hnb & Hfirst & Hoff & Hend). destruct Hat.
  fold count n bpc in Hn, Hnb, Hoff, Hend.
  destruct (ae_reads0 (pmach s) (pe_lcn e + rf_cluster_index f) n) as (w1 & H1 & w2 & H2); [lia|lia|done|].
  fold bpc in H1, H2. exists (at_machine w2 (at_machine w1 s)).
  split; [|split; [done|]; cbn; by rewrite (read_written _ _ _ _ _ H2), (seek_written _ _ _ _ _ H1)].
  assert (Hbl : zlen (part volume ((pe_lcn e + rf_cluster_index f) * bpc) (n * bpc)) = n * bpc) by (apply part_length; lia).
  unfold read_clusters. fold bpc. rewrite (proj2 (Z.eqb_neq bpc 0)) by (unfold bpc; lia). cbv zeta.
  change (Z.min (count - rf_cluster_index f) (buf_len / bpc)) with n. rewrite (proj2 (Z.eqb_neq n 0)) by lia.
  unfold eff_bind, eff_lift, move_disk_position, read_file_from_disk_pointer.
  rewrite (i64_of_ok (pe_lcn e + _)), (i64_of_ok (_ * bpc)) by lia. rewrite H1.
  unfold wrap. rewrite (Z.mod_small (n * bpc)) by lia. rewrite (proj2 (Z.ltb_ge buf_len _)) by lia.
  cbn [pmach at_machine]. rewrite H2. unfold add_w. rewrite Hbl.
  rewrite (proj2 (Z.ltb_lt (rf_bytes_read f + n * bpc) _)) by lia.
  replace (if rf_file_size f <? _ then _ else _) with k
    by (unfold k, byte_amount; fold bpc; destruct (Z.ltb_spec (rf_file_size f) (rf_bytes_read f + n * bpc)); [rewrite Z.mod_small|]; lia).
  unfold next_position. by destruct (n =? count - rf_cluster_index f).
Qed.

Lemma read_clusters_ok (f : RawFile) pre e exts s (count := pe_next_vcn e - previous_vcn f) :
  at_extent f pre (e :: exts) -> rf_cluster_index f < count -> rf_bytes_read f < rf_file_size f ->
  read_post f (e :: exts) s (read_clusters p buf_len e count (f, s)).
Proof.
  intros Hat Hci Hlt. destruct (amounts f pre e exts Hat Hci) as (Hn & Hnb & Hfirst & Hoff & Hend).
  destruct (read_clusters_run f pre e exts s Hat Hci Hlt) as (s' & Hrun & Hheld & Hwr). fold count in Hn, Hnb, Hend, Hrun.
  set (n := cluster_amount f count) in *. set (k := byte_amount f n) in *. set (bpc := rf_bytes_per_cluster f) in *.
  set (bytes := part volume _ _) in Hrun.
  assert (Hbl : Z.of_nat (length bytes) = n * bpc) by (apply part_length; lia).
  assert (Hk : 0 < k <= n * bpc /\ (k = n * bpc \/ k = rf_file_size f - rf_bytes_read f) /\ rf_bytes_read f + k <= rf_file_size f)
    by (unfold k, byte_amount; fold bpc; lia).
  assert (Htk : Z.of_nat (length (take (Z.to_nat k) bytes)) = k) by (rewrite length_take; lia).
  eexists _, _, _, _, _. split; [exact Hrun|]. split; [intros E; rewrite E in Htk; cbn [length] in Htk; lia|].
  split; [|split; [apply (next_position_at f pre e exts); [done|done|lia]|]].
  - unfold rest. rewrite (remaining_next f pre e exts n k Hat Hn). fold bpc bytes.
    replace (rf_file_size (next_position f count n k)) with (rf_file_size f) by (unfold next_position; by case_match).
    replace (rf_bytes_read (next_position f count n k)) with (rf_bytes_read f + k) by (unfold next_position; by case_match).
    rewrite take_app. destruct (decide (k = n * bpc)) as [Ek|Ek].
    + rewrite !(take_ge bytes) by lia. do 2 f_equal. lia.
    + assert (Ek' : k = rf_file_size f - rf_bytes_read f) by tauto. rewrite <- Ek'. do 2 f_equal. lia.
  - unfold zlen. rewrite Htk. unfold next_position. case_match; done.
Qed.

Lemma read_loop_ok (fuel : nat) (f : RawFile) pre exts s :
  at_extent f pre exts -> (length exts < fuel)%nat -> rf_bytes_read f < rf_file_size f -> rest f exts <> [] ->
  read_post f exts s (read_loop fuel p buf_len (f, s)).
Proof.
  revert f pre exts. induction fuel as [|fuel IH]; intros f pre exts Hat Hfuel Hlt Hne; [lia|].
  pose proof Hat as []. cbn [read_loop].
  unfold current_extent. rewrite ae_split0, ae_index0, lookup_app_r, Nat.sub_diag by lia.
  destruct exts as [|e exts]; [by unfold rest, remaining in Hne; cbn [extent_bytes] in Hne; rewrite drop_nil, take_nil in Hne|].
  cbn [lookup list_lookup]. pose proof ae_exts0 as (Hv & Hl & Hs & Hx).
  rewrite (proj2 (Z.ltb_ge _ _)) by lia. rewrite i64_of_ok by lia. cbv zeta. unfold wrap. rewrite Z.mod_small by lia.
  destruct (Z.leb_spec (pe_next_vcn e - previous_vcn f) (rf_cluster_index f)) as [Hle|Hgt];
    [|by apply (read_clusters_ok f pre)].
  set (f' := at_position f (S (length pre)) (rf_bytes_read f) 0).
  assert (Hrest : rest f (e :: exts) = rest f' exts).
  { unfold rest, remaining. cbn [f' at_position rf_file_size rf_bytes_read rf_cluster_index rf_bytes_per_cluster].
    f_equal. unfold f'. rewrite (previous_vcn_next f pre e exts) by done.
    replace (rf_cluster_index f) with (pe_next_vcn e - previous_vcn f) by lia. by rewrite drop_extent by (done || lia). }
  fold f'. rewrite Hrest in Hne.
  destruct (IH f' (pre ++ [e]) exts) as (bytes & f2 & s2 & pre2 & exts2 & H1 & H2 & H3 & H4 & H5 & H6 & H7 & H8 & H9 & H10);
    [by apply at_extent_next|cbn in Hfuel; lia|done|done|].
  exists bytes, f2, s2, pre2, exts2. rewrite Hrest. done.
Qed.

(** ** The whole file *)

Context `{sink : !sink_api} (appends : forall w bytes, exists w', sink_write_all w bytes = (None, w') /\
                                                         written w' = written w ++ bytes).

Lemma copy_loop_ok (fuel : nat) (f : RawFile) pre exts s source destination :
  at_extent f pre exts -> zlen (rest f exts) = rf_file_size f - rf_bytes_read f -> (length (rest f exts) < fuel)%nat ->
  exists f' s', copy_loop fuel p buf_len source destination (f, s) = (Ok tt, (f', s')) /\
    written (pmach s') = written (pmach s) ++ rest f exts /\ held s' = held s.
Proof using All.
  revert f pre exts s. induction fuel as [|fuel IH]; intros f pre exts s Hat Hlen Hfuel; [lia|].
  cbn [copy_loop]. unfold eff_map_err, eff_bind, raw_read. pose proof Hat as [].
  rewrite (proj2 (Z.ltb_ge buf_len _)) by lia.
  destruct (Z.leb_spec (rf_file_size f) (rf_bytes_read f)) as [Hend|Hmore].
  - assert (Hnil : rest f exts = []) by (apply length_zero_iff_nil; unfold zlen in Hlen; lia).
    cbn. rewrite Hnil, app_nil_r. eauto.
  - assert (Hne : rest f exts <> []) by (intros E; rewrite E in Hlen; unfold zlen in Hlen; cbn [length] in Hlen; lia).
    destruct (read_loop_ok (S (length (rp_extents (rf_pointers f)))) f pre exts s)
      as (bytes & f2 & s2 & pre2 & exts2 & H1 & H2 & H3 & H4 & H5 & H6 & H7 & H8 & H9 & H10); try done.
    { rewrite ae_split0, length_app. lia. }
    rewrite H1. cbn [map_err]. replace (length bytes =? 0)%nat with false
      by (symmetry; apply Nat.eqb_neq; intros E; by apply length_zero_iff_nil in E).
    unfold sink_step at 1. destruct (appends (pmach s2) bytes) as (w & Hw & Hww). rewrite Hw.
    destruct (IH f2 pre2 exts2 (at_machine w s2)) as (f3 & s3 & Hr & Hwr & Hh); [done| | |].
    + rewrite H3 in Hlen. unfold zlen in *. rewrite length_app in Hlen. lia.
    + rewrite H3, length_app in Hfuel. destruct bytes; [done|]. cbn [length] in Hfuel. lia.
    + exists f3, s3. rewrite Hr. split; [done|]. split; [|by rewrite Hh, <- H9].
      rewrite Hwr, H3. cbn [pmach at_machine]. by rewrite Hww, H10, <- app_assoc.
Qed.
End Content.

(** A file on a volume, before the first read. *)
Record on_volume {W} `{api : !disk_api W} (volume : list Z) (f : RawFile) : Prop := {
  ov_fresh : rf_extent_index f = O /\ rf_bytes_read f = 0 /\ rf_cluster_index f = 0;
  ov_bpc : 0 < rf_bytes_per_cluster f;
  ov_volume : zlen volume < 2 ^ 63;
  ov_vcn : 0 <= rp_starting_vcn (rf_pointers f);
  ov_extents : extents_ok (zlen volume) (rf_bytes_per_cluster f) (rp_starting_vcn (rf_pointers f)) (rp_extents (rf_pointers f));
  ov_size : 0 <= rf_file_size f < 2 ^ 63;
  ov_allocated : rf_file_size f <= zlen (extent_bytes volume (rf_bytes_per_cluster f) (rp_starting_vcn (rf_pointers f))
                                           (rp_extents (rf_pointers f)));
  ov_reads : reads_volume (oh_handle (rf_disk_handle f)) (rf_bytes_per_cluster f) volume }.

(** [C13] Copying a file from its clusters: with a reader positioned at the
    start of a file whose extents ascend, lie on the volume and cover the
    file's size, a volume whose whole clusters are read in full, and a
    destination that takes what it is given, the copy loop ends and has
    written exactly the file's bytes: the clusters of the extents in order,
    cut at the file size.  The buffer may have any size from one cluster up
    to 4 GiB; one round more than there are bytes is enough, in both build
    profiles, and no handle is opened or closed. *)
Theorem raw_copy_exact {W} `{api : !disk_api W} `{sink : !sink_api (W:=W)} (written : W -> list Z) `{!written_laws written}
    (volume : list Z) (p : profile) (f : RawFile) (buf_len : Z) (fuel : nat) (source destination : str) (s : proc_st W) :
  on_volume volume f -> rf_bytes_per_cluster f <= buf_len < 2 ^ 32 -> (length (content volume f) < fuel)%nat ->
  (forall w bytes, exists w', sink_write_all w bytes = (None, w') /\ written w' = written w ++ bytes) ->
  exists f' s', copy_loop fuel p buf_len source destination (f, s) = (Ok tt, (f', s')) /\
    written (pmach s') = written (pmach s) ++ content volume f /\ held s' = held s.
Proof.
  intros [[Hi [Hr Hc]] ? ? ? ? ? ? ?] Hbuf Hfuel Happ.
  assert (Hp : previous_vcn f = rp_starting_vcn (rf_pointers f)) by (unfold previous_vcn; by rewrite Hi).
  assert (Hrest : rest volume f (rp_extents (rf_pointers f)) = content volume f).
  { unfold rest, remaining, content. rewrite Hr, Hc, Hp, Z.mul_0_l, drop_0. f_equal. lia. }
  rewrite <- Hrest in *. eapply (copy_loop_ok volume buf_len p written Happ fuel f []); [|rewrite Hrest; unfold content, zlen in *; rewrite length_take; lia|done].
  constructor; rewrite ?Hp; try done; try lia.
  destruct (rp_extents (rf_pointers f)) as [|e l]; [done|]. destruct ov_extents0 as (? & _). lia.
Qed.

(** ** Opening *)

Section Opening.
Context {W : Type} `{ho : !handle_api} `{api : !disk_api W}.
Context (created_ok : forall w name access share h w', CreateFileW w name access share = (inr h, w') -> handle_ok h = true).

Lemma drop_metadata (s s1 : proc_st W) (h : Z) (l : list resource) :
  handle_ok h = true -> gained s s1 (ResHandle h :: l) -> gained s (drop_owned (with_ownership h true) s1) l.
Proof.
  intros Hh H. unfold drop_owned. cbn [with_ownership oh_close_on_drop oh_handle andb]. rewrite Hh. by apply gained_release.
Qed.

(** Who closes the volume: once [open] has a handle of the volume, a
    reader that is returned owns exactly that handle, the handle used for the
    file's metadata being closed again; but every error that follows (the
    volume's geometry, the file, its size or its extents cannot be read)
    leaves the volume open, because its handle has no owner until the reader
    is built. *)
Theorem raw_open_volume (p : profile) (path : str) (clusters capacity : Z) (drive disk : str) (h : Z) (w : W)
    (s : proc_st W) :
  get_drive_and_disk path = Ok (drive, disk) ->
  CreateFileW (pmach s) (to_utf16_nul drive) GENERIC_READ (Z.lor FILE_SHARE_READ FILE_SHARE_WRITE) = (inr h, w) ->
  match open_with_tuning p path clusters capacity s with
  | (Ok f, s') => gained s s' [ResHandle h] /\ rf_disk_handle f = mkOwnedHandle h true /\
                  rf_extent_index f = O /\ rf_bytes_read f = 0 /\ rf_cluster_index f = 0
  | (Err _, s') => gained s s' [ResHandle h]
  | (Panic _, _) => True
  end.
Proof using created_ok.
  intros Hd Hc. unfold open_with_tuning. case_decide as Hp; [by subst path|].
  unfold get_drive_metadata, eff_bind, eff_lift. rewrite Hd. cbn [fst snd]. unfold open_handle, acquiring. rewrite Hc.
  set (s1 := foldr acquire (at_machine w s) [ResHandle h]).
  assert (Hg : gained s s1 [ResHandle h]) by (intros r; unfold s1; by rewrite held_acquire_all).
  destruct (GetDiskFreeSpaceW _ _) as [e|[sectors bytes]]; [done|]. unfold get_file_pointer_and_size, eff_bind, open_handle, acquiring.
  destruct (CreateFileW (pmach s1) _ _ _) as [[e|m] w2] eqn:E; [done|].
  pose proof (created_ok _ _ _ _ _ _ E) as Hm. destruct (GetFileSize _ m) as [low high]. unfold eff_scoped. cbn [fst snd].
  set (s2 := foldr acquire (at_machine w2 s1) [ResHandle m]).
  assert (Hg2 : gained s s2 [ResHandle m; ResHandle h]).
  { intros r. unfold s2. rewrite held_acquire_all. cbn [at_machine held]. rewrite (Hg r).
    rewrite !count_res_cons, count_res_nil. lia. }
  pose proof (drop_metadata s s2 m _ Hm Hg2) as Hfin.
  unfold get_retrieval_pointers. destruct (DeviceIoControl _ _ _) as [e|b]; [done|].
  destruct (_ <? zlen b); [done|]. destruct (buffer_to_retrieval_pointers b); [|done|done].
  by destruct (mul_u32 p bytes sectors).
Qed.
End Opening.

(** ** Retrieval pointers read back *)

Definition extent_le (e : PointerExtent) : list Z := le_encode 8 (wrap 64 (pe_next_vcn e)) ++ le_encode 8 (wrap 64 (pe_lcn e)).
Definition pointers_le (starting_vcn : Z) (extents : list PointerExtent) : list Z :=
  le_encode 4 (zlen extents) ++ replicate 4 0 ++ le_encode 8 (wrap 64 starting_vcn) ++ mjoin (extent_le <$> extents).
Definition is_i64 (z : Z) : Prop := - 2 ^ 63 <= z < 2 ^ 63.

Lemma as_i64_wrap (z : Z) : is_i64 z -> as_i64 (wrap 64 z) = z.
Proof.
  intros H. unfold as_i64, wrap, is_i64 in *. destruct (Z.leb_spec 0 z).
  - rewrite Z.mod_small by lia. by rewrite (proj2 (Z.ltb_lt z _)) by lia.
  - rewrite <- (Z_mod_plus_full z 1), Z.mod_small by lia. rewrite (proj2 (Z.ltb_ge _ _)) by lia. lia.
Qed.

Lemma i64_read (z : Z) (pre post : list Z) (off : nat) : is_i64 z -> length pre = off ->
  i64_at (pre ++ le_encode 8 (wrap 64 z) ++ post) off = z.
Proof.
  intros Hz <-. unfold i64_at. rewrite drop_app_length, take_app_length' by (by rewrite length_le_encode).
  rewrite le_decode_encode by (unfold wrap; apply Z.mod_pos_bound; lia). by apply as_i64_wrap.
Qed.

Lemma extents_loop_read (extents acc : list PointerExtent) (pre : list Z) :
  Forall (fun e => is_i64 (pe_next_vcn e) /\ is_i64 (pe_lcn e)) extents ->
  extents_loop (length extents) (pre ++ mjoin (extent_le <$> extents)) (length pre) acc = Ok (acc ++ extents).
Proof.
  revert acc pre. induction extents as [|[v l] extents IH]; intros acc pre Hok; [cbn; by rewrite app_nil_r|].
  apply Forall_cons in Hok as [[Hv Hl] Hok]. cbn [pe_next_vcn pe_lcn] in Hv, Hl.
  cbn [length extents_loop fmap list_fmap mjoin list_join].
  change (extent_le (mkPointerExtent v l)) with (le_encode 8 (wrap 64 v) ++ le_encode 8 (wrap 64 l)).
  rewrite (proj2 (Nat.ltb_ge _ _)) by (rewrite !length_app, !length_le_encode; lia).
  rewrite <- !app_assoc. rewrite (i64_read v) by done.
  rewrite (app_assoc pre (le_encode 8 (wrap 64 v))), (i64_read l) by (done || (rewrite length_app, length_le_encode; lia)).
  rewrite app_assoc. replace (length pre + 16)%nat with (length ((pre ++ le_encode 8 (wrap 64 v)) ++ le_encode 8 (wrap 64 l)))
    by (rewrite !length_app, !length_le_encode; lia).
  rewrite IH by done. by rewrite <- app_assoc.
Qed.

(** The answer of [FSCTL_GET_RETRIEVAL_POINTERS] in its documented layout is
    read back. *)
Lemma retrieval_pointers_read (starting_vcn : Z) (extents : list PointerExtent) :
  is_i64 starting_vcn -> zlen extents < 2 ^ 32 -> Forall (fun e => is_i64 (pe_next_vcn e) /\ is_i64 (pe_lcn e)) extents ->
  buffer_to_retrieval_pointers (pointers_le starting_vcn extents)
  = Ok (mkRetrievalPointers (zlen extents) starting_vcn extents).
Proof.
  intros Hs Hn Hok. unfold buffer_to_retrieval_pointers, pointers_le. set (body := mjoin _).
  rewrite (proj2 (Nat.ltb_ge _ _)) by (rewrite !length_app, length_replicate, !length_le_encode; lia).
  rewrite take_app_length' by (by rewrite length_le_encode). rewrite le_decode_encode by (unfold zlen in *; lia).
  unfold zlen at 1. rewrite Nat2Z.id. rewrite (app_assoc (le_encode 4 _)).
  rewrite (i64_read starting_vcn) by (done || by rewrite length_app, length_replicate, length_le_encode).
  rewrite (app_assoc _ (le_encode 8 _)).
  replace 16%nat with (length ((le_encode 4 (zlen extents) ++ replicate 4 0) ++ le_encode 8 (wrap 64 starting_vcn)))
    by (rewrite !length_app, length_replicate, !length_le_encode; done).
  unfold body. by rewrite extents_loop_read.
Qed.

(** ** A small volume *)

Module Demo.
Record disk := mkDisk { position : Z; out : list Z }.
Definition volume : list Z := Z.of_nat <$> seq 0 16.
Definition api : disk_api disk := {|
  CreateFileW w _ access _ := if access =? GENERIC_READ then (inr 7, w) else (inl (mk_win_error (-2147024891)), w);
  GetDiskFreeSpaceW _ _ := inr (1, 2); GetFileSize _ _ := (5, 0);
  DeviceIoControl _ _ _ := inr (pointers_le 0 [mkPointerExtent 2 3; mkPointerExtent 3 0]);
  SetFilePointerEx w _ off := (None, mkDisk off (out w));
  ReadFile w _ n := (inr (part volume (position w) n), mkDisk (position w + n) (out w)) |}.
Definition sink : sink_api (W:=disk) := {|
  sink_create w _ := (None, w); sink_write_all w bytes := (None, mkDisk (position w) (out w ++ bytes));
  sink_flush w := (None, w) |}.
Definition file : RawFile := mkRawFile (lit "C:\a") (mkOwnedHandle 7 true) 5
  (mkRetrievalPointers 2 0 [mkPointerExtent 2 3; mkPointerExtent 3 0]) 2 1 0 0 0.
Definition state : proc_st disk := mkProcSt (mkDisk 0 []) (fun _ => 0).
Definition handles : handle_api := {| handle_ok h := 0 <? h |}.

Lemma written_ok : written_laws (api:=api) out.
Proof. constructor; cbn; intros; by simplify_eq. Qed.

Lemma file_on_volume : on_volume (api:=api) volume file.
Proof.
  constructor; try (vm_compute; intuition congruence); try (vm_compute; done).
  intros w first n Hf Hn Hle. eexists. split; [reflexivity|]. eexists. reflexivity.
Qed.
End Demo.

Lemma raw_copy_exact_witness :
  on_volume (api:=Demo.api) Demo.volume Demo.file /\ content Demo.volume Demo.file = [6; 7; 8; 9; 0] /\
  exists f' s', copy_loop (api:=Demo.api) (sink:=Demo.sink) 6 Debug 2 (lit "C:\a") (lit "C:\b") (Demo.file, Demo.state)
    = (Ok tt, (f', s')) /\ Demo.out (pmach s') = [6; 7; 8; 9; 0].
Proof.
  split; [exact Demo.file_on_volume|]. split; [reflexivity|].
  destruct (raw_copy_exact (api:=Demo.api) (sink:=Demo.sink) Demo.out (written_laws0:=Demo.written_ok) Demo.volume Debug
    Demo.file 2 6 (lit "C:\a") (lit "C:\b") Demo.state Demo.file_on_volume ltac:(vm_compute; split; congruence)
    ltac:(vm_compute; lia) ltac:(cbn; eauto)) as (f' & s' & H1 & H2 & _).
  exists f', s'. split; [exact H1|exact H2].
Defined.

Lemma raw_open_volume_witness :
  exists s', open_with_tuning (api:=Demo.api) (ho:=Demo.handles) Debug (lit "C:\a") 16 32000 Demo.state
    = (Err (file_failed (lit "C:\a") "open source file metadata handle" (Some (-2147024891))), s') /\
  gained Demo.state s' [ResHandle 7].
Proof.
  assert (Hc : forall w name access share h w',
    CreateFileW (disk_api:=Demo.api) w name access share = (inr h, w') -> handle_ok (handle_api:=Demo.handles) h = true).
  { intros w name access share h w'. cbn. destruct (access =? GENERIC_READ); intros H; by simplify_eq. }
  pose proof (raw_open_volume (api:=Demo.api) (ho:=Demo.handles) Hc Debug (lit "C:\a") 16 32000 (lit "\\.\C:") (lit "C:\")
    7 (Demo.mkDisk 0 []) Demo.state eq_refl eq_refl) as H.
  eexists. split; [reflexivity|]. exact H.
Defined.
