(* ===== verification/SafeFile.v ===== *)
(** * SafeFile: creating and deleting files without following links

    src/file/safe.rs.  A [Path] is what [Path::components] yields; [parent]
    and [file_name] are defined on it as the standard library documents them,
    and the text of a path, which only error values carry, is a parameter.
    The calls are the class [nt_api]. *)

From Stdlib Require Import ZArith Lia String Ascii.
From stdpp Require Import base list strings gmap numbers sorting.
From S2P Require Import Prelude Text Unicode Errors Backends Effects Resources.

Open Scope Z_scope.

(** ** Paths *)

Inductive Prefix := Disk (letter : Z) | OtherPrefix.
(** [Normal None] is a component that is not valid Unicode. *)
Inductive Component := PrefixComponent (p : Prefix) | RootDir | CurDir | ParentDir | Normal (name : option str).
Abbreviation path := (list Component).

Definition parent (p : path) : option path :=
  match reverse p with
  | (Normal _ | CurDir | ParentDir) :: r => Some (reverse r)
  | _ => None
  end.
Definition file_name (p : path) : option (option str) :=
  match reverse p with Normal n :: _ => Some n | _ => None end.

(** ** Constants and errors *)

Definition FILE_OPEN : Z := 1.
Definition FILE_CREATE : Z := 2.
Definition FILE_DIRECTORY_FILE : Z := 0x1.
Definition FILE_SYNCHRONOUS_IO_NONALERT : Z := 0x20.
Definition FILE_NON_DIRECTORY_FILE : Z := 0x40.
Definition FILE_OPEN_FOR_BACKUP_INTENT : Z := 0x4000.
Definition FILE_OPEN_REPARSE_POINT : Z := 0x200000.
Definition FILE_ATTRIBUTE_HIDDEN : Z := 0x2.
Definition FILE_ATTRIBUTE_NORMAL : Z := 0x80.
Definition FILE_ATTRIBUTE_REPARSE_POINT : Z := 0x400.
Definition GENERIC_WRITE : Z := 0x40000000.
Definition DELETE : Z := 0x10000.
Definition SYNCHRONIZE : Z := 0x100000.
Definition FILE_LIST_DIRECTORY : Z := 0x1.
Definition FILE_TRAVERSE : Z := 0x20.
Definition FILE_READ_ATTRIBUTES : Z := 0x80.

Definition directory_access : Z :=
  Z.lor (Z.lor (Z.lor FILE_LIST_DIRECTORY FILE_TRAVERSE) FILE_READ_ATTRIBUTES) SYNCHRONIZE.
Definition directory_options : Z :=
  Z.lor (Z.lor (Z.lor FILE_DIRECTORY_FILE FILE_SYNCHRONOUS_IO_NONALERT) FILE_OPEN_FOR_BACKUP_INTENT) FILE_OPEN_REPARSE_POINT.
(** [FILE_SHARE_READ | FILE_SHARE_WRITE]. *)
Definition directory_share : Z := 3.
Definition file_options : Z :=
  Z.lor (Z.lor FILE_NON_DIRECTORY_FILE FILE_SYNCHRONOUS_IO_NONALERT) FILE_OPEN_REPARSE_POINT.

Definition invalid (parameter message : string) : Error :=
  Error_InvalidParameter (mkInvalidParameterError (lit parameter) (lit message)).

Definition validate_file_name (name : str) : res Error unit :=
  if bool_decide (name = []) || bool_decide (name = lit ".") || bool_decide (name = lit "..")
     || existsb (fun c => (c =? 92) || (c =? 47) || (c =? 58)) name || existsb (fun c => c =? 0) name
  then Err (invalid "name" "must be a plain file name")
  else Ok tt.

(** ** The calls *)

(** [NtCreateFile]: the root handle, the name, the access, attributes,
    sharing, disposition and options; a status and a handle. *)
Class nt_api (W : Type) := {
  NtCreateFile : W -> option Z -> list Z -> Z -> Z -> Z -> Z -> Z -> Z * Z * W;
  RtlNtStatusToDosError : Z -> Z;
  GetFileInformationByHandle : W -> Z -> win_error + Z;
  WriteFile : W -> Z -> list Z -> (win_error + Z) * W;
  SetDeleteDisposition : W -> Z -> option win_error * W }.

Section Safe.
Context {W : Type} `{ho : !handle_api} `{api : !nt_api W} (display : path -> str).

Abbreviation P := (eff (proc_st W) Error).

Definition file_error (p : path) (operation : string) (code : Z) : Error :=
  Error_FileOperation (mkFileOperationError (display p) (lit operation) (Some code)).

(** The error is a Win32 code. *)
Definition nt_open (root : option OwnedHandle) (name : str) (access attributes share disposition options : Z)
    : eff (proc_st W) Z OwnedHandle := fun s =>
  let wide := encode_utf16 name in
  if 65535 <? zlen wide * 2 then (Err 206, s)
  else
    let '(status, handle, w) :=
      NtCreateFile (pmach s) (oh_handle <$> root) wide access attributes share disposition options in
    if status <? 0
    then let code := RtlNtStatusToDosError status in (Err (if code =? 0 then status else as_i32 code), at_machine w s)
    else (Ok (owned_new handle), acquire (ResHandle handle) (at_machine w s)).

Definition refuse_reparse_point (handle : OwnedHandle) (p : path) : P unit := fun s =>
  (match GetFileInformationByHandle (pmach s) (oh_handle handle) with
   | inl e => Err (file_error p "query attributes" (win_error_code e))
   | inr attributes =>
       if negb (Z.land attributes FILE_ATTRIBUTE_REPARSE_POINT =? 0)
       then Err (Error_FileOperation (mkFileOperationError (display p)
                   (lit "refuse reparse point (junction or symbolic link) on the path") None))
       else Ok tt
   end, s).

(** The next directory of the chain, opened relative to [current]. *)
Definition next_directory (dir : path) (current : OwnedHandle) (c : Component) : P OwnedHandle :=
  match c with
  | Normal (Some name) =>
      let* next := eff_map_err (file_error dir "open directory")
                     (nt_open (Some current) name directory_access 0 directory_share FILE_OPEN directory_options) in
      let* _ := eff_guard (drop_owned next) (refuse_reparse_point next dir) in
      eff_ret next
  | Normal None => eff_fail (invalid "dir" "path is not valid Unicode")
  | _ => eff_fail (invalid "dir" "`.` and `..` are not allowed")
  end.

(** The loop; the handle of a directory is dropped when the next one is
    open. *)
Fixpoint chain_loop (dir : path) (current : OwnedHandle) (components : list Component) : P OwnedHandle :=
  match components with
  | [] => eff_ret current
  | c :: components =>
      let* next := eff_scoped (drop_owned current) (next_directory dir current c) in
      chain_loop dir next components
  end.

Definition root_name (drive : Z) : str := lit "\??\" ++ [drive] ++ lit ":\".

Definition open_directory_chain (dir : path) : P OwnedHandle :=
  match dir with
  | PrefixComponent (Disk drive) :: RootDir :: components =>
      let* current := eff_map_err (file_error dir "open volume root")
                        (nt_open None (root_name drive) directory_access 0 directory_share FILE_OPEN directory_options) in
      chain_loop dir current components
  | PrefixComponent (Disk _) :: _ => eff_fail (invalid "dir" "path must be absolute (C:\...)")
  | PrefixComponent OtherPrefix :: _ => eff_fail (invalid "dir" "only drive-letter paths are supported")
  | _ => eff_fail (invalid "dir" "path must be absolute (C:\...)")
  end.

(** Every round writes at least one byte. *)
Fixpoint write_loop (fuel : nat) (dir : path) (file : Z) (remaining : list Z) : P unit := fun s =>
  match fuel with
  | O => (Panic OutOfFuel, s)
  | S fuel =>
      if (length remaining =? 0)%nat then (Ok tt, s)
      else match WriteFile (pmach s) file remaining with
           | (inl e, w) => (Err (file_error dir "write file" (win_error_code e)), at_machine w s)
           | (inr written, w) =>
               let s := at_machine w s in
               if written =? 0 then (Err (file_error dir "write file" 0), s)
               else if zlen remaining <? written then (Panic IndexOutOfBounds, s)
               else write_loop fuel dir file (drop (Z.to_nat written) remaining) s
           end
  end.

Definition create_new_no_follow (dir : path) (name : str) (content : list Z) (hidden : bool) : P unit :=
  let* _ := eff_lift (validate_file_name name) in
  let* parent := open_directory_chain dir in
  eff_scoped (drop_owned parent)
    (let attributes := if hidden then FILE_ATTRIBUTE_HIDDEN else FILE_ATTRIBUTE_NORMAL in
     let* file := eff_map_err (file_error dir "create file")
                    (nt_open (Some parent) name (Z.lor (Z.lor GENERIC_WRITE SYNCHRONIZE) FILE_READ_ATTRIBUTES) attributes 0
                       FILE_CREATE file_options) in
     eff_scoped (drop_owned file) (write_loop (S (length content)) dir (oh_handle file) content)).

Definition delete_no_follow (p : path) : P unit :=
  match parent p, file_name p with
  | Some dir, Some (Some name) =>
      let* _ := eff_lift (validate_file_name name) in
      let* parent := open_directory_chain dir in
      eff_scoped (drop_owned parent)
        (let* file := eff_map_err (file_error p "open file for delete")
                        (nt_open (Some parent) name (Z.lor (Z.lor DELETE SYNCHRONIZE) FILE_READ_ATTRIBUTES) 0 0
                           FILE_OPEN file_options) in
         eff_scoped (drop_owned file)
           (let* _ := refuse_reparse_point file p in
            fun s => match SetDeleteDisposition (pmach s) (oh_handle file) with
                     | (None, w) => (Ok tt, at_machine w s)
                     | (Some e, w) => (Err (file_error p "delete file" (win_error_code e)), at_machine w s)
                     end))
  | _, _ => eff_fail (invalid "path" "path must name a file inside a directory")
  end.
End Safe.

(** ** File systems *)

(** What the calls see: nodes, what a handle refers to, the entry of a
    directory itself (not what a link leads to), and the bytes of a file. *)
Class fs_view (W : Type) := {
  node : Type;
  volume_root : Z -> node;
  refers : W -> Z -> node -> Prop;
  entry : W -> node -> str -> node -> Prop;
  is_link : W -> node -> Prop;
  file_bytes : W -> node -> list Z;
  delete_pending : W -> node -> Prop }.

(** The documented behaviour of the calls: [FILE_OPEN_REPARSE_POINT] opens
    the entry itself, a name is resolved relative to the root handle. *)
Class fs_laws (W : Type) `{handle_api} `{!nt_api W} `{!fs_view W} : Prop := {
  created_valid : forall w root name access attributes share disposition options status h w',
    NtCreateFile w root name access attributes share disposition options = (status, h, w') -> 0 <= status ->
    handle_ok h = true;
  open_root : forall w drive access attributes share options status h w',
    NtCreateFile w None (encode_utf16 (root_name drive)) access attributes share FILE_OPEN options = (status, h, w') ->
    0 <= status -> refers w' h (volume_root drive);
  open_entry : forall w root d name access attributes share options status h w',
    refers w root d -> Z.land options FILE_OPEN_REPARSE_POINT <> 0 ->
    NtCreateFile w (Some root) (encode_utf16 name) access attributes share FILE_OPEN options = (status, h, w') ->
    0 <= status -> exists c, entry w d name c /\ refers w' h c;
  create_entry : forall w root d name access attributes share options status h w',
    refers w root d ->
    NtCreateFile w (Some root) (encode_utf16 name) access attributes share FILE_CREATE options = (status, h, w') ->
    0 <= status -> (forall c, ~ entry w d name c) /\
    exists f, entry w' d name f /\ refers w' h f /\ file_bytes w' f = [];
  attributes_law : forall w h n attributes,
    GetFileInformationByHandle w h = inr attributes -> refers w h n ->
    (is_link w n <-> Z.land attributes FILE_ATTRIBUTE_REPARSE_POINT <> 0);
  write_law : forall w h f bytes n w',
    refers w h f -> WriteFile w h bytes = (inr n, w') ->
    0 <= n <= zlen bytes /\ refers w' h f /\ file_bytes w' f = file_bytes w f ++ take (Z.to_nat n) bytes;
  delete_law : forall w h f w',
    refers w h f -> SetDeleteDisposition w h = (None, w') -> delete_pending w' f }.

(** The directory reached from a volume root by the named entries, none of
    which was a link when it was looked at. *)
Inductive reached {W} `{!fs_view W} (r : node) : list str -> node -> Prop :=
  | reached_root : reached r [] r
  | reached_step names d name c w w' :
      reached r names d -> entry w d name c -> ~ is_link w' c -> reached r (names ++ [name]) c.

Definition drive_path (drive : Z) (names : list str) : path :=
  PrefixComponent (Disk drive) :: RootDir :: ((fun n => Normal (Some n)) <$> names).

Definition plain_name (name : str) : Prop :=
  name <> [] /\ name <> lit "." /\ name <> lit ".." /\ Forall (fun c => c <> 92 /\ c <> 47 /\ c <> 58 /\ c <> 0) name.

Lemma validate_plain (name : str) : validate_file_name name = Ok tt <-> plain_name name.
Proof.
  unfold validate_file_name, plain_name. rewrite Forall_forall.
  assert (Hex : forall p : Z -> bool, existsb p name = false <-> forall c, c ∈ name -> p c = false).
  { intros p. rewrite <- not_true_iff_false, existsb_exists. setoid_rewrite <- list_elem_of_In.
    split; [intros H c Hc; apply not_true_iff_false; eauto|intros H (c & Hc & Hp); rewrite H in Hp; done]. }
  destruct (bool_decide_reflect (name = [])); cbn [orb]; [naive_solver|].
  destruct (bool_decide_reflect (name = lit ".")); cbn [orb]; [naive_solver|].
  destruct (bool_decide_reflect (name = lit "..")); cbn [orb]; [naive_solver|].
  destruct (existsb (fun c => (c =? 92) || (c =? 47) || (c =? 58)) name) eqn:E1; cbn [orb].
  { split; [done|]. intros (_ & _ & _ & H). apply not_false_iff_true in E1. destruct E1. apply Hex.
    intros c Hc. specialize (H c Hc). lia. }
  destruct (existsb (fun c => c =? 0) name) eqn:E2.
  { split; [done|]. intros (_ & _ & _ & H). apply not_false_iff_true in E2. destruct E2. apply Hex.
    intros c Hc. specialize (H c Hc). lia. }
  split; [|done]. intros _. split_and!; try done. intros c Hc.
  pose proof (proj1 (Hex _) E1 c Hc). pose proof (proj1 (Hex _) E2 c Hc). cbn in *. lia.
Qed.

Section Laws.
Context {W : Type} `{ho : !handle_api} `{api : !nt_api W} `{view : !fs_view W} `{laws : !fs_laws W} (display : path -> str).

Lemma pmach_drop (o : OwnedHandle) (s : proc_st W) : pmach (drop_owned o s) = pmach s.
Proof. unfold drop_owned. by case_match. Qed.

Lemma options_reparse :
  Z.land directory_options FILE_OPEN_REPARSE_POINT <> 0 /\ Z.land file_options FILE_OPEN_REPARSE_POINT <> 0.
Proof. done. Qed.

(** A successful [nt_open] is a successful call. *)
Lemma nt_open_ok (root : option OwnedHandle) name access attributes share disposition options s o s' :
  nt_open root name access attributes share disposition options s = (Ok o, s') ->
  exists status h w, NtCreateFile (pmach s) (oh_handle <$> root) (encode_utf16 name) access attributes share disposition
    options = (status, h, w) /\ 0 <= status /\ oh_handle o = h /\ pmach s' = w.
Proof.
  unfold nt_open. destruct (65535 <? _); [done|].
  destruct (NtCreateFile _ _ _ _ _ _ _ _) as [[status h] w] eqn:E. destruct (Z.ltb_spec status 0); [done|].
  intros [= <- <-]. exists status, h, w. done.
Qed.

Lemma map_err_ok {S E F A} (f : E -> F) (m : eff S E A) s a s' : eff_map_err f m s = (Ok a, s') <-> m s = (Ok a, s').
Proof. unfold eff_map_err. destruct (m s) as [[x|e|x] s1]; cbn; naive_solver. Qed.

Lemma scoped_ok {A} (o : OwnedHandle) (m : eff (proc_st W) Error A) s a s' :
  eff_scoped (drop_owned o) m s = (Ok a, s') -> exists s1, m s = (Ok a, s1) /\ s' = drop_owned o s1.
Proof. unfold eff_scoped. destruct (m s) as [r s1]. intros [= -> <-]. eauto. Qed.

Lemma refuse_ok (o : OwnedHandle) p s s' (n : node) :
  refuse_reparse_point display o p s = (Ok tt, s') -> refers (pmach s) (oh_handle o) n ->
  s' = s /\ ~ is_link (pmach s) n.
Proof using laws.
  unfold refuse_reparse_point. destruct (GetFileInformationByHandle _ _) as [e|attributes] eqn:E; [done|].
  destruct (Z.eqb_spec (Z.land attributes FILE_ATTRIBUTE_REPARSE_POINT) 0); [|done]. intros [= <-] Hr.
  split; [done|]. rewrite (attributes_law _ _ _ _ E Hr). lia.
Qed.

Lemma next_directory_ok dir current c s next s' (d : node) :
  next_directory display dir current c s = (Ok next, s') -> refers (pmach s) (oh_handle current) d ->
  exists name x w', c = Normal (Some name) /\ entry (pmach s) d name x /\ ~ is_link w' x /\
    refers (pmach s') (oh_handle next) x.
Proof using laws.
  intros H Hr. destruct c as [| | | |[name|]]; try done. cbn [next_directory] in H.
  apply eff_bind_ok in H as (o & s1 & Ho & H). apply map_err_ok, nt_open_ok in Ho as (status & h & w & Hc & Hst & Hh & Hw).
  destruct (open_entry _ _ _ _ _ _ _ _ _ _ _ Hr (proj1 options_reparse) Hc Hst) as (x & Hx & Hrx). rewrite <- Hh, <- Hw in Hrx.
  apply eff_bind_ok in H as (u & s2 & Hu & [= <- <-]). unfold eff_guard in Hu.
  destruct (refuse_reparse_point display o dir s1) as [[[]|e|y] s3] eqn:E; simplify_eq.
  destruct (refuse_ok _ _ _ _ _ E Hrx) as [-> Hl]. eauto 10.
Qed.

Lemma chain_loop_ok dir current components s h s' (r d : node) names :
  chain_loop display dir current components s = (Ok h, s') -> refers (pmach s) (oh_handle current) d -> reached r names d ->
  exists names' d', components = (fun n => Normal (Some n)) <$> names' /\ reached r (names ++ names') d' /\
    refers (pmach s') (oh_handle h) d'.
Proof using laws.
  revert current s names d. induction components as [|c components IH]; intros current s names d H Hr Hd.
  - injection H as <- <-. exists [], d. by rewrite app_nil_r.
  - cbn [chain_loop] in H. apply eff_bind_ok in H as (next & s1 & Hn & H). apply scoped_ok in Hn as (s2 & Hn & ->).
    destruct (next_directory_ok _ _ _ _ _ _ _ Hn Hr) as (name & x & w' & -> & Hx & Hl & Hrx).
    destruct (IH next _ (names ++ [name]) x H) as (names' & d' & -> & Hd' & Hr').
    + by rewrite pmach_drop.
    + by eapply reached_step.
    + exists (name :: names'), d'. by rewrite <- app_assoc in Hd'.
Qed.

Lemma chain_ok dir s h s' :
  open_directory_chain display dir s = (Ok h, s') ->
  exists drive names d, dir = drive_path drive names /\ reached (volume_root drive) names d /\
    refers (pmach s') (oh_handle h) d.
Proof using laws.
  unfold open_directory_chain. destruct dir as [|[[drive|]| | | |] [|[| | | |] components]]; try done. intros H.
  apply eff_bind_ok in H as (o & s1 & Ho & H). apply map_err_ok, nt_open_ok in Ho as (status & h0 & w & Hc & Hst & Hh & Hw).
  pose proof (open_root _ _ _ _ _ _ _ _ _ Hc Hst) as Hr. rewrite <- Hh, <- Hw in Hr.
  destruct (chain_loop_ok _ _ _ _ _ _ _ _ [] H Hr (reached_root _)) as (names & d & -> & Hd & Hr'). by exists drive, names, d.
Qed.

Lemma write_loop_ok fuel dir h (f : node) remaining s :
  (length remaining < fuel)%nat -> refers (pmach s) h f ->
  forall s', write_loop display fuel dir h remaining s = (Ok tt, s') ->
  file_bytes (pmach s') f = file_bytes (pmach s) f ++ remaining.
Proof using laws.
  revert remaining s. induction fuel as [|fuel IH]; intros remaining s Hf Hr s' H; [lia|]. cbn [write_loop] in H.
  destruct (Nat.eqb_spec (length remaining) 0) as [E|E].
  { injection H as <-. apply length_zero_iff_nil in E as ->. by rewrite app_nil_r. }
  destruct (WriteFile (pmach s) h remaining) as [[e|n] w] eqn:Ew; [done|].
  destruct (write_law _ _ _ _ _ _ Hr Ew) as (Hn & Hr' & Hb).
  destruct (Z.eqb_spec n 0); [done|]. rewrite (proj2 (Z.ltb_ge _ _)) in H by lia.
  apply IH in H; [|rewrite length_drop; unfold zlen in Hn; lia|done]. rewrite H. cbn [pmach at_machine].
  by rewrite Hb, <- app_assoc, take_drop.
Qed.

(** [C14] A file is created where the path says and nowhere else: when
    [create_new_no_follow] succeeds, the directory is an absolute drive path
    of ordinary components, the name is a plain one, and the file was created,
    new and with exactly the given content, in the directory that is reached
    from the volume's root entry by entry, none of which is a junction or a
    symbolic link. *)
Theorem create_no_follow_safe dir name content hidden s s' :
  create_new_no_follow display dir name content hidden s = (Ok tt, s') ->
  exists drive names d w w' f,
    dir = drive_path drive names /\ plain_name name /\ reached (volume_root drive) names d /\
    (forall c, ~ entry w d name c) /\ entry w' d name f /\ file_bytes (pmach s') f = content.
Proof using laws.
  unfold create_new_no_follow. intros H. apply eff_bind_ok in H as ([] & s0 & Hv & H). injection Hv as Hv <-.
  apply eff_bind_ok in H as (o & s1 & Hc & H). apply chain_ok in Hc as (drive & names & d & -> & Hd & Hr).
  apply scoped_ok in H as (s2 & H & ->). rewrite pmach_drop. apply eff_bind_ok in H as (file & s3 & Hf & H).
  apply map_err_ok, nt_open_ok in Hf as (status & h & w & Hcr & Hst & Hh & Hw).
  destruct (create_entry _ _ _ _ _ _ _ _ _ _ _ Hr Hcr Hst) as (Hno & f & He & Hrf & Hb).
  apply scoped_ok in H as (s4 & H & ->). rewrite pmach_drop.
  exists drive, names, d, (pmach s1), w, f. apply validate_plain in Hv. split_and!; try done.
  rewrite <- Hh, <- Hw in Hrf. rewrite (write_loop_ok _ _ _ f _ _ (Nat.lt_succ_diag_r _) Hrf _ H). by rewrite Hw, Hb.
Qed.

(** A file is deleted where the path says: when [delete_no_follow]
    succeeds, the path is an absolute drive path that ends in a plain name,
    and what is deleted is the entry of that name, itself not a link, in the
    directory that is reached from the volume's root without passing a
    junction or a symbolic link. *)
Theorem delete_no_follow_safe p s s' :
  delete_no_follow display p s = (Ok tt, s') ->
  exists drive names name d w w' f,
    p = drive_path drive (names ++ [name]) /\ plain_name name /\ reached (volume_root drive) names d /\
    entry w d name f /\ ~ is_link w' f /\ delete_pending (pmach s') f.
Proof using laws.
  unfold delete_no_follow, parent, file_name. destruct (reverse p) as [|[| | | |[name|]] r] eqn:Ep; try done.
  apply (f_equal reverse) in Ep. rewrite reverse_involutive, reverse_cons in Ep.
  intros H. apply eff_bind_ok in H as ([] & s0 & Hv & H). injection Hv as Hv <-.
  apply eff_bind_ok in H as (o & s1 & Hc & H). apply chain_ok in Hc as (drive & names & d & Hdir & Hd & Hr).
  apply scoped_ok in H as (s2 & H & ->). rewrite pmach_drop. apply eff_bind_ok in H as (file & s3 & Hf & H).
  apply map_err_ok, nt_open_ok in Hf as (status & h & w & Hcr & Hst & Hh & Hw).
  destruct (open_entry _ _ _ _ _ _ _ _ _ _ _ Hr (proj2 options_reparse) Hcr Hst) as (f & He & Hrf). rewrite <- Hh, <- Hw in Hrf.
  apply scoped_ok in H as (s4 & H & ->). rewrite pmach_drop. apply eff_bind_ok in H as ([] & s5 & Hl & H).
  destruct (refuse_ok _ _ _ _ _ Hl Hrf) as [-> Hlink].
  destruct (SetDeleteDisposition _ _) as [[e|] w2] eqn:Es; [done|]. injection H as <-.
  exists drive, names, name, d, (pmach s1), (pmach s3), f. apply validate_plain in Hv. split_and!; try done.
  - rewrite Ep, Hdir. unfold drive_path. by rewrite fmap_app.
  - exact (delete_law _ _ _ _ Hrf Es).
Qed.

(** ** Handles *)

Definition owned_result (o : OwnedHandle) : list resource := [ResHandle (oh_handle o)].
Definition opens (m : eff (proc_st W) Error OwnedHandle) : Prop :=
  owns m owned_result /\ forall s o s', m s = (Ok o, s') -> oh_close_on_drop o = true /\ handle_ok (oh_handle o) = true.

Lemma drop_valid (o : OwnedHandle) (s : proc_st W) :
  oh_close_on_drop o = true /\ handle_ok (oh_handle o) = true -> drop_owned o s = release (ResHandle (oh_handle o)) s.
Proof. intros [H1 H2]. unfold drop_owned. by rewrite H1, H2. Qed.

Lemma opens_scoped {B} m (k : OwnedHandle -> eff (proc_st W) Error B) own :
  opens m -> (forall o, owns (k o) own) -> owns (let* o := m in eff_scoped (drop_owned o) (k o)) own.
Proof.
  intros [Hm Hv] Hk s. unfold eff_bind, eff_scoped. specialize (Hm s). specialize (Hv s).
  destruct (m s) as [[o|e|x] s1]; [|done|done]. specialize (Hv o s1 eq_refl). specialize (Hk o s1).
  destruct (k o s1) as [[b|e|x] s2]; rewrite (drop_valid o _ Hv); apply gained_release; exact (gained_trans _ _ _ _ _ Hm Hk).
Qed.

Lemma opens_nt_open (f : Z -> Error) root name access attributes share disposition options :
  opens (eff_map_err f (nt_open root name access attributes share disposition options)).
Proof using laws.
  split.
  - intros s. unfold eff_map_err, nt_open. destruct (65535 <? _); [exact (owns_fail (f 206) owned_result s)|].
    destruct (NtCreateFile _ _ _ _ _ _ _ _) as [[status h] w]. destruct (status <? 0); cbn [map_err].
    + intros r. rewrite count_res_nil. cbn. lia.
    + intros r. exact (held_acquire_all (at_machine w s) [ResHandle h] r).
  - intros s o s' H. apply map_err_ok in H. pose proof H as H'. apply nt_open_ok in H as (status & h & w & Hc & Hst & Hh & _).
    rewrite Hh, (created_valid _ _ _ _ _ _ _ _ _ _ _ Hc Hst). unfold nt_open in H'. rewrite Hc in H'.
    destruct (65535 <? _); [done|]. destruct (status <? 0); [done|]. by injection H' as <- <-.
Qed.

Lemma owns_refuse o p : owns (refuse_reparse_point display o p) (fun _ => []).
Proof. intros s. unfold refuse_reparse_point. repeat case_match; intros r; rewrite count_res_nil; lia. Qed.

Lemma opens_next dir current c : opens (next_directory display dir current c).
Proof using laws.
  destruct c as [| | | |[name|]]; cbn [next_directory]; try (split; [apply owns_fail|done]).
  destruct (opens_nt_open (file_error display dir "open directory") (Some current) name directory_access 0 directory_share
    FILE_OPEN directory_options) as [Hm Hv]. split.
  - intros s. unfold eff_bind at 1. specialize (Hm s). specialize (Hv s).
    destruct (eff_map_err _ _ s) as [[o|e|x] s1]; [|done|done]. specialize (Hv o s1 eq_refl).
    pose proof (owns_refuse o dir s1) as Hu. unfold eff_bind, eff_guard.
    destruct (refuse_reparse_point display o dir s1) as [[u|e|x] s2]; cbn [eff_ret eff_lift].
    + exact (gained_trans _ _ _ _ _ Hm Hu).
    + rewrite (drop_valid o _ Hv). apply gained_release. exact (gained_trans _ _ _ _ _ Hm Hu).
    + rewrite (drop_valid o _ Hv). apply gained_release. exact (gained_trans _ _ _ _ _ Hm Hu).
  - intros s o s' H. apply eff_bind_ok in H as (o' & s1 & Ho & H). apply eff_bind_ok in H as (u & s2 & _ & [= <- <-]).
    by eapply Hv.
Qed.

(** Walking down one directory exchanges one handle for another. *)
Lemma chain_loop_handles dir components current s s0 :
  oh_close_on_drop current = true /\ handle_ok (oh_handle current) = true -> gained s0 s (owned_result current) ->
  match chain_loop display dir current components s with
  | (Ok o, s') => gained s0 s' (owned_result o) /\ oh_close_on_drop o = true /\ handle_ok (oh_handle o) = true
  | (_, s') => gained s0 s' []
  end.
Proof using laws.
  revert current s. induction components as [|c components IH]; intros current s Hv Hg; [by split|].
  cbn [chain_loop]. unfold eff_bind at 1, eff_scoped. destruct (opens_next dir current c) as [Hm Hn].
  specialize (Hm s). specialize (Hn s). destruct (next_directory display dir current c s) as [[next|e|x] s1].
  - rewrite (drop_valid current _ Hv). apply IH; [by eapply Hn|]. apply gained_release. exact (gained_trans _ _ _ _ _ Hg Hm).
  - rewrite (drop_valid current _ Hv). apply gained_release. exact (gained_trans _ _ _ _ _ Hg Hm).
  - rewrite (drop_valid current _ Hv). apply gained_release. exact (gained_trans _ _ _ _ _ Hg Hm).
Qed.

Lemma opens_chain dir : opens (open_directory_chain display dir).
Proof using laws.
  unfold open_directory_chain.
  destruct dir as [|[[drive|]| | | |] [|[| | | |] components]]; try (split; [apply owns_fail|done]).
  destruct (opens_nt_open (file_error display (PrefixComponent (Disk drive) :: RootDir :: components) "open volume root") None
    (root_name drive) directory_access 0 directory_share FILE_OPEN directory_options) as [Hm Hv].
  split; intros s; unfold eff_bind; specialize (Hm s); specialize (Hv s);
    destruct (eff_map_err _ _ s) as [[o|e|x] s1]; try done; specialize (Hv o s1 eq_refl);
    pose proof (chain_loop_handles (PrefixComponent (Disk drive) :: RootDir :: components) components o s1 s Hv Hm) as H.
  - by destruct (chain_loop _ _ o components s1) as [[o'|e|x] s2]; [destruct H|..].
  - intros o' s' E. rewrite E in H. by destruct H.
Qed.

Lemma owns_write fuel dir h bytes : owns (write_loop display fuel dir h bytes) (fun _ => []).
Proof.
  revert bytes. induction fuel as [|fuel IH]; intros bytes s; cbn [write_loop]; [intros r; rewrite count_res_nil; lia|].
  destruct (length bytes =? 0)%nat; [intros r; rewrite count_res_nil; lia|].
  destruct (WriteFile _ h bytes) as [[e|n] w]; [intros r; rewrite count_res_nil; cbn; lia|].
  destruct (n =? 0); [intros r; rewrite count_res_nil; cbn; lia|].
  destruct (zlen bytes <? n); [intros r; rewrite count_res_nil; cbn; lia|]. exact (IH _ (at_machine w s)).
Qed.

(** Creating and deleting without following links closes every handle
    it opens, on success and on every error: the handle of a directory is
    given back as soon as the next one is open, so exactly one directory of
    the chain, the last, is open while the file is created or deleted. *)
Theorem no_follow_closes_handles :
  (forall dir, owns (open_directory_chain display dir) (fun o => [ResHandle (oh_handle o)])) /\
  (forall dir name content hidden, owns (create_new_no_follow display dir name content hidden) (fun _ => [])) /\
  (forall p, owns (delete_no_follow display p) (fun _ => [])).
Proof using laws.
  split; [intros dir; apply opens_chain|]. split.
  - intros dir name content hidden. unfold create_new_no_follow.
    apply owns_seq; [intros s; by destruct (validate_file_name name); intros r; rewrite count_res_nil; cbn; lia|].
    intros _. apply opens_scoped; [apply opens_chain|]. intros o. apply opens_scoped; [apply opens_nt_open|].
    intros o'. apply owns_write.
  - intros p. unfold delete_no_follow. destruct (parent p) as [dir|]; [|apply owns_fail].
    destruct (file_name p) as [[name|]|]; [|apply owns_fail..].
    apply owns_seq; [intros s; by destruct (validate_file_name name); intros r; rewrite count_res_nil; cbn; lia|].
    intros _. apply opens_scoped; [apply opens_chain|]. intros o. apply opens_scoped; [apply opens_nt_open|].
    intros o'. apply owns_seq; [apply owns_refuse|]. intros _ s. destruct (SetDeleteDisposition _ _) as [[e|] w];
      intros r; rewrite count_res_nil; cbn; lia.
Qed.
End Laws.

(** ** A small file system *)

Module ToyFs.
Record fs := mkFs {
  entries : list (Z * list Z * Z); links : list Z; opened : list (Z * Z); stored : list (Z * list Z);
  deleted : list Z; next : Z }.

Fixpoint assoc (l : list (Z * Z)) (k : Z) : option Z :=
  match l with [] => None | (x, v) :: l => if x =? k then Some v else assoc l k end.
Fixpoint find_entry (l : list (Z * list Z * Z)) (d : Z) (name : list Z) : option Z :=
  match l with
  | [] => None
  | (x, n, c) :: l => if bool_decide (x = d /\ n = name) then Some c else find_entry l d name
  end.
Definition bytes_of (w : fs) (n : Z) : list Z := mjoin ((fun x => if x.1 =? n then x.2 else []) <$> stored w).

Definition opening (w : fs) (n : Z) : Z * Z * fs :=
  (0, next w, mkFs (entries w) (links w) ((next w, n) :: opened w) (stored w) (deleted w) (next w + 1)).
Definition creating (w : fs) (d : Z) (name : list Z) : Z * Z * fs :=
  (0, next w, mkFs ((d, name, next w) :: entries w) (links w) ((next w, next w) :: opened w)
                (base.filter (fun x => x.1 <> next w) (stored w)) (deleted w) (next w + 1)).

Definition api : nt_api fs := {|
  NtCreateFile w root name _ _ _ disposition _ :=
    match root with
    | None => opening w 0
    | Some h =>
        match assoc (opened w) h with
        | None => (-1, 0, w)
        | Some d =>
            match find_entry (entries w) d name, disposition =? FILE_CREATE with
            | Some c, false => opening w c
            | None, true => creating w d name
            | _, _ => (-1, 0, w)
            end
        end
    end;
  RtlNtStatusToDosError _ := 5;
  GetFileInformationByHandle w h :=
    match assoc (opened w) h with
    | None => inl (mk_win_error 6)
    | Some n => inr (if bool_decide (n ∈ links w) then 0x410 else 0x10)
    end;
  WriteFile w h bytes :=
    match assoc (opened w) h with
    | None => (inl (mk_win_error 6), w)
    | Some n => let k := Z.min 2 (zlen bytes) in
                (inr k, mkFs (entries w) (links w) (opened w) (stored w ++ [(n, take (Z.to_nat k) bytes)]) (deleted w) (next w))
    end;
  SetDeleteDisposition w h :=
    match assoc (opened w) h with
    | None => (Some (mk_win_error 6), w)
    | Some n => (None, mkFs (entries w) (links w) (opened w) (stored w) (n :: deleted w) (next w))
    end |}.

Definition handles : handle_api := {| handle_ok _ := true |}.
Definition view : fs_view fs := {|
  node := Z; volume_root _ := 0; refers w h n := assoc (opened w) h = Some n;
  entry w d name c := find_entry (entries w) d (encode_utf16 name) = Some c; is_link w n := n ∈ links w;
  file_bytes := bytes_of; delete_pending w n := n ∈ deleted w |}.

Lemma bytes_fresh (l : list (Z * list Z)) (n : Z) :
  mjoin ((fun x => if x.1 =? n then x.2 else []) <$> base.filter (fun x : Z * list Z => x.1 <> n) l) = [].
Proof.
  induction l as [|[m b] l IH]; [done|]. rewrite filter_cons. case_decide as H; [|done]. cbn in H |- *.
  by rewrite (proj2 (Z.eqb_neq m n) H).
Qed.

Lemma laws : fs_laws fs (H:=handles) (nt_api0:=api) (fs_view0:=view).
Proof.
  constructor; cbn.
  - done.
  - intros w drive access attributes share options status h w' H _. injection H as <- <- <-. cbn. by rewrite Z.eqb_refl.
  - intros w root d name access attributes share options status h w' -> _ H Hst.
    destruct (find_entry (entries w) d (encode_utf16 name)) as [c|]; injection H as <- <- <-; [|lia].
    exists c. cbn. by rewrite Z.eqb_refl.
  - intros w root d name access attributes share options status h w' -> H Hst.
    destruct (find_entry (entries w) d (encode_utf16 name)) as [c|]; injection H as <- <- <-; [lia|].
    split; [done|]. exists (next w). cbn. rewrite bool_decide_eq_true_2 by done. rewrite Z.eqb_refl. by rewrite bytes_fresh.
  - intros w h n attributes H Hr. rewrite Hr in H. injection H as <-. case_bool_decide; naive_solver.
  - intros w h f bytes n w' Hr H. rewrite Hr in H. injection H as <- <-. split; [unfold zlen; lia|]. split; [done|].
    unfold bytes_of. cbn [stored]. rewrite fmap_app, join_app. f_equal. cbn. by rewrite Z.eqb_refl, app_nil_r.
  - intros w h f w' -> H. injection H as <-. set_solver.
Qed.

(** [C:\d] with a junction [j]. *)
Definition world : fs := mkFs [(0, encode_utf16 (lit "d"), 1); (1, encode_utf16 (lit "j"), 2); (1, encode_utf16 (lit "old"), 3)]
  [2] [] [] [] 100.
Definition state : proc_st fs := mkProcSt world (fun _ => 0).
Definition run := create_new_no_follow (ho:=handles) (api:=api) (fun _ => []).
Definition remove := delete_no_follow (ho:=handles) (api:=api) (fun _ => []).
End ToyFs.

Lemma create_no_follow_safe_witness :
  fst (ToyFs.run (drive_path 67 [lit "d"; lit "j"]) (lit "f") [1; 2; 3] false ToyFs.state) =
    Err (Error_FileOperation (mkFileOperationError [] (lit "refuse reparse point (junction or symbolic link) on the path") None)) /\
  exists drive names d f s', ToyFs.run (drive_path 67 [lit "d"]) (lit "f") [1; 2; 3] false ToyFs.state = (Ok tt, s') /\
    drive_path 67 [lit "d"] = drive_path drive names /\ reached (fs_view0:=ToyFs.view) 0 names d /\ file_bytes (fs_view:=ToyFs.view) (pmach s') f = [1; 2; 3].
Proof.
  split; [reflexivity|].
  destruct (ToyFs.run (drive_path 67 [lit "d"]) (lit "f") [1; 2; 3] false ToyFs.state) as [[[]|e|x] s'] eqn:E;
    [|vm_compute in E; congruence|vm_compute in E; congruence].
  destruct (create_no_follow_safe (laws:=ToyFs.laws) (fun _ => []) (drive_path 67 [lit "d"]) (lit "f") [1; 2; 3] false
    ToyFs.state s' E) as (drive & names & d & w & w' & f & Hp & _ & Hr & _ & _ & Hb).
  by exists drive, names, d, f, s'.
Defined.

Lemma delete_no_follow_safe_witness :
  fst (ToyFs.remove (drive_path 67 [lit "d"; lit "j"]) ToyFs.state) =
    Err (Error_FileOperation (mkFileOperationError [] (lit "refuse reparse point (junction or symbolic link) on the path") None)) /\
  exists f s', ToyFs.remove (drive_path 67 [lit "d"; lit "old"]) ToyFs.state = (Ok tt, s') /\
    delete_pending (fs_view:=ToyFs.view) (pmach s') f.
Proof.
  split; [reflexivity|].
  destruct (ToyFs.remove (drive_path 67 [lit "d"; lit "old"]) ToyFs.state) as [[[]|e|x] s'] eqn:E;
    [|vm_compute in E; congruence|vm_compute in E; congruence].
  destruct (delete_no_follow_safe (laws:=ToyFs.laws) (fun _ => []) (drive_path 67 [lit "d"; lit "old"]) ToyFs.state s' E)
    as (drive & names & name & d & w & w' & f & _ & _ & _ & _ & _ & Hd).
  by exists f, s'.
Defined.

Lemma no_follow_closes_handles_witness :
  owns (ToyFs.run (drive_path 67 [lit "d"]) (lit "f") [1; 2; 3] false) (fun _ => []).
Proof. apply (no_follow_closes_handles (laws:=ToyFs.laws)). Defined.
