(* ===== verification/Services.v ===== *)
(** * Services: the service control manager

    src/service/.  The calls and the clock are the class [scm_api]; reading
    the clock is a call too, since time passes.  Handles of the service
    control manager are the resource [ResScHandle]. *)

From Stdlib Require Import ZArith Lia String Ascii.
From stdpp Require Import base list strings gmap numbers sorting.
From S2P Require Import Prelude Text Unicode Errors Backends Effects Resources.

Open Scope Z_scope.

(** ** Types *)

Inductive ServiceState := Stopped | StartPending | StopPending | Running | Paused | UnknownState (code : Z).
#[export] Instance ServiceState_eq_dec : EqDecision ServiceState.
Proof. solve_decision. Defined.

Definition state_from_windows (state : Z) : ServiceState :=
  if state =? 1 then Stopped
  else if state =? 2 then StartPending
  else if state =? 3 then StopPending
  else if state =? 4 then Running
  else if state =? 7 then Paused
  else UnknownState state.

Definition state_as_str (s : ServiceState) : str :=
  match s with
  | Stopped => lit "stopped" | StartPending => lit "start_pending" | StopPending => lit "stop_pending"
  | Running => lit "running" | Paused => lit "paused" | UnknownState _ => lit "unknown"
  end.

Definition SC_MANAGER_CONNECT : Z := 1.
Definition SC_MANAGER_ENUMERATE_SERVICE : Z := 4.
Definition SC_MANAGER_ALL_ACCESS : Z := 0xF003F.
Inductive ServiceManagerAccess := Connect | EnumerateService | ManagerAllAccess | ManagerCustom (rights : Z).
Definition manager_access_to_windows (a : ServiceManagerAccess) : Z :=
  match a with
  | Connect => SC_MANAGER_CONNECT | EnumerateService => SC_MANAGER_ENUMERATE_SERVICE
  | ManagerAllAccess => SC_MANAGER_ALL_ACCESS | ManagerCustom rights => rights
  end.

Inductive ServiceAccess := QueryStatus | AccessStart | AccessStop | PauseContinue | ServiceAllAccess | ServiceCustom (rights : Z).
Definition service_access_to_windows (a : ServiceAccess) : Z :=
  match a with
  | QueryStatus => 0x4 | AccessStart => 0x10 | AccessStop => 0x20 | PauseContinue => 0x40
  | ServiceAllAccess => 0xF01FF | ServiceCustom rights => rights
  end.

Inductive ServiceControl := ControlStop | ControlPause | ControlContinue | ControlInterrogate.
Definition control_to_windows (c : ServiceControl) : Z :=
  match c with ControlStop => 1 | ControlPause => 2 | ControlContinue => 3 | ControlInterrogate => 4 end.
Definition operation_name (c : ServiceControl) : string :=
  match c with
  | ControlStop => "stop" | ControlPause => "pause" | ControlContinue => "continue" | ControlInterrogate => "interrogate"
  end.

(** [SERVICE_STATUS_PROCESS], and an entry of the enumeration with the
    NUL-terminated units its pointers lead to ([None] is a null pointer). *)
Record SERVICE_STATUS_PROCESS := mkStatusProcess {
  dwServiceType : Z; dwCurrentState : Z; dwControlsAccepted : Z; dwWin32ExitCode : Z; dwServiceSpecificExitCode : Z;
  dwCheckPoint : Z; dwWaitHint : Z; dwProcessId : Z; dwServiceFlags : Z }.
Record enum_status := mkEnumStatus {
  lpServiceName : option (list Z); lpDisplayName : option (list Z); ServiceStatusProcess : SERVICE_STATUS_PROCESS }.

Record ServiceStatus := mkServiceStatus {
  ss_name : str; ss_display_name : option str; ss_state : ServiceState; ss_process_id : Z; ss_service_type : Z;
  ss_controls_accepted : Z; ss_exit_code : Z; ss_service_specific_exit_code : Z; ss_checkpoint : Z; ss_wait_hint_ms : Z;
  ss_service_flags : Z }.

Definition from_status_process (name : str) (display_name : option str) (status : SERVICE_STATUS_PROCESS) : ServiceStatus :=
  mkServiceStatus name display_name (state_from_windows (dwCurrentState status)) (dwProcessId status) (dwServiceType status)
    (dwControlsAccepted status) (dwWin32ExitCode status) (dwServiceSpecificExitCode status) (dwCheckPoint status)
    (dwWaitHint status) (dwServiceFlags status).

(** The units up to the terminator. *)
Definition read_pwstr (p : option (list Z)) : str :=
  match p with
  | None => []
  | Some us => from_utf16_lossy (match position (Z.eqb 0) us with Some n => take n us | None => us end)
  end.

Definition from_enum_status (raw : enum_status) : ServiceStatus :=
  from_status_process (read_pwstr (lpServiceName raw)) (Some (read_pwstr (lpDisplayName raw))) (ServiceStatusProcess raw).

(** ** The calls *)

Class scm_api (W : Type) := {
  OpenSCManagerW : W -> Z -> (win_error + Z) * W;
  OpenServiceW : W -> Z -> list Z -> Z -> (win_error + Z) * W;
  EnumServicesNeeded : W -> Z -> Z * W;
  EnumServicesStatusExW : W -> Z -> Z -> (win_error + list enum_status) * W;
  QueryStatusNeeded : W -> Z -> Z * W;
  QueryServiceStatusEx : W -> Z -> Z -> (win_error + SERVICE_STATUS_PROCESS) * W;
  StartServiceW : W -> Z -> option win_error * W;
  ControlService : W -> Z -> Z -> option win_error * W;
  Instant_now : W -> Z * W;
  thread_sleep : W -> Z -> W }.

(** [ERROR_ACCESS_DENIED] and [ERROR_SERVICE_DOES_NOT_EXIST] as [HRESULT]s. *)
Definition ACCESS_DENIED_HRESULT : Z := as_i32 0x80070005.
Definition SERVICE_DOES_NOT_EXIST_HRESULT : Z := as_i32 0x80070424.
(** [size_of::<SERVICE_STATUS_PROCESS>()]. *)
Definition STATUS_PROCESS_SIZE : Z := 36.

Record ServiceManager := mkServiceManager { sm_handle : Z }.
Record Service := mkService { sv_handle : Z; sv_name : str }.

Section Calls.
Context {W : Type} `{api : !scm_api W}.

Abbreviation P := (eff (proc_st W) Error).

Definition drop_sc (h : Z) (s : proc_st W) : proc_st W := release (ResScHandle h) s.

(** A call that only succeeds or fails. *)
Definition sc_unit (call : W -> option win_error * W) (fail : win_error -> Error) : P unit := fun s =>
  match call (pmach s) with
  | (None, w) => (Ok tt, at_machine w s)
  | (Some e, w) => (Err (fail e), at_machine w s)
  end.
Definition sc_get {A} (call : W -> A * W) : P A := fun s => let '(a, w) := call (pmach s) in (Ok a, at_machine w s).

(** *** The manager *)

Definition connect_with_access (access : ServiceManagerAccess) : P ServiceManager :=
  let* h := acquiring (fun w => OpenSCManagerW w (manager_access_to_windows access)) (fun h => [ResScHandle h])
    (fun e => if win_error_code e =? ACCESS_DENIED_HRESULT
              then Error_AccessDenied (mkAccessDeniedError (lit "service manager") (lit "connect") None)
              else Error_Service (ServiceError_ManagerError (mkServiceManagerError (lit "connect")
                     (lit "OpenSCManagerW failed") (Some (win_error_code e))))) in
  eff_ret (mkServiceManager h).
Definition manager_connect : P ServiceManager :=
  connect_with_access (ManagerCustom (Z.lor SC_MANAGER_CONNECT SC_MANAGER_ENUMERATE_SERVICE)).

Definition manager_open_with_access (self : ServiceManager) (name : str) (access : ServiceAccess) : P Service :=
  if decide (trim name = [])
  then eff_fail (Error_InvalidParameter (mkInvalidParameterError (lit "name") (lit "service name cannot be empty")))
  else
    let* h := acquiring (fun w => OpenServiceW w (sm_handle self) (to_utf16_nul name) (service_access_to_windows access))
      (fun h => [ResScHandle h])
      (fun e => if win_error_code e =? SERVICE_DOES_NOT_EXIST_HRESULT
                then Error_NotFound (mkNotFoundError (lit "service") name)
                else if win_error_code e =? ACCESS_DENIED_HRESULT
                then Error_AccessDenied (mkAccessDeniedError name (lit "open") None)
                else Error_Service (ServiceError_NotFound (mkServiceNotFoundError name (Some (win_error_code e))))) in
    eff_ret (mkService h name).
Definition manager_open (self : ServiceManager) (name : str) : P Service :=
  manager_open_with_access self name (ServiceCustom
    (Z.lor (Z.lor (Z.lor (service_access_to_windows QueryStatus) (service_access_to_windows AccessStart))
       (service_access_to_windows AccessStop)) (service_access_to_windows PauseContinue))).

Definition list_with_filter (self : ServiceManager) (filter : ServiceStatus -> bool) : P (list ServiceStatus) :=
  let* bytes_needed := sc_get (fun w => EnumServicesNeeded w (sm_handle self)) in
  if bytes_needed =? 0 then eff_ret []
  else fun s =>
    match EnumServicesStatusExW (pmach s) (sm_handle self) bytes_needed with
    | (inl e, w) => (Err (Error_Service (ServiceError_ManagerError (mkServiceManagerError (lit "enumerate")
                       (lit "EnumServicesStatusExW failed") (Some (win_error_code e))))), at_machine w s)
    | (inr entries, w) => (Ok (List.filter filter (from_enum_status <$> entries)), at_machine w s)
    end.

(** *** A service *)

Definition operation_failed (self : Service) (operation reason : string) (e : win_error) : Error :=
  Error_Service (ServiceError_OperationFailed (mkServiceOperationError (sv_name self) (lit operation) (lit reason)
    (Some (win_error_code e)))).

Definition service_query (self : Service) : P ServiceStatus :=
  let* bytes_needed := sc_get (fun w => QueryStatusNeeded w (sv_handle self)) in
  fun s =>
    match QueryServiceStatusEx (pmach s) (sv_handle self) (Z.max bytes_needed STATUS_PROCESS_SIZE) with
    | (inr raw, w) => (Ok (from_status_process (sv_name self) None raw), at_machine w s)
    | (inl e, w) =>
        (Err (if win_error_code e =? SERVICE_DOES_NOT_EXIST_HRESULT
              then Error_Service (ServiceError_NotFound (mkServiceNotFoundError (sv_name self) (Some (win_error_code e))))
              else operation_failed self "query" "QueryServiceStatusEx failed" e), at_machine w s)
    end.

Definition service_start (self : Service) : P unit :=
  sc_unit (fun w => StartServiceW w (sv_handle self)) (operation_failed self "start" "StartServiceW failed").
Definition send_control (self : Service) (control : ServiceControl) : P unit :=
  sc_unit (fun w => ControlService w (sv_handle self) (control_to_windows control))
    (operation_failed self (operation_name control) "ControlService failed").
Definition service_stop (self : Service) : P unit := send_control self ControlStop.

(** [Instant::elapsed]. *)
Definition elapsed (since : Z) : P Z := let* t := sc_get Instant_now in eff_ret (Z.max 0 (t - since)).
Definition clamp (z low high : Z) : Z := Z.max low (Z.min z high).

Definition timed_out (self : Service) (desired : ServiceState) : Error :=
  Error_Service (ServiceError_InvalidState (mkServiceInvalidStateError (sv_name self) (state_as_str desired)
    (lit "timed out waiting for state transition"))).

(** The polling loop; times are in nanoseconds. *)
Fixpoint wait_loop (fuel : nat) (self : Service) (desired : ServiceState) (timeout start last_checkpoint stale_since : Z)
    : P unit :=
  match fuel with
  | O => eff_lift (Panic OutOfFuel)
  | S fuel =>
      let* e := elapsed start in
      if e <=? timeout then
        let* status := service_query self in
        if decide (ss_state status = desired) then eff_ret tt
        else
          let* since := (if ss_checkpoint status =? last_checkpoint then eff_ret stale_since else sc_get Instant_now) in
          let* stale := elapsed since in
          if timeout <? stale then eff_fail (timed_out self desired)
          else
            let poll_ms := clamp (clamp (ss_wait_hint_ms status) 100 10000 / 10) 100 1000 in
            let* _ := sc_get (fun w => (tt, thread_sleep w poll_ms)) in
            wait_loop fuel self desired timeout start (ss_checkpoint status) since
      else eff_fail (timed_out self desired)
  end.

Definition wait_for_state (fuel : nat) (self : Service) (desired : ServiceState) (timeout : Z) : P unit :=
  let* start := sc_get Instant_now in
  let* since := sc_get Instant_now in
  wait_loop fuel self desired timeout start 0 since.

Definition service_restart (fuel : nat) (self : Service) (timeout : Z) : P unit :=
  let* _ := service_stop self in
  let* _ := wait_for_state fuel self Stopped timeout in
  service_start self.

(** [Service::open_with_access], [Service::open]: the manager is a temporary. *)
Definition service_open_with_access (name : str) (access : ServiceAccess) : P Service :=
  let* m := manager_connect in
  eff_scoped (drop_sc (sm_handle m)) (manager_open_with_access m name access).
Definition service_open (name : str) : P Service := service_open_with_access name QueryStatus.

(** *** The functions of the module: the service is a temporary. *)

Definition with_service {A} (open : P Service) (k : Service -> P A) : P A :=
  let* v := open in eff_scoped (drop_sc (sv_handle v)) (k v).
Definition query (name : str) : P ServiceStatus := with_service (service_open name) service_query.
Definition start (name : str) : P unit := with_service (service_open_with_access name AccessStart) service_start.
Definition stop (name : str) : P unit := with_service (service_open_with_access name AccessStop) service_stop.
Definition restart (fuel : nat) (name : str) (timeout : Z) : P unit :=
  with_service (service_open_with_access name (ServiceCustom
    (Z.lor (Z.lor (service_access_to_windows QueryStatus) (service_access_to_windows AccessStart))
       (service_access_to_windows AccessStop)))) (fun v => service_restart fuel v timeout).
Definition list_services (filter : ServiceStatus -> bool) : P (list ServiceStatus) :=
  let* m := manager_connect in eff_scoped (drop_sc (sm_handle m)) (list_with_filter m filter).
End Calls.

(** ** Handles *)

Section Ownership.
Context {W : Type} `{api : !scm_api W}.

Abbreviation P := (eff (proc_st W) Error).

Lemma owns_machine {A} (m : P A) : (forall s, held (m s).2 = held s) -> owns m (fun _ => []).
Proof.
  intros H s. specialize (H s). destruct (m s) as [[a|e|x] s']; cbn in H; intros r; rewrite H, count_res_nil; lia.
Qed.

(** A handle of the manager that the rest closes on every path. *)
Lemma owns_sc {A B} (m : P A) (h : A -> Z) (k : A -> P B) own :
  owns m (fun a => [ResScHandle (h a)]) -> (forall a, owns (k a) own) ->
  owns (let* a := m in eff_scoped (drop_sc (h a)) (k a)) own.
Proof.
  intros Hm Hk s. unfold eff_bind, eff_scoped, drop_sc. specialize (Hm s).
  destruct (m s) as [[a|e|x] s1]; [|done|done]. specialize (Hk a s1).
  destruct (k a s1) as [[b|e|x] s']; apply gained_release; exact (gained_trans _ _ _ _ _ Hm Hk).
Qed.

Lemma owns_rename {A B} (m : P A) (f : A -> B) own ownb :
  owns m own -> (forall a, own a = ownb (f a)) -> owns (let* a := m in eff_ret (f a)) ownb.
Proof.
  intros Hm E. eapply owns_bind; [exact Hm|]. intros a s0 s Hs. cbn. by rewrite <- E.
Qed.

Lemma sc_get_owns {A} (call : W -> A * W) : owns (sc_get call) (fun _ => []).
Proof. apply owns_machine. intros s. unfold sc_get. by destruct (call (pmach s)). Qed.

Lemma sc_unit_owns (call : W -> option win_error * W) fail : owns (sc_unit call fail) (fun _ => []).
Proof. apply owns_machine. intros s. unfold sc_unit. by destruct (call (pmach s)) as [[?|] ?]. Qed.

Lemma service_query_owns (v : Service) : owns (service_query v) (fun _ => []).
Proof.
  apply owns_seq; [apply sc_get_owns|]. intros n. apply owns_machine. intros s.
  by destruct (QueryServiceStatusEx _ _ _) as [[?|?] ?].
Qed.

Lemma elapsed_owns t : owns (elapsed (W:=W) t) (fun _ => []).
Proof. apply owns_seq; [apply sc_get_owns|]. intros. apply owns_ret. Qed.

Lemma wait_loop_owns fuel (v : Service) desired timeout start last since :
  owns (wait_loop fuel v desired timeout start last since) (fun _ => []).
Proof.
  revert last since. induction fuel as [|fuel IH]; intros last since; cbn [wait_loop];
    [intros s r; cbn; rewrite count_res_nil; lia|].
  apply owns_seq; [apply elapsed_owns|]. intros e. case_match; [|apply owns_fail].
  apply owns_seq; [apply service_query_owns|]. intros st. case_decide; [apply owns_ret|].
  apply owns_seq; [case_match; [apply owns_ret|apply sc_get_owns]|]. intros since'.
  apply owns_seq; [apply elapsed_owns|]. intros stale. case_match; [apply owns_fail|].
  apply owns_seq; [apply sc_get_owns|]. intros _. apply IH.
Qed.

Lemma connect_owns access : owns (connect_with_access access) (fun m => [ResScHandle (sm_handle m)]).
Proof. eapply owns_rename; [apply owns_acquiring|]. done. Qed.

Lemma manager_open_owns (m : ServiceManager) name access :
  owns (manager_open_with_access m name access) (fun v => [ResScHandle (sv_handle v)]).
Proof.
  unfold manager_open_with_access. case_decide; [apply owns_fail|].
  eapply owns_rename; [apply owns_acquiring|]. done.
Qed.

Lemma list_owns (m : ServiceManager) filter : owns (list_with_filter m filter) (fun _ => []).
Proof.
  apply owns_seq; [apply sc_get_owns|]. intros n. case_match; [apply owns_ret|].
  apply owns_machine. intros s. by destruct (EnumServicesStatusExW _ _ _) as [[?|?] ?].
Qed.

Lemma restart_owns fuel (v : Service) timeout : owns (service_restart fuel v timeout) (fun _ => []).
Proof.
  apply owns_seq; [apply sc_unit_owns|]. intros _.
  apply owns_seq; [|intros; apply sc_unit_owns].
  apply owns_seq; [apply sc_get_owns|]. intros t. apply owns_seq; [apply sc_get_owns|]. intros t'. apply wait_loop_owns.
Qed.

Lemma service_open_owns name access :
  owns (service_open_with_access name access) (fun v => [ResScHandle (sv_handle v)]).
Proof. apply owns_sc; [apply connect_owns|]. intros m. apply manager_open_owns. Qed.

Lemma with_service_owns {A} name access (k : Service -> P A) :
  (forall v, owns (k v) (fun _ => [])) -> owns (with_service (service_open_with_access name access) k) (fun _ => []).
Proof. intros Hk. apply owns_sc; [apply service_open_owns|done]. Qed.

(** Every handle of the service control manager is closed: opening a
    service by name leaves exactly the service's handle open (and nothing
    when it fails, the manager's handle included), and the functions of the
    module that query, start, stop, restart or list leave none, whatever
    call fails. *)
Theorem service_functions_close_handles fuel name access timeout filter :
  owns (service_open_with_access name access) (fun v => [ResScHandle (sv_handle v)]) /\
  owns (query name) (fun _ => []) /\ owns (start name) (fun _ => []) /\ owns (stop name) (fun _ => []) /\
  owns (restart fuel name timeout) (fun _ => []) /\ owns (list_services filter) (fun _ => []).
Proof.
  split_and!; [apply service_open_owns|apply with_service_owns..|].
  - apply service_query_owns.
  - intros; apply sc_unit_owns.
  - intros; apply sc_unit_owns.
  - intros; apply restart_owns.
  - apply owns_sc; [apply connect_owns|]. intros; apply list_owns.
Qed.
End Ownership.

(** ** Waiting for a state *)

Definition MS : Z := 1000000.

(** What the documentation of [Instant] and [thread::sleep] says: the clock
    never goes back, and a sleep lasts at least as long as was asked. *)
Class clock_laws (W : Type) `{!scm_api W} := {
  clock : W -> Z;
  now_reads : forall w, clock w <= (Instant_now w).1 <= clock (Instant_now w).2;
  sleep_lasts : forall w ms, clock w + ms * MS <= clock (thread_sleep w ms);
  needed_clock : forall w h, clock w <= clock (QueryStatusNeeded w h).2;
  query_clock : forall w h n, clock w <= clock (QueryServiceStatusEx w h n).2 }.

(** What else a service that answers in time does: every call returns within
    [delay], and from [T] on the service is in the desired state. *)
Record reaches_state {W} `{!scm_api W, !clock_laws W} (h : Z) (desired : ServiceState) (T delay : Z) : Prop := {
  now_delay : forall w, clock (Instant_now w).2 <= clock w + delay;
  sleep_delay : forall w ms, clock (thread_sleep w ms) <= clock w + ms * MS + delay;
  needed_delay : forall w, clock (QueryStatusNeeded w h).2 <= clock w + delay;
  query_delay : forall w n, clock (QueryServiceStatusEx w h n).2 <= clock w + delay;
  query_answers : forall w n, exists raw w', QueryServiceStatusEx w h n = (inr raw, w') /\
    (T <= clock w -> state_from_windows (dwCurrentState raw) = desired) }.

Section Waiting.
Context {W : Type} `{api : !scm_api W, laws : !clock_laws W}.

Abbreviation now s := (clock (pmach (W:=W) s)).

Definition poll_ms (hint : Z) : Z := clamp (clamp hint 100 10000 / 10) 100 1000.

Lemma poll_ms_range hint : 100 <= poll_ms hint <= 1000.
Proof. unfold poll_ms, clamp. lia. Qed.

Lemma sc_now s : exists t s', sc_get Instant_now s = (Ok t, s') /\ now s <= t <= now s' /\
  pmach s' = (Instant_now (pmach s)).2.
Proof.
  unfold sc_get. pose proof (now_reads (pmach s)) as H. destruct (Instant_now (pmach s)) as [t w]. cbn in H.
  eexists t, _. split; [done|]. cbn. split; [lia|done].
Qed.

Lemma elapsed_now since s : exists t s', elapsed since s = (Ok (Z.max 0 (t - since)), s') /\ now s <= t <= now s' /\
  pmach s' = (Instant_now (pmach s)).2.
Proof.
  destruct (sc_now s) as (t & s' & E & H). exists t, s'. unfold elapsed, eff_bind. rewrite E. done.
Qed.

Lemma service_query_now v s : now s <= now (service_query v s).2.
Proof.
  unfold service_query, eff_bind, sc_get. pose proof (needed_clock (pmach s) (sv_handle v)) as H.
  destruct (QueryStatusNeeded (pmach s) (sv_handle v)) as [n w]. cbn in *.
  pose proof (query_clock w (sv_handle v) (Z.max n STATUS_PROCESS_SIZE)) as H'.
  destruct (QueryServiceStatusEx _ _ _) as [[e|raw] w']; cbn in *; lia.
Qed.

(** The status a successful query returns is that of one answer of
    [QueryServiceStatusEx], the last call made. *)
Definition answered (h : Z) (P : SERVICE_STATUS_PROCESS -> Prop) (s : proc_st W) : Prop :=
  exists w n raw, QueryServiceStatusEx w h n = (inr raw, pmach s) /\ P raw.

Lemma service_query_ok v s st s' : service_query v s = (Ok st, s') ->
  answered (sv_handle v) (fun raw => st = from_status_process (sv_name v) None raw) s'.
Proof.
  unfold service_query, eff_bind, sc_get. destruct (QueryStatusNeeded _ _) as [n w]. cbn.
  destruct (QueryServiceStatusEx _ _ _) as [[e|raw] w'] eqn:E; [done|]. intros [= <- <-].
  by exists w, (Z.max n STATUS_PROCESS_SIZE), raw.
Qed.

Lemma service_query_no_panic v s p : (service_query v s).1 <> Panic p.
Proof.
  unfold service_query, eff_bind, sc_get. destruct (QueryStatusNeeded _ _) as [n w]. cbn.
  by destruct (QueryServiceStatusEx _ _ _) as [[e|raw] w'].
Qed.

(** What a wait promises: it ends, successfully only on an answer with the
    desired state, with the time-out error only when more than [timeout]
    passed since [start], and otherwise with the error of a query. *)
Definition wait_outcome (v : Service) (desired : ServiceState) (deadline : Z) (out : res Error unit * proc_st W) : Prop :=
  match out with
  | (Ok _, s') => answered (sv_handle v) (fun raw => state_from_windows (dwCurrentState raw) = desired) s'
  | (Err e, s') => (e = timed_out v desired /\ deadline < now s') \/ exists s, (service_query v s) = (Err e, s')
  | (Panic _, _) => False
  end.

Lemma wait_loop_outcome fuel v desired timeout start last since s :
  0 <= timeout -> start <= since -> start <= now s ->
  start + timeout < now s + (Z.of_nat fuel - 1) * (100 * MS) -> (0 < fuel)%nat ->
  wait_outcome v desired (start + timeout) (wait_loop fuel v desired timeout start last since s).
Proof.
  intros Ht. revert last since s. induction fuel as [|fuel IH]; intros last since s Hs Hn Hf Hpos; [lia|].
  cbn [wait_loop].
  destruct (elapsed_now start s) as (t & s1 & E1 & Ht1 & _). erewrite eff_bind_step by exact E1. clear E1.
  case_match eqn:Hle; [|cbn; left; split; [done|]; lia].
  unfold eff_bind at 1. pose proof (service_query_now v s1) as Hq. pose proof (service_query_ok v s1) as Hok.
  pose proof (service_query_no_panic v s1) as Hp.
  destruct (service_query v s1) as [[st|e|p] s2] eqn:E2; cbn in Hq; [|right; eauto|by destruct (Hp p)].
  destruct (Hok st s2 eq_refl) as (w & n & raw & Eraw & ->). clear Hok Hp.
  case_decide as Hd; [by exists w, n, raw|].
  assert (exists since' s3, (if ss_checkpoint (from_status_process (sv_name v) None raw) =? last
    then eff_ret since else sc_get Instant_now) s2 = (Ok since', s3) /\ start <= since' /\ now s2 <= now s3)
    as (since' & s3 & E3 & Hs' & H3).
  { case_match; [by exists since, s2|]. destruct (sc_now s2) as (t3 & s3 & E3 & H3 & _). exists t3, s3. split; [done|lia]. }
  erewrite eff_bind_step by exact E3. clear E3.
  destruct (elapsed_now since' s3) as (t4 & s4 & E4 & H4 & _). erewrite eff_bind_step by exact E4. clear E4.
  case_match eqn:Hstale; [cbn; left; split; [done|]; lia|].
  unfold eff_bind, sc_get. cbn [pmach at_machine].
  pose proof (sleep_lasts (pmach s4) (poll_ms (ss_wait_hint_ms (from_status_process (sv_name v) None raw)))) as Hz.
  pose proof (poll_ms_range (ss_wait_hint_ms (from_status_process (sv_name v) None raw))) as Hr.
  fold (poll_ms (ss_wait_hint_ms (from_status_process (sv_name v) None raw))).
  unfold MS in *. apply IH; cbn [pmach at_machine]; [done|lia..].
Qed.

(** One query of a service that answers. *)
Lemma service_query_answers v desired T delay s :
  reaches_state (sv_handle v) desired T delay ->
  exists st s', service_query v s = (Ok st, s') /\ now s <= now s' <= now s + 2 * delay /\
    (T <= now s -> ss_state st = desired).
Proof.
  intros R. pose proof (needed_clock (pmach s) (sv_handle v)) as H1. pose proof (needed_delay _ _ _ _ R (pmach s)) as H2.
  unfold service_query, eff_bind, sc_get. destruct (QueryStatusNeeded (pmach s) (sv_handle v)) as [n w]. cbn in *.
  destruct (query_answers _ _ _ _ R w (Z.max n STATUS_PROCESS_SIZE)) as (raw & w' & E & Hst).
  pose proof (query_clock w (sv_handle v) (Z.max n STATUS_PROCESS_SIZE)) as H3.
  pose proof (query_delay _ _ _ _ R w (Z.max n STATUS_PROCESS_SIZE)) as H4. rewrite E in H3, H4 |- *. cbn in *.
  eexists _, _. split; [done|]. cbn. split; [lia|]. intros. apply Hst. lia.
Qed.

(** The longest a poll lasts: a second of sleep and six calls. *)
Definition poll_bound (delay : Z) : Z := 1000 * MS + 6 * delay.

Lemma wait_loop_live fuel v desired timeout start last since s T delay :
  reaches_state (sv_handle v) desired T delay -> 0 <= delay ->
  start <= since -> start <= now s ->
  now s <= T + poll_bound delay -> T + poll_bound delay + delay <= start + timeout ->
  T < now s + (Z.of_nat fuel - 1) * (100 * MS) -> (0 < fuel)%nat ->
  exists s', wait_loop fuel v desired timeout start last since s = (Ok tt, s').
Proof.
  intros R Hdelay. revert last since s. induction fuel as [|fuel IH]; intros last since s Hs Hn Hlate Hend Hf Hpos; [lia|].
  cbn [wait_loop]. unfold poll_bound in *.
  destruct (elapsed_now start s) as (t & s1 & E1 & Ht1 & Es1). erewrite eff_bind_step by exact E1. clear E1.
  pose proof (now_delay _ _ _ _ R (pmach s)) as D1. rewrite <- Es1 in D1.
  case_match eqn:Hle; [|lia].
  destruct (service_query_answers v desired T delay s1 R) as (st & s2 & E2 & H2 & Hst).
  erewrite eff_bind_step by exact E2. clear E2. case_decide as Hd; [by eexists|].
  assert (now s1 < T) by (destruct (decide (T <= now s1)); [naive_solver|lia]).
  assert (exists since' s3, (if ss_checkpoint st =? last then eff_ret since else sc_get Instant_now) s2 = (Ok since', s3)
    /\ start <= since' /\ now s2 <= now s3 <= now s2 + delay) as (since' & s3 & E3 & Hs' & H3).
  { case_match; [exists since, s2; split; [done|lia]|]. destruct (sc_now s2) as (t3 & s3 & E3 & H3 & Es3).
    pose proof (now_delay _ _ _ _ R (pmach s2)) as D3. rewrite <- Es3 in D3. exists t3, s3. split; [done|lia]. }
  erewrite eff_bind_step by exact E3. clear E3.
  destruct (elapsed_now since' s3) as (t4 & s4 & E4 & H4 & Es4). erewrite eff_bind_step by exact E4. clear E4.
  pose proof (now_delay _ _ _ _ R (pmach s3)) as D4. rewrite <- Es4 in D4. case_match eqn:Hstale; [unfold MS in *; lia|].
  unfold eff_bind, sc_get. fold (poll_ms (ss_wait_hint_ms st)).
  pose proof (sleep_lasts (pmach s4) (poll_ms (ss_wait_hint_ms st))) as Hz.
  pose proof (sleep_delay _ _ _ _ R (pmach s4) (poll_ms (ss_wait_hint_ms st))) as Hz'.
  pose proof (poll_ms_range (ss_wait_hint_ms st)) as Hr.
  unfold MS in *. apply IH; cbn [pmach at_machine]; [done|lia..].
Qed.

Lemma wait_for_state_starts fuel v desired timeout s :
  exists start since s1, wait_for_state fuel v desired timeout s = wait_loop fuel v desired timeout start 0 since s1 /\
    now s <= start /\ start <= since /\ since <= now s1 /\
    pmach s1 = (Instant_now (Instant_now (pmach s)).2).2 /\ start <= clock (Instant_now (pmach s)).2.
Proof.
  destruct (sc_now s) as (start & s0 & E & H & Es). destruct (sc_now s0) as (since & s1 & E' & H' & Es').
  exists start, since, s1. unfold wait_for_state. do 2 (erewrite eff_bind_step by eassumption).
  rewrite Es' , Es in *. repeat split; lia.
Qed.

(** [C21] [wait_for_state] always ends, after at most one poll for every 100
    milliseconds of the timeout: it succeeds only when the last call made, a
    query, answered with the desired state; it fails with the timed-out error
    only once more than the timeout has passed; and otherwise it returns the
    error of the query it made last. *)
Theorem wait_for_state_ends fuel v desired timeout s :
  0 <= timeout < (Z.of_nat fuel - 1) * (100 * MS) ->
  wait_outcome v desired (now s + timeout) (wait_for_state fuel v desired timeout s).
Proof.
  intros Ht. destruct (wait_for_state_starts fuel v desired timeout s) as (start & since & s1 & -> & H).
  assert (wait_outcome v desired (start + timeout) (wait_loop fuel v desired timeout start 0 since s1)) as Ho
    by (apply wait_loop_outcome; unfold MS in *; lia).
  destruct (wait_loop _ _ _ _ _ _ _ _) as [[a|e|p] s']; cbn in *; [done| |done].
  destruct Ho as [[-> ?]|?]; [left; split; [done|lia]|by right].
Qed.

(** [C20] [wait_for_state] does not miss a state that is reached in time: if
    the service answers, every call returns within [delay], and from [T] on
    the service is in the desired state, then a timeout that leaves one poll
    (a second and the calls of it) after [T] makes the wait succeed. *)
Theorem wait_for_state_live fuel v desired timeout s T delay :
  reaches_state (sv_handle v) desired T delay -> 0 <= delay ->
  Z.max T (now s) + poll_bound delay + delay <= now s + timeout -> timeout < (Z.of_nat fuel - 1) * (100 * MS) ->
  exists s', wait_for_state fuel v desired timeout s = (Ok tt, s').
Proof.
  intros R Hd He Hf. destruct (wait_for_state_starts fuel v desired timeout s) as (start & since & s1 & -> & H1 & H2 & H3 & E & H4).
  pose proof (now_delay _ _ _ _ R (pmach s)) as D1. pose proof (now_delay _ _ _ _ R (Instant_now (pmach s)).2) as D2.
  rewrite <- E in D2. unfold poll_bound, MS in *.
  assert (reaches_state (sv_handle v) desired (Z.max T (now s)) delay) as R'.
  { split; try apply R. intros w n. destruct (query_answers _ _ _ _ R w n) as (raw & w' & Eq & Hq).
    exists raw, w'. split; [done|]. intros. apply Hq. lia. }
  eapply wait_loop_live; [exact R'|..]; unfold poll_bound, MS; lia.
Qed.

(** ** Restarting *)

(** A counter of the starts, which only [StartServiceW] moves. *)
Record counts_starts (starts : W -> Z) : Prop := {
  control_starts : forall w h c, starts (ControlService w h c).2 = starts w;
  now_starts : forall w, starts (Instant_now w).2 = starts w;
  sleep_starts : forall w ms, starts (thread_sleep w ms) = starts w;
  needed_starts : forall w h, starts (QueryStatusNeeded w h).2 = starts w;
  query_starts : forall w h n, starts (QueryServiceStatusEx w h n).2 = starts w }.

Lemma service_query_starts starts v s : counts_starts starts -> starts (pmach (service_query v s).2) = starts (pmach s).
Proof.
  intros C. unfold service_query, eff_bind, sc_get. pose proof (needed_starts _ C (pmach s) (sv_handle v)) as H.
  destruct (QueryStatusNeeded _ _) as [n w]. cbn in *.
  pose proof (query_starts _ C w (sv_handle v) (Z.max n STATUS_PROCESS_SIZE)) as H'.
  destruct (QueryServiceStatusEx _ _ _) as [[e|raw] w']; cbn in *; congruence.
Qed.

Lemma elapsed_starts starts t s : counts_starts starts -> starts (pmach (elapsed t s).2) = starts (pmach s).
Proof.
  intros C. unfold elapsed, eff_bind, sc_get. pose proof (now_starts _ C (pmach s)) as H.
  by destruct (Instant_now (pmach s)).
Qed.

Lemma wait_loop_starts starts fuel v desired timeout start last since s :
  counts_starts starts -> starts (pmach (wait_loop fuel v desired timeout start last since s).2) = starts (pmach s).
Proof.
  intros C. pose (same := fun s1 s2 : proc_st W => starts (pmach s2) = starts (pmach s1)).
  enough (same s (wait_loop fuel v desired timeout start last since s).2) by done.
  assert (forall s1 s2 s3, same s1 s2 -> same s2 s3 -> same s1 s3) as Htr by (unfold same; congruence).
  assert (forall s1, same s1 (sc_get Instant_now s1).2) as Hnow.
  { intros s1. unfold same, sc_get. pose proof (now_starts _ C (pmach s1)) as H. by destruct (Instant_now _). }
  revert last since s. induction fuel as [|fuel IH]; intros last since s; cbn [wait_loop]; [done|].
  apply eff_bind_pres; [done|by apply elapsed_starts|]. intros e s1. case_match; [|done].
  apply eff_bind_pres; [done|by apply service_query_starts|]. intros st s2. case_decide; [done|].
  apply eff_bind_pres; [done|case_match; [done|apply Hnow]|]. intros since' s3.
  apply eff_bind_pres; [done|by apply elapsed_starts|]. intros stale s4. case_match; [done|].
  apply eff_bind_pres; [done|unfold same, sc_get; cbn; apply (sleep_starts _ C)|]. intros _ s5. apply IH.
Qed.

(** [restart] starts the service only when it has stopped: either it
    fails without a start, or the call before [StartServiceW] was a query of
    the service that answered [Stopped], and the result is that of the start. *)
Theorem restart_starts_stopped starts fuel v timeout s :
  counts_starts starts -> 0 <= timeout < (Z.of_nat fuel - 1) * (100 * MS) ->
  (exists e s', service_restart fuel v timeout s = (Err e, s') /\ starts (pmach s') = starts (pmach s)) \/
  (exists s1, answered (sv_handle v) (fun raw => state_from_windows (dwCurrentState raw) = Stopped) s1 /\
     starts (pmach s1) = starts (pmach s) /\ service_restart fuel v timeout s = service_start v s1).
Proof.
  intros C Ht. unfold service_restart, service_stop, send_control, sc_unit, eff_bind.
  pose proof (control_starts _ C (pmach s) (sv_handle v) (control_to_windows ControlStop)) as Hc.
  destruct (ControlService _ _ _) as [[e|] w]; cbn in Hc; [left; by eexists _, _|].
  set (s0 := at_machine w s). assert (starts (pmach s0) = starts (pmach s)) as H0 by done. clearbody s0.
  pose proof (wait_for_state_starts fuel v Stopped timeout s0) as (t & t' & s1 & E & H1 & H2 & H3 & Es & _).
  assert (starts (pmach s1) = starts (pmach s)) as Hs1 by (by rewrite Es, (now_starts _ C), (now_starts _ C), H0).
  assert (wait_outcome v Stopped (t + timeout) (wait_loop fuel v Stopped timeout t 0 t' s1)) as Ho
    by (apply wait_loop_outcome; unfold MS in *; lia).
  pose proof (wait_loop_starts starts fuel v Stopped timeout t 0 t' s1 C) as Hl.
  rewrite E. destruct (wait_loop _ _ _ _ _ _ _ _) as [[[]|e|p] s2]; cbn in Ho, Hl; [|left|done].
  - right. exists s2. split_and!; [done|congruence|done].
  - eexists _, _. split; [done|congruence].
Qed.
End Waiting.

(** ** A service that stops after two seconds

    The machine is the time and the number of starts; a call takes a
    microsecond. *)

Module Sample.
Definition tick (w : Z * Z) : Z * Z := (w.1 + 1000, w.2).
Definition status_at (w : Z * Z) : SERVICE_STATUS_PROCESS :=
  mkStatusProcess 16 (if 2000 * MS <=? w.1 then 1 else 3) 1 0 0 (w.1 / (500 * MS)) 3000 77 0.
#[export] Instance api : scm_api (Z * Z) := {
  OpenSCManagerW w a := (inr 1, tick w);
  OpenServiceW w h name a := (inr 2, tick w);
  EnumServicesNeeded w h := (0, tick w);
  EnumServicesStatusExW w h n := (inr [], tick w);
  QueryStatusNeeded w h := (STATUS_PROCESS_SIZE, tick w);
  QueryServiceStatusEx w h n := (inr (status_at w), tick w);
  StartServiceW w h := (None, (w.1 + 1000, w.2 + 1));
  ControlService w h c := (None, tick w);
  Instant_now w := (w.1, tick w);
  thread_sleep w ms := (w.1 + ms * MS, w.2) }.
#[export] Instance laws : clock_laws (Z * Z).
Proof. refine {| clock w := w.1 |}; intros; cbn; lia. Defined.

Definition service : Service := mkService 2 (lit "spooler").
Definition at_start : proc_st (Z * Z) := mkProcSt (0, 0) (fun _ => 0).

Lemma stops : reaches_state (sv_handle service) Stopped (2000 * MS) 1000.
Proof.
  split; intros; cbn; [lia..|]. eexists _, _. split; [done|]. cbn. intros H.
  destruct (Z.leb_spec (2000 * MS) w.1); [done|lia].
Qed.

Lemma only_starts_count : counts_starts snd.
Proof. split; done. Qed.

Lemma wait_for_state_ends_witness :
  wait_outcome service Stopped (clock (pmach at_start) + 5000 * MS) (wait_for_state 60 service Stopped (5000 * MS) at_start).
Proof. apply (wait_for_state_ends 60 service Stopped (5000 * MS) at_start). unfold MS. lia. Defined.

Lemma wait_for_state_live_witness :
  exists s', wait_for_state 60 service Stopped (5000 * MS) at_start = (Ok tt, s').
Proof.
  apply (wait_for_state_live 60 service Stopped (5000 * MS) at_start (2000 * MS) 1000); [apply stops|done|..]; cbn;
    unfold poll_bound, MS; lia.
Defined.

(** The wait gives up when the service needs longer than the timeout. *)
Example waits_in_vain :
  (wait_for_state 60 service Stopped (1000 * MS) at_start).1 = Err (timed_out service Stopped).
Proof. vm_compute. reflexivity. Qed.

Lemma restart_starts_stopped_witness :
  (exists e s', service_restart 60 service (5000 * MS) at_start = (Err e, s') /\ (pmach s').2 = (pmach at_start).2) \/
  (exists s1, answered (sv_handle service) (fun raw => state_from_windows (dwCurrentState raw) = Stopped) s1 /\
     (pmach s1).2 = (pmach at_start).2 /\ service_restart 60 service (5000 * MS) at_start = service_start service s1).
Proof.
  apply (restart_starts_stopped snd 60 service (5000 * MS) at_start only_starts_count). unfold MS. lia.
Defined.

Example restarted : (let '(r, s) := service_restart 60 service (5000 * MS) at_start in (r, (pmach s).2)) = (Ok tt, 1).
Proof. vm_compute. reflexivity. Qed.
End Sample.
