(* ===== verification/Mitigation.v ===== *)
(** * Mitigation: mitigation policies of a process

    src/mitigation/mod.rs.  A policy structure of Windows is the word of its
    bit field; the calls are the class [mitigation_api], and the text of a
    [windows::core::Error] is one of its fields. *)

From Stdlib Require Import ZArith Lia String Ascii.
From stdpp Require Import base list strings gmap numbers sorting.
From S2P Require Import Prelude Text Errors Effects Resources IoError.

Open Scope Z_scope.

Definition BINARY_SIGNED_MICROSOFT_SIGNED_ONLY : Z := 0x1.
Definition DYNAMIC_CODE_PROHIBIT : Z := 0x1.
Definition IMAGE_LOAD_NO_REMOTE : Z := 0x1.
Definition IMAGE_LOAD_PREFER_SYSTEM32_IMAGES : Z := 0x4.
Definition PAYLOAD_RESTRICTION_ENABLE_EXPORT_ADDRESS_FILTER : Z := 0x1.
Definition PAYLOAD_RESTRICTION_ENABLE_EXPORT_ADDRESS_FILTER_PLUS : Z := 0x4.
Definition PAYLOAD_RESTRICTION_ENABLE_IMPORT_ADDRESS_FILTER : Z := 0x10.
Definition PAYLOAD_RESTRICTION_ENABLE_ROP_STACK_PIVOT : Z := 0x40.
Definition PAYLOAD_RESTRICTION_ENABLE_ROP_CALLER_CHECK : Z := 0x100.
Definition PAYLOAD_RESTRICTION_ENABLE_ROP_SIM_EXEC : Z := 0x400.
Definition CHILD_RESTRICTION_NO_PROCESS_CREATION : Z := 0x1.
Definition ERROR_INVALID_PARAMETER_HRESULT : Z := -2147024809.

Definition bits_of (flags : list Z) : Z := foldr Z.lor 0 flags.
Definition PAYLOAD_RESTRICTION_MASK : Z :=
  bits_of [PAYLOAD_RESTRICTION_ENABLE_EXPORT_ADDRESS_FILTER; PAYLOAD_RESTRICTION_ENABLE_EXPORT_ADDRESS_FILTER_PLUS; PAYLOAD_RESTRICTION_ENABLE_IMPORT_ADDRESS_FILTER;
    PAYLOAD_RESTRICTION_ENABLE_ROP_STACK_PIVOT; PAYLOAD_RESTRICTION_ENABLE_ROP_CALLER_CHECK; PAYLOAD_RESTRICTION_ENABLE_ROP_SIM_EXEC].
Definition candidate_masks : list Z :=
  [PAYLOAD_RESTRICTION_MASK;
   Z.land PAYLOAD_RESTRICTION_MASK (Z.lxor PAYLOAD_RESTRICTION_ENABLE_ROP_SIM_EXEC u32_max);
   bits_of [PAYLOAD_RESTRICTION_ENABLE_EXPORT_ADDRESS_FILTER; PAYLOAD_RESTRICTION_ENABLE_EXPORT_ADDRESS_FILTER_PLUS; PAYLOAD_RESTRICTION_ENABLE_IMPORT_ADDRESS_FILTER;
     PAYLOAD_RESTRICTION_ENABLE_ROP_STACK_PIVOT; PAYLOAD_RESTRICTION_ENABLE_ROP_CALLER_CHECK];
   bits_of [PAYLOAD_RESTRICTION_ENABLE_EXPORT_ADDRESS_FILTER; PAYLOAD_RESTRICTION_ENABLE_IMPORT_ADDRESS_FILTER; PAYLOAD_RESTRICTION_ENABLE_ROP_STACK_PIVOT];
   PAYLOAD_RESTRICTION_ENABLE_EXPORT_ADDRESS_FILTER].

Inductive ProcessMitigation :=
  | MicrosoftSignedOnly | BlockRemoteImages | PreferSystem32Images | DisableDynamicCode | RestrictPayload
  | BlockChildProcessCreation.
#[export] Instance ProcessMitigation_eq_dec : EqDecision ProcessMitigation.
Proof. solve_decision. Defined.

Definition policy_name (m : ProcessMitigation) : string :=
  match m with
  | MicrosoftSignedOnly => "signature"
  | BlockRemoteImages => "image_load_no_remote"
  | PreferSystem32Images => "image_load_prefer_system32"
  | DisableDynamicCode => "dynamic_code"
  | RestrictPayload => "payload_restriction"
  | BlockChildProcessCreation => "child_process"
  end.

Record ProcessMitigationStatus := mkMitigationStatus {
  ms_process_id : Z; microsoft_signed_only : bool; block_remote_images : bool; prefer_system32_images : bool;
  disable_dynamic_code : bool; restrict_payload : bool; block_child_process_creation : bool }.

(** The values of [PROCESS_MITIGATION_POLICY] the module uses. *)
Inductive policy := SignaturePolicy | ImageLoadPolicy | DynamicCodePolicy | PayloadRestrictionPolicy | ChildProcessPolicy.
#[export] Instance policy_eq_dec : EqDecision policy.
Proof. solve_decision. Defined.

Class mitigation_api (W : Type) := {
  SetProcessMitigationPolicy : W -> policy -> Z -> option win_error * W;
  GetProcessMitigationPolicy : W -> Z -> policy -> win_error + Z;
  OpenProcess : W -> Z -> (win_error + Z) * W;
  GetCurrentProcessId : Z;
  GetCurrentProcess : Z;
  from_win32 : W -> win_error;
  error_text : win_error -> str }.

(** ** The plan *)

Record MitigationPlan := mkMitigationPlan { mitigations : list ProcessMitigation }.
Definition plan_new : MitigationPlan := mkMitigationPlan [].
Definition enable (self : MitigationPlan) (m : ProcessMitigation) : MitigationPlan :=
  if decide (m ∈ mitigations self) then self else mkMitigationPlan (mitigations self ++ [m]).
Definition has (self : MitigationPlan) (m : ProcessMitigation) : bool := bool_decide (m ∈ mitigations self).

(** The lines [emit_compile_time_with_compat] prints. *)
Definition link_args (m : ProcessMitigation) : list str :=
  match m with
  | MicrosoftSignedOnly =>
      [lit "cargo:rustc-link-arg=/DEPENDENTLOADFLAG:0x800"; lit "cargo:rustc-link-arg=/INTEGRITYCHECK"]
  | DisableDynamicCode => [lit "cargo:rustc-link-arg=/guard:cf"]
  | RestrictPayload => [lit "cargo:rustc-link-arg=/HIGHENTROPYVA"]
  | BlockRemoteImages | PreferSystem32Images | BlockChildProcessCreation => []
  end.
Definition emit_compile_time_with_compat (self : MitigationPlan) (enable_compat : bool) : list str :=
  mjoin (link_args <$> mitigations self) ++ (if enable_compat then [lit "cargo:rustc-link-arg=/CETCOMPAT"] else []).
Definition emit_compile_time (self : MitigationPlan) : list str := emit_compile_time_with_compat self false.

Section Calls.
Context {W : Type} `{ho : !handle_api} `{api : !mitigation_api W}.

Abbreviation P := (eff (proc_st W) Error).

(** ** Errors *)

Definition map_windows_apply_error (err : win_error) (policy_name : string) : Error :=
  if win_error_code err =? 5
  then Error_AccessDenied (mkAccessDeniedError (lit "current process") (lit "set mitigation policy")
         (Some (lit policy_name ++ lit ": access denied")))
  else Error_Mitigation (MitigationError_ApplyFailed (mkMitigationOperationError (lit "apply") (lit policy_name) None
         (Some (error_text err)) (Some (win_error_code err)))).
Definition map_windows_query_error (err : win_error) (policy_name : string) (process_id : Z) : Error :=
  if win_error_code err =? 5
  then Error_AccessDenied (mkAccessDeniedError (lit "process " ++ fmt_dec process_id) (lit "query mitigation policy")
         (Some (lit policy_name ++ lit ": access denied")))
  else Error_Mitigation (MitigationError_QueryFailed (mkMitigationOperationError (lit "query") (lit policy_name)
         (Some process_id) (Some (error_text err)) (Some (win_error_code err)))).

(** ** Applying *)

Definition set_policy_raw (p : policy) (value : Z) : eff (proc_st W) win_error unit := fun s =>
  match SetProcessMitigationPolicy (pmach s) p value with
  | (None, w) => (Ok tt, at_machine w s)
  | (Some e, w) => (Err e, at_machine w s)
  end.
Definition set_policy (p : policy) (value : Z) (policy_name : string) : P unit :=
  eff_map_err (fun e => map_windows_apply_error e policy_name) (set_policy_raw p value).

Definition apply_image_load_mitigation (block_remote_images prefer_system32_images : bool) : P unit :=
  let flags := if block_remote_images then IMAGE_LOAD_NO_REMOTE else 0 in
  let flags := if prefer_system32_images then Z.lor flags IMAGE_LOAD_PREFER_SYSTEM32_IMAGES else flags in
  set_policy ImageLoadPolicy flags "image_load".

(** The loop over the candidate masks. *)
Fixpoint payload_loop (masks : list Z) (last_error : option win_error) : P unit :=
  match masks with
  | [] => fun s =>
      (Err (map_windows_apply_error (default (from_win32 (pmach s)) last_error) "payload_restriction"), s)
  | mask :: masks =>
      let* r := eff_try (set_policy_raw PayloadRestrictionPolicy mask) in
      match r with
      | inr _ => eff_ret tt
      | inl err =>
          if win_error_code err =? ERROR_INVALID_PARAMETER_HRESULT then payload_loop masks (Some err)
          else eff_fail (map_windows_apply_error err "payload_restriction")
      end
  end.
Definition apply_payload_mitigation : P unit := payload_loop candidate_masks None.

Definition apply_single_mitigation (m : ProcessMitigation) : P unit :=
  match m with
  | MicrosoftSignedOnly => set_policy SignaturePolicy BINARY_SIGNED_MICROSOFT_SIGNED_ONLY (policy_name m)
  | BlockRemoteImages => apply_image_load_mitigation true false
  | PreferSystem32Images => apply_image_load_mitigation false true
  | DisableDynamicCode => set_policy DynamicCodePolicy DYNAMIC_CODE_PROHIBIT (policy_name m)
  | RestrictPayload => apply_payload_mitigation
  | BlockChildProcessCreation => set_policy ChildProcessPolicy CHILD_RESTRICTION_NO_PROCESS_CREATION (policy_name m)
  end.

Definition when (b : bool) (m : P unit) : P unit := if b then m else eff_ret tt.

Definition apply_to_current (self : MitigationPlan) : P unit :=
  let* _ := when (has self MicrosoftSignedOnly) (apply_single_mitigation MicrosoftSignedOnly) in
  let* _ := when (has self BlockRemoteImages || has self PreferSystem32Images)
              (apply_image_load_mitigation (has self BlockRemoteImages) (has self PreferSystem32Images)) in
  let* _ := when (has self DisableDynamicCode) (apply_single_mitigation DisableDynamicCode) in
  let* _ := when (has self RestrictPayload) (apply_single_mitigation RestrictPayload) in
  when (has self BlockChildProcessCreation) (apply_single_mitigation BlockChildProcessCreation).

(** ** Querying *)

Definition get_policy (handle : Z) (p : policy) (policy_name : string) (process_id : Z) : P Z := fun s =>
  match GetProcessMitigationPolicy (pmach s) handle p with
  | inr v => (Ok v, s)
  | inl e => (Err (map_windows_query_error e policy_name process_id), s)
  end.

Definition query_from_handle (process_id handle : Z) : P ProcessMitigationStatus :=
  let* signature := get_policy handle SignaturePolicy "signature" process_id in
  let* image_load := get_policy handle ImageLoadPolicy "image_load" process_id in
  let* dynamic_code := get_policy handle DynamicCodePolicy "dynamic_code" process_id in
  let* payload := get_policy handle PayloadRestrictionPolicy "payload_restriction" process_id in
  let* child := get_policy handle ChildProcessPolicy "child_process" process_id in
  eff_ret (mkMitigationStatus process_id
    (negb (Z.land signature BINARY_SIGNED_MICROSOFT_SIGNED_ONLY =? 0))
    (negb (Z.land image_load IMAGE_LOAD_NO_REMOTE =? 0))
    (negb (Z.land image_load IMAGE_LOAD_PREFER_SYSTEM32_IMAGES =? 0))
    (negb (Z.land dynamic_code DYNAMIC_CODE_PROHIBIT =? 0))
    (negb (Z.land payload PAYLOAD_RESTRICTION_MASK =? 0))
    (negb (Z.land child CHILD_RESTRICTION_NO_PROCESS_CREATION =? 0))).

Definition open_query_process_handle (process_id : Z) : P OwnedHandle :=
  if process_id =? GetCurrentProcessId then eff_ret (owned_borrowed GetCurrentProcess)
  else
    let* h := open_handle (fun w => OpenProcess w process_id)
                (fun e => map_windows_query_error e "open_process" process_id) in
    eff_ret (owned_new h).

Definition query_process (process_id : Z) : P ProcessMitigationStatus :=
  let* process := open_query_process_handle process_id in
  eff_scoped (drop_owned process) (query_from_handle process_id (oh_handle process)).
Definition query_current : P ProcessMitigationStatus := query_process GetCurrentProcessId.
End Calls.

(** ** What the operating system does with a policy

    A policy that was set keeps the bits that were set and leaves the other
    policies alone; a refused call changes nothing; the policies of the
    current process can be read through its pseudo-handle. *)
Class mitigation_laws (W : Type) `{!mitigation_api W} := {
  policy_bits : W -> policy -> Z;
  set_keeps : forall w p v w', SetProcessMitigationPolicy w p v = (None, w') ->
    Z.land (policy_bits w' p) v = v /\ forall q, q <> p -> policy_bits w' q = policy_bits w q;
  set_refused : forall w p v e w', SetProcessMitigationPolicy w p v = (Some e, w') ->
    policy_bits w' = policy_bits w;
  get_current : forall w p, GetProcessMitigationPolicy w GetCurrentProcess p = inr (policy_bits w p) }.

(** The policy a mitigation belongs to, its flag in a status, and the bits
    that make the flag true. *)
Definition policy_of (m : ProcessMitigation) : policy :=
  match m with
  | MicrosoftSignedOnly => SignaturePolicy
  | BlockRemoteImages | PreferSystem32Images => ImageLoadPolicy
  | DisableDynamicCode => DynamicCodePolicy
  | RestrictPayload => PayloadRestrictionPolicy
  | BlockChildProcessCreation => ChildProcessPolicy
  end.
Definition mask_of (m : ProcessMitigation) : Z :=
  match m with
  | MicrosoftSignedOnly => BINARY_SIGNED_MICROSOFT_SIGNED_ONLY
  | BlockRemoteImages => IMAGE_LOAD_NO_REMOTE
  | PreferSystem32Images => IMAGE_LOAD_PREFER_SYSTEM32_IMAGES
  | DisableDynamicCode => DYNAMIC_CODE_PROHIBIT
  | RestrictPayload => PAYLOAD_RESTRICTION_MASK
  | BlockChildProcessCreation => CHILD_RESTRICTION_NO_PROCESS_CREATION
  end.
Definition reports (st : ProcessMitigationStatus) (m : ProcessMitigation) : bool :=
  match m with
  | MicrosoftSignedOnly => microsoft_signed_only st
  | BlockRemoteImages => block_remote_images st
  | PreferSystem32Images => prefer_system32_images st
  | DisableDynamicCode => disable_dynamic_code st
  | RestrictPayload => restrict_payload st
  | BlockChildProcessCreation => block_child_process_creation st
  end.

Section Applied.
Context {W : Type} `{ho : !handle_api} `{api : !mitigation_api W} `{laws : !mitigation_laws W}.

Abbreviation bits s := (policy_bits (pmach (W:=W) s)).

(** [m] is reported of the policies [b]: some bit of its mask is set.  Of the
    payload restrictions one filter is enough. *)
Definition in_force (b : policy -> Z) (m : ProcessMitigation) : bool := negb (Z.land (b (policy_of m)) (mask_of m) =? 0).

(** A step that succeeds brings the mitigations of [ms] in force, and no step
    touches a policy that [ms] does not use. *)
Definition brings (ms : list ProcessMitigation) (run : eff (proc_st W) Error unit) : Prop := forall s,
  (forall q, (forall m, m ∈ ms -> policy_of m <> q) -> bits (run s).2 q = bits s q) /\
  ((run s).1 = Ok tt -> forall m, m ∈ ms -> in_force (bits (run s).2) m = true).

Lemma brings_nil : brings [] (eff_ret tt).
Proof. intros s. split; [done|]. intros _ m Hm. by apply not_elem_of_nil in Hm. Qed.

(** Steps that use different policies compose. *)
Lemma brings_seq ms1 ms2 run1 run2 :
  brings ms1 run1 -> brings ms2 run2 -> (forall m1 m2, m1 ∈ ms1 -> m2 ∈ ms2 -> policy_of m1 <> policy_of m2) ->
  brings (ms1 ++ ms2) (let* _ := run1 in run2).
Proof.
  intros H1 H2 Hd s. unfold eff_bind. destruct (H1 s) as [F1 O1].
  destruct (run1 s) as [[[]|e|p] s1]; cbn [fst snd] in *.
  - destruct (H2 s1) as [F2 O2]. split.
    + intros q Hq. rewrite F2, F1; [done|set_solver..].
    + intros E m [Hm|Hm]%elem_of_app; [|by apply O2].
      unfold in_force. rewrite (F2 (policy_of m)) by (intros m' Hm'; by apply not_eq_sym, Hd). by apply O1.
  - split; [|done]. intros q Hq. apply F1. set_solver.
  - split; [|done]. intros q Hq. apply F1. set_solver.
Qed.

Lemma land_part v mask x : Z.land x v = v -> Z.land v mask <> 0 -> Z.land x mask <> 0.
Proof.
  intros Hv Hm E. apply Hm. rewrite <- Hv, <- Z.land_assoc, (Z.land_comm v), Z.land_assoc, E. apply Z.land_0_l.
Qed.

Lemma set_policy_brings ms p v name :
  (forall m, m ∈ ms -> policy_of m = p /\ Z.land v (mask_of m) <> 0) -> ms <> [] -> brings ms (set_policy p v name).
Proof.
  intros Hms Hne s. unfold set_policy, set_policy_raw, eff_map_err.
  assert (forall q, (forall m, m ∈ ms -> policy_of m <> q) -> q <> p) as Hq.
  { intros q H ->. destruct ms as [|m ms]; [done|]. apply (H m); [set_solver|]. apply Hms. set_solver. }
  destruct (SetProcessMitigationPolicy (pmach s) p v) as [[e|] w] eqn:E; cbn [fst snd pmach at_machine map_err].
  - split; [|done]. intros q _. by rewrite (set_refused _ _ _ _ _ E).
  - destruct (set_keeps _ _ _ _ E) as [Hk Ho]. split; [intros q H; apply Ho; eauto|].
    intros _ m Hm. destruct (Hms m Hm) as [<- Hv]. unfold in_force. apply negb_true_iff, Z.eqb_neq. by eapply land_part.
Qed.

(** Every candidate mask has a bit of the full mask. *)
Lemma payload_loop_brings masks last :
  Forall (fun v => Z.land v PAYLOAD_RESTRICTION_MASK <> 0) masks -> brings [RestrictPayload] (payload_loop masks last).
Proof.
  intros Hm. revert last. induction Hm as [|v masks Hv _ IH]; intros last s; cbn [payload_loop]; [done|].
  unfold eff_bind, eff_try, set_policy_raw.
  destruct (SetProcessMitigationPolicy (pmach s) PayloadRestrictionPolicy v) as [[e|] w] eqn:E.
  - pose proof (set_refused _ _ _ _ _ E) as Hw. case_match.
    + destruct (IH (Some e) (at_machine w s)) as [F O]. split; [|exact O].
      intros q Hq. rewrite F by done. cbn. by rewrite Hw.
    + split; [|done]. intros q _. cbn. by rewrite Hw.
  - destruct (set_keeps _ _ _ _ E) as [Hk Ho]. cbn. split.
    + intros q Hq. apply Ho. intros ->. by apply (Hq RestrictPayload); [set_solver|].
    + intros _ m ->%list_elem_of_singleton. unfold in_force. apply negb_true_iff, Z.eqb_neq. by eapply land_part.
Qed.

(** The mitigations of [ms] that the plan has. *)
Definition planned (plan : MitigationPlan) (ms : list ProcessMitigation) : list ProcessMitigation :=
  base.filter (fun m => m ∈ mitigations plan) ms.

Lemma when_brings plan m run :
  brings [m] run -> brings (planned plan [m]) (when (has plan m) run).
Proof.
  intros H. unfold planned, when, has. rewrite filter_cons, filter_nil. case_decide as E.
  - by rewrite bool_decide_true.
  - rewrite bool_decide_false by done. apply brings_nil.
Qed.

Lemma image_load_brings plan :
  brings (planned plan [BlockRemoteImages; PreferSystem32Images])
    (when (has plan BlockRemoteImages || has plan PreferSystem32Images)
       (apply_image_load_mitigation (has plan BlockRemoteImages) (has plan PreferSystem32Images))).
Proof.
  unfold planned, when, has. rewrite !filter_cons, filter_nil.
  destruct (decide (BlockRemoteImages ∈ mitigations plan)), (decide (PreferSystem32Images ∈ mitigations plan));
    repeat first [rewrite bool_decide_true by done | rewrite bool_decide_false by done]; cbn [orb]; try apply brings_nil;
    apply set_policy_brings; try done; intros m Hm; set_unfold in Hm; naive_solver.
Qed.

Lemma single_brings m :
  m <> BlockRemoteImages -> m <> PreferSystem32Images -> brings [m] (apply_single_mitigation m).
Proof.
  intros. destruct m; try done; cbn [apply_single_mitigation];
    try (apply set_policy_brings; [intros m ->%list_elem_of_singleton|]; done).
  apply payload_loop_brings. by repeat constructor.
Qed.

Lemma apply_to_current_brings plan : brings (planned plan
  ([MicrosoftSignedOnly] ++ [BlockRemoteImages; PreferSystem32Images] ++ [DisableDynamicCode] ++ [RestrictPayload] ++
   [BlockChildProcessCreation])) (apply_to_current plan).
Proof.
  unfold planned. rewrite !filter_app. unfold apply_to_current.
  repeat (apply brings_seq); try (apply when_brings, single_brings; done); try apply image_load_brings;
    intros m1 m2; rewrite ?elem_of_app, !list_elem_of_filter, ?elem_of_cons, ?elem_of_nil; naive_solver.
Qed.

Lemma query_current_reports s :
  exists st, query_current s = (Ok st, s) /\ ms_process_id st = GetCurrentProcessId /\
    forall m, reports st m = in_force (bits s) m.
Proof.
  unfold query_current, query_process, open_query_process_handle. rewrite Z.eqb_refl.
  unfold query_from_handle, get_policy, eff_scoped, eff_bind. cbn [eff_ret eff_lift owned_borrowed oh_handle].
  rewrite !get_current. eexists. split; [done|]. split; [done|]. by intros [].
Qed.

(** *** Which payload restrictions are applied *)

(** The machine [w] was asked for the masks in turn, refused each of them with
    ERROR_INVALID_PARAMETER, and ended as [w']. *)
Inductive refused_in_turn : W -> list Z -> W -> Prop :=
  | refused_none w : refused_in_turn w [] w
  | refused_mask w v e w1 vs w' :
      SetProcessMitigationPolicy w PayloadRestrictionPolicy v = (Some e, w1) ->
      win_error_code e = ERROR_INVALID_PARAMETER_HRESULT ->
      refused_in_turn w1 vs w' -> refused_in_turn w (v :: vs) w'.

Lemma payload_loop_accepted masks last s s' : payload_loop masks last s = (Ok tt, s') ->
  exists us v rest w, masks = us ++ v :: rest /\ refused_in_turn (pmach s) us w /\
    SetProcessMitigationPolicy w PayloadRestrictionPolicy v = (None, pmach s').
Proof.
  revert last s. induction masks as [|v masks IH]; intros last s; cbn [payload_loop]; [done|].
  unfold eff_bind, eff_try, set_policy_raw.
  destruct (SetProcessMitigationPolicy (pmach s) PayloadRestrictionPolicy v) as [[e|] w] eqn:E.
  - destruct (Z.eqb_spec (win_error_code e) ERROR_INVALID_PARAMETER_HRESULT) as [He|]; [|done].
    intros (us & v' & rest & w1 & -> & Hr & Hs)%IH. exists (v :: us), v', rest, w1.
    split_and!; [done| |done]. by eapply refused_mask.
  - intros [= <-]. exists [], v, masks, (pmach s). split_and!; [done|constructor|done].
Qed.

(** The steps of [apply_to_current] before the payload restrictions. *)
Definition before_payload (self : MitigationPlan) : eff (proc_st W) Error unit :=
  let* _ := when (has self MicrosoftSignedOnly) (apply_single_mitigation MicrosoftSignedOnly) in
  let* _ := when (has self BlockRemoteImages || has self PreferSystem32Images)
              (apply_image_load_mitigation (has self BlockRemoteImages) (has self PreferSystem32Images)) in
  when (has self DisableDynamicCode) (apply_single_mitigation DisableDynamicCode).

Lemma apply_to_current_split plan s : apply_to_current plan s =
  (let* _ := before_payload plan in
   let* _ := when (has plan RestrictPayload) apply_payload_mitigation in
   when (has plan BlockChildProcessCreation) (apply_single_mitigation BlockChildProcessCreation)) s.
Proof.
  unfold apply_to_current, before_payload, eff_bind. cbn [apply_single_mitigation].
  destruct (when (has plan MicrosoftSignedOnly) _ s) as [[u1|e|x] s1]; [|done..].
  destruct (when (_ || _) _ s1) as [[u2|e|x] s2]; [|done..].
  by destruct (when (has plan DisableDynamicCode) _ s2) as [[u3|e|x] s3].
Qed.

Lemma payload_applied plan s s' :
  apply_to_current plan s = (Ok tt, s') -> RestrictPayload ∈ mitigations plan ->
  exists us v rest w1 w2, candidate_masks = us ++ v :: rest /\
    refused_in_turn (pmach (before_payload plan s).2) us w1 /\
    SetProcessMitigationPolicy w1 PayloadRestrictionPolicy v = (None, w2) /\
    bits s' PayloadRestrictionPolicy = policy_bits w2 PayloadRestrictionPolicy.
Proof.
  rewrite apply_to_current_split. intros H Hm.
  apply eff_bind_ok in H as ([] & s1 & H1 & H). apply eff_bind_ok in H as ([] & s2 & H2 & H).
  unfold when in H2. unfold has in H2. rewrite bool_decide_true in H2 by done.
  destruct (payload_loop_accepted _ _ _ _ H2) as (us & v & rest & w1 & E & Hr & Hs).
  exists us, v, rest, w1, (pmach s2). rewrite H1. split_and!; [done..|].
  destruct (when_brings plan BlockChildProcessCreation _ (single_brings BlockChildProcessCreation ltac:(done) ltac:(done)) s2) as [F _].
  rewrite H in F. apply F. intros m Hin. apply list_elem_of_filter in Hin as [_ ->%list_elem_of_singleton]. done.
Qed.

(** The candidates are tried from the strongest to the weakest. *)
Lemma candidates_decreasing us v rest u : candidate_masks = us ++ v :: rest ->
  u ∈ candidate_masks -> Z.land u v = v -> u <> v -> u ∈ us.
Proof.
  intros E Hu Hl Hn. rewrite E in Hu. apply elem_of_app in Hu as [Hu|Hu]; [done|].
  apply elem_of_cons in Hu as [->|Hu]; [done|]. exfalso. rewrite list_elem_of_In in Hu.
  do 5 (destruct us as [|? us];
    [injection E as <- <-; cbn [In] in Hu; repeat destruct Hu as [<-|Hu]; done|injection E as _ E]).
  by destruct us.
Qed.

(** [C32] A plan that was applied is in force: when [apply_to_current]
    succeeds, [query_current] reports every mitigation of the plan as
    enabled; and whether it succeeds or not, a policy that no mitigation of
    the plan belongs to is as it was, so that the mitigations that only it
    decides are reported as they were before.  The status flag of the payload
    restrictions says only that some filter is on.  Which filters are on is
    decided by the fallback: the candidate masks are asked for one after the
    other in the machine the earlier steps left, each but the last was
    refused with ERROR_INVALID_PARAMETER, the last was accepted and its bits
    are set, and every stronger candidate is among the refused ones.  So EAF
    alone (without IAF and the ROP checks the documentation of the mitigation
    names) may be what is reported as the restriction. *)
Theorem applied_plan_is_reported plan s r s' :
  apply_to_current plan s = (r, s') ->
  (exists before after, query_current s = (Ok before, s) /\ query_current s' = (Ok after, s') /\
    (r = Ok tt -> forall m, m ∈ mitigations plan -> reports after m = true) /\
    (forall m, (forall m', m' ∈ mitigations plan -> policy_of m' <> policy_of m) -> reports after m = reports before m)) /\
  (r = Ok tt -> RestrictPayload ∈ mitigations plan ->
    exists refused v w1 w2, refused_in_turn (pmach (before_payload plan s).2) refused w1 /\ v ∈ candidate_masks /\
      SetProcessMitigationPolicy w1 PayloadRestrictionPolicy v = (None, w2) /\
      Z.land (bits s' PayloadRestrictionPolicy) v = v /\
      bits s' PayloadRestrictionPolicy = policy_bits w2 PayloadRestrictionPolicy /\
      forall u, u ∈ candidate_masks -> Z.land u v = v -> u <> v -> u ∈ refused).
Proof.
  intros E. split.
  - destruct (query_current_reports s) as (before & E1 & _ & H1).
    destruct (query_current_reports s') as (after & E2 & _ & H2).
    destruct (apply_to_current_brings plan s) as [F O]. rewrite E in F, O. cbn [fst snd] in F, O.
    exists before, after. split_and!; [done..| |].
    + intros Hr m Hm. rewrite H2. apply O; [done|]. unfold planned. apply list_elem_of_filter. split; [done|].
      destruct m; set_solver.
    + intros m Hm. rewrite H2, H1. unfold in_force. rewrite F; [done|].
      intros m' Hm'. apply Hm. by apply list_elem_of_filter in Hm' as [??].
  - intros -> Hm. destruct (payload_applied plan s s' E Hm) as (us & v & rest & w1 & w2 & Hc & Hr & Hs & Hb).
    exists us, v, w1, w2. split_and!; [done| |done| |done|].
    + rewrite Hc. apply elem_of_app. right. by left.
    + rewrite Hb. by apply (set_keeps _ _ _ _ Hs).
    + intros u. by apply (candidates_decreasing us v rest).
Qed.
End Applied.

(** ** Errors

    The calls fail with the [HRESULT] of a Win32 error, never with the bare
    error code the two mappings compare with. *)
Section ErrorsSeen.
Context {W : Type} `{api : !mitigation_api W}.

(** No failed call is reported as access denied: the code of a Windows
    error of the [windows] crate is an [HRESULT], so the comparison with 5
    (ERROR_ACCESS_DENIED) is false for each Win32 error, and both mappings
    return the mitigation error that carries the [HRESULT]. *)
Theorem mitigation_access_denied_unreachable code name pid :
  0 < code < 65536 ->
  map_windows_apply_error (mk_win_error (hresult_from_win32 code)) name =
    Error_Mitigation (MitigationError_ApplyFailed (mkMitigationOperationError (lit "apply") (lit name) None
      (Some (error_text (mk_win_error (hresult_from_win32 code)))) (Some (hresult_from_win32 code)))) /\
  map_windows_query_error (mk_win_error (hresult_from_win32 code)) name pid =
    Error_Mitigation (MitigationError_QueryFailed (mkMitigationOperationError (lit "query") (lit name) (Some pid)
      (Some (error_text (mk_win_error (hresult_from_win32 code)))) (Some (hresult_from_win32 code)))).
Proof.
  intros Hc. assert ((hresult_from_win32 code =? 5) = false) as E.
  { unfold hresult_from_win32, as_i32, WIN32_HRESULT_PREFIX. case_match; lia. }
  unfold map_windows_apply_error, map_windows_query_error. cbn [win_error_code]. by rewrite E.
Qed.
End ErrorsSeen.

(** ** A process

    The machine is the word of each policy; the kernel knows no simulated
    execution check. *)
Module Sample.
Definition machine : Type := policy -> Z.
#[export] Instance api : mitigation_api machine := {
  SetProcessMitigationPolicy w p v :=
    if decide (p = PayloadRestrictionPolicy) then
      if Z.land v PAYLOAD_RESTRICTION_ENABLE_ROP_SIM_EXEC =? 0 then (None, fun q => if decide (q = p) then Z.lor (w q) v else w q)
      else (Some (mk_win_error ERROR_INVALID_PARAMETER_HRESULT), w)
    else (None, fun q => if decide (q = p) then Z.lor (w q) v else w q);
  GetProcessMitigationPolicy w h p := inr (w p);
  OpenProcess w pid := (inr 7, w);
  GetCurrentProcessId := 42;
  GetCurrentProcess := -1;
  from_win32 w := mk_win_error 0;
  error_text e := [] }.
#[export] Instance laws : mitigation_laws machine.
Proof.
  refine {| policy_bits w := w |}; cbn.
  - intros w p v w' H. assert (w' = fun q => if decide (q = p) then Z.lor (w q) v else w q) as ->.
    { repeat case_decide; repeat case_match; naive_solver. }
    cbn. rewrite decide_True by done. split; [apply Z.bits_inj; intros n; rewrite Z.land_spec, Z.lor_spec; by destruct (Z.testbit v n), (Z.testbit (w p) n)|].
    intros q Hq. by rewrite decide_False.
  - intros w p v e w' H. repeat case_decide; repeat case_match; naive_solver.
  - done.
Defined.
#[export] Instance handles : handle_api := {| handle_ok h := 0 <? h |}.
Definition plan : MitigationPlan := enable (enable (enable plan_new PreferSystem32Images) RestrictPayload) PreferSystem32Images.
Definition fresh : proc_st machine := mkProcSt (fun _ => 0) (fun _ => 0).

Lemma applied_plan_is_reported_witness :
  exists before after, query_current fresh = (Ok before, fresh) /\
    query_current (apply_to_current plan fresh).2 = (Ok after, (apply_to_current plan fresh).2) /\
    ((apply_to_current plan fresh).1 = Ok tt -> forall m, m ∈ mitigations plan -> reports after m = true) /\
    (forall m, (forall m', m' ∈ mitigations plan -> policy_of m' <> policy_of m) -> reports after m = reports before m).
Proof.
  refine (proj1 (applied_plan_is_reported plan fresh (apply_to_current plan fresh).1 (apply_to_current plan fresh).2 _)).
  apply surjective_pairing.
Defined.

(** The plan lists each mitigation once, is applied with the second mask, and
    is reported. *)
Example applied :
  mitigations plan = [PreferSystem32Images; RestrictPayload] /\
  (let* _ := apply_to_current plan in query_current) fresh =
    (Ok (mkMitigationStatus 42 false false true false true false), (apply_to_current plan fresh).2) /\
  pmach (apply_to_current plan fresh).2 PayloadRestrictionPolicy = Z.land PAYLOAD_RESTRICTION_MASK (Z.lxor PAYLOAD_RESTRICTION_ENABLE_ROP_SIM_EXEC u32_max).
Proof. split_and!; reflexivity. Qed.

Lemma mitigation_access_denied_unreachable_witness :
  map_windows_apply_error (mk_win_error (hresult_from_win32 5)) "signature" =
    Error_Mitigation (MitigationError_ApplyFailed (mkMitigationOperationError (lit "apply") (lit "signature") None
      (Some (error_text (mk_win_error (hresult_from_win32 5)))) (Some (hresult_from_win32 5)))) /\
  map_windows_query_error (mk_win_error (hresult_from_win32 5)) "signature" 42 =
    Error_Mitigation (MitigationError_QueryFailed (mkMitigationOperationError (lit "query") (lit "signature") (Some 42)
      (Some (error_text (mk_win_error (hresult_from_win32 5)))) (Some (hresult_from_win32 5)))).
Proof. apply (mitigation_access_denied_unreachable 5 "signature" 42). lia. Defined.
End Sample.
