(* ===== verification/Proxy.v ===== *)
(** * Proxy: proxy settings and resolution

    src/proxy/mod.rs and types.rs.  The settings are read with the registry
    functions of [Registry]; the WinHTTP calls are the class [winhttp_api].
    A string that WinHTTP returns is memory the caller frees: [None] is a
    null pointer, [Some (p, us)] the address and the units up to the NUL. *)

From Stdlib Require Import ZArith Lia String Ascii.
From stdpp Require Import base list strings gmap numbers sorting.
From S2P Require Import Prelude Text Unicode Errors Backends Effects Resources Registry.

Open Scope Z_scope.

(** ** Types and parsers *)

Record ProxyConfig := mkProxyConfig {
  pc_server : str; pc_bypass : list str; pc_by_scheme : gmap str str; pc_auto_detect : bool;
  pc_auto_config_url : option str }.
Record ProxyResolution := mkProxyResolution {
  pr_url : str; pr_proxy : option str; pr_by_scheme : gmap str str; pr_bypass : list str;
  pr_used_auto_detect : bool; pr_used_auto_config_url : bool }.
Record IeProxyConfig := mkIeProxyConfig {
  ie_auto_detect : bool; ie_auto_config_url : option str; ie_proxy : option str; ie_proxy_bypass : option str }.

(** [str::split_once] with an ASCII character. *)
Definition split_once (c : Z) (s : str) : option (str * str) :=
  match position (Z.eqb c) s with Some i => Some (take i s, drop (S i) s) | None => None end.

Definition is_empty (s : str) : bool := bool_decide (s = []).

(** The entries of a list separated by semicolons: trimmed, not empty. *)
Definition entries (raw : str) : list str := List.filter (fun e => negb (is_empty e)) (trim <$> split_on 59 raw).

(** The body of the loop of [parse_proxy_server]. *)
Definition insert_entry (map : gmap str str) (entry : str) : gmap str str :=
  match split_once 61 entry with
  | Some (scheme, endpoint) =>
      let scheme := to_ascii_lowercase (trim scheme) in
      let endpoint := trim endpoint in
      if negb (is_empty scheme) && negb (is_empty endpoint) then <[scheme := endpoint]> map else map
  | None => <[lit "all" := entry]> map
  end.
Definition parse_proxy_server (raw : str) : gmap str str :=
  let trimmed := trim raw in
  if is_empty trimmed then ∅ else fold_left insert_entry (entries trimmed) ∅.
Definition parse_proxy_bypass (raw : option str) : list str := entries (default [] raw).

Definition from_registry_values (server : str) (bypass_raw : option str) (auto_detect : bool)
    (auto_config_url : option str) : ProxyConfig :=
  mkProxyConfig server (parse_proxy_bypass bypass_raw) (parse_proxy_server server) auto_detect auto_config_url.
Definition from_winhttp (url : str) (proxy bypass_raw : option str) (used_auto_detect used_auto_config_url : bool)
    : ProxyResolution :=
  mkProxyResolution url proxy (from_option parse_proxy_server ∅ proxy) (parse_proxy_bypass bypass_raw)
    used_auto_detect used_auto_config_url.

(** ** The settings of the registry *)

Definition INTERNET_SETTINGS_PATH : str := lit "SOFTWARE\Microsoft\Windows\CurrentVersion\Internet Settings".
Definition POLICIES_PATH : str := lit "SOFTWARE\Policies\Microsoft\Windows\CurrentVersion\Internet Settings".

Section Settings.
Context {W : Type} `{api : !registry_api W}.

Abbreviation R := (eff (reg_st W) Error).

(** [read_string_optional] and [read_u32_optional]. *)
Definition read_optional (T : value_type) `{!RegistryValue T} (hive : Hive) (path value_name : str)
    : R (option (rust_type T)) :=
  let* r := eff_try (read_typed T hive path value_name) in
  match r with
  | inr value => eff_ret (Some value)
  | inl (Error_Registry (RegistryError_KeyNotFound _)) | inl (Error_Registry (RegistryError_ValueNotFound _)) =>
      eff_ret None
  | inl err => eff_fail err
  end.
Definition read_string_optional (hive : Hive) (path value_name : str) : R (option str) :=
  read_optional TString hive path value_name.
Definition read_u32_optional (hive : Hive) (path value_name : str) : R (option Z) :=
  read_optional TU32 hive path value_name.

Definition flag (o : option Z) : bool := default 0 o =? 1.

Definition get_proxy_from_hive (hive : Hive) : R (option ProxyConfig) :=
  let* enable := read_u32_optional hive INTERNET_SETTINGS_PATH (lit "ProxyEnable") in
  let proxy_enabled := flag enable in
  let* server := read_string_optional hive INTERNET_SETTINGS_PATH (lit "ProxyServer") in
  let server := (match server with Some v => if is_empty (trim v) then None else Some v | None => None end) in
  let* bypass := read_string_optional hive INTERNET_SETTINGS_PATH (lit "ProxyOverride") in
  let* detect := read_u32_optional hive INTERNET_SETTINGS_PATH (lit "AutoDetect") in
  let auto_detect := flag detect in
  let* auto_config_url := read_string_optional hive INTERNET_SETTINGS_PATH (lit "AutoConfigURL") in
  if negb proxy_enabled && negb auto_detect && bool_decide (auto_config_url = None) then eff_ret None
  else if proxy_enabled then
    match server with
    | Some server => eff_ret (Some (from_registry_values server bypass auto_detect auto_config_url))
    | None => eff_fail (Error_Proxy (ProxyError_InvalidConfig (mkProxyConfigError (lit "ProxyServer")
                (lit "ProxyEnable is 1 but ProxyServer is missing"))))
    end
  else eff_ret (Some (mkProxyConfig [] (parse_proxy_bypass bypass) ∅ auto_detect auto_config_url)).

Definition get_system_proxy : R (option ProxyConfig) := get_proxy_from_hive LocalMachine.
Definition get_user_proxy : R (option ProxyConfig) := get_proxy_from_hive CurrentUser.
Definition use_user_proxy_settings : R bool :=
  let* v := read_u32_optional CurrentUser POLICIES_PATH (lit "ProxySettingsPerUser") in eff_ret (flag v).
Definition get_effective_proxy : R (option ProxyConfig) :=
  let* user := use_user_proxy_settings in if (user : bool) then get_user_proxy else get_system_proxy.
End Settings.

(** ** WinHTTP *)

Definition pwstr : Type := option (Z * list Z).

(** [WINHTTP_AUTOPROXY_OPTIONS]: the flags, the detection flags and the URL. *)
Record autoproxy_options := mkAutoproxy { dwFlags : Z; dwAutoDetectFlags : Z; lpszAutoConfigUrl : option str }.
Definition WINHTTP_AUTOPROXY_AUTO_DETECT : Z := 1.
Definition WINHTTP_AUTOPROXY_CONFIG_URL : Z := 2.
Definition WINHTTP_AUTO_DETECT_TYPE_DHCP : Z := 1.
Definition WINHTTP_AUTO_DETECT_TYPE_DNS_A : Z := 2.

(** [WinHttpOpen] returns the session, or null and [GetLastError]. *)
Class winhttp_api (W : Type) := {
  GetIEProxyConfig : W -> (win_error + (bool * pwstr * pwstr * pwstr)) * W;
  WinHttpOpen : W -> (win_error + Z) * W;
  WinHttpGetProxyForUrl : W -> Z -> str -> autoproxy_options -> (win_error + (pwstr * pwstr)) * W;
  GlobalFree : W -> Z -> option win_error * W }.

Definition owned_strings (ps : list pwstr) : list resource :=
  ps ≫= fun p => match p with Some (a, _) => [ResMemory a] | None => [] end.

Section WinHttp.
Context {W : Type} `{api : !winhttp_api W}.

Abbreviation P := (eff (proc_st W) Error).

(** The memory is gone when [GlobalFree] succeeds. *)
Definition take_optional_pwstr (p : pwstr) : P (option str) :=
  match p with
  | None => eff_ret None
  | Some (a, us) => fun s =>
      match GlobalFree (pmach s) a with
      | (None, w) => (Ok (Some (from_utf16_lossy us)), release (ResMemory a) (at_machine w s))
      | (Some e, w) => (Err (windows_api_error e "GlobalFree(PWSTR)"), at_machine w s)
      end
  end.

Definition get_ie_proxy_config : P IeProxyConfig :=
  let* config := acquiring GetIEProxyConfig
    (fun '(_, url, proxy, bypass) => owned_strings [url; proxy; bypass])
    (fun e => windows_api_error e "WinHttpGetIEProxyConfigForCurrentUser") in
  let '(auto_detect, url, proxy, bypass) := config in
  let* auto_config_url := take_optional_pwstr url in
  let* proxy := take_optional_pwstr proxy in
  let* proxy_bypass := take_optional_pwstr bypass in
  eff_ret (mkIeProxyConfig auto_detect auto_config_url proxy proxy_bypass).

(** [WinHttpSession::new], and its drop. *)
Definition session_new : P Z :=
  acquiring WinHttpOpen (fun h => [ResSession h])
    (fun e => Error_Proxy (ProxyError_ResolutionFailed (mkProxyResolutionError (lit "WinHttpOpen")
       (lit "WinHttpOpen returned null (error: 0x" ++ fmt_hex_pad 8 (wrap 32 (win_error_code e)) ++ lit ")")))).
Definition drop_session (h : Z) (s : proc_st W) : proc_st W := release (ResSession h) s.

(** The call, and the strings it returns taken over. *)
Definition resolve (session : Z) (url : str) (options : autoproxy_options) (used_auto_detect used_auto_config_url : bool)
    : P (option ProxyResolution) := fun s =>
  match WinHttpGetProxyForUrl (pmach s) session url options with
  | (inl _, w) => (Ok None, at_machine w s)
  | (inr (proxy, bypass), w) =>
      (let* proxy := take_optional_pwstr proxy in
       let* bypass := take_optional_pwstr bypass in
       eff_ret (Some (from_winhttp url proxy bypass used_auto_detect used_auto_config_url)))
        (foldr acquire (at_machine w s) (owned_strings [proxy; bypass]))
  end.

Definition get_proxy_for_url (url : str) : P (option ProxyResolution) :=
  if is_empty (trim url)
  then eff_fail (Error_InvalidParameter (mkInvalidParameterError (lit "url") (lit "url cannot be empty")))
  else
    let* ie_config := get_ie_proxy_config in
    let* session := session_new in
    eff_scoped (drop_session session)
      (let flags := if ie_auto_detect ie_config then WINHTTP_AUTOPROXY_AUTO_DETECT else 0 in
       let detect := if ie_auto_detect ie_config
                     then Z.lor WINHTTP_AUTO_DETECT_TYPE_DHCP WINHTTP_AUTO_DETECT_TYPE_DNS_A else 0 in
       match ie_auto_config_url ie_config with
       | Some auto_url =>
           resolve session url (mkAutoproxy (Z.lor flags WINHTTP_AUTOPROXY_CONFIG_URL) detect (Some auto_url))
             (ie_auto_detect ie_config) true
       | None =>
           if ie_auto_detect ie_config
           then resolve session url (mkAutoproxy flags detect None) (ie_auto_detect ie_config) false
           else match ie_proxy ie_config with
                | Some proxy => eff_ret (Some (from_winhttp url (Some proxy) (ie_proxy_bypass ie_config) false false))
                | None => eff_ret None
                end
       end).
End WinHttp.

(** ** Proxy lists *)

(** An entry of a proxy list as it is written: for one scheme, or for all. *)
Inductive proxy_entry := ForScheme (scheme endpoint : str) | ForAll (endpoint : str).
Definition entry_text (e : proxy_entry) : str :=
  match e with ForScheme scheme endpoint => scheme ++ 61 :: endpoint | ForAll endpoint => endpoint end.
Definition entry_pair (e : proxy_entry) : str * str :=
  match e with ForScheme scheme endpoint => (scheme, endpoint) | ForAll endpoint => (lit "all", endpoint) end.
Definition proxy_text (es : list proxy_entry) : str := join [59] (entry_text <$> es).

Definition word (s : str) : Prop := s <> [] /\ Forall graphic s /\ lacks 59 s.
(** A scheme is a lower-case word without an equals sign; so is an endpoint
    for all schemes, but for its case. *)
Definition entry_ok (e : proxy_entry) : Prop :=
  match e with
  | ForScheme scheme endpoint => word scheme /\ lacks 61 scheme /\ to_ascii_lowercase scheme = scheme /\ word endpoint
  | ForAll endpoint => word endpoint /\ lacks 61 endpoint
  end.

Lemma is_empty_false s : s <> [] -> is_empty s = false.
Proof. intros H. by apply bool_decide_false. Qed.

Lemma split_once_app c a b : lacks c a -> split_once c (a ++ c :: b) = Some (a, b).
Proof.
  intros H. unfold split_once. assert (position (Z.eqb c) (a ++ c :: b) = Some (length a)) as ->.
  { induction H as [|x a Hx _ IH]; cbn; [by rewrite Z.eqb_refl|]. replace (c =? x) with false by lia. by rewrite IH. }
  rewrite take_app_length. do 2 f_equal. rewrite cons_middle, app_assoc. apply drop_app_length'. rewrite length_app. cbn. lia.
Qed.

Lemma split_once_lacks c a : lacks c a -> split_once c a = None.
Proof. intros H. unfold split_once. by rewrite (proj2 (position_none_lacks c a)). Qed.

Lemma entry_text_word e : entry_ok e -> word (entry_text e).
Proof.
  destruct e as [scheme endpoint|endpoint]; cbn; [|naive_solver]. intros (Hs & _ & _ & He).
  destruct Hs as (Hn & Hg & Hl), He as (_ & Hg' & Hl'). split_and!; [by destruct scheme|..].
  - apply Forall_app. split; [done|]. constructor; [unfold graphic; lia|done].
  - apply Forall_app. split; [done|]. constructor; [done|done].
Qed.

Lemma insert_entry_text m e : entry_ok e -> insert_entry m (entry_text e) = <[(entry_pair e).1 := (entry_pair e).2]> m.
Proof.
  destruct e as [scheme endpoint|endpoint]; cbn; unfold insert_entry.
  - intros ((Hn & Hg & _) & Hl & Hc & (Hn' & Hg' & _)). rewrite split_once_app by done.
    rewrite !trim_graphic, Hc, !is_empty_false by done. done.
  - intros (_ & Hl). by rewrite split_once_lacks.
Qed.

Lemma entries_text ts : ts <> [] -> Forall word ts -> entries (join [59] ts) = ts.
Proof.
  intros Hne Hw. unfold entries. rewrite split_on_join; [|done|]. 2: { eapply Forall_impl; [exact Hw|]. by intros ? (_&_&?). }
  clear Hne. induction Hw as [|t ts (Hn & Hg & _) _ IH]; [done|]. cbn. rewrite trim_graphic by done.
  rewrite is_empty_false by done. cbn. f_equal. exact IH.
Qed.

Lemma join_graphic ts : ts <> [] -> Forall word ts -> Forall graphic (join [59] ts) /\ join [59] ts <> [].
Proof.
  intros Hne Hw. induction Hw as [|t ts (Hn & Hg & _) Hts IH]; [done|]. destruct ts as [|t' ts]; [done|].
  change (join [59] (t :: t' :: ts)) with (t ++ 59 :: join [59] (t' :: ts)). split.
  - apply Forall_app. split; [done|]. constructor; [unfold graphic; lia|]. by apply IH.
  - by destruct t.
Qed.

Lemma fold_insert_entries es m :
  Forall entry_ok es -> NoDup (entry_pair <$> es).*1 -> (forall k, k ∈ (entry_pair <$> es).*1 -> m !! k = None) ->
  fold_left insert_entry (entry_text <$> es) m = list_to_map (entry_pair <$> es) ∪ m.
Proof.
  intros Hok. revert m. induction Hok as [|e es He _ IH]; intros m Hnd Hm; cbn.
  - by rewrite (left_id_L ∅ (∪)).
  - cbn in Hnd. apply NoDup_cons in Hnd as [Hni Hnd]. rewrite insert_entry_text by done. rewrite IH; [|done|].
    + rewrite <- insert_union_r; [by rewrite insert_union_l; destruct (entry_pair e)|].
      apply not_elem_of_list_to_map_1. exact Hni.
    + intros k Hk. rewrite lookup_insert_ne; [apply Hm; cbn; set_solver|]. congruence.
Qed.

(** A proxy list is read back: the text of a list of entries for
    different schemes, separated by semicolons, parses to the map from each
    scheme to its endpoint, an entry without a scheme under [all]. *)
Theorem proxy_server_round_trip es :
  es <> [] -> Forall entry_ok es -> NoDup (entry_pair <$> es).*1 ->
  parse_proxy_server (proxy_text es) = list_to_map (entry_pair <$> es).
Proof.
  intros Hne Hok Hnd. assert (Forall word (entry_text <$> es)) as Hw.
  { apply Forall_fmap. eapply Forall_impl; [exact Hok|]. apply entry_text_word. }
  assert (entry_text <$> es <> []) as Hne' by by destruct es.
  destruct (join_graphic _ Hne' Hw) as [Hg Hn]. unfold parse_proxy_server, proxy_text.
  rewrite trim_graphic, is_empty_false, entries_text by done.
  rewrite fold_insert_entries; [|done..]. apply (right_id_L ∅ (∪)).
Qed.

Lemma proxy_server_round_trip_witness :
  parse_proxy_server (proxy_text [ForScheme (lit "http") (lit "proxy:8080"); ForScheme (lit "https") (lit "secure:8443"); ForAll (lit "any:1")]) =
  list_to_map (entry_pair <$> [ForScheme (lit "http") (lit "proxy:8080"); ForScheme (lit "https") (lit "secure:8443"); ForAll (lit "any:1")]).
Proof.
  apply (proxy_server_round_trip [ForScheme (lit "http") (lit "proxy:8080"); ForScheme (lit "https") (lit "secure:8443"); ForAll (lit "any:1")]);
    [done| |apply (bool_decide_unpack _); vm_compute; exact I].
  repeat first [apply List.Forall_nil | apply List.Forall_cons | split | done | unfold graphic; lia].
Defined.

(** ** The effective proxy *)

Section Effective.
Context {W : Type} `{api : !registry_api W} `{laws : !registry_laws W}.

(** Every read access to the key succeeds. *)
Definition readable (hive : Hive) (path : str) : Prop :=
  forall w, exists h w', RegOpenKey w (as_hkey hive) (encode_utf16 path) KEY_READ = (0, h, w').

(** The registry [w] has the value [o] (or none) under a name. *)
Definition value_is (T : value_type) `{!RegistryValue T} `{!StorableValue T} (w : W) (hive : Hive) (path name : str)
    (o : option (rust_type T)) : Prop :=
  match o with
  | Some v => fits T v /\ value_of w (as_hkey hive, encode_utf16 path) (encode_utf16 name) = Some (stored v)
  | None => value_of w (as_hkey hive, encode_utf16 path) (encode_utf16 name) = None
  end.

(** A type whose reader reports a missing value as such. *)
Class ReportsMissing (T : value_type) `{!RegistryValue T} : Prop :=
  read_missing key name s : (forall size, exists t d, RegQueryValue (reg s) (rk_handle key) (encode_utf16 name) size = (ERROR_FILE_NOT_FOUND, t, d)) ->
    read_from_key (T:=T) key name s =
      (Err (Error_Registry (RegistryError_ValueNotFound (mkRegistryValueNotFoundError name None))), s).

#[local] Instance string_missing : ReportsMissing TString.
Proof.
  intros key name s H. cbn. unfold string_read, query_value, eff_bind. destruct (H 2048) as (t & d & ->). done.
Qed.
#[local] Instance u32_missing : ReportsMissing TU32.
Proof. intros key name s H. cbn. unfold u32_read, query_value, eff_bind. destruct (H 4) as (t & d & ->). done. Qed.

Definition same_values (s s' : reg_st W) : Prop := forall k n, value_of (reg s') k n = value_of (reg s) k n.

Lemma value_is_same T `{!RegistryValue T} `{!StorableValue T} s s' hive path name o :
  same_values s s' -> value_is T (reg s) hive path name o -> value_is T (reg s') hive path name o.
Proof. unfold value_is. intros H. destruct o; by rewrite H. Qed.

Lemma read_optional_value T `{!RegistryValue T} `{!StorableValue T} `{!ReportsMissing T} hive path name o s :
  (forall v, read_back T v = v) -> readable hive path -> value_is T (reg s) hive path name o ->
  exists s', read_optional T hive path name s = (Ok o, s') /\ same_values s s'.
Proof.
  intros Hid Hr Hv. destruct (Hr (reg s)) as (h & w & Ho). destruct (open_law _ _ _ _ _ _ Ho) as [Ht Hsame].
  unfold read_optional, read_typed, with_key, key_open, open_with, eff_try, eff_bind, eff_scoped, get_value.
  rewrite Ho. cbn [Z.eqb].
  set (s1 := mkRegSt w (opened s ++ [h]) (reg_closed s)).
  set (key := mkRegistryKey h true (Some hive) (Some path)).
  assert (forall k n, value_of (RegClose w h) k n = value_of (reg s) k n) as Hc by (intros; by rewrite close_law, Hsame).
  destruct o as [v|]; cbn in Hv.
  - destruct Hv as [Hst Hv].
    assert (holds s1 key name (fst (stored v)) (snd (stored v))) as Hh.
    { eapply holds_value; [exact Ht|]. cbn. rewrite Hsame, Hv. by destruct (stored v). }
    rewrite (read_stored v key name s1 Hst Hh), Hid. eexists. split; [done|]. exact Hc.
  - rewrite (read_missing key name s1); [eexists; split; [done|]; exact Hc|].
    intros size. pose proof (query_law w h _ (encode_utf16 name) size Ht) as Hq. by rewrite Hsame, Hv in Hq.
Qed.

(** What the module means by the settings of a user or of the machine. *)
Record settings := mkSettings {
  proxy_enable : option Z; proxy_server : option str; proxy_override : option str; auto_detect : option Z;
  auto_config : option str }.

Definition settings_in (w : W) (hive : Hive) (c : settings) : Prop :=
  value_is TU32 w hive INTERNET_SETTINGS_PATH (lit "ProxyEnable") (proxy_enable c) /\
  value_is TString w hive INTERNET_SETTINGS_PATH (lit "ProxyServer") (proxy_server c) /\
  value_is TString w hive INTERNET_SETTINGS_PATH (lit "ProxyOverride") (proxy_override c) /\
  value_is TU32 w hive INTERNET_SETTINGS_PATH (lit "AutoDetect") (auto_detect c) /\
  value_is TString w hive INTERNET_SETTINGS_PATH (lit "AutoConfigURL") (auto_config c).

(** A static proxy is on or off; when it is on, it needs a server; when it is
    off and nothing is to be detected, there is no proxy at all. *)
Inductive means : settings -> res Error (option ProxyConfig) -> Prop :=
  | means_static c server :
      proxy_enable c = Some 1 -> proxy_server c = Some server -> trim server <> [] ->
      means c (Ok (Some (mkProxyConfig server (parse_proxy_bypass (proxy_override c)) (parse_proxy_server server)
                           (flag (auto_detect c)) (auto_config c))))
  | means_invalid c :
      proxy_enable c = Some 1 -> trim (default [] (proxy_server c)) = [] ->
      means c (Err (Error_Proxy (ProxyError_InvalidConfig (mkProxyConfigError (lit "ProxyServer")
                      (lit "ProxyEnable is 1 but ProxyServer is missing")))))
  | means_automatic c :
      proxy_enable c <> Some 1 -> auto_detect c = Some 1 \/ auto_config c <> None ->
      means c (Ok (Some (mkProxyConfig [] (parse_proxy_bypass (proxy_override c)) ∅ (flag (auto_detect c)) (auto_config c))))
  | means_none c :
      proxy_enable c <> Some 1 -> auto_detect c <> Some 1 -> auto_config c = None -> means c (Ok None).

Lemma flag_true o : flag o = true <-> o = Some 1.
Proof. unfold flag. destruct o; cbn; [rewrite Z.eqb_eq|]; naive_solver. Qed.

Lemma flag_false o : flag o = false <-> o <> Some 1.
Proof. rewrite <- flag_true. destruct (flag o); naive_solver. Qed.

Lemma get_proxy_from_hive_means hive c s :
  readable hive INTERNET_SETTINGS_PATH -> settings_in (reg s) hive c ->
  exists r s', get_proxy_from_hive hive s = (r, s') /\ means c r /\ same_values s s'.
Proof.
  intros Hr (H1 & H2 & H3 & H4 & H5).
  destruct (read_optional_value TU32 _ _ _ _ s (fun _ => eq_refl) Hr H1) as (s1 & E1 & S1).
  destruct (read_optional_value TString _ _ _ _ s1 (fun _ => eq_refl) Hr (value_is_same _ _ _ _ _ _ _ S1 H2)) as (s2 & E2 & S2').
  assert (same_values s s2) as S2 by (intros ??; by rewrite S2', S1). clear S2'.
  destruct (read_optional_value TString _ _ _ _ s2 (fun _ => eq_refl) Hr (value_is_same _ _ _ _ _ _ _ S2 H3)) as (s3 & E3 & S3').
  assert (same_values s s3) as S3 by (intros ??; by rewrite S3', S2). clear S3'.
  destruct (read_optional_value TU32 _ _ _ _ s3 (fun _ => eq_refl) Hr (value_is_same _ _ _ _ _ _ _ S3 H4)) as (s4 & E4 & S4').
  assert (same_values s s4) as S4 by (intros ??; by rewrite S4', S3). clear S4'.
  destruct (read_optional_value TString _ _ _ _ s4 (fun _ => eq_refl) Hr (value_is_same _ _ _ _ _ _ _ S4 H5)) as (s5 & E5 & S5').
  assert (same_values s s5) as S5 by (intros ??; by rewrite S5', S4). clear S5'.
  unfold get_proxy_from_hive, read_u32_optional, read_string_optional.
  do 5 (erewrite eff_bind_step by eassumption).
  destruct (flag (proxy_enable c)) eqn:Fe; cbn [negb andb].
  - apply flag_true in Fe. destruct (proxy_server c) as [server|] eqn:Es.
    + destruct (is_empty (trim server)) eqn:Et.
      * eexists _, s5. split; [done|]. split; [|done]. apply means_invalid; [done|]. rewrite Es. cbn.
        by apply bool_decide_eq_true in Et.
      * eexists _, s5. split; [done|]. split; [|done]. apply (means_static c server); try done.
        by apply bool_decide_eq_false in Et.
    + eexists _, s5. split; [done|]. split; [|done]. apply means_invalid; [done|]. by rewrite Es.
  - apply flag_false in Fe. destruct (flag (auto_detect c)) eqn:Fd; cbn [negb andb].
    + rewrite <- Fd. eexists _, s5. split; [done|]. split; [|done]. apply means_automatic; [done|]. left. by apply flag_true.
    + case_bool_decide as Eu; (eexists _, s5; split; [done|]; split; [|done]).
      * apply means_none; [done|by apply flag_false|done].
      * rewrite <- Fd. apply means_automatic; [done|by right].
Qed.

(** [get_effective_proxy] is the proxy the stored settings mean: when
    the policy value ProxySettingsPerUser of the user is 1 it is what the
    user's Internet Settings mean, otherwise what the machine's mean, the
    invalid combination (enabled without a server) included; and reading
    changes no value. *)
Theorem effective_proxy_means s per_user user machine :
  readable CurrentUser POLICIES_PATH -> readable CurrentUser INTERNET_SETTINGS_PATH ->
  readable LocalMachine INTERNET_SETTINGS_PATH ->
  value_is TU32 (reg s) CurrentUser POLICIES_PATH (lit "ProxySettingsPerUser") per_user ->
  settings_in (reg s) CurrentUser user -> settings_in (reg s) LocalMachine machine ->
  exists r s', get_effective_proxy s = (r, s') /\ same_values s s' /\
    means (if decide (per_user = Some 1) then user else machine) r.
Proof.
  intros Hp Hu Hm Hv Hus Hms. destruct (read_optional_value TU32 _ _ _ _ s (fun _ => eq_refl) Hp Hv) as (s1 & E1 & S1).
  unfold get_effective_proxy, use_user_proxy_settings, read_u32_optional, eff_bind. rewrite E1. cbn [eff_ret eff_lift].
  assert (forall hive c, settings_in (reg s) hive c -> settings_in (reg s1) hive c) as Hk.
  { intros hive c (H1 & H2 & H3 & H4 & H5). 
    do 4 (split; [eapply (value_is_same _ s s1 _ _ _ _ S1); assumption|]). eapply (value_is_same _ s s1 _ _ _ _ S1); assumption. }
  case_decide as Ed.
  - rewrite (proj2 (flag_true per_user) Ed).
    destruct (get_proxy_from_hive_means CurrentUser user s1 Hu (Hk _ _ Hus)) as (r & s' & E & Hr & S).
    exists r, s'. split; [done|]. split; [|done]. intros ??. by rewrite S, S1.
  - rewrite (proj2 (flag_false per_user) Ed).
    destruct (get_proxy_from_hive_means LocalMachine machine s1 Hm (Hk _ _ Hms)) as (r & s' & E & Hr & S).
    exists r, s'. split; [done|]. split; [|done]. intros ??. by rewrite S, S1.
Qed.
End Effective.

(** ** Memory and sessions *)

Section Released.
Context {W : Type} `{api : !winhttp_api W}.

Abbreviation P := (eff (proc_st W) Error).

(** Freeing what the system allocated succeeds. *)
Definition frees : Prop := forall w a, (GlobalFree w a).1 = None.

(** [m] gives up the resources [have] on every path, and gains none. *)
Definition uses {A} (have : list resource) (m : P A) : Prop :=
  forall s0 s, gained s0 s have -> gained s0 (m s).2 [].

Lemma uses_take p have {A} (k : option str -> P A) :
  frees -> (forall o, uses have (k o)) -> uses (owned_strings [p] ++ have) (let* o := take_optional_pwstr p in k o).
Proof.
  intros Hf Hk s0 s Hs. destruct p as [[a us]|]; cbn in *; [|by apply Hk].
  unfold eff_bind, take_optional_pwstr. specialize (Hf (pmach s) a).
  destruct (GlobalFree (pmach s) a) as [o w]; cbn in Hf; subst o. apply Hk. by apply gained_release.
Qed.

Lemma uses_ret {A} (a : A) : uses [] (eff_ret a).
Proof. by intros s0 s Hs. Qed.

Lemma owns_acquired {A B} (call : W -> (win_error + A) * W) own fail (k : A -> P B) :
  (forall a, uses (own a) (k a)) -> owns (let* a := acquiring call own fail in k a) (fun _ => []).
Proof.
  intros Hk. eapply owns_bind; [apply owns_acquiring|]. intros a s0 s Hs. specialize (Hk a s0 s Hs).
  by destruct (k a s) as [[b|e|x] s'].
Qed.

Lemma owns_uses {A} (m : P A) : owns m (fun _ => []) -> uses [] m.
Proof.
  intros Hm s0 s Hs. specialize (Hm s). destruct (m s) as [[b|e|x] s']; exact (gained_trans _ _ _ _ _ Hs Hm).
Qed.

Lemma ie_proxy_config_owns : frees -> owns get_ie_proxy_config (fun _ => []).
Proof.
  intros Hf. apply owns_acquired. intros [[[d url] proxy] bypass].
  change (owned_strings [url; proxy; bypass]) with (owned_strings ([url] ++ [proxy] ++ [bypass])).
  unfold owned_strings. rewrite !bind_app.
  do 2 (apply uses_take; [done|]; intros ?).
  rewrite <- (app_nil_r (mbind _ [bypass])). apply uses_take; [done|]. intros ?. apply uses_ret.
Qed.

Lemma resolve_owns session url options d u : frees -> owns (resolve session url options d u) (fun _ => []).
Proof.
  intros Hf s. unfold resolve. destruct (WinHttpGetProxyForUrl _ _ _ _) as [[e|[proxy bypass]] w].
  - intros r. cbn. rewrite count_res_nil. lia.
  - set (m := eff_bind _ _).
    assert (uses (owned_strings [proxy; bypass]) m) as Hu.
    { change (owned_strings [proxy; bypass]) with (owned_strings ([proxy] ++ [bypass])).
      unfold owned_strings. rewrite bind_app. apply uses_take; [done|]. intros ?.
      rewrite <- (app_nil_r (mbind _ [bypass])). apply uses_take; [done|]. intros ?. apply uses_ret. }
    specialize (Hu s (foldr acquire (at_machine w s) (owned_strings [proxy; bypass])) (held_acquire_all (at_machine w s) _)).
    by destruct (m _) as [[b|e|x] s'].
Qed.

(** Resolving the proxy for a URL leaves nothing behind: as long as
    [GlobalFree] succeeds, every string that WinHTTP allocated is freed once
    and the session is closed, whichever of the calls fails and whichever way
    the proxy is found. *)
Theorem proxy_for_url_releases url : frees -> owns (get_proxy_for_url url) (fun _ => []).
Proof.
  intros Hf. unfold get_proxy_for_url. case_match; [apply owns_fail|].
  apply owns_seq; [by apply ie_proxy_config_owns|]. intros c. apply owns_acquired. intros h s0 s Hs.
  unfold eff_scoped. set (m := match ie_auto_config_url c with Some _ => _ | None => _ end).
  assert (owns m (fun _ => [])) as Hm.
  { unfold m. repeat case_match; first [by apply resolve_owns|apply owns_ret]. }
  pose proof (Hm s) as Hg. destruct (m s) as [r s']. cbn. apply gained_release.
  destruct r; exact (gained_trans _ _ _ _ _ Hs Hg).
Qed.
End Released.

(** ** A user with a proxy of their own *)

Module ProxySample.
#[local] Existing Instance toy_api.
#[local] Existing Instance toy_laws.

Definition dword (v : Z) : Z * list Z := (REG_DWORD, le_encode 4 v).
Definition text (s : str) : Z * list Z := (REG_SZ, bytes_of_units (encode_utf16 s ++ [0])).
Definition registry : reg_st toy_registry := mkRegSt (mkToy (list_to_map [
  ((2, encode_utf16 POLICIES_PATH, encode_utf16 (lit "ProxySettingsPerUser")), dword 1);
  ((2, encode_utf16 INTERNET_SETTINGS_PATH, encode_utf16 (lit "ProxyEnable")), dword 1);
  ((2, encode_utf16 INTERNET_SETTINGS_PATH, encode_utf16 (lit "ProxyServer")), text (lit "proxy:8080"))]) []) [] [].
Definition user : settings := mkSettings (Some 1) (Some (lit "proxy:8080")) None None None.
Definition machine : settings := mkSettings None None None None None.

Lemma readable_toy hive path : readable hive path.
Proof. intros w. by eexists _, _. Qed.

Lemma effective_proxy_means_witness :
  exists r s', get_effective_proxy registry = (r, s') /\ same_values registry s' /\
    means (if decide (Some 1 = Some 1) then user else machine) r.
Proof.
  apply (effective_proxy_means registry (Some 1) user machine); [apply readable_toy..|vm_compute; repeat split; discriminate| |].
  - split_and!; [vm_compute; repeat split; discriminate| |reflexivity..].
    split; [split; [apply nul_free_text; ascii_text (lit "proxy:8080")|vm_compute; discriminate]|vm_compute; reflexivity].
  - split_and!; reflexivity.
Defined.

Example effective :
  (get_effective_proxy registry).1 =
    Ok (Some (mkProxyConfig (lit "proxy:8080") [] {[ lit "all" := lit "proxy:8080" ]} false None)).
Proof. vm_compute. reflexivity. Qed.

(** WinHTTP with a script that finds a proxy. *)
Definition winhttp : winhttp_api unit := {|
  GetIEProxyConfig w := (inr (true, Some (1, lit "http://pac"), None, None), w);
  WinHttpOpen w := (inr 9, w);
  WinHttpGetProxyForUrl w h url o := (inr (Some (2, lit "proxy:8080"), Some (3, lit "<local>")), w);
  GlobalFree w p := (None, w) |}.

Lemma proxy_for_url_releases_witness : owns (get_proxy_for_url (api := winhttp) (lit "http://a")) (fun _ => []).
Proof. apply (proxy_for_url_releases (api := winhttp) (lit "http://a")). intros w a. reflexivity. Defined.

Example resolved :
  (get_proxy_for_url (api := winhttp) (lit "http://a") (mkProcSt tt (fun _ => 0))).1 =
    Ok (Some (mkProxyResolution (lit "http://a") (Some (lit "proxy:8080")) {[ lit "all" := lit "proxy:8080" ]}
                [lit "<local>"] true true)).
Proof. vm_compute. reflexivity. Qed.
End ProxySample.
