(* ===== verification/Inject.v ===== *)
(** * Inject: loading a DLL into another process

    src/process/inject.rs.  The memory reserved in the target process is the
    resource [ResMemory]; [held] counts it until [VirtualFreeEx]. *)

From Stdlib Require Import ZArith Lia String Ascii.
From stdpp Require Import base list strings gmap numbers sorting.
From S2P Require Import Prelude Text Unicode Errors Effects Resources.

Open Scope Z_scope.

Definition INJECT_TIMEOUT_MS : Z := 5000.
Definition WAIT_OBJECT_0 : Z := 0.
Definition INVALID_HANDLE_VALUE : Z := -1.
Definition PROCESS_CREATE_THREAD : Z := 0x2.
Definition PROCESS_VM_OPERATION : Z := 0x8.
Definition PROCESS_VM_WRITE : Z := 0x20.
Definition PROCESS_DUP_HANDLE : Z := 0x40.
Definition INJECTION_RIGHTS : Z :=
  Z.lor (Z.lor (Z.lor PROCESS_CREATE_THREAD PROCESS_VM_WRITE) PROCESS_VM_OPERATION) PROCESS_DUP_HANDLE.

(** A [Path], by what the code asks of it: its text and the text of its last
    component. *)
Record dll_path := mkDllPath { path_to_str : option str; path_file_name : option str }.

(** The calls.  A snapshot enumerates its modules in order, each with the
    array [szModule]; the addresses that [VirtualAllocEx] and [GetProcAddress]
    return are not null when they are there. *)
Class inject_api (W : Type) := {
  CreateToolhelp32Snapshot : W -> Z -> (win_error + Z) * W;
  snapshot_modules : W -> Z -> list (list Z);
  OpenProcess : W -> Z -> Z -> (win_error + Z) * W;
  VirtualAllocEx : W -> Z -> Z -> option Z * W;
  VirtualFreeEx : W -> Z -> Z -> W;
  WriteProcessMemory : W -> Z -> Z -> list Z -> option win_error * W;
  GetModuleHandleA : W -> str -> win_error + Z;
  GetProcAddress : W -> Z -> str -> option Z;
  CreateRemoteThread : W -> Z -> Z -> Z -> (win_error + Z) * W;
  WaitForSingleObject : W -> Z -> Z -> Z * W;
  GetExitCodeThread : W -> Z -> option Z }.

Definition injection_failed (pid : Z) (reason : string) (code : option Z) : Error :=
  Error_Process (ProcessError_InjectionFailed (mkInjectionFailedError pid (lit reason) code)).
Definition injection_failed_with (pid : Z) (reason : string) (e : win_error) : Error :=
  injection_failed pid reason (Some (win_error_code e)).
Definition bad_dll_path (reason : string) : Error :=
  Error_InvalidParameter (mkInvalidParameterError (lit "dll_path") (lit reason)).

(** The units of a fixed array up to the NUL. *)
Definition module_name (szModule : list Z) : str :=
  to_ascii_lowercase (from_utf16_lossy
    (take (match position (Z.eqb 0) szModule with Some n => n | None => length szModule end) szModule)).

(** The loop over the modules. *)
Fixpoint modules_loop (dll_name_lower : str) (modules : list (list Z)) : bool :=
  match modules with
  | [] => false
  | m :: modules => if decide (module_name m = dll_name_lower) then true else modules_loop dll_name_lower modules
  end.

Section Calls.
Context {W : Type} `{api : !inject_api W}.

Abbreviation P := (eff (proc_st W) Error).

Definition close_handle (h : Z) (s : proc_st W) : proc_st W := release (ResHandle h) s.
Definition free_remote (process addr : Z) (s : proc_st W) : proc_st W :=
  release (ResMemory addr) (at_machine (VirtualFreeEx (pmach s) process addr) s).

Definition is_dll_loaded (pid : Z) (dll_name : str) : P bool :=
  let* snapshot := open_handle (fun w => CreateToolhelp32Snapshot w pid)
                     (injection_failed_with pid "Failed to snapshot process modules") in
  fun s => (Ok (modules_loop (to_ascii_lowercase dll_name) (snapshot_modules (pmach s) snapshot)), close_handle snapshot s).

(** The thread that runs [LoadLibraryA], and the wait for it. *)
Definition wait_remote (process pid remote_mem thread : Z) : P unit := fun s =>
  let '(wait_result, w) := WaitForSingleObject (pmach s) thread INJECT_TIMEOUT_MS in
  let s := at_machine w s in
  if (wait_result =? WAIT_OBJECT_0) && bool_decide (GetExitCodeThread w thread = Some 0)
  then (Err (injection_failed pid "LoadLibraryA returned NULL in target process" None),
        free_remote process remote_mem (close_handle thread s))
  else (Ok tt, free_remote process remote_mem (close_handle thread s)).

(** From here on a failure frees the memory. *)
Definition load_library (process pid remote_mem : Z) (path_bytes : list Z) : P Z := fun s =>
  match WriteProcessMemory (pmach s) process remote_mem path_bytes with
  | (Some e, w) =>
      (Err (injection_failed_with pid "Failed to write DLL path into target process" e),
       free_remote process remote_mem (at_machine w s))
  | (None, w) =>
      let s := at_machine w s in
      match GetModuleHandleA w (lit "kernel32.dll") with
      | inl e => (Err (injection_failed_with pid "Failed to get kernel32.dll handle" e), free_remote process remote_mem s)
      | inr k32 =>
          match GetProcAddress w k32 (lit "LoadLibraryA") with
          | None => (Err (injection_failed pid "Failed to resolve LoadLibraryA" None), free_remote process remote_mem s)
          | Some start =>
              match CreateRemoteThread w process start remote_mem with
              | (inl e, w) =>
                  (Err (injection_failed_with pid "Failed to create remote thread in target process" e),
                   free_remote process remote_mem (at_machine w s))
              | (inr thread, w) =>
                  if thread =? INVALID_HANDLE_VALUE
                  then (Err (injection_failed pid "CreateRemoteThread returned invalid handle" None),
                        free_remote process remote_mem (at_machine w s))
                  else (Ok thread, acquire (ResHandle thread) (at_machine w s))
              end
          end
      end
  end.

Definition inject_impl (process pid : Z) (path_bytes : list Z) : P unit := fun s =>
  match VirtualAllocEx (pmach s) process (zlen path_bytes) with
  | (None, w) => (Err (injection_failed pid "Failed to allocate memory in target process" None), at_machine w s)
  | (Some remote_mem, w) =>
      (let* thread := load_library process pid remote_mem path_bytes in wait_remote process pid remote_mem thread)
        (acquire (ResMemory remote_mem) (at_machine w s))
  end.

(** [CString::new]: no NUL inside; [as_bytes_with_nul]. *)
Definition cstring (s : str) : option (list Z) :=
  if decide (0 ∈ s) then None else Some (s ++ [0]).

Definition inject_dll (pid : Z) (path : dll_path) : P unit :=
  let* path_str := eff_lift (ok_or (path_to_str path) (bad_dll_path "DLL path must be valid UTF-8")) in
  let* path_bytes := eff_lift (ok_or (cstring path_str) (bad_dll_path "DLL path must not contain embedded null characters")) in
  let dll_filename := to_ascii_lowercase (default path_str (path_file_name path)) in
  let* loaded := is_dll_loaded pid dll_filename in
  if (loaded : bool)
  then eff_fail (Error_Process (ProcessError_AlreadyInjected (mkAlreadyInjectedError pid dll_filename)))
  else
    let* process := open_handle (fun w => OpenProcess w INJECTION_RIGHTS pid)
                      (injection_failed_with pid "Failed to open process with injection rights") in
    eff_scoped (close_handle process) (inject_impl process pid path_bytes).
End Calls.

(** ** Properties *)

Section Injected.
Context {W : Type} `{api : !inject_api W}.

Lemma module_search_spec name modules : modules_loop name modules = true <-> exists m, m ∈ modules /\ module_name m = name.
Proof.
  induction modules as [|m modules IH]; cbn; [set_solver|]. case_decide; [set_solver|]. rewrite IH. set_solver.
Qed.

Lemma close_gained s0 s h l : gained s0 s (ResHandle h :: l) -> gained s0 (close_handle (W:=W) h s) l.
Proof. apply gained_release. Qed.

Lemma free_gained s0 s process addr l :
  gained s0 s (ResMemory addr :: l) -> gained s0 (free_remote (W:=W) process addr s) l.
Proof. intros H. unfold free_remote. apply gained_release. exact H. Qed.

Lemma is_dll_loaded_owns pid name : owns (is_dll_loaded pid name) (fun _ => []).
Proof.
  unfold is_dll_loaded, open_handle. eapply owns_bind; [apply owns_acquiring|]. intros h s0 s Hs. by apply close_gained.
Qed.

Lemma inject_impl_owns process pid bytes : owns (inject_impl process pid bytes) (fun _ => []).
Proof.
  intros s. unfold inject_impl. destruct (VirtualAllocEx _ _ _) as [[addr|] w]; [|intros r; cbn; rewrite count_res_nil; lia].
  set (s1 := acquire (ResMemory addr) (at_machine w s)).
  assert (gained s s1 [ResMemory addr]) as H1 by (exact (held_acquire_all (at_machine w s) [ResMemory addr])).
  clearbody s1. unfold eff_bind, load_library.
  destruct (WriteProcessMemory _ _ _ _) as [[e|] w2]; [by apply free_gained|].
  destruct (GetModuleHandleA _ _) as [e|k32]; [by apply free_gained|].
  destruct (GetProcAddress _ _ _) as [start|]; [|by apply free_gained].
  destruct (CreateRemoteThread _ _ _ _) as [[e|thread] w3]; [by apply free_gained|].
  destruct (thread =? INVALID_HANDLE_VALUE); [by apply free_gained|].
  set (s2 := acquire (ResHandle thread) (at_machine w3 (at_machine w2 s1))).
  assert (gained s s2 [ResHandle thread; ResMemory addr]) as H2.
  { pose proof (held_acquire_all (at_machine w3 (at_machine w2 s1)) [ResHandle thread]) as Ha.
    eapply gained_eq; [exact (gained_trans s s1 s2 _ _ H1 Ha)|]. intros r. cbn [app]. rewrite !count_res_cons. lia. }
  clearbody s2. unfold wait_remote. destruct (WaitForSingleObject _ _ _) as [wr w4].
  destruct (_ && _); apply free_gained, close_gained; exact H2.
Qed.

(** [C33] An injection leaves nothing open and nothing allocated: on every
    path through [inject_dll] (a path that is not text or has a NUL, a module
    already loaded, any call that fails, a wait that times out, a library that
    does not load) the snapshot, the process and the thread handle are closed
    once and the memory reserved in the target is freed once. *)
Theorem inject_dll_releases pid path : owns (inject_dll pid path) (fun _ => []).
Proof.
  unfold inject_dll. apply owns_seq; [apply owns_lift|]. intros t. apply owns_seq; [apply owns_lift|]. intros bytes.
  apply owns_seq; [apply is_dll_loaded_owns|]. intros [|]; [apply owns_fail|].
  unfold open_handle. eapply owns_bind; [apply owns_acquiring|]. intros process s0 s Hs. unfold eff_scoped.
  pose proof (inject_impl_owns process pid bytes s) as Hi.
  destruct (inject_impl process pid bytes s) as [[[]|e|p] s'];
    apply gained_release; exact (gained_trans _ _ _ _ _ Hs Hi).
Qed.

(** A DLL is never loaded twice: when a module of the target has the
    file name of the DLL, up to the case of ASCII letters, [inject_dll] fails
    with [AlreadyInjected] after the snapshot of the modules was taken and
    closed, without a call that opens or changes the target; when no module
    has it, the process is opened. *)
Theorem inject_once pid path t name s h w :
  path_to_str path = Some t -> path_file_name path = Some name -> 0 ∉ t ->
  CreateToolhelp32Snapshot (pmach s) pid = (inr h, w) ->
  inject_dll pid path s =
    if decide (Exists (fun m => module_name m = to_ascii_lowercase name) (snapshot_modules w h))
    then (Err (Error_Process (ProcessError_AlreadyInjected (mkAlreadyInjectedError pid (to_ascii_lowercase name)))),
          close_handle h (acquire (ResHandle h) (at_machine w s)))
    else (let* process := open_handle (fun w => OpenProcess w INJECTION_RIGHTS pid)
            (injection_failed_with pid "Failed to open process with injection rights") in
          eff_scoped (close_handle process) (inject_impl process pid (t ++ [0])))
         (close_handle h (acquire (ResHandle h) (at_machine w s))).
Proof.
  intros Ht Hn H0 Hs. unfold inject_dll. rewrite Ht, Hn. assert (cstring t = Some (t ++ [0])) as Hc.
  { unfold cstring. by rewrite decide_False. }
  erewrite eff_bind_step by done. rewrite Hc. erewrite eff_bind_step by done. cbn [default from_option].
  assert (is_dll_loaded pid (to_ascii_lowercase name) s =
    (Ok (modules_loop (to_ascii_lowercase name) (snapshot_modules w h)), close_handle h (acquire (ResHandle h) (at_machine w s)))) as El.
  { unfold is_dll_loaded, eff_bind, open_handle, acquiring. by rewrite Hs, to_ascii_lowercase_idemp. }
  erewrite eff_bind_step by exact El.
  destruct (modules_loop (to_ascii_lowercase name) (snapshot_modules w h)) eqn:E.
  - rewrite decide_True; [done|]. apply Exists_exists. by apply module_search_spec.
  - rewrite decide_False; [done|]. rewrite Exists_exists, <- module_search_spec. by rewrite E.
Qed.
(** When the wait ends for any other reason than the end of the thread, the
    path that the thread was given as its argument is freed all the same, and
    the injection is reported as a success. *)
Theorem unfinished_thread_loses_path process pid bytes s addr w1 w2 k32 start thread w3 wr w4 :
  VirtualAllocEx (pmach s) process (zlen bytes) = (Some addr, w1) ->
  WriteProcessMemory w1 process addr bytes = (None, w2) ->
  GetModuleHandleA w2 (lit "kernel32.dll") = inr k32 -> GetProcAddress w2 k32 (lit "LoadLibraryA") = Some start ->
  CreateRemoteThread w2 process start addr = (inr thread, w3) -> thread <> INVALID_HANDLE_VALUE ->
  WaitForSingleObject w3 thread INJECT_TIMEOUT_MS = (wr, w4) -> wr <> WAIT_OBJECT_0 ->
  exists s', inject_impl process pid bytes s = (Ok tt, s') /\ pmach s' = VirtualFreeEx w4 process addr.
Proof.
  intros H1 H2 H3 H4 H5 Hne H6 Hwr. unfold inject_impl. rewrite H1. unfold eff_bind, load_library.
  cbn [pmach acquire at_machine]. rewrite H2, H3, H4, H5. rewrite (proj2 (Z.eqb_neq _ _) Hne).
  unfold wait_remote. cbn [pmach acquire at_machine]. rewrite H6. rewrite (proj2 (Z.eqb_neq _ _) Hwr). cbn [andb].
  by eexists.
Qed.
End Injected.

(** ** A target whose loader is slow

    The machine is the memory reserved in the target, the bytes written to
    it, and the address that a running thread still reads. *)
Module InjectSample.
Record target := mkTarget { blocks : list Z; written : list Z; reading : option Z }.
Definition api (wait_result : Z) : inject_api target := {|
  CreateToolhelp32Snapshot w pid := (inr 3, w);
  snapshot_modules w h := [encode_utf16 (lit "ntdll.dll") ++ [0; 0]; encode_utf16 (lit "KERNEL32.DLL") ++ [0; 7]];
  OpenProcess w rights pid := (inr 4, w);
  VirtualAllocEx w h n := (Some 4096, mkTarget (4096 :: blocks w) (written w) (reading w));
  VirtualFreeEx w h p := mkTarget (base.filter (fun b => b <> p) (blocks w)) (written w) (reading w);
  WriteProcessMemory w h p bytes := (None, mkTarget (blocks w) bytes (reading w));
  GetModuleHandleA w name := inr 1;
  GetProcAddress w k name := Some 77;
  CreateRemoteThread w h start p := (inr 5, mkTarget (blocks w) (written w) (Some p));
  WaitForSingleObject w h ms := (wait_result, w);
  GetExitCodeThread w h := Some 1 |}.
Definition fresh : proc_st target := mkProcSt (mkTarget [] [] None) (fun _ => 0).
Definition dll (name : string) : dll_path := mkDllPath (Some (lit "C:\" ++ lit name)) (Some (lit name)).

Lemma inject_once_witness :
  (inject_dll (api := api 258) 9 (dll "Kernel32.dll") fresh).1 =
    Err (Error_Process (ProcessError_AlreadyInjected (mkAlreadyInjectedError 9 (lit "kernel32.dll")))).
Proof.
  rewrite (inject_once (api := api 258) 9 (dll "Kernel32.dll") (lit "C:\Kernel32.dll") (lit "Kernel32.dll") fresh 3 (pmach fresh)).
  - vm_compute. reflexivity.
  - reflexivity.
  - reflexivity.
  - apply (bool_decide_unpack _). vm_compute. exact I.
  - reflexivity.
Defined.

(** The wait timed out: success, but the thread still reads from an address
    that is no longer reserved. *)
Example path_lost :
  (let '(r, s) := inject_dll (api := api 258) 9 (dll "my.dll") fresh in (r, pmach s)) =
    (Ok tt, mkTarget [] (lit "C:\my.dll" ++ [0]) (Some 4096)).
Proof. vm_compute. reflexivity. Qed.
End InjectSample.
