(* ===== verification/Token.v ===== *)
(** * Token: the access token of a process

    src/security/process_token.rs.  A SID in the buffer that
    [GetTokenInformation] filled is the list of its bytes; what Windows reads
    of such a SID is part of the class [token_api]. *)

From Stdlib Require Import ZArith Lia String Ascii.
From stdpp Require Import base list strings gmap numbers sorting.
From S2P Require Import Prelude Text Errors Sid Acl Sddl Backends Effects Resources.

Open Scope Z_scope.

(** ** Integrity levels *)

Inductive IntegrityLevel := Untrusted | Low | Medium | High | System.
#[export] Instance IntegrityLevel_eq_dec : EqDecision IntegrityLevel.
Proof. solve_decision. Defined.

Definition SECURITY_MANDATORY_LOW_RID : Z := 0x1000.
Definition SECURITY_MANDATORY_MEDIUM_RID : Z := 0x2000.
Definition SECURITY_MANDATORY_HIGH_RID : Z := 0x3000.
Definition SECURITY_MANDATORY_SYSTEM_RID : Z := 0x4000.

Definition from_rid (rid : Z) : IntegrityLevel :=
  if rid <? SECURITY_MANDATORY_LOW_RID then Untrusted
  else if rid <? SECURITY_MANDATORY_MEDIUM_RID then Low
  else if rid <? SECURITY_MANDATORY_HIGH_RID then Medium
  else if rid <? SECURITY_MANDATORY_SYSTEM_RID then High
  else System.

Definition from_label_sid (sid : str) : option IntegrityLevel :=
  text ← strip_prefix (lit "S-1-16-") sid; rid ← parse_u32 text; Some (from_rid rid).

(** The derived order. *)
Definition level_index (l : IntegrityLevel) : Z :=
  match l with Untrusted => 0 | Low => 1 | Medium => 2 | High => 3 | System => 4 end.

(** ** The calls *)

Definition TOKEN_DUPLICATE : Z := 0x2.
Definition TOKEN_QUERY : Z := 0x8.

(** A class of information whose answer contains a SID. *)
Inductive sid_class := TokenIntegrityLevel | TokenUser.

Class token_api (W : Type) := {
  OpenProcessToken : W -> Z -> Z -> (win_error + Z) * W;
  TokenElevation : W -> Z -> win_error + Z;
  TokenSidLength : W -> Z -> sid_class -> Z;
  TokenSid : W -> Z -> sid_class -> Z -> win_error + list Z;
  DuplicateToken : W -> Z -> (win_error + Z) * W;
  BuiltinAdministratorsSid : W -> win_error + list Z;
  CheckTokenMembership : W -> Z -> list Z -> win_error + bool;
  GetSidSubAuthorityCount : list Z -> Z;
  GetSidSubAuthority : list Z -> Z -> Z;
  GetLengthSid : list Z -> nat }.

Record ProcessToken := mkProcessToken { token_handle : OwnedHandle }.

Section Calls.
Context {W : Type} `{ho : !handle_api} `{api : !token_api W}.

Abbreviation P := (eff (proc_st W) Error).

(** [context(api)]. *)
Definition context (name : string) (e : win_error) : Error := windows_api_error e name.

(** A call that reads without changing anything. *)
Definition reading {A} (call : W -> win_error + A) (name : string) : P A := fun s =>
  match call (pmach s) with inr a => (Ok a, s) | inl e => (Err (context name e), s) end.

Definition token_open (process_handle : Z) : P ProcessToken :=
  let* h := open_handle (fun w => OpenProcessToken w process_handle (Z.lor TOKEN_QUERY TOKEN_DUPLICATE))
              (context "OpenProcessToken") in
  eff_ret (mkProcessToken (owned_new h)).
Definition drop_token (t : ProcessToken) (s : proc_st W) : proc_st W := drop_owned (token_handle t) s.
Definition raw (self : ProcessToken) : Z := oh_handle (token_handle self).

Definition is_elevated (self : ProcessToken) : P bool :=
  let* v := reading (fun w => TokenElevation w (raw self)) "GetTokenInformation(TokenElevation)" in
  eff_ret (negb (v =? 0)).

(** The two calls: the size, then the buffer. *)
Definition token_sid (self : ProcessToken) (c : sid_class) (parameter reason name : string) : P (list Z) := fun s =>
  let return_length := TokenSidLength (pmach s) (raw self) c in
  if return_length =? 0
  then (Err (Error_InvalidParameter (mkInvalidParameterError (lit parameter) (lit reason))), s)
  else reading (fun w => TokenSid w (raw self) c return_length) name s.

Definition integrity_level (self : ProcessToken) : P IntegrityLevel :=
  let* sid := token_sid self TokenIntegrityLevel "TokenIntegrityLevel"
    "GetTokenInformation reported a zero-length TOKEN_MANDATORY_LABEL" "GetTokenInformation(TokenIntegrityLevel)" in
  let count := GetSidSubAuthorityCount sid in
  if count =? 0
  then eff_fail (Error_InvalidParameter (mkInvalidParameterError (lit "TokenIntegrityLevel")
         (lit "mandatory label SID has no sub-authorities")))
  else eff_ret (from_rid (GetSidSubAuthority sid (count - 1))).

Definition is_admin (self : ProcessToken) : P bool :=
  let* impersonation := open_handle (fun w => DuplicateToken w (raw self)) (context "DuplicateToken") in
  eff_scoped (drop_owned (owned_new impersonation))
    (let* sid := reading BuiltinAdministratorsSid "CreateWellKnownSid" in
     reading (fun w => CheckTokenMembership w impersonation sid) "CheckTokenMembership").

Definition user_sid (self : ProcessToken) : P Sid :=
  let* sid := token_sid self TokenUser "TokenUser" "GetTokenInformation reported a zero-length TOKEN_USER"
    "GetTokenInformation(TokenUser)" in
  eff_lift (from_bytes (take (GetLengthSid sid) sid)).
End Calls.

(** ** Properties *)

Lemma from_rid_monotone a b : a <= b -> level_index (from_rid a) <= level_index (from_rid b).
Proof.
  intros H. unfold from_rid, SECURITY_MANDATORY_LOW_RID, SECURITY_MANDATORY_MEDIUM_RID, SECURITY_MANDATORY_HIGH_RID,
    SECURITY_MANDATORY_SYSTEM_RID. repeat case_match; cbn; lia.
Qed.

(** What Windows reads of the bytes of a SID. *)
Class sid_laws (W : Type) `{!token_api W} : Prop := {
  count_law p : sid_parts_ok48 p -> GetSidSubAuthorityCount (sid_bytes p) = zlen (sp_subs p);
  sub_law p i x : sid_parts_ok48 p -> sp_subs p !! i = Some x -> GetSidSubAuthority (sid_bytes p) (Z.of_nat i) = x;
  length_law p rest : sid_parts_ok48 p -> GetLengthSid (sid_bytes p ++ rest) = length (sid_bytes p) }.

Section TokenFacts.
Context {W : Type} `{ho : !handle_api} `{api : !token_api W} `{laws : !sid_laws W}.

(** The label of an integrity level: authority 16, one sub-authority. *)
Definition label (rid : Z) : sid_parts := mk_sid_parts 1 16 [rid].

Lemma label_ok rid : 0 <= rid <= u32_max -> sid_parts_ok48 (label rid).
Proof. intros H. unfold sid_parts_ok48, zlen. cbn [label sp_rev sp_auth sp_subs length]. split_and!; [lia..|by constructor]. Qed.

Lemma from_label_text rid : 0 <= rid <= u32_max -> from_label_sid (sid_text (label rid)) = Some (from_rid rid).
Proof.
  intros H. unfold from_label_sid. change (sid_text (label rid)) with (lit "S-1-16-" ++ fmt_dec rid).
  rewrite strip_prefix_app. cbn [mbind option_bind]. unfold parse_u32. by rewrite parse_fmt_dec.
Qed.

Lemma token_sid_ok self c parameter reason name s sid :
  TokenSidLength (pmach s) (raw self) c <> 0 ->
  TokenSid (pmach s) (raw self) c (TokenSidLength (pmach s) (raw self) c) = inr sid ->
  token_sid self c parameter reason name s = (Ok sid, s).
Proof. intros Hl Hs. unfold token_sid. rewrite (proj2 (Z.eqb_neq _ _) Hl). unfold reading. by rewrite Hs. Qed.

(** The integrity level of a token is the level its label names: for a
    token with the label [S-1-16-rid], [integrity_level], which reads the last
    sub-authority in the binary label, and [from_label_sid], which parses the
    text of the same SID as events carry it, both give [from_rid rid]; and a
    label with a larger RID never has a lower level. *)
Theorem integrity_level_matches_label self s rid sid :
  0 <= rid <= u32_max ->
  TokenSidLength (pmach s) (raw self) TokenIntegrityLevel <> 0 ->
  TokenSid (pmach s) (raw self) TokenIntegrityLevel (TokenSidLength (pmach s) (raw self) TokenIntegrityLevel) =
    inr (sid_bytes (label rid)) ->
  from_bytes (sid_bytes (label rid)) = Ok sid ->
  integrity_level self s = (Ok (from_rid rid), s) /\ from_label_sid (as_str sid) = Some (from_rid rid) /\
  forall rid', rid <= rid' -> level_index (from_rid rid) <= level_index (from_rid rid').
Proof.
  intros Hr Hl Hs Hb. pose proof (label_ok rid Hr) as Hok. split_and!.
  - unfold integrity_level, eff_bind. erewrite token_sid_ok by done. rewrite (count_law _ Hok). cbn [zlen length label sp_subs].
    cbn [Z.eqb Z.of_nat Pos.of_succ_nat]. by rewrite (sub_law (label rid) 0 rid Hok).
  - rewrite from_bytes_sid_bytes in Hb by done. injection Hb as <-. by apply from_label_text.
  - apply from_rid_monotone.
Qed.

(** The user of a token is read exactly: for every SID in the buffer of
    [TokenUser], whatever follows it there, [user_sid] returns that SID, and
    the text of it parses back to the same SID when the authority has at most
    32 bits. *)
Theorem token_user_round_trip self s p rest :
  sid_parts_ok p ->
  TokenSidLength (pmach s) (raw self) TokenUser <> 0 ->
  TokenSid (pmach s) (raw self) TokenUser (TokenSidLength (pmach s) (raw self) TokenUser) = inr (sid_bytes p ++ rest) ->
  exists sid, user_sid self s = (Ok sid, s) /\ as_bytes sid = sid_bytes p /\ parse (as_str sid) = Ok sid.
Proof.
  intros Hp Hl Hs. pose proof (sid_parts_ok_48 p Hp) as Hok. exists (sid_of p). split_and!; [|done|by apply parse_sid_text].
  unfold user_sid, eff_bind. erewrite token_sid_ok by done. rewrite (length_law _ rest Hok), take_app_length.
  by rewrite from_bytes_sid_bytes.
Qed.

Lemma owns_reading {A} (call : W -> win_error + A) name : owns (reading call name) (fun _ => []).
Proof. intros s. unfold reading. destruct (call (pmach s)); intros r; cbn; rewrite count_res_nil; lia. Qed.

(** [is_admin] closes the token it duplicates, on every path. *)
Theorem is_admin_releases self :
  (forall w h t w', DuplicateToken w h = (inr t, w') -> handle_ok t = true) -> owns (is_admin self) (fun _ => []).
Proof.
  intros Hv. unfold is_admin. apply owns_scoped; [apply owns_acquiring|apply valid_open; intros; by eapply Hv|].
  intros h. apply owns_seq; [apply owns_reading|]. intros sid. apply owns_reading.
Qed.
End TokenFacts.

(** ** A token *)

Module TokenSample.
Definition count_byte (sid : list Z) : Z := default 0 (sid !! 1%nat).
Definition subs_of (sid : list Z) : list (list Z) :=
  (fun i => take 4 (drop (8 + 4 * i) sid)) <$> seq 0 (Z.to_nat (count_byte sid)).
#[export] Instance api : token_api unit := {
  OpenProcessToken w p a := (inr 5, w);
  TokenElevation w h := inr 1;
  TokenSidLength w h c := 40;
  TokenSid w h c n := match c with
    | TokenIntegrityLevel => inr (sid_bytes (label 0x2100))
    | TokenUser => inr (sid_bytes (mk_sid_parts 1 5 [18]) ++ [0; 0]) end;
  DuplicateToken w h := (inr 6, w);
  BuiltinAdministratorsSid w := inr [];
  CheckTokenMembership w h sid := inr true;
  GetSidSubAuthorityCount sid := count_byte sid;
  GetSidSubAuthority sid i := from_option le_decode 0 (subs_of sid !! Z.to_nat i);
  GetLengthSid sid := (8 + 4 * Z.to_nat (count_byte sid))%nat }.

Lemma sub_at p i x : sp_subs p !! i = Some x ->
  take 4 (drop (8 + 4 * i) (sid_bytes p)) = le_encode 4 x.
Proof.
  intros Hi. unfold sid_bytes.
  change (sp_rev p :: zlen (sp_subs p) :: be_encode 6 (sp_auth p) ++ mjoin (le_encode 4 <$> sp_subs p)) with
    ((sp_rev p :: zlen (sp_subs p) :: be_encode 6 (sp_auth p)) ++ mjoin (le_encode 4 <$> sp_subs p)).
  rewrite <- drop_drop, drop_app_length' by (cbn; by rewrite ?length_be_encode).
  revert i Hi. generalize (sp_subs p). induction l as [|y l IH]; intros i Hi; [done|].
  destruct i as [|i]; cbn in Hi; [by injection Hi as ->|].
  replace (4 * S i)%nat with (4 + 4 * i)%nat by lia. rewrite <- drop_drop. by apply IH.
Qed.

#[export] Instance laws : sid_laws unit.
Proof.
  split; intros p.
  - done.
  - intros i x (_ & _ & Hn & Hf) Hi. cbn. unfold subs_of. rewrite list_lookup_fmap.
    pose proof (lookup_lt_Some _ _ _ Hi) as Hlt.
    rewrite Nat2Z.id, lookup_seq_lt by (cbn; unfold zlen; lia). cbn [fmap option_fmap option_map from_option].
    rewrite sub_at with (x := x) by done. rewrite le_decode_encode; [done|].
    pose proof (Forall_lookup_1 _ _ _ _ Hf Hi). cbn in *. lia.
  - intros rest _. change (8 + 4 * Z.to_nat (zlen (sp_subs p)) = length (sid_bytes p))%nat. unfold sid_bytes. cbn [length].
    rewrite length_app, length_sid_subs, length_be_encode. unfold zlen. lia.
Qed.
#[export] Instance handles : handle_api := {| handle_ok h := 0 <? h |}.
Definition token : ProcessToken := mkProcessToken (owned_new 5).
Definition idle : proc_st unit := mkProcSt tt (fun _ => 0).

Lemma integrity_level_matches_label_witness :
  integrity_level token idle = (Ok (from_rid 0x2100), idle) /\
  from_label_sid (as_str (sid_of (label 0x2100))) = Some (from_rid 0x2100) /\
  forall rid', 0x2100 <= rid' -> level_index (from_rid 0x2100) <= level_index (from_rid rid').
Proof.
  apply (integrity_level_matches_label token idle 0x2100 (sid_of (label 0x2100))); [lia|done|done|].
  vm_compute. reflexivity.
Defined.

Lemma token_user_round_trip_witness :
  exists sid, user_sid token idle = (Ok sid, idle) /\ as_bytes sid = sid_bytes (mk_sid_parts 1 5 [18]) /\
    parse (as_str sid) = Ok sid.
Proof.
  apply (token_user_round_trip token idle (mk_sid_parts 1 5 [18]) [0; 0]); [|done|done].
  unfold sid_parts_ok, zlen. cbn [sp_rev sp_auth sp_subs length]. split_and!; [lia..|repeat constructor; lia].
Defined.

Lemma is_admin_releases_witness : owns (is_admin token) (fun _ => []).
Proof. apply (is_admin_releases token). intros w h t w' [= <- _]. reflexivity. Defined.
End TokenSample.
