(* ===== verification/SysParse.v ===== *)
(** * SysParse: the tables and texts of the host inventory

    The pure functions of src/system/mod.rs: the SMBIOS table and its UUID,
    lists of drive names, product names, user names of profile paths, and the
    texts of hardware and network addresses.  An index out of range is a
    panic, as it is in Rust. *)

From Stdlib Require Import ZArith Lia String Ascii.
From stdpp Require Import base list strings gmap numbers sorting.
From S2P Require Import Prelude Text Unicode Errors.

Open Scope Z_scope.

(** [{:0wx}]: lower-case hexadecimal, zero-padded. *)
Definition fmt_lhex_pad (w : nat) (n : Z) : str := to_ascii_lowercase (fmt_hex_pad w n).

(** ** SMBIOS *)

(** [work_buffer[i]]. *)
Definition byte_at (buf : list Z) (i : nat) : res Error Z :=
  match buf !! i with Some b => Ok b | None => Panic IndexOutOfBounds end.

Definition format_smbios_uuid (raw : list Z) : option str :=
  match raw with
  | [r0; r1; r2; r3; r4; r5; r6; r7; r8; r9; r10; r11; r12; r13; r14; r15] =>
      Some (fmt_lhex_pad 8 (le_decode [r0; r1; r2; r3]) ++ lit "-" ++ fmt_lhex_pad 4 (le_decode [r4; r5]) ++ lit "-" ++
            fmt_lhex_pad 4 (le_decode [r6; r7]) ++ lit "-" ++ fmt_lhex_pad 2 r8 ++ fmt_lhex_pad 2 r9 ++ lit "-" ++
            mjoin (fmt_lhex_pad 2 <$> [r10; r11; r12; r13; r14; r15]))
  | _ => None
  end.

(** The inner loop: past the next two NUL bytes. *)
Fixpoint skip_strings (fuel : nat) (buf : list Z) (cursor end_ : nat) : res Error nat :=
  match fuel with
  | O => Panic OutOfFuel
  | S fuel =>
      if (cursor + 1 <? end_)%nat then
        let! a := byte_at buf cursor in
        if a =? 0 then
          let! b := byte_at buf (cursor + 1) in
          if b =? 0 then Ok (cursor + 2)%nat else skip_strings fuel buf (cursor + 1) end_
        else skip_strings fuel buf (cursor + 1) end_
      else Ok cursor
  end.

(** The outer loop: one structure. *)
Fixpoint structures_loop (fuel : nat) (buf : list Z) (cursor end_ : nat) : res Error (option str) :=
  match fuel with
  | O => Panic OutOfFuel
  | S fuel =>
      if (cursor + 4 <=? end_)%nat then
        let! ty := byte_at buf cursor in
        let! len := byte_at buf (cursor + 1) in
        let len := Z.to_nat len in
        if (len <? 4)%nat || (end_ <? cursor + len)%nat then Ok None
        else
          let! found :=
            (if (ty =? 1) && (0x19 <=? len)%nat then
               if (length buf <? cursor + 24)%nat then Panic IndexOutOfBounds
               else Ok (format_smbios_uuid (take 16 (drop (cursor + 8) buf)))
             else Ok None) in
          match found with
          | Some formatted => Ok (Some formatted)
          | None =>
              let! cursor := skip_strings (S (length buf)) buf (cursor + len) end_ in
              structures_loop fuel buf cursor end_
          end
      else Ok None
  end.

Definition parse_firmware_uuid_from_raw_smbios (work_buffer : list Z) : res Error (option str) :=
  if (length work_buffer <? 8)%nat then Ok None
  else
    let! b4 := byte_at work_buffer 4 in
    let! b5 := byte_at work_buffer 5 in
    let! b6 := byte_at work_buffer 6 in
    let! b7 := byte_at work_buffer 7 in
    let table_len := Z.to_nat (le_decode [b4; b5; b6; b7]) in
    if (length work_buffer <? 8 + table_len)%nat then Ok None
    else structures_loop (S (length work_buffer)) work_buffer 8 (8 + table_len).

(** ** Lists of names *)

Fixpoint multi_sz_loop (n i start : nat) (buf : list Z) (out : list str) : list str :=
  match n with
  | O => out
  | S n =>
      if bool_decide (buf !! i = Some 0) then
        if (i =? start)%nat then out
        else multi_sz_loop n (i + 1) (i + 1) buf (out ++ [from_utf16_lossy (take (i - start) (drop start buf))])
      else multi_sz_loop n (i + 1) start buf out
  end.
Definition parse_multi_sz (work_buffer : list Z) : list str := multi_sz_loop (length work_buffer) 0 0 work_buffer [].

Definition first_nul_terminated (work_buffer : list Z) : option str :=
  let end_ := match position (Z.eqb 0) work_buffer with Some n => n | None => length work_buffer end in
  if (end_ =? 0)%nat then None else Some (from_utf16_lossy (take end_ work_buffer)).

(** [trim_end_matches] and [rsplit] with both separators. *)
Definition is_separator (c : Z) : bool := (c =? 92) || (c =? 47).
Fixpoint trim_separators (rev_path : str) : str :=
  match rev_path with c :: rest => if is_separator c then trim_separators rest else rev_path | [] => [] end.
Definition last_component (path : str) : str :=
  match position is_separator (reverse path) with Some n => drop (length path - n) path | None => path end.
Definition username_from_profile_path (path : str) : option str :=
  let trimmed := reverse (trim_separators (reverse path)) in
  let username := trim (last_component trimmed) in
  if bool_decide (username = []) then None else Some username.

(** ** Versions *)

Definition derive_release_label (major minor build : Z) : option str :=
  if (major =? 10) && (minor =? 0) && (22000 <=? build) then Some (lit "Windows 11")
  else if (major =? 10) && (minor =? 0) then Some (lit "Windows 10")
  else if (major =? 6) && (minor =? 3) then Some (lit "Windows 8.1")
  else if (major =? 6) && (minor =? 2) then Some (lit "Windows 8")
  else if (major =? 6) && (minor =? 1) then Some (lit "Windows 7")
  else None.

Definition is_server_installation (installation_type edition_id : option str) : bool :=
  from_option (fun v => eq_ignore_ascii_case (trim v) (lit "server")) false installation_type ||
  from_option (fun v => starts_with (lit "Server") (trim v)) false edition_id.

Definition normalize_edition_id (edition_id : str) : str :=
  let e := trim edition_id in
  if decide (e = lit "Core") then lit "Home"
  else if decide (e = lit "Professional") then lit "Pro"
  else if decide (e = lit "EnterpriseS") then lit "Enterprise LTSC"
  else if decide (e = lit "ServerStandard") then lit "Server Standard"
  else if decide (e = lit "ServerDatacenter") then lit "Server Datacenter"
  else if decide (e = lit "IoTEnterprise") then lit "IoT Enterprise"
  else e.

Definition resolve_product_name_from_registry (major minor build : Z) (registry_name edition_id installation_type : option str)
    : option str :=
  let is_server := is_server_installation installation_type edition_id in
  if (major =? 10) && (minor =? 0) && (22000 <=? build) then
    match registry_name with
    | Some name =>
        match strip_prefix (lit "Windows 10") name with
        | Some rest => Some (lit "Windows 11" ++ rest)
        | None => Some name
        end
    | None =>
        match edition_id with
        | Some edition_id =>
            let edition := normalize_edition_id edition_id in
            let family := if is_server then lit "Windows Server" else lit "Windows 11" in
            let edition_suffix := if is_server then default edition (strip_prefix (lit "Server ") edition) else edition in
            if bool_decide (edition = []) then Some family else Some (family ++ lit " " ++ edition_suffix)
        | None => Some (if is_server then lit "Windows Server" else lit "Windows 11")
        end
    end
  else registry_name.

(** ** Addresses *)

Definition format_mac (bytes : list Z) (len : nat) : option str :=
  if (len =? 0)%nat || (length bytes <? len)%nat then None
  else Some (join (lit ":") (fmt_lhex_pad 2 <$> take len bytes)).

(** [Ipv4Addr::to_string] and [Ipv6Addr::to_string]. *)
Definition ipv4_to_string (octets : list Z) : str := join (lit ".") (fmt_dec <$> octets).
Definition segments (bytes : list Z) : list Z := (fun i => be_decode (take 2 (drop (2 * i) bytes))) <$> seq 0 8.
(** The first of the longest runs of zero segments: start and length. *)
Fixpoint zero_span (segs : list Z) (i : nat) (current longest : nat * nat) : nat * nat :=
  match segs with
  | [] => longest
  | x :: segs =>
      if x =? 0 then
        let current := (if (current.2 =? 0)%nat then i else current.1, S current.2) in
        zero_span segs (S i) current (if (longest.2 <? current.2)%nat then current else longest)
      else zero_span segs (S i) (0%nat, 0%nat) longest
  end.
Definition fmt_subslice (segs : list Z) : str := join (lit ":") ((fun x => to_ascii_lowercase (fmt_hex x)) <$> segs).
Definition ipv6_to_string (bytes : list Z) : str :=
  let segs := segments bytes in
  if bool_decide (take 6 segs = [0; 0; 0; 0; 0; 0xFFFF])
  then lit "::ffff:" ++ ipv4_to_string (drop 12 bytes)
  else
    let '(start, len) := zero_span segs 0 (0%nat, 0%nat) (0%nat, 0%nat) in
    if (1 <? len)%nat
    then fmt_subslice (take start segs) ++ lit "::" ++ fmt_subslice (drop (start + len) segs)
    else fmt_subslice segs.

(** ** Every table is read without a panic *)

Lemma byte_at_ok buf i : (i < length buf)%nat -> exists b, byte_at buf i = Ok b /\ buf !! i = Some b.
Proof. intros H. destruct (lookup_lt_is_Some_2 buf i H) as [b E]. exists b. unfold byte_at. by rewrite E. Qed.

Lemma skip_strings_total fuel buf cursor end_ :
  (cursor <= end_ <= length buf)%nat -> (end_ - cursor < fuel)%nat ->
  exists c, skip_strings fuel buf cursor end_ = Ok c /\ (cursor <= c <= end_)%nat.
Proof.
  revert cursor. induction fuel as [|fuel IH]; intros cursor Hc Hf; [lia|]. cbn [skip_strings].
  destruct (Nat.ltb_spec (cursor + 1) end_); [|exists cursor; split; [done|lia]].
  destruct (byte_at_ok buf cursor ltac:(lia)) as (a & -> & _). cbn [res_bind].
  destruct (IH (cursor + 1)%nat ltac:(lia) ltac:(lia)) as (c & E & Hr).
  destruct (a =? 0); [|exists c; split; [done|lia]].
  destruct (byte_at_ok buf (cursor + 1) ltac:(lia)) as (b & -> & _). cbn [res_bind].
  destruct (b =? 0); [exists (cursor + 2)%nat; split; [done|lia]|exists c; split; [done|lia]].
Qed.

Lemma structures_loop_total fuel buf cursor end_ :
  (cursor <= end_ <= length buf)%nat -> (end_ - cursor < fuel)%nat ->
  exists o, structures_loop fuel buf cursor end_ = Ok o.
Proof.
  revert cursor. induction fuel as [|fuel IH]; intros cursor Hc Hf; [lia|]. cbn [structures_loop].
  destruct (Nat.leb_spec (cursor + 4) end_); [|by eexists].
  destruct (byte_at_ok buf cursor ltac:(lia)) as (ty & -> & _).
  destruct (byte_at_ok buf (cursor + 1) ltac:(lia)) as (len & -> & _). cbn [res_bind].
  destruct (Nat.ltb_spec (Z.to_nat len) 4); [by eexists|].
  destruct (Nat.ltb_spec end_ (cursor + Z.to_nat len)); [by eexists|]. cbn [orb].
  assert (exists found, (if (ty =? 1) && (25 <=? Z.to_nat len)%nat
    then if (length buf <? cursor + 24)%nat then Panic IndexOutOfBounds
         else Ok (format_smbios_uuid (take 16 (drop (cursor + 8) buf))) else Ok None : res Error (option str)) = Ok found)
    as [found ->].
  { destruct (ty =? 1); [|by eexists]. destruct (Nat.leb_spec 25 (Z.to_nat len)); [|by eexists]. cbn [andb].
    destruct (Nat.ltb_spec (length buf) (cursor + 24)); [lia|by eexists]. }
  cbn [res_bind]. destruct found; [by eexists|].
  destruct (skip_strings_total (S (length buf)) buf (cursor + Z.to_nat len) end_ ltac:(lia) ltac:(lia)) as (c & -> & Hr).
  cbn [res_bind]. apply IH; lia.
Qed.

(** The firmware table is read without a panic and the reading ends,
    whatever the firmware put into the buffer: a table shorter than its
    header or than the length it states, structures that are too short, that
    run past the end or whose string list is not terminated. *)
Theorem smbios_parse_total buf : exists o, parse_firmware_uuid_from_raw_smbios buf = Ok o.
Proof.
  unfold parse_firmware_uuid_from_raw_smbios. destruct (Nat.ltb_spec (length buf) 8); [by eexists|].
  destruct (byte_at_ok buf 4 ltac:(lia)) as (b4 & -> & _), (byte_at_ok buf 5 ltac:(lia)) as (b5 & -> & _),
    (byte_at_ok buf 6 ltac:(lia)) as (b6 & -> & _), (byte_at_ok buf 7 ltac:(lia)) as (b7 & -> & _). cbn [res_bind].
  destruct (Nat.ltb_spec (length buf) (8 + Z.to_nat (le_decode [b4; b5; b6; b7]))); [by eexists|].
  apply structures_loop_total; lia.
Qed.

(** ** The UUID of a well-formed table *)

(** A structure: its type, the rest of the formatted area (from the handle
    on), and its strings. *)
Record structure := mkStructure { st_type : Z; st_rest : list Z; st_strings : list (list Z) }.

Fixpoint string_area (strings : list (list Z)) : list Z :=
  match strings with [] => [0] | s :: strings => s ++ 0 :: string_area strings end.
Definition structure_tail (strings : list (list Z)) : list Z :=
  match strings with [] => [0; 0] | _ => string_area strings end.
Definition encode_structure (x : structure) : list Z :=
  [st_type x; 2 + zlen (st_rest x)] ++ st_rest x ++ structure_tail (st_strings x).
Definition structure_ok (x : structure) : Prop :=
  2 <= zlen (st_rest x) <= 253 /\ Forall (fun s => s <> [] /\ Forall (fun b => b <> 0) s) (st_strings x).

(** The system information structure has the UUID at offset 8. *)
Definition uuid_of (x : structure) : option str :=
  if (st_type x =? 1) && (0x19 <=? 2 + zlen (st_rest x)) then format_smbios_uuid (take 16 (drop 6 (st_rest x))) else None.
Definition first_uuid (xs : list structure) : option str := head (omap uuid_of xs).

Definition encode_table (prefix : list Z) (xs : list structure) (extra : list Z) : list Z :=
  let table := mjoin (encode_structure <$> xs) in prefix ++ le_encode 4 (zlen table) ++ table ++ extra.

(** Its only two NUL bytes in a row are the last two. *)
Inductive double_nul : list Z -> Prop :=
  | double_nul_end : double_nul [0; 0]
  | double_nul_cons b rest : b <> 0 \/ head rest <> Some 0 -> double_nul rest -> double_nul (b :: rest).

Lemma double_nul_run s rest : Forall (fun b => b <> 0) s -> double_nul rest -> double_nul (s ++ rest).
Proof. intros Hs Hr. induction Hs; cbn; [done|]. constructor; [by left|done]. Qed.

Lemma double_nul_strings strings :
  Forall (fun s => s <> [] /\ Forall (fun b => b <> 0) s) strings -> double_nul (0 :: string_area strings).
Proof.
  induction 1 as [|s strings [Hne Hs] _ IH]; cbn; [constructor|]. constructor.
  - right. destruct Hs; [done|]. cbn. congruence.
  - by apply double_nul_run.
Qed.

Lemma double_nul_tail strings :
  Forall (fun s => s <> [] /\ Forall (fun b => b <> 0) s) strings -> double_nul (structure_tail strings).
Proof.
  intros H. destruct H as [|s strings [_ Hs] H]; cbn; [constructor|]. apply double_nul_run; [done|]. by apply double_nul_strings.
Qed.

Lemma byte_at_app pre x post : byte_at (pre ++ x :: post) (length pre) = Ok x.
Proof. unfold byte_at. by rewrite list_lookup_middle. Qed.

Lemma skip_double_nul area pre post fuel end_ :
  double_nul area -> (length area < fuel)%nat -> (length (pre ++ area) <= end_)%nat ->
  skip_strings fuel (pre ++ area ++ post) (length pre) end_ = Ok (length (pre ++ area)).
Proof.
  intros H. revert pre fuel. induction H as [|b rest Hb Hrest IH]; intros pre fuel Hf He.
  - destruct fuel as [|fuel]; [cbn in *; lia|]. cbn [skip_strings]. rewrite length_app in *. cbn [length] in *.
    destruct (Nat.ltb_spec (length pre + 1) end_); [|lia].
    change ([0; 0] ++ post) with (0 :: 0 :: post). rewrite byte_at_app. cbn [res_bind Z.eqb].
    replace (length pre + 1)%nat with (length (pre ++ [0])) by (rewrite length_app; cbn; lia).
    rewrite (cons_middle 0 pre (0 :: post)), app_assoc, byte_at_app. cbn [res_bind Z.eqb]. f_equal; lia.
  - destruct fuel as [|fuel]; [cbn in *; lia|]. cbn [skip_strings length] in *.
    assert (0 < length rest)%nat as Hlen by (destruct Hrest; cbn; lia).
    rewrite length_app in He. cbn [length] in He.
    destruct (Nat.ltb_spec (length pre + 1) end_); [|lia].
    cbn [app]. rewrite byte_at_app. cbn [res_bind].
    assert (skip_strings fuel (pre ++ b :: rest ++ post) (length pre + 1) end_ = Ok (length (pre ++ b :: rest))) as E.
    { rewrite (cons_middle b pre (rest ++ post)), (cons_middle b pre rest), !app_assoc.
      replace (length pre + 1)%nat with (length (pre ++ [b])) by (rewrite length_app; cbn; lia).
      rewrite <- (app_assoc (pre ++ [b]) rest post). apply IH; [lia|]. rewrite !length_app. cbn. lia. }
    destruct (Z.eqb_spec b 0) as [->|]; [|exact E].
    destruct rest as [|c rest]; [cbn in Hlen; lia|]. cbn [app] in E |- *.
    assert (byte_at (pre ++ 0 :: c :: rest ++ post) (length pre + 1) = Ok c) as ->.
    { replace (length pre + 1)%nat with (length (pre ++ [0])) by (rewrite length_app; cbn; lia).
      by rewrite (cons_middle 0 pre (c :: rest ++ post)), app_assoc, byte_at_app. }
    cbn [res_bind Z.eqb].
    rewrite (proj2 (Z.eqb_neq c 0)); [exact E|]. destruct Hb as [|Hb]; [done|]. cbn in Hb. congruence.
Qed.

Lemma first_uuid_cons x xs : first_uuid (x :: xs) = match uuid_of x with Some u => Some u | None => first_uuid xs end.
Proof. unfold first_uuid. cbn. by destruct (uuid_of x). Qed.

(** The test of one structure, at its place in the buffer. *)
Lemma uuid_at pre x post :
  (if (st_type x =? 1) && (25 <=? 2 + length (st_rest x))%nat
   then if (length (pre ++ encode_structure x ++ post) <? length pre + 24)%nat then Panic IndexOutOfBounds
        else Ok (format_smbios_uuid (take 16 (drop (length pre + 8) (pre ++ encode_structure x ++ post))))
   else Ok None : res Error (option str)) = Ok (uuid_of x).
Proof.
  unfold uuid_of, zlen. destruct (st_type x =? 1); [|done]. cbn [andb].
  replace (25 <=? 2 + Z.of_nat (length (st_rest x))) with (25 <=? 2 + length (st_rest x))%nat
    by (destruct (Nat.leb_spec 25 (2 + length (st_rest x))), (Z.leb_spec 25 (2 + Z.of_nat (length (st_rest x)))); lia).
  destruct (Nat.leb_spec 25 (2 + length (st_rest x))); [|done].
  destruct (Nat.ltb_spec (length (pre ++ encode_structure x ++ post)) (length pre + 24)) as [Hlt|_].
  { unfold encode_structure in Hlt. rewrite !length_app in Hlt. cbn in Hlt. lia. }
  do 2 f_equal. rewrite <- drop_drop, drop_app_length. unfold encode_structure. rewrite <- !app_assoc. cbn [app drop].
  rewrite drop_app_le by lia. rewrite take_app_le; [done|]. rewrite length_drop. lia.
Qed.

Lemma structures_loop_table xs pre post fuel :
  Forall structure_ok xs -> (length xs < fuel)%nat ->
  structures_loop fuel (pre ++ mjoin (encode_structure <$> xs) ++ post) (length pre)
    (length (pre ++ mjoin (encode_structure <$> xs))) = Ok (first_uuid xs).
Proof.
  intros Hok. revert pre fuel. induction Hok as [|x xs [Hlen Hstr] _ IH]; intros pre fuel Hf;
    (destruct fuel as [|fuel]; [lia|]); cbn [structures_loop fmap list_fmap mjoin list_join].
  { rewrite app_nil_r. destruct (Nat.leb_spec (length pre + 4) (length pre)); [lia|done]. }
  set (table := mjoin (encode_structure <$> xs)) in *. unfold zlen in Hlen.
  assert (4 <= length (encode_structure x))%nat as H4.
  { unfold encode_structure. rewrite !length_app. cbn. lia. }
  replace (length (pre ++ encode_structure x ++ table)) with (length pre + (length (encode_structure x) + length table))%nat
    by (rewrite !length_app; lia).
  destruct (Nat.leb_spec (length pre + 4) (length pre + (length (encode_structure x) + length table))); [|lia].
  assert (byte_at (pre ++ (encode_structure x ++ table) ++ post) (length pre) = Ok (st_type x)) as -> by apply byte_at_app.
  assert (byte_at (pre ++ (encode_structure x ++ table) ++ post) (length pre + 1) = Ok (2 + Z.of_nat (length (st_rest x)))) as ->.
  { replace (length pre + 1)%nat with (length (pre ++ [st_type x])) by (rewrite length_app; cbn; lia).
    unfold encode_structure. cbn [app]. rewrite cons_middle, (app_assoc pre). apply byte_at_app. }
  cbn [res_bind]. replace (Z.to_nat (2 + Z.of_nat (length (st_rest x)))) with (2 + length (st_rest x))%nat by lia.
  assert (2 + length (st_rest x) + length (structure_tail (st_strings x)) = length (encode_structure x))%nat as He.
  { unfold encode_structure. rewrite !length_app. cbn. lia. }
  destruct (Nat.ltb_spec (2 + length (st_rest x)) 4); [lia|].
  destruct (Nat.ltb_spec (length pre + (length (encode_structure x) + length table)) (length pre + (2 + length (st_rest x)))); [lia|].
  cbn [orb]. rewrite <- (app_assoc (encode_structure x)), uuid_at. cbn [res_bind]. rewrite first_uuid_cons.
  destruct (uuid_of x); [done|].
  assert (skip_strings (S (length (pre ++ encode_structure x ++ table ++ post))) (pre ++ encode_structure x ++ table ++ post)
    (length pre + (2 + length (st_rest x))) (length pre + (length (encode_structure x) + length table)) =
    Ok (length (pre ++ encode_structure x))) as ->.
  { replace (length pre + (2 + length (st_rest x)))%nat with (length (pre ++ [st_type x; 2 + zlen (st_rest x)] ++ st_rest x))
      by (rewrite !length_app; cbn; lia).
    replace (pre ++ encode_structure x ++ table ++ post) with
      ((pre ++ [st_type x; 2 + zlen (st_rest x)] ++ st_rest x) ++ structure_tail (st_strings x) ++ table ++ post)
      by (unfold encode_structure; by rewrite <- !app_assoc).
    replace (pre ++ encode_structure x) with ((pre ++ [st_type x; 2 + zlen (st_rest x)] ++ st_rest x) ++ structure_tail (st_strings x))
      by (unfold encode_structure; by rewrite <- !app_assoc).
    apply skip_double_nul; [by apply double_nul_tail|rewrite !length_app; lia|]. rewrite !length_app. cbn [length]. lia. }
  cbn [res_bind]. rewrite app_assoc. rewrite <- (IH (pre ++ encode_structure x) fuel) by (cbn in Hf; lia). f_equal.
  rewrite !length_app. lia.
Qed.

(** The UUID of the machine is found: in a table of well-formed
    structures (each with its formatted area and a terminated list of
    strings), after any four bytes of version and before any bytes that the
    stated length does not cover, the parser returns the UUID of the first
    system information structure that is long enough to have one, in the
    mixed byte order of the standard, and nothing when there is none. *)
Theorem smbios_uuid_found prefix xs extra :
  length prefix = 4%nat -> Forall structure_ok xs -> zlen (mjoin (encode_structure <$> xs)) < 2 ^ 32 ->
  parse_firmware_uuid_from_raw_smbios (encode_table prefix xs extra) = Ok (first_uuid xs).
Proof.
  intros Hp Hok Hlen. unfold encode_table. set (table := mjoin (encode_structure <$> xs)) in *.
  assert (forall l : list Z, length l = 4%nat -> exists a b c d, l = [a; b; c; d]) as H4.
  { intros l. do 5 (destruct l as [|? l]; try done). by eauto. }
  destruct (H4 _ Hp) as (p0 & p1 & p2 & p3 & ->).
  destruct (H4 _ (length_le_encode 4 (zlen table))) as (b0 & b1 & b2 & b3 & Eb). rewrite Eb.
  unfold parse_firmware_uuid_from_raw_smbios. cbn [app length].
  destruct (Nat.ltb_spec (S (S (S (S (S (S (S (S (length (table ++ extra)))))))))) 8); [lia|].
  cbn [byte_at lookup list_lookup res_bind]. unfold byte_at. cbn [lookup list_lookup res_bind].
  rewrite <- Eb, le_decode_encode by (unfold zlen in *; lia). unfold zlen. rewrite Nat2Z.id, length_app.
  destruct (Nat.ltb_spec (S (S (S (S (S (S (S (S (length table + length extra)))))))))%nat (8 + length table)); [lia|].
  rewrite <- (structures_loop_table xs [p0; p1; p2; p3; b0; b1; b2; b3] extra (S (S (S (S (S (S (S (S (S (length table + length extra)))))))))) Hok).
  - by rewrite length_app.
  - assert (length xs <= length table)%nat; [|lia]. unfold table. clear. induction xs as [|x xs IH]; [cbn; lia|].
    change (mjoin (encode_structure <$> x :: xs)) with (encode_structure x ++ mjoin (encode_structure <$> xs)).
    rewrite length_app. unfold encode_structure at 1. rewrite length_app. cbn [length]. lia.
Qed.

(** The sample UUID of the standard, in the second of three structures. *)
Definition sample_table : list structure :=
  [mkStructure 0 (replicate 22 7) [lit "vendor"; lit "1.0"];
   mkStructure 1 ([1; 0] ++ [1; 2; 3; 4] ++ [0x33; 0x22; 0x11; 0x00; 0x55; 0x44; 0x77; 0x66; 0x88; 0x99; 0xAA; 0xBB; 0xCC; 0xDD; 0xEE; 0xFF] ++ [6]) [];
   mkStructure 127 [0; 0] []].

Lemma smbios_uuid_found_witness :
  parse_firmware_uuid_from_raw_smbios (encode_table [0; 3; 2; 0] sample_table [9; 9]) = Ok (first_uuid sample_table).
Proof.
  apply (smbios_uuid_found [0; 3; 2; 0] sample_table [9; 9]); [done| |vm_compute; done].
  repeat constructor; try (vm_compute; discriminate); discriminate.
Defined.

Example sample_uuid : first_uuid sample_table = Some (lit "00112233-4455-6677-8899-aabbccddeeff").
Proof. vm_compute. reflexivity. Qed.

(** ** Lists of drive names *)

Definition multi_sz (names : list str) (rest : list Z) : list Z :=
  mjoin ((fun s => encode_utf16 s ++ [0]) <$> names) ++ 0 :: rest.

Lemma multi_sz_run us n i start buf out tail :
  Forall (fun u => u <> 0) us -> drop i buf = us ++ tail ->
  multi_sz_loop (length us + n) i start buf out = multi_sz_loop n (i + length us) start buf out.
Proof.
  intros Hus. revert i. induction Hus as [|u us Hu _ IH]; intros i Hd; cbn [length Nat.add multi_sz_loop].
  - by rewrite Nat.add_0_r.
  - assert (buf !! i = Some u) as Hi by (rewrite <- (Nat.add_0_r i), <- lookup_drop, Hd; done).
    rewrite Hi, bool_decide_false by congruence. rewrite IH; [f_equal; lia|]. rewrite <- drop_drop, Hd. done.
Qed.

Lemma multi_sz_names names n i buf rest out :
  Forall (fun s => s <> [] /\ nul_free s) names -> drop i buf = multi_sz names rest ->
  (length (multi_sz names rest) <= n)%nat -> multi_sz_loop n i i buf out = out ++ names.
Proof.
  intros Hn. revert n i out. induction Hn as [|s names [Hne Hs] _ IH]; intros n i out Hd Hl.
  - destruct n as [|n]; [cbn in Hl; lia|]. cbn [multi_sz_loop].
    assert (buf !! i = Some 0) as Hi by (rewrite <- (Nat.add_0_r i), <- lookup_drop, Hd; done).
    rewrite Hi, bool_decide_true, Nat.eqb_refl by done. by rewrite app_nil_r.
  - pose proof (nul_free_units s Hs) as Hnz. destruct (text_units s (nul_free_text s Hs)) as [_ Htext].
    assert (encode_utf16 s <> []) as Hu by (intros E; by apply Hne, encode_utf16_empty).
    assert (multi_sz (s :: names) rest = encode_utf16 s ++ 0 :: multi_sz names rest) as Em.
    { unfold multi_sz. cbn. by rewrite <- !app_assoc. }
    rewrite Em in Hd, Hl. rewrite length_app in Hl. cbn [length] in Hl.
    replace n with (length (encode_utf16 s) + S (n - S (length (encode_utf16 s))))%nat by lia.
    rewrite (multi_sz_run _ _ _ _ _ _ _ Hnz Hd). cbn [multi_sz_loop].
    assert (buf !! (i + length (encode_utf16 s))%nat = Some 0) as Hz.
    { rewrite <- lookup_drop, Hd. by rewrite list_lookup_middle. }
    rewrite Hz, bool_decide_true by done.
    destruct (Nat.eqb_spec (i + length (encode_utf16 s)) i) as [E|_]; [destruct (encode_utf16 s); [done|cbn in E; lia]|].
    replace (i + length (encode_utf16 s) - i)%nat with (length (encode_utf16 s)) by lia.
    rewrite Hd, take_app_length, Htext, IH; [by rewrite <- app_assoc| |lia].
    rewrite <- !drop_drop, Hd, drop_app_length. done.
Qed.

(** A list of names that Windows returns is read completely: every name
    up to the empty one that ends the list, whatever the buffer holds behind. *)
Theorem multi_sz_round_trip names rest :
  Forall (fun s => s <> [] /\ nul_free s) names -> parse_multi_sz (multi_sz names rest) = names.
Proof. intros Hn. unfold parse_multi_sz. by apply (multi_sz_names names _ 0 _ rest []). Qed.

Lemma multi_sz_round_trip_witness :
  parse_multi_sz (multi_sz [lit "C:\"; lit "D:\"] [7; 0; 0]) = [lit "C:\"; lit "D:\"].
Proof.
  apply (multi_sz_round_trip [lit "C:\"; lit "D:\"] [7; 0; 0]).
  apply Forall_cons_2; [split; [discriminate|ascii_text (lit "C:\")]|].
  apply Forall_cons_2; [split; [discriminate|ascii_text (lit "D:\")]|apply Forall_nil_2].
Defined.

(** Some of the source's own tests. *)
Example product_names :
  resolve_product_name_from_registry 10 0 26100 (Some (lit "Windows 10 Pro")) (Some (lit "Professional")) (Some (lit "Client"))
    = Some (lit "Windows 11 Pro") /\
  resolve_product_name_from_registry 10 0 26100 None (Some (lit "ServerStandard")) (Some (lit "Server"))
    = Some (lit "Windows Server Standard") /\
  username_from_profile_path (lit "C:\Users\alice\") = Some (lit "alice") /\
  ipv6_to_string (replicate 15 0 ++ [1]) = lit "::1" /\
  ipv6_to_string ([0x20; 0x01; 0x0d; 0xb8] ++ replicate 11 0 ++ [0x2a]) = lit "2001:db8::2a" /\
  format_mac [0; 0x1b; 0xff; 0; 0; 0; 0; 0] 3 = Some (lit "00:1b:ff").
Proof. split_and!; vm_compute; reflexivity. Qed.
