(* ===== verification/SystemInfo.v ===== *)
(** * SystemInfo: the host inventory and the power actions

    src/system/mod.rs and types.rs.  The machine is a registry (class
    [registry_api]) with the other calls (class [system_api]); registry
    functions run in it through [lift_reg].  Handles of disks and tokens are
    counted in [held]. *)

From Stdlib Require Import ZArith Lia String Ascii.
From stdpp Require Import base list strings gmap numbers sorting.
From S2P Require Import Prelude Text Unicode Errors ErrorText Backends Effects Resources IoError Registry SysParse.

Open Scope Z_scope.

(** ** Types *)

Inductive SnapshotSection := Identity | Os | Guids | Bios | LogicalDisks | PhysicalDisks | Network | SectionUsers.
#[export] Instance SnapshotSection_eq_dec : EqDecision SnapshotSection.
Proof. solve_decision. Defined.
Record SnapshotSectionError := mkSectionError { se_section : SnapshotSection; se_message : str }.

Record OsInfo := mkOsInfo {
  product_name : option str; release_label : option str; build_number : Z; major_version : Z; minor_version : Z }.
Record GuidInfo := mkGuidInfo { machine_guid_of : option str; firmware_guid : option str }.
Record BiosInfo := mkBiosInfo {
  vendor : option str; version : option str; release_date : option str; system_manufacturer : option str;
  system_product_name : option str }.
Record LogicalDiskInfo := mkLogicalDiskInfo {
  ld_root : str; volume_label : option str; file_system : option str; total_bytes : Z; free_bytes_available : Z;
  total_free_bytes : Z }.
Record PhysicalDiskInfo := mkPhysicalDiskInfo { pd_path : str; size_bytes : Z }.
Record NetworkInterfaceInfo := mkNetworkInterfaceInfo { ni_name : str; mac_address : option str; addresses : list str }.
Record UserInfo := mkUserInfo { username : str; user_sid : option str; source : str }.
Record HostSnapshot := mkHostSnapshot {
  hs_hostname : str; hs_os : OsInfo; hs_guids : GuidInfo; hs_bios : option BiosInfo;
  hs_logical_disks : list LogicalDiskInfo; hs_physical_disks : list PhysicalDiskInfo;
  hs_networks : list NetworkInterfaceInfo; hs_users : list UserInfo; hs_section_errors : list SnapshotSectionError }.

Inductive PowerAction := Shutdown | Restart.
Record PowerActionOptions := mkPowerOptions {
  force_apps_closed : bool; timeout_secs : Z; planned : bool; reason_code : option Z; comment : option str }.
Inductive KnownFolder := ProgramData | ProgramFiles | LocalAppData | RoamingAppData.
Record LocalDateTime := mkLocalDateTime { year : Z; month : Z; day : Z; hour : Z; minute : Z; second : Z }.

(** ** The calls *)

(** A socket address by its family, and an adapter with the strings its
    pointers lead to (the units up to the NUL). *)
Inductive sockaddr := SockV4 (octets : list Z) | SockV6 (bytes : list Z) | SockOther.
Record adapter := mkAdapter {
  FriendlyName : option (list Z); Description : option (list Z); PhysicalAddress : list Z; PhysicalAddressLength : nat;
  Unicast : list (option sockaddr) }.

Class system_api (W : Type) := {
  env_var : W -> str -> option str;
  RtlGetVersion : W -> Z * (Z * Z * Z);
  GetLogicalDriveStringsW : W -> nat -> nat * list Z;
  GetDiskFreeSpaceExW : W -> list Z -> win_error + (Z * Z * Z);
  GetVolumeInformationW : W -> list Z -> list Z * list Z;
  CreateFileW : W -> list Z -> (win_error + Z) * W;
  DiskGetLength : W -> Z -> option Z;
  GetAdaptersAddresses : W -> Z -> Z * Z * list adapter;
  GetSystemFirmwareTable : W -> nat -> nat * list Z;
  last_error : W -> win_error;
  OpenProcessToken : W -> (win_error + Z) * W;
  LookupPrivilegeValueW : W -> list Z -> win_error + Z;
  AdjustTokenPrivileges : W -> Z -> Z -> option win_error * W;
  GetLastError : W -> Z;
  InitiateSystemShutdownExW : W -> option (list Z) -> Z -> bool -> bool -> Z -> option win_error * W;
  SHGetKnownFolderPath : W -> KnownFolder -> (win_error + (Z * list Z)) * W;
  FileTimeToLocal : W -> Z * Z -> (win_error + (win_error + LocalDateTime)) }.

Definition other_error (message : str) : Error := Error_Other (mkOtherError message).

Section Calls.
Context {W : Type} `{ho : !handle_api} `{rapi : !registry_api W} `{api : !system_api W}.
Context `{wt : !win_text}.

Abbreviation St := (proc_st (reg_st W)).
Abbreviation P := (eff (proc_st (reg_st W)) Error).

Definition lift_reg {A} (m : eff (reg_st W) Error A) : P A := fun s =>
  let '(r, w) := m (pmach s) in (r, at_machine w s).
Definition read_string (hive : Hive) (path name : str) : P str := lift_reg (read_typed TString hive path name).
(** [.ok()]. *)
Definition eff_ok {A} (m : P A) : P (option A) := fun s =>
  match m s with (Ok a, s) => (Ok (Some a), s) | (Err _, s) => (Ok None, s) | (Panic p, s) => (Panic p, s) end.
Definition machine (s : St) : W := reg (pmach s).
(** A call that changes nothing. *)
Definition ask {A} (call : W -> A) : P A := fun s => (Ok (call (machine s)), s).
Definition set_machine (w : W) (s : St) : St := at_machine (mkRegSt w (opened (pmach s)) (reg_closed (pmach s))) s.
(** The resource tracking of [Resources], on the machine inside. *)
Definition with_machine {A} (call : W -> A * W) (r : reg_st W) : A * reg_st W :=
  let '(a, w) := call (reg r) in (a, mkRegSt w (opened r) (reg_closed r)).

(** ** Identity, version, GUIDs, BIOS *)

Definition registry_hostname : P str :=
  let* value := read_string LocalMachine (lit "SYSTEM\CurrentControlSet\Control\ComputerName\ActiveComputerName")
                  (lit "ComputerName") in
  if bool_decide (trim value = []) then eff_fail (other_error (lit "hostname is empty")) else eff_ret value.
Definition hostname : P str :=
  let* value := ask (fun w => env_var w (lit "COMPUTERNAME")) in
  match value with
  | Some value => if bool_decide (trim value = []) then registry_hostname else eff_ret value
  | None => registry_hostname
  end.

Definition CURRENT_VERSION_KEY : str := lit "SOFTWARE\Microsoft\Windows NT\CurrentVersion".
Definition resolve_product_name (major minor build : Z) : P (option str) :=
  let* registry_name := eff_ok (read_string LocalMachine CURRENT_VERSION_KEY (lit "ProductName")) in
  let* edition_id := eff_ok (read_string LocalMachine CURRENT_VERSION_KEY (lit "EditionID")) in
  let* installation_type := eff_ok (read_string LocalMachine CURRENT_VERSION_KEY (lit "InstallationType")) in
  eff_ret (resolve_product_name_from_registry major minor build registry_name edition_id installation_type).

Definition query_real_os_version : P (Z * Z * Z) := fun s =>
  let '(status, v) := RtlGetVersion (machine s) in
  if status <? 0
  then (Err (other_error (lit "RtlGetVersion failed with NTSTATUS 0x" ++ fmt_hex_pad 8 (wrap 32 status))), s)
  else (Ok v, s).
Definition os_info : P OsInfo :=
  let* v := query_real_os_version in
  let '(major, minor, build) := v in
  let* name := resolve_product_name major minor build in
  eff_ret (mkOsInfo name (derive_release_label major minor build) build major minor).

Definition machine_guid : P str :=
  let* guid := read_string LocalMachine (lit "SOFTWARE\Microsoft\Cryptography") (lit "MachineGuid") in
  if bool_decide (trim guid = []) then eff_fail (other_error (lit "MachineGuid registry value is empty")) else eff_ret guid.

Definition firmware_guid_from_smbios : P (option str) := fun s =>
  let '(required, _) := GetSystemFirmwareTable (machine s) 0 in
  if (required =? 0)%nat then (Ok None, s)
  else
    let '(written, work_buffer) := GetSystemFirmwareTable (machine s) required in
    if (written =? 0)%nat then (Err (windows_api_error (last_error (machine s)) "GetSystemFirmwareTable"), s)
    else if (length work_buffer <? written)%nat
    then (Err (other_error (lit "GetSystemFirmwareTable returned larger payload than buffer")), s)
    else (parse_firmware_uuid_from_raw_smbios work_buffer, s).

Definition guid_info : P GuidInfo :=
  let* machine_guid := eff_ok machine_guid in
  let* firmware_guid := eff_ok firmware_guid_from_smbios in
  eff_ret (mkGuidInfo machine_guid (mjoin firmware_guid)).

Definition bios_info : P (option BiosInfo) :=
  let path := lit "HARDWARE\DESCRIPTION\System\BIOS" in
  let* vendor := eff_ok (read_string LocalMachine path (lit "BIOSVendor")) in
  let* version := eff_ok (read_string LocalMachine path (lit "BIOSVersion")) in
  let* release_date := eff_ok (read_string LocalMachine path (lit "BIOSReleaseDate")) in
  let* system_manufacturer := eff_ok (read_string LocalMachine path (lit "SystemManufacturer")) in
  let* system_product_name := eff_ok (read_string LocalMachine path (lit "SystemProductName")) in
  if bool_decide (vendor = None) && bool_decide (version = None) && bool_decide (release_date = None) &&
     bool_decide (system_manufacturer = None) && bool_decide (system_product_name = None)
  then eff_ret None
  else eff_ret (Some (mkBiosInfo vendor version release_date system_manufacturer system_product_name)).

(** ** Disks *)

(** The loop over the roots. *)
Fixpoint roots_loop (roots : list str) (filter : LogicalDiskInfo -> bool) (out_disks : list LogicalDiskInfo)
    : P (list LogicalDiskInfo) :=
  match roots with
  | [] => eff_ret out_disks
  | root :: roots => fun s =>
      match GetDiskFreeSpaceExW (machine s) (to_utf16_nul root) with
      | inl e => (Err (windows_api_error e "GetDiskFreeSpaceExW"), s)
      | inr (free_bytes_available, total_bytes, total_free_bytes) =>
          let '(label, fs) := GetVolumeInformationW (machine s) (to_utf16_nul root) in
          let disk := mkLogicalDiskInfo root (first_nul_terminated label) (first_nul_terminated fs) total_bytes
                        free_bytes_available total_free_bytes in
          roots_loop roots filter (if filter disk then out_disks ++ [disk] else out_disks) s
      end
  end.
Definition logical_disks_with_filter (filter : LogicalDiskInfo -> bool) : P (list LogicalDiskInfo) := fun s =>
  let '(chars, work_buffer) := GetLogicalDriveStringsW (machine s) 512 in
  let failed := (Err (windows_api_error (last_error (machine s)) "GetLogicalDriveStringsW"), s) in
  if (chars =? 0)%nat then failed
  else if (512 <? chars)%nat then
    let '(second, work_buffer) := GetLogicalDriveStringsW (machine s) chars in
    if (second =? 0)%nat then failed else roots_loop (parse_multi_sz work_buffer) filter [] s
  else roots_loop (parse_multi_sz work_buffer) filter [] s.
Definition logical_disks : P (list LogicalDiskInfo) := logical_disks_with_filter (fun _ => true).

(** One drive of the probe: [continue] is [None]. *)
Definition probe_drive (index : nat) : P (option PhysicalDiskInfo) :=
  let path := lit "\\.\PhysicalDrive" ++ fmt_dec (Z.of_nat index) in
  let* h := eff_ok (open_handle (with_machine (fun w => CreateFileW w (to_utf16_nul path))) (fun e => windows_api_error e "CreateFileW")) in
  match h with
  | None => eff_ret None
  | Some h =>
      eff_scoped (drop_owned (owned_new h))
        (let* length := ask (fun w => DiskGetLength w h) in
         eff_ret (length ← length; Some (mkPhysicalDiskInfo path (Z.max length 0))))
  end.
Fixpoint drives_loop (indices : list nat) (filter : PhysicalDiskInfo -> bool) (out_disks : list PhysicalDiskInfo)
    : P (list PhysicalDiskInfo) :=
  match indices with
  | [] => eff_ret out_disks
  | i :: indices =>
      let* d := probe_drive i in
      drives_loop indices filter (match d with Some d => if filter d then out_disks ++ [d] else out_disks | None => out_disks end)
  end.
Definition physical_disks_with_filter (filter : PhysicalDiskInfo -> bool) : P (list PhysicalDiskInfo) :=
  drives_loop (seq 0 64) filter [].
Definition physical_disks : P (list PhysicalDiskInfo) := physical_disks_with_filter (fun _ => true).

(** ** Network interfaces *)

(** [pwstr_to_string]: nothing for a null pointer and for an empty string. *)
Definition pwstr_to_string (p : option (list Z)) : option str :=
  match p with Some (u :: us) => Some (from_utf16_lossy (u :: us)) | _ => None end.

Definition sockaddr_to_ip_string (a : option sockaddr) : option str :=
  match a with
  | None => None
  | Some (SockV4 octets) => Some (ipv4_to_string octets)
  | Some (SockV6 bytes) => Some (ipv6_to_string bytes)
  | Some SockOther => None
  end.
(** The loop over the addresses; [dedup] has the addresses pushed so far. *)
Fixpoint collect_unicast_addresses (unicast : list (option sockaddr)) (out : list str) : list str :=
  match unicast with
  | [] => out
  | a :: unicast =>
      collect_unicast_addresses unicast
        (match sockaddr_to_ip_string a with Some v => if decide (v ∈ out) then out else out ++ [v] | None => out end)
  end.

Definition interface_of (a : adapter) : NetworkInterfaceInfo :=
  mkNetworkInterfaceInfo
    (default (lit "unknown") (match pwstr_to_string (FriendlyName a) with Some n => Some n | None => pwstr_to_string (Description a) end))
    (format_mac (PhysicalAddress a) (PhysicalAddressLength a))
    (collect_unicast_addresses (Unicast a) []).
Definition network_interfaces_with_filter (filter : NetworkInterfaceInfo -> bool) : P (list NetworkInterfaceInfo) := fun s =>
  let first := GetAdaptersAddresses (machine s) 16384 in
  let '(status, _, adapters) := if first.1.1 =? 111 then GetAdaptersAddresses (machine s) first.1.2 else first in
  if negb (status =? 0)
  then (Err (other_error (lit "GetAdaptersAddresses failed with status " ++ fmt_dec status)), s)
  else (Ok (List.filter filter (interface_of <$> adapters)), s).
Definition network_interfaces : P (list NetworkInterfaceInfo) := network_interfaces_with_filter (fun _ => true).

(** ** Users *)

Definition PROFILE_LIST : str := lit "SOFTWARE\Microsoft\Windows NT\CurrentVersion\ProfileList".

(** [dedup] and [out_users]. *)
Definition add_user (filter : UserInfo -> bool) (acc : gset str * list UserInfo) (user : UserInfo) : gset str * list UserInfo :=
  if decide (username user ∈ acc.1) then acc
  else ({[ username user ]} ∪ acc.1, if filter user then acc.2 ++ [user] else acc.2).

Fixpoint profiles_loop (sids : list str) (filter : UserInfo -> bool) (acc : gset str * list UserInfo)
    : P (gset str * list UserInfo) :=
  match sids with
  | [] => eff_ret acc
  | sid :: sids =>
      let* path := eff_ok (read_string LocalMachine (PROFILE_LIST ++ lit "\" ++ sid) (lit "ProfileImagePath")) in
      profiles_loop sids filter
        (match (p ← path; username_from_profile_path p) with
         | Some username => add_user filter acc (mkUserInfo username (Some sid) (lit "profile_list"))
         | None => acc
         end)
  end.

Definition current_user (filter : UserInfo -> bool) : P (gset str * list UserInfo) :=
  let* name := ask (fun w => env_var w (lit "USERNAME")) in
  eff_ret (match name with
           | Some name => if bool_decide (trim name = []) then (∅, [])
                          else add_user filter (∅, []) (mkUserInfo (trim name) None (lit "current_user"))
           | None => (∅, [])
           end).

(** The key stays open while the profiles are read. *)
Definition users_with_filter (fuel : nat) (filter : UserInfo -> bool) : P (list UserInfo) :=
  let* acc := current_user filter in
  let* key := eff_ok (lift_reg (key_open LocalMachine PROFILE_LIST)) in
  let* acc :=
    match key with
    | None => eff_ret acc
    | Some key =>
        eff_scoped (fun s => at_machine (drop_key key (pmach s)) s)
          (let* sids := eff_ok (lift_reg (subkeys fuel key)) in
           match sids with None => eff_ret acc | Some sids => profiles_loop sids filter acc end)
    end in
  eff_ret acc.2.
Definition users (fuel : nat) : P (list UserInfo) := users_with_filter fuel (fun _ => true).

(** ** The snapshot *)

Definition section_error (section : SnapshotSection) (err : Error) : SnapshotSectionError :=
  mkSectionError section (display_Error err).

(** [match section() { Ok(v) => v, Err(err) => { push; default } }]. *)
Definition collect {A} (section : SnapshotSection) (m : P A) (otherwise : A) (errors : list SnapshotSectionError)
    : P (A * list SnapshotSectionError) :=
  let* r := eff_try m in
  match r with
  | inr v => eff_ret (v, errors)
  | inl err => eff_ret (otherwise, errors ++ [section_error section err])
  end.

Definition snapshot (fuel : nat) : P HostSnapshot :=
  let* r := collect Identity hostname (lit "unknown") [] in let '(host, errors) := r in
  let* r := collect Os os_info (mkOsInfo None None 0 0 0) errors in let '(os, errors) := r in
  let* r := collect Guids guid_info (mkGuidInfo None None) errors in let '(guids, errors) := r in
  let* r := collect Bios bios_info None errors in let '(bios, errors) := r in
  let* r := collect LogicalDisks logical_disks [] errors in let '(logical, errors) := r in
  let* r := collect PhysicalDisks physical_disks [] errors in let '(physical, errors) := r in
  let* r := collect Network network_interfaces [] errors in let '(networks, errors) := r in
  let* r := collect SectionUsers (users fuel) [] errors in let '(users, errors) := r in
  eff_ret (mkHostSnapshot host os guids bios logical physical networks users errors).

(** ** Time *)

Definition filetime_to_local (filetime : Z) : P LocalDateTime := fun s =>
  match FileTimeToLocal (machine s) (wrap 32 filetime, wrap 32 (Z.shiftr filetime 32)) with
  | inl e => (Err (windows_api_error e "FileTimeToSystemTime"), s)
  | inr (inl e) => (Err (windows_api_error e "SystemTimeToTzSpecificLocalTime"), s)
  | inr (inr t) => (Ok t, s)
  end.

(** ** Known folders *)

(** The shell allocates the path; it is freed before the check. *)
Definition known_folder (folder : KnownFolder) : P str :=
  let* raw := acquiring (with_machine (fun w => SHGetKnownFolderPath w folder)) (fun r => [ResMemory r.1])
                (fun e => windows_api_error e "SHGetKnownFolderPath") in
  fun s => (ok_or (pwstr_to_string (Some raw.2)) (other_error (lit "SHGetKnownFolderPath returned an empty path")),
            release (ResMemory raw.1) s).

(** ** Power actions *)

Definition SHTDN_REASON_FLAG_PLANNED : Z := 0x80000000.
Definition SHTDN_REASON_MAJOR_OTHER : Z := 0.
Definition SHTDN_REASON_MINOR_OTHER : Z := 0.
Definition ERROR_NOT_ALL_ASSIGNED : Z := 1300.

Definition shutdown_reason (options : PowerActionOptions) : Z :=
  let reason := default (Z.lor SHTDN_REASON_MAJOR_OTHER SHTDN_REASON_MINOR_OTHER) (reason_code options) in
  if planned options then Z.lor reason SHTDN_REASON_FLAG_PLANNED else reason.

Definition map_power_api_error (err : win_error) (action : PowerAction) (context : string) : Error :=
  let code := win_error_code err in
  if (code =? hresult_from_win32 5) || (code =? 5)
  then Error_AccessDenied (mkAccessDeniedError (lit "local machine")
         (match action with Shutdown => lit "shutdown" | Restart => lit "restart" end)
         (Some (lit "Access denied while calling " ++ lit context)))
  else windows_api_error err context.

Definition execute_power_action (action : PowerAction) (options : PowerActionOptions) : P unit := fun s =>
  let message := (value ← comment options;
                  if bool_decide (trim value = []) then None else Some (to_utf16_nul (trim value))) in
  match InitiateSystemShutdownExW (machine s) message (timeout_secs options) (force_apps_closed options)
          (match action with Restart => true | Shutdown => false end) (shutdown_reason options) with
  | (None, w) => (Ok tt, set_machine w s)
  | (Some e, w) => (Err (map_power_api_error e action "InitiateSystemShutdownExW"), set_machine w s)
  end.

Definition enable_shutdown_privilege : P unit :=
  let* token := open_handle (with_machine OpenProcessToken)
    (fun e => map_power_api_error e Shutdown "OpenProcessToken for SeShutdownPrivilege") in
  eff_scoped (drop_owned (owned_new token)) (fun s =>
    match LookupPrivilegeValueW (machine s) (to_utf16_nul (lit "SeShutdownPrivilege")) with
    | inl e => (Err (map_power_api_error e Shutdown "LookupPrivilegeValueW for SeShutdownPrivilege"), s)
    | inr luid =>
        match AdjustTokenPrivileges (machine s) token luid with
        | (Some e, w) =>
            (Err (map_power_api_error e Shutdown "AdjustTokenPrivileges for SeShutdownPrivilege"), set_machine w s)
        | (None, w) =>
            (if GetLastError w =? ERROR_NOT_ALL_ASSIGNED
             then Err (Error_AccessDenied (mkAccessDeniedError (lit "local machine") (lit "shutdown privilege")
                    (Some (lit "Privilege 'SeShutdownPrivilege' was not assigned to current token"))))
             else Ok tt, set_machine w s)
        end
    end).

Definition shutdown_with_enabled_privilege (options : PowerActionOptions) : P unit := execute_power_action Shutdown options.
Definition restart_with_enabled_privilege (options : PowerActionOptions) : P unit := execute_power_action Restart options.
Definition shutdown (options : PowerActionOptions) : P unit :=
  let* _ := enable_shutdown_privilege in shutdown_with_enabled_privilege options.
Definition restart (options : PowerActionOptions) : P unit :=
  let* _ := enable_shutdown_privilege in restart_with_enabled_privilege options.
End Calls.

(** ** Users and addresses are listed once *)

Section Listed.
Context {W : Type} `{ho : !handle_api} `{rapi : !registry_api W} `{api : !system_api W}.

(** The names listed are pairwise different, all of them were seen, and all
    of the users listed pass the filter. *)
Definition users_ok (filter : UserInfo -> bool) (acc : gset str * list UserInfo) : Prop :=
  NoDup (username <$> acc.2) /\ (forall u, u ∈ acc.2 -> username u ∈ acc.1 /\ filter u = true).

Lemma add_user_ok filter acc u : users_ok filter acc -> users_ok filter (add_user filter acc u).
Proof.
  intros [Hn Hs]. unfold add_user. case_decide as Hin; [done|]. destruct (filter u) eqn:Ef; split; cbn [fst snd].
  - rewrite fmap_app, NoDup_app. split_and!; [done| |apply NoDup_singleton].
    intros x (v & -> & Hv)%list_elem_of_fmap. cbn. rewrite list_elem_of_singleton. intros E. apply Hin. rewrite <- E.
    by apply Hs.
  - intros v [Hv| ->%list_elem_of_singleton]%elem_of_app; [|set_solver]. destruct (Hs v Hv). set_solver.
  - done.
  - intros v Hv. destruct (Hs v Hv). set_solver.
Qed.

Lemma profiles_loop_ok sids filter acc s acc' s' :
  profiles_loop sids filter acc s = (Ok acc', s') -> users_ok filter acc -> users_ok filter acc'.
Proof.
  revert acc s. induction sids as [|sid sids IH]; intros acc s; cbn [profiles_loop]; [by intros [= <- _]|].
  intros (path & s1 & _ & H)%eff_bind_ok Hok. eapply IH; [exact H|]. case_match; [by apply add_user_ok|done].
Qed.

Lemma current_user_ok filter s acc s' : current_user filter s = (Ok acc, s') -> users_ok filter acc.
Proof.
  intros (name & s1 & _ & [= <- _])%eff_bind_ok.
  repeat case_match; try apply add_user_ok; (split; [constructor|set_solver]).
Qed.

Lemma users_with_filter_ok fuel filter s us s' :
  users_with_filter fuel filter s = (Ok us, s') -> exists acc, users_ok filter acc /\ us = acc.2.
Proof.
  intros (acc0 & s1 & H0%current_user_ok & (key & s2 & _ & (acc & s3 & H & [= <- _])%eff_bind_ok)%eff_bind_ok)%eff_bind_ok.
  exists acc. split; [|done]. destruct key as [key|]; [|by injection H as <- _]. unfold eff_scoped in H.
  match type of H with (let (_, _) := ?m ?x in _) = _ => destruct (m x) as [r s4] eqn:E end.
  injection H as -> _. apply eff_bind_ok in E as (sids & s5 & _ & E).
  destruct sids as [sids|]; [by eapply profiles_loop_ok|by injection E as <- _].
Qed.

Lemma collect_unicast_nodup unicast out : NoDup out -> NoDup (collect_unicast_addresses unicast out).
Proof.
  revert out. induction unicast as [|a unicast IH]; intros out Hn; cbn; [done|]. apply IH.
  case_match; [|done]. case_decide; [done|]. apply NoDup_app. split_and!; [done|set_solver|apply NoDup_singleton].
Qed.

(** The inventory lists nothing twice: the users that [users_with_filter]
    returns have pairwise different names (a profile of the current user is not
    listed again) and all of them pass the filter; and the addresses of an
    interface are pairwise different. *)
Theorem inventory_lists_once fuel filter s us s' (a : adapter) :
  users_with_filter fuel filter s = (Ok us, s') ->
  NoDup (username <$> us) /\ Forall (fun u => filter u = true) us /\ NoDup (addresses (interface_of a)).
Proof.
  intros (acc & [Hn Hf] & ->)%users_with_filter_ok.
  split_and!; [done|apply Forall_forall; by apply Hf|by apply collect_unicast_nodup, NoDup_nil_2].
Qed.
End Listed.

(** ** Sections that cannot fail *)

Section Sections.
Context {W : Type} `{ho : !handle_api} `{rapi : !registry_api W} `{api : !system_api W} `{wt : !win_text}.

Definition never_fails {A} (m : eff (proc_st (reg_st W)) Error A) : Prop := forall s e, (m s).1 <> Err e.

Lemma never_bind {A B} (m : eff (proc_st (reg_st W)) Error A) (k : A -> eff (proc_st (reg_st W)) Error B) :
  never_fails m -> (forall a, never_fails (k a)) -> never_fails (eff_bind m k).
Proof.
  intros Hm Hk s e. unfold eff_bind. specialize (Hm s). destruct (m s) as [[a|e'|p] s1]; [apply Hk|by destruct (Hm e')|done].
Qed.
Lemma never_ok {A} (m : eff (proc_st (reg_st W)) Error A) : never_fails (eff_ok m).
Proof. intros s e. unfold eff_ok. by destruct (m s) as [[]]. Qed.
Lemma never_ret {A} (a : A) : never_fails (eff_ret a).
Proof. done. Qed.
Lemma never_ask {A} (call : W -> A) : never_fails (ask call).
Proof. done. Qed.
Lemma never_scoped {A} dtor (m : eff (proc_st (reg_st W)) Error A) : never_fails m -> never_fails (eff_scoped dtor m).
Proof. intros H s e. unfold eff_scoped. specialize (H s e). by destruct (m s). Qed.
Create HintDb never.
#[local] Hint Resolve never_ok never_ret never_ask never_scoped : never.

Lemma guid_info_never : never_fails guid_info.
Proof. repeat (apply never_bind; [apply never_ok|intros ?]). apply never_ret. Qed.
Lemma bios_info_never : never_fails bios_info.
Proof. repeat (apply never_bind; [apply never_ok|intros ?]). case_match; apply never_ret. Qed.
Lemma probe_drive_never i : never_fails (probe_drive i).
Proof.
  apply never_bind; [apply never_ok|]. intros [h|]; [|apply never_ret]. apply never_scoped, never_bind; eauto with never.
Qed.
Lemma physical_disks_never : never_fails physical_disks.
Proof.
  unfold physical_disks, physical_disks_with_filter. generalize (seq 0 64) (@nil PhysicalDiskInfo).
  induction l as [|i l IH]; intros out; cbn [drives_loop]; [apply never_ret|].
  apply never_bind; [apply probe_drive_never|]. intros d. apply IH.
Qed.
Lemma profiles_loop_never sids filter acc : never_fails (profiles_loop sids filter acc).
Proof.
  revert acc. induction sids as [|sid sids IH]; intros acc; cbn [profiles_loop]; [apply never_ret|].
  apply never_bind; [apply never_ok|]. intros p. apply IH.
Qed.
Lemma users_never fuel : never_fails (users fuel).
Proof.
  apply never_bind; [apply never_bind; eauto with never|]. intros acc.
  apply never_bind; [apply never_ok|]. intros key. apply never_bind; [|eauto with never].
  destruct key; [|apply never_ret]. apply never_scoped, never_bind; [apply never_ok|].
  intros [sids|]; [apply profiles_loop_never|apply never_ret].
Qed.

(** The sections of the errors, in order. *)
Definition sections (errors : list SnapshotSectionError) : list SnapshotSection := se_section <$> errors.

Lemma collect_never {A} section (m : eff (proc_st (reg_st W)) Error A) d errors : never_fails (collect section m d errors).
Proof.
  apply never_bind; [intros s e; unfold eff_try; by destruct (m s) as [[]]|]. intros []; apply never_ret.
Qed.

Lemma collect_sections {A} section (m : eff (proc_st (reg_st W)) Error A) d errors s v errors' s' :
  collect section m d errors s = (Ok (v, errors'), s') ->
  sections errors' = sections errors \/ (sections errors' = sections errors ++ [section] /\ ~ never_fails m).
Proof.
  unfold collect, eff_bind, eff_try. destruct (m s) as [[a|e|p] s1] eqn:E; [|..|done].
  - intros [= _ <- _]. by left.
  - intros [= _ <- _]. right. unfold sections. rewrite fmap_app. split; [done|]. intros H. apply (H s e). by rewrite E.
Qed.

(** Which failures a snapshot reports: [snapshot] itself never fails, and
    the sections with an error are, in this order and at most once each, among
    the identity, the version, the logical disks and the network; a failure to
    read a GUID, the BIOS, a physical disk or the users is never recorded. *)
Theorem snapshot_errors fuel s :
  match snapshot fuel s with
  | (Ok snap, _) => sections (hs_section_errors snap) `sublist_of` [Identity; Os; LogicalDisks; Network]
  | (Err _, _) => False
  | (Panic _, _) => True
  end.
Proof.
  destruct (snapshot fuel s) as [[snap|e|p] s'] eqn:E; [|..|done].
  - unfold snapshot in E. repeat (apply eff_bind_ok in E as ([? ?] & ? & ?%collect_sections & E)). injection E as <- _. cbn [hs_section_errors].
    pose proof guid_info_never. pose proof bios_info_never. pose proof physical_disks_never. pose proof (users_never fuel).
    repeat match goal with H : _ \/ _ |- _ => destruct H as [H|[H ?]]; [|try done]; rewrite H; clear H end;
      cbn; repeat first [apply sublist_nil_l | apply sublist_skip | apply sublist_cons].
  - assert (never_fails (snapshot fuel)) as Hn.
    { unfold snapshot. repeat (apply never_bind; [apply collect_never|intros [? ?]]). apply never_ret. }
    apply (Hn s e). by rewrite E.
Qed.
End Sections.

(** ** Power actions need the privilege *)

Section Power.
Context {W : Type} `{ho : !handle_api} `{rapi : !registry_api W} `{api : !system_api W}.

(** A counter that only a shutdown request moves. *)
Record counts_requests (requests : W -> Z) : Prop := {
  token_requests : forall w, requests (OpenProcessToken w).2 = requests w;
  adjust_requests : forall w h l, requests (AdjustTokenPrivileges w h l).2 = requests w }.

(** The privilege was enabled on a token, and the machine is [w] since. *)
Definition privilege_enabled (w : W) : Prop :=
  exists w0 token luid, AdjustTokenPrivileges w0 token luid = (None, w) /\ GetLastError w <> ERROR_NOT_ALL_ASSIGNED.

Lemma machine_drop o (s : proc_st (reg_st W)) : reg (pmach (drop_owned o s)) = reg (pmach s).
Proof. unfold drop_owned. by case_match. Qed.

Lemma enable_shutdown_privilege_spec requests s : counts_requests requests ->
  match enable_shutdown_privilege s with
  | (Ok _, s') => privilege_enabled (machine s') /\ requests (machine s') = requests (machine s)
  | (Err _, s') => requests (machine s') = requests (machine s)
  | (Panic _, _) => False
  end.
Proof.
  intros C. unfold enable_shutdown_privilege, eff_bind, open_handle, acquiring, with_machine.
  pose proof (token_requests _ C (reg (pmach s))) as Ht.
  destruct (OpenProcessToken (reg (pmach s))) as [[e|token] w]; cbn in Ht; [exact Ht|]. cbn [foldr].
  unfold eff_scoped, machine, set_machine. cbn [pmach acquire at_machine reg].
  destruct (LookupPrivilegeValueW w _) as [e|luid]; [rewrite machine_drop; exact Ht|].
  pose proof (adjust_requests _ C w token luid) as Ha.
  destruct (AdjustTokenPrivileges w token luid) as [[e|] w'] eqn:E; cbn in Ha.
  - rewrite machine_drop. cbn. congruence.
  - destruct (Z.eqb_spec (GetLastError w') ERROR_NOT_ALL_ASSIGNED); rewrite !machine_drop; cbn; [congruence|].
    split; [|congruence]. by exists w, token, luid.
Qed.

(** The path that the shell allocated is freed, empty or not. *)
Lemma known_folder_owns folder : owns (known_folder folder) (fun _ => []).
Proof.
  eapply owns_bind; [apply owns_acquiring|]. intros r s0 s Hs.
  destruct (pwstr_to_string (Some r.2)); by apply gained_release.
Qed.

Definition power_action (action : PowerAction) (options : PowerActionOptions) : eff (proc_st (reg_st W)) Error unit :=
  match action with Shutdown => shutdown options | Restart => restart options end.

(** The machine goes down only with the privilege: [shutdown] and
    [restart] ask Windows to shut down only after AdjustTokenPrivileges
    enabled SeShutdownPrivilege and did not report that it was not assigned;
    the request then has the reboot flag of the action and the options' reason,
    and otherwise the call fails and no request was made. *)
Theorem power_action_needs_privilege requests action options s : counts_requests requests ->
  (exists e s', power_action action options s = (Err e, s') /\ requests (machine s') = requests (machine s)) \/
  (exists s1, privilege_enabled (machine s1) /\ requests (machine s1) = requests (machine s) /\
     power_action action options s = execute_power_action action options s1).
Proof.
  intros C. pose proof (enable_shutdown_privilege_spec requests s C) as H.
  destruct (enable_shutdown_privilege s) as [[[]|e|p] s1] eqn:E; [right|left|done].
  - exists s1. split_and!; [apply H..|]. destruct action; cbn; unfold shutdown, restart, eff_bind; by rewrite E.
  - exists e, s1. split; [|done]. destruct action; cbn; unfold shutdown, restart, eff_bind; by rewrite E.
Qed.

Lemma execute_owns action options : owns (execute_power_action action options) (fun _ => []).
Proof.
  intros s. unfold execute_power_action. destruct (InitiateSystemShutdownExW _ _ _ _ _ _) as [[e|] w]; intros r; cbn;
    rewrite count_res_nil; lia.
Qed.

(** The token is closed on every path. *)
Theorem power_action_closes_token action options :
  (forall w h w', OpenProcessToken w = (inr h, w') -> handle_ok h = true) ->
  owns (power_action action options) (fun _ => []).
Proof.
  intros Hv. assert (owns enable_shutdown_privilege (fun _ => [])) as He.
  { apply owns_scoped; [apply owns_acquiring|apply valid_open|].
    - intros w h w'. unfold with_machine. destruct (OpenProcessToken (reg w)) as [[e|t] w1] eqn:E; intros [= -> _]. by eapply Hv.
    - intros h s. destruct (LookupPrivilegeValueW _ _); [intros r; cbn; rewrite count_res_nil; lia|].
      destruct (AdjustTokenPrivileges _ _ _) as [[e|] w]; [intros r; cbn; rewrite count_res_nil; lia|].
      case_match; intros r; cbn; rewrite count_res_nil; lia. }
  destruct action; (apply owns_seq; [exact He|intros _; apply execute_owns]).
Qed.

(** A restart that is refused the token is reported as a refused shutdown. *)
Theorem restart_denied_as_shutdown options s w :
  OpenProcessToken (machine s) = (inl (mk_win_error (hresult_from_win32 5)), w) ->
  (restart options s).1 = Err (Error_AccessDenied (mkAccessDeniedError (lit "local machine") (lit "shutdown")
    (Some (lit "Access denied while calling OpenProcessToken for SeShutdownPrivilege")))).
Proof.
  intros H. unfold restart, enable_shutdown_privilege, eff_bind, open_handle, acquiring, with_machine.
  unfold machine in H. by rewrite H.
Qed.
End Power.

(** ** A host *)

Module HostSample.
Definition refused : win_error := mk_win_error (hresult_from_win32 5).
#[export] Instance text : win_text := {| win_display e := lit "denied" |}.
#[export] Instance handles : handle_api := {| handle_ok h := 0 <? h |}.
#[local] Existing Instance toy_api.
(** No version, one drive that is not ready, and no administrator. *)
#[export] Instance api : system_api toy_registry := {
  env_var w name := if decide (name = lit "USERNAME") then Some (lit " alice ") else None;
  RtlGetVersion w := (-1, (0, 0, 0));
  GetLogicalDriveStringsW w n := (4%nat, multi_sz [lit "C:\"] []);
  GetDiskFreeSpaceExW w root := inl refused;
  GetVolumeInformationW w root := ([], []);
  CreateFileW w path := (inl refused, w);
  DiskGetLength w h := None;
  GetAdaptersAddresses w n := (0, n, [mkAdapter None (Some (lit "eth")) [1; 2; 3; 4; 5; 6; 0; 0] 6 [Some (SockV4 [10; 0; 0; 1]); Some (SockV4 [10; 0; 0; 1])]]);
  GetSystemFirmwareTable w n := (0%nat, []);
  last_error w := refused;
  OpenProcessToken w := (inr 3, w);
  LookupPrivilegeValueW w name := inr 19;
  AdjustTokenPrivileges w h l := (None, w);
  GetLastError w := ERROR_NOT_ALL_ASSIGNED;
  InitiateSystemShutdownExW w m t f r reason := (None, w);
  SHGetKnownFolderPath w f := (inl refused, w);
  FileTimeToLocal w t := inl refused }.
Definition host : proc_st (reg_st toy_registry) := mkProcSt toy_st (fun _ => 0).
Definition lan : adapter :=
  mkAdapter None (Some (lit "eth")) [1; 2; 3; 4; 5; 6; 0; 0] 6 [Some (SockV4 [10; 0; 0; 1]); Some (SockV4 [10; 0; 0; 1])].

Lemma inventory_lists_once_witness :
  NoDup (username <$> [mkUserInfo (lit "alice") None (lit "current_user")]) /\
  Forall (fun u => true = true) [mkUserInfo (lit "alice") None (lit "current_user")] /\
  NoDup (addresses (interface_of lan)).
Proof.
  apply (inventory_lists_once 5 (fun _ => true) host [mkUserInfo (lit "alice") None (lit "current_user")]
           (users_with_filter 5 (fun _ => true) host).2 lan).
  vm_compute. reflexivity.
Defined.

(** The snapshot of this host: three sections failed. *)
Example snapshot_of_host :
  match snapshot 5 host with
  | (Ok snap, _) => sections (hs_section_errors snap) = [Identity; Os; LogicalDisks] /\
      (ni_name <$> hs_networks snap) = [lit "eth"] /\ (username <$> hs_users snap) = [lit "alice"]
  | _ => False
  end.
Proof. vm_compute. split_and!; reflexivity. Qed.

(** The calls of this host leave the registry alone. *)
Definition requests (w : toy_registry) : Z := zlen (toy_handles w).

Lemma power_action_needs_privilege_witness :
  (exists e s', power_action Restart (mkPowerOptions true 0 true None None) host = (Err e, s') /\
     requests (machine s') = requests (machine host)) \/
  (exists s1, privilege_enabled (machine s1) /\ requests (machine s1) = requests (machine host) /\
     power_action Restart (mkPowerOptions true 0 true None None) host =
       execute_power_action Restart (mkPowerOptions true 0 true None None) s1).
Proof.
  apply (power_action_needs_privilege requests Restart (mkPowerOptions true 0 true None None) host). split; done.
Defined.

Lemma power_action_closes_token_witness :
  owns (power_action Shutdown (mkPowerOptions false 30 false (Some 0x40000) (Some (lit "bye")))) (fun _ => []).
Proof.
  apply (power_action_closes_token Shutdown (mkPowerOptions false 30 false (Some 0x40000) (Some (lit "bye")))).
  intros w h w' [= <- _]. reflexivity.
Defined.
End HostSample.
