(* ===== verification/Provider.v ===== *)
(** * Provider: writing events

    src/etw/provider.rs.  A float is the 32-bit pattern [to_le_bytes] reads.
    A data descriptor is the buffer its pointer leads to and its size field;
    the registration is the resource [ResProvider]. *)

From Stdlib Require Import ZArith Lia String Ascii.
From stdpp Require Import base list strings gmap numbers sorting.
From S2P Require Import Prelude Text Unicode Errors Sid Backends EtwEvents EtwDecode EtwMap EtwSchema Effects Resources IoError.

Open Scope Z_scope.

Record EventDescriptor := mkEventDescriptor {
  ed_id : Z; ed_version : Z; ed_channel : Z; ed_level : Z; ed_opcode : Z; ed_task : Z; ed_keyword : Z }.
Definition EventDescriptor_default : EventDescriptor := mkEventDescriptor 0 0 0 0 0 0 0.

Inductive EventData := DataU32 (v : Z) | DataU64 (v : Z) | DataF32 (bits : Z) | DataStr (s : str).

Definition encode (d : EventData) : list Z :=
  match d with
  | DataU32 v => le_encode 4 v
  | DataU64 v => le_encode 8 v
  | DataF32 bits => le_encode 4 bits
  | DataStr s => mjoin (le_encode 2 <$> (encode_utf16 s ++ [0]))
  end.

(** The structures of the call. *)
Record EVENT_DATA_DESCRIPTOR := mkEventDataDescriptor { Ptr : list Z; Size : Z }.
Record EVENT_DESCRIPTOR := mkEVENT_DESCRIPTOR {
  Id : Z; Version : Z; Channel : Z; Level : Z; Opcode : Z; Task : Z; Keyword : Z }.

Class provider_api (W : Type) := {
  EventRegister : W -> GUID -> Z * Z * W;
  EventWrite : W -> Z -> EVENT_DESCRIPTOR -> option (list EVENT_DATA_DESCRIPTOR) -> Z * W;
  EventUnregister : W -> Z -> W }.

Record EventProvider := mkEventProvider { ep_handle : Z }.

(** [win32]. *)
Definition win32 (status : Z) (api : string) : res Error unit :=
  if status =? 0 then Ok tt
  else Err (Error_WindowsApi (mkWindowsApiError (mk_win_error (hresult_from_win32 status)) (Some (lit api)))).

Definition data_descriptor (bytes : list Z) : EVENT_DATA_DESCRIPTOR := mkEventDataDescriptor bytes (wrap 32 (zlen bytes)).

Section Calls.
Context {W : Type} `{api : !provider_api W}.

Abbreviation P := (eff (proc_st W) Error).

Definition register (provider : GUID) : P EventProvider := fun s =>
  let '(status, handle, w) := EventRegister (pmach s) provider in
  match win32 status "EventRegister" with
  | Ok _ => (Ok (mkEventProvider (as_i64 handle)), acquire (ResProvider (as_i64 handle)) (at_machine w s))
  | Err e => (Err e, at_machine w s)
  | Panic x => (Panic x, at_machine w s)
  end.

Definition provider_write (self : EventProvider) (descriptor : EventDescriptor) (fields : list EventData) : P unit := fun s =>
  let encoded := encode <$> fields in
  let data := data_descriptor <$> encoded in
  let descriptor := mkEVENT_DESCRIPTOR (ed_id descriptor) (ed_version descriptor) (ed_channel descriptor)
    (ed_level descriptor) (ed_opcode descriptor) (ed_task descriptor) (ed_keyword descriptor) in
  let '(status, w) := EventWrite (pmach s) (ep_handle self) descriptor (if decide (data = []) then None else Some data) in
  (win32 status "EventWrite", at_machine w s).

Definition drop_provider (self : EventProvider) (s : proc_st W) : proc_st W :=
  release (ResProvider (ep_handle self)) (at_machine (EventUnregister (pmach s) (ep_handle self)) s).
End Calls.

(** ** Written events are read back

    What Windows documents of the calls: the payload of a written event is
    the concatenation of the buffers of its descriptors, and a consumer that
    listens to the provider receives it with the descriptor. *)

Definition payload_of (data : option (list EVENT_DATA_DESCRIPTOR)) : list Z :=
  mjoin ((fun d => take (Z.to_nat (Size d)) (Ptr d)) <$> default [] data).

Class provider_laws (W : Type) `{api : !provider_api W} := {
  enabled : W -> Z -> bool;
  delivered : W -> list (EVENT_DESCRIPTOR * list Z);
  write_law w h d data : enabled w h = true -> fst (EventWrite w h d data) = 0 ->
    delivered (snd (EventWrite w h d data)) = delivered w ++ [(d, payload_of data)] }.

(** A field the manifest declares: its name, its in-type and declared length,
    and the value the schema parser makes of it.  A float has no case of its
    own in the parser, which keeps its bytes. *)
Definition TDH_INTYPE_FLOAT : Z := 11.
Definition data_type (d : EventData) : Z * Z :=
  match d with
  | DataU32 _ => (TDH_INTYPE_UINT32, 4)
  | DataU64 _ => (TDH_INTYPE_UINT64, 8)
  | DataF32 _ => (TDH_INTYPE_FLOAT, 4)
  | DataStr _ => (TDH_INTYPE_UNICODESTRING, 0)
  end.
Definition data_value (d : EventData) : EventFieldValue :=
  match d with
  | DataU32 v => Val_U32 v
  | DataU64 v => Val_U64 v
  | DataF32 bits => Val_Binary (le_encode 4 bits)
  | DataStr s => Val_String s
  end.
Definition data_prop (f : str * EventData) : PropertyMeta :=
  plain_prop (fst f) (fst (data_type (snd f))) (snd (data_type (snd f))).

Definition data_ok (d : EventData) : Prop :=
  match d with
  | DataU32 v | DataF32 v => 0 <= v < 2 ^ 32
  | DataU64 v => 0 <= v < 2 ^ 64
  | DataStr s => exists cs, s = utf8_encode cs /\ text_ok cs /\ 2 * zlen (encode_utf16 s) + 2 < 2 ^ 32
  end.

Lemma encode_str s : encode (DataStr s) = utf16le (encode_utf16 s) ++ [0; 0].
Proof. unfold encode, utf16le. rewrite fmap_app, join_app. done. Qed.

Lemma encode_length d : data_ok d -> 0 < zlen (encode d) < 2 ^ 32.
Proof.
  destruct d as [v|v|v|s]; try (intros _; unfold encode, zlen; rewrite length_le_encode; lia).
  intros (cs & _ & _ & H). rewrite encode_str. unfold zlen in *. rewrite length_app, length_utf16le. cbn [length]. lia.
Qed.

Lemma payload_encoded fields : Forall data_ok fields ->
  payload_of (Some (data_descriptor <$> (encode <$> fields))) = mjoin (encode <$> fields).
Proof.
  unfold payload_of. change (default [] (Some ?l)) with l. rewrite <- !list_fmap_compose. intros H. f_equal.
  apply list_fmap_ext. intros i d Hi. rewrite Forall_lookup in H. specialize (H i d Hi).
  apply encode_length in H. unfold compose, data_descriptor. cbn [Size Ptr].
  unfold wrap. rewrite Z.mod_small by lia. unfold zlen. rewrite Nat2Z.id. apply firstn_all.
Qed.

Lemma parse_data name d tail : data_ok d ->
  parse_in_type (data_prop (name, d)) (encode d ++ tail) = Some (data_value d, length (encode d)).
Proof.
  intros Hd. destruct d as [v|v|v|s].
  - apply (parse_scalar name (SU32 v) tail). exact Hd.
  - apply (parse_scalar name (SU64 v) tail). exact Hd.
  - unfold parse_in_type, data_prop. cbn -[le_encode length]. rewrite length_app, length_le_encode.
    replace (Nat.min _ _) with 4%nat by (cbn; lia). rewrite take_app_length' by (by rewrite length_le_encode). done.
  - destruct Hd as (cs & -> & Hcs & _). rewrite encode_str. apply (parse_scalar name (SUnicode cs) tail). exact Hcs.
Qed.

Section Delivered.
Context {W : Type} `{api : !provider_api W} `{laws : !provider_laws W}.

(** [C12] What a provider writes, a consumer reads: when the event is accepted
    and somebody listens, exactly one event is delivered, with the descriptor
    given, and parsing its payload with the schema that declares the same
    fields yields their names and values in order (numbers, floats as their
    bytes, strings without NUL), whatever the process holds is unchanged. *)
Theorem provider_event_read_back (self : EventProvider) descriptor (fields : list (str * EventData)) s :
  Forall data_ok (snd <$> fields) ->
  enabled (pmach s) (ep_handle self) = true ->
  fst (provider_write self descriptor (snd <$> fields) s) = Ok tt ->
  let s' := snd (provider_write self descriptor (snd <$> fields) s) in
  held s' = held s /\ exists payload,
    delivered (pmach s') = delivered (pmach s) ++
      [(mkEVENT_DESCRIPTOR (ed_id descriptor) (ed_version descriptor) (ed_channel descriptor) (ed_level descriptor)
          (ed_opcode descriptor) (ed_task descriptor) (ed_keyword descriptor), payload)] /\
    parse_values (mkCachedSchema (data_prop <$> fields)) payload =
      (fun f => mkEventField (fst f) (data_value (snd f))) <$> fields.
Proof.
  intros Hok He. unfold provider_write. set (d := mkEVENT_DESCRIPTOR _ _ _ _ _ _ _).
  set (data := if decide _ then _ else _).
  pose proof (write_law (pmach s) (ep_handle self) d data He) as Hl.
  destruct (EventWrite (pmach s) (ep_handle self) d data) as [status w]. cbn [fst snd pmach held at_machine] in *.
  unfold win32. destruct (status =? 0) eqn:E; [|done]. apply Z.eqb_eq in E. intros _. split; [done|].
  exists (mjoin (encode <$> (snd <$> fields))). split.
  - rewrite (Hl E). do 3 f_equal. rewrite <- payload_encoded by done. unfold data. case_decide as Hd; [|done].
    by rewrite Hd.
  - unfold parse_values. cbn [props]. rewrite <- list_fmap_compose, <- (app_nil_r (mjoin _)).
    apply (parse_props_plain fst (fun f => fst (data_type (snd f))) (fun f => snd (data_type (snd f)))
             (fun f => encode (snd f)) (fun f => data_value (snd f))).
    rewrite Forall_fmap in Hok. eapply Forall_impl; [exact Hok|]. intros [name x] Hx. cbn [snd fst compose] in *.
    split; [intros H0; apply encode_length in Hx; rewrite H0 in Hx; by destruct Hx|]. intros tail. by apply parse_data.
Qed.

(** A registration is the one thing [register] leaves behind. *)
Lemma register_owns provider : owns (register provider) (fun p => [ResProvider (ep_handle p)]).
Proof.
  intros s. unfold register. destruct (EventRegister (pmach s) provider) as [[status handle] w]. unfold win32.
  destruct (status =? 0); intros r; unfold acquire, bump; cbn [held ep_handle at_machine]; rewrite ?count_res_cons, ?count_res_nil;
    [case_decide; lia|lia].
Qed.
End Delivered.

(** ** A provider with a listener *)

Module ProviderSample.
Definition log := list (EVENT_DESCRIPTOR * list Z).
#[export] Instance api : provider_api log := {
  EventRegister w _ := (0, 7, w);
  EventWrite w _ d data := (0, w ++ [(d, payload_of data)]);
  EventUnregister w _ := w }.
#[export] Instance laws : provider_laws log :=
  { enabled _ _ := true; delivered w := w; write_law _ _ _ _ _ _ := eq_refl }.

Definition fields : list (str * EventData) :=
  [(lit "Count", DataU64 7); (lit "Score", DataF32 0x3F000000); (lit "Name", DataStr (lit "ok")); (lit "Pid", DataU32 3)].
Definition start : proc_st log := mkProcSt [] (fun _ => 0).

Lemma provider_event_read_back_witness :
  exists payload, pmach (snd (provider_write (mkEventProvider 7) EventDescriptor_default (snd <$> fields) start)) =
    [(mkEVENT_DESCRIPTOR 0 0 0 0 0 0 0, payload)] /\
  parse_values (mkCachedSchema (data_prop <$> fields)) payload =
    [mkEventField (lit "Count") (Val_U64 7); mkEventField (lit "Score") (Val_Binary [0; 0; 0; 63]);
     mkEventField (lit "Name") (Val_String (lit "ok")); mkEventField (lit "Pid") (Val_U32 3)].
Proof.
  destruct (provider_event_read_back (mkEventProvider 7) EventDescriptor_default fields start) as (_ & payload & H1 & H2).
  - repeat (apply Forall_cons; split); [cbn; lia|cbn; lia| |cbn; lia|constructor].
    exists (lit "ok"). split_and!; [by vm_compute|apply text_ok_check; by vm_compute|by vm_compute].
  - done.
  - by vm_compute.
  - exists payload. split; [exact H1|]. rewrite H2. by vm_compute.
Defined.

(** A string with a NUL inside is written whole, so a reader takes the rest of
    it for the next field. *)
Example embedded_nul_shifts_fields :
  let fields := [(lit "Name", DataStr [97; 0; 98]); (lit "Pid", DataU32 3)] in
  let s' := snd (provider_write (mkEventProvider 7) EventDescriptor_default (snd <$> fields) start) in
  ((fun e => parse_values (mkCachedSchema (data_prop <$> fields)) (snd e)) <$> pmach s') =
  [[mkEventField (lit "Name") (Val_String [97]); mkEventField (lit "Pid") (Val_U32 98)]].
Proof. by vm_compute. Qed.
End ProviderSample.
