(* ===== verification/Crypto.v ===== *)
(** * Crypto: keys, authenticated encryption, DPAPI

    src/crypto/mod.rs beyond the hashes of [Pe], and src/crypto/dpapi.rs.  A
    buffer that a call fills is part of its answer; a pointer in a structure
    passed to a call is the buffer it leads to, [None] when it is null.  Keys
    are the resource [ResKey], the buffers of DPAPI the resource
    [ResMemory]. *)

From Stdlib Require Import ZArith Lia String Ascii.
From stdpp Require Import base list strings gmap numbers sorting.
From S2P Require Import Prelude Text Errors Pe Effects Resources.

Open Scope Z_scope.

(** ** Constants and structures *)

Definition SHA256_LEN : nat := 32.
Definition P256_PUBLIC_KEY_LEN : nat := 64.
Definition P256_SIGNATURE_LEN : nat := 64.
Definition AES256_KEY_LEN : nat := 32.
Definition GCM_NONCE_LEN : nat := 12.
Definition GCM_TAG_LEN : nat := 16.
Definition HMAC_SHA256_LEN : nat := 32.
Definition COORD_LEN : nat := 32.
Definition HEADER_LEN : nat := 8.
Definition P256_PRIVATE_BLOB_LEN : nat := HEADER_LEN + 3 * COORD_LEN.
Definition P256_BITS : Z := 256.
Definition BCRYPT_ECDSA_PUBLIC_P256_MAGIC : Z := 0x31534345.
Definition BCRYPT_ECDSA_PRIVATE_P256_MAGIC : Z := 0x32534345.
Definition STATUS_INVALID_SIGNATURE : Z := as_i32 0xC000A000.
Definition STATUS_AUTH_TAG_MISMATCH : Z := as_i32 0xC000A002.

Inductive blob_type := BCRYPT_ECCPUBLIC_BLOB | BCRYPT_ECCPRIVATE_BLOB.

(** [BCRYPT_AUTHENTICATED_CIPHER_MODE_INFO], by the fields the code sets. *)
Record cipher_mode_info := mkCipherInfo {
  pbNonce : list Z; cbNonce : Z; pbAuthData : option (list Z); cbAuthData : Z; pbTag : list Z; cbTag : Z }.

Definition cipher_info (nonce aad tag : list Z) : cipher_mode_info :=
  mkCipherInfo nonce (Z.of_nat GCM_NONCE_LEN) (if decide (aad = []) then None else Some aad) (wrap 32 (zlen aad)) tag
    (wrap 32 (zlen tag)).

(** [BCRYPT_ECCKEY_BLOB] followed by the parts. *)
Definition key_blob (magic : Z) (parts : list (list Z)) : list Z :=
  le_encode 4 magic ++ le_encode 4 (Z.of_nat COORD_LEN) ++ mjoin parts.

(** ** The calls *)

Class cng_api (W : Type) := {
  nt_error : Z -> win_error;
  BCryptGenRandom : W -> nat -> Z * list Z * W;
  BCryptHmac : list Z -> list Z -> Z * list Z;
  BCryptGenerateSymmetricKey : W -> list Z -> Z * Z * W;
  BCryptImportKeyPair : W -> blob_type -> list Z -> Z * Z * W;
  BCryptGenerateKeyPair : W -> Z -> Z * Z * W;
  BCryptFinalizeKeyPair : W -> Z -> Z * W;
  BCryptExportKey : W -> Z -> blob_type -> nat -> Z * list Z * Z * W;
  BCryptSignHash : W -> Z -> list Z -> nat -> Z * list Z * Z * W;
  BCryptVerifySignature : W -> Z -> list Z -> list Z -> Z * W;
  BCryptEncrypt : W -> Z -> list Z -> cipher_mode_info -> Z * (list Z * list Z) * W;
  BCryptDecrypt : W -> Z -> list Z -> cipher_mode_info -> Z * list Z * W;
  BCryptDestroyKey : W -> Z -> W }.

Definition crypto_invalid (parameter reason : string) : Error :=
  Error_InvalidParameter (mkInvalidParameterError (lit parameter) (lit reason)).

Record AesGcmKey := mkAesGcmKey { aes_key : list Z }.
Record EcdsaP256PublicKey := mkPublicKey { pub_xy : list Z }.
Record EcdsaP256PrivateKey := mkPrivateKey { priv_blob : list Z }.

Definition aes_from_bytes (key : list Z) : AesGcmKey := mkAesGcmKey key.
Definition from_xy (xy : list Z) : EcdsaP256PublicKey := mkPublicKey xy.
Definition to_xy (self : EcdsaP256PublicKey) : list Z := pub_xy self.
Definition to_blob (self : EcdsaP256PrivateKey) : list Z := priv_blob self.
Definition public_key (self : EcdsaP256PrivateKey) : EcdsaP256PublicKey :=
  mkPublicKey (take P256_PUBLIC_KEY_LEN (drop HEADER_LEN (priv_blob self))).

Section Calls.
Context {W : Type} `{api : !cng_api W}.

Abbreviation P := (eff (proc_st W) Error).

Definition check (status : Z) (name : string) : P unit := eff_lift (crypto_check nt_error status (lit name)).

Definition random_bytes (len : nat) : P (list Z) := fun s =>
  let '(status, buffer, w) := BCryptGenRandom (pmach s) len in
  (let* _ := check status "BCryptGenRandom" in eff_ret buffer) (at_machine w s).

Definition hmac_sha256 (key data : list Z) : P (list Z) :=
  let '(status, mac) := BCryptHmac key data in
  let* _ := check status "BCryptHash" in eff_ret mac.

(** *** [KeyHandle] *)

(** A call that makes a key. *)
Definition make_key (call : W -> Z * Z * W) (name : string) : P Z := fun s =>
  let '(status, handle, w) := call (pmach s) in
  match crypto_check nt_error status (lit name) with
  | Ok _ => (Ok handle, acquire (ResKey handle) (at_machine w s))
  | Err e => (Err e, at_machine w s)
  | Panic x => (Panic x, at_machine w s)
  end.

Definition key_import (t : blob_type) (blob : list Z) : P Z :=
  make_key (fun w => BCryptImportKeyPair w t blob) "BCryptImportKeyPair".
Definition key_aes_gcm (secret : list Z) : P Z :=
  make_key (fun w => BCryptGenerateSymmetricKey w secret) "BCryptGenerateSymmetricKey".

Definition drop_key (h : Z) (s : proc_st W) : proc_st W :=
  release (ResKey h) (at_machine (BCryptDestroyKey (pmach s) h) s).
Definition with_key {A} (m : P Z) (k : Z -> P A) : P A := let* h := m in eff_scoped (drop_key h) (k h).

Definition finalize_key (h : Z) : P unit :=
  let* status := asking (fun w => BCryptFinalizeKeyPair w h) in check status "BCryptFinalizeKeyPair".
Definition key_generate : P Z :=
  let* h := make_key (fun w => BCryptGenerateKeyPair w P256_BITS) "BCryptGenerateKeyPair" in
  let* _ := eff_guard (drop_key h) (finalize_key h) in
  eff_ret h.

(** *** AES-GCM *)

Definition seal (self : AesGcmKey) (nonce aad plaintext : list Z) : P (list Z) :=
  with_key (key_aes_gcm (aes_key self)) (fun key =>
    let info := cipher_info nonce aad (replicate GCM_TAG_LEN 0) in
    let* r := asking (fun w => let '(status, sealed, w) := BCryptEncrypt w key plaintext info in ((status, sealed), w)) in
    let '(status, (output, tag)) := r in
    let* _ := check status "BCryptEncrypt" in
    eff_ret (output ++ tag)).

Definition open (self : AesGcmKey) (nonce aad sealed : list Z) : P (option (list Z)) :=
  if (length sealed <? GCM_TAG_LEN)%nat then eff_ret None
  else
    let split := (length sealed - GCM_TAG_LEN)%nat in
    let ciphertext := take split sealed in
    let tag := drop split sealed in
    with_key (key_aes_gcm (aes_key self)) (fun key =>
      let info := cipher_info nonce aad tag in
      let* r := asking (fun w => let '(status, plaintext, w) := BCryptDecrypt w key ciphertext info in ((status, plaintext), w)) in
      let '(status, plaintext) := r in
      if status =? STATUS_AUTH_TAG_MISMATCH then eff_ret None
      else let* _ := check status "BCryptDecrypt" in eff_ret (Some plaintext)).

(** *** ECDSA *)

Definition verify (self : EcdsaP256PublicKey) (digest signature : list Z) : P bool :=
  with_key (key_import BCRYPT_ECCPUBLIC_BLOB (key_blob BCRYPT_ECDSA_PUBLIC_P256_MAGIC [pub_xy self])) (fun key =>
    let* status := asking (fun w => BCryptVerifySignature w key digest signature) in
    if status =? STATUS_INVALID_SIGNATURE then eff_ret false
    else let* _ := check status "BCryptVerifySignature" in eff_ret true).

Definition from_blob (blob : list Z) : P EcdsaP256PrivateKey :=
  if decide (length blob = P256_PRIVATE_BLOB_LEN) then
    if decide (take HEADER_LEN blob = key_blob BCRYPT_ECDSA_PRIVATE_P256_MAGIC [])
    then with_key (key_import BCRYPT_ECCPRIVATE_BLOB blob) (fun _ => eff_ret (mkPrivateKey blob))
    else eff_fail (crypto_invalid "blob" "not a P-256 private key blob")
  else eff_fail (crypto_invalid "blob" "not a P-256 private key blob").

Definition ecdsa_generate : P EcdsaP256PrivateKey :=
  with_key key_generate (fun key =>
    let* r := asking (fun w => let '(status, blob, written, w) :=
                                 BCryptExportKey w key BCRYPT_ECCPRIVATE_BLOB P256_PRIVATE_BLOB_LEN in ((status, blob, written), w)) in
    let '(status, blob, written) := r in
    let* _ := check status "BCryptExportKey" in
    if zlen blob <? written then eff_lift (Panic IndexOutOfBounds) else from_blob (take (Z.to_nat written) blob)).

Definition sign (self : EcdsaP256PrivateKey) (digest : list Z) : P (list Z) :=
  with_key (key_import BCRYPT_ECCPRIVATE_BLOB (priv_blob self)) (fun key =>
    let* r := asking (fun w => let '(status, signature, written, w) :=
                                 BCryptSignHash w key digest P256_SIGNATURE_LEN in ((status, signature, written), w)) in
    let '(status, signature, written) := r in
    let* _ := check status "BCryptSignHash" in
    if negb (written =? Z.of_nat P256_SIGNATURE_LEN)
    then eff_fail (crypto_invalid "signature" "unexpected P-256 signature length")
    else eff_ret signature).
End Calls.

(** ** Keys are destroyed *)

Section Released.
Context {W : Type} `{api : !cng_api W}.

Abbreviation P := (eff (proc_st W) Error).

Lemma owns_make_key (call : W -> Z * Z * W) name : owns (make_key call name) (fun h => [ResKey h]).
Proof.
  intros s. unfold make_key. destruct (call (pmach s)) as [[status handle] w]. unfold crypto_check.
  destruct (0 <=? status); intros r; unfold acquire, bump; cbn [held at_machine]; rewrite ?count_res_cons, ?count_res_nil;
    [case_decide; lia|lia].
Qed.

Lemma owns_check status name : owns (check status name : P unit) (fun _ => []).
Proof. apply owns_lift. Qed.

Lemma owns_with_key {A} (m : P Z) (k : Z -> P A) :
  owns m (fun h => [ResKey h]) -> (forall h, owns (k h) (fun _ => [])) -> owns (with_key m k) (fun _ => []).
Proof. apply (owns_released_call m k (fun h => ResKey h) (fun h w => BCryptDestroyKey w h)). Qed.

Lemma owns_generate_key : owns (key_generate : P Z) (fun h => [ResKey h]).
Proof.
  eapply owns_bind; [apply owns_make_key|]. intros h s0 s Hs. unfold eff_bind, eff_guard.
  assert (owns (finalize_key h) (fun _ => [])) as Hf by (apply owns_seq; [apply owns_asking|intros; apply owns_check]).
  specialize (Hf s). destruct (finalize_key h s) as [[u|e|x] s1].
  - exact (gained_trans _ _ _ _ _ Hs Hf).
  - apply gained_release. intros r. exact (gained_trans _ _ _ _ _ Hs Hf r).
  - apply gained_release. intros r. exact (gained_trans _ _ _ _ _ Hs Hf r).
Qed.

Lemma owns_from_blob blob : owns (from_blob blob : P _) (fun _ => []).
Proof.
  unfold from_blob. case_decide; [|apply owns_fail]. case_decide; [|apply owns_fail].
  apply owns_with_key; [apply owns_make_key|]. intros h. apply owns_ret.
Qed.

(** No key outlives the call that made it: sealing, opening, signing,
    verifying, generating and loading a key destroy every CNG key they import
    or generate, on success, on every error and on the panic of an oversized
    export. *)
Theorem crypto_destroys_keys key nonce aad text public private digest signature blob :
  owns (seal key nonce aad text : P _) (fun _ => []) /\
  owns (open key nonce aad text : P _) (fun _ => []) /\
  owns (verify public digest signature : P _) (fun _ => []) /\
  owns (from_blob blob : P _) (fun _ => []) /\
  owns (ecdsa_generate : P _) (fun _ => []) /\
  owns (sign private digest : P _) (fun _ => []).
Proof.
  split_and!; [..|apply owns_from_blob| |].
  - apply owns_with_key; [apply owns_make_key|]. intros h. apply owns_seq; [apply owns_asking|]. intros [status [out tag]].
    apply owns_seq; [apply owns_check|]. intros _. apply owns_ret.
  - unfold open. case_match; [apply owns_ret|]. apply owns_with_key; [apply owns_make_key|]. intros h.
    apply owns_seq; [apply owns_asking|]. intros [status out]. case_match; [apply owns_ret|].
    apply owns_seq; [apply owns_check|]. intros _. apply owns_ret.
  - apply owns_with_key; [apply owns_make_key|]. intros h. apply owns_seq; [apply owns_asking|]. intros status.
    case_match; [apply owns_ret|]. apply owns_seq; [apply owns_check|]. intros _. apply owns_ret.
  - apply owns_with_key; [apply owns_generate_key|]. intros h. apply owns_seq; [apply owns_asking|].
    intros [[status blob'] written]. apply owns_seq; [apply owns_check|]. intros _.
    case_match; [apply owns_lift|apply owns_from_blob].
  - apply owns_with_key; [apply owns_make_key|]. intros h. apply owns_seq; [apply owns_asking|].
    intros [[status sig] written]. apply owns_seq; [apply owns_check|]. intros _.
    case_match; [apply owns_fail|apply owns_ret].
Qed.
End Released.

(** ** Authenticated encryption

    [gcm k n a p] is the ciphertext and the tag of AES-GCM; CNG decrypts a
    text exactly when the tag is the one of the plaintext it yields. *)

Definition nonce_of (i : cipher_mode_info) : list Z := take (Z.to_nat (cbNonce i)) (pbNonce i).
Definition aad_of (i : cipher_mode_info) : list Z := take (Z.to_nat (cbAuthData i)) (default [] (pbAuthData i)).
Definition tag_of (i : cipher_mode_info) : list Z := take (Z.to_nat (cbTag i)) (pbTag i).

Class gcm_laws (W : Type) `{api : !cng_api W} := {
  gcm : list Z -> list Z -> list Z -> list Z -> list Z * list Z;
  key_secret : W -> Z -> option (list Z);
  gcm_length k n a p : length (fst (gcm k n a p)) = length p;
  gcm_tag_length k n a p : length (snd (gcm k n a p)) = GCM_TAG_LEN;
  gcm_inj k n a p p' : gcm k n a p = gcm k n a p' -> p = p';
  symmetric_law w secret status h w' :
    BCryptGenerateSymmetricKey w secret = (status, h, w') -> 0 <= status -> key_secret w' h = Some secret;
  encrypt_law w h k p i status out w' : key_secret w h = Some k ->
    BCryptEncrypt w h p i = (status, out, w') -> 0 <= status -> out = gcm k (nonce_of i) (aad_of i) p;
  decrypt_law w h k c i status p w' : key_secret w h = Some k ->
    BCryptDecrypt w h c i = (status, p, w') ->
    (0 <= status -> gcm k (nonce_of i) (aad_of i) p = (c, tag_of i)) /\
    (status = STATUS_AUTH_TAG_MISMATCH -> forall q, gcm k (nonce_of i) (aad_of i) q <> (c, tag_of i)) }.

Section Gcm.
Context {W : Type} `{api : !cng_api W} `{laws : !gcm_laws W}.

Abbreviation P := (eff (proc_st W) Error).

Lemma info_reads nonce aad tag :
  length nonce = GCM_NONCE_LEN -> zlen aad < 2 ^ 32 -> length tag = GCM_TAG_LEN ->
  nonce_of (cipher_info nonce aad tag) = nonce /\ aad_of (cipher_info nonce aad tag) = aad /\
  tag_of (cipher_info nonce aad tag) = tag.
Proof.
  intros Hn Ha Ht. unfold nonce_of, aad_of, tag_of, cipher_info. cbn [cbNonce pbNonce cbAuthData pbAuthData cbTag pbTag].
  unfold wrap. rewrite (Z.mod_small (zlen aad)) by (unfold zlen in *; lia). unfold zlen in *.
  rewrite Ht, !Nat2Z.id. split_and!.
  - apply take_ge. lia.
  - case_decide as E; [by rewrite E|]. apply take_ge. cbn. lia.
  - change (Z.to_nat (Z.of_nat GCM_TAG_LEN mod 2 ^ 32)) with GCM_TAG_LEN. apply take_ge. lia.
Qed.

Lemma key_aes_gcm_ok secret s h s' : key_aes_gcm secret s = (Ok h, s') -> key_secret (pmach s') h = Some secret.
Proof.
  unfold key_aes_gcm, make_key. destruct (BCryptGenerateSymmetricKey (pmach s) secret) as [[status hh] w] eqn:E.
  unfold crypto_check. destruct (0 <=? status) eqn:Es; [|done]. intros [= <- <-]. cbn. apply Z.leb_le in Es.
  by eapply symmetric_law.
Qed.

Lemma check_ok status name (s : proc_st W) u s' : check status name s = (Ok u, s') -> 0 <= status /\ s' = s.
Proof. unfold check, crypto_check, eff_lift. destruct (0 <=? status) eqn:E; [|done]. intros [= _ <-]. split; [by apply Z.leb_le|done]. Qed.

Lemma with_key_ok {A} (m : P Z) (k : Z -> P A) s a s' :
  with_key m k s = (Ok a, s') -> exists h s1 s2, m s = (Ok h, s1) /\ k h s1 = (Ok a, s2).
Proof.
  unfold with_key. rewrite eff_bind_ok. intros (h & s1 & Hm & Hk). unfold eff_scoped in Hk.
  destruct (k h s1) as [r s2] eqn:E. injection Hk as -> _. eauto.
Qed.

(** [seal] computes the authenticated encryption. *)
Lemma seal_ok key nonce aad p s sealed s' :
  length nonce = GCM_NONCE_LEN -> zlen aad < 2 ^ 32 ->
  seal key nonce aad p s = (Ok sealed, s') ->
  sealed = fst (gcm (aes_key key) nonce aad p) ++ snd (gcm (aes_key key) nonce aad p).
Proof.
  intros Hn Ha H. apply with_key_ok in H as (h & s1 & s2 & Hm & Hk). apply key_aes_gcm_ok in Hm.
  destruct (info_reads nonce aad (replicate GCM_TAG_LEN 0) Hn Ha (length_replicate _ _)) as (E1 & E2 & _).
  apply eff_bind_ok in Hk as ([status [out tag]] & s3 & Hr & Hk). unfold asking in Hr.
  destruct (BCryptEncrypt (pmach s1) h p _) as [[st [o t]] w] eqn:E. injection Hr as <- <- <- <-.
  apply eff_bind_ok in Hk as (u & s4 & Hc & Hk). apply check_ok in Hc as [Hs _]. injection Hk as <- _.
  pose proof (encrypt_law _ _ _ _ _ _ _ _ Hm E Hs) as Hg. rewrite E1, E2 in Hg. by rewrite <- Hg.
Qed.

Lemma open_ok key nonce aad sealed s r s' :
  length nonce = GCM_NONCE_LEN -> zlen aad < 2 ^ 32 ->
  open key nonce aad sealed s = (Ok r, s') ->
  match r with
  | Some p => sealed = fst (gcm (aes_key key) nonce aad p) ++ snd (gcm (aes_key key) nonce aad p)
  | None => forall p, sealed <> fst (gcm (aes_key key) nonce aad p) ++ snd (gcm (aes_key key) nonce aad p)
  end.
Proof.
  intros Hn Ha. unfold open. destruct (length sealed <? GCM_TAG_LEN)%nat eqn:El.
  { intros [= <- _] p ->. apply Nat.ltb_lt in El. rewrite length_app, gcm_tag_length in El. lia. }
  apply Nat.ltb_ge in El. set (split := (length sealed - GCM_TAG_LEN)%nat). intros H.
  apply with_key_ok in H as (h & s1 & s2 & Hm & Hk). apply key_aes_gcm_ok in Hm.
  destruct (info_reads nonce aad (drop split sealed) Hn Ha) as (E1 & E2 & E3);
    [rewrite length_drop; unfold split; lia|].
  apply eff_bind_ok in Hk as ([status out] & s3 & Hr & Hk). unfold asking in Hr.
  destruct (BCryptDecrypt (pmach s1) h _ _) as [[st o] w] eqn:E. injection Hr as <- <- <-.
  destruct (decrypt_law _ _ _ _ _ _ _ _ Hm E) as [Hok Hbad]. rewrite E1, E2, E3 in Hok, Hbad.
  destruct (st =? STATUS_AUTH_TAG_MISMATCH) eqn:Es.
  - apply Z.eqb_eq in Es. injection Hk as <- _. intros p Hp. apply (Hbad Es p).
    destruct (gcm (aes_key key) nonce aad p) as [c t] eqn:Eg. cbn [fst snd] in Hp.
    pose proof (gcm_tag_length (aes_key key) nonce aad p) as Ht. rewrite Eg in Ht. cbn [snd] in Ht.
    assert (length c = split) as Hc by (unfold split; rewrite Hp, length_app, Ht; lia).
    rewrite Hp, <- Hc, take_app_length, drop_app_length. done.
  - apply eff_bind_ok in Hk as (u & s4 & Hc & Hk). apply check_ok in Hc as [Hs _]. injection Hk as <- _.
    rewrite (Hok Hs). cbn [fst snd]. symmetry. apply take_drop.
Qed.

(** Sealing and opening are inverse, and nothing else opens.  What [seal]
    returns is sixteen bytes longer than the plaintext; with the same key,
    nonce and associated data, in any later state, [open] returns the
    plaintext unless CNG itself fails, never [None]; and whatever [open]
    accepts is exactly what [seal] makes of the plaintext it returns. *)
Theorem seal_open_exact key nonce aad :
  length nonce = GCM_NONCE_LEN -> zlen aad < 2 ^ 32 ->
  (forall p s sealed s1, seal key nonce aad p s = (Ok sealed, s1) ->
     length sealed = (length p + GCM_TAG_LEN)%nat /\
     forall s2 r s3, open key nonce aad sealed s2 = (Ok r, s3) -> r = Some p) /\
  (forall sealed p s s1, open key nonce aad sealed s = (Ok (Some p), s1) ->
     forall s2 sealed' s3, seal key nonce aad p s2 = (Ok sealed', s3) -> sealed' = sealed).
Proof.
  intros Hn Ha. split.
  - intros p s sealed s1 Hs. apply seal_ok in Hs; [|done|done]. split.
    { rewrite Hs, length_app, gcm_length, gcm_tag_length. done. }
    intros s2 r s3 Ho. apply open_ok in Ho; [|done|done]. destruct r as [q|]; [|by destruct (Ho p)].
    rewrite Hs in Ho. f_equal. apply (gcm_inj (aes_key key) nonce aad).
    apply app_inj_2 in Ho as [E1 E2]; [|by rewrite !gcm_tag_length].
    by rewrite (surjective_pairing (gcm _ _ _ q)), <- E1, <- E2, <- surjective_pairing.
  - intros sealed p s s1 Ho s2 sealed' s3 Hs. apply open_ok in Ho; [|done|done]. apply seal_ok in Hs; [|done|done].
    by rewrite Hs, Ho.
Qed.

(** The length field of the associated data has 32 bits: of longer data only
    the part that fits is authenticated. *)
Lemma long_aad_is_cut nonce aad tag : zlen aad = 2 ^ 32 -> aad_of (cipher_info nonce aad tag) = [].
Proof. intros H. unfold aad_of, cipher_info. cbn [cbAuthData]. rewrite H. done. Qed.
End Gcm.

(** ** Signatures

    [ecdsa_valid xy digest sig]: the signature is one of the digest under the
    public key. *)

Class ecdsa_laws (W : Type) `{api : !cng_api W} := {
  ecdsa_valid : list Z -> list Z -> list Z -> bool;
  key_material : W -> Z -> option (blob_type * list Z);
  import_law w t blob status h w' :
    BCryptImportKeyPair w t blob = (status, h, w') -> 0 <= status -> key_material w' h = Some (t, blob);
  sign_law w h blob digest n status sig written w' :
    key_material w h = Some (BCRYPT_ECCPRIVATE_BLOB, blob) ->
    BCryptSignHash w h digest n = (status, sig, written, w') -> 0 <= status ->
    ecdsa_valid (take P256_PUBLIC_KEY_LEN (drop HEADER_LEN blob)) digest sig = true;
  verify_law w h blob digest sig status w' :
    key_material w h = Some (BCRYPT_ECCPUBLIC_BLOB, blob) ->
    BCryptVerifySignature w h digest sig = (status, w') ->
    (0 <= status -> ecdsa_valid (drop HEADER_LEN blob) digest sig = true) /\
    (status = STATUS_INVALID_SIGNATURE -> ecdsa_valid (drop HEADER_LEN blob) digest sig = false) }.

Section Ecdsa.
Context {W : Type} `{api : !cng_api W} `{laws : !ecdsa_laws W}.

Lemma key_import_ok t blob (s : proc_st W) h s' : key_import t blob s = (Ok h, s') -> key_material (pmach s') h = Some (t, blob).
Proof.
  unfold key_import, make_key. destruct (BCryptImportKeyPair (pmach s) t blob) as [[status hh] w] eqn:E.
  unfold crypto_check. destruct (0 <=? status) eqn:Es; [|done]. intros [= <- <-]. cbn. apply Z.leb_le in Es.
  by eapply import_law.
Qed.

(** [verify] decides validity. *)
Lemma verify_ok public digest signature (s : proc_st W) b s' :
  verify public digest signature s = (Ok b, s') -> b = ecdsa_valid (pub_xy public) digest signature.
Proof.
  intros H. apply with_key_ok in H as (h & s1 & s2 & Hm & Hk). apply key_import_ok in Hm.
  apply eff_bind_ok in Hk as (status & s3 & Hr & Hk). unfold asking in Hr.
  destruct (BCryptVerifySignature (pmach s1) h digest signature) as [st w] eqn:E. injection Hr as <- <-.
  destruct (verify_law _ _ _ _ _ _ _ Hm E) as [Hok Hbad].
  assert (drop HEADER_LEN (key_blob BCRYPT_ECDSA_PUBLIC_P256_MAGIC [pub_xy public]) = pub_xy public) as Ex
    by (unfold key_blob; cbn; by rewrite app_nil_r).
  rewrite Ex in Hok, Hbad. destruct (st =? STATUS_INVALID_SIGNATURE) eqn:Es.
  - injection Hk as <- _. symmetry. apply Hbad. by apply Z.eqb_eq.
  - apply eff_bind_ok in Hk as (u & s4 & Hc & Hk). apply check_ok in Hc as [Hs _]. injection Hk as <- _. symmetry. by apply Hok.
Qed.

Lemma sign_ok private digest (s : proc_st W) signature s' :
  sign private digest s = (Ok signature, s') -> ecdsa_valid (pub_xy (public_key private)) digest signature = true.
Proof.
  intros H. apply with_key_ok in H as (h & s1 & s2 & Hm & Hk). apply key_import_ok in Hm.
  apply eff_bind_ok in Hk as ([[status sig] written] & s3 & Hr & Hk). unfold asking in Hr.
  destruct (BCryptSignHash (pmach s1) h digest P256_SIGNATURE_LEN) as [[[st sg] wr] w] eqn:E. injection Hr as <- <- <- <-.
  apply eff_bind_ok in Hk as (u & s4 & Hc & Hk). apply check_ok in Hc as [Hs _].
  destruct (negb _); [done|]. injection Hk as <- _. by eapply sign_law.
Qed.

(** A signature is accepted by the public key of the key that made it, and
    [verify] tells exactly whether a signature is valid, errors apart; a key
    restored from its blob has the same public key; a blob of another length
    or with another header is refused without a call to CNG. *)
Theorem ecdsa_sign_verify private digest :
  (forall s signature s1, sign private digest s = (Ok signature, s1) ->
     forall s2 b s3, verify (public_key private) digest signature s2 = (Ok b, s3) -> b = true) /\
  (forall s key s1, from_blob (to_blob private) s = (Ok key, s1) -> public_key key = public_key private) /\
  (forall blob (s : proc_st W), length blob <> P256_PRIVATE_BLOB_LEN \/
     take HEADER_LEN blob <> key_blob BCRYPT_ECDSA_PRIVATE_P256_MAGIC [] ->
     from_blob blob s = (Err (crypto_invalid "blob" "not a P-256 private key blob"), s)).
Proof.
  split_and!.
  - intros s signature s1 Hs s2 b s3 Hv. apply verify_ok in Hv as ->. by eapply sign_ok.
  - intros s key s1. unfold from_blob. case_decide; [|done]. case_decide; [|done]. intros H'.
    apply with_key_ok in H' as (h & sa & sb & _ & Hk). by injection Hk as <- _.
  - intros blob s Hb. unfold from_blob. case_decide; [|done]. case_decide; [|done]. naive_solver.
Qed.
End Ecdsa.

(** ** DPAPI *)

Inductive Scope := CurrentUser | LocalMachine.
Definition CRYPTPROTECT_UI_FORBIDDEN : Z := 0x1.
Definition CRYPTPROTECT_LOCAL_MACHINE : Z := 0x4.

(** [CRYPT_INTEGER_BLOB]: for an input the slice it views, for an output the
    address and the bytes there. *)
Record in_blob := mkInBlob { ib_cbData : Z; ib_pbData : list Z }.
Record out_blob := mkOutBlob { ob_pbData : Z; ob_data : list Z }.

Class dpapi_api (W : Type) := {
  CryptProtectData : W -> in_blob -> in_blob -> Z -> (win_error + out_blob) * W;
  CryptUnprotectData : W -> in_blob -> in_blob -> Z -> (win_error + out_blob) * W }.

Definition blob (data : list Z) : res Error in_blob :=
  if u32_max <? zlen data then Err (crypto_invalid "data" "larger than 4 GiB")
  else Ok (mkInBlob (zlen data) data).

Section Dpapi.
Context {W : Type} `{api : !dpapi_api W}.

Abbreviation P := (eff (proc_st W) Error).

(** The memory of an answer. *)
Definition out_memory (o : out_blob) : list resource := if ob_pbData o =? 0 then [] else [ResMemory (ob_pbData o)].

(** [take]. *)
Definition take_blob (o : out_blob) : P (list Z) := fun s =>
  if ob_pbData o =? 0 then (Ok [], s) else (Ok (ob_data o), release (ResMemory (ob_pbData o)) s).

Definition dpapi_call (call : W -> in_blob -> in_blob -> Z -> (win_error + out_blob) * W) (data entropy : list Z)
    (flags : Z) (name : string) : P (list Z) :=
  let* input := eff_lift (blob data) in
  let* entropy := eff_lift (blob entropy) in
  let* output := acquiring (fun w => call w input entropy flags) out_memory
                   (fun e => Error_WindowsApi (mkWindowsApiError e (Some (lit name)))) in
  take_blob output.

Definition scope_flags (scope : Scope) : Z :=
  match scope with
  | CurrentUser => CRYPTPROTECT_UI_FORBIDDEN
  | LocalMachine => Z.lor CRYPTPROTECT_UI_FORBIDDEN CRYPTPROTECT_LOCAL_MACHINE
  end.
Definition protect (data entropy : list Z) (scope : Scope) : P (list Z) :=
  dpapi_call CryptProtectData data entropy (scope_flags scope) "CryptProtectData".
Definition unprotect (protected entropy : list Z) : P (list Z) :=
  dpapi_call CryptUnprotectData protected entropy CRYPTPROTECT_UI_FORBIDDEN "CryptUnprotectData".

Lemma dpapi_owns call data entropy flags name : owns (dpapi_call call data entropy flags name) (fun _ => []).
Proof.
  apply owns_seq; [apply owns_lift|]. intros i. apply owns_seq; [apply owns_lift|]. intros e.
  eapply owns_bind; [apply owns_acquiring|]. intros o s0 s Hs. unfold take_blob, out_memory in *.
  destruct (ob_pbData o =? 0); [done|]. by apply gained_release.
Qed.
End Dpapi.

(** What Windows documents: a blob opens for the account that made it or, with
    the machine flag, for every account of the machine, with the entropy it
    was made with.  [recovers w b e] is what the blob holds for the caller. *)
Class dpapi_laws (W : Type) `{api : !dpapi_api W} := {
  account : W -> Z;
  machine_id : W -> Z;
  recovers : W -> list Z -> list Z -> option (list Z);
  protect_law w data entropy flags o w' w2 :
    CryptProtectData w data entropy flags = (inr o, w') ->
    ob_pbData o <> 0 /\
    (machine_id w2 = machine_id w -> (account w2 = account w \/ Z.testbit flags 2 = true) ->
     recovers w2 (ob_data o) (ib_pbData entropy) = Some (ib_pbData data));
  unprotect_law w data entropy flags o w' :
    CryptUnprotectData w data entropy flags = (inr o, w') ->
    recovers w (ib_pbData data) (ib_pbData entropy) = Some (if ob_pbData o =? 0 then [] else ob_data o) }.

Section DpapiFacts.
Context {W : Type} `{api : !dpapi_api W} `{laws : !dpapi_laws W}.

Lemma dpapi_call_ok call data entropy flags name (s : proc_st W) r s' :
  dpapi_call call data entropy flags name s = (Ok r, s') ->
  exists o w, call (pmach s) (mkInBlob (zlen data) data) (mkInBlob (zlen entropy) entropy) flags = (inr o, w) /\
    r = (if ob_pbData o =? 0 then [] else ob_data o).
Proof.
  unfold dpapi_call, blob. intros H. apply eff_bind_ok in H as (i & s1 & Hi & H). apply eff_bind_ok in H as (e & s2 & He & H).
  apply eff_bind_ok in H as (o & s3 & Ho & H). unfold eff_lift in Hi, He. case_match; [done|]. case_match; [done|].
  injection Hi as <- <-. injection He as <- <-. unfold acquiring in Ho.
  destruct (call (pmach s) _ _ flags) as [[er|o'] w] eqn:E; [done|].
  injection Ho as <- <-. exists o', w. split; [done|]. unfold take_blob in H. case_match; by injection H as <- _.
Qed.

(** Protected data comes back: what [protect] returns, [unprotect] with
    the same entropy turns into the data again, later and in any state of the
    same machine, for the same account with [CurrentUser] and for every
    account with [LocalMachine], unless the call itself fails; and neither
    keeps the memory Windows allocated. *)
Theorem dpapi_round_trip data entropy scope s protected s1 :
  protect data entropy scope s = (Ok protected, s1) ->
  forall s2 r s3, machine_id (pmach s2) = machine_id (pmach s) ->
    (scope = CurrentUser -> account (pmach s2) = account (pmach s)) ->
    unprotect protected entropy s2 = (Ok r, s3) ->
    r = data /\ (forall x, held s1 x = held s x) /\ (forall x, held s3 x = held s2 x).
Proof.
  intros Hp s2 r s3 Hm Ha Hu. pose proof (dpapi_owns CryptProtectData data entropy (scope_flags scope) "CryptProtectData" s) as H1.
  pose proof (dpapi_owns CryptUnprotectData protected entropy CRYPTPROTECT_UI_FORBIDDEN "CryptUnprotectData" s2) as H2.
  fold (protect data entropy scope) in H1. fold (unprotect protected entropy) in H2. rewrite Hp in H1. rewrite Hu in H2.
  split_and!; [|intros x; rewrite (H1 x), count_res_nil; lia|intros x; rewrite (H2 x), count_res_nil; lia].
  apply dpapi_call_ok in Hp as (o & w & Ho & ->). apply dpapi_call_ok in Hu as (o' & w' & Ho' & ->).
  destruct (protect_law _ _ _ _ _ _ (pmach s2) Ho) as [Hnz Hr]. apply unprotect_law in Ho'. cbn [ib_pbData] in *.
  rewrite (proj2 (Z.eqb_neq _ _) Hnz) in Ho'. rewrite Hr in Ho'; [by injection Ho' as <-|done|].
  destruct scope; [left; by apply Ha|by right].
Qed.
End DpapiFacts.

(** ** A machine with one key and two accounts *)

Module CryptoSample.
(** A cipher that leaves the text as it is and tags it with a sum. *)
Definition tag (k n a p : list Z) : list Z :=
  replicate GCM_TAG_LEN (wrap 8 (foldr Z.add 0 (k ++ n ++ p) + 3 * foldr Z.add 0 a)).
Definition accepts (k c : list Z) (i : cipher_mode_info) : bool := bool_decide (tag k (nonce_of i) (aad_of i) c = tag_of i).

(** The state: the secret of the key with handle 5. *)
#[export] Instance api : cng_api (option (list Z)) := {
  nt_error status := mk_win_error status;
  BCryptGenRandom w n := (0, replicate n 0, w);
  BCryptHmac _ _ := (0, replicate HMAC_SHA256_LEN 0);
  BCryptGenerateSymmetricKey _ secret := (0, 5, Some secret);
  BCryptImportKeyPair _ _ blob := (0, 5, Some blob);
  BCryptGenerateKeyPair w _ := (0, 5, w);
  BCryptFinalizeKeyPair w _ := (0, w);
  BCryptExportKey w _ _ n := (0, replicate n 0, Z.of_nat n, w);
  BCryptSignHash w _ _ n := (0, replicate n 1, Z.of_nat n, w);
  BCryptVerifySignature w _ _ _ := (0, w);
  BCryptEncrypt w _ p i := (0, (p, tag (default [] w) (nonce_of i) (aad_of i) p), w);
  BCryptDecrypt w _ c i := (if accepts (default [] w) c i then 0 else STATUS_AUTH_TAG_MISMATCH, c, w);
  BCryptDestroyKey w _ := None }.

#[export] Instance laws : gcm_laws (option (list Z)).
Proof.
  refine (Build_gcm_laws _ _ (fun k n a p => (p, tag k n a p)) (fun w _ => w) _ _ _ _ _ _).
  - done.
  - intros k n a p. apply length_replicate.
  - intros k n a p p' H. by injection H.
  - intros w secret status h w' H _. by injection H as _ _ <-.
  - intros w h k p i status out w' -> H _. by injection H as _ <- _.
  - intros w h k c i status p w' -> H. injection H as <- <- _. cbn [default from_option id]. unfold accepts.
    case_bool_decide as E; split.
    + intros _. by rewrite E.
    + done.
    + by unfold STATUS_AUTH_TAG_MISMATCH.
    + intros _ q Hq. injection Hq as -> Ht. done.
Defined.

Definition key : AesGcmKey := aes_from_bytes (replicate AES256_KEY_LEN 9).
Definition nonce : list Z := replicate GCM_NONCE_LEN 7.
Definition start {W} (w : W) : proc_st W := mkProcSt w (fun _ => 0).

Lemma seal_open_exact_witness :
  exists sealed, fst (seal key nonce (lit "header") (lit "detection") (start None)) = Ok sealed /\
    length sealed = 25%nat /\ fst (open key nonce (lit "header") sealed (start None)) = Ok (Some (lit "detection")).
Proof.
  destruct (seal_open_exact key nonce (lit "header")) as [H _]; [done|done|].
  destruct (seal key nonce (lit "header") (lit "detection") (start None)) as [[sealed|e|x] s1] eqn:E; [|done|done].
  destruct (H _ _ _ _ E) as [Hl Ho]. exists sealed. split_and!; [done|exact Hl|].
  destruct (open key nonce (lit "header") sealed (start None)) as [[r|e|x] s2] eqn:E2.
  - by rewrite (Ho _ _ _ E2).
  - vm_compute in E. injection E as <- _. vm_compute in E2. done.
  - vm_compute in E. injection E as <- _. vm_compute in E2. done.
Defined.

Example other_aad_is_refused :
  fst (open key nonce (lit "other") (lit "detection" ++ tag (aes_key key) nonce (lit "header") (lit "detection")) (start None)) =
  Ok None.
Proof. by vm_compute. Qed.

(** DPAPI: the blob is the account (0 for the machine), the length of the
    entropy, the entropy and the data; the state is the calling account. *)
Definition dp_blob (account : Z) (entropy data : list Z) : list Z := account :: zlen entropy :: entropy ++ data.
Definition dp_recovers (account : Z) (b entropy : list Z) : option (list Z) :=
  match b with
  | owner :: n :: rest =>
      if ((owner =? 0) || (owner =? account)) && bool_decide (take (Z.to_nat n) rest = entropy)
      then Some (drop (Z.to_nat n) rest) else None
  | _ => None
  end.
Definition owner_of (flags account : Z) : Z := if Z.testbit flags 2 then 0 else account.
#[export] Instance dp_api : dpapi_api Z := {
  CryptProtectData w data entropy flags :=
    (inr (mkOutBlob 64 (dp_blob (owner_of flags w) (ib_pbData entropy) (ib_pbData data))), w);
  CryptUnprotectData w data entropy _ :=
    (match dp_recovers w (ib_pbData data) (ib_pbData entropy) with
     | Some d => inr (mkOutBlob 64 d) | None => inl (mk_win_error (-1)) end, w) }.
#[export] Instance dp_laws : dpapi_laws Z.
Proof.
  refine (Build_dpapi_laws _ _ (fun w => w) (fun _ => 0) dp_recovers _ _).
  - intros w data entropy flags o w' w2 H. injection H as <- _. split; [done|]. intros _ Ha. cbn [ob_data ob_pbData].
    unfold dp_blob, dp_recovers. unfold zlen. rewrite Nat2Z.id, take_app_length, drop_app_length, bool_decide_true by done.
    rewrite andb_true_r. unfold owner_of. destruct (Z.testbit flags 2); [done|]. destruct Ha as [Ha|]; [|done]. cbn in Ha.
    by rewrite Ha, Z.eqb_refl, orb_true_r.
  - intros w data entropy flags o w' H. cbn in H. destruct (dp_recovers _ _ _); [|done]. by injection H as <- _.
Defined.

Lemma dpapi_round_trip_witness :
  exists protected, fst (protect (lit "data key") (lit "vault") LocalMachine (start 3)) = Ok protected /\
    fst (unprotect protected (lit "vault") (start 8)) = Ok (lit "data key").
Proof.
  destruct (protect (lit "data key") (lit "vault") LocalMachine (start 3)) as [[b|e|x] s1] eqn:E; [|done|done].
  exists b. split; [done|].
  destruct (unprotect b (lit "vault") (start 8)) as [[r|e|x] s3] eqn:E2.
  - destruct (dpapi_round_trip _ _ _ _ _ _ E (start 8) r s3) as [-> _]; done.
  - vm_compute in E. injection E as <- _. vm_compute in E2. done.
  - vm_compute in E. injection E as <- _. vm_compute in E2. done.
Defined.
End CryptoSample.
