(* ===== verification/Console.v ===== *)
(** * Console: control signals

    src/console/mod.rs.  The static is the first component of the state; the
    process-wide handler runs on a thread of its own, with the static locked
    for the whole of [signal_all], so its run is one step. *)

From Stdlib Require Import ZArith Lia String Ascii.
From stdpp Require Import base list strings gmap numbers sorting.
From S2P Require Import Prelude Text Errors Backends Effects Wait.

Open Scope Z_scope.

Record HandlerState := mkHandlerState { hs_installed : bool; hs_waits : list Wait }.
Definition STATE : HandlerState := mkHandlerState false [].

Class console_api (W : Type) := { SetConsoleCtrlHandler : W -> option win_error * W }.

Section Calls.
Context {W : Type} `{api : !wait_api W} `{con : !console_api W}.

Abbreviation M := (eff (HandlerState * W) Error).

Definition signal_on_ctrl (wait : Wait) : M unit := fun '(state, w) =>
  let '(r, installed, w) :=
    (if hs_installed state then (None, true, w)
     else match SetConsoleCtrlHandler w with
          | (None, w) => (None, true, w)
          | (Some e, w) => (Some e, false, w)
          end) in
  match r with
  | Some e => (Err (windows_api_error e "SetConsoleCtrlHandler"), (mkHandlerState installed (hs_waits state), w))
  | None => (Ok tt, (mkHandlerState installed (hs_waits state ++ [wait]), w))
  end.

(** The loop of [signal_all]. *)
Fixpoint signal_loop (waits : list Wait) (any : bool) (w : W) : bool * W :=
  match waits with
  | [] => (any, w)
  | wait :: waits =>
      let '(r, w) := wait_set wait w in
      signal_loop waits (any || match r with Ok _ => true | _ => false end) w
  end.
Definition signal_all (st : HandlerState * W) : bool * (HandlerState * W) :=
  let '(any, w) := signal_loop (hs_waits (fst st)) false (snd st) in (any, (fst st, w)).
Definition ctrl_handler (ctrl_type : Z) (st : HandlerState * W) : bool * (HandlerState * W) := signal_all st.

(** Several registrations, one after another. *)
Fixpoint register_all (waits : list Wait) : M unit :=
  match waits with
  | [] => eff_ret tt
  | wait :: waits => let* _ := signal_on_ctrl wait in register_all waits
  end.
End Calls.

(** Installing the handler leaves the events alone and adds one handler;
    setting an event installs nothing. *)
Class console_laws (W : Type) `{api : !wait_api W} `{!console_api W} `{laws : !wait_laws W} := {
  handlers : W -> nat;
  install_law w w' : SetConsoleCtrlHandler w = (None, w') -> handlers w' = S (handlers w) /\ events w' = events w;
  set_installs w h : handlers (snd (SetEvent w h)) = handlers w }.

Section Signals.
Context {W : Type} `{api : !wait_api W} `{con : !console_api W} `{laws : !wait_laws W} `{cl : !console_laws W}.

Lemma signal_on_ctrl_ok wait st w st' w' :
  signal_on_ctrl wait (st, w) = (Ok tt, (st', w')) ->
  st' = mkHandlerState true (hs_waits st ++ [wait]) /\ events w' = events w /\
  handlers w' = (handlers w + if hs_installed st then 0 else 1)%nat.
Proof.
  unfold signal_on_ctrl. destruct (hs_installed st).
  - intros [= <- <-]. split_and!; [done|done|lia].
  - destruct (SetConsoleCtrlHandler w) as [[e|] w1] eqn:E; [done|]. intros [= <- <-].
    apply install_law in E as [E1 E2]. split_and!; [done|done|lia].
Qed.

Lemma register_all_ok waits st w st' w' :
  register_all waits (st, w) = (Ok tt, (st', w')) ->
  hs_waits st' = hs_waits st ++ waits /\ events w' = events w /\
  handlers w' = (handlers w + if hs_installed st || bool_decide (waits = []) then 0 else 1)%nat.
Proof.
  revert st w. induction waits as [|x waits IH]; intros st w; cbn [register_all].
  - intros [= <- <-]. rewrite app_nil_r, orb_true_r. split_and!; [done|done|lia].
  - intros H. apply eff_bind_ok in H as ([] & [st1 w1] & H1 & H2).
    apply signal_on_ctrl_ok in H1 as (-> & He & Hh). apply IH in H2 as (-> & He2 & ->).
    cbn [hs_waits hs_installed orb]. rewrite Hh, He2, He, <- app_assoc. split_and!; [done|done|].
    rewrite bool_decide_false by done. rewrite orb_false_r. destruct (hs_installed st); lia.
Qed.

Lemma signal_loop_ok waits any w :
  Forall (fun x => is_Some (events w !! wait_raw x)) waits ->
  exists w', signal_loop waits any w = (any || negb (bool_decide (waits = [])), w') /\ handlers w' = handlers w /\
    (forall h e, events w !! h = Some e -> exists e', events w' !! h = Some e' /\
       ev_signaled e' = bool_decide (h ∈ wait_raw <$> waits) || ev_signaled e).
Proof.
  revert any w. induction waits as [|x waits IH]; intros any w Hall.
  { exists w. cbn. rewrite orb_false_r. split_and!; [done|done|]. intros h e He. by exists e. }
  apply Forall_cons in Hall as [[ex Hx] Hall]. cbn [signal_loop]. unfold wait_set.
  destruct (set_event_law w _ ex Hx) as [Hs Hs']. pose proof (set_installs w (wait_raw x)) as Hi.
  destruct (SetEvent w (wait_raw x)) as [ok w1]. cbn [fst snd] in *. subst ok.
  destruct (IH (any || true) w1) as (w' & Hl & Hh & Hev).
  { eapply Forall_impl; [exact Hall|]. intros y [ey Hy]. rewrite Hs'.
    destruct (decide (wait_raw y = wait_raw x)) as [->|]; [by rewrite lookup_insert_eq|].
    rewrite lookup_insert_ne by done. by exists ey. }
  exists w'. split_and!; [by rewrite Hl, !orb_true_r|by rewrite Hh|].
  intros h e He. rewrite fmap_cons. destruct (decide (h = wait_raw x)) as [->|Hne].
  - destruct (Hev (wait_raw x) (mk_event (ev_manual ex) true)) as (e' & He' & Hsig); [by rewrite Hs', lookup_insert_eq|].
    exists e'. split; [done|]. rewrite Hsig. cbn [ev_signaled]. rewrite orb_true_r. rewrite bool_decide_true by set_solver. done.
  - destruct (Hev h e) as (e' & He' & Hsig); [by rewrite Hs', lookup_insert_ne|].
    exists e'. split; [done|]. rewrite Hsig. f_equal. apply bool_decide_ext. set_solver.
Qed.

(** A control signal reaches every registered wait object.  After any
    number of registrations starting from the initial static, the process has
    installed its handler exactly once (not at all without a registration);
    when the signal arrives the handler reports it as handled if and only if
    something is registered, and every registered object that still exists
    then polls as signaled, while no other object changes. *)
Theorem ctrl_signal_reaches_all waits w st' w' ctrl_type :
  Forall (fun x => is_Some (events w !! wait_raw x)) waits ->
  register_all waits (STATE, w) = (Ok tt, (st', w')) ->
  exists w'', ctrl_handler ctrl_type (st', w') = (negb (bool_decide (waits = [])), (st', w'')) /\
    handlers w'' = (handlers w + if bool_decide (waits = []) then 0 else 1)%nat /\
    (forall x, x ∈ waits -> exists u, is_signaled x w'' = (Ok true, u)) /\
    (forall h e, events w !! h = Some e -> (forall x, x ∈ waits -> wait_raw x <> h) ->
       exists e', events w'' !! h = Some e' /\ ev_signaled e' = ev_signaled e).
Proof.
  intros Hall H. apply register_all_ok in H as (Hw & He & Hh). cbn [STATE hs_waits hs_installed app orb] in Hw, Hh.
  destruct (signal_loop_ok waits false w') as (w'' & Hl & Hh2 & Hev); [by rewrite He|]. exists w''.
  unfold ctrl_handler, signal_all. cbn [fst snd]. rewrite Hw, Hl, Hh2, Hh. cbn [orb]. split_and!; [done|done| |].
  - intros x Hx. rewrite Forall_forall in Hall. destruct (Hall x Hx) as [e Hex]. rewrite <- He in Hex.
    destruct (Hev _ _ Hex) as (e' & He' & Hs). destruct (poll_one x w'' e' He') as (u & Hp & _). exists u. rewrite Hp.
    rewrite bool_decide_true in Hs by (by apply list_elem_of_fmap_2). by rewrite Hs.
  - intros h e Hh' Hn. rewrite <- He in Hh'. destruct (Hev _ _ Hh') as (e' & He' & Hs). exists e'. split; [done|].
    rewrite bool_decide_false in Hs; [done|]. intros (x & -> & Hx)%list_elem_of_fmap. by apply (Hn x).
Qed.
End Signals.

(** ** A console *)

Module ConsoleSample.
Definition world : Type := gmap Z event * nat.
Definition lift2 {A} (r : A * gmap Z event) (n : nat) : A * world := (fst r, (snd r, n)).
#[export] Instance w_api : wait_api world := {|
  last_error _ := 6;
  CreateEventW w manual initial name := lift2 (CreateEventW (wait_api := toy_wait) (fst w) manual initial name) (snd w);
  SetEvent w h := lift2 (SetEvent (wait_api := toy_wait) (fst w) h) (snd w);
  ResetEvent w h := lift2 (ResetEvent (wait_api := toy_wait) (fst w) h) (snd w);
  WaitForSingleObject w h ms := lift2 (WaitForSingleObject (wait_api := toy_wait) (fst w) h ms) (snd w);
  WaitForMultipleObjects w hs all ms := lift2 (WaitForMultipleObjects (wait_api := toy_wait) (fst w) hs all ms) (snd w) |}.
#[export] Instance w_laws : wait_laws world.
Proof.
  refine (Build_wait_laws world w_api fst _ _ _ _); intros w h.
  - intros e He. destruct (set_event_law (wait_laws := toy_wait_laws) (fst w) h e He). done.
  - intros e He. destruct (reset_event_law (wait_laws := toy_wait_laws) (fst w) h e He). done.
  - intros Hh. destruct (poll_law (wait_laws := toy_wait_laws) (fst w) h Hh) as (u & H1 & H2). exists (u, snd w).
    cbn -[toy_wait]. unfold lift2. split; [by rewrite H1|exact H2].
  - intros H1 H2 H3. destruct (poll_any_law (wait_laws := toy_wait_laws) (fst w) h H1 H2 H3) as (u & H). exists (u, snd w).
    cbn -[toy_wait]. unfold lift2. destruct (position _ _); destruct H as [Ha Hb]; by rewrite Ha.
Defined.
#[export] Instance c_api : console_api world := { SetConsoleCtrlHandler w := (None, (fst w, S (snd w))) }.
#[export] Instance c_laws : console_laws world.
Proof.
  refine (Build_console_laws world _ _ _ snd _ _).
  - intros w w' H. injection H as <-. done.
  - done.
Defined.

Definition start : world := (<[1 := mk_event true false]> (<[2 := mk_event true false]> (<[3 := mk_event true false]> ∅)), 0%nat).
Definition waits : list Wait := [mkWait 1 true; mkWait 3 true].

Lemma ctrl_signal_reaches_all_witness :
  exists st w, register_all waits (STATE, start) = (Ok tt, (st, w)) /\ fst (ctrl_handler 0 (st, w)) = true /\
    (ev_signaled <$> (events (snd (snd (ctrl_handler 0 (st, w)))) !! 3)) = Some true.
Proof.
  destruct (register_all waits (STATE, start)) as [[[]|e|x] [st w]] eqn:E; [|vm_compute in E; discriminate..].
  exists st, w. split; [done|].
  destruct (ctrl_signal_reaches_all waits start st w 0) as (w2 & H1 & H2 & H3 & H4).
  - repeat constructor; by eexists.
  - exact E.
  - rewrite H1. split; [done|]. vm_compute in E. injection E as <- <-. vm_compute in H1. injection H1 as <-. by vm_compute.
Defined.
End ConsoleSample.
