(* ===== verification/Window.v ===== *)
(** * Window: windows, their messages and their procedure

    src/desktop/types.rs, msg.rs, dpi.rs and window.rs.  Handles and pointers
    are integers, 0 is null.  The calls are the class [window_api]; the window
    procedure and the handlers it runs are the step function [wstep] at the
    end. *)

From Stdlib Require Import ZArith Lia String Ascii.
From stdpp Require Import base list strings gmap numbers sorting.
From S2P Require Import Prelude Text Unicode Errors Backends Effects Resources.

Open Scope Z_scope.

(** ** Types *)

Record WindowRect := mkWindowRect { wr_left : Z; wr_top : Z; wr_right : Z; wr_bottom : Z }.

(** An [i32] difference. *)
Definition sub_i32 {E} (p : profile) (a b : Z) : res E Z :=
  if (- 2 ^ 31 <=? a - b) && (a - b <? 2 ^ 31) then Ok (a - b)
  else match p with Debug => Panic ArithmeticOverflow | Release => Ok (as_i32 (wrap 32 (a - b))) end.
Definition rect_width {E} (p : profile) (r : WindowRect) : res E Z := sub_i32 p (wr_right r) (wr_left r).
Definition rect_height {E} (p : profile) (r : WindowRect) : res E Z := sub_i32 p (wr_bottom r) (wr_top r).

Inductive CloakState := NotCloaked | CloakedApp | CloakedShell | CloakedInherited | CloakUnknown (raw : Z).
Definition cloak_from_raw (raw : Z) : CloakState :=
  if raw =? 0 then NotCloaked
  else if negb (Z.land raw 0x1 =? 0) then CloakedApp
  else if negb (Z.land raw 0x2 =? 0) then CloakedShell
  else if negb (Z.land raw 0x4 =? 0) then CloakedInherited
  else CloakUnknown raw.
Definition is_cloaked (c : CloakState) : bool := match c with NotCloaked => false | _ => true end.

Inductive BalloonIcon := BalloonNone | BalloonInfo | BalloonWarning | BalloonError.

(** ** Message parameters *)

Definition WM_NULL : Z := 0x0.
Definition WM_SIZE : Z := 0x5.
Definition WM_QUIT : Z := 0x12.
Definition WM_SETTINGCHANGE : Z := 0x1A.
Definition WM_NOTIFY : Z := 0x4E.
Definition WM_CONTEXTMENU : Z := 0x7B.
Definition WM_NCCREATE : Z := 0x81.
Definition WM_NCDESTROY : Z := 0x82.

Definition loword (value : Z) : Z := Z.land value 0xFFFF.
Definition hiword (value : Z) : Z := Z.land (Z.shiftr value 16) 0xFFFF.

(** [as i16], of a [u16]. *)
Definition as_i16 (z : Z) : Z := if z <? 2 ^ 15 then z else z - 2 ^ 16.

(** [lparam] is an [isize]: the shift is arithmetic. *)
Definition mouse_position (lparam : Z) : Z * Z :=
  (as_i16 (Z.land lparam 0xFFFF), as_i16 (Z.land (Z.shiftr lparam 16) 0xFFFF)).

(** ** DPI *)

Definition DEFAULT_DPI : Z := 96.
(** [(i64::from(value) * i64::from(dpi) / 96) as i32]: the division truncates
    towards zero. *)
Definition scale (value dpi : Z) : Z := as_i32 (wrap 32 (Z.quot (value * dpi) DEFAULT_DPI)).
Definition suggested_rect (r : Z * Z * Z * Z) : WindowRect :=
  let '(l, t, rt, b) := r in mkWindowRect l t rt b.

(** ** Errors *)

Definition op_error (operation : string) (target : str) (code : Z) : Error :=
  Error_Desktop (DesktopError_OperationFailed (mkDesktopOperationError (lit operation) target (Some code))).
Definition win_op_error (operation : string) (target : str) (e : win_error) : Error :=
  op_error operation target (win_error_code e).

Definition invalid_name (field reason : string) : Error :=
  Error_InvalidParameter (mkInvalidParameterError (lit field) (lit reason)).
Definition validate_name (field : string) (value : str) : res Error unit :=
  if decide (value = []) then Err (invalid_name field "value cannot be empty")
  else if bool_decide (0 ∈ value) then Err (invalid_name field "value cannot contain NUL characters")
  else Ok tt.

(** ** The calls *)

Definition ERROR_CLASS_ALREADY_EXISTS : Z := 1410.
Definition WS_CHILD : Z := 0x40000000.
Definition WS_CLIPSIBLINGS : Z := 0x04000000.
Definition WS_CLIPCHILDREN : Z := 0x02000000.
Definition WS_OVERLAPPEDWINDOW : Z := 0x00CF0000.
Definition WS_VISIBLE : Z := 0x10000000.
Definition WS_TABSTOP : Z := 0x00010000.
Definition WS_EX_CLIENTEDGE : Z := 0x200.
Definition CW_USEDEFAULT : Z := - 2 ^ 31.
Definition HWND_MESSAGE : Z := -3.
Definition LR_SHARED : Z := 0x8000.
Definition LR_DEFAULTSIZE : Z := 0x40.
Definition SW_HIDE : Z := 0.
Definition SW_SHOW : Z := 5.
Definition SW_RESTORE : Z := 9.
Definition VK_CONTROL : Z := 0x11.
Definition TME_LEAVE : Z := 2.

(** The window class, by the fields the code sets, and the arguments of
    [CreateWindowExW].  [lpCreateParams] is the address of the handler. *)
Record window_class := mkWndClass {
  lpfnWndProc : string; hInstance : Z; hIcon : Z; hIconSm : Z; hCursor : Z; hbrBackground : Z; lpszClassName : list Z }.
Record create_args := mkCreateArgs {
  ca_ex_style : Z; ca_class : list Z; ca_title : option (list Z); ca_style : Z; ca_x : Z; ca_y : Z; ca_width : Z;
  ca_height : Z; ca_parent : Z; ca_menu : Z; ca_instance : Z; ca_params : Z }.

Record MSG := mkMsg { msg_hwnd : Z; msg_message : Z; msg_wParam : Z; msg_lParam : Z }.

Class window_api (W : Type) := {
  GetModuleHandleW : W -> win_error + Z;
  LoadCursorW : W -> option Z;
  LoadImageW : W -> Z -> Z -> Z -> Z -> (win_error + Z) * W;
  RegisterClassW : W -> window_class -> Z * W;
  GetLastError : W -> Z;
  CreateWindowExW : W -> create_args -> (win_error + Z) * W;
  IsWindow : W -> Z -> bool;
  DestroyWindow : W -> Z -> option win_error * W;
  ShowWindow : W -> Z -> Z -> W;
  IsWindowVisible : W -> Z -> bool;
  SetForegroundWindow : W -> Z -> bool * W;
  SetWindowTextW : W -> Z -> list Z -> option win_error * W;
  GetClientRect : W -> Z -> win_error + WindowRect;
  GetWindowRect : W -> Z -> win_error + WindowRect;
  MoveWindow : W -> Z -> Z -> Z -> Z -> Z -> bool -> option win_error * W;
  InvalidateRect : W -> Z -> W;
  PostMessageW : W -> Z -> Z -> Z -> Z -> option win_error * W;
  SendMessageW : W -> Z -> Z -> Z -> Z -> Z * W;
  BeginPaint : W -> Z -> W;
  EndPaint : W -> Z -> W;
  GetKeyState : W -> Z -> Z;
  TrackMouseEvent : W -> Z -> Z -> W;
  SetTimer : W -> Z -> Z -> Z -> W;
  KillTimer : W -> Z -> Z -> W;
  SetFocus : W -> Z -> W;
  GetMessageW : W -> Z * MSG * W;
  IsDialogMessageW : W -> Z -> MSG -> bool * W;
  TranslateMessage : W -> MSG -> W;
  DispatchMessageW : W -> MSG -> W;
  PostQuitMessage : W -> Z -> W;
  GetDpiForWindow : W -> Z -> Z;
  SetProcessDpiAwarenessContext : W -> option win_error * W }.

Record WindowClass := mkWindowClass { wc_name : list Z }.
Record WindowClassBuilder := mkWindowClassBuilder { wcb_name : str; wcb_icon_resource : option Z }.
Definition class_builder (name : str) : WindowClassBuilder := mkWindowClassBuilder name None.
Definition class_icon_resource (self : WindowClassBuilder) (id : Z) : WindowClassBuilder :=
  mkWindowClassBuilder (wcb_name self) (Some id).

Record WindowBuilder := mkWindowBuilder {
  wb_class : WindowClass; wb_title : str; wb_size : option (Z * Z); wb_message_only : bool; wb_child : option (Z * Z) }.
Definition window_new (class : WindowClass) : WindowBuilder := mkWindowBuilder class [] None false None.
Definition window_title (b : WindowBuilder) (title : str) : WindowBuilder :=
  mkWindowBuilder (wb_class b) title (wb_size b) (wb_message_only b) (wb_child b).
Definition window_size (b : WindowBuilder) (width height : Z) : WindowBuilder :=
  mkWindowBuilder (wb_class b) (wb_title b) (Some (width, height)) (wb_message_only b) (wb_child b).
Definition window_message_only (b : WindowBuilder) : WindowBuilder :=
  mkWindowBuilder (wb_class b) (wb_title b) (wb_size b) true (wb_child b).
Definition window_child_of (b : WindowBuilder) (parent id : Z) : WindowBuilder :=
  mkWindowBuilder (wb_class b) (wb_title b) (wb_size b) (wb_message_only b) (Some (parent, id)).

Section Calls.
Context {W : Type} `{api : !window_api W}.

Abbreviation P := (eff (proc_st W) Error).

(** A call that only succeeds or fails. *)
Definition done_or (call : W -> option win_error * W) (operation : string) (target : str) : P unit :=
  calling (fun w => match call w with (None, w) => (inr tt, w) | (Some e, w) => (inl e, w) end) (win_op_error operation target).
(** A read. *)
Definition looking {A} (f : W -> A) : P A := fun s => (Ok (f (pmach s)), s).
Definition reading_or {A} (call : W -> win_error + A) (operation : string) (target : str) : P A := fun s =>
  match call (pmach s) with inr a => (Ok a, s) | inl e => (Err (win_op_error operation target e), s) end.

Definition module_instance (operation : string) : P Z := reading_or GetModuleHandleW operation (lit "GetModuleHandleW").

Definition load_icon_resource (id size : Z) : P Z :=
  let* instance := module_instance "LoadImageW" in
  let flags := if size =? 0 then Z.lor LR_SHARED LR_DEFAULTSIZE else LR_SHARED in
  calling (fun w => LoadImageW w instance id size flags) (win_op_error "LoadImageW" (lit "icon resource " ++ fmt_dec id)).

(** [RegisterClassExW] or [RegisterClassW], and the name that is there already. *)
Definition register_or_reuse (class : window_class) (operation : string) (name : str) : P unit :=
  let* atom := asking (fun w => RegisterClassW w class) in
  if atom =? 0 then
    let* code := looking GetLastError in
    if code =? ERROR_CLASS_ALREADY_EXISTS then eff_ret tt else eff_fail (op_error operation name (as_i32 code))
  else eff_ret tt.

Definition class_register (self : WindowClassBuilder) : P WindowClass :=
  let* _ := eff_lift (validate_name "class_name" (wcb_name self)) in
  let* instance := module_instance "RegisterClassExW" in
  let name := to_utf16_nul (wcb_name self) in
  let* icon := match wcb_icon_resource self with Some id => load_icon_resource id 0 | None => eff_ret 0 end in
  let* cursor := looking (fun w => default 0 (LoadCursorW w)) in
  let* _ := register_or_reuse (mkWndClass "handler_window_proc" instance icon icon cursor 6 name) "RegisterClassExW" (wcb_name self) in
  eff_ret (mkWindowClass name).

(** The arguments [create] passes. *)
Definition create_style (b : WindowBuilder) : Z * Z * Z :=
  match wb_child b, wb_message_only b with
  | Some (parent, id), _ => (Z.lor (Z.lor WS_CHILD WS_CLIPSIBLINGS) WS_CLIPCHILDREN, parent, id)
  | None, true => (0, HWND_MESSAGE, 0)
  | None, false => (Z.lor WS_OVERLAPPEDWINDOW WS_CLIPCHILDREN, 0, 0)
  end.
Definition create_position (b : WindowBuilder) : Z * Z :=
  match wb_child b with Some _ => (0, 0) | None => (CW_USEDEFAULT, CW_USEDEFAULT) end.
Definition create_size (b : WindowBuilder) : Z * Z :=
  match wb_child b, wb_size b with
  | _, Some size => size
  | Some _, None => (0, 0)
  | None, None => (CW_USEDEFAULT, CW_USEDEFAULT)
  end.

Record Window := mkWindow { w_hwnd : Z }.

(** [slot] is the address of the boxed handler; the window owns it from here on. *)
Definition window_create (b : WindowBuilder) (slot : Z) : P Window :=
  let* instance := module_instance "CreateWindowExW" in
  let '(style, parent, menu) := create_style b in
  let '(x, y) := create_position b in
  let '(width, height) := create_size b in
  let* hwnd := acquiring (fun w => CreateWindowExW w (mkCreateArgs 0 (wc_name (wb_class b)) (Some (to_utf16_nul (wb_title b)))
                            style x y width height parent menu instance slot))
                 (fun h => [ResWindow h]) (win_op_error "CreateWindowExW" (wb_title b)) in
  eff_ret (mkWindow hwnd).

(** [Drop for Window]: only a window that still exists is destroyed; one that
    is gone was destroyed by [WindowHandle::destroy] or by the system. *)
Definition destroy_call (hwnd : Z) (s : proc_st W) : proc_st W :=
  match DestroyWindow (pmach s) hwnd with
  | (None, w) => release (ResWindow hwnd) (at_machine w s)
  | (Some _, w) => at_machine w s
  end.
Definition drop_window (self : Window) (s : proc_st W) : proc_st W :=
  if IsWindow (pmach s) (w_hwnd self) then destroy_call (w_hwnd self) s else s.

(** *** [WindowHandle] *)

Definition show (h : Z) : P unit :=
  let* _ := telling (fun w => ShowWindow w h SW_SHOW) in telling (fun w => ShowWindow w h SW_RESTORE).
Definition hide (h : Z) : P unit := telling (fun w => ShowWindow w h SW_HIDE).
Definition is_visible (h : Z) : P bool := looking (fun w => IsWindowVisible w h).
Definition set_foreground (h : Z) : P bool := asking (fun w => SetForegroundWindow w h).
Definition set_text (h : Z) (text : str) : P unit :=
  done_or (fun w => SetWindowTextW w h (to_utf16_nul text)) "SetWindowTextW" (lit "window text").
Definition client_rect (h : Z) : P WindowRect := reading_or (fun w => GetClientRect w h) "GetClientRect" (lit "window").
Definition window_rect (h : Z) : P WindowRect := reading_or (fun w => GetWindowRect w h) "GetWindowRect" (lit "window").
Definition set_bounds (p : profile) (h : Z) (rect : WindowRect) : P unit :=
  let* width := eff_lift (rect_width p rect) in
  let* height := eff_lift (rect_height p rect) in
  done_or (fun w => MoveWindow w h (wr_left rect) (wr_top rect) width height true) "MoveWindow" (lit "window").
Definition invalidate (h : Z) : P unit := telling (fun w => InvalidateRect w h).
Definition destroy (h : Z) : P unit := fun s =>
  match DestroyWindow (pmach s) h with
  | (None, w) => (Ok tt, release (ResWindow h) (at_machine w s))
  | (Some e, w) => (Err (win_op_error "DestroyWindow" (lit "window") e), at_machine w s)
  end.
Definition post (h msg wparam lparam : Z) : P unit :=
  done_or (fun w => PostMessageW w h msg wparam lparam) "PostMessageW" (lit "window").
Definition paint_begin (h : Z) : P Z := fun s => (Ok h, acquire (ResPaint h) (at_machine (BeginPaint (pmach s) h) s)).
Definition drop_paint (h : Z) (s : proc_st W) : proc_st W := release (ResPaint h) (at_machine (EndPaint (pmach s) h) s).
Definition ctrl_down : P bool := looking (fun w => GetKeyState w VK_CONTROL <? 0).
Definition track_mouse_leave (h : Z) : P unit := telling (fun w => TrackMouseEvent w TME_LEAVE h).
Definition set_timer (h id millis : Z) : P unit := telling (fun w => SetTimer w h id millis).
Definition kill_timer (h id : Z) : P unit := telling (fun w => KillTimer w h id).
Definition focus (h : Z) : P unit := telling (fun w => SetFocus w h).
Definition post_quit (code : Z) : P unit := telling (fun w => PostQuitMessage w code).

Definition set_process_dpi_aware_per_monitor_v2 : P bool :=
  asking (fun w => let '(e, w) := SetProcessDpiAwarenessContext w in (match e with None => true | Some _ => false end, w)).
Definition dpi_for_window (h : Z) : P Z :=
  looking (fun w => let dpi := GetDpiForWindow w h in if dpi =? 0 then DEFAULT_DPI else dpi).

(** *** The message loop

    [dialog] is the window whose keyboard navigation is handled. *)
Fixpoint run_message_loop (fuel : nat) (dialog : option Z) (w : W) : option Z * W :=
  match fuel with
  | O => (None, w)
  | S fuel =>
      let '(got, msg, w) := GetMessageW w in
      if got =? 0 then (Some (as_i32 (wrap 32 (msg_wParam msg))), w)
      else if got =? -1 then (Some (-1), w)
      else
        let '(taken, w) := match dialog with Some d => IsDialogMessageW w d msg | None => (false, w) end in
        if taken then run_message_loop fuel dialog w
        else run_message_loop fuel dialog (DispatchMessageW (TranslateMessage w msg) msg)
  end.
End Calls.

(** ** Parameters and lengths *)

Lemma as_i16_mod x : - 2 ^ 15 <= x < 2 ^ 15 -> as_i16 (x mod 2 ^ 16) = x.
Proof.
  intros H. unfold as_i16. destruct (Z.lt_ge_cases x 0) as [Hn|Hp].
  - replace (x mod 2 ^ 16) with (x + 2 ^ 16) by (rewrite <- (Z.mod_add x 1) by lia; rewrite Z.mod_small; lia).
    replace (_ <? _) with false by lia. lia.
  - rewrite Z.mod_small by lia. replace (_ <? _) with true by lia. done.
Qed.

Lemma low_word a b k : 0 <= a < 2 ^ 16 -> Z.land (a + 2 ^ 16 * (b + 2 ^ 16 * k)) 0xFFFF = a.
Proof. intros H. change 0xFFFF with (Z.ones 16). rewrite Z.land_ones by lia. rewrite (Z.mul_comm (2 ^ 16)), Z.mod_add by lia. by apply Z.mod_small. Qed.

Lemma high_word a b k :
  0 <= a < 2 ^ 16 -> 0 <= b < 2 ^ 16 -> Z.land (Z.shiftr (a + 2 ^ 16 * (b + 2 ^ 16 * k)) 16) 0xFFFF = b.
Proof.
  intros Ha Hb. change 0xFFFF with (Z.ones 16). rewrite Z.land_ones, Z.shiftr_div_pow2 by lia.
  rewrite (Z.mul_comm (2 ^ 16)), Z.div_add, Z.div_small by lia. cbn [Z.add].
  rewrite Z.add_0_l, (Z.mul_comm (2 ^ 16)), Z.mod_add by lia. by apply Z.mod_small.
Qed.

(** The position of a mouse message, negative coordinates of a monitor to the
    left or above included, whatever the upper half of the parameter is. *)
Lemma mouse_position_packed x y k :
  - 2 ^ 15 <= x < 2 ^ 15 -> - 2 ^ 15 <= y < 2 ^ 15 ->
  mouse_position (x mod 2 ^ 16 + 2 ^ 16 * (y mod 2 ^ 16 + 2 ^ 16 * k)) = (x, y).
Proof.
  intros Hx Hy. pose proof (Z.mod_pos_bound x (2 ^ 16)). pose proof (Z.mod_pos_bound y (2 ^ 16)). unfold mouse_position.
  rewrite low_word, high_word by lia. by rewrite !as_i16_mod.
Qed.

(** A scaled length is the proportional one, cut towards zero, and never
    beyond it, as long as it fits; beyond that the cast keeps 32 bits. *)
Lemma scale_exact value dpi :
  - 2 ^ 31 <= value * dpi / 96 < 2 ^ 31 - 1 -> scale value dpi = Z.quot (value * dpi) 96.
Proof.
  unfold scale, DEFAULT_DPI, as_i32, wrap. generalize (value * dpi). intros n H. set (q := Z.quot n 96).
  assert (- 2 ^ 31 <= q < 2 ^ 31) as Hq.
  { unfold q. destruct (Z.lt_ge_cases n 0) as [Hn|Hn]; [|rewrite Z.quot_div_nonneg; lia].
    rewrite <- (Z.opp_involutive n), Z.quot_opp_l, Z.quot_div_nonneg by lia.
    pose proof (Z.div_mod n 96). pose proof (Z.div_mod (- n) 96). pose proof (Z.mod_pos_bound n 96).
    pose proof (Z.mod_pos_bound (- n) 96). lia. }
  destruct (Z.lt_ge_cases q 0).
  - replace (q mod 2 ^ 32) with (q + 2 ^ 32) by (rewrite <- (Z.mod_add q 1) by lia; rewrite Z.mod_small; lia).
    replace (_ <? _) with false by lia. lia.
  - rewrite Z.mod_small by lia. replace (_ <? _) with true by lia. done.
Qed.

Lemma scale_identity value : - 2 ^ 31 <= value < 2 ^ 31 - 1 -> scale value DEFAULT_DPI = value.
Proof. intros H. rewrite scale_exact; unfold DEFAULT_DPI; rewrite ?Z.div_mul, ?Z.quot_mul by lia; lia. Qed.

(** A valid name is not empty and has no NUL, so the wide string Windows reads
    is the whole name. *)
Lemma validate_name_ok field value : validate_name field value = Ok tt <-> value <> [] /\ 0 ∉ value.
Proof.
  unfold validate_name. case_decide as Hn; [naive_solver|]. case_bool_decide; naive_solver.
Qed.

(** ** The message loop *)

Class queue_laws (W : Type) `{api : !window_api W} := {
  pending : W -> list MSG;
  dispatched : W -> list MSG;
  is_dialog : Z -> MSG -> bool;
  get_law w m q : pending w = m :: q -> exists got w', GetMessageW w = (got, m, w') /\
    (msg_message m = WM_QUIT -> got = 0) /\ (msg_message m <> WM_QUIT -> got <> 0 /\ got <> -1) /\
    pending w' = q /\ dispatched w' = dispatched w;
  dialog_law w d m : exists extra w', IsDialogMessageW w d m = (is_dialog d m, w') /\
    pending w' = pending w ++ extra /\ dispatched w' = dispatched w;
  dispatch_law w m : exists extra, pending (DispatchMessageW (TranslateMessage w m) m) = pending w ++ extra /\
    dispatched (DispatchMessageW (TranslateMessage w m) m) = dispatched w ++ [m] }.

Section Loop.
Context {W : Type} `{api : !window_api W} `{laws : !queue_laws W}.

Definition to_dispatch (dialog : option Z) (m : MSG) : bool :=
  match dialog with Some d => negb (is_dialog d m) | None => true end.

(** The message loop handles every message before the quit message, in order,
    and then ends with the code of that message: those the dialog takes are
    not dispatched, every other exactly once, and messages that handlers post
    meanwhile do not keep the loop from ending. *)
Theorem message_loop_ends dialog (ms : list MSG) (quit : MSG) rest w :
  pending w = ms ++ quit :: rest -> Forall (fun m => msg_message m <> WM_QUIT) ms -> msg_message quit = WM_QUIT ->
  exists w', run_message_loop (S (length ms)) dialog w = (Some (as_i32 (wrap 32 (msg_wParam quit))), w') /\
    dispatched w' = dispatched w ++ List.filter (to_dispatch dialog) ms.
Proof.
  intros Hp Hms Hq. revert rest w Hp. induction Hms as [|m ms Hm _ IH]; intros rest w Hp.
  - destruct (get_law w quit rest Hp) as (got & w' & Hg & H0 & _ & _ & Hd). exists w'.
    cbn [length run_message_loop]. rewrite Hg, (H0 Hq). cbn. rewrite app_nil_r. done.
  - destruct (get_law w m (ms ++ quit :: rest) Hp) as (got & w1 & Hg & _ & H1 & Hp1 & Hd1). destruct (H1 Hm) as [Hn0 Hn1].
    change (length (m :: ms)) with (S (length ms)). set (n := S (length ms)) in *. cbn [run_message_loop].
    rewrite Hg, (proj2 (Z.eqb_neq _ _) Hn0), (proj2 (Z.eqb_neq _ _) Hn1).
    assert (forall w2 extra, pending w2 = pending w1 ++ extra ->
      exists rest', pending w2 = ms ++ quit :: rest') as Hrest.
    { intros w2 extra ->. rewrite Hp1. exists (rest ++ extra). by rewrite <- app_assoc. }
    cbn [List.filter]. unfold to_dispatch at 1. destruct dialog as [d|].
    + destruct (dialog_law w1 d m) as (extra & w2 & Hi & Hp2 & Hd2). rewrite Hi. destruct (Hrest _ _ Hp2) as [rest' Hr].
      destruct (is_dialog d m); cbn [negb].
      * destruct (IH rest' w2 Hr) as (w' & -> & Hd). exists w'. split; [done|]. by rewrite Hd, Hd2, Hd1.
      * destruct (dispatch_law w2 m) as (extra' & Hp3 & Hd3).
        destruct (IH (rest' ++ extra') _ ltac:(rewrite Hp3, Hr, <- app_assoc; done)) as (w' & -> & Hd).
        exists w'. split; [done|]. by rewrite Hd, Hd3, Hd2, Hd1, <- app_assoc.
    + destruct (dispatch_law w1 m) as (extra & Hp3 & Hd3). destruct (Hrest _ _ Hp3) as [rest' Hr].
      destruct (IH rest' _ Hr) as (w' & -> & Hd). exists w'. split; [done|]. by rewrite Hd, Hd3, Hd1, <- app_assoc.
Qed.
End Loop.

(** ** The window procedure and its handlers

    [handler_window_proc] is entered again whenever a handler, or
    [DefWindowProcW], sends a message, so the calls in progress form a stack.
    A call is split where its handler runs: [proc_enter] is the code up to and
    including the dereference of the slot, [proc_leave] the code after the
    handler returned; what the default processing sends is entered after
    that.  A slot is an allocation, never used for two handlers. *)

Record frame := mkFrame { f_hwnd : Z; f_msg : Z; f_slot : Z }.
(** What Windows did to a window: nothing yet (no entry), created it, is
    destroying it, destroyed it. *)
Inductive phase := Alive | Destroying | Gone.
Record wstate := mkWState {
  userdata : gmap Z Z;      (** [GWLP_USERDATA] *)
  live : gset Z;            (** the boxed handlers *)
  stack : list frame;
  dropped : list Z;         (** the handlers dropped so far *)
  phases : gmap Z phase;
  owners : gmap Z Z         (** the handler a window was created with *) }.
Definition winit : wstate := mkWState ∅ ∅ [] [] ∅ ∅.

Definition user_slot (st : wstate) (h : Z) : Z := default 0 (userdata st !! h).

Inductive wevent := EBox (slot : Z) | EEnter (hwnd msg params : Z) | ELeave.

Definition proc_enter (st : wstate) (hwnd msg params : Z) : res none wstate :=
  let userdata' := if msg =? WM_NCCREATE then <[hwnd := params]> (userdata st) else userdata st in
  let slot := default 0 (userdata' !! hwnd) in
  let phases' := if msg =? WM_NCCREATE then <[hwnd := Alive]> (phases st)
                 else if msg =? WM_NCDESTROY then <[hwnd := Destroying]> (phases st) else phases st in
  let owners' := if msg =? WM_NCCREATE then <[hwnd := params]> (owners st) else owners st in
  if (slot =? 0) || bool_decide (slot ∈ live st)
  then Ok (mkWState userdata' (live st) (mkFrame hwnd msg slot :: stack st) (dropped st) phases' owners')
  else Panic UndefinedBehaviour.

Definition proc_leave (st : wstate) : res none wstate :=
  match stack st with
  | [] => Err NoneV
  | f :: frames =>
      let phases' := if f_msg f =? WM_NCDESTROY then <[f_hwnd f := Gone]> (phases st) else phases st in
      if (f_msg f =? WM_NCDESTROY) && negb (f_slot f =? 0) then
        if bool_decide (f_slot f ∈ live st)
        then Ok (mkWState (<[f_hwnd f := 0]> (userdata st)) (live st ∖ {[f_slot f]}) frames (dropped st ++ [f_slot f]) phases'
                   (owners st))
        else Panic UndefinedBehaviour
      else Ok (mkWState (userdata st) (live st) frames (dropped st) phases' (owners st))
  end.

Definition wstep (st : wstate) (ev : wevent) : res none wstate :=
  match ev with
  | EBox slot => Ok (mkWState (userdata st) ({[slot]} ∪ live st) (stack st) (dropped st) (phases st) (owners st))
  | EEnter hwnd msg params => proc_enter st hwnd msg params
  | ELeave => proc_leave st
  end.

(** What the allocator and Windows guarantee: a box is new; [WM_NCCREATE]
    comes once, with the box [create] made for this window; [WM_NCDESTROY]
    comes once, to a window that exists; nothing comes after it. *)
Definition allowed (st : wstate) (ev : wevent) : Prop :=
  match ev with
  | EBox slot => slot <> 0 /\ (slot ∉ live st) /\ (slot ∉ dropped st)
  | EEnter hwnd msg params =>
      if msg =? WM_NCCREATE
      then phases st !! hwnd = None /\ params <> 0 /\ params ∈ live st /\ (forall h, user_slot st h <> params)
      else if msg =? WM_NCDESTROY then phases st !! hwnd = Some Alive
      else ~ (phases st !! hwnd = Some Gone)
  | ELeave => stack st <> []
  end.

Inductive wreach (ok : wstate -> wevent -> Prop) : wstate -> Prop :=
  | wreach_init : wreach ok winit
  | wreach_step st ev st' : wreach ok st -> allowed st ev -> ok st ev -> wstep st ev = Ok st' -> wreach ok st'.

(** A frame that destroys its window. *)
Definition destroys (f : frame) : bool := f_msg f =? WM_NCDESTROY.
Definition destroying (st : wstate) : list Z := f_hwnd <$> List.filter destroys (stack st).

Record winv (st : wstate) : Prop := mkWInv {
  wi_zero : 0 ∉ live st;
  wi_live h : user_slot st h <> 0 -> user_slot st h ∈ live st;
  wi_inj h h' : user_slot st h <> 0 -> user_slot st h = user_slot st h' -> h = h';
  wi_dropped : NoDup (dropped st);
  wi_disjoint x : x ∈ dropped st -> x ∉ live st;
  wi_none h : phases st !! h = None -> user_slot st h = 0;
  wi_alive h : phases st !! h = Some Alive -> user_slot st h <> 0 /\ owners st !! h = Some (user_slot st h);
  wi_destroying h : phases st !! h = Some Destroying -> user_slot st h <> 0 /\ owners st !! h = Some (user_slot st h) /\ h ∈ destroying st;
  wi_gone h : phases st !! h = Some Gone -> user_slot st h = 0 /\ exists x, owners st !! h = Some x /\ x ∈ dropped st;
  wi_once : NoDup (destroying st);
  wi_frames f : f ∈ stack st -> destroys f = true ->
    phases st !! f_hwnd f = Some Destroying /\ f_slot f = user_slot st (f_hwnd f) }.

Lemma winv_init : winv winit.
Proof. split; cbn; try done; try set_solver; try (intros; by constructor); try (intros *; rewrite lookup_empty; done). Qed.

Lemma winv_box st slot : winv st -> allowed st (EBox slot) ->
  winv (mkWState (userdata st) ({[slot]} ∪ live st) (stack st) (dropped st) (phases st) (owners st)).
Proof.
  intros [] (Hz & Hl & Hd). split; cbn [userdata live stack dropped phases owners]; try done.
  - set_solver.
  - intros h Hh. apply elem_of_union_r. by apply wi_live0.
  - intros x Hx. rewrite not_elem_of_union, not_elem_of_singleton. split; [by intros ->|by apply wi_disjoint0].
Qed.

Lemma user_slot_create st h x l s d p o h' :
  user_slot (mkWState (<[h := x]> (userdata st)) l s d p o) h' = if decide (h' = h) then x else user_slot st h'.
Proof. unfold user_slot. cbn. case_decide as E; [subst; by rewrite lookup_insert_eq|by rewrite lookup_insert_ne by (by apply not_eq_sym)]. Qed.

Lemma winv_create st h x : winv st -> allowed st (EEnter h WM_NCCREATE x) ->
  winv (mkWState (<[h := x]> (userdata st)) (live st) (mkFrame h WM_NCCREATE x :: stack st) (dropped st)
          (<[h := Alive]> (phases st)) (<[h := x]> (owners st))).
Proof.
  intros [] (Hp & Hz & Hl & Hu). split; cbn [live stack dropped phases owners destroying destroys List.filter f_msg]; try done.
  - intros h'. rewrite user_slot_create. case_decide; [done|apply wi_live0].
  - intros h1 h2. rewrite !user_slot_create. case_decide as E1; case_decide as E2; subst; try done.
    + intros _ E. by destruct (Hu h2).
    + intros _ E. by destruct (Hu h1).
    + apply wi_inj0.
  - intros h'. rewrite user_slot_create. destruct (decide (h' = h)) as [->|Hn]; [by rewrite lookup_insert_eq|].
    rewrite lookup_insert_ne by (by apply not_eq_sym). apply wi_none0.
  - intros h'. rewrite user_slot_create. destruct (decide (h' = h)) as [->|Hn]; [by rewrite !lookup_insert_eq|].
    rewrite !lookup_insert_ne by (by apply not_eq_sym). apply wi_alive0.
  - intros h'. rewrite user_slot_create. destruct (decide (h' = h)) as [->|Hn]; [by rewrite !lookup_insert_eq|].
    rewrite !lookup_insert_ne by (by apply not_eq_sym). apply wi_destroying0.
  - intros h'. rewrite user_slot_create. destruct (decide (h' = h)) as [->|Hn]; [by rewrite !lookup_insert_eq|].
    rewrite !lookup_insert_ne by (by apply not_eq_sym). apply wi_gone0.
  - intros f Hf Hd. apply elem_of_cons in Hf as [->|Hf]; [done|]. destruct (wi_frames0 f Hf Hd) as [Hph Hs].
    assert (f_hwnd f <> h) as Hn by (intros E; rewrite E, Hp in Hph; done).
    rewrite user_slot_create, decide_False, lookup_insert_ne by (done || by apply not_eq_sym). done.
Qed.

Lemma winv_plain st h m : winv st -> (m =? WM_NCDESTROY) = false ->
  winv (mkWState (userdata st) (live st) (mkFrame h m (user_slot st h) :: stack st) (dropped st) (phases st) (owners st)).
Proof.
  intros [] Hm. split; cbn [live stack dropped phases owners destroying]; try done.
  - intros h' Hh. destruct (wi_destroying0 h' Hh) as (? & ? & Hd). split_and!; [done..|].
    unfold destroying. cbn [stack List.filter]. unfold destroys at 1. cbn [f_msg]. rewrite Hm. done.
  - unfold destroying. cbn [stack List.filter]. unfold destroys at 1. cbn [f_msg]. rewrite Hm. done.
  - intros f Hf Hd. apply elem_of_cons in Hf as [->|Hf]; [|by apply wi_frames0].
    unfold destroys in Hd. cbn [f_msg] in Hd. congruence.
Qed.

Lemma destroying_push st h u l x d p o :
  destroying (mkWState u l (mkFrame h WM_NCDESTROY x :: stack st) d p o) = h :: destroying st.
Proof. done. Qed.

Lemma winv_destroy st h : winv st -> phases st !! h = Some Alive ->
  winv (mkWState (userdata st) (live st) (mkFrame h WM_NCDESTROY (user_slot st h) :: stack st) (dropped st)
          (<[h := Destroying]> (phases st)) (owners st)).
Proof.
  intros [] Hp. destruct (wi_alive0 h Hp) as [Hu Ho].
  split; cbn [live stack dropped phases owners]; try done.
  - intros h'. destruct (decide (h' = h)) as [->|Hn]; [by rewrite lookup_insert_eq|].
    rewrite lookup_insert_ne by (by apply not_eq_sym). apply wi_none0.
  - intros h'. destruct (decide (h' = h)) as [->|Hn]; [by rewrite lookup_insert_eq|].
    rewrite lookup_insert_ne by (by apply not_eq_sym). apply wi_alive0.
  - intros h'. rewrite destroying_push, elem_of_cons. destruct (decide (h' = h)) as [->|Hn]; [intros _; split_and!; [done|done|by left]|].
    rewrite lookup_insert_ne by (by apply not_eq_sym). intros Hh. destruct (wi_destroying0 h' Hh) as (? & ? & ?).
    split_and!; [done|done|by right].
  - intros h'. destruct (decide (h' = h)) as [->|Hn]; [by rewrite lookup_insert_eq|].
    rewrite lookup_insert_ne by (by apply not_eq_sym). apply wi_gone0.
  - rewrite destroying_push. apply NoDup_cons. split; [|done]. intros Hin.
    apply list_elem_of_fmap in Hin as (f & E & Hf). apply list_elem_of_In, filter_In in Hf as [Hf Hd].
    apply list_elem_of_In in Hf. destruct (wi_frames0 f Hf Hd) as [Hph _]. rewrite <- E, Hp in Hph. done.
  - intros f Hf Hd. apply elem_of_cons in Hf as [->|Hf]; cbn [f_hwnd f_slot]; [by rewrite lookup_insert_eq|].
    destruct (wi_frames0 f Hf Hd) as [Hph Hs]. assert (f_hwnd f <> h) as Hn by (intros E; rewrite E, Hp in Hph; done).
    rewrite lookup_insert_ne by (by apply not_eq_sym). done.
Qed.

Lemma winv_leave_plain st f frames : winv st -> stack st = f :: frames -> destroys f = false ->
  winv (mkWState (userdata st) (live st) frames (dropped st) (phases st) (owners st)).
Proof.
  intros [] Hs Hd. assert (destroying st = f_hwnd <$> List.filter destroys frames) as Hde
    by (unfold destroying; rewrite Hs; cbn [List.filter]; by rewrite Hd).
  split; cbn [live stack dropped phases owners]; try done.
  - intros h Hh. destruct (wi_destroying0 h Hh) as (? & ? & ?). rewrite Hde in *. done.
  - unfold destroying. cbn [stack]. by rewrite <- Hde.
  - intros g Hg. apply wi_frames0. rewrite Hs. by right.
Qed.

Lemma winv_leave_destroy st f frames : winv st -> stack st = f :: frames -> destroys f = true ->
  f_slot f ∈ live st /\ f_slot f <> 0 /\
  winv (mkWState (<[f_hwnd f := 0]> (userdata st)) (live st ∖ {[f_slot f]}) frames (dropped st ++ [f_slot f])
          (<[f_hwnd f := Gone]> (phases st)) (owners st)).
Proof.
  intros I Hs Hd. pose proof I as []. destruct (wi_frames0 f) as [Hph Hslot]; [rewrite Hs; by left|done|].
  destruct (wi_destroying0 _ Hph) as (Hnz & Ho & _). rewrite <- Hslot in Hnz, Ho.
  assert (f_slot f ∈ live st) as Hl by (rewrite Hslot; apply wi_live0; by rewrite <- Hslot).
  assert (destroying st = f_hwnd f :: (f_hwnd <$> List.filter destroys frames)) as Hde
    by (unfold destroying; rewrite Hs; cbn [List.filter]; by rewrite Hd).
  rewrite Hde in wi_once0. apply NoDup_cons in wi_once0 as [Hn Hnd].
  split_and!; [done|done|]. set (h := f_hwnd f) in *. set (x := f_slot f) in *.
  split; cbn [live stack dropped phases owners].
  - set_solver.
  - intros h'. rewrite user_slot_create. case_decide as E; [done|]. intros Hu. apply elem_of_difference. split; [by apply wi_live0|].
    rewrite elem_of_singleton. intros Hx. apply E. apply wi_inj0; [done|by rewrite Hx].
  - intros h1 h2. rewrite !user_slot_create. case_decide; case_decide; try done; apply wi_inj0.
  - apply NoDup_app. split_and!; [done| |apply NoDup_singleton]. intros y Hy Hx. apply list_elem_of_singleton in Hx as ->.
    by apply (wi_disjoint0 x).
  - intros y Hy. rewrite elem_of_difference, elem_of_singleton. apply elem_of_app in Hy as [Hy|Hy].
    + intros [Hin _]. by apply (wi_disjoint0 y).
    + apply list_elem_of_singleton in Hy as ->. tauto.
  - intros h'. rewrite user_slot_create. case_decide as E; [done|]. rewrite lookup_insert_ne by (by apply not_eq_sym). apply wi_none0.
  - intros h'. rewrite user_slot_create. case_decide as E; [subst h'; by rewrite lookup_insert_eq|].
    rewrite lookup_insert_ne by (by apply not_eq_sym). apply wi_alive0.
  - intros h'. rewrite user_slot_create. case_decide as E; [subst h'; by rewrite lookup_insert_eq|].
    rewrite lookup_insert_ne by (by apply not_eq_sym). intros Hh. destruct (wi_destroying0 h' Hh) as (? & ? & Hin).
    split_and!; [done|done|]. rewrite Hde in Hin. apply elem_of_cons in Hin as [?|Hin]; [done|exact Hin].
  - intros h'. rewrite user_slot_create. case_decide as E.
    + subst h'. intros _. split; [done|]. exists x. split; [done|]. apply elem_of_app. right. by apply list_elem_of_singleton.
    + rewrite lookup_insert_ne by (by apply not_eq_sym). intros Hh. destruct (wi_gone0 h' Hh) as (? & y & ? & ?).
      split; [done|]. exists y. split; [done|]. apply elem_of_app. by left.
  - exact Hnd.
  - intros g Hg Hdg. destruct (wi_frames0 g) as [Hp Hu]; [rewrite Hs; by right|done|].
    assert (f_hwnd g <> h) as Hne.
    { intros E. apply Hn. rewrite <- E. apply list_elem_of_fmap_2. apply list_elem_of_In, filter_In. split; [by apply list_elem_of_In|done]. }
    rewrite user_slot_create, decide_False, lookup_insert_ne by (done || by apply not_eq_sym). done.
Qed.

Lemma wstep_inv st ev : winv st -> allowed st ev -> exists st', wstep st ev = Ok st' /\ winv st'.
Proof.
  intros I Ha. destruct ev as [slot|h m x|]; cbn [wstep].
  - eexists. split; [done|]. by apply winv_box.
  - unfold proc_enter. destruct (m =? WM_NCCREATE) eqn:Em.
    + apply Z.eqb_eq in Em. subst m. pose proof Ha as (Hp & Hz & Hl & Hu). rewrite lookup_insert_eq.
      cbn [default from_option id]. rewrite bool_decide_true, orb_true_r by done. eexists. split; [done|]. by apply winv_create.
    + unfold allowed in Ha. rewrite Em in Ha. fold (user_slot st h).
      assert ((user_slot st h =? 0) || bool_decide (user_slot st h ∈ live st) = true) as Hok.
      { destruct (Z.eqb_spec (user_slot st h) 0); [done|]. apply bool_decide_eq_true, (wi_live st I). done. }
      rewrite Hok. eexists. split; [done|]. destruct (m =? WM_NCDESTROY) eqn:Ed; [|by apply winv_plain].
      apply Z.eqb_eq in Ed. subst m. by apply winv_destroy.
  - unfold proc_leave. destruct (stack st) as [|f frames] eqn:Es; [done|]. fold (destroys f). destruct (destroys f) eqn:Ed.
    + destruct (winv_leave_destroy st f frames I Es Ed) as (Hl & Hnz & I').
      rewrite (proj2 (Z.eqb_neq _ _) Hnz), bool_decide_true by done. by eexists.
    + eexists. split; [done|]. by eapply winv_leave_plain.
Qed.

Lemma wreach_inv ok st : wreach ok st -> winv st.
Proof.
  induction 1 as [|st ev st' _ I Ha _ Hs]; [apply winv_init|].
  destruct (wstep_inv st ev I Ha) as (st2 & H2 & I2). congruence.
Qed.

(** A window is destroyed while one of its own handler calls is in progress. *)
Definition self_destroy (st : wstate) (ev : wevent) : Prop :=
  match ev, stack st with
  | ELeave, f :: frames => destroys f = true /\ exists g, g ∈ frames /\ f_slot g = f_slot f
  | _, _ => False
  end.

(** Every handler call in progress runs in a handler that exists. *)
Definition frames_live (st : wstate) : Prop := forall f, f ∈ stack st -> f_slot f <> 0 -> f_slot f ∈ live st.

Lemma frames_live_step st ev st' :
  winv st -> frames_live st -> allowed st ev -> ~ self_destroy st ev -> wstep st ev = Ok st' -> frames_live st'.
Proof.
  intros I Hf Ha Hs. destruct ev as [slot|h m x|]; cbn [wstep].
  - intros [= <-] f Hin Hnz. cbn [live stack] in *. apply elem_of_union_r. by apply Hf.
  - unfold proc_enter. set (slot := default 0 _). destruct (slot =? 0) eqn:Ez; cbn [orb].
    + intros [= <-] f Hin Hnz. cbn [live stack] in *. apply elem_of_cons in Hin as [->|Hin]; [|by apply Hf].
      cbn [f_slot] in Hnz. apply Z.eqb_eq in Ez. done.
    + case_bool_decide as El; [|done]. intros [= <-] f Hin Hnz. cbn [live stack] in *.
      apply elem_of_cons in Hin as [->|Hin]; [done|by apply Hf].
  - unfold proc_leave. destruct (stack st) as [|f frames] eqn:Es; [done|]. fold (destroys f).
    destruct (destroys f) eqn:Ed; cbn [andb].
    + destruct (winv_leave_destroy st f frames I Es Ed) as (Hl & Hnz & _).
      rewrite (proj2 (Z.eqb_neq _ _) Hnz), bool_decide_true by done. cbn [negb]. intros [= <-] g Hin Hg. cbn [live stack] in *.
      apply elem_of_difference. split; [apply Hf; [rewrite Es; by right|done]|]. rewrite elem_of_singleton. intros E.
      apply Hs. unfold self_destroy. rewrite Es. split; [done|]. by exists g.
    + intros [= <-] g Hin Hg. cbn [live stack] in *. apply Hf; [rewrite Es; by right|done].
Qed.

(** [C16] The life of a window handler.  In every state that calls of the
    window procedure can reach, however deeply they are nested: the procedure
    never dereferences or frees a handler that is gone; no handler is dropped
    twice; the handler of a window that exists is still there, and that of a
    destroyed window has been dropped.  And as long as no window is destroyed
    from inside its own handler, every call in progress runs in a handler that
    still exists. *)
Theorem window_handler_lifetime :
  (forall st, wreach (fun _ _ => True) st ->
     (forall ev, allowed st ev -> exists st', wstep st ev = Ok st') /\
     NoDup (dropped st) /\
     (forall h x, owners st !! h = Some x ->
        (phases st !! h = Some Alive \/ phases st !! h = Some Destroying -> x ∈ live st /\ x ∉ dropped st) /\
        (phases st !! h = Some Gone -> x ∈ dropped st /\ x ∉ live st))) /\
  (forall st, wreach (fun st ev => ~ self_destroy st ev) st -> frames_live st).
Proof.
  split.
  - intros st H. pose proof (wreach_inv _ _ H) as I. split_and!.
    + intros ev Ha. destruct (wstep_inv st ev I Ha) as (st' & ? & _). by exists st'.
    + apply (wi_dropped st I).
    + intros h x Ho. split.
      * intros Hp. assert (x = user_slot st h /\ user_slot st h <> 0) as [-> Hnz].
        { destruct Hp as [Hp|Hp]; [apply (wi_alive st I) in Hp|apply (wi_destroying st I) in Hp]; naive_solver. }
        pose proof (wi_live st I h Hnz) as Hl. split; [done|]. intros Hd. by apply (wi_disjoint st I) in Hd.
      * intros Hp. apply (wi_gone st I) in Hp as (_ & y & Hy & Hd). assert (x = y) as -> by congruence.
        split; [done|]. by apply (wi_disjoint st I).
  - induction 1 as [|st ev st' Hr Hf Ha Hs Hst]; [by intros f Hf%elem_of_nil|].
    eapply frames_live_step; [|exact Hf|exact Ha|exact Hs|exact Hst]. by eapply wreach_inv.
Qed.

(** ** A window that closes itself

    The handler of message 16 ([WM_CLOSE]) destroys the window: when that call
    returns, the handler it runs in has been dropped. *)

Section SelfClosing.
Let box : gset Z := {[7]} ∪ ∅.
Let attached (s : list frame) (p : gmap Z phase) : wstate := mkWState {[1 := 7]} box s [] p {[1 := 7]}.

Lemma attached_alive s (p : gmap Z phase) : wreach (fun _ _ => True) (attached s p) ->
  (p !! 1 = Some Alive \/ p !! 1 = Some Destroying) ->
  wreach (fun _ _ => True) (attached (mkFrame 1 16 7 :: s) p).
Proof. intros H Hp. eapply (wreach_step _ _ (EEnter 1 16 0)); [exact H| |done|done]. cbn. naive_solver. Qed.

Theorem handler_closed_in_use : exists st f,
  wreach (fun _ _ => True) st /\ stack st = [f] /\ f_msg f = 16 /\ f_slot f = 7 /\ (f_slot f ∉ live st) /\ dropped st = [7].
Proof.
  exists (mkWState (<[1 := 0]> {[1 := 7]}) (box ∖ {[7]}) [mkFrame 1 16 7] [7] (<[1 := Gone]> (<[1 := Destroying]> {[1 := Alive]}))
            {[1 := 7]}), (mkFrame 1 16 7).
  split_and!; [|done|done|done|set_solver|done].
  eapply (wreach_step _ (attached [mkFrame 1 WM_NCDESTROY 7; mkFrame 1 16 7] (<[1 := Destroying]> {[1 := Alive]})) ELeave);
    [|done|done|done].
  eapply (wreach_step _ (attached [mkFrame 1 16 7] {[1 := Alive]}) (EEnter 1 WM_NCDESTROY 0)); [|done|done|done].
  apply attached_alive; [|by left].
  eapply (wreach_step _ (attached [mkFrame 1 WM_NCCREATE 7] {[1 := Alive]}) ELeave); [|done|done|done].
  eapply (wreach_step _ (mkWState ∅ box [] [] ∅ ∅) (EEnter 1 WM_NCCREATE 7)); [| |done|done].
  - eapply (wreach_step _ winit (EBox 7)); [constructor| |done|done]. cbn. set_solver.
  - unfold allowed. cbn. unfold user_slot. cbn. split_and!; [done|done|set_solver|]. intros h. by rewrite lookup_empty.
Qed.
End SelfClosing.

(** ** A desktop on which nothing fails

    Windows have the handle 77; messages come from and go to the two functions
    given. *)
Definition quiet_windows {W : Type} (get : W -> Z * MSG * W) (dispatch : W -> MSG -> W) : window_api W := {|
  GetModuleHandleW _ := inr 1; LoadCursorW _ := Some 2; LoadImageW w _ _ _ _ := (inr 3, w);
  RegisterClassW w _ := (1, w); GetLastError _ := 0; CreateWindowExW w _ := (inr 77, w);
  IsWindow _ _ := true; DestroyWindow w _ := (None, w); ShowWindow w _ _ := w; IsWindowVisible _ _ := true;
  SetForegroundWindow w _ := (true, w); SetWindowTextW w _ _ := (None, w);
  GetClientRect _ _ := inr (mkWindowRect 0 0 640 480); GetWindowRect _ _ := inr (mkWindowRect 0 0 656 519);
  MoveWindow w _ _ _ _ _ _ := (None, w); InvalidateRect w _ := w; PostMessageW w _ _ _ _ := (None, w);
  SendMessageW w _ _ _ _ := (0, w); BeginPaint w _ := w; EndPaint w _ := w; GetKeyState _ _ := 0;
  TrackMouseEvent w _ _ := w; SetTimer w _ _ _ := w; KillTimer w _ _ := w; SetFocus w _ := w;
  GetMessageW := get; IsDialogMessageW w _ m := (msg_message m =? 9, w); TranslateMessage w _ := w;
  DispatchMessageW := dispatch; PostQuitMessage w _ := w; GetDpiForWindow _ _ := 144;
  SetProcessDpiAwarenessContext w := (None, w) |}.

Module LoopSample.
Definition world : Type := list MSG * list MSG.
Definition next (w : world) : Z * MSG * world :=
  match fst w with
  | [] => (-1, mkMsg 0 0 0 0, w)
  | m :: q => (if msg_message m =? WM_QUIT then 0 else 1, m, (q, snd w))
  end.
#[export] Instance api : window_api world := quiet_windows next (fun w m => (fst w, snd w ++ [m])).
#[export] Instance laws : queue_laws world.
Proof.
  refine (Build_queue_laws world _ fst snd (fun _ m => msg_message m =? 9) _ _ _).
  - intros [q d] m q' E. cbn in E. subst q. cbn. exists (if msg_message m =? WM_QUIT then 0 else 1), (q', d).
    split_and!; [done|by intros ->| |done|done]. intros Hn. by rewrite (proj2 (Z.eqb_neq _ _) Hn).
  - intros w d m. exists [], w. cbn. by rewrite app_nil_r.
  - intros w m. exists []. cbn. by rewrite app_nil_r.
Defined.

Lemma message_loop_ends_witness : exists w',
  run_message_loop 4 (Some 77) ([mkMsg 77 15 0 0; mkMsg 77 9 0 0; mkMsg 77 275 1 0; mkMsg 0 WM_QUIT 3 0; mkMsg 77 15 0 0], []) = (Some 3, w') /\
  snd w' = [mkMsg 77 15 0 0; mkMsg 77 275 1 0].
Proof.
  destruct (message_loop_ends (Some 77) [mkMsg 77 15 0 0; mkMsg 77 9 0 0; mkMsg 77 275 1 0] (mkMsg 0 WM_QUIT 3 0) [mkMsg 77 15 0 0]
    ([mkMsg 77 15 0 0; mkMsg 77 9 0 0; mkMsg 77 275 1 0; mkMsg 0 WM_QUIT 3 0; mkMsg 77 15 0 0], [])) as (w' & H1 & H2).
  - done.
  - repeat constructor; discriminate.
  - done.
  - exists w'. split; [exact H1|exact H2].
Defined.
End LoopSample.
