(* ===== verification/Shell.v ===== *)
(** * Shell: single instance, popup menus, clipboard

    src/desktop/instance.rs, menu.rs and clipboard.rs. *)

From Stdlib Require Import ZArith Lia String Ascii.
From stdpp Require Import base list strings gmap numbers sorting.
From S2P Require Import Prelude Text Unicode Errors Backends Effects Resources Window.

Open Scope Z_scope.

(** ** Single instance *)

Definition ERROR_ALREADY_EXISTS : Z := 183.

Class mutex_api (W : Type) := {
  CreateMutexW : W -> list Z -> (win_error + Z) * W;
  mutex_last_error : W -> Z;
  CloseHandle : W -> Z -> W }.

Record SingleInstance := mkSingleInstance { si_mutex : OwnedHandle }.

Section Instance.
Context {W : Type} `{ho : !handle_api} `{api : !mutex_api W}.

Abbreviation P := (eff (proc_st W) Error).

(** The drop of the [OwnedHandle], which the machine sees. *)
Definition close_mutex (o : OwnedHandle) (s : proc_st W) : proc_st W :=
  drop_owned o (if oh_close_on_drop o && handle_ok (oh_handle o)
                then at_machine (CloseHandle (pmach s) (oh_handle o)) s else s).

Definition instance_acquire (name : str) : P (option SingleInstance) :=
  let* _ := eff_lift (validate_name "instance_name" name) in
  if bool_decide (92 ∈ name)
  then eff_fail (invalid_name "instance_name" "value cannot contain a backslash")
  else
    let* handle := open_handle (fun w => CreateMutexW w (to_utf16_nul (lit "Local\" ++ name))) (win_op_error "CreateMutexW" name) in
    let* code := looking mutex_last_error in
    let existed := code =? ERROR_ALREADY_EXISTS in
    let mutex := owned_new handle in
    if existed then fun s => (Ok None, close_mutex mutex s) else eff_ret (Some (mkSingleInstance mutex)).

Definition drop_instance (self : SingleInstance) (s : proc_st W) : proc_st W := close_mutex (si_mutex self) s.
End Instance.

(** A named mutex lives as long as a handle to it is open. *)
Class mutex_laws (W : Type) `{ho : !handle_api} `{api : !mutex_api W} := {
  open_mutexes : W -> gmap Z (list Z);
  create_mutex_law w name h w' : CreateMutexW w name = (inr h, w') ->
    handle_ok h = true /\ open_mutexes w !! h = None /\ open_mutexes w' = <[h := name]> (open_mutexes w) /\
    (mutex_last_error w' = ERROR_ALREADY_EXISTS <-> exists h', open_mutexes w !! h' = Some name);
  close_mutex_law w h : open_mutexes (CloseHandle w h) = delete h (open_mutexes w) }.

Section InstanceFacts.
Context {W : Type} `{ho : !handle_api} `{api : !mutex_api W} `{laws : !mutex_laws W}.

Abbreviation P := (eff (proc_st W) Error).

Definition mutex_name (name : str) : list Z := to_utf16_nul (lit "Local\" ++ name).
Definition held_by_someone (w : W) (name : str) : Prop := exists h, open_mutexes w !! h = Some (mutex_name name).

Lemma close_mutex_valid h (s : proc_st W) : handle_ok h = true ->
  pmach (close_mutex (owned_new h) s) = CloseHandle (pmach s) h /\
  forall r, held (close_mutex (owned_new h) s) r = held s r - (if decide (r = ResHandle h) then 1 else 0).
Proof.
  intros Hv. unfold close_mutex, drop_owned, owned_new. cbn. rewrite Hv. cbn. split; [done|].
  intros r. unfold bump. case_decide; lia.
Qed.

(** The two successful outcomes. *)
Lemma instance_acquire_ok name (s : proc_st W) r s' :
  instance_acquire name s = (Ok r, s') ->
  match r with
  | Some i => (~ held_by_someone (pmach s) name) /\ exists h, i = mkSingleInstance (owned_new h) /\ handle_ok h = true /\
      open_mutexes (pmach s) !! h = None /\ open_mutexes (pmach s') = <[h := mutex_name name]> (open_mutexes (pmach s)) /\
      gained s s' [ResHandle h]
  | None => held_by_someone (pmach s) name /\ open_mutexes (pmach s') = open_mutexes (pmach s) /\ gained s s' []
  end.
Proof.
  unfold instance_acquire. intros H. apply eff_bind_ok in H as (u & s1 & Hv & H). injection Hv as Hv <-.
  case_bool_decide; [done|]. apply eff_bind_ok in H as (h & s2 & Ho & H). pose proof Ho as Hg. unfold open_handle, acquiring in Ho.
  fold (mutex_name name) in *. destruct (CreateMutexW (pmach s) (mutex_name name)) as [[e|h'] w] eqn:E; [done|].
  injection Ho as -> <-. destruct (create_mutex_law _ _ _ _ E) as (Hok & Hn & Hop & Hex).
  cbn [foldr] in H. unfold eff_bind, looking in H. cbn [pmach acquire at_machine] in H.
  destruct (mutex_last_error w =? ERROR_ALREADY_EXISTS) eqn:Ee.
  - injection H as <- <-. destruct (close_mutex_valid h (acquire (ResHandle h) (at_machine w s)) Hok) as [Hm Hh].
    split_and!; [by apply Hex, Z.eqb_eq| |].
    + rewrite Hm, close_mutex_law. cbn [pmach acquire at_machine]. by rewrite Hop, delete_insert_id.
    + intros r. rewrite Hh, count_res_nil. unfold acquire, bump. cbn. case_decide; lia.
  - injection H as <- <-. split.
    + intros Hs. apply Hex in Hs. by apply Z.eqb_neq in Ee.
    + exists h. cbn [pmach acquire at_machine]. split_and!; [done|done|done|done|]. intros r. rewrite count_res_cons, count_res_nil.
      unfold acquire, bump. cbn. case_decide; lia.
Qed.

(** [C31] Only one holder of a name at a time.  When [acquire] returns an
    instance nobody held the name before; while it lives, every other
    [acquire] of the name returns none and leaves no handle open; once it is
    dropped, the name is free again and the handle is closed. *)
Theorem single_instance_exclusive name (s s1 : proc_st W) i :
  instance_acquire name s = (Ok (Some i), s1) ->
  ~ held_by_someone (pmach s) name /\
  (forall r s2, instance_acquire name s1 = (Ok r, s2) -> r = None /\ gained s1 s2 [] /\ held_by_someone (pmach s2) name) /\
  open_mutexes (pmach (drop_instance i s1)) = open_mutexes (pmach s) /\ gained s (drop_instance i s1) [] /\
  (forall r s2, instance_acquire name (drop_instance i s1) = (Ok r, s2) -> is_Some r).
Proof.
  intros H. apply instance_acquire_ok in H as (Hno & h & -> & Hv & Hn & Hop & Hg).
  destruct (close_mutex_valid h s1 Hv) as [Hm Hh].
  assert (open_mutexes (pmach (drop_instance (mkSingleInstance (owned_new h)) s1)) = open_mutexes (pmach s)) as Hd.
  { unfold drop_instance. cbn [si_mutex]. rewrite Hm, close_mutex_law, Hop. by rewrite delete_insert_id. }
  split_and!; [done| |done| |].
  - intros r s2 H2. apply instance_acquire_ok in H2. destruct r as [j|].
    + destruct H2 as [Hn2 _]. destruct Hn2. exists h. rewrite Hop. by rewrite lookup_insert_eq.
    + destruct H2 as (Hs & Ho2 & Hg2). split_and!; [done|done|]. unfold held_by_someone in *. by rewrite Ho2.
  - intros r. unfold drop_instance. cbn [si_mutex]. rewrite Hh, (Hg r), count_res_cons, count_res_nil. case_decide; lia.
  - intros r s2 H2. apply instance_acquire_ok in H2. destruct r as [j|]; [done|]. destruct H2 as [(h' & Hh') _].
    destruct Hno. exists h'. by rewrite <- Hd.
Qed.
End InstanceFacts.

(** Mutexes in a map; the second component is the last error. *)
Module InstanceSample.
Definition world : Type := gmap Z (list Z) * Z.
#[export] Instance handles : handle_api := { handle_ok h := 0 <? h }.
Definition free_handle (m : gmap Z (list Z)) : Z := 1 + Z.of_nat (size m) * 4 + map_fold (fun h _ acc => Z.max h acc) 0 m.
#[export] Instance api : mutex_api world := {
  CreateMutexW w name := (inr (free_handle (fst w)),
    (<[free_handle (fst w) := name]> (fst w),
     if bool_decide (map_Exists (fun _ n => n = name) (fst w)) then ERROR_ALREADY_EXISTS else 0));
  mutex_last_error w := snd w;
  CloseHandle w h := (delete h (fst w), snd w) }.

Lemma fold_max_bound (m : gmap Z (list Z)) h x : m !! h = Some x -> h <= map_fold (fun h _ acc => Z.max h acc) 0 m.
Proof.
  revert h x. refine (map_fold_weak_ind (fun acc m => forall h x, m !! h = Some x -> h <= acc) _ 0 _ _ m).
  - intros h x. by rewrite lookup_empty.
  - intros i y m' acc Hi IH h x. destruct (decide (h = i)) as [->|Hn]; [lia|].
    rewrite lookup_insert_ne by (by apply not_eq_sym). intros Hx. apply IH in Hx. lia.
Qed.
Lemma fold_max_nonneg (m : gmap Z (list Z)) : 0 <= map_fold (fun h _ acc => Z.max h acc) 0 m.
Proof. refine (map_fold_weak_ind (fun acc _ => 0 <= acc) _ 0 _ _ m); [lia|]. intros. lia. Qed.
Lemma free_handle_fresh m : m !! free_handle m = None /\ 0 < free_handle m.
Proof.
  unfold free_handle. pose proof (fold_max_nonneg m). split; [|lia]. destruct (m !! _) as [x|] eqn:E; [|done].
  apply fold_max_bound in E. lia.
Qed.

#[export] Instance laws : mutex_laws world.
Proof.
  refine (Build_mutex_laws world _ _ fst _ _).
  - intros w name h w' H. injection H as <- <-. destruct (free_handle_fresh (fst w)) as [Hf Hp]. cbn [fst handle_ok handles].
    split_and!; [by apply Z.ltb_lt|done|done|]. cbn [mutex_last_error api snd]. case_bool_decide as E.
    + split; [|done]. intros _. apply map_Exists_lookup in E as (h & n & Hn & ->). by exists h.
    + split; [done|]. intros [h Hh]. destruct E. apply map_Exists_lookup. by exists h, name.
  - done.
Defined.

Definition start : proc_st world := mkProcSt (∅, 0) (fun _ => 0).

Lemma single_instance_exclusive_witness :
  exists i s1, instance_acquire (lit "app") start = (Ok (Some i), s1) /\
    fst (instance_acquire (lit "app") s1) = Ok None /\ gained start (drop_instance i s1) [].
Proof.
  destruct (instance_acquire (lit "app") start) as [[[i|]|e|x] s1] eqn:E; [|vm_compute in E; discriminate..].
  destruct (single_instance_exclusive (lit "app") start s1 i E) as (_ & H1 & _ & H2 & _).
  exists i, s1. split_and!; [done| |exact H2].
  destruct (instance_acquire (lit "app") s1) as [[r|e|x] s2] eqn:E2.
  - by destruct (H1 _ _ eq_refl) as [-> _].
  - vm_compute in E. injection E as <- <-. vm_compute in E2. discriminate.
  - vm_compute in E. injection E as <- <-. vm_compute in E2. discriminate.
Defined.
End InstanceSample.

(** ** Popup menus *)

Definition MF_STRING : Z := 0.
Definition MF_SEPARATOR : Z := 0x800.
Definition TRACK_FLAGS : Z := Z.lor (Z.lor 0x100 0x2) 0x80.

Class menu_api (W : Type) := {
  CreatePopupMenu : W -> (win_error + Z) * W;
  AppendMenuW : W -> Z -> Z -> Z -> option (list Z) -> option win_error * W;
  SetMenuDefaultItem : W -> Z -> Z -> Z -> option win_error * W;
  GetCursorPos : W -> option (Z * Z);
  TrackPopupMenu : W -> Z -> Z -> Z -> Z -> Z -> Z * W;
  DestroyMenu : W -> Z -> W }.

Record PopupMenu := mkPopupMenu { pm_hmenu : Z }.

Section Menu.
Context {W : Type} `{win : !window_api W} `{api : !menu_api W}.

Abbreviation P := (eff (proc_st W) Error).

Definition menu_new : P PopupMenu :=
  let* h := acquiring CreatePopupMenu (fun h => [ResMenu h]) (win_op_error "CreatePopupMenu" (lit "popup menu")) in
  eff_ret (mkPopupMenu h).
Definition menu_append (self : PopupMenu) (id : Z) (text : str) : P unit :=
  done_or (fun w => AppendMenuW w (pm_hmenu self) MF_STRING id (Some (to_utf16_nul text))) "AppendMenuW" (lit "menu item").
Definition menu_separator (self : PopupMenu) : P unit :=
  done_or (fun w => AppendMenuW w (pm_hmenu self) MF_SEPARATOR 0 None) "AppendMenuW" (lit "menu separator").
Definition menu_set_default (self : PopupMenu) (id : Z) : P unit :=
  done_or (fun w => SetMenuDefaultItem w (pm_hmenu self) id 0) "SetMenuDefaultItem" (lit "menu item").

(** [u32::try_from(chosen.0).ok().filter(|id| *id != 0)], of an [i32]. *)
Definition chosen_id (chosen : Z) : option Z := if 0 <? chosen then Some chosen else None.
Definition track_at (self : PopupMenu) (owner x y : Z) : P (option Z) :=
  let* _ := asking (fun w => SetForegroundWindow w owner) in
  let* chosen := asking (fun w => TrackPopupMenu w (pm_hmenu self) TRACK_FLAGS x y owner) in
  let* _ := telling (fun w => snd (PostMessageW w owner WM_NULL 0 0)) in
  eff_ret (chosen_id chosen).
Definition track_at_cursor (self : PopupMenu) (owner : Z) : P (option Z) :=
  let* point := looking GetCursorPos in
  match point with Some (x, y) => track_at self owner x y | None => eff_ret None end.
Definition drop_menu (self : PopupMenu) (s : proc_st W) : proc_st W :=
  release (ResMenu (pm_hmenu self)) (at_machine (DestroyMenu (pmach s) (pm_hmenu self)) s).

(** With [TPM_RETURNCMD] the call answers the identifier of the chosen item as
    a signed number, 0 when the menu was dismissed: an item is reported
    exactly when its identifier has 31 bits and is not 0. *)
Lemma chosen_id_spec id : 0 <= id < 2 ^ 32 ->
  chosen_id (as_i32 id) = if (0 <? id) && (id <? 2 ^ 31) then Some id else None.
Proof. intros H. unfold chosen_id, as_i32. destruct (id <? 2 ^ 31) eqn:E; destruct (0 <? id) eqn:E2; cbn [andb]; rewrite ?E2; try done.
  - replace (0 <? id - 2 ^ 32) with false by lia. done.
  - lia.
Qed.
End Menu.

(** ** Clipboard *)

Class clip_api (W : Type) := {
  OpenClipboard : W -> Z -> option win_error * W;
  EmptyClipboard : W -> option win_error * W;
  GlobalAlloc : W -> Z -> (win_error + Z) * W;
  GlobalLock : W -> Z -> bool * W;           (** whether the address is not null *)
  write_units : W -> Z -> list Z -> W;       (** [copy_nonoverlapping] into the locked block *)
  block_units : W -> Z -> list Z;            (** all the units of a block, as many as it has room for *)
  GlobalUnlock : W -> Z -> W;
  SetClipboardData : W -> Z -> option win_error * W;
  GetClipboardData : W -> option Z;
  CloseClipboard : W -> W }.

Section Clipboard.
Context {W : Type} `{api : !clip_api W}.

Abbreviation P := (eff (proc_st W) Error).

Definition clip_fail (operation : string) : win_error -> Error := win_op_error operation (lit "clipboard").
Definition clip_unit (call : W -> option win_error * W) (operation : string) (res_of : list resource) : P unit :=
  acquiring (fun w => match call w with (None, w) => (inr tt, w) | (Some e, w) => (inl e, w) end) (fun _ => res_of) (clip_fail operation).

(** [Opened]: closes the clipboard when dropped. *)
Definition opened_open (owner : option Z) : P unit :=
  clip_unit (fun w => OpenClipboard w (default 0 owner)) "OpenClipboard" [ResClipboard].
Definition drop_opened (s : proc_st W) : proc_st W := release ResClipboard (at_machine (CloseClipboard (pmach s)) s).

(** The block is filled, then handed over; the system owns it on success.
    Copying more than the block has room for is undefined. *)
Definition fill_block (memory : Z) (wide : list Z) : P unit :=
  let* ok := asking (fun w => GlobalLock w memory) in
  if negb ok then eff_fail (op_error "GlobalLock" (lit "clipboard") 0)
  else
    let* room := looking (fun w => zlen (block_units w memory)) in
    if room <? zlen wide then (fun s => (Panic UndefinedBehaviour, s))
    else telling (fun w => GlobalUnlock (write_units w memory wide) memory).
Definition hand_over (memory : Z) : P unit := fun s =>
  match SetClipboardData (pmach s) memory with
  | (None, w) => (Ok tt, release (ResMemory memory) (at_machine w s))
  | (Some e, w) => (Err (clip_fail "SetClipboardData" e), at_machine w s)
  end.

Definition clip_set_text (owner : option Z) (text : str) : P unit :=
  let wide := encode_utf16 text ++ [0] in
  let bytes := zlen wide * 2 in
  let* _ := opened_open owner in
  eff_scoped drop_opened
    (let* _ := clip_unit EmptyClipboard "EmptyClipboard" [] in
     let* memory := acquiring (fun w => GlobalAlloc w bytes) (fun m => [ResMemory m]) (clip_fail "GlobalAlloc") in
     let* _ := fill_block memory wide in
     hand_over memory).

(** The scan for the terminator leaves the block when there is none. *)
Definition read_block (units : list Z) : res Error str :=
  match position (Z.eqb 0) units with
  | Some len => Ok (from_utf16_lossy (take len units))
  | None => Panic UndefinedBehaviour
  end.
Definition clip_get_text (owner : option Z) : P (option str) :=
  let* _ := opened_open owner in
  eff_scoped drop_opened
    (let* handle := looking GetClipboardData in
     match handle with
     | None => eff_ret None
     | Some memory =>
         let* ok := asking (fun w => GlobalLock w memory) in
         if negb ok then eff_ret None
         else
           let* units := looking (fun w => block_units w memory) in
           let* text := eff_lift (read_block units) in
           let* _ := telling (fun w => GlobalUnlock w memory) in
           eff_ret (Some text)
     end).
End Clipboard.

Class clip_laws (W : Type) `{api : !clip_api W} := {
  clip_data : W -> option Z;
  alloc_law w n m w' : GlobalAlloc w n = (inr m, w') -> n <= 2 * zlen (block_units w' m);
  lock_keeps w m : clip_data (snd (GlobalLock w m)) = clip_data w /\ block_units (snd (GlobalLock w m)) m = block_units w m;
  write_law w m us : zlen us <= zlen (block_units w m) ->
    block_units (GlobalUnlock (write_units w m us) m) m = us ++ drop (length us) (block_units w m);
  set_data_law w m w' : SetClipboardData w m = (None, w') -> clip_data w' = Some m /\ block_units w' m = block_units w m;
  get_data_law w m : GetClipboardData w = Some m -> clip_data w = Some m;
  close_law w m : clip_data (CloseClipboard w) = clip_data w /\ block_units (CloseClipboard w) m = block_units w m;
  open_law w o w' m : OpenClipboard w o = (None, w') -> clip_data w' = clip_data w /\ block_units w' m = block_units w m }.

Section ClipboardFacts.
Context {W : Type} `{api : !clip_api W} `{laws : !clip_laws W}.

Abbreviation P := (eff (proc_st W) Error).

Lemma clip_unit_ok (call : W -> option win_error * W) operation l s u s' :
  clip_unit call operation l s = (Ok u, s') -> exists w, call (pmach s) = (None, w) /\ s' = foldr acquire (at_machine w s) l.
Proof.
  unfold clip_unit, acquiring. destruct (call (pmach s)) as [[e|] w]; [done|]. intros [= _ <-]. by exists w.
Qed.

(** The block [set_text] allocates has room for the text. *)
Lemma fill_block_ok memory wide (s : proc_st W) : zlen wide <= zlen (block_units (pmach s) memory) ->
  match fill_block memory wide s with
  | (Ok _, s') => exists rest, block_units (pmach s') memory = wide ++ rest
  | (Err _, _) => True
  | (Panic _, _) => False
  end.
Proof.
  intros Hr. unfold fill_block, eff_bind, asking, looking, telling. destruct (lock_keeps (pmach s) memory) as [_ Hk].
  destruct (GlobalLock (pmach s) memory) as [[] w]; cbn [negb fst snd] in *; [|done]. cbn [pmach at_machine].
  replace (zlen (block_units w memory) <? zlen wide) with false by (rewrite Hk; lia).
  cbn [pmach at_machine]. eexists. apply write_law. by rewrite Hk.
Qed.

(** What the clipboard holds after a successful [set_text]. *)
Lemma clip_set_ok owner text (s : proc_st W) :
  match clip_set_text owner text s with
  | (Ok _, s1) => exists m rest, clip_data (pmach s1) = Some m /\ block_units (pmach s1) m = encode_utf16 text ++ [0] ++ rest
  | (Err _, _) => True
  | (Panic _, _) => False
  end.
Proof.
  unfold clip_set_text, opened_open, clip_unit, acquiring, eff_bind, eff_scoped.
  destruct (OpenClipboard _ _) as [[e|] w0]; [done|]. destruct (EmptyClipboard _) as [[e|] w1]; [done|].
  destruct (GlobalAlloc _ _) as [[e|m] w2] eqn:Ea; [done|]. apply alloc_law in Ea.
  match goal with |- context [fill_block m ?wide ?st] =>
    pose proof (fill_block_ok m wide st) as Hf; destruct (fill_block m wide st) as [[u|e|x] s2] end;
    cbn [foldr pmach at_machine acquire] in Hf; [|done|by apply Hf; lia].
  destruct Hf as [rest Hb]; [lia|]. unfold hand_over. destruct (SetClipboardData _ m) as [[e|] w3] eqn:Es; [done|].
  destruct (set_data_law _ _ _ Es) as [Hd Hu]. exists m, rest. unfold drop_opened, release. cbn [pmach at_machine].
  destruct (close_law w3 m) as [-> ->]. split; [done|]. by rewrite Hu, Hb, <- app_assoc.
Qed.

(** What [get_text] reads: the text up to its first NUL. *)
Definition up_to_nul (text : str) : str := hd [] (split_on 0 text).

Lemma up_to_nul_whole text : up_to_nul text = text <-> lacks 0 text.
Proof.
  unfold up_to_nul. split.
  - intros <-. pose proof (split_on_pieces 0 text) as H. by destruct H; [constructor|].
  - intros H. by rewrite split_on_lacks.
Qed.

Lemma read_block_text text rest : is_text text -> read_block (encode_utf16 text ++ 0 :: rest) = Ok (up_to_nul text).
Proof.
  intros Ht. unfold read_block, up_to_nul. destruct (text_at_nul text Ht) as [Hn|(a & b & -> & Hn & _ & ->)].
  - rewrite split_on_lacks by (by apply nul_free_lacks). destruct (wide_reads text rest Hn) as [-> E]. cbn [hd]. by rewrite E.
  - rewrite split_on_cons by (by apply nul_free_lacks). rewrite <- app_assoc. cbn [app hd].
    destruct (wide_reads a (encode_utf16 b ++ 0 :: rest) Hn) as [-> E]. by rewrite E.
Qed.

Lemma clip_get_ok owner (s : proc_st W) m text rest :
  is_text text -> clip_data (pmach s) = Some m -> block_units (pmach s) m = encode_utf16 text ++ [0] ++ rest ->
  fst (clip_get_text owner s) =
    match OpenClipboard (pmach s) (default 0 owner) with
    | (Some e, _) => Err (clip_fail "OpenClipboard" e)
    | (None, w) => Ok (match GetClipboardData w with
                       | Some m => if fst (GlobalLock w m) then Some (up_to_nul text) else None
                       | None => None
                       end)
    end.
Proof.
  intros Hn Hd Hb. unfold clip_get_text, opened_open, clip_unit, acquiring, eff_bind, eff_scoped, looking.
  destruct (OpenClipboard (pmach s) (default 0 owner)) as [[e|] w] eqn:Ho; [done|]. destruct (open_law _ _ _ m Ho) as [Hd1 Hb1].
  cbn [foldr pmach acquire at_machine]. destruct (GetClipboardData w) as [m'|] eqn:Eg; [|done].
  apply get_data_law in Eg. assert (m' = m) as -> by congruence. unfold asking. cbn [pmach acquire at_machine].
  destruct (lock_keeps w m) as [_ Hk]. destruct (GlobalLock w m) as [[] w1]; cbn [fst snd negb pmach at_machine] in *; [|done].
  rewrite Hk, Hb1, Hb. change ([0] ++ rest) with (0 :: rest). by rewrite read_block_text.
Qed.

Definition keeps_closed {A} (m : P A) : Prop := forall s, held (m s).2 ResClipboard = held s ResClipboard.

Lemma keeps_seq {A B} (m : P A) (k : A -> P B) : keeps_closed m -> (forall a, keeps_closed (k a)) -> keeps_closed (let* a := m in k a).
Proof. intros Hm Hk s. apply (eff_bind_pres (fun a b => held b ResClipboard = held a ResClipboard)); [congruence|apply Hm|]. intros a s1. apply Hk. Qed.
Lemma count_res_absent r l : r ∉ l -> count_res r l = 0.
Proof.
  induction l as [|x l IH]; [done|]. intros [Hn Hl]%not_elem_of_cons. rewrite count_res_cons, decide_False by done. by apply IH.
Qed.
Lemma keeps_owned {A} (m : P A) own : owns m own -> (forall a, ResClipboard ∉ own a) -> keeps_closed m.
Proof.
  intros Hm Ho s. specialize (Hm s).
  destruct (m s) as [[a|e|x] s1]; cbn [snd]; rewrite (Hm ResClipboard), count_res_absent; try lia; try apply Ho; set_solver.
Qed.

(** Neither function leaves the clipboard open, whatever happens inside. *)
Lemma clip_scoped_closes {A} (owner : option Z) (m : P A) s :
  keeps_closed m ->
  held ((let* _ := opened_open owner in eff_scoped drop_opened m) s).2 ResClipboard = held s ResClipboard.
Proof.
  unfold keeps_closed. intros Hm. unfold eff_bind, eff_scoped. destruct (opened_open owner s) as [[u|e|x] s1] eqn:E.
  - unfold opened_open in E. apply clip_unit_ok in E as (w & _ & ->). specialize (Hm (foldr acquire (at_machine w s) [ResClipboard])).
    destruct (m _) as [r s2]. unfold drop_opened, release, acquire, bump in *. cbn [foldr held at_machine snd] in *.
    rewrite decide_True in * by done. rewrite Hm. lia.
  - unfold opened_open, clip_unit, acquiring in E. destruct (OpenClipboard _ _) as [[e'|] w]; by simplify_eq.
  - unfold opened_open, clip_unit, acquiring in E. destruct (OpenClipboard _ _) as [[e'|] w]; by simplify_eq.
Qed.

Lemma clip_set_closes owner text (s : proc_st W) : held (clip_set_text owner text s).2 ResClipboard = held s ResClipboard.
Proof.
  apply clip_scoped_closes. apply keeps_seq; [eapply keeps_owned; [apply owns_acquiring|set_solver]|]. intros _.
  apply keeps_seq; [eapply keeps_owned; [apply owns_acquiring|set_solver]|]. intros m.
  apply keeps_seq.
  - apply keeps_seq; [eapply keeps_owned; [apply owns_asking|set_solver]|]. intros ok. case_match; [done|].
    apply keeps_seq; [done|]. intros room. case_match; [done|]. eapply keeps_owned; [apply owns_telling|set_solver].
  - intros _ s1. unfold hand_over. by destruct (SetClipboardData (pmach s1) m) as [[e|] w].
Qed.
Lemma clip_get_closes owner (s : proc_st W) : held (clip_get_text owner s).2 ResClipboard = held s ResClipboard.
Proof.
  apply clip_scoped_closes. apply keeps_seq; [done|]. intros [m|]; [|done].
  apply keeps_seq; [eapply keeps_owned; [apply owns_asking|set_solver]|]. intros ok. case_match; [done|].
  apply keeps_seq; [done|]. intros us. apply keeps_seq; [eapply keeps_owned; [apply owns_lift|set_solver]|]. intros t.
  apply keeps_seq; [eapply keeps_owned; [apply owns_telling|set_solver]|]. done.
Qed.

(** [C37] Text survives the clipboard.  [set_text] never writes outside the
    block it allocated.  After its success the clipboard holds the text as
    NUL-terminated UTF-16, and a [get_text] that follows, with nobody else
    writing in between, returns the text up to its first NUL, so the whole
    text exactly when it contains none; it returns the error of
    [OpenClipboard] when that fails, and no text when the data cannot be
    fetched or locked.  Both functions, called in any state and on every
    path, leave the clipboard as closed as they found it. *)
Theorem clipboard_round_trip owner owner' text (s : proc_st W) :
  is_text text ->
  match clip_set_text owner text s with
  | (Ok _, s1) =>
      (exists m rest, clip_data (pmach s1) = Some m /\ block_units (pmach s1) m = encode_utf16 text ++ [0] ++ rest) /\
      fst (clip_get_text owner' s1) =
        match OpenClipboard (pmach s1) (default 0 owner') with
        | (Some e, _) => Err (clip_fail "OpenClipboard" e)
        | (None, w) => Ok (match GetClipboardData w with
                           | Some m => if fst (GlobalLock w m) then Some (up_to_nul text) else None
                           | None => None
                           end)
        end
  | (Err _, _) => True
  | (Panic _, _) => False
  end /\
  (up_to_nul text = text <-> lacks 0 text) /\
  held (clip_set_text owner text s).2 ResClipboard = held s ResClipboard /\
  held (clip_get_text owner' s).2 ResClipboard = held s ResClipboard.
Proof.
  intros Ht. split; [|split; [apply up_to_nul_whole|split; [apply clip_set_closes|apply clip_get_closes]]].
  pose proof (clip_set_ok owner text s) as Hs. destruct (clip_set_text owner text s) as [[[]|e|x] s1]; [|done|done].
  split; [done|]. destruct Hs as (m & rest & Hd & Hb). by eapply clip_get_ok.
Qed.
End ClipboardFacts.

(** The clipboard of one process: the block it holds, and the blocks. *)
Module ClipSample.
Definition world : Type := option Z * gmap Z (list Z).
#[export] Instance api : clip_api world := {
  OpenClipboard w _ := (None, w);
  EmptyClipboard w := (None, (None, snd w));
  GlobalAlloc w n := let m := 1 + Z.of_nat (size (snd w)) in
    (inr m, (fst w, <[m := replicate (Z.to_nat n) 0]> (snd w)));
  GlobalLock w _ := (true, w);
  write_units w m us := (fst w, <[m := us ++ drop (length us) (default [] (snd w !! m))]> (snd w));
  block_units w m := default [] (snd w !! m);
  GlobalUnlock w _ := w;
  SetClipboardData w m := (None, (Some m, snd w));
  GetClipboardData w := fst w;
  CloseClipboard w := w }.
#[export] Instance laws : clip_laws world.
Proof.
  refine (Build_clip_laws world _ fst _ _ _ _ _ _ _); try done.
  - intros w n m w' H. injection H as <- <-. unfold block_units, api. cbn [snd]. rewrite lookup_insert_eq. cbn [default].
    unfold zlen. cbn. rewrite length_replicate. lia.
  - intros w m us _. unfold block_units, GlobalUnlock, write_units, api. cbn [snd]. by rewrite lookup_insert_eq.
  - intros w m w' H. by injection H as <-.
  - intros w o w' m H. by injection H as <-.
Defined.
Definition start : proc_st world := mkProcSt (Some 9, ∅) (fun _ => 0).

Lemma clipboard_round_trip_witness :
  fst (clip_get_text (Some 4) (clip_set_text None (lit "line two") start).2) = Ok (Some (lit "line two")).
Proof.
  destruct (clipboard_round_trip None (Some 4) (lit "line two") start) as [H _].
  - apply nul_free_text. ascii_text (lit "line two").
  - vm_compute in H |- *. apply H.
Defined.
End ClipSample.
