(* ===== verification/Tray.v ===== *)
(** * Tray: notification area icons

    src/desktop/tray.rs.  A method runs in the icon's fields and the process;
    an icon the shell shows is the resource [ResTrayIcon]. *)

From Stdlib Require Import ZArith Lia String Ascii.
From stdpp Require Import base list strings gmap numbers sorting.
From S2P Require Import Prelude Text Unicode Errors Backends Effects Resources Window.

Open Scope Z_scope.

Definition NIM_ADD : Z := 0.
Definition NIM_MODIFY : Z := 1.
Definition NIM_DELETE : Z := 2.
Definition NIM_SETVERSION : Z := 4.
Definition NIF_MESSAGE : Z := 0x1.
Definition NIF_ICON : Z := 0x2.
Definition NIF_TIP : Z := 0x4.
Definition NIF_INFO : Z := 0x10.
Definition NIF_SHOWTIP : Z := 0x80.
Definition NIIF_NONE : Z := 0.
Definition NIIF_INFO : Z := 1.
Definition NIIF_WARNING : Z := 2.
Definition NIIF_ERROR : Z := 3.
Definition NIIF_NOSOUND : Z := 0x10.
Definition NIIF_RESPECT_QUIET_TIME : Z := 0x80.
Definition NOTIFYICON_VERSION_4 : Z := 4.
Definition NIN_SELECT : Z := 0x400.
Definition NIN_KEYSELECT : Z := Z.lor NIN_SELECT 0x1.
Definition NIN_BALLOONUSERCLICK : Z := 0x405.
Definition SM_CXSMICON : Z := 49.
Definition DEFAULT_TRAY_WINDOW_CLASS_NAME : str := lit "windows_erg_tray_window".
Definition DEFAULT_TRAY_WINDOW_NAME : str := lit "windows_erg_tray_window".

Record TrayNotification := mkTrayNotification {
  tn_title : str; tn_body : str; tn_icon : BalloonIcon; tn_respect_quiet_time : bool; tn_silent : bool }.
Definition notification_new (title body : str) (icon : BalloonIcon) : TrayNotification :=
  mkTrayNotification title body icon false false.
Definition respect_quiet_time (n : TrayNotification) : TrayNotification :=
  mkTrayNotification (tn_title n) (tn_body n) (tn_icon n) true (tn_silent n).
Definition silent (n : TrayNotification) : TrayNotification :=
  mkTrayNotification (tn_title n) (tn_body n) (tn_icon n) (tn_respect_quiet_time n) true.

(** ** Callback messages *)

Inductive TrayEvent := Select | ContextMenu (x y : Z) | BalloonClicked | OtherEvent (code : Z).

(** [lparam as usize & 0xFFFF] is the low word of the [isize]. *)
Definition tray_decode (wparam lparam : Z) : TrayEvent :=
  let event := Z.land (wrap 64 lparam) 0xFFFF in
  if (event =? NIN_SELECT) || (event =? NIN_KEYSELECT) then Select
  else if event =? WM_CONTEXTMENU
  then ContextMenu (as_i16 (Z.land wparam 0xFFFF)) (as_i16 (Z.land (Z.shiftr wparam 16) 0xFFFF))
  else if event =? NIN_BALLOONUSERCLICK then BalloonClicked
  else OtherEvent event.

(** ** The notification structure *)

(** [fixed_text]: an array of [n] units. *)
Definition fixed_text (n : nat) (text : str) : list Z :=
  let us := take (n - 1) (encode_utf16 text) in us ++ replicate (n - length us) 0.

Record notify_data := mkNotifyData {
  nd_hWnd : Z; nd_uID : Z; nd_uFlags : Z; nd_uCallbackMessage : Z; nd_hIcon : Z; nd_szTip : list Z;
  nd_szInfo : list Z; nd_szInfoTitle : list Z; nd_dwInfoFlags : Z; nd_uVersion : Z }.

Record TrayIcon := mkTrayIcon {
  ti_hwnd : Z; ti_id : Z; ti_icon_added : bool; ti_owns_window : bool; ti_callback_message : option Z; ti_hicon : Z;
  ti_tooltip : str }.
Definition with_added (self : TrayIcon) (b : bool) : TrayIcon :=
  mkTrayIcon (ti_hwnd self) (ti_id self) b (ti_owns_window self) (ti_callback_message self) (ti_hicon self) (ti_tooltip self).
Definition with_tooltip (self : TrayIcon) (t : str) : TrayIcon :=
  mkTrayIcon (ti_hwnd self) (ti_id self) (ti_icon_added self) (ti_owns_window self) (ti_callback_message self) (ti_hicon self) t.
Definition with_icon (self : TrayIcon) (h : Z) : TrayIcon :=
  mkTrayIcon (ti_hwnd self) (ti_id self) (ti_icon_added self) (ti_owns_window self) (ti_callback_message self) h (ti_tooltip self).

Definition no_text (n : nat) : list Z := replicate n 0.
(** [base_notify_data], with the flags, icon, message and texts set afterwards. *)
Definition notify_with (self : TrayIcon) (flags message hicon : Z) (tip info title : list Z) (info_flags version : Z) : notify_data :=
  mkNotifyData (ti_hwnd self) (ti_id self) flags message hicon tip info title info_flags version.
Definition show_tip_flag (self : TrayIcon) : Z := match ti_callback_message self with Some _ => NIF_SHOWTIP | None => 0 end.

Class tray_api (W : Type) := {
  Shell_NotifyIconW : W -> Z -> notify_data -> bool * W;
  GetSystemMetrics : W -> Z -> Z;
  LoadIconW : W -> option Z;
  RegisterWindowMessageW : W -> list Z -> Z }.

Record TrayIconBuilder := mkTrayIconBuilder {
  tb_id : Z; tb_tooltip : str; tb_owner : option Z; tb_window_class_name : str; tb_window_name : str;
  tb_callback_message : option Z; tb_icon_resource : option Z }.
Definition tray_builder_new (id : Z) (tooltip : str) : TrayIconBuilder :=
  mkTrayIconBuilder id tooltip None DEFAULT_TRAY_WINDOW_CLASS_NAME DEFAULT_TRAY_WINDOW_NAME None None.
Definition owner_window (b : TrayIconBuilder) (owner : Z) : TrayIconBuilder :=
  mkTrayIconBuilder (tb_id b) (tb_tooltip b) (Some owner) (tb_window_class_name b) (tb_window_name b) (tb_callback_message b) (tb_icon_resource b).
Definition window_class_name (b : TrayIconBuilder) (name : str) : TrayIconBuilder :=
  mkTrayIconBuilder (tb_id b) (tb_tooltip b) (tb_owner b) name (tb_window_name b) (tb_callback_message b) (tb_icon_resource b).
Definition window_name (b : TrayIconBuilder) (name : str) : TrayIconBuilder :=
  mkTrayIconBuilder (tb_id b) (tb_tooltip b) (tb_owner b) (tb_window_class_name b) name (tb_callback_message b) (tb_icon_resource b).
Definition callback_message (b : TrayIconBuilder) (message : Z) : TrayIconBuilder :=
  mkTrayIconBuilder (tb_id b) (tb_tooltip b) (tb_owner b) (tb_window_class_name b) (tb_window_name b) (Some message) (tb_icon_resource b).
Definition icon_resource (b : TrayIconBuilder) (id : Z) : TrayIconBuilder :=
  mkTrayIconBuilder (tb_id b) (tb_tooltip b) (tb_owner b) (tb_window_class_name b) (tb_window_name b) (tb_callback_message b) (Some id).

Section Calls.
Context {W : Type} `{win : !window_api W} `{api : !tray_api W}.

Abbreviation P := (eff (proc_st W) Error).
(** A method: the icon and the process. *)
Abbreviation T := (eff (TrayIcon * proc_st W) Error).

Definition taskbar_created_message : P Z := looking (fun w => RegisterWindowMessageW w (to_utf16_nul (lit "TaskbarCreated"))).

(** [notify]; an icon that was added or deleted is accounted for. *)
Definition notify (message : Z) (data : notify_data) (what : string) : P unit := fun s =>
  let '(ok, w) := Shell_NotifyIconW (pmach s) message data in
  let s := at_machine w s in
  if ok then
    (Ok tt, if message =? NIM_ADD then acquire (ResTrayIcon (nd_hWnd data) (nd_uID data)) s
            else if message =? NIM_DELETE then release (ResTrayIcon (nd_hWnd data) (nd_uID data)) s else s)
  else (Err (op_error "Shell_NotifyIconW" (lit what) (as_i32 (GetLastError w))), s).

(** A step on the process. *)
Definition on_process {A} (m : TrayIcon -> P A) : T A := fun '(self, s) => let '(r, s) := m self s in (r, (self, s)).
Definition update (f : TrayIcon -> TrayIcon) : T unit := fun '(self, s) => (Ok tt, (f self, s)).

Definition info_flags (n : TrayNotification) : Z :=
  let flags := match tn_icon n with
               | BalloonNone => NIIF_NONE | BalloonInfo => NIIF_INFO | BalloonWarning => NIIF_WARNING | BalloonError => NIIF_ERROR end in
  let flags := if tn_respect_quiet_time n then Z.lor flags NIIF_RESPECT_QUIET_TIME else flags in
  if tn_silent n then Z.lor flags NIIF_NOSOUND else flags.

Definition show_notification (n : TrayNotification) : T unit := on_process (fun self =>
  notify NIM_MODIFY (notify_with self NIF_INFO 0 0 (no_text 128) (fixed_text 256 (tn_body n)) (fixed_text 64 (tn_title n))
                       (info_flags n) 0) "NIM_MODIFY notification").

Definition update_tooltip (tooltip : str) : T unit :=
  let* _ := on_process (fun self =>
    notify NIM_MODIFY (notify_with self (Z.lor NIF_TIP (show_tip_flag self)) 0 0 (fixed_text 128 tooltip) (no_text 256) (no_text 64) 0 0)
      "NIM_MODIFY tooltip") in
  update (fun self => with_tooltip self tooltip).

Definition small_icon (id : Z) : P Z :=
  let* size := looking (fun w => GetSystemMetrics w SM_CXSMICON) in load_icon_resource id size.

Definition set_icon_resource (id : Z) : T unit :=
  let* hicon := on_process (fun _ => small_icon id) in
  let* _ := on_process (fun self =>
    notify NIM_MODIFY (notify_with self NIF_ICON 0 hicon (no_text 128) (no_text 256) (no_text 64) 0 0) "NIM_MODIFY icon") in
  update (fun self => with_icon self hicon).

Definition add_flags (self : TrayIcon) : Z :=
  let flags := Z.lor (Z.lor NIF_ICON NIF_TIP) (show_tip_flag self) in
  match ti_callback_message self with Some _ => Z.lor flags NIF_MESSAGE | None => flags end.
Definition add_data (self : TrayIcon) (tooltip : str) : notify_data :=
  notify_with self (add_flags self) (default 0 (ti_callback_message self)) (ti_hicon self) (fixed_text 128 tooltip)
    (no_text 256) (no_text 64) 0 0.
Definition set_version : T unit := on_process (fun self =>
  match ti_callback_message self with
  | Some _ => notify NIM_SETVERSION (notify_with self 0 0 0 (no_text 128) (no_text 256) (no_text 64) 0 NOTIFYICON_VERSION_4) "NIM_SETVERSION"
  | None => eff_ret tt
  end).
Definition add_icon (tooltip : str) : T unit :=
  let* _ := on_process (fun self => notify NIM_ADD (add_data self tooltip) "NIM_ADD") in
  let* _ := update (fun self => with_tooltip (with_added self true) tooltip) in
  set_version.

Definition re_add : T unit := fun '(self, s) => add_icon (ti_tooltip self) (with_added self false, s).

Definition remove : T unit := fun '(self, s) =>
  if negb (ti_icon_added self) then (Ok tt, (self, s))
  else
    (let* _ := on_process (fun self => notify NIM_DELETE (notify_with self 0 0 0 (no_text 128) (no_text 256) (no_text 64) 0 0) "NIM_DELETE") in
     update (fun self => with_added self false)) (self, s).

Definition drop_tray (self : TrayIcon) (s : proc_st W) : proc_st W :=
  let '(_, (self, s)) := remove (self, s) in
  if ti_owns_window self && negb (ti_hwnd self =? 0) then destroy_call (ti_hwnd self) s else s.

Definition create_message_window (class_name window_name : str) : P Z :=
  let* instance := reading_or GetModuleHandleW "GetModuleHandleW" (lit "tray window class") in
  let* _ := register_or_reuse (mkWndClass "tray_window_proc" instance 0 0 0 0 (to_utf16_nul class_name)) "RegisterClassW" class_name in
  acquiring (fun w => CreateWindowExW w (mkCreateArgs 0 (to_utf16_nul class_name) (Some (to_utf16_nul window_name)) 0 0 0 0 0
                                           HWND_MESSAGE 0 instance 0))
    (fun h => [ResWindow h]) (win_op_error "CreateWindowExW" (lit "tray message window")).

Definition validate_window_name (field : string) (value : str) : res Error unit := validate_name field value.
Definition load_default_icon : P Z := looking (fun w => default 0 (LoadIconW w)).

(** [create]: an icon that could not be added is dropped. *)
Definition tray_create (b : TrayIconBuilder) : P TrayIcon :=
  let* _ := eff_lift (validate_window_name "window_class_name" (tb_window_class_name b)) in
  let* _ := eff_lift (validate_window_name "window_name" (tb_window_name b)) in
  let* hicon := match tb_icon_resource b with Some id => small_icon id | None => load_default_icon end in
  let* hwnd := match tb_owner b with Some owner => eff_ret owner
                                | None => create_message_window (tb_window_class_name b) (tb_window_name b) end in
  let icon := mkTrayIcon hwnd (tb_id b) false (bool_decide (tb_owner b = None)) (tb_callback_message b) hicon [] in
  fun s => match add_icon (tb_tooltip b) (icon, s) with
           | (Ok _, (icon, s)) => (Ok icon, s)
           | (Err e, (icon, s)) => (Err e, drop_tray icon s)
           | (Panic x, (icon, s)) => (Panic x, drop_tray icon s)
           end.
Definition tray_new (id : Z) (tooltip : str) : P TrayIcon := tray_create (tray_builder_new id tooltip).
Definition from_window (owner id : Z) (tooltip : str) : P TrayIcon := tray_create (owner_window (tray_builder_new id tooltip) owner).
End Calls.

(** ** Events and texts *)

(** The position in a context menu event, negative coordinates included,
    whatever icon identifier is in the upper word. *)
Lemma tray_decode_menu x y id k :
  - 2 ^ 15 <= x < 2 ^ 15 -> - 2 ^ 15 <= y < 2 ^ 15 -> 0 <= id < 2 ^ 16 ->
  tray_decode (x mod 2 ^ 16 + 2 ^ 16 * (y mod 2 ^ 16 + 2 ^ 16 * k)) (WM_CONTEXTMENU + 2 ^ 16 * (id + 2 ^ 16 * 0)) = ContextMenu x y.
Proof.
  intros Hx Hy Hid. pose proof (Z.mod_pos_bound x (2 ^ 16)). pose proof (Z.mod_pos_bound y (2 ^ 16)).
  unfold tray_decode. unfold wrap. rewrite (Z.mod_small _ (2 ^ 64)) by (unfold WM_CONTEXTMENU; lia).
  rewrite low_word by (unfold WM_CONTEXTMENU; lia). cbn [orb]. change (WM_CONTEXTMENU =? NIN_SELECT) with false.
  change (WM_CONTEXTMENU =? NIN_KEYSELECT) with false. rewrite Z.eqb_refl. cbn [orb].
  rewrite low_word, high_word by lia. by rewrite !as_i16_mod.
Qed.

(** A text for a fixed array keeps its size and its terminator; one that fits
    is read back whole. *)
Lemma fixed_text_fits n text :
  (0 < n)%nat -> length (fixed_text n text) = n /\ last (fixed_text n text) = Some 0 /\
  (nul_free text -> (length (encode_utf16 text) < n)%nat ->
   match position (Z.eqb 0) (fixed_text n text) with
   | Some k => from_utf16_lossy (take k (fixed_text n text)) = text
   | None => False
   end).
Proof.
  intros Hn. unfold fixed_text. set (us := take (n - 1) (encode_utf16 text)).
  assert (length us <= n - 1)%nat as Hl by (unfold us; rewrite length_take; lia).
  assert (replicate (n - length us) 0 = replicate (n - length us - 1) 0 ++ [0]) as Hr.
  { rewrite <- replicate_S_end. f_equal. lia. }
  split_and!.
  - rewrite length_app, length_replicate. lia.
  - rewrite Hr, app_assoc, last_snoc. done.
  - intros Hnf Hfit. assert (us = encode_utf16 text) as -> by (apply take_ge; lia).
    destruct (n - length (encode_utf16 text))%nat as [|k] eqn:Ek; [lia|]. cbn [replicate].
    by destruct (wide_reads text (replicate k 0) Hnf) as [-> Ht].
Qed.

(** ** The life of an icon *)

Section Life.
Context {W : Type} `{win : !window_api W} `{api : !tray_api W}.

Abbreviation P := (eff (proc_st W) Error).
Abbreviation T := (eff (TrayIcon * proc_st W) Error).

(** What an icon owns. *)
Definition tray_owned (self : TrayIcon) : list resource :=
  (if ti_owns_window self then [ResWindow (ti_hwnd self)] else []) ++
  (if ti_icon_added self then [ResTrayIcon (ti_hwnd self) (ti_id self)] else []).
(** [s] holds what [s0] held and what the icon owns. *)
Definition tray_holds (s0 : proc_st W) (st : TrayIcon * proc_st W) : Prop := gained s0 st.2 (tray_owned st.1).

(** A method that keeps this, the window and the identifier. *)
Definition keeps_icon {A} (m : T A) : Prop := forall s0 st, tray_holds s0 st ->
  tray_holds s0 (m st).2 /\ ti_hwnd (m st).2.1 = ti_hwnd st.1 /\ ti_owns_window (m st).2.1 = ti_owns_window st.1.

Lemma keeps_icon_bind {A B} (m : T A) (k : A -> T B) : keeps_icon m -> (forall a, keeps_icon (k a)) -> keeps_icon (let* a := m in k a).
Proof.
  intros Hm Hk s0 st H. unfold eff_bind. destruct (Hm s0 st H) as (H1 & H2 & H3).
  destruct (m st) as [[a|e|x] st1]; cbn [snd] in *; [|done|done]. destruct (Hk a s0 st1 H1) as (? & ? & ?).
  split_and!; [done|congruence|congruence].
Qed.

Lemma keeps_icon_process {A} (m : TrayIcon -> P A) : (forall self, owns (m self) (fun _ => [])) -> keeps_icon (on_process m).
Proof.
  intros Hm s0 [self s] H. unfold on_process. specialize (Hm self s).
  destruct (m self s) as [[a|e|x] s1]; (split_and!; [|done|done]); intros r; cbn [snd fst] in *;
    rewrite (Hm r), count_res_nil; specialize (H r); cbn [snd fst] in H; lia.
Qed.

Lemma keeps_icon_update f : (forall self, tray_owned (f self) = tray_owned self /\ ti_hwnd (f self) = ti_hwnd self /\
  ti_owns_window (f self) = ti_owns_window self) -> keeps_icon (update f).
Proof. intros Hf s0 [self s] H. destruct (Hf self) as (E1 & E2 & E3). cbn. unfold tray_holds in *. cbn in *. by rewrite E1. Qed.

Lemma owns_notify message data what : message <> NIM_ADD -> message <> NIM_DELETE -> owns (notify message data what : P unit) (fun _ => []).
Proof.
  intros H1 H2 s. unfold notify. destruct (Shell_NotifyIconW _ _ _) as [[] w]; intros r; rewrite count_res_nil.
  - rewrite (proj2 (Z.eqb_neq _ _) H1), (proj2 (Z.eqb_neq _ _) H2). cbn. lia.
  - cbn. lia.
Qed.

Lemma owns_looking {A} (f : W -> A) : owns (looking f : P A) (fun _ => []).
Proof. intros s r. cbn. rewrite count_res_nil. lia. Qed.
Lemma owns_reading_or {A} (call : W -> win_error + A) operation target : owns (reading_or call operation target : P A) (fun _ => []).
Proof. intros s. unfold reading_or. destruct (call (pmach s)); intros r; cbn; rewrite count_res_nil; lia. Qed.
Lemma owns_load_icon id size : owns (load_icon_resource id size : P Z) (fun _ => []).
Proof. apply owns_seq; [apply owns_reading_or|]. intros i. apply owns_calling. Qed.
Lemma owns_small_icon id : owns (small_icon id : P Z) (fun _ => []).
Proof. apply owns_seq; [apply owns_looking|]. intros n. apply owns_load_icon. Qed.

Lemma set_version_keeps : keeps_icon set_version.
Proof.
  apply keeps_icon_process. intros self. destruct (ti_callback_message self); [by apply owns_notify|apply owns_ret].
Qed.

Lemma add_icon_run tooltip self s :
  add_icon tooltip (self, s) =
  let '(ok, w) := Shell_NotifyIconW (pmach s) NIM_ADD (add_data self tooltip) in
  if ok then set_version (with_tooltip (with_added self true) tooltip, acquire (ResTrayIcon (ti_hwnd self) (ti_id self)) (at_machine w s))
  else (Err (op_error "Shell_NotifyIconW" (lit "NIM_ADD") (as_i32 (GetLastError w))), (self, at_machine w s)).
Proof. unfold add_icon, eff_bind, on_process, notify. by destruct (Shell_NotifyIconW _ _ _) as [[] w]. Qed.

Lemma add_icon_keeps tooltip s0 st : tray_holds s0 st -> ti_icon_added st.1 = false ->
  let st' := (add_icon tooltip st).2 in
  tray_holds s0 st' /\ ti_hwnd st'.1 = ti_hwnd st.1 /\ ti_owns_window st'.1 = ti_owns_window st.1.
Proof.
  destruct st as [self s]. cbn [fst]. intros H Ha. cbn zeta. rewrite add_icon_run.
  destruct (Shell_NotifyIconW _ _ _) as [[] w].
  - apply (set_version_keeps s0 (with_tooltip (with_added self true) tooltip, _)).
    intros r. unfold tray_owned, acquire, bump in *. cbn in *. specialize (H r). unfold tray_owned in H. cbn in H.
    rewrite Ha, app_nil_r in H. rewrite count_res_app, count_res_cons, count_res_nil. case_decide; lia.
  - cbn. split_and!; [|done|done]. intros r. specialize (H r). cbn in *. lia.
Qed.

(** What happens to an icon: the methods, and the restart of the shell, which
    forgets its icons, followed by the call it asks for. *)
Inductive tray_op := OpNotify (n : TrayNotification) | OpTooltip (t : str) | OpIcon (id : Z) | OpRemove | OpTaskbarCreated.
Definition shell_restarted (st : TrayIcon * proc_st W) : TrayIcon * proc_st W :=
  let '(self, s) := st in
  (self, if ti_icon_added self then release (ResTrayIcon (ti_hwnd self) (ti_id self)) s else s).
Definition run_op (op : tray_op) : T unit :=
  match op with
  | OpNotify n => show_notification n
  | OpTooltip t => update_tooltip t
  | OpIcon id => set_icon_resource id
  | OpRemove => remove
  | OpTaskbarCreated => fun st => re_add (shell_restarted st)
  end.
Fixpoint run_ops (ops : list tray_op) (st : TrayIcon * proc_st W) : TrayIcon * proc_st W :=
  match ops with [] => st | op :: ops => run_ops ops (run_op op st).2 end.

Lemma remove_keeps : keeps_icon remove.
Proof.
  intros s0 [self s] H. unfold remove. destruct (ti_icon_added self) eqn:Ea; cbn [negb]; [|done].
  unfold eff_bind, on_process, notify. destruct (Shell_NotifyIconW _ _ _) as [[] w]; cbn; (split_and!; [|done|done]); intros r; specialize (H r).
  - unfold tray_owned, release, bump in *. cbn in *. rewrite Ea, count_res_app, count_res_cons, count_res_nil in H.
    rewrite app_nil_r. case_decide; lia.
  - cbn in *. done.
Qed.

Lemma run_op_keeps op : keeps_icon (run_op op).
Proof.
  destruct op as [n|t|id| |]; cbn [run_op].
  - apply keeps_icon_process. intros self. by apply owns_notify.
  - apply keeps_icon_bind; [apply keeps_icon_process; intros self; by apply owns_notify|]. intros _. by apply keeps_icon_update.
  - apply keeps_icon_bind; [apply keeps_icon_process; intros self; apply owns_small_icon|]. intros h.
    apply keeps_icon_bind; [apply keeps_icon_process; intros self; by apply owns_notify|]. intros _. by apply keeps_icon_update.
  - apply remove_keeps.
  - intros s0 [self s] H. unfold shell_restarted, re_add.
    apply (add_icon_keeps (ti_tooltip self) s0 (with_added self false, _)); [|done]. intros r. specialize (H r).
    unfold tray_owned in *. cbn in *. rewrite app_nil_r. destruct (ti_icon_added self); [|by rewrite app_nil_r in H].
    rewrite count_res_app, count_res_cons, count_res_nil in H. unfold release, bump. cbn. case_decide; lia.
Qed.

Lemma run_ops_keep ops s0 st : tray_holds s0 st ->
  tray_holds s0 (run_ops ops st) /\ ti_hwnd (run_ops ops st).1 = ti_hwnd st.1 /\ ti_owns_window (run_ops ops st).1 = ti_owns_window st.1.
Proof.
  revert st. induction ops as [|op ops IH]; intros st H; [done|]. cbn [run_ops]. destruct (run_op_keeps op s0 st H) as (H1 & H2 & H3).
  destruct (IH _ H1) as (? & ? & ?). split_and!; [done|congruence|congruence].
Qed.
(** The machine and what is left over after the two calls of [drop]: the icon,
    when it was shown and the shell refused to delete it, and the window, when
    it is the icon's own and could not be destroyed. *)
Definition delete_data (self : TrayIcon) : notify_data := notify_with self 0 0 0 (no_text 128) (no_text 256) (no_text 64) 0 0.
Definition drop_calls (self : TrayIcon) (w : W) : list resource * W :=
  let '(kept, w) :=
    if ti_icon_added self then
      let '(ok, w) := Shell_NotifyIconW w NIM_DELETE (delete_data self) in
      (if ok : bool then [] else [ResTrayIcon (ti_hwnd self) (ti_id self)], w)
    else ([], w) in
  if ti_owns_window self then
    let '(failed, w) := DestroyWindow w (ti_hwnd self) in
    (kept ++ match failed with Some _ => [ResWindow (ti_hwnd self)] | None => [] end, w)
  else (kept, w).

(** A created window is not null: the call reports a null one as an error. *)
Class created_windows : Prop := window_not_null w a h w' : CreateWindowExW w a = (inr h, w') -> h <> 0.
Context `{created : !created_windows}.

Lemma drop_tray_calls s0 self s : tray_holds s0 (self, s) -> (ti_owns_window self = true -> ti_hwnd self <> 0) ->
  gained s0 (drop_tray self s) (fst (drop_calls self (pmach s))) /\
  pmach (drop_tray self s) = snd (drop_calls self (pmach s)).
Proof.
  intros H Hn. unfold drop_tray, drop_calls.
  pose proof (remove_keeps s0 (self, s) H) as (H1 & _). revert H1.
  unfold remove, tray_holds, tray_owned. destruct (ti_icon_added self) eqn:Ea; cbn [negb].
  - unfold eff_bind, on_process, notify. change (notify_with self 0 0 0 _ _ _ 0 0) with (delete_data self).
    destruct (Shell_NotifyIconW (pmach s) NIM_DELETE (delete_data self)) as [[] w]; cbn [snd fst pmach at_machine update with_added
      ti_owns_window ti_hwnd ti_icon_added ti_id release Z.eqb]; rewrite ?Ea; intros H1.
    + change (NIM_DELETE =? NIM_ADD) with false in *. change (NIM_DELETE =? NIM_DELETE) with true in *. cbn iota in *.
      destruct (ti_owns_window self) eqn:Eo; cbn [andb]; [|split; [by rewrite app_nil_r in H1|done]].
      rewrite (proj2 (Z.eqb_neq _ _) (Hn eq_refl)). cbn [negb]. unfold destroy_call. cbn [pmach at_machine release].
      destruct (DestroyWindow w (ti_hwnd self)) as [[e|] w2]; (split; [|done]); [exact H1|exact (gained_release _ _ _ _ H1)].
    + destruct (ti_owns_window self) eqn:Eo; cbn [andb]; [|done].
      rewrite (proj2 (Z.eqb_neq _ _) (Hn eq_refl)). cbn [negb]. unfold destroy_call. cbn [pmach at_machine release].
      destruct (DestroyWindow w (ti_hwnd self)) as [[e|] w2]; (split; [|done]); [|exact (gained_release _ _ _ _ H1)].
      eapply gained_eq; [exact H1|]. intros r. cbn [app fst]. rewrite !count_res_cons, !count_res_nil. lia.
  - cbn [snd fst]. rewrite ?Ea. intros H1. destruct (ti_owns_window self) eqn:Eo; cbn [andb]; [|split; [by rewrite app_nil_r in H1|done]].
    rewrite (proj2 (Z.eqb_neq _ _) (Hn eq_refl)). cbn [negb]. unfold destroy_call.
    destruct (DestroyWindow (pmach s) (ti_hwnd self)) as [[e|] w2]; (split; [|done]); [exact H1|exact (gained_release _ _ _ _ H1)].
Qed.

(** The part of [create] before the icon is added. *)
Lemma owns_message_window class_name name : owns (create_message_window class_name name : P Z) (fun h => [ResWindow h]).
Proof.
  apply owns_seq; [apply owns_reading_or|]. intros i. apply owns_seq; [|intros _; apply owns_acquiring].
  apply owns_seq; [apply owns_asking|]. intros atom. case_match; [|apply owns_ret].
  apply owns_seq; [apply owns_looking|]. intros code. case_match; [apply owns_ret|apply owns_fail].
Qed.
Lemma message_window_not_null class_name name (s : proc_st W) h s' : create_message_window class_name name s = (Ok h, s') -> h <> 0.
Proof.
  intros H. apply eff_bind_ok in H as (i & s1 & _ & H). apply eff_bind_ok in H as (u & s2 & _ & H).
  unfold acquiring in H. destruct (CreateWindowExW _ _) as [[e|h'] w] eqn:E; [done|]. injection H as <- _. by eapply window_not_null.
Qed.

Definition tray_window (b : TrayIconBuilder) : P Z :=
  match tb_owner b with Some owner => eff_ret owner | None => create_message_window (tb_window_class_name b) (tb_window_name b) end.
Definition fresh_icon (b : TrayIconBuilder) (hicon hwnd : Z) : TrayIcon :=
  mkTrayIcon hwnd (tb_id b) false (bool_decide (tb_owner b = None)) (tb_callback_message b) hicon [].

Lemma owns_tray_window b hicon : owns (tray_window b) (fun hwnd => tray_owned (fresh_icon b hicon hwnd)).
Proof.
  unfold tray_window, tray_owned, fresh_icon. destruct (tb_owner b) as [o|]; cbn; [apply owns_ret|apply owns_message_window].
Qed.

(** A [create] that ends without an icon: before the window is kept, or with
    an icon that could not be added or announced, which is dropped. *)
Definition create_failed (b : TrayIconBuilder) (s s1 : proc_st W) : Prop :=
  gained s s1 [] \/
  exists hicon hwnd s2 r icon s3, add_icon (tb_tooltip b) (fresh_icon b hicon hwnd, s2) = (r, (icon, s3)) /\ r <> Ok tt /\
    s1 = drop_tray icon s3 /\ gained s s1 (fst (drop_calls icon (pmach s3))).

Lemma tray_create_outcome b (s : proc_st W) :
  match tray_create b s with
  | (Ok icon, s1) => tray_holds s (icon, s1) /\ (ti_owns_window icon = true -> ti_hwnd icon <> 0)
  | (_, s1) => create_failed b s s1
  end.
Proof.
  set (Q := fun (r : res Error TrayIcon * proc_st W) => match r with
    | (Ok icon, s1) => tray_holds s (icon, s1) /\ (ti_owns_window icon = true -> ti_hwnd icon <> 0) | (_, s1) => create_failed b s s1 end).
  change (Q (tray_create b s)).
  assert (forall A (m : P A) (k : A -> P TrayIcon) s1, owns m (fun _ => []) -> gained s s1 [] ->
            (forall a s2, gained s s2 [] -> Q (k a s2)) -> Q (eff_bind m k s1)) as Hseq.
  { intros A m k s1 Hm H1 Hk. unfold eff_bind. specialize (Hm s1). destruct (m s1) as [[a|e|x] s2]; [apply Hk; exact (gained_trans _ _ _ _ _ H1 Hm)| |];
      exact (or_introl (gained_trans _ _ _ _ _ H1 Hm)). }
  unfold tray_create. apply Hseq; [apply owns_lift|intros r; rewrite count_res_nil; lia|]. intros _ s2 G2.
  apply Hseq; [apply owns_lift|done|]. intros _ s3 G3.
  apply Hseq; [destruct (tb_icon_resource b); [apply owns_small_icon|apply owns_looking]|done|]. intros hicon s4 G4.
  fold (tray_window b). unfold eff_bind. pose proof (owns_tray_window b hicon s4) as Hw.
  destruct (tray_window b s4) as [[hwnd|e|x] s5] eqn:Ew; [|exact (or_introl (gained_trans _ _ _ _ _ G4 Hw))..].
  change (mkTrayIcon hwnd _ _ _ _ _ _) with (fresh_icon b hicon hwnd).
  assert (tray_holds s (fresh_icon b hicon hwnd, s5)) as H5 by exact (gained_trans _ _ _ _ _ G4 Hw).
  assert (bool_decide (tb_owner b = None) = true -> hwnd <> 0) as Hn.
  { unfold tray_window in Ew. destruct (tb_owner b); [done|]. intros _. by eapply message_window_not_null. }
  destruct (add_icon_keeps (tb_tooltip b) s _ H5 eq_refl) as (H6 & E1 & E2).
  destruct (add_icon (tb_tooltip b) _) as [[u|e|x] [icon s6]] eqn:Ea; cbn [fst snd] in *;
    [split; [done|]; rewrite E1, E2; exact Hn|apply or_intror; exists hicon, hwnd, s5; eexists _, icon, s6; split_and!; try done..];
    (apply drop_tray_calls; [done|]; rewrite E1, E2; exact Hn).
Qed.

(** [C30] What a tray icon leaves behind.  Whatever is done to a created icon
    (balloons, tooltips, icon changes, removal, restarts of the shell that ask
    for it to be added again), each with whatever result, dropping it makes
    the two calls of [drop_calls], NIM_DELETE if the icon is shown and then
    DestroyWindow if the window is its own, the second whatever the first
    answered, and the process then holds what it held before [create], except
    the icon when the shell refused to delete it and the window when it could
    not be destroyed.  A [create] that fails has released everything, or, when
    only adding or announcing the icon failed, it has dropped the icon with
    the same calls and the same exceptions.  (A window that was created is
    not null.) *)
Theorem tray_icon_releases b (s : proc_st W) :
  match tray_create b s with
  | (Ok icon, s1) => forall ops, let '(icon', s2) := run_ops ops (icon, s1) in
      gained s (drop_tray icon' s2) (fst (drop_calls icon' (pmach s2))) /\
      pmach (drop_tray icon' s2) = snd (drop_calls icon' (pmach s2))
  | (_, s1) => create_failed b s s1
  end.
Proof.
  pose proof (tray_create_outcome b s) as H. destruct (tray_create b s) as [[icon|e|x] s1]; [|done|done].
  destruct H as [Hh Hn]. intros ops. destruct (run_ops_keep ops s _ Hh) as (H1 & H2 & H3).
  destruct (run_ops ops (icon, s1)) as [icon' s2]. cbn [fst] in *. apply drop_tray_calls; [done|]. by rewrite H2, H3.
Qed.
End Life.

Module TraySample.
#[export] Instance win : window_api unit := quiet_windows (fun w => (0, mkMsg 0 WM_QUIT 0 0, w)) (fun w _ => w).
#[export] Instance api : tray_api unit := {
  Shell_NotifyIconW w message _ := (negb (message =? NIM_SETVERSION), w);
  GetSystemMetrics _ _ := 16; LoadIconW _ := Some 5; RegisterWindowMessageW _ _ := 0xC001 }.
#[export] Instance created : created_windows (W := unit).
Proof. intros w a h w' H. injection H as <- _. done. Qed.
Definition start : proc_st unit := mkProcSt tt (fun _ => 0).

Lemma tray_icon_releases_witness :
  exists icon s1, tray_create (tray_builder_new 1 (lit "demo")) start = (Ok icon, s1) /\
    held s1 (ResWindow 77) = 1 /\ held s1 (ResTrayIcon 77 1) = 1 /\
    gained start (let '(i, s2) := run_ops [OpTooltip (lit "new"); OpTaskbarCreated; OpIcon 3] (icon, s1) in drop_tray i s2) [].
Proof.
  pose proof (tray_icon_releases (tray_builder_new 1 (lit "demo")) start) as H.
  destruct (tray_create (tray_builder_new 1 (lit "demo")) start) as [[icon|e|x] s1] eqn:E; [|vm_compute in E; discriminate..].
  exists icon, s1. specialize (H [OpTooltip (lit "new"); OpTaskbarCreated; OpIcon 3]).
  split_and!; [done|vm_compute in E; injection E as _ <-; by vm_compute|vm_compute in E; injection E as _ <-; by vm_compute|].
  assert (fst (drop_calls (run_ops [OpTooltip (lit "new"); OpTaskbarCreated; OpIcon 3] (icon, s1)).1
            (pmach (run_ops [OpTooltip (lit "new"); OpTaskbarCreated; OpIcon 3] (icon, s1)).2)) = []) as Hl.
  { vm_compute in E. injection E as <- <-. by vm_compute. }
  destruct (run_ops _ (icon, s1)) as [i s2]. cbn [fst snd] in Hl. rewrite Hl in H. apply H.
Defined.

(** With a callback message the version call fails here: the icon and the
    window of the failed [create] are gone. *)
Example failed_create_releases :
  let '(r, s1) := tray_create (callback_message (tray_builder_new 1 (lit "demo")) 0x8001) start in
  (exists e, r = Err e) /\ held s1 (ResWindow 77) = 0 /\ held s1 (ResTrayIcon 77 1) = 0.
Proof. vm_compute. split; [by eexists|done]. Qed.
End TraySample.
