(* ===== verification/Controls.v ===== *)
(** * Controls: list views, tabs, status bars

    src/desktop/controls.rs.  A structure passed to a control by address is a
    value of [lparam_struct]; a notification is its header and the structure
    behind it.  Fonts and brushes are the resource [ResGdi], controls the
    resource [ResWindow] of their parent. *)

From Stdlib Require Import ZArith Lia String Ascii.
From stdpp Require Import base list strings gmap numbers sorting.
From S2P Require Import Prelude Text Unicode Errors Backends Effects Resources Window.

Open Scope Z_scope.

(** ** Messages, styles and notification codes *)

Definition LVS_REPORT : Z := 0x1.
Definition LVS_SINGLESEL : Z := 0x4.
Definition LVS_SHOWSELALWAYS : Z := 0x8.
Definition LVS_OWNERDATA : Z := 0x1000.
Definition LVS_EX_FULLROWSELECT : Z := 0x20.
Definition LVS_EX_DOUBLEBUFFER : Z := 0x10000.
Definition LVIF_TEXT : Z := 0x1.
Definition LVIF_STATE : Z := 0x8.
Definition LVIS_FOCUSED : Z := 0x1.
Definition LVIS_SELECTED : Z := 0x2.
Definition LVCF_WIDTH : Z := 0x2.
Definition LVCF_TEXT : Z := 0x4.
Definition LVNI_SELECTED : Z := 0x2.
Definition LVSICF_NOSCROLL : Z := 0x2.
Definition LVSIL_SMALL : Z := 1.
Definition LVIR_BOUNDS : Z := 0.
Definition TCIF_TEXT : Z := 0x1.
Definition SBARS_SIZEGRIP : Z := 0x100.
Definition ICC_CLASSES : Z := Z.lor (Z.lor 0x1 0x8) 0x4.
Definition UISF_HIDEFOCUS : Z := 1.
Definition UIS_SET : Z := 1.
Definition ILC_COLOR32 : Z := 0x20.

Definition LVM_SETBKCOLOR : Z := 0x1001.
Definition LVM_SETIMAGELIST : Z := 0x1003.
Definition LVM_GETNEXTITEM : Z := 0x100C.
Definition LVM_ENSUREVISIBLE : Z := 0x1013.
Definition LVM_SETCOLUMNWIDTH : Z := 0x101E.
Definition LVM_GETHEADER : Z := 0x101F.
Definition LVM_SETTEXTCOLOR : Z := 0x1024.
Definition LVM_SETTEXTBKCOLOR : Z := 0x1026.
Definition LVM_SETITEMSTATE : Z := 0x102B.
Definition LVM_SETITEMCOUNT : Z := 0x102F.
Definition LVM_SETEXTENDEDLISTVIEWSTYLE : Z := 0x1036.
Definition LVM_GETSUBITEMRECT : Z := 0x1038.
Definition LVM_INSERTCOLUMNW : Z := 0x1061.
Definition TCM_GETITEMCOUNT : Z := 0x1304.
Definition TCM_GETCURSEL : Z := 0x130B.
Definition TCM_ADJUSTRECT : Z := 0x1328.
Definition TCM_INSERTITEMW : Z := 0x133E.
Definition SB_SETTEXTW : Z := 0x40B.
Definition WM_SETFONT : Z := 0x30.
Definition WM_CHANGEUISTATE : Z := 0x127.

Definition NM_DBLCLK : Z := wrap 32 (-3).
Definition NM_CUSTOMDRAW : Z := wrap 32 (-12).
Definition LVN_ITEMCHANGED : Z := wrap 32 (-101).
Definition LVN_KEYDOWN : Z := wrap 32 (-155).
Definition LVN_GETDISPINFOW : Z := wrap 32 (-177).
Definition TCN_SELCHANGE : Z := wrap 32 (-551).

Definition CDDS_PREPAINT : Z := 0x1.
Definition CDDS_ITEMPREPAINT : Z := 0x10001.
Definition CDDS_ITEMPOSTPAINT : Z := 0x10002.
Definition CDDS_SUBITEM : Z := 0x20000.
Definition CDIS_SELECTED : Z := 0x1.
Definition CDRF_DODEFAULT : Z := 0x0.
Definition CDRF_NEWFONT : Z := 0x2.
Definition CDRF_SKIPDEFAULT : Z := 0x4.
Definition CDRF_NOTIFYPOSTPAINT : Z := 0x10.
Definition CDRF_NOTIFYITEMDRAW : Z := 0x20.
Definition CDRF_NOTIFYSUBITEMDRAW : Z := 0x20.

(** ** Notifications *)

Record NMHDR := mkNMHDR { hwndFrom : Z; idFrom : Z; nm_code : Z }.
Record custom_draw := mkCustomDraw {
  cd_stage : Z; cd_hdc : Z; cd_item_spec : Z; cd_item_state : Z; cd_clr_text : Z; cd_clr_text_bk : Z; cd_sub_item : Z }.
(** What lies behind the header: nothing, [NMLVDISPINFOW], [NMLVCUSTOMDRAW],
    the shorter [NMCUSTOMDRAW] of the other controls, [NMLISTVIEW],
    [NMLVKEYDOWN].  A text buffer is its units, [None] a null pointer. *)
Inductive nm_body :=
  | NMPlain
  | NMDispInfo (mask iItem iSubItem : Z) (pszText : option (list Z)) (cchTextMax : Z)
  | NMLVDraw (raw : custom_draw)
  | NMDraw (stage hdc : Z)
  | NMListView (iItem uChanged uNewState uOldState : Z)
  | NMKeyDown (wVKey : Z).
Record notification := mkNotification { nm_hdr : NMHDR; nm_rest : nm_body }.

Record ListViewTextRequest := mkTextRequest { tr_control_id : Z; tr_row : Z; tr_column : Z; tr_buffer : list Z }.
Record ListViewCustomDraw := mkListViewCustomDraw { lcd_control_id : Z; lcd_raw : custom_draw }.
Inductive ControlNotify :=
  | ListViewGetText (request : ListViewTextRequest)
  | ListViewDraw (draw : ListViewCustomDraw)
  | SelectionChanged (control_id row : Z)
  | KeyDown (control_id key : Z)
  | TabChanged (control_id : Z)
  | DoubleClick (control_id : Z)
  | OtherNotify (control_id code : Z).

(** [usize::try_from] of an [i32]. *)
Definition to_usize (z : Z) : option Z := if z <? 0 then None else Some z.
Definition contains_flag (set flag : Z) : bool := Z.land set flag =? flag.

(** [decode_notify]: [None] is a null parameter; a structure read through the
    wrong type is undefined behaviour, and so is a buffer shorter than it
    says. *)
Definition decode_notify (lparam : option notification) : res none ControlNotify :=
  match lparam with
  | None => Err NoneV
  | Some n =>
      let control_id := idFrom (nm_hdr n) in
      let code := nm_code (nm_hdr n) in
      if code =? LVN_GETDISPINFOW then
        match nm_rest n with
        | NMDispInfo mask iItem iSubItem pszText cchTextMax =>
            match pszText with
            | Some units =>
                if negb (contains_flag mask LVIF_TEXT) || (cchTextMax <=? 0) then Err NoneV
                else if zlen units <? cchTextMax then Panic UndefinedBehaviour
                else
                  let! row := ok_or (to_usize iItem) NoneV in
                  let! column := ok_or (to_usize iSubItem) NoneV in
                  Ok (ListViewGetText (mkTextRequest control_id row column (take (Z.to_nat cchTextMax) units)))
            | None => Err NoneV
            end
        | _ => Panic UndefinedBehaviour
        end
      else if code =? NM_CUSTOMDRAW then
        match nm_rest n with
        | NMLVDraw raw => Ok (ListViewDraw (mkListViewCustomDraw control_id raw))
        | _ => Panic UndefinedBehaviour
        end
      else if code =? LVN_ITEMCHANGED then
        match nm_rest n with
        | NMListView iItem uChanged uNewState uOldState =>
            let became_selected := contains_flag uChanged LVIF_STATE && negb (Z.land uNewState LVIS_SELECTED =? 0) &&
                                   (Z.land uOldState LVIS_SELECTED =? 0) in
            Ok (match to_usize iItem with
                | Some row => if became_selected then SelectionChanged control_id row else OtherNotify control_id LVN_ITEMCHANGED
                | None => OtherNotify control_id LVN_ITEMCHANGED
                end)
        | _ => Panic UndefinedBehaviour
        end
      else if code =? LVN_KEYDOWN then
        match nm_rest n with NMKeyDown key => Ok (KeyDown control_id key) | _ => Panic UndefinedBehaviour end
      else if code =? TCN_SELCHANGE then Ok (TabChanged control_id)
      else if code =? NM_DBLCLK then Ok (DoubleClick control_id)
      else Ok (OtherNotify control_id code)
  end.

(** [ListViewTextRequest::set_text]. *)
Definition request_set_text (self : ListViewTextRequest) (text : str) : ListViewTextRequest :=
  let buffer := tr_buffer self in
  match buffer with
  | [] => self
  | _ =>
      let us := take (length buffer - 1) (encode_utf16 text) in
      mkTextRequest (tr_control_id self) (tr_row self) (tr_column self) (us ++ [0] ++ drop (length us + 1) buffer)
  end.

(** ** Custom drawing *)

Inductive DrawStage := PrePaint | RowStage | CellStage | RowPostPaint | OtherStage.
Definition draw_stage (self : ListViewCustomDraw) : DrawStage :=
  let stage := cd_stage (lcd_raw self) in
  if stage =? CDDS_PREPAINT then PrePaint
  else if stage =? Z.lor CDDS_ITEMPREPAINT CDDS_SUBITEM then CellStage
  else if stage =? CDDS_ITEMPREPAINT then RowStage
  else if stage =? CDDS_ITEMPOSTPAINT then RowPostPaint
  else OtherStage.
Definition draw_row (self : ListViewCustomDraw) : Z := cd_item_spec (lcd_raw self).
Definition draw_column (self : ListViewCustomDraw) : Z := default 0 (to_usize (cd_sub_item (lcd_raw self))).
Definition draw_selected (self : ListViewCustomDraw) : bool := contains_flag (cd_item_state (lcd_raw self)) CDIS_SELECTED.
Definition set_text_color (self : ListViewCustomDraw) (color : Z) : ListViewCustomDraw :=
  let r := lcd_raw self in
  mkListViewCustomDraw (lcd_control_id self)
    (mkCustomDraw (cd_stage r) (cd_hdc r) (cd_item_spec r) (cd_item_state r) color (cd_clr_text_bk r) (cd_sub_item r)).
Definition set_background (self : ListViewCustomDraw) (color : Z) : ListViewCustomDraw :=
  let r := lcd_raw self in
  mkListViewCustomDraw (lcd_control_id self)
    (mkCustomDraw (cd_stage r) (cd_hdc r) (cd_item_spec r) (cd_item_state r) (cd_clr_text r) color (cd_sub_item r)).
Definition notify_rows : Z := CDRF_NOTIFYITEMDRAW.
Definition notify_cells : Z := CDRF_NOTIFYSUBITEMDRAW.
Definition notify_post_paint : Z := CDRF_NOTIFYPOSTPAINT.
Definition new_colors : Z := CDRF_NEWFONT.
Definition draw_default : Z := CDRF_DODEFAULT.
Definition skip_default : Z := CDRF_SKIPDEFAULT.

(** ** The calls *)

Inductive lparam_struct :=
  | LVCOLUMNW (mask cx : Z) (text : list Z)
  | LVITEMW (mask state stateMask : Z)
  | TCITEMW (mask : Z) (text : list Z)
  | LRect (r : WindowRect)
  | LText (units : list Z).

Class controls_api (W : Type) := {
  InitCommonControlsEx : W -> Z -> bool * W;
  SendStructW : W -> Z -> Z -> Z -> lparam_struct -> Z * lparam_struct * W;
  NonClientMetrics : W -> Z -> win_error + Z;     (** the message font of [SystemParametersInfoForDpi] *)
  CreateFontIndirectW : W -> Z -> Z * W;
  ImageList_Create : W -> Z -> Z -> Z * W;
  ImageList_Destroy : W -> Z -> W;
  SetWindowSubclass : W -> Z -> Z -> Z -> W;
  DefSubclassProc : W -> Z -> Z -> option notification -> Z * W;
  CreateSolidBrush : W -> Z -> Z * W;
  GetNullPen : W -> Z;
  SelectObject : W -> Z -> Z -> Z * W;
  DeleteObject : W -> Z -> W;
  RoundRect : W -> Z -> list Z -> W;
  FillRect : W -> Z -> WindowRect -> Z -> W;
  SetTextColor : W -> Z -> Z -> W;
  SetBkModeTransparent : W -> Z -> W;
  DrawTextW : W -> Z -> list Z -> WindowRect -> W }.

Definition WC_LISTVIEWW : list Z := to_utf16_nul (lit "SysListView32").
Definition WC_TABCONTROLW : list Z := to_utf16_nul (lit "SysTabControl32").
Definition STATUSCLASSNAMEW : list Z := to_utf16_nul (lit "msctls_statusbar32").
Definition HEADER_COLOR_SUBCLASS_ID : Z := 0x4247.

Record GuiFont := mkGuiFont { gf_hfont : Z }.
Record ListView := mkListView { lv_hwnd : Z; lv_columns : Z }.
Record TabControl := mkTabControl { tab_hwnd : Z }.
Record StatusBar := mkStatusBar { bar_hwnd : Z }.

Definition add_i32 {E} (p : profile) (a b : Z) : res E Z := sub_i32 p a (- b).

Section Calls.
Context {W : Type} `{win : !window_api W} `{api : !controls_api W}.

Abbreviation P := (eff (proc_st W) Error).

Definition send (h msg wparam lparam : Z) : P Z := asking (fun w => SendMessageW w h msg wparam lparam).
Definition tell (h msg wparam lparam : Z) : P unit := let* _ := send h msg wparam lparam in eff_ret tt.
Definition send_struct (h msg wparam : Z) (l : lparam_struct) : P (Z * lparam_struct) :=
  asking (fun w => SendStructW w h msg wparam l).

Definition init_common_controls : P unit :=
  let* ok := asking (fun w => InitCommonControlsEx w ICC_CLASSES) in
  if (ok : bool) then eff_ret tt else eff_fail (op_error "InitCommonControlsEx" (lit "common controls") 0).

(** *** Fonts *)

Definition message_font (dpi : Z) : P GuiFont :=
  let* font := reading_or (fun w => NonClientMetrics w dpi) "SystemParametersInfoForDpi" (lit "message font") in fun s =>
  let '(hfont, w) := CreateFontIndirectW (pmach s) font in
  if hfont =? 0 then (Err (op_error "CreateFontIndirectW" (lit "message font") 0), at_machine w s)
  else (Ok (mkGuiFont hfont), acquire (ResGdi hfont) (at_machine w s)).
Definition font_apply (self : GuiFont) (window : Z) : P unit := tell window WM_SETFONT (gf_hfont self) 1.
Definition drop_font (self : GuiFont) (s : proc_st W) : proc_st W :=
  release (ResGdi (gf_hfont self)) (at_machine (DeleteObject (pmach s) (gf_hfont self)) s).

(** *** Creation *)

Definition create_child (class : list Z) (parent id style ex_style : Z) (what : string) : P Z :=
  let* instance := reading_or GetModuleHandleW "GetModuleHandleW" (lit what) in
  acquiring (fun w => CreateWindowExW w (mkCreateArgs ex_style class None style 0 0 0 0 parent id instance 0))
    (fun h => [ResWindow h]) (win_op_error "CreateWindowExW" (lit what)).

Definition list_style : Z :=
  Z.lor (Z.lor (Z.lor WS_CHILD WS_VISIBLE) WS_TABSTOP)
    (Z.lor (Z.lor (Z.lor LVS_REPORT LVS_OWNERDATA) LVS_SHOWSELALWAYS) LVS_SINGLESEL).
Definition create_with_border (parent id : Z) (border : bool) : P ListView :=
  let* hwnd := create_child WC_LISTVIEWW parent id list_style (if border then WS_EX_CLIENTEDGE else 0) "list view" in
  let extended := Z.lor LVS_EX_FULLROWSELECT LVS_EX_DOUBLEBUFFER in
  let* _ := tell hwnd LVM_SETEXTENDEDLISTVIEWSTYLE extended extended in
  eff_ret (mkListView hwnd 0).
Definition list_create (parent id : Z) : P ListView := create_with_border parent id true.
Definition list_create_flat (parent id : Z) : P ListView :=
  let* list := create_with_border parent id false in
  let* _ := tell (lv_hwnd list) WM_CHANGEUISTATE (Z.lor (Z.shiftl UISF_HIDEFOCUS 16) UIS_SET) 0 in
  eff_ret list.
Definition tab_create (parent id : Z) : P TabControl :=
  let style := Z.lor (Z.lor (Z.lor WS_CHILD WS_VISIBLE) WS_CLIPSIBLINGS) WS_TABSTOP in
  let* hwnd := create_child WC_TABCONTROLW parent id style 0 "tab control" in
  eff_ret (mkTabControl hwnd).
Definition bar_create (parent id : Z) : P StatusBar :=
  let style := Z.lor (Z.lor WS_CHILD WS_VISIBLE) SBARS_SIZEGRIP in
  let* hwnd := create_child STATUSCLASSNAMEW parent id style 0 "status bar" in
  eff_ret (mkStatusBar hwnd).

(** *** List views *)

Definition add_column (self : ListView) (header : str) (width : Z) : P ListView :=
  let* r := send_struct (lv_hwnd self) LVM_INSERTCOLUMNW (lv_columns self)
              (LVCOLUMNW (Z.lor LVCF_TEXT LVCF_WIDTH) width (to_utf16_nul header)) in
  if fst r <? 0 then eff_fail (op_error "LVM_INSERTCOLUMNW" header 0)
  else eff_ret (mkListView (lv_hwnd self) (lv_columns self + 1)).
Definition set_item_count (self : ListView) (count : Z) : P unit :=
  let* _ := tell (lv_hwnd self) LVM_SETITEMCOUNT count LVSICF_NOSCROLL in invalidate (lv_hwnd self).
(** The index -1 is [usize::MAX] in the parameter. *)
Definition list_select (self : ListView) (row : option Z) : P unit :=
  let mask := Z.lor LVIS_SELECTED LVIS_FOCUSED in
  let '(index, state) := match row with Some row => (row, mask) | None => (-1, 0) end in
  let* _ := send_struct (lv_hwnd self) LVM_SETITEMSTATE (wrap 64 index) (LVITEMW LVIF_STATE state mask) in
  eff_ret tt.
(** The control owns the new list; the one it gives back is destroyed. *)
Definition set_row_height (self : ListView) (height : Z) : P unit :=
  let* images := asking (fun w => ImageList_Create w (Z.max height 1) ILC_COLOR32) in
  if images =? 0 then eff_ret tt
  else
    let* previous := send (lv_hwnd self) LVM_SETIMAGELIST LVSIL_SMALL images in
    if negb (previous =? 0) then telling (fun w => ImageList_Destroy w previous) else eff_ret tt.
Definition list_header (self : ListView) : P Z := send (lv_hwnd self) LVM_GETHEADER 0 0.
Definition set_header_text_color (self : ListView) (color : Z) : P unit :=
  let* _ := telling (fun w => SetWindowSubclass w (lv_hwnd self) HEADER_COLOR_SUBCLASS_ID color) in
  let* header := list_header self in
  invalidate header.
Definition set_column_width (self : ListView) (index width : Z) : P unit := tell (lv_hwnd self) LVM_SETCOLUMNWIDTH index width.
Definition ensure_visible (self : ListView) (row : Z) : P unit := tell (lv_hwnd self) LVM_ENSUREVISIBLE row 0.
Definition cell_rect (self : ListView) (row column : Z) : P (option WindowRect) :=
  let* r := send_struct (lv_hwnd self) LVM_GETSUBITEMRECT row (LRect (mkWindowRect LVIR_BOUNDS (as_i32 (wrap 32 column)) 0 0)) in
  eff_ret (if negb (fst r =? 0) then match snd r with LRect rect => Some rect | _ => None end else None).
Definition set_colors (self : ListView) (text background : Z) : P unit :=
  let* _ := tell (lv_hwnd self) LVM_SETTEXTCOLOR 0 text in
  let* _ := tell (lv_hwnd self) LVM_SETTEXTBKCOLOR 0 background in
  let* _ := tell (lv_hwnd self) LVM_SETBKCOLOR 0 background in
  invalidate (lv_hwnd self).
Definition selected_index (self : ListView) : P (option Z) :=
  let* index := send (lv_hwnd self) LVM_GETNEXTITEM u64_max LVNI_SELECTED in eff_ret (to_usize index).

(** *** Tabs and the status bar *)

Definition add_tab (self : TabControl) (label : str) : P unit :=
  let* count := send (tab_hwnd self) TCM_GETITEMCOUNT 0 0 in
  let* r := send_struct (tab_hwnd self) TCM_INSERTITEMW (wrap 64 count) (TCITEMW TCIF_TEXT (to_utf16_nul label)) in
  if fst r <? 0 then eff_fail (op_error "TCM_INSERTITEMW" label 0) else eff_ret tt.
Definition tab_selected (self : TabControl) : P (option Z) :=
  let* index := send (tab_hwnd self) TCM_GETCURSEL 0 0 in eff_ret (to_usize index).
Definition display_rect (self : TabControl) (bounds : WindowRect) : P WindowRect :=
  let* r := send_struct (tab_hwnd self) TCM_ADJUSTRECT 0 (LRect bounds) in
  eff_ret (match snd r with LRect rect => rect | _ => bounds end).
Definition bar_set_text (self : StatusBar) (text : str) : P unit :=
  let* _ := send_struct (bar_hwnd self) SB_SETTEXTW 0 (LText (to_utf16_nul text)) in eff_ret tt.
Definition parent_resized (self : StatusBar) : P unit := tell (bar_hwnd self) WM_SIZE 0 0.
Definition bar_height (p : profile) (self : StatusBar) : P Z :=
  let* r := eff_try (window_rect (bar_hwnd self)) in
  match r with inr rect => eff_lift (rect_height p rect) | inl _ => eff_ret 0 end.

(** *** Drawing with GDI *)

Definition header_color_subclass (hwnd msg : Z) (lparam : option notification) (color : Z) : P Z :=
  let default := asking (fun w => DefSubclassProc w hwnd msg lparam) in
  match lparam with
  | Some n =>
      if msg =? WM_NOTIFY then
        let* header := send hwnd LVM_GETHEADER 0 0 in
        if (hwndFrom (nm_hdr n) =? header) && (nm_code (nm_hdr n) =? NM_CUSTOMDRAW) then
          match nm_rest n with
          | NMDraw stage hdc =>
              if stage =? CDDS_PREPAINT then eff_ret CDRF_NOTIFYITEMDRAW
              else if stage =? CDDS_ITEMPREPAINT
              then let* _ := telling (fun w => SetTextColor w hdc (wrap 32 color)) in eff_ret CDRF_DODEFAULT
              else default
          | _ => eff_lift (Panic UndefinedBehaviour)
          end
        else default
      else default
  | None => default
  end.

Definition solid_brush (color : Z) : P Z := fun s =>
  let '(brush, w) := CreateSolidBrush (pmach s) color in (Ok brush, acquire (ResGdi brush) (at_machine w s)).
Definition delete_object (h : Z) : P unit := fun s => (Ok tt, release (ResGdi h) (at_machine (DeleteObject (pmach s) h) s)).

Definition paint_pill (p : profile) (self : ListViewCustomDraw) (rect : WindowRect) (fill text_color : Z) (text : str) : P unit :=
  let hdc := cd_hdc (lcd_raw self) in
  let* radius := eff_lift (rect_height p rect) in
  let* brush := solid_brush fill in
  let* old_brush := asking (fun w => SelectObject w hdc brush) in
  let* pen := looking GetNullPen in
  let* old_pen := asking (fun w => SelectObject w hdc pen) in
  let* right1 := eff_lift (add_i32 p (wr_right rect) 1) in
  let* bottom1 := eff_lift (add_i32 p (wr_bottom rect) 1) in
  let* _ := telling (fun w => RoundRect w hdc [wr_left rect; wr_top rect; right1; bottom1; radius; radius]) in
  let* _ := asking (fun w => SelectObject w hdc old_pen) in
  let* _ := asking (fun w => SelectObject w hdc old_brush) in
  let* _ := delete_object brush in
  let* _ := telling (fun w => SetBkModeTransparent w hdc) in
  let* _ := telling (fun w => SetTextColor w hdc text_color) in
  telling (fun w => DrawTextW w hdc (encode_utf16 text) rect).

Definition draw_fill (self : ListViewCustomDraw) (rect : WindowRect) (color : Z) : P unit :=
  let* brush := solid_brush color in
  let* _ := telling (fun w => FillRect w (cd_hdc (lcd_raw self)) rect brush) in
  delete_object brush.
End Calls.

(** ** Decoding *)

(** What the controls send: the structure fits the code, a text buffer is as
    long as it says.  [NM_CUSTOMDRAW] is not a list view's alone: headers, tabs
    and toolbars send it with the shorter structure. *)
Definition well_formed (n : notification) : Prop :=
  let code := nm_code (nm_hdr n) in
  match nm_rest n with
  | NMDispInfo _ _ _ pszText cch => code = LVN_GETDISPINFOW /\ (forall us, pszText = Some us -> cch <= zlen us)
  | NMLVDraw _ => code = NM_CUSTOMDRAW
  | NMListView _ _ _ _ => code = LVN_ITEMCHANGED
  | NMKeyDown _ => code = LVN_KEYDOWN
  | NMPlain => code <> LVN_GETDISPINFOW /\ code <> NM_CUSTOMDRAW /\ code <> LVN_ITEMCHANGED /\ code <> LVN_KEYDOWN
  | NMDraw _ _ => code = NM_CUSTOMDRAW
  end.

Lemma land_flag x k : 0 <= k -> Z.land x (2 ^ k) = if Z.testbit x k then 2 ^ k else 0.
Proof.
  intros Hk. apply Z.bits_inj'. intros i Hi. rewrite Z.land_spec, Z.pow2_bits_eqb by done.
  destruct (Z.eqb_spec k i) as [->|Hn].
  - rewrite andb_true_r. destruct (Z.testbit x i); [by rewrite Z.pow2_bits_true|by rewrite Z.bits_0].
  - rewrite andb_false_r. destruct (Z.testbit x k); [by rewrite Z.pow2_bits_false|by rewrite Z.bits_0].
Qed.
Lemma contains_flag_bit x k : 0 <= k -> contains_flag x (2 ^ k) = Z.testbit x k.
Proof.
  intros Hk. unfold contains_flag. rewrite land_flag by done. destruct (Z.testbit x k); [apply Z.eqb_refl|].
  apply Z.eqb_neq. pose proof (Z.pow_pos_nonneg 2 k). lia.
Qed.
Lemma lacks_flag_bit x k : 0 <= k -> (Z.land x (2 ^ k) =? 0) = negb (Z.testbit x k).
Proof.
  intros Hk. rewrite land_flag by done. destruct (Z.testbit x k); [|done]. apply Z.eqb_neq. pose proof (Z.pow_pos_nonneg 2 k). lia.
Qed.
Lemma to_usize_ok z n : to_usize z = Some n <-> z = n /\ 0 <= n.
Proof. unfold to_usize. destruct (z <? 0) eqn:E; naive_solver lia. Qed.

(** The five kinds of code. *)
Lemma decode_plain h : nm_code h <> LVN_GETDISPINFOW -> nm_code h <> NM_CUSTOMDRAW -> nm_code h <> LVN_ITEMCHANGED ->
  nm_code h <> LVN_KEYDOWN ->
  exists c, decode_notify (Some (mkNotification h NMPlain)) = Ok c /\
    (c = TabChanged (idFrom h) \/ c = DoubleClick (idFrom h) \/ c = OtherNotify (idFrom h) (nm_code h)).
Proof.
  intros H1 H2 H3 H4. cbn [decode_notify nm_hdr nm_rest].
  rewrite (proj2 (Z.eqb_neq _ _) H1), (proj2 (Z.eqb_neq _ _) H2), (proj2 (Z.eqb_neq _ _) H3), (proj2 (Z.eqb_neq _ _) H4).
  destruct (nm_code h =? TCN_SELCHANGE); [eauto|]. destruct (nm_code h =? NM_DBLCLK); eauto.
Qed.

Lemma decode_item_changed from id iItem uChanged uNew uOld :
  decode_notify (Some (mkNotification (mkNMHDR from id LVN_ITEMCHANGED) (NMListView iItem uChanged uNew uOld))) =
  Ok (if (0 <=? iItem) && Z.testbit uChanged 3 && Z.testbit uNew 1 && negb (Z.testbit uOld 1)
      then SelectionChanged id iItem else OtherNotify id LVN_ITEMCHANGED).
Proof.
  unfold decode_notify. cbn [nm_hdr nm_rest nm_code idFrom].
  change (LVN_ITEMCHANGED =? LVN_GETDISPINFOW) with false. change (LVN_ITEMCHANGED =? NM_CUSTOMDRAW) with false. rewrite Z.eqb_refl.
  change LVIF_STATE with (2 ^ 3). change LVIS_SELECTED with (2 ^ 1). rewrite contains_flag_bit, !lacks_flag_bit, negb_involutive by lia.
  unfold to_usize. destruct (iItem <? 0) eqn:E.
  - replace (0 <=? iItem) with false by lia. done.
  - replace (0 <=? iItem) with true by lia. done.
Qed.

Lemma decode_text from id mask iItem iSubItem us cch :
  decode_notify (Some (mkNotification (mkNMHDR from id LVN_GETDISPINFOW) (NMDispInfo mask iItem iSubItem (Some us) cch))) =
  if negb (Z.testbit mask 0) || (cch <=? 0) then Err NoneV
  else if zlen us <? cch then Panic UndefinedBehaviour
  else if (iItem <? 0) || (iSubItem <? 0) then Err NoneV
  else Ok (ListViewGetText (mkTextRequest id iItem iSubItem (take (Z.to_nat cch) us))).
Proof.
  unfold decode_notify. cbn [nm_hdr nm_rest nm_code idFrom]. rewrite Z.eqb_refl.
  change LVIF_TEXT with (2 ^ 0). rewrite contains_flag_bit by lia. unfold to_usize.
  destruct (negb _ || _); [done|]. destruct (zlen us <? cch); [done|]. by destruct (iItem <? 0), (iSubItem <? 0).
Qed.

(** A result that is neither a selection nor a text request, of a
    notification that is not the shorter custom draw. *)
Ltac other_notification :=
  split_and!; [split; [by intros [? [=]]|by intros (? & ? & [=])]
              |intros ? ?; split; [by intros [=]|intros (? & ? & ? & ? & ? & [=] & _)]
              |intros ?; split; [by intros [=]|by intros (? & ? & ? & ? & [=] & _)]].

(** [C35] Notifications decode to what they say.  For every notification a
    control sends, decoding has undefined behaviour exactly when it is the
    [NM_CUSTOMDRAW] of a control other than a list view (a header, a tab, a
    toolbar), whose shorter structure is read as a list view's.  A row is
    reported as newly selected exactly when its state changed to selected
    from not selected and its index is valid; a text request is reported
    exactly when text is asked for with a buffer and valid indices, and it
    names that row and column and lends a buffer of the announced length;
    both carry the control's identifier. *)
Theorem decode_notify_correct n :
  well_formed n ->
  ((exists x, decode_notify (Some n) = Panic x) <-> exists stage hdc, nm_rest n = NMDraw stage hdc) /\
  (forall id row, decode_notify (Some n) = Ok (SelectionChanged id row) <->
     id = idFrom (nm_hdr n) /\ 0 <= row /\ exists uChanged uNew uOld,
       nm_rest n = NMListView row uChanged uNew uOld /\ Z.testbit uChanged 3 = true /\
       Z.testbit uNew 1 = true /\ Z.testbit uOld 1 = false) /\
  (forall r, decode_notify (Some n) = Ok (ListViewGetText r) <->
     tr_control_id r = idFrom (nm_hdr n) /\ exists mask us cch,
       nm_rest n = NMDispInfo mask (tr_row r) (tr_column r) (Some us) cch /\ tr_buffer r = take (Z.to_nat cch) us /\
       0 < cch <= zlen us /\ 0 <= tr_row r /\ 0 <= tr_column r /\ Z.testbit mask 0 = true).
Proof.
  destruct n as [[from id code] rest]. unfold well_formed. cbn [nm_hdr nm_rest nm_code idFrom].
  destruct rest as [|mask iItem iSubItem [us|] cch|raw|stage hdc|iItem uChanged uNew uOld|key].
  - intros (H1 & H2 & H3 & H4). destruct (decode_plain (mkNMHDR from id code) H1 H2 H3 H4) as (c & -> & Hc).
    destruct Hc as [->|[->| ->]]; other_notification.
  - intros [-> Hlen]. specialize (Hlen us eq_refl). rewrite decode_text.
    replace (zlen us <? cch) with false by lia. destruct (negb (Z.testbit mask 0)) eqn:Em;
      destruct (Z.leb_spec cch 0) as [Ec|Ec]; cbn [orb];
      [apply negb_true_iff in Em..|apply negb_false_iff in Em|apply negb_false_iff in Em].
    1-3: split_and!; [split; [by intros [? [=]]|by intros (? & ? & [=])]
           |intros ? ?; split; [by intros [=]|by intros (? & ? & ? & ? & ? & [=] & _)]
           |intros r; split; [by intros [=]|intros (? & ? & ? & ? & [= <- _ _ _ <-] & _ & ? & _ & _ & ?); (congruence || lia)]].
    destruct (Z.ltb_spec iItem 0) as [Ei|Ei]; destruct (Z.ltb_spec iSubItem 0) as [Es|Es]; cbn [orb].
    1-3: split_and!; [split; [by intros [? [=]]|by intros (? & ? & [=])]
           |intros ? ?; split; [by intros [=]|by intros (? & ? & ? & ? & ? & [=] & _)]
           |intros r; split; [by intros [=]|intros (? & ? & ? & ? & [= _ -> -> _ _] & _ & _ & ? & ? & _); lia]].
    split_and!; [split; [by intros [? [=]]|by intros (? & ? & [=])]
      |intros ? ?; split; [by intros [=]|by intros (? & ? & ? & ? & ? & [=] & _)]|].
    intros r. split; [intros [= <-]; cbn; split; [done|]; exists mask, us, cch; split_and!; (done || lia)|].
    destruct r as [i row col buf]. cbn. by intros (-> & ? & ? & ? & [= <- <- <- <- <-] & -> & _).
  - intros [-> _]. other_notification.
  - intros ->. other_notification.
  - intros ->. split_and!; [split; [by intros _; eexists _, _|intros _; by eexists]| |].
    + intros ? ?. split; [by intros [=]|by intros (? & ? & ? & ? & ? & [=] & _)].
    + intros r. split; [by intros [=]|by intros (? & ? & ? & ? & [=] & _)].
  - intros ->. rewrite decode_item_changed. split_and!; [| |intros r; split; [by case_match|by intros (? & ? & ? & ? & [=] & _)]].
    { split; [by intros [? [=]]|by intros (? & ? & [=])]. }
    intros id' row. destruct (_ && _) eqn:E.
    + rewrite !andb_true_iff, negb_true_iff in E. destruct E as [[[E0 E1] E2] E3]. split.
      * intros [= <- <-]. split_and!; [done|lia|by eexists _, _, _].
      * by intros (-> & Hr & c & n & o & [= -> -> -> ->] & _).
    + split; [done|]. intros (-> & Hr & c & n & o & [= -> -> -> ->] & Hc & Hn & Ho).
      rewrite Hc, Hn, Ho in E. replace (0 <=? row) with true in E by lia. done.
  - intros ->. other_notification.
Qed.

Lemma decode_notify_correct_witness :
  decode_notify (Some (mkNotification (mkNMHDR 0 5 LVN_ITEMCHANGED) (NMListView 3 LVIF_STATE LVIS_SELECTED 0))) =
  Ok (SelectionChanged 5 3).
Proof.
  apply (proj1 (proj2 (decode_notify_correct
    (mkNotification (mkNMHDR 0 5 LVN_ITEMCHANGED) (NMListView 3 LVIF_STATE LVIS_SELECTED 0)) eq_refl))).
  split; [done|]. split; [lia|]. by eexists _, _, _.
Defined.

(** [NM_CUSTOMDRAW] is not specific to list views: that of a header or a tab
    control has a shorter structure, which is read as the longer one. *)
Theorem custom_draw_of_other_controls from id stage hdc :
  decode_notify (Some (mkNotification (mkNMHDR from id NM_CUSTOMDRAW) (NMDraw stage hdc))) = Panic UndefinedBehaviour.
Proof. done. Qed.

(** A text answer stays in the control's buffer, is terminated, and is the
    whole text when it fits. *)
Lemma request_set_text_fits r text :
  length (tr_buffer (request_set_text r text)) = length (tr_buffer r) /\
  (nul_free text -> (length (encode_utf16 text) < length (tr_buffer r))%nat ->
   exists rest, tr_buffer (request_set_text r text) = encode_utf16 text ++ 0 :: rest).
Proof.
  unfold request_set_text. destruct (tr_buffer r) as [|b bs] eqn:E; [split; [by rewrite E|cbn; lia]|]. rewrite <- E.
  assert (0 < length (tr_buffer r))%nat as Hl by (rewrite E; cbn; lia). cbn [tr_buffer].
  set (us := take (length (tr_buffer r) - 1) (encode_utf16 text)).
  assert (length us <= length (tr_buffer r) - 1)%nat as Hu by (unfold us; rewrite length_take; lia). split.
  - rewrite !length_app, length_drop. cbn [length]. lia.
  - intros _ Hfit. exists (drop (length us + 1) (tr_buffer r)). unfold us at 1. rewrite take_ge by lia. done.
Qed.

(** ** Columns and tabs are appended in order *)

Class column_laws (W : Type) `{win : !window_api W} `{api : !controls_api W} := {
  columns_of : W -> Z -> list (list Z);
  insert_column_law w h i mask cx text : 0 <= i ->
    fst (fst (SendStructW w h LVM_INSERTCOLUMNW i (LVCOLUMNW mask cx text))) < 0 \/
    columns_of (snd (SendStructW w h LVM_INSERTCOLUMNW i (LVCOLUMNW mask cx text))) h =
      take (Z.to_nat i) (columns_of w h) ++ text :: drop (Z.to_nat i) (columns_of w h) }.

Section Columns.
Context {W : Type} `{win : !window_api W} `{api : !controls_api W} `{laws : !column_laws W}.

Fixpoint add_columns (self : ListView) (headers : list (str * Z)) : eff (proc_st W) Error ListView :=
  match headers with
  | [] => eff_ret self
  | (header, width) :: headers => let* self := add_column self header width in add_columns self headers
  end.

(** The columns of a list view are those that were added, in that order: the
    index a column is inserted at is the number of columns before it. *)
Theorem columns_in_order self headers (s : proc_st W) self' s' :
  lv_columns self = zlen (columns_of (pmach s) (lv_hwnd self)) ->
  add_columns self headers s = (Ok self', s') ->
  columns_of (pmach s') (lv_hwnd self) = columns_of (pmach s) (lv_hwnd self) ++ (to_utf16_nul <$> headers.*1) /\
  lv_columns self' = zlen (columns_of (pmach s') (lv_hwnd self)) /\ lv_hwnd self' = lv_hwnd self.
Proof.
  revert self s. induction headers as [|[header width] headers IH]; intros self s Hc; cbn [add_columns].
  - intros [= <- <-]. by rewrite app_nil_r.
  - intros H. apply eff_bind_ok in H as (self1 & s1 & H1 & H2). unfold add_column in H1.
    apply eff_bind_ok in H1 as ([r l] & s2 & Hs & H1). unfold send_struct, asking in Hs.
    pose proof (insert_column_law (pmach s) (lv_hwnd self) (lv_columns self) (Z.lor LVCF_TEXT LVCF_WIDTH) width (to_utf16_nul header)
                  ltac:(rewrite Hc; unfold zlen; lia)) as Hl.
    destruct (SendStructW _ _ _ _ _) as [[r' l'] w]. injection Hs as <- <- <-. cbn [fst snd] in *.
    destruct (r' <? 0) eqn:Er; [done|]. injection H1 as <- <-. destruct Hl as [Hl|Hl]; [lia|].
    rewrite Hc in Hl. unfold zlen in Hl. rewrite Nat2Z.id, firstn_all, skipn_all in Hl.
    apply IH in H2; cbn [lv_columns lv_hwnd pmach at_machine] in *.
    + rewrite Hl in H2. rewrite fmap_cons, fmap_cons, <- app_assoc in *. exact H2.
    + rewrite Hl, Hc. unfold zlen. rewrite length_app. cbn [length]. lia.
Qed.
End Columns.

(** ** Drawing leaves the device as it was *)

Inductive gdi_kind := KBrush | KPen.
#[export] Instance gdi_kind_eq_dec : EqDecision gdi_kind.
Proof. solve_decision. Defined.

(** A device context has one selected object of each kind; [SelectObject]
    answers the one it replaces. *)
Class gdi_laws (W : Type) `{win : !window_api W} `{api : !controls_api W} := {
  kind_of : W -> Z -> option gdi_kind;
  selected : W -> Z -> gdi_kind -> Z;
  brush_law w c : kind_of (snd (CreateSolidBrush w c)) (fst (CreateSolidBrush w c)) = Some KBrush /\
    (forall h k, selected (snd (CreateSolidBrush w c)) h k = selected w h k) /\
    (forall o, o <> fst (CreateSolidBrush w c) -> kind_of (snd (CreateSolidBrush w c)) o = kind_of w o) /\
    (forall h k, selected w h k <> fst (CreateSolidBrush w c));
  pen_law w : kind_of w (GetNullPen w) = Some KPen;
  selected_kind w h k : kind_of w (selected w h k) = Some k;
  select_law w h o k : kind_of w o = Some k ->
    fst (SelectObject w h o) = selected w h k /\
    (forall h' k', selected (snd (SelectObject w h o)) h' k' =
       if decide (h' = h /\ k' = k) then o else selected w h' k') /\
    (forall x, kind_of (snd (SelectObject w h o)) x = kind_of w x);
  drawing_law w h l : (forall h' k, selected (RoundRect w h l) h' k = selected w h' k) /\
    (forall x, kind_of (RoundRect w h l) x = kind_of w x);
  text_laws w h c t r o : (forall h' k, selected (SetTextColor w h c) h' k = selected w h' k) /\
    (forall h' k, selected (SetBkModeTransparent w h) h' k = selected w h' k) /\
    (forall h' k, selected (DrawTextW w h t r) h' k = selected w h' k) /\
    (forall h' k, selected (DeleteObject w o) h' k = selected w h' k) }.

Section Pill.
Context {W : Type} `{win : !window_api W} `{api : !controls_api W} `{laws : !gdi_laws W}.

(** Selecting two objects, drawing, and selecting the two old ones again. *)
Lemma select_twice w hdc brush pen l :
  kind_of w brush = Some KBrush -> kind_of (snd (SelectObject w hdc brush)) pen = Some KPen ->
  let w1 := snd (SelectObject w hdc brush) in
  let w2 := RoundRect (snd (SelectObject w1 hdc pen)) hdc l in
  let w3 := snd (SelectObject w2 hdc (fst (SelectObject w1 hdc pen))) in
  let w4 := snd (SelectObject w3 hdc (fst (SelectObject w hdc brush))) in
  forall h k, selected w4 h k = selected w h k.
Proof.
  intros Kb Kp w1 w2 w3 w4 h k. destruct (select_law w hdc brush KBrush Kb) as (Fb & Sb & Xb). fold w1 in Sb, Xb.
  destruct (select_law w1 hdc pen KPen Kp) as (Fp & Sp & Xp).
  destruct (drawing_law (snd (SelectObject w1 hdc pen)) hdc l) as [Sd Xd]. fold w2 in Sd, Xd.
  assert (kind_of w2 (fst (SelectObject w1 hdc pen)) = Some KPen) as K2 by (rewrite Xd, Xp, Fp; apply selected_kind).
  destruct (select_law w2 hdc _ KPen K2) as (_ & S3 & X3). fold w3 in S3, X3.
  assert (kind_of w3 (fst (SelectObject w hdc brush)) = Some KBrush) as K3.
  { rewrite X3, Xd, Xp, Xb, Fb. apply selected_kind. }
  destruct (select_law w3 hdc _ KBrush K3) as (_ & S4 & _). fold w4 in S4.
  rewrite S4. case_decide as E4; [destruct E4 as [-> ->]; done|]. rewrite S3. case_decide as E3.
  - destruct E3 as [-> ->]. rewrite Fp, Sb, decide_False by naive_solver. done.
  - rewrite Sd, Sp, decide_False by done. rewrite Sb, decide_False by done. done.
Qed.

(** Painting a pill leaves the device context as it was and keeps no
    brush: after a successful [paint_pill] every device context has the brush
    and the pen selected that it had before, and the brush that was made for
    it is deleted. *)
Theorem pill_restores p self rect fill color text (s s' : proc_st W) :
  paint_pill p self rect fill color text s = (Ok tt, s') ->
  (forall h k, selected (pmach s') h k = selected (pmach s) h k) /\ gained s s' [].
Proof.
  unfold paint_pill. set (hdc := cd_hdc (lcd_raw self)). intros H.
  apply eff_bind_ok in H as (radius & s0 & Hr & H). injection Hr as _ <-.
  destruct (brush_law (pmach s) fill) as (Kb & Sb & _ & _).
  unfold eff_bind at 1, solid_brush in H. destruct (CreateSolidBrush (pmach s) fill) as [brush w0]. cbn [fst snd] in *.
  pose proof (pen_law (snd (SelectObject w0 hdc brush))) as Kp.
  pose proof (fun l => select_twice w0 hdc brush (GetNullPen (snd (SelectObject w0 hdc brush))) l Kb Kp) as Hsel.
  unfold eff_bind at 1, asking at 1 in H. cbn [pmach acquire at_machine] in H.
  destruct (SelectObject w0 hdc brush) as [old_brush w1]. unfold eff_bind at 1, looking at 1 in H. cbn [pmach at_machine fst snd] in *.
  unfold eff_bind at 1, asking at 1 in H. cbn [pmach at_machine] in H.
  destruct (SelectObject w1 hdc (GetNullPen w1)) as [old_pen w2]. cbn [fst snd] in *.
  apply eff_bind_ok in H as (r1 & s1 & H1 & H). injection H1 as _ <-. apply eff_bind_ok in H as (b1 & s2 & H2 & H). injection H2 as _ <-.
  specialize (Hsel [wr_left rect; wr_top rect; r1; b1; radius; radius]).
  unfold eff_bind, telling, asking, delete_object in H. cbn [pmach at_machine release] in H.
  destruct (SelectObject (RoundRect w2 hdc _) hdc old_pen) as [o3 w3]. cbn [pmach at_machine fst snd] in *.
  destruct (SelectObject w3 hdc old_brush) as [o4 w4]. cbn [pmach at_machine fst snd release] in *. injection H as <-. split.
  - intros h k. cbn [pmach at_machine].
    destruct (text_laws (SetTextColor (SetBkModeTransparent (DeleteObject w4 brush) hdc) hdc color) hdc color (encode_utf16 text) rect brush)
      as (_ & _ & -> & _).
    destruct (text_laws (SetBkModeTransparent (DeleteObject w4 brush) hdc) hdc color [] rect brush) as (-> & _).
    destruct (text_laws (DeleteObject w4 brush) hdc color [] rect brush) as (_ & -> & _).
    destruct (text_laws w4 hdc color [] rect brush) as (_ & _ & _ & ->). by rewrite Hsel, Sb.
  - intros r. rewrite count_res_nil. unfold at_machine, release, acquire, bump. cbn. case_decide; lia.
Qed.

(** [fill] keeps no brush either, nor does a font that is dropped. *)
Lemma fill_owns self rect color : owns (draw_fill self rect color : eff (proc_st W) Error unit) (fun _ => []).
Proof.
  intros s. unfold draw_fill, eff_bind, solid_brush, telling, delete_object. destruct (CreateSolidBrush _ _) as [brush w].
  intros r. rewrite count_res_nil. unfold at_machine, release, acquire, bump. cbn. case_decide; lia.
Qed.
End Pill.
