(* ===== verification/DeskList.v ===== *)
(** * DeskList: enumerating windows, and the theme

    src/desktop/windows.rs, mod.rs and theme.rs.  The enumeration reads one
    state of the desktop; the callback collects the handles in the order
    Windows calls it. *)

From Stdlib Require Import ZArith Lia String Ascii.
From stdpp Require Import base list strings gmap numbers sorting.
From S2P Require Import Prelude Text Unicode Errors Backends Effects Registry Resources Window.

Open Scope Z_scope.

Record WindowInfo := mkWindowInfo {
  wi_handle : Z; wi_parent : option Z; wi_process_id : Z; wi_class_name : str; wi_title : str; wi_rect : WindowRect;
  wi_is_visible : bool; wi_cloak_state : CloakState }.

(** The handles the callback is called with and whether the call succeeded;
    the text calls answer how many units they copied and the buffer. *)
Class desk_api (D : Type) := {
  EnumWindows : D -> list Z * bool;
  EnumChildWindows : D -> Z -> list Z * bool;
  desk_last_error : D -> Z;
  GetWindowThreadProcessId : D -> Z -> Z;
  GetParent : D -> Z -> option Z;
  desk_rect : D -> Z -> option WindowRect;
  GetWindowTextLengthW : D -> Z -> Z;
  GetWindowTextW : D -> Z -> Z -> Z * list Z;
  GetClassNameW : D -> Z -> Z -> Z * list Z;
  desk_visible : D -> Z -> bool;
  DwmCloaked : D -> Z -> option Z }.

(** [{:p}]. *)
Definition fmt_pointer (p : Z) : str := lit "0x" ++ to_ascii_lowercase (fmt_hex p).

Section Listing.
Context {D : Type} `{api : !desk_api D} (d : D).

(** [&buffer[..copied]]. *)
Definition wide_prefix (copied : Z) (buffer : list Z) : res Error str :=
  if zlen buffer <? copied then Panic IndexOutOfBounds else Ok (from_utf16_lossy (take (Z.to_nat copied) buffer)).

Definition query_window_text (hwnd : Z) : res Error str :=
  let length := GetWindowTextLengthW d hwnd in
  if length <=? 0 then Ok []
  else let '(copied, buffer) := GetWindowTextW d hwnd (length + 1) in
       if copied <=? 0 then Ok [] else wide_prefix copied buffer.
Definition query_class_name (hwnd : Z) : res Error str :=
  let '(copied, buffer) := GetClassNameW d hwnd 256 in
  if copied <=? 0 then Ok [] else wide_prefix copied buffer.
Definition query_cloak_state (hwnd : Z) : CloakState :=
  match DwmCloaked d hwnd with Some raw => cloak_from_raw raw | None => NotCloaked end.
Definition query_window_rect (hwnd : Z) : option WindowRect := desk_rect d hwnd.

Definition build_window_info (hwnd : Z) : res Error WindowInfo :=
  let pid := GetWindowThreadProcessId d hwnd in
  let parent := GetParent d hwnd in
  let rect := default (mkWindowRect 0 0 0 0) (query_window_rect hwnd) in
  let! class_name := query_class_name hwnd in
  let! title := query_window_text hwnd in
  Ok (mkWindowInfo hwnd (p ← parent; if p =? 0 then None else Some p) pid class_name title rect (desk_visible d hwnd)
        (query_cloak_state hwnd)).

Definition enum_result (r : list Z * bool) (operation : string) (target : str) : res Error (list Z) :=
  if snd r then Ok (fst r)
  else
    let code := as_i32 (desk_last_error d) in
    if code =? 0 then Ok (fst r) else Err (op_error operation target code).
Definition collect_top_level_window_handles : res Error (list Z) := enum_result (EnumWindows d) "EnumWindows" (lit "desktop").
Definition collect_child_window_handles (parent : Z) : res Error (list Z) :=
  enum_result (EnumChildWindows d parent) "EnumChildWindows" (lit "parent=" ++ fmt_pointer parent).

(** The loops push on the caller's vector. *)
Fixpoint push_windows (handles : list Z) (filter : WindowInfo -> bool) (out : list WindowInfo) : res Error (list WindowInfo) :=
  match handles with
  | [] => Ok out
  | hwnd :: handles =>
      let! window := build_window_info hwnd in
      push_windows handles filter (if filter window then out ++ [window] else out)
  end.
Fixpoint push_trees (top_level : list Z) (filter : WindowInfo -> bool) (out : list WindowInfo) : res Error (list WindowInfo) :=
  match top_level with
  | [] => Ok out
  | hwnd :: top_level =>
      let! window := build_window_info hwnd in
      let out := if filter window then out ++ [window] else out in
      let! child_handles := collect_child_window_handles hwnd in
      let! out := push_windows child_handles filter out in
      push_trees top_level filter out
  end.

(** The vector and the count. *)
Definition counted (r : res Error (list WindowInfo)) : res Error (list WindowInfo * Z) := let! out := r in Ok (out, zlen out).
Definition enumerate_windows_with_filter (filter : WindowInfo -> bool) : res Error (list WindowInfo * Z) :=
  counted (let! top_level := collect_top_level_window_handles in push_trees top_level filter []).
Definition enumerate_windows_with_buffer : res Error (list WindowInfo * Z) := enumerate_windows_with_filter (fun _ => true).
Definition enumerate_windows : res Error (list WindowInfo) := let! r := enumerate_windows_with_buffer in Ok (fst r).
Definition enumerate_child_windows_with_filter (parent : Z) (filter : WindowInfo -> bool) : res Error (list WindowInfo * Z) :=
  counted (let! handles := collect_child_window_handles parent in push_windows handles filter []).
Definition enumerate_child_windows_with_buffer (parent : Z) : res Error (list WindowInfo * Z) :=
  enumerate_child_windows_with_filter parent (fun _ => true).
Definition enumerate_child_windows (parent : Z) : res Error (list WindowInfo) :=
  let! r := enumerate_child_windows_with_buffer parent in Ok (fst r).

(** ** Filtering while enumerating is filtering afterwards *)

Lemma push_windows_spec handles f out :
  push_windows handles f out =
  let! all := push_windows handles (fun _ => true) [] in Ok (out ++ List.filter f all).
Proof.
  assert (forall handles f out0 out, push_windows handles f (out0 ++ out) =
    let! all := push_windows handles f out in Ok (out0 ++ all)) as Happ.
  { clear. induction handles as [|h handles IH]; intros f out0 out; cbn; [done|]. destruct (build_window_info h); [|done|done].
    cbn. destruct (f _); rewrite <- ?app_assoc; apply IH. }
  revert f out. induction handles as [|h handles IH]; intros f out; cbn [push_windows res_bind]; [by rewrite app_nil_r|].
  destruct (build_window_info h) as [w|e|x]; [|done|done]. cbn [res_bind app]. rewrite IH.
  pose proof (Happ handles (fun _ => true) [w] []) as Hw. rewrite (app_nil_r [w]) in Hw. rewrite Hw.
  destruct (push_windows handles (fun _ => true) []) as [all|e|x]; [|done|done]. cbn [res_bind List.filter app].
  destruct (f w); [by rewrite <- app_assoc|done].
Qed.

Lemma push_trees_spec top f out :
  push_trees top f out = let! all := push_trees top (fun _ => true) [] in Ok (out ++ List.filter f all).
Proof.
  assert (forall top out, push_trees top (fun _ => true) out =
    let! all := push_trees top (fun _ => true) [] in Ok (out ++ all)) as Happ.
  { clear. induction top as [|h top IH]; intros out; cbn [push_trees]; [cbn; by rewrite app_nil_r|].
    destruct (build_window_info h) as [w|e|x]; [|done|done]. cbn [res_bind app].
    destruct (collect_child_window_handles h) as [cs|e|x]; [|done|done]. cbn [res_bind].
    rewrite (push_windows_spec cs _ (out ++ [w])), (push_windows_spec cs _ [w]).
    destruct (push_windows cs (fun _ => true) []) as [all|e|x]; [|done|done]. cbn [res_bind].
    rewrite (IH ((out ++ [w]) ++ _)), (IH ([w] ++ _)). destruct (push_trees top (fun _ => true) []) as [rest|e|x]; [|done|done].
    cbn [res_bind]. by rewrite <- !app_assoc. }
  revert f out. induction top as [|h top IH]; intros f out; cbn [push_trees]; [cbn; by rewrite app_nil_r|].
  destruct (build_window_info h) as [w|e|x]; [|done|done]. cbn [res_bind app].
  destruct (collect_child_window_handles h) as [cs|e|x]; [|done|done]. cbn [res_bind].
  rewrite (push_windows_spec cs f), (push_windows_spec cs _ [w]).
  destruct (push_windows cs (fun _ => true) []) as [all|e|x]; [|done|done]. cbn [res_bind].
  rewrite IH, (Happ top ([w] ++ _)). destruct (push_trees top (fun _ => true) []) as [rest|e|x]; [|done|done].
  cbn [res_bind]. rewrite !List.filter_app. cbn [List.filter].
  rewrite (filter_true all).
  destruct (f w); by rewrite <- ?app_assoc.
Qed.

(** *** What is listed, without the vector that is pushed on

    [each] asks in order and stops at the first failure; a tree is a window
    and then the windows [EnumChildWindows] reports for it. *)
Fixpoint each {A B} (ask : A -> res Error B) (l : list A) : res Error (list B) :=
  match l with
  | [] => Ok []
  | x :: l => let! y := ask x in let! ys := each ask l in Ok (y :: ys)
  end.
Definition children_at (parent : Z) : res Error (list WindowInfo) :=
  let! handles := collect_child_window_handles parent in each build_window_info handles.
Definition tree_of (hwnd : Z) : res Error (list WindowInfo) :=
  let! window := build_window_info hwnd in let! below := children_at hwnd in Ok (window :: below).
Definition desktop_listing : res Error (list WindowInfo) :=
  let! top_level := collect_top_level_window_handles in let! trees := each tree_of top_level in Ok (mjoin trees).

Lemma push_windows_each handles : push_windows handles (fun _ => true) [] = each build_window_info handles.
Proof.
  induction handles as [|h handles IH]; cbn [push_windows each]; [done|].
  destruct (build_window_info h) as [w|e|x]; [|done|done]. cbn [res_bind app].
  rewrite push_windows_spec, IH. destruct (each _ handles) as [l|e|x]; [|done|done]. cbn [res_bind].
  by rewrite filter_true.
Qed.

Lemma push_trees_each top : push_trees top (fun _ => true) [] = let! trees := each tree_of top in Ok (mjoin trees).
Proof.
  induction top as [|h top IH]; cbn [push_trees each]; [done|]. unfold tree_of at 1, children_at.
  destruct (build_window_info h) as [w|e|x]; [|done|done]. cbn [res_bind app].
  destruct (collect_child_window_handles h) as [cs|e|x]; [|done|done]. cbn [res_bind].
  rewrite push_windows_spec, push_windows_each. destruct (each build_window_info cs) as [l|e|x]; [|done|done]. cbn [res_bind].
  rewrite push_trees_spec, IH, filter_true. destruct (each tree_of top) as [ts|e|x]; [|done|done].
  cbn [res_bind]. by rewrite filter_true.
Qed.

Lemma each_ok {A B} (ask : A -> res Error B) l ys : each ask l = Ok ys <-> Forall2 (fun x y => ask x = Ok y) l ys.
Proof.
  revert ys. induction l as [|x l IH]; intros ys; cbn [each].
  - split; [intros [= <-]; constructor|by inversion 1].
  - destruct (ask x) as [y|e|p] eqn:E; cbn [res_bind]; [|split; [done|inversion 1; congruence]..].
    destruct (each ask l) as [ys'|e|p] eqn:El; cbn [res_bind]; split; try done.
    + intros [= <-]. constructor; [done|]. by apply IH.
    + inversion 1 as [|? ? ? ? H1 H2]; subst. apply IH in H2. congruence.
    + inversion 1 as [|? ? ? ? H1 H2]; subst. apply IH in H2. congruence.
    + inversion 1 as [|? ? ? ? H1 H2]; subst. apply IH in H2. congruence.
Qed.

(** The handles of a tree, and of the trees one after the other. *)
Lemma trees_handles top trees : Forall2 (fun h t => tree_of h = Ok t) top trees ->
  exists below, Forall2 (fun h cs => collect_child_window_handles h = Ok cs) top below /\
    Forall2 (fun h w => build_window_info h = Ok w) (mjoin (zip_with cons top below)) (mjoin trees).
Proof.
  induction 1 as [|h t top trees Ht _ (below & H1 & H2)]; [exists []; by split; constructor|].
  unfold tree_of, children_at in Ht. destruct (build_window_info h) as [w|e|x] eqn:Ew; [|done|done]. cbn [res_bind] in Ht.
  destruct (collect_child_window_handles h) as [cs|e|x] eqn:Ec; [|done|done]. cbn [res_bind] in Ht.
  destruct (each build_window_info cs) as [l|e|x] eqn:El; [|done|done]. injection Ht as <-. apply each_ok in El.
  exists (cs :: below). split; [by constructor|]. cbn [zip_with mjoin list_join]. apply Forall2_app; [by constructor|done].
Qed.

(** [C36] What the enumeration lists.  With a filter it returns the
    [desktop_listing] filtered, in the same order, and its length; it fails
    exactly when the listing fails, with the same error.  The listing is
    independent of the loops: every top-level window, in the order of
    [EnumWindows], is asked for its information, directly followed by the
    windows [EnumChildWindows] reports for it, and the first call that fails
    ends it; so the handles of a successful listing are each top-level handle
    followed by its descendants.  The windows below one parent are its
    children in the order reported, filtered in the same way. *)
Theorem enumerate_filter_equiv (f : WindowInfo -> bool) (parent : Z) :
  enumerate_windows_with_filter f =
    (let! all := desktop_listing in Ok (List.filter f all, zlen (List.filter f all))) /\
  enumerate_windows = desktop_listing /\
  enumerate_child_windows_with_filter parent f =
    (let! all := children_at parent in Ok (List.filter f all, zlen (List.filter f all))) /\
  (forall all, desktop_listing = Ok all -> exists top below,
     collect_top_level_window_handles = Ok top /\
     Forall2 (fun h cs => collect_child_window_handles h = Ok cs) top below /\
     Forall2 (fun h w => build_window_info h = Ok w) (mjoin (zip_with cons top below)) all).
Proof.
  unfold enumerate_windows, enumerate_windows_with_buffer, enumerate_windows_with_filter,
    enumerate_child_windows_with_filter, desktop_listing, children_at, counted. split_and!.
  - destruct collect_top_level_window_handles as [top|e|x]; [|done|done]. cbn [res_bind].
    rewrite push_trees_spec, push_trees_each. by destruct (each tree_of top).
  - destruct collect_top_level_window_handles as [top|e|x]; [|done|done]. cbn [res_bind].
    rewrite push_trees_each. by destruct (each tree_of top).
  - destruct (collect_child_window_handles parent) as [hs|e|x]; [|done|done]. cbn [res_bind].
    rewrite push_windows_spec, push_windows_each. by destruct (each build_window_info hs).
  - intros all. destruct collect_top_level_window_handles as [top|e|x]; [|done|done]. cbn [res_bind].
    destruct (each tree_of top) as [trees|e|x] eqn:E; [|done|done]. intros [= <-]. apply each_ok in E.
    destruct (trees_handles top trees E) as (below & H1 & H2). by exists top, below.
Qed.
End Listing.

(** ** Theme *)

Definition PERSONALIZE_KEY : str := lit "Software\Microsoft\Windows\CurrentVersion\Themes\Personalize".
Definition DWMWA_USE_IMMERSIVE_DARK_MODE : Z := 20.
Definition DWMWA_SYSTEMBACKDROP_TYPE : Z := 38.
Inductive Backdrop := BackdropNone | Mica.
Inductive ControlTheme := ThemeLight | ThemeDark | ThemeDarkExplorer.

(** A [PCWSTR] up to its terminator; the parameter of the message is the
    string it points to, [None] when it is null. *)
Definition is_theme_change (msg : Z) (lparam : option (list Z)) : bool :=
  match lparam with
  | Some units =>
      (msg =? WM_SETTINGCHANGE) &&
      match from_utf16 (match position (Z.eqb 0) units with Some n => take n units | None => units end) with
      | Some area => bool_decide (area = lit "ImmersiveColorSet")
      | None => false
      end
  | None => false
  end.

Section Theme.
Context {W : Type} `{reg : !registry_api W}.
Definition system_prefers_dark : eff (reg_st W) Error bool :=
  let* r := eff_try (read_typed TU32 CurrentUser PERSONALIZE_KEY (lit "AppsUseLightTheme")) in
  eff_ret (match r with inr light => light =? 0 | inl _ => false end).
End Theme.

(** The calls of the theme; an ordinal of uxtheme.dll may be missing. *)
Class theme_api (W : Type) := {
  DwmSetWindowAttribute : W -> Z -> Z -> Z -> W;
  SetWindowTheme : W -> Z -> list Z -> W;
  uxtheme_ordinal : W -> Z -> option (W -> Z -> Z -> W) }.

Section ThemeCalls.
Context {W : Type} `{api : !theme_api W}.
Definition bool_value (b : bool) : Z := if b then 1 else 0.
Definition set_dark_title_bar (window : Z) (dark : bool) (w : W) : W :=
  DwmSetWindowAttribute w window DWMWA_USE_IMMERSIVE_DARK_MODE (bool_value dark).
Definition set_backdrop (window : Z) (backdrop : Backdrop) (w : W) : W :=
  DwmSetWindowAttribute w window DWMWA_SYSTEMBACKDROP_TYPE (match backdrop with BackdropNone => 1 | Mica => 2 end).
Definition allow_dark_mode_for_window (control : Z) (allow : bool) (w : W) : W :=
  match uxtheme_ordinal w 133 with Some proc => proc w control (bool_value allow) | None => w end.
Definition set_control_theme (control : Z) (theme : ControlTheme) (w : W) : W :=
  let w := allow_dark_mode_for_window control (match theme with ThemeLight => false | _ => true end) w in
  SetWindowTheme w control (to_utf16_nul (match theme with
    | ThemeLight => lit "ItemsView" | ThemeDark => lit "DarkMode_ItemsView" | ThemeDarkExplorer => lit "DarkMode_Explorer" end)).
Definition allow_dark_menus (dark : bool) (w : W) : W :=
  match uxtheme_ordinal w 135 with Some proc => proc w (if dark then 2 else 3) 0 | None => w end.
End ThemeCalls.

(** The one string that announces a switch, terminated, in a settings message. *)
Example theme_change_examples :
  is_theme_change WM_SETTINGCHANGE (Some (to_utf16_nul (lit "ImmersiveColorSet"))) = true /\
  is_theme_change WM_SETTINGCHANGE (Some (to_utf16_nul (lit "Policy"))) = false /\
  is_theme_change WM_SETTINGCHANGE None = false /\
  is_theme_change 0 (Some (to_utf16_nul (lit "ImmersiveColorSet"))) = false.
Proof. by vm_compute. Qed.
