(* ===== verification/Canvas.v ===== *)
(** * Canvas: drawing on a window

    src/desktop/canvas.rs.  An [f32] is an IEEE 754 number with 24 bits of
    precision, rounded to nearest even, as [SpecFloat] computes it.  COM
    objects are identified by an integer; the drawing calls of a frame are
    values of [draw_cmd]. *)

From Stdlib Require Import ZArith Lia String Ascii SpecFloat.
From stdpp Require Import base list strings gmap numbers sorting.
From S2P Require Import Prelude Text Unicode Errors Backends Effects Window.

Open Scope Z_scope.

(** ** Single-precision numbers *)

Abbreviation f32 := spec_float.
Definition f32_of (z : Z) : f32 := binary_normalize 24 128 z 0 false.
Definition f32_add : f32 -> f32 -> f32 := SFadd 24 128.
Definition f32_sub : f32 -> f32 -> f32 := SFsub 24 128.
Definition f32_mul : f32 -> f32 -> f32 := SFmul 24 128.
Definition f32_div : f32 -> f32 -> f32 := SFdiv 24 128.
Definition f32_max_value : f32 := S754_finite false 16777215 104.

(** [clamp]: a NaN stays. *)
Definition f32_clamp (x lo hi : f32) : f32 := if SFltb x lo then lo else if SFltb hi x then hi else x.
(** [round]: to the nearest integer, halves away from zero; infinities and NaN stay. *)
Definition f32_round (x : f32) : f32 :=
  match x with
  | S754_finite s m e =>
      if 0 <=? e then x
      else let q := (2 * Z.pos m + 2 ^ (- e)) / (2 * 2 ^ (- e)) in
           if q =? 0 then S754_zero s else binary_normalize 24 128 (if s then - q else q) 0 s
  | _ => x
  end.
(** [as u32]: truncation that saturates; NaN gives 0. *)
Definition f32_as_u32 (x : f32) : Z :=
  match x with
  | S754_finite false m e => Z.min (if 0 <=? e then Z.pos m * 2 ^ e else Z.pos m / 2 ^ (- e)) u32_max
  | S754_infinity false => u32_max
  | _ => 0
  end.

(** ** Colours and rectangles *)

Record Color := mkColor { col_r : f32; col_g : f32; col_b : f32; col_a : f32 }.
Definition color_hex (rgb : Z) : Color :=
  mkColor (f32_div (f32_of (Z.land (Z.shiftr rgb 16) 0xFF)) (f32_of 255))
          (f32_div (f32_of (Z.land (Z.shiftr rgb 8) 0xFF)) (f32_of 255))
          (f32_div (f32_of (Z.land rgb 0xFF)) (f32_of 255)) (f32_of 1).
Definition color_alpha (self : Color) (a : f32) : Color := mkColor (col_r self) (col_g self) (col_b self) a.
Definition channel (v : f32) : Z := f32_as_u32 (f32_round (f32_mul (f32_clamp v (f32_of 0) (f32_of 1)) (f32_of 255))).
(** Shifts of a [u32] keep 32 bits. *)
Definition to_colorref (self : Color) : Z :=
  Z.lor (Z.lor (channel (col_r self)) (wrap 32 (Z.shiftl (channel (col_g self)) 8)))
        (wrap 32 (Z.shiftl (channel (col_b self)) 16)).

Record RectF := mkRectF { rf_left : f32; rf_top : f32; rf_right : f32; rf_bottom : f32 }.
Definition rect_new (x y width height : f32) : RectF := mkRectF x y (f32_add x width) (f32_add y height).
Definition rectf_width (self : RectF) : f32 := f32_sub (rf_right self) (rf_left self).
Definition rectf_height (self : RectF) : f32 := f32_sub (rf_bottom self) (rf_top self).
Definition inset (self : RectF) (dx dy : f32) : RectF :=
  mkRectF (f32_add (rf_left self) dx) (f32_add (rf_top self) dy) (f32_sub (rf_right self) dx) (f32_sub (rf_bottom self) dy).
Definition rect_contains (self : RectF) (x y : f32) : bool :=
  SFleb (rf_left self) x && SFltb x (rf_right self) && SFleb (rf_top self) y && SFltb y (rf_bottom self).

Inductive Align := Leading | Center | Trailing.
Definition align_dwrite (a : Align) : Z := match a with Leading => 0 | Center => 2 | Trailing => 1 end.
Inductive Weight := WeightNormal | SemiBold | Bold.
Definition weight_dwrite (w : Weight) : Z := match w with WeightNormal => 400 | SemiBold => 600 | Bold => 700 end.

(** A byte survives the division by 255 and the way back. *)
Lemma channel_byte_all :
  forallb (fun v => channel (f32_div (f32_of (Z.of_nat v)) (f32_of 255)) =? Z.of_nat v) (seq 0 256) = true.
Proof. by vm_compute. Qed.
Lemma channel_byte v : 0 <= v < 256 -> channel (f32_div (f32_of v) (f32_of 255)) = v.
Proof.
  intros Hv. pose proof channel_byte_all as H. rewrite forallb_forall in H. specialize (H (Z.to_nat v)).
  rewrite Z2Nat.id in H by lia. apply Z.eqb_eq, H, in_seq. lia.
Qed.

(** Every 24-bit colour survives the single-precision arithmetic: the
    [COLORREF] of [hex(0xRRGGBB)], with any alpha, is exactly [0x00BBGGRR]. *)
Theorem colorref_of_hex r g b a :
  0 <= r < 256 -> 0 <= g < 256 -> 0 <= b < 256 ->
  to_colorref (color_alpha (color_hex (r * 2 ^ 16 + g * 2 ^ 8 + b)) a) = b * 2 ^ 16 + g * 2 ^ 8 + r.
Proof.
  intros Hr Hg Hb. unfold to_colorref, color_alpha, color_hex. cbn [col_r col_g col_b]. change 0xFF with (Z.ones 8).
  rewrite !Z.land_ones, !Z.shiftr_div_pow2 by lia.
  replace ((r * 2 ^ 16 + g * 2 ^ 8 + b) / 2 ^ 16 mod 2 ^ 8) with r.
  2: { replace (r * 2 ^ 16 + g * 2 ^ 8 + b) with (g * 2 ^ 8 + b + r * 2 ^ 16) by lia. rewrite Z.div_add, Z.div_small, Z.mod_small by lia. lia. }
  replace ((r * 2 ^ 16 + g * 2 ^ 8 + b) / 2 ^ 8 mod 2 ^ 8) with g.
  2: { replace (r * 2 ^ 16 + g * 2 ^ 8 + b) with (b + (g + r * 2 ^ 8) * 2 ^ 8) by lia.
       rewrite Z.div_add, Z.div_small, Z.add_0_l, Z.mod_add, Z.mod_small by lia. done. }
  replace ((r * 2 ^ 16 + g * 2 ^ 8 + b) mod 2 ^ 8) with b.
  2: { replace (r * 2 ^ 16 + g * 2 ^ 8 + b) with (b + (g + r * 2 ^ 8) * 2 ^ 8) by lia. rewrite Z.mod_add, Z.mod_small by lia. done. }
  rewrite !channel_byte by lia. unfold wrap.
  rewrite (Z.mod_small (Z.shiftl g 8)), (Z.mod_small (Z.shiftl b 16)) by (rewrite Z.shiftl_mul_pow2; lia).
  rewrite (Z.lor_comm r), lor_shift_add, Z.lor_comm, lor_shift_add by lia. lia.
Qed.

Lemma colorref_of_hex_witness : to_colorref (color_alpha (color_hex 0x0067C0) (f32_of 1)) = 0x00C06700.
Proof. refine (colorref_of_hex 0x00 0x67 0xC0 (f32_of 1) _ _ _); lia. Defined.

(** A point of a rectangle of whole numbers is inside exactly when the numbers
    say so, the left and top edge included, the right and bottom edge not. *)
Example rect_hit_test :
  let r := rect_new (f32_of 10) (f32_of 20) (f32_of 100) (f32_of 50) in
  rect_contains r (f32_of 10) (f32_of 20) = true /\ rect_contains r (f32_of 110) (f32_of 20) = false /\
  inset r (f32_of 5) (f32_of 10) = mkRectF (f32_of 15) (f32_of 30) (f32_of 105) (f32_of 60) /\
  rectf_width r = f32_of 100 /\ rectf_height r = f32_of 50.
Proof. by vm_compute. Qed.

(** ** The calls *)

Record Factories := mkFactories { fac_d2d : Z; fac_dwrite : Z }.
Record target_props := mkTargetProps { tp_software : bool; tp_dpi : Z; tp_hwnd : Z; tp_width : Z; tp_height : Z }.
(** A text format with its layout settings. *)
Record text_layout := mkTextLayout { tl_align : Z; tl_paragraph_near : bool; tl_wrap : bool; tl_trim_sign : option Z }.

Inductive draw_cmd :=
  | CmdSetColor (brush : Z) (c : Color)
  | CmdClear (c : Color)
  | CmdFillRectangle (r : RectF) (brush : Z)
  | CmdFillRounded (r : RectF) (radius : f32) (brush : Z)
  | CmdDrawRounded (r : RectF) (radius : f32) (brush : Z) (width : f32)
  | CmdFillEllipse (x y radius : f32) (brush : Z)
  | CmdDrawLine (x0 y0 x1 y1 : f32) (brush : Z) (width : f32)
  | CmdDrawText (text : list Z) (format : Z) (r : RectF) (brush : Z)
  | CmdPushClip (r : RectF)
  | CmdPopClip.

Definition D2DERR_RECREATE_TARGET : Z := as_i32 0x8899000C.

Class canvas_api (W : Type) := {
  D2D1CreateFactory : W -> (win_error + Z) * W;
  DWriteCreateFactory : W -> (win_error + Z) * W;
  CreateHwndRenderTarget : W -> Z -> target_props -> (win_error + Z) * W;
  CreateSolidColorBrush : W -> Z -> Color -> (win_error + Z) * W;
  BeginDraw : W -> Z -> W;
  EndDraw : W -> Z -> option win_error * W;
  Resize : W -> Z -> Z -> Z -> option win_error * W;
  SetDpi : W -> Z -> Z -> W;
  Emit : W -> Z -> draw_cmd -> W;
  canvas_client_rect : W -> Z -> WindowRect;
  canvas_dpi : W -> Z -> Z;
  CreateTextFormat : W -> Z -> list Z -> Z -> f32 -> (win_error + Z) * W;
  CreateEllipsisTrimmingSign : W -> Z -> Z -> option Z;
  GetSystemFontCollection : W -> Z -> option Z;
  FindFamilyName : W -> Z -> list Z -> option bool;
  SetLayout : W -> Z -> text_layout -> W;
  LayoutMetrics : W -> Z -> list Z -> Z -> f32 -> option (f32 * f32) }.

Record TextStyle := mkTextStyle { ts_format : Z; ts_ellipsis : option Z; ts_family : str; ts_size : f32 }.
Record Canvas := mkCanvas { cv_hwnd : Z; cv_hardware : bool; cv_target : option Z; cv_brush : option Z; cv_dpi : Z }.
Record Frame := mkFrameF { fr_target : Z; fr_brush : Z }.

Section Calls.
Context {W : Type} `{api : !canvas_api W}.

(** The thread-local factories and the machine. *)
Definition ui : Type := option Factories * W.
Abbreviation U := (eff ui Error).
Abbreviation CV := (eff (Canvas * ui) Error).

Definition ui_call {A} (call : W -> (win_error + A) * W) (operation : string) (target : str) : U A := fun '(f, w) =>
  match call w with (inr a, w) => (Ok a, (f, w)) | (inl e, w) => (Err (win_op_error operation target e), (f, w)) end.
Definition ui_tell (call : W -> W) : U unit := fun '(f, w) => (Ok tt, (f, call w)).
Definition ui_look {A} (f : W -> A) : U A := fun '(fs, w) => (Ok (f w), (fs, w)).

Definition factories : U Factories := fun '(f, w) =>
  match f with
  | Some existing => (Ok existing, (f, w))
  | None =>
      (let* d2d := ui_call D2D1CreateFactory "D2D1CreateFactory" (lit "canvas") in
       let* dwrite := ui_call DWriteCreateFactory "DWriteCreateFactory" (lit "canvas") in
       fun '(_, w) => (Ok (mkFactories d2d dwrite), (Some (mkFactories d2d dwrite), w))) (f, w)
  end.

(** *** Text *)

(** The first family the collection has; a failed query counts as absent. *)
Fixpoint find_installed (w : W) (collection : Z) (families : list str) : option str :=
  match families with
  | [] => None
  | family :: families =>
      match FindFamilyName w collection (to_utf16_nul family) with
      | Some true => Some family
      | _ => find_installed w collection families
      end
  end.
Definition first_installed (dwrite : Z) (families : list str) (w : W) : option str :=
  collection ← GetSystemFontCollection w dwrite; find_installed w collection families.
Definition choose_family (dwrite : Z) (families : list str) (w : W) : str :=
  match first_installed dwrite families w with
  | Some family => family
  | None => match families with family :: _ => family | [] => lit "Segoe UI" end
  end.

Definition style_new (families : list str) (size : f32) (weight : Weight) : U TextStyle :=
  let* fs := factories in
  let* family := ui_look (choose_family (fac_dwrite fs) families) in
  let* format := ui_call (fun w => CreateTextFormat w (fac_dwrite fs) (to_utf16_nul family) (weight_dwrite weight) size)
                   "CreateTextFormat" family in
  let* ellipsis := ui_look (fun w => CreateEllipsisTrimmingSign w (fac_dwrite fs) format) in
  eff_ret (mkTextStyle format ellipsis family size).

Definition set_layout (self : TextStyle) (align : Align) (wrap top : bool) : U unit :=
  ui_tell (fun w => SetLayout w (ts_format self) (mkTextLayout (align_dwrite align) top wrap (ts_ellipsis self))).

Definition measure (self : TextStyle) (text : str) (max_width : f32) : U (f32 * f32) :=
  let* fs := eff_try factories in
  match fs with
  | inl _ => eff_ret (f32_of 0, f32_of 0)
  | inr fs =>
      let* _ := set_layout self Leading true true in
      let* m := ui_look (fun w => LayoutMetrics w (fac_dwrite fs) (encode_utf16 text) (ts_format self) max_width) in
      eff_ret (default (f32_of 0, f32_of 0) m)
  end.

(** *** The canvas *)

Definition client_pixels (p : profile) (w : W) (hwnd : Z) : res Error (Z * Z) :=
  let rect := canvas_client_rect w hwnd in
  let! width := rect_width p rect in
  let! height := rect_height p rect in
  Ok (Z.max width 1, Z.max height 1).

Definition canvas_new (window : Z) (hardware : bool) : U Canvas :=
  let* dpi := ui_look (fun w => let dpi := canvas_dpi w window in if dpi =? 0 then DEFAULT_DPI else dpi) in
  eff_ret (mkCanvas window hardware None None dpi).
Definition for_window (window : Z) : U Canvas := canvas_new window false.
Definition for_window_hardware (window : Z) : U Canvas := canvas_new window true.

Definition to_dip (self : Canvas) (x y : Z) : f32 * f32 :=
  let scale := f32_div (f32_of DEFAULT_DPI) (f32_of (cv_dpi self)) in
  (f32_mul (f32_of x) scale, f32_mul (f32_of y) scale).
Definition canvas_size (p : profile) : CV (f32 * f32) := fun '(self, (f, w)) =>
  (let! size := client_pixels p w (cv_hwnd self) in
   Ok (to_dip self (as_i32 (fst size)) (as_i32 (snd size))), (self, (f, w))).

Definition with_target (self : Canvas) (t b : option Z) : Canvas := mkCanvas (cv_hwnd self) (cv_hardware self) t b (cv_dpi self).
Definition canvas_resize (p : profile) : CV unit := fun '(self, (f, w)) =>
  match cv_target self with
  | None => (Ok tt, (self, (f, w)))
  | Some target =>
      match client_pixels p w (cv_hwnd self) with
      | Ok (width, height) =>
          match Resize w target width height with
          | (None, w) => (Ok tt, (self, (f, w)))
          | (Some _, w) => (Ok tt, (with_target self None (cv_brush self), (f, w)))
          end
      | Err e => (Err e, (self, (f, w)))
      | Panic x => (Panic x, (self, (f, w)))
      end
  end.
Definition set_dpi (dpi : Z) : CV unit := fun '(self, (f, w)) =>
  let self := mkCanvas (cv_hwnd self) (cv_hardware self) (cv_target self) (cv_brush self) (Z.max dpi 1) in
  match cv_target self with
  | Some target => (Ok tt, (self, (f, SetDpi w target (cv_dpi self))))
  | None => (Ok tt, (self, (f, w)))
  end.

(** What [ensure_target] makes when one of the two is missing. *)
Definition make_target (p : profile) (self : Canvas) : U (Z * Z) :=
  let* fs := factories in
  let* size := (fun u => (client_pixels p (snd u) (cv_hwnd self), u)) in
  let* target := ui_call (fun w => CreateHwndRenderTarget w (fac_d2d fs)
                    (mkTargetProps (negb (cv_hardware self)) (cv_dpi self) (cv_hwnd self) (fst size) (snd size)))
                   "CreateHwndRenderTarget" (lit "canvas") in
  let* brush := ui_call (fun w => CreateSolidColorBrush w target (color_hex 0)) "CreateSolidColorBrush" (lit "canvas") in
  eff_ret (target, brush).
Definition ensure_target (p : profile) : CV (Z * Z) := fun '(self, u) =>
  match cv_target self, cv_brush self with
  | Some target, Some brush => (Ok (target, brush), (self, u))
  | _, _ =>
      match make_target p self u with
      | (Ok (target, brush), u) => (Ok (target, brush), (with_target self (Some target) (Some brush), u))
      | (Err e, u) => (Err e, (self, u))
      | (Panic x, u) => (Panic x, (self, u))
      end
  end.

(** [paint] is the caller's closure. *)
Definition canvas_draw (p : profile) (paint : Frame -> W -> W) : CV unit :=
  let* r := ensure_target p in
  let '(target, brush) := r in fun '(self, (f, w)) =>
  let w := paint (mkFrameF target brush) (BeginDraw w target) in
  match EndDraw w target with
  | (None, w) => (Ok tt, (self, (f, w)))
  | (Some e, w) =>
      if win_error_code e =? D2DERR_RECREATE_TARGET then (Ok tt, (with_target self None None, (f, w)))
      else (Err (win_op_error "EndDraw" (lit "canvas") e), (self, (f, w)))
  end.

(** *** The operations of a frame *)

Definition frame_with (self : Frame) (color : Color) (w : W) : W := Emit w (fr_target self) (CmdSetColor (fr_brush self) color).
Definition frame_do (self : Frame) (color : Color) (cmd : Z -> draw_cmd) (w : W) : W :=
  Emit (frame_with self color w) (fr_target self) (cmd (fr_brush self)).
Definition frame_clear (self : Frame) (color : Color) (w : W) : W := Emit w (fr_target self) (CmdClear color).
Definition fill_rect (self : Frame) (rect : RectF) (color : Color) : W -> W := frame_do self color (CmdFillRectangle rect).
Definition fill_rounded (self : Frame) (rect : RectF) (radius : f32) (color : Color) : W -> W :=
  frame_do self color (CmdFillRounded rect radius).
Definition stroke_rounded (self : Frame) (rect : RectF) (radius width : f32) (color : Color) : W -> W :=
  frame_do self color (fun b => CmdDrawRounded rect radius b width).
Definition fill_circle (self : Frame) (cx cy radius : f32) (color : Color) : W -> W :=
  frame_do self color (CmdFillEllipse cx cy radius).
Definition frame_line (self : Frame) (from to : f32 * f32) (width : f32) (color : Color) : W -> W :=
  frame_do self color (fun b => CmdDrawLine (fst from) (snd from) (fst to) (snd to) b width).
Definition layout (style : TextStyle) (align : Align) (wrap top : bool) (w : W) : W :=
  SetLayout w (ts_format style) (mkTextLayout (align_dwrite align) top wrap (ts_ellipsis style)).
Definition draw_text (self : Frame) (text : str) (style : TextStyle) (rect : RectF) (color : Color) : W -> W :=
  frame_do self color (CmdDrawText (encode_utf16 text) (ts_format style) rect).
Definition frame_text (self : Frame) (text : str) (style : TextStyle) (rect : RectF) (color : Color) (align : Align) (w : W) : W :=
  draw_text self text style rect color (layout style align false false w).
Definition paragraph (self : Frame) (text : str) (style : TextStyle) (rect : RectF) (color : Color) (w : W) : W :=
  draw_text self text style rect color (layout style Leading true true w).
Definition push_clip (self : Frame) (rect : RectF) (w : W) : W := Emit w (fr_target self) (CmdPushClip rect).
Definition pop_clip (self : Frame) (w : W) : W := Emit w (fr_target self) CmdPopClip.
End Calls.

(** ** A frame draws with a brush of its own target *)

(** A brush belongs to the target it was created on, for good, and identifies
    it; nothing else changes that. *)
Class brush_laws (W : Type) `{api : !canvas_api W} := {
  made_on : W -> Z -> option Z;
  brush_made w t c b w' : CreateSolidColorBrush w t c = (inr b, w') -> made_on w' b = Some t;
  keeps_brushes (w w' : W) : Prop;
  keeps_made w w' b t : keeps_brushes w w' -> made_on w b = Some t -> made_on w' b = Some t;
  keeps_refl w : keeps_brushes w w;
  keeps_trans w1 w2 w3 : keeps_brushes w1 w2 -> keeps_brushes w2 w3 -> keeps_brushes w1 w3;
  keeps_d2d w : keeps_brushes w (snd (D2D1CreateFactory w));
  keeps_dwrite w : keeps_brushes w (snd (DWriteCreateFactory w));
  keeps_target w f ps : keeps_brushes w (snd (CreateHwndRenderTarget w f ps));
  keeps_brush w t c : keeps_brushes w (snd (CreateSolidColorBrush w t c));
  keeps_begin w t : keeps_brushes w (BeginDraw w t);
  keeps_end w t : keeps_brushes w (snd (EndDraw w t));
  keeps_resize w t a b : keeps_brushes w (snd (Resize w t a b));
  keeps_dpi w t d : keeps_brushes w (SetDpi w t d) }.

Section Frames.
Context {W : Type} `{api : !canvas_api W} `{laws : !brush_laws W}.

Abbreviation CV := (eff (Canvas * ui (W := W)) Error).

(** The canvas's brush, when both are there, was made on its target. *)
Definition canvas_ok (self : Canvas) (w : W) : Prop :=
  forall t b, cv_target self = Some t -> cv_brush self = Some b -> made_on w b = Some t.

Lemma canvas_ok_keeps self w w' : canvas_ok self w -> keeps_brushes w w' -> canvas_ok self w'.
Proof. intros H K t b Ht Hb. eapply keeps_made; [exact K|]. by apply H. Qed.

(** A call keeps the brushes. *)
Definition ui_keeps {A} (m : eff (ui (W := W)) Error A) : Prop := forall u, keeps_brushes (snd u) (snd (m u).2).
Lemma ui_keeps_bind {A B} (m : eff (ui (W := W)) Error A) (k : A -> eff (ui (W := W)) Error B) :
  ui_keeps m -> (forall a, ui_keeps (k a)) -> ui_keeps (let* a := m in k a).
Proof.
  intros Hm Hk u. apply (eff_bind_pres (fun a b => keeps_brushes (snd a) (snd b))); [intros; by eapply keeps_trans|apply Hm|].
  intros a s1. apply Hk.
Qed.
Lemma ui_keeps_call {A} (call : W -> (win_error + A) * W) operation target :
  (forall w, keeps_brushes w (snd (call w))) -> ui_keeps (ui_call call operation target).
Proof. intros H [f w]. specialize (H w). unfold ui_call. by destruct (call w) as [[e|a] w']. Qed.
Lemma ui_keeps_factories : ui_keeps factories.
Proof.
  intros [[fs|] w]; [apply keeps_refl|]. unfold factories.
  apply (ui_keeps_bind (ui_call D2D1CreateFactory "D2D1CreateFactory" (lit "canvas"))); [apply ui_keeps_call, keeps_d2d|].
  intros d. apply ui_keeps_bind; [apply ui_keeps_call, keeps_dwrite|]. intros e [f w']. apply keeps_refl.
Qed.

Lemma make_target_ok p self : ui_keeps (make_target p self) /\
  forall u t b u', make_target p self u = (Ok (t, b), u') -> made_on (snd u') b = Some t.
Proof.
  unfold make_target. split.
  - apply ui_keeps_bind; [apply ui_keeps_factories|]. intros fs. apply ui_keeps_bind; [intros u; apply keeps_refl|]. intros size.
    apply ui_keeps_bind; [apply ui_keeps_call; intros; apply keeps_target|]. intros t.
    apply ui_keeps_bind; [apply ui_keeps_call; intros; apply keeps_brush|]. intros b u. apply keeps_refl.
  - intros u t b u' H. apply eff_bind_ok in H as (fs & u1 & _ & H). apply eff_bind_ok in H as (size & u2 & _ & H).
    apply eff_bind_ok in H as (t' & u3 & _ & H). apply eff_bind_ok in H as (b' & [f3 w3] & Hb & H). injection H as <- <- <-.
    destruct u3 as [f u3]. unfold ui_call in Hb. destruct (CreateSolidColorBrush u3 t' _) as [[e|b''] w'] eqn:E; [done|].
    injection Hb as <- <- <-. by eapply brush_made.
Qed.

Lemma ensure_target_ok p self (u : ui) : canvas_ok self (snd u) ->
  let '(r, (self', u')) := ensure_target p (self, u) in
  canvas_ok self' (snd u') /\ keeps_brushes (snd u) (snd u') /\
  match r with Ok (t, b) => cv_target self' = Some t /\ cv_brush self' = Some b | _ => True end.
Proof.
  intros H. destruct (make_target_ok p self) as [K M]. specialize (K u). specialize (M u).
  destruct (cv_target self) as [t0|] eqn:Et; [destruct (cv_brush self) as [b0|] eqn:Eb|];
    unfold ensure_target; rewrite Et; rewrite ?Eb; [split_and!; [done|apply keeps_refl|done..]|..];
    (destruct (make_target p self u) as [[[t b]|e|x] u1]; cbn [snd fst] in *;
     [split_and!; [intros t1 b1 [= <-] [= <-]; by apply M|done..]
     |split_and!; [by eapply canvas_ok_keeps|done..]..]).
Qed.

(** What a program does with a canvas; a paint closure keeps the brushes. *)
Inductive canvas_op := OpResize | OpSetDpi (dpi : Z) | OpDraw (paint : Frame -> W -> W).
Definition run_canvas (p : profile) (op : canvas_op) : CV unit :=
  match op with OpResize => canvas_resize p | OpSetDpi d => set_dpi d | OpDraw paint => canvas_draw p paint end.
Definition op_keeps (op : canvas_op) : Prop :=
  match op with OpDraw paint => forall f w, keeps_brushes w (paint f w) | _ => True end.

Lemma run_canvas_ok p op self (u : ui) : op_keeps op -> canvas_ok self (snd u) ->
  let '(_, (self', u')) := run_canvas p op (self, u) in canvas_ok self' (snd u').
Proof.
  intros Hop H. destruct u as [f w]. destruct op as [|dpi|paint]; cbn [run_canvas].
  - unfold canvas_resize. destruct (cv_target self) as [t|] eqn:Et; [|done].
    destruct (client_pixels p w (cv_hwnd self)) as [[wd ht]|e|x]; [|done|done].
    pose proof (keeps_resize w t wd ht) as K. destruct (Resize w t wd ht) as [[e|] w']; cbn [snd] in *; [done|]. by eapply canvas_ok_keeps.
  - unfold set_dpi. cbn [cv_target cv_dpi]. destruct (cv_target self) as [t|] eqn:Et; cbn [snd].
    + intros t1 b1 Ht Hb. eapply keeps_made; [apply keeps_dpi|]. cbn in *. apply H; congruence.
    + by intros t1 b1 Ht Hb.
  - unfold canvas_draw, eff_bind. pose proof (ensure_target_ok p self (f, w) H) as He. unfold ui in *.
    destruct (ensure_target p (self, (f, w))) as [[[t b]|e|x] [self' [f' w']]]; cbn [snd] in *; [|apply He..].
    destruct He as (H' & _ & Ht & Hb).
    pose proof (keeps_trans _ _ _ (keeps_trans _ _ _ (keeps_begin w' t) (Hop (mkFrameF t b) (BeginDraw w' t))) (keeps_end _ t)) as K.
    destruct (EndDraw _ t) as [[e|] w2]; cbn [snd] in *; [|by eapply canvas_ok_keeps].
    destruct (_ =? _); cbn [snd]; [by intros t1 b1 Ht1|by eapply canvas_ok_keeps].
Qed.

Fixpoint run_canvas_ops (p : profile) (ops : list canvas_op) (st : Canvas * ui) : Canvas * ui :=
  match ops with [] => st | op :: ops => run_canvas_ops p ops (run_canvas p op st).2 end.

(** A frame always draws with a brush of its own target.  After any
    sequence of resizes, DPI changes and draws on a new canvas, each with
    whatever result (failed resizes and lost devices included), the target and
    the brush the next [draw] hands to the painter belong together; and a
    device that was lost is made anew by the next draw. *)
Theorem frames_use_their_own_brush p window hardware (u : ui) self (u0 : ui) (ops : list canvas_op) :
  Forall op_keeps ops -> canvas_new window hardware u = (Ok self, u0) ->
  let '(self', u') := run_canvas_ops p ops (self, u0) in
  forall t b st, ensure_target p (self', u') = (Ok (t, b), st) -> made_on (snd (snd st)) b = Some t.
Proof.
  intros Hops Hn. assert (canvas_ok self (snd u0)) as H0.
  { unfold canvas_new, eff_bind, ui_look in Hn. destruct u as [f w]. injection Hn as <- <-. by intros t b Ht. }
  clear Hn. revert self u0 H0. induction Hops as [|op ops Hop _ IH]; intros self u0 H0; cbn [run_canvas_ops].
  - intros t b [self' u'] E. pose proof (ensure_target_ok p self u0 H0) as He. rewrite E in He.
    destruct He as (Hc & _ & Ht & Hb). by apply Hc.
  - pose proof (run_canvas_ok p op self u0 Hop H0) as H1. destruct (run_canvas p op (self, u0)) as [r [self1 u1]].
    cbn [snd]. by apply IH.
Qed.
End Frames.
