(* ===== verification/Metrics.v ===== *)
(** * Metrics: processor usage and host metrics

    The sampling functions of src/process/metrics.rs and the elevation checks
    of src/lib.rs.  An [f64] is an IEEE 754 number with 53 bits of precision,
    rounded to nearest even, as [SpecFloat] computes it. *)

From Stdlib Require Import ZArith Lia String Ascii SpecFloat.
From stdpp Require Import base list strings gmap numbers sorting.
From S2P Require Import Prelude Text Unicode Errors Effects Resources Backends NtPath Wait ImagePath ProcOps Token.

Open Scope Z_scope.

(** ** Double-precision numbers *)

Abbreviation f64 := spec_float.
Definition f64_of (z : Z) : f64 := binary_normalize 53 1024 z 0 false.
Definition f64_mul : f64 -> f64 -> f64 := SFmul 53 1024.
Definition f64_div : f64 -> f64 -> f64 := SFdiv 53 1024.
(** [clamp]: a NaN stays. *)
Definition f64_clamp (x lo hi : f64) : f64 := if SFltb x lo then lo else if SFltb hi x then hi else x.

(** A number that is not negative and not NaN. *)
Definition unsigned (x : f64) : Prop :=
  match x with S754_zero false | S754_infinity false | S754_finite false _ _ => True | _ => False end.

Lemma digits_spec p : 2 ^ (Z.pos (digits2_pos p) - 1) <= Z.pos p < 2 ^ Z.pos (digits2_pos p).
Proof.
  induction p as [p IH|p IH|]; cbn [digits2_pos]; [| |cbn; lia];
    rewrite Pos2Z.inj_succ; replace (Z.succ (Z.pos (digits2_pos p)) - 1) with (Z.succ (Z.pos (digits2_pos p) - 1)) by lia;
    rewrite !Z.pow_succ_r by lia; lia.
Qed.

(** Shifting right divides. *)
Lemma shr_1_div r : 0 <= shr_m r -> shr_m (shr_1 r) = shr_m r / 2.
Proof.
  destruct r as [m rb sb]. cbn [shr_m]. intros Hm. destruct m as [|[p|p|]|p]; cbn [shr_1 shr_m]; try done; try lia.
  - rewrite (Pos2Z.inj_xI p). replace (2 * Z.pos p + 1) with (1 + Z.pos p * 2) by lia. by rewrite Z.div_add by lia.
  - rewrite (Pos2Z.inj_xO p), Z.mul_comm. by rewrite Z.div_mul.
Qed.
Lemma iter_shr_div p r : 0 <= shr_m r -> shr_m (SpecFloat.iter_pos shr_1 p r) = shr_m r / 2 ^ Z.pos p.
Proof.
  revert r. induction p as [p IH|p IH|]; intros r Hr; cbn [SpecFloat.iter_pos].
  - assert (0 <= shr_m (shr_1 r)) by (rewrite shr_1_div by done; apply Z.div_pos; lia).
    rewrite IH by (rewrite IH by done; apply Z.div_pos; lia). rewrite IH, shr_1_div by done.
    rewrite !Z.div_div by lia. f_equal. replace (Z.pos p~1) with (1 + (Z.pos p + Z.pos p)) by lia.
    rewrite !Z.pow_add_r by lia. lia.
  - rewrite IH by (rewrite IH by done; apply Z.div_pos; lia). rewrite IH by done. rewrite Z.div_div by lia. f_equal.
    rewrite (Pos2Z.inj_xO p), <- Z.pow_add_r by lia. f_equal. lia.
  - by apply shr_1_div.
Qed.

Lemma record_of_loc_m m l : shr_m (shr_record_of_loc m l) = m.
Proof. by destruct l as [|[]]. Qed.
Lemma shr_fexp_spec m e l : 0 <= m ->
  exists r, shr_fexp 53 1024 m e l = (r, Z.max e (fexp 53 1024 (Zdigits2 m + e))) /\
    shr_m r = m / 2 ^ (Z.max e (fexp 53 1024 (Zdigits2 m + e)) - e).
Proof.
  intros Hm. unfold shr_fexp, shr. set (k := fexp 53 1024 (Zdigits2 m + e)).
  destruct (k - e) as [|p|p] eqn:E; eexists.
  - split; [f_equal; lia|]. rewrite record_of_loc_m. replace (Z.max e k - e) with 0 by lia. by rewrite Z.div_1_r.
  - split; [f_equal; lia|]. rewrite iter_shr_div; rewrite record_of_loc_m; [|done]. do 2 f_equal. lia.
  - split; [f_equal; lia|]. rewrite record_of_loc_m. replace (Z.max e k - e) with 0 by lia. by rewrite Z.div_1_r.
Qed.
Lemma round_bounds m l : m <= round_nearest_even m l <= m + 1.
Proof. destruct l as [|[]]; cbn; try lia. destruct (Z.even m); lia. Qed.

(** Rounding a mantissa that is not negative gives a number. *)
Lemma round_aux_unsigned m e l : 0 <= m -> unsigned (binary_round_aux 53 1024 false m e l).
Proof.
  intros Hm. unfold binary_round_aux. destruct (shr_fexp_spec m e l Hm) as (r & -> & Hr). set (e' := Z.max e _) in *.
  set (m1 := round_nearest_even _ _). assert (0 <= m1) as Hm1.
  { pose proof (round_bounds (shr_m r) (loc_of_shr_record r)). assert (0 <= shr_m r) by (rewrite Hr; apply Z.div_pos; lia). unfold m1. lia. }
  destruct (shr_fexp_spec m1 e' loc_Exact Hm1) as (r2 & -> & Hr2).
  assert (0 <= shr_m r2) as H2 by (rewrite Hr2; apply Z.div_pos; lia).
  destruct (shr_m r2) as [|p|p]; [done| |lia]. by destruct (_ <=? _).
Qed.

Lemma shift_pos m n : Z.pos (Pos.iter xO m n) = Z.pos m * 2 ^ Z.pos n.
Proof.
  induction n as [|n IH] using Pos.peano_ind; [by rewrite Z.mul_comm|].
  rewrite Pos.iter_succ, Pos2Z.inj_succ, Z.pow_succ_r by lia. rewrite (Pos2Z.inj_xO (Pos.iter xO m n)), IH. lia.
Qed.

(** A positive 64-bit integer becomes a finite positive number. *)
Lemma f64_of_pos p : Z.pos p < 2 ^ 64 -> exists m e, f64_of (Z.pos p) = S754_finite false m e.
Proof.
  intros Hp. unfold f64_of, binary_normalize, binary_round. pose proof (digits_spec p) as Hd. set (d := Z.pos (digits2_pos p)) in *.
  assert (1 <= d) by (unfold d; lia).
  assert (d <= 64) as H64. { destruct (Z.le_gt_cases d 64); [done|]. assert (2 ^ 64 <= 2 ^ (d - 1)) by (apply Z.pow_le_mono_r; lia). lia. }
  set (k := d - 53). assert (fexp 53 1024 (d + 0) = k) as Ek by (unfold fexp, emin, k; lia).
  assert (exists mz ez, shl_align p 0 (fexp 53 1024 (d + 0)) = (mz, ez) /\ ez = Z.min 0 k /\ Z.pos mz = Z.pos p * 2 ^ (- ez))
    as (mz & ez & -> & Eez & Hmz).
  { rewrite Ek. unfold shl_align. rewrite Z.sub_0_r. destruct k as [|q|q] eqn:Eq; eexists _, _; (split; [reflexivity|]).
    - split; [done|]. cbn. lia.
    - split; [lia|]. cbn. lia.
    - split; [lia|]. apply shift_pos. }
  assert (Z.pos (digits2_pos mz) = d - ez) as Edz.
  { pose proof (digits_spec mz) as Hz. rewrite Hmz in Hz. set (dz := Z.pos (digits2_pos mz)) in *.
    assert (2 ^ (d - 1 - ez) <= Z.pos p * 2 ^ (- ez) < 2 ^ (d - ez)) as Hb.
    { replace (d - 1 - ez) with ((d - 1) + - ez) by lia. replace (d - ez) with (d + - ez) by lia.
      rewrite !Z.pow_add_r by lia. split; [apply Z.mul_le_mono_nonneg_r|apply Z.mul_lt_mono_pos_r]; lia. }
    assert (dz - 1 < d - ez) by (apply (Z.pow_lt_mono_r_iff 2); lia).
    assert (d - 1 - ez < dz) by (apply (Z.pow_lt_mono_r_iff 2); lia). lia. }
  unfold binary_round_aux. destruct (shr_fexp_spec (Z.pos mz) ez loc_Exact ltac:(lia)) as (r & -> & Hr).
  cbn [Zdigits2] in *. rewrite Edz in *. replace (d - ez + ez) with (d + 0) in * by lia. rewrite Ek in *.
  replace (Z.max ez k) with k in * by lia.
  assert (2 ^ 52 <= shr_m r < 2 ^ 53) as Hm1.
  { rewrite Hr. pose proof (digits_spec mz) as Hz. rewrite Edz in Hz.
    replace (d - ez - 1) with (52 + (k - ez)) in Hz by lia. replace (d - ez) with (53 + (k - ez)) in Hz by lia.
    rewrite !Z.pow_add_r in Hz by lia. split; [apply Z.div_le_lower_bound|apply Z.div_lt_upper_bound]; lia. }
  set (m1 := round_nearest_even _ _).
  assert (2 ^ 52 <= m1 <= 2 ^ 53) as Hr1 by (pose proof (round_bounds (shr_m r) (loc_of_shr_record r)); unfold m1; lia).
  destruct (shr_fexp_spec m1 k loc_Exact ltac:(lia)) as (r2 & -> & Hr2).
  assert (53 <= Zdigits2 m1 <= 54) as Hd1.
  { destruct m1 as [|q|q]; [lia| |lia]. cbn [Zdigits2]. pose proof (digits_spec q) as Hq. set (dq := Z.pos (digits2_pos q)) in *.
    assert (dq - 1 < 54) by (apply (Z.pow_lt_mono_r_iff 2); lia). assert (52 < dq) by (apply (Z.pow_lt_mono_r_iff 2); lia). lia. }
  set (e2 := Z.max k _) in *. assert (k <= e2 <= k + 1) as He2 by (unfold e2, fexp, emin; lia).
  assert (0 < shr_m r2) as H2.
  { rewrite Hr2. apply Z.div_str_pos. split; [lia|]. apply Z.le_trans with (2 ^ 1); [apply Z.pow_le_mono_r; lia|lia]. }
  destruct (shr_m r2) as [|q|q]; [lia| |lia]. replace (e2 <=? 1024 - 53) with true by (unfold k in *; lia). by eexists _, _.
Qed.

Lemma div_eucl_nonneg a b q r : 0 <= a -> 0 < b -> Z.div_eucl a b = (q, r) -> 0 <= q.
Proof. intros Ha Hb H. assert (q = a / b) as -> by (unfold Z.div; by rewrite H). apply Z.div_pos; lia. Qed.
Lemma div_unsigned x m e : unsigned x -> unsigned (f64_div x (S754_finite false m e)).
Proof.
  destruct x as [[]|[]| |[] mx ex]; try done. intros _. unfold f64_div, SFdiv, SFdiv_core_binary.
  match goal with |- context [Z.div_eucl ?a ?b] => destruct (Z.div_eucl a b) as [q r] eqn:E end.
  apply round_aux_unsigned. eapply div_eucl_nonneg; [|apply Pos2Z.is_pos|exact E].
  match goal with |- 0 <= match ?s with _ => _ end => destruct s as [|n|n]; [lia| |lia] end. apply Z.shiftl_nonneg. lia.
Qed.
Lemma mul_unsigned x m e : unsigned x -> unsigned (f64_mul x (S754_finite false m e)).
Proof. destruct x as [[]|[]| |[] mx ex]; try done. intros _. apply round_aux_unsigned. lia. Qed.

(** The percentage of two counters, as both functions compute it. *)
Definition HUNDRED : f64 := f64_of 100.
Definition percentage (part whole : Z) : f64 :=
  f64_clamp (f64_mul (f64_div (f64_of part) (f64_of whole)) HUNDRED) (f64_of 0) HUNDRED.

Lemma f64_of_unsigned z : 0 <= z < 2 ^ 64 -> unsigned (f64_of z).
Proof. intros Hz. destruct z as [|p|p]; [done| |lia]. by destruct (f64_of_pos p ltac:(lia)) as (m & e & ->). Qed.
Lemma hundred_eq : HUNDRED = S754_finite false 7036874417766400 (-46).
Proof. by vm_compute. Qed.
Lemma zero_eq : f64_of 0 = S754_zero false.
Proof. done. Qed.
Lemma leb_refl m e : SFleb (S754_finite false m e) (S754_finite false m e) = true.
Proof. unfold SFleb. cbn [SFcompare]. rewrite Z.compare_refl. change (Pos.compare_cont Eq m m) with (m ?= m)%positive. by rewrite Pos.compare_refl. Qed.
Lemma leb_of_not_lt m e m' e' :
  SFltb (S754_finite false m e) (S754_finite false m' e') = false -> SFleb (S754_finite false m' e') (S754_finite false m e) = true.
Proof.
  unfold SFltb, SFleb. cbn [SFcompare]. rewrite (Z.compare_antisym e e').
  change (Pos.compare_cont Eq m m') with (m ?= m')%positive. change (Pos.compare_cont Eq m' m) with (m' ?= m)%positive.
  rewrite (Pos.compare_antisym m m'). by destruct (e ?= e'); cbn [CompOpp]; [destruct (m ?= m')%positive|..].
Qed.
Lemma clamp_range x m e (zero := S754_zero false) (hi := S754_finite false m e) : unsigned x ->
  SFleb zero (f64_clamp x zero hi) = true /\ SFleb (f64_clamp x zero hi) hi = true.
Proof.
  intros Hx. unfold f64_clamp, zero, hi. destruct x as [[]|[]| |[] mx ex]; try done; unfold SFltb at 1 3; cbn [SFcompare].
  - split; [done|apply leb_refl].
  - destruct (SFltb _ _) eqn:E; split; try done; [apply leb_refl|by apply leb_of_not_lt].
Qed.
Lemma percentage_range part whole : 0 <= part < 2 ^ 64 -> 0 < whole < 2 ^ 64 ->
  SFleb (f64_of 0) (percentage part whole) = true /\ SFleb (percentage part whole) HUNDRED = true.
Proof.
  intros Hp Hw. unfold percentage. rewrite zero_eq, hundred_eq. apply clamp_range, mul_unsigned. destruct whole as [|w|w]; [lia| |lia]. destruct (f64_of_pos w ltac:(lia)) as (mw & ew & ->).
  by apply div_unsigned, f64_of_unsigned.
Qed.

(** ** Sampling *)

Record HostMemoryMetrics := mkHostMemoryMetrics {
  hm_total_physical_bytes : Z; hm_available_physical_bytes : Z; hm_total_virtual_bytes : Z;
  hm_available_virtual_bytes : Z; hm_memory_load_percent : Z }.
Record HostMetrics := mkHostMetrics { hm_logical_cpu_count : Z; hm_memory : HostMemoryMetrics }.

(** [Sleep] lets time pass; times are in nanoseconds. *)
Class metrics_api (W : Type) := {
  GetSystemTimes : W -> win_error + (FILETIME * FILETIME * FILETIME);   (** idle, kernel, user *)
  Sleep : W -> Z -> W;
  GlobalMemoryStatusEx : W -> win_error + HostMemoryMetrics;
  GetActiveProcessorCount : W -> Z }.

Definition sat_sub (a b : Z) : Z := Z.max (a - b) 0.
Definition calculate_cpu_percentage (start_proc end_proc start_sys end_sys : Z) : f64 :=
  let proc_delta := sat_sub end_proc start_proc in
  let sys_delta := sat_sub end_sys start_sys in
  if sys_delta =? 0 then f64_of 0 else percentage proc_delta sys_delta.

Section Sampling.
Context {W : Type} `{api : !process_api W} `{mapi : !metrics_api W}.

Abbreviation P := (eff (proc_st (W * option device_map)) Error).

Definition api_failed (name : string) (e : win_error) : Error := Error_WindowsApi (mkWindowsApiError e (Some (lit name))).
Definition zero_interval : Error :=
  Error_InvalidParameter (mkInvalidParameterError (lit "interval") (lit "interval must be greater than zero")).

Definition read_system_times_100ns : P (Z * Z * Z) := fun s =>
  match GetSystemTimes (fst (pmach s)) with
  | inl e => (Err (api_failed "GetSystemTimes" e), s)
  | inr (idle, kernel, user) => (Ok (filetime_to_u64_100ns idle, filetime_to_u64_100ns kernel, filetime_to_u64_100ns user), s)
  end.
Definition sleep (interval : Z) : P unit := fun s =>
  (Ok tt, at_machine (Sleep (fst (pmach s)) interval, snd (pmach s)) s).

Definition cpu_usage (self : Process) (interval : Z) : P f64 :=
  if interval =? 0 then eff_fail zero_interval
  else
    let* start_proc := cpu_times self in
    let* start := read_system_times_100ns in
    let* _ := sleep interval in
    let* end_proc := cpu_times self in
    let* finish := read_system_times_100ns in
    let '(_, start_kernel, start_user) := start in
    let '(_, end_kernel, end_user) := finish in
    eff_ret (calculate_cpu_percentage (ct_total_time_100ns start_proc) (ct_total_time_100ns end_proc)
               (sat_add_u64 start_kernel start_user) (sat_add_u64 end_kernel end_user)).

Definition host_metrics : P HostMetrics := fun s =>
  match GlobalMemoryStatusEx (fst (pmach s)) with
  | inl e => (Err (api_failed "GlobalMemoryStatusEx" e), s)
  | inr m => (Ok (mkHostMetrics (GetActiveProcessorCount (fst (pmach s))) m), s)
  end.

Definition host_cpu_usage (interval : Z) : P f64 :=
  if interval =? 0 then eff_fail zero_interval
  else
    let* start := read_system_times_100ns in
    let* _ := sleep interval in
    let* finish := read_system_times_100ns in
    let '(idle_start, kernel_start, user_start) := start in
    let '(idle_end, kernel_end, user_end) := finish in
    let total_delta := sat_sub (sat_add_u64 kernel_end user_end) (sat_add_u64 kernel_start user_start) in
    if total_delta =? 0 then eff_ret (f64_of 0)
    else
      let idle_delta := sat_sub idle_end idle_start in
      let busy_delta := sat_sub total_delta idle_delta in
      eff_ret (percentage busy_delta total_delta).
End Sampling.

(** The counters are pairs of 32-bit words. *)
Class filetime_laws (W : Type) `{api : !process_api W} `{mapi : !metrics_api W} : Prop := {
  system_times_words w idle kernel user : GetSystemTimes w = inr (idle, kernel, user) ->
    Forall (fun t => 0 <= dwLowDateTime t < 2 ^ 32 /\ 0 <= dwHighDateTime t < 2 ^ 32) [idle; kernel; user];
  process_times_words w h kernel user : GetProcessTimes w h = inr (kernel, user) ->
    Forall (fun t => 0 <= dwLowDateTime t < 2 ^ 32 /\ 0 <= dwHighDateTime t < 2 ^ 32) [kernel; user] }.

Lemma filetime_u64 t : 0 <= dwLowDateTime t < 2 ^ 32 /\ 0 <= dwHighDateTime t < 2 ^ 32 -> 0 <= filetime_to_u64_100ns t < 2 ^ 64.
Proof.
  intros [Hl Hh]. unfold filetime_to_u64_100ns. rewrite lor_shift_add by lia. lia.
Qed.

(** A share that is the whole is exactly 100, an empty one exactly 0. *)
Lemma percentage_none whole : 0 < whole < 2 ^ 64 -> percentage 0 whole = f64_of 0.
Proof. intros Hw. unfold percentage. destruct whole as [|w|w]; [lia| |lia]. by destruct (f64_of_pos w ltac:(lia)) as (m & e & ->). Qed.
Lemma div_self m e : f64_div (S754_finite false m e) (S754_finite false m e) = f64_of 1.
Proof.
  unfold f64_div, SFdiv, SFdiv_core_binary. rewrite !Z.sub_diag. change (fexp 53 1024 0) with (-53). change (Z.min (-53) 0) with (-53).
  change (0 - -53) with 53. cbn iota. pose proof (Z.div_eucl_eq (Z.shiftl (Z.pos m) 53) (Z.pos m) ltac:(done)) as H1.
  pose proof (Z.mod_pos_bound (Z.shiftl (Z.pos m) 53) (Z.pos m) ltac:(done)) as H2. unfold Z.modulo in H2.
  destruct (Z.div_eucl (Z.shiftl (Z.pos m) 53) (Z.pos m)) as [q r]. rewrite Z.shiftl_mul_pow2 in H1 by lia.
  assert (q = 2 ^ 53) as -> by nia. assert (r = 0) as -> by lia. unfold new_location. destruct (Z.even (Z.pos m)); by vm_compute.
Qed.
Lemma percentage_all whole : 0 < whole < 2 ^ 64 -> percentage whole whole = HUNDRED.
Proof.
  intros Hw. unfold percentage. destruct whole as [|w|w]; [lia| |lia]. destruct (f64_of_pos w ltac:(lia)) as (m & e & ->).
  by rewrite div_self.
Qed.

Section SamplingFacts.
Context {W : Type} `{api : !process_api W} `{mapi : !metrics_api W} `{laws : !filetime_laws W}.

Definition in_percent (x : f64) : Prop := SFleb (f64_of 0) x = true /\ SFleb x HUNDRED = true.

Lemma system_times_ok (s : proc_st (W * option device_map)) : match read_system_times_100ns s with
  | (Ok (idle, kernel, user), s') => s' = s /\ 0 <= idle < 2 ^ 64 /\ 0 <= kernel < 2 ^ 64 /\ 0 <= user < 2 ^ 64
  | (Err _, s') => s' = s
  | (Panic _, _) => False
  end.
Proof.
  unfold read_system_times_100ns. destruct (GetSystemTimes _) as [e|[[i k] u]] eqn:E; [done|].
  apply system_times_words in E. rewrite !Forall_cons in E. destruct E as (H1 & H2 & H3 & _). by split_and!; try apply filetime_u64.
Qed.
Lemma cpu_times_ok (self : Process) (s : proc_st (W * option device_map)) : match cpu_times self s with
  | (Ok t, s') => s' = s /\ 0 <= ct_total_time_100ns t < 2 ^ 64
  | (Err _, s') => s' = s
  | (Panic _, _) => False
  end.
Proof.
  unfold cpu_times. destruct (GetProcessTimes _ _) as [e|[k u]] eqn:E; [done|].
  apply process_times_words in E. rewrite !Forall_cons in E. destruct E as (H1%filetime_u64 & H2%filetime_u64 & _).
  split; [done|]. cbn. unfold sat_add_u64. lia.
Qed.

Lemma zero_in_percent : in_percent (f64_of 0).
Proof. by vm_compute. Qed.
Lemma calculate_in_percent a b c d : 0 <= a < 2 ^ 64 -> 0 <= b < 2 ^ 64 -> 0 <= c < 2 ^ 64 -> 0 <= d < 2 ^ 64 ->
  in_percent (calculate_cpu_percentage a b c d).
Proof.
  intros Ha Hb Hc Hd. unfold calculate_cpu_percentage. destruct (sat_sub d c =? 0) eqn:E; [apply zero_in_percent|].
  apply percentage_range; unfold sat_sub in *; lia.
Qed.

(** What a sampling function returns: a percentage, or an error; a zero
    interval is refused before anything is read. *)
Definition samples {A} (good : A -> Prop) (m : eff (proc_st (W * option device_map)) Error A) : Prop :=
  forall s, match fst (m s) with Ok a => good a | Err _ => True | Panic _ => False end.

Lemma samples_bind {A B} (good : A -> Prop) (good' : B -> Prop) (m : eff (proc_st (W * option device_map)) Error A) k :
  samples good m -> (forall a, good a -> samples good' (k a)) -> samples good' (let* a := m in k a).
Proof.
  intros Hm Hk s. unfold eff_bind. specialize (Hm s). destruct (m s) as [[a|e|x] s1]; cbn [fst] in *; [by apply Hk|done|done].
Qed.
Lemma samples_times : samples (fun '(i, k, u) => 0 <= i < 2 ^ 64 /\ 0 <= k < 2 ^ 64 /\ 0 <= u < 2 ^ 64) read_system_times_100ns.
Proof. intros s. pose proof (system_times_ok s) as H. destruct (read_system_times_100ns s) as [[[[i k] u]|e|x] s1]; cbn [fst]; naive_solver. Qed.
Lemma samples_cpu (self : Process) : samples (fun t => 0 <= ct_total_time_100ns t < 2 ^ 64) (cpu_times self).
Proof. intros s. pose proof (cpu_times_ok self s) as H. destruct (cpu_times self s) as [[t|e|x] s1]; cbn [fst]; naive_solver. Qed.
Lemma samples_sleep n : samples (fun _ => True) (sleep n).
Proof. by intros s. Qed.

Lemma cpu_usage_samples (self : Process) interval : samples in_percent (cpu_usage self interval).
Proof.
  unfold cpu_usage. destruct (interval =? 0); [by intros s|].
  eapply samples_bind; [apply samples_cpu|]. intros p1 H1. eapply samples_bind; [apply samples_times|]. intros [[i1 k1] u1] H2.
  eapply samples_bind; [apply samples_sleep|]. intros _ _. eapply samples_bind; [apply samples_cpu|]. intros p2 H3.
  eapply samples_bind; [apply samples_times|]. intros [[i2 k2] u2] H4 s. cbn [fst eff_ret].
  apply calculate_in_percent; try done; unfold sat_add_u64; lia.
Qed.
Lemma host_usage_samples interval : samples in_percent (host_cpu_usage interval).
Proof.
  unfold host_cpu_usage. destruct (interval =? 0); [by intros s|].
  eapply samples_bind; [apply samples_times|]. intros [[i1 k1] u1] H2.
  eapply samples_bind; [apply samples_sleep|]. intros _ _.
  eapply samples_bind; [apply samples_times|]. intros [[i2 k2] u2] H4 s. cbv zeta.
  destruct (_ =? 0) eqn:E; cbn [fst eff_ret]; [apply zero_in_percent|].
  apply percentage_range; unfold sat_sub, sat_add_u64 in *; lia.
Qed.

(** [C39] Processor usage is a percentage.  Whatever the counters say, in
    double-precision arithmetic, the usage of a process and of the host lies
    between 0 and 100 and is never NaN; a share that is the whole time is
    exactly 100, none of it exactly 0; and a zero interval is refused without
    reading or waiting. *)
Theorem usage_is_percentage (self : Process) (interval : Z) (s : proc_st (W * option device_map)) :
  match fst (cpu_usage self interval s) with Ok x => interval <> 0 /\ in_percent x | Err _ => True | Panic _ => False end /\
  match fst (host_cpu_usage interval s) with Ok x => interval <> 0 /\ in_percent x | Err _ => True | Panic _ => False end /\
  (interval = 0 -> cpu_usage self interval s = (Err zero_interval, s) /\ host_cpu_usage interval s = (Err zero_interval, s)) /\
  (forall a b c, 0 <= a -> 0 <= b -> 0 < c -> a + c < 2 ^ 64 -> b + c < 2 ^ 64 ->
     calculate_cpu_percentage a (a + c) b (b + c) = HUNDRED /\ calculate_cpu_percentage a a b (b + c) = f64_of 0).
Proof.
  split_and!.
  - pose proof (cpu_usage_samples self interval s) as H. unfold cpu_usage in *. destruct (interval =? 0) eqn:E; [done|].
    destruct (fst _); [|done..]. split; [lia|done].
  - pose proof (host_usage_samples interval s) as H. unfold host_cpu_usage in *. destruct (interval =? 0) eqn:E; [done|].
    destruct (fst _); [|done..]. split; [lia|done].
  - by intros ->.
  - intros a b c Ha Hb Hc Hac Hbc. unfold calculate_cpu_percentage, sat_sub.
    replace (Z.max (b + c - b) 0) with c by lia. replace (Z.max (a + c - a) 0) with c by lia. rewrite Z.sub_diag. cbn [Z.max].
    replace (c =? 0) with false by lia. split; [apply percentage_all|apply percentage_none]; lia.
Qed.
End SamplingFacts.

(** A machine with a clock of 100 ns ticks, one tick of which is busy in two. *)
Module MetricsSample.
Definition words (t : Z) : FILETIME := mkFILETIME (Z.land t (2 ^ 32 - 1)) (Z.land (Z.shiftr t 32) (2 ^ 32 - 1)).
Lemma words_ok t : 0 <= dwLowDateTime (words t) < 2 ^ 32 /\ 0 <= dwHighDateTime (words t) < 2 ^ 32.
Proof.
  unfold words. cbn [dwLowDateTime dwHighDateTime]. change (2 ^ 32 - 1) with (Z.ones 32). rewrite !Z.land_ones by lia.
  split; apply Z.mod_pos_bound; lia.
Qed.
#[export] Instance processes : process_api Z := {
  OpenProcess w a p := (inr 40, w);
  GetCurrentProcess := -1;
  current_pid := 8;
  GetProcessImageFileNameW w h n := [];
  dos_names w d := [];
  system_root w := None;
  GetExitCodeProcess w h := inr 259;
  TerminateProcess w h c := (None, w);
  EnumProcessModules w h := (inr [], w);
  GetModuleBaseNameW w h m n := [];
  GetModuleFileNameExW w h m n := [];
  GetModuleInformation w h m := None;
  ThreadSnapshot w := (inr (50, []), w);
  GetProcessMemoryInfo w h := inr (mkCounters 1 2 3 4 5 6);
  GetProcessTimes w h := inr (words (w / 4), words (w / 4)) }.
#[export] Instance sampler : metrics_api Z := {
  GetSystemTimes w := inr (words (w / 2), words (w / 2), words (w - w / 2));
  Sleep w n := w + n / 100;
  GlobalMemoryStatusEx w := inr (mkHostMemoryMetrics 16 8 32 16 50);
  GetActiveProcessorCount w := 4 }.
#[export] Instance filetimes : filetime_laws Z.
Proof.
  split.
  - intros w i k u [= <- <- <-]. repeat (apply Forall_cons; split; [apply words_ok|]). constructor.
  - intros w h k u [= <- <-]. repeat (apply Forall_cons; split; [apply words_ok|]). constructor.
Qed.
Definition begin : proc_st (Z * option device_map) := mkProcSt (2 ^ 40, None) (fun _ => 0).

Lemma usage_is_percentage_witness :
  match fst (cpu_usage (mkProcess 40 8 true) 1000000000 begin) with Ok x => in_percent x /\ x = f64_of 50 | _ => False end.
Proof.
  destruct (usage_is_percentage (mkProcess 40 8 true) 1000000000 begin) as (H & _).
  destruct (fst (cpu_usage (mkProcess 40 8 true) 1000000000 begin)) as [x|e|x] eqn:E.
  - split; [apply H|]. vm_compute in E. injection E as <-. by vm_compute.
  - vm_compute in E. discriminate.
  - exact H.
Defined.
End MetricsSample.

(** ** Elevation *)

Section Elevation.
Context {W : Type} `{ho : !handle_api} `{tapi : !token_api W} (current_process : Z).

Abbreviation P := (eff (proc_st W) Error).

(** [From<windows::core::Error>]. *)
Definition error_from (e : win_error) : Error := Error_WindowsApi (mkWindowsApiError e None).

(** The token is a bare [HANDLE]: nothing closes it. *)
Definition process_is_elevated : P bool :=
  let* token := open_handle (fun w => OpenProcessToken w current_process TOKEN_QUERY) error_from in
  let* elevation := calling (fun w => (TokenElevation w token, w)) error_from in
  eff_ret (negb (elevation =? 0)).

Definition require_elevation : P unit :=
  let* elevated := process_is_elevated in
  if negb elevated
  then eff_fail (Error_AccessDenied (mkAccessDeniedError (lit "operation") (lit "elevation") None))
  else eff_ret tt.

(** Every call that gets a token keeps it open: the answer costs a handle,
    whether it is yes, no or an error. *)
Lemma elevation_check_leaks (s : proc_st W) token w :
  OpenProcessToken (pmach s) current_process TOKEN_QUERY = (inr token, w) ->
  gained s (process_is_elevated s).2 [ResHandle token] /\ gained s (require_elevation s).2 [ResHandle token] /\
  (fst (require_elevation s) = Ok tt <-> fst (process_is_elevated s) = Ok true).
Proof.
  intros E. unfold require_elevation, process_is_elevated, open_handle, acquiring, calling, eff_bind. rewrite E. cbn [pmach foldr].
  assert (forall s', pmach s' = w -> held s' = held s -> gained s (acquire (ResHandle token) s') [ResHandle token]) as Hg.
  { intros s' _ Hh r. rewrite count_res_cons, count_res_nil. unfold acquire, bump. cbn [held]. rewrite Hh. case_decide; lia. }
  destruct (TokenElevation _ _) as [e|v]; cbn [snd fst]; [|destruct (v =? 0); cbn [negb snd fst eff_fail eff_ret]];
    (split_and!; [apply (Hg (at_machine w s)); done|apply (Hg (at_machine w s)); done|done]).
Qed.
End Elevation.
