(* ===== verification/Permissions.v ===== *)
(** * Permissions: the security functions of the file and registry modules

    src/file/mod.rs and the security part of src/registry/key.rs and
    src/registry/mod.rs: they give the permission editor and the security
    backends their targets.  The state is the registry of [Registry] beside
    the state of a [TargetBackend]. *)

From Stdlib Require Import ZArith Lia String Ascii.
From stdpp Require Import base list strings gmap numbers sorting.
From S2P Require Import Prelude Text Unicode Errors Sid Acl Sddl Backends Editor Effects Registry.

Open Scope Z_scope.

Section Facade.
Context {W S : Type} `{api : !registry_api W} `{backend : !TargetBackend S}.

(** A backend call, and a registry call, on the two states. *)
Abbreviation B := (eff S Error).
Abbreviation R := (eff (reg_st W * S) Error).
Definition on_backend {A} (m : B A) : R A := fun '(r, s) => let '(a, s) := m s in (a, (r, s)).
Definition on_registry {A} (m : eff (reg_st W) Error A) : R A := fun '(r, s) => let '(a, r) := m r in (a, (r, s)).

(** ** Files *)

(** A path is the units of its [OsStr]. *)
Definition file_target (path : list Z) : PermissionTarget := TargetFilePath (from_utf16_lossy path).
Definition read_security_descriptor (path : list Z) : B SecurityDescriptor := backend_read (file_target path).
Definition write_security_descriptor (path : list Z) (descriptor : SecurityDescriptor) : B unit :=
  backend_write (file_target path) descriptor.
Definition apply_permissions (path : list Z) (plan : PermissionEditPlan) (mode : ApplyMode) : B DescriptorEditResult :=
  execute_against_target plan (file_target path) mode.

(** ** Registry keys *)

Definition key_security_descriptor (self : RegistryKey) : R SecurityDescriptor :=
  let* target := eff_lift (security_target self) in on_backend (backend_read target).
Definition set_security_descriptor (self : RegistryKey) (descriptor : SecurityDescriptor) : R unit :=
  let* target := eff_lift (security_target self) in on_backend (backend_write target descriptor).
Definition key_apply_permissions (self : RegistryKey) (plan : PermissionEditPlan) (mode : ApplyMode) : R DescriptorEditResult :=
  let* target := eff_lift (security_target self) in on_backend (execute_against_target plan target mode).

Definition holding {A} (get : eff (reg_st W) Error RegistryKey) (k : RegistryKey -> R A) : R A :=
  let* key := on_registry get in eff_scoped (fun '(r, s) => (drop_key key r, s)) (k key).
Definition writable (hive : Hive) (path : str) : eff (reg_st W) Error RegistryKey :=
  builder_open (builder_read_write (builder_path (builder_hive builder_new hive) path)).

Definition registry_read_security_descriptor (hive : Hive) (path : str) : R SecurityDescriptor :=
  holding (key_open hive path) key_security_descriptor.
Definition registry_write_security_descriptor (hive : Hive) (path : str) (descriptor : SecurityDescriptor) : R unit :=
  holding (writable hive path) (fun key => set_security_descriptor key descriptor).
Definition registry_apply_permissions (hive : Hive) (path : str) (plan : PermissionEditPlan) (mode : ApplyMode)
    : R DescriptorEditResult :=
  holding (writable hive path) (fun key => key_apply_permissions key plan mode).

(** ** They act on the key they name *)

(** The text of the key, as the backend will read it. *)
Definition key_path (hive : Hive) (path : str) : str :=
  if decide (path = []) then as_short_name hive else as_short_name hive ++ [92] ++ path.

(** A key that was opened for [hive] and [path], and what opening leaves. *)
Lemma opened_key hive path sam context (r : reg_st W) :
  match open_with hive path sam context r with
  | (Ok key, r1) => security_target key = Ok (TargetRegistryPath (key_path hive path)) /\
      opened (drop_key key r1) = opened r ++ [rk_handle key] /\ reg_closed (drop_key key r1) = reg_closed r ++ [rk_handle key]
  | (Err _, r1) => opened r1 = opened r /\ reg_closed r1 = reg_closed r
  | (Panic _, _) => False
  end.
Proof.
  unfold open_with. destruct (RegOpenKey _ _ _ _) as [[status h] w]. destruct (status =? 0); [done|].
  by destruct (status =? ERROR_FILE_NOT_FOUND).
Qed.

(** One backend operation behind an open key. *)
Lemma holding_ok {A} (op : PermissionTarget -> B A) hive path sam context (get : eff (reg_st W) Error RegistryKey) r s :
  get r = open_with hive path sam context r ->
  let m := holding get (fun key => let* target := eff_lift (security_target key) in on_backend (op target)) in
  let t := TargetRegistryPath (key_path hive path) in
  match fst (get r) with
  | Ok key => fst (m (r, s)) = fst (op t s) /\ snd (snd (m (r, s))) = snd (op t s)
  | Err e => fst (m (r, s)) = Err e /\ snd (snd (m (r, s))) = s
  | Panic _ => False
  end /\
  exists hs, opened (fst (snd (m (r, s)))) = opened r ++ hs /\ reg_closed (fst (snd (m (r, s)))) = reg_closed r ++ hs.
Proof.
  intros E m t. unfold m, holding, on_registry, eff_bind. pose proof (opened_key hive path sam context r) as H. rewrite <- E in H.
  destruct (get r) as [[key|e|x] r1]; cbn [fst]; [|split; [done|]; exists []; by rewrite !app_nil_r|done].
  destruct H as (Ht & Ho & Hc). unfold eff_scoped, eff_lift, on_backend. rewrite Ht. fold t.
  destruct (op t s) as [a s1]. cbn [fst snd]. split; [done|]. by exists [rk_handle key].
Qed.

Lemma normalize_slashes_id path : normalize_slashes path = path <-> lacks 47 path.
Proof.
  unfold normalize_slashes, lacks. induction path as [|c path IH]; [done|]. rewrite Forall_cons.
  cbn [fmap list_fmap]. destruct (Z.eqb_spec c 47) as [->|Hc]; split.
  - intros [=].
  - by intros [? _].
  - intros [= H]. by split; [|apply IH].
  - intros [_ H]. f_equal. by apply IH.
Qed.

(** A builder with a WOW64 view, for reading or for writing. *)
Definition viewed (b : RegistryKeyBuilder) (view : Wow64View) : RegistryKeyBuilder :=
  match view with Key32 => builder_wow64_32 b | Key64 => builder_wow64_64 b end.

(** [C28] Which key the registry's permission functions act on.  When the key
    opens, reading, writing and applying a plan are exactly the backend's
    operations on one target, and the text of that target is parsed by the
    backend as the same hive and the path with its forward slashes turned
    into backslashes; when it does not open, the open's error is returned and
    the backend is not called.  Either way every key handle that was opened
    is closed.  So the key that was opened and the key that is edited have
    the same path exactly when the path has no forward slash: [a/b] is
    opened as one key name and edited as [a\b].  The target does not say
    with which WOW64 view the key was opened either: a key opened through the
    builder with a view has the target of the default view. *)
Theorem registry_permissions_act_on_key hive path plan mode descriptor (r : reg_st W) (s : S) :
  let t := TargetRegistryPath (key_path hive path) in
  let acts {A} (get : eff (reg_st W) Error RegistryKey) (m : R A) (op : PermissionTarget -> B A) :=
    match fst (get r) with
    | Ok key => fst (m (r, s)) = fst (op t s) /\ snd (snd (m (r, s))) = snd (op t s)
    | Err e => fst (m (r, s)) = Err e /\ snd (snd (m (r, s))) = s
    | Panic _ => False
    end /\
    exists hs, opened (fst (snd (m (r, s)))) = opened r ++ hs /\ reg_closed (fst (snd (m (r, s)))) = reg_closed r ++ hs in
  parse_registry_path (key_path hive path) = Ok (as_hkey hive, normalize_slashes path) /\
  (normalize_slashes path = path <-> lacks 47 path) /\
  (forall view key r', builder_open (viewed (builder_path (builder_hive builder_new hive) path) view) r = (Ok key, r') ->
     security_target key = Ok t) /\
  acts (key_open hive path) (registry_read_security_descriptor hive path) backend_read /\
  acts (writable hive path) (registry_write_security_descriptor hive path descriptor) (fun t => backend_write t descriptor) /\
  acts (writable hive path) (registry_apply_permissions hive path plan mode) (fun t => execute_against_target plan t mode).
Proof.
  intros t acts. split_and!.
  - apply (security_target_same_key (mkRegistryKey 0 true (Some hive) (Some path)) hive path); done.
  - apply normalize_slashes_id.
  - intros view key r' E.
    assert (exists sam, open_with hive path sam (Some (lit "RegOpenKeyExW")) r = (Ok key, r')) as [sam E'].
    { destruct view; eexists; exact E. }
    pose proof (opened_key hive path sam (Some (lit "RegOpenKeyExW")) r) as H. rewrite E' in H. apply H.
  - apply (holding_ok backend_read hive path KEY_READ None (key_open hive path) r s eq_refl).
  - apply (holding_ok (fun t => backend_write t descriptor) hive path
             (Z.lor (access_to_sam_flags ReadWrite) 0) (Some (lit "RegOpenKeyExW")) (writable hive path) r s eq_refl).
  - apply (holding_ok (fun t => execute_against_target plan t mode) hive path
             (Z.lor (access_to_sam_flags ReadWrite) 0) (Some (lit "RegOpenKeyExW")) (writable hive path) r s eq_refl).
Qed.
End Facade.
